(* ===== verification/_CoqProject ===== *)
-Q . S2P
Prelude.v
Blocks.v
Codec.v
IdeTypes.v
IdeGeometry.v
IdePacket.v
IdeCommand.v
IdeTick.v
IdeInvariant.v
IdeSafety.v
IdeProtocol.v
IdeDisk.v
IdeWrite.v
IdeAtapi.v
IdeIdentify.v
IdeCheckpoint.v
Floppy.v
SharedBus.v
Text.v
Screen.v
Input.v
Keyboard.v
Control.v
Server.v
Window.v
Ddr.v
Clock.v
Video.v
Config.v
Options.v
Monitor.v
Console.v
Harness.v
CosimMem.v
CosimMatch.v
CosimDecode.v
CosimAccess.v
CosimRun.v
CosimStep.v
CosimLockstep.v
CosimHost.v
MainLoop.v
Startup.v
CosimFollow.v
CosimSystem.v
Outputs.v
Files.v
RamSnapshot.v
Checkpoints.v
SnapshotState.v
CosimCheckpoint.v
Resume.v
CosimX86.v
