(* ===== verification/Prelude.v ===== *)
(** * z486 simulator host: verification library

    The program is the host side of the z486 MiSTer simulator (src/verilator):
    a C++ main loop that clocks the Verilated model of the machine, is its
    memory, drives, keyboard, mouse, screen and sound, writes checkpoints of the
    whole, and can run a 486 of the 86Box project beside the model, comparing
    what the two do.  The model itself (Verilog) and 86Box are not in C++ here
    or not in the repository: they are parameters.

    ** The parts and how they interact

    [main] (main.cpp) reads its command line (Options), opens the media and
    takes the machine through its reset (Startup) or restores a checkpoint
    (Resume), and enters the loop (MainLoop).  An iteration is one clock of
    the system.  It takes commands from the control socket (Control), serves the
    three drives over one management bus (SharedBus over IdeTick and Floppy),
    hands bytes to the PS/2 ports (Input, Keyboard), lets the co-simulation see
    the clock (CosimHost), steps the model with its memory and sound (Clock over
    Ddr), captures the picture (Video) and looks at the screen's text (Screen,
    Console), polls the window (Window), reports milestones (Monitor), and
    writes checkpoints (Harness, Checkpoints) and portable snapshots
    (SnapshotState, RamSnapshot, CosimCheckpoint).

    ** Files

    Shared: this file (record update [r <| f := v |>], machine integers [u8] to
    [u64], byte lists and their little-endian value, arrays [znth]/[zupdate],
    the tactics [urange], [divlia], [width], [case_bool] and the hint databases
    [z486], [z486_rw], [z486_range], [z486_bytes]); Blocks (images as base and
    changed blocks); Codec (std::istream/ostream objects, class [CodecOk]);
    Files (fread/fwrite objects); Text (std::string searches, numbers,
    std::istringstream).

    ide_hps.cpp/.h, class HpsIde: IdeTypes (data), IdeGeometry (CHS/LBA,
    IDENTIFY, open), IdePacket (ATAPI), IdeCommand (ATA), IdeTick (tick: one
    definition [on_<STATE>] for each case of the switch), IdeCheckpoint (save,
    load, save_image, load_image, adopt_image_path).  Proofs: IdeInvariant,
    IdeSafety, IdeProtocol, IdeDisk, IdeWrite, IdeAtapi, IdeIdentify.

    main.cpp: Floppy (class HpsFloppy), SharedBus (the management part of the
    loop), Input and Keyboard (PS/2 queues, mouse packets, keyboard commands;
    scancode.h), Control (process_control_commands; the lines of
    control_server.cpp), Server (its threads and descriptors), Window (SDL events), Ddr (the Avalon slave of [step], KV260 accesses, ROM staging),
    Clock ([step], [full_step]), Video (consume_video, the framebuffer
    renderers), Screen (current_text_screen and its searches), Console (what is
    done at a frame), Config (CMOS, floppy slots, status word), Options (the
    command line), Monitor (milestones, exit status), Harness (write_harness,
    read_harness), Startup, MainLoop, Checkpoints (save_checkpoint,
    prune_checkpoints, resolve_restore_path), Resume (restore_checkpoint),
    Outputs (wav_writer.h, zfile.h).

    cosim/: CosimMem (RAM and paging), CosimMatch (event queues and their
    comparison), CosimDecode (iss_glue.h's decoder, flag effects), CosimAccess
    (the accesses of an instruction; stubs.c), CosimRun (a step of the
    reference: [run], [cosim_step], [cosim_interrupt]), CosimX86 (86Box support
    code).  cosim_host.cpp: CosimHost ([cosim_host_cycle], [process_issue]),
    CosimFollow and CosimSystem (host and reference together), RamSnapshot and
    CosimCheckpoint (portable snapshots).  snapshot.cpp: SnapshotState.  Proofs
    about steps: CosimStep, CosimLockstep.

    Names are the source's; a record is a class or a group of globals, an
    assignment is [<| |>], a method a function on the record.  A result in
    [option] is [None] where the C++ is undefined (an array index out of range,
    overflow of an int, division by zero) or, in a recursion with fuel, where
    the fuel runs out; [Result] adds exceptions, [Parse] the ways the command
    line ends the program.

    ** Interfaces

    [Codec]/[CodecOk]: the object representations of checkpoints.  [Sdl]: SDL's
    keycodes, distinct where the table of keys needs them.  [Model]: the
    Verilated model behind the main loop, its evaluation and the ports that are
    sampled; the theorems hold for any.  [Reference]: the functions of cosim86.h
    the host calls, proved against in CosimHost and CosimFollow, given by
    CosimSystem's instance.  [Box86] and [BoxHost]: the functions of 86Box the
    reference calls - its instructions are programs of memory and I/O accesses
    ([Prog]).  [Layout]/[LayoutOk]: 86Box's structures in a state file.  File
    contents and identities ([fs_read], [fs_stat]) and std::sort are arguments.

    ** What the theorems show

    Drives: the device's tick is defined on every reachable state and keeps the
    invariant; one management operation at a time; a command that is given ends;
    READ and WRITE SECTORS and the ATAPI READ transfer exactly the sectors or
    blocks; a floppy request sends its sector; on the shared bus a channel whose
    neighbours are quiet behaves as alone.

    Memory, sound, picture: the DDR slave refines a flat byte memory behind any
    wait requests and accepts a held request in bounded time; the audio clock
    keeps its rate; a scanned frame is shown pixel for pixel.

    Input: mouse packets decode to the movement; the keyboard answers commands
    as its table says; keys of the window, the control socket, the command line
    and --key-on-text reach the guest in order; lines of the socket are handled
    once whatever the threads' interleaving, and stopping the server returns and
    closes every descriptor once.

    The program: accepted settings are in range and events are read back as they
    were written; a fresh run starts whatever the model does and writes each
    register for one clock; every iteration serves each part once per clock;
    the reports are the run's history.

    Co-simulation: with no divergence reported and nothing outstanding the
    memories of z486 and of the reference are equal, through stalls, faults, cut
    strings and interrupts, for any instruction set behind the interface; the
    host runs the reference along z486's issues, each once unless RPTI restarts
    it, and gives it the acknowledged vectors and the bus transfers in order; a
    register divergence is reported exactly when it persists; a stalled step
    leaves no trace; a fault leaves only the bytes a split write had stored;
    flags are adopted exactly where they are undefined.

    Saved states: the harness's checkpoint, the devices' media, RAM keyframes
    and differences, the model's fields by name, and the co-simulation's state
    load back as they were saved; the directories keep what they promise; a
    restored checkpoint is the loop that was saved but for the parts listed in
    [Resume.resumed] and, of the co-simulation, [CosimCheckpoint.host_loaded].

    Where the code does something else than it means to, a lemma shows it on the
    model (for instance [SharedBus.concurrent_commands_collide],
    [MainLoop.speed_blocked], [Checkpoints.latest_dangles],
    [CosimHost.restart_survives_reset], [RamSnapshot.blank_loses_keyframes]).

    ** Bounds and fuel

    [Clock.audio_loop] is given the quotient of the accumulator, and
    [Clock.step_spec] shows that every step returns; [Input.encode_loop] has the
    larger displacement and always returns ([Input.encode_loop_decodes]);
    [CosimMatch.match_write] has the queue's length ([match_write_total]);
    [Console.next_shot] the number of intervals ([next_shot_multiple]);
    [Screen.dump_rows] the screen's length; [CosimMem.next_pow2] the 32 doublings
    of a 32-bit number.  The prefix loop of the decoder returns when its fuel
    covers the prefixes ([CosimDecode.prefix_run]); the loops over a REP string
    run 86Box's code, so that their end is a hypothesis on it, and
    [CosimStep.rep_cut_exact] shows that one element per iteration is enough.
    The main loop runs as many iterations as there are turns given, each turn
    being what the iteration meets outside (the host's clocks, the lines of the
    socket, the window's events).

    ** Not modelled

    The RTL, the Verilated model and 86Box's instruction code: parameters.
    libpng and SDL (screen images, the window, its title and texture), messages, waveform dumps, the report of
    the co-simulation and its debugging output, the zSST profile: output with no
    state of the run behind it.  zstd is taken as the identity on contents.
    Writes to files are taken to succeed, as most of them are not checked.
    misterfs_host.cpp adapts an interface that is not in the repository;
    most of cosim/stubs.c and the first part of iss_glue.h are empty functions
    and macros that satisfy 86Box's linker; cosim_arch, which copies registers
    into an array for z486, is there only as its attribute word (CosimX86).
    restore_snapshot's order of calls is not put together as that of
    restore_checkpoint is in Resume; its parts are modelled. *)
From Stdlib Require Export ZArith Lia ZifyBool Bool.
From stdpp Require Export base list gmap.

#[export] Set Default Goal Selector "!".

Declare Scope z486_scope.
Delimit Scope z486_scope with z486.
Global Open Scope Z_scope.
Global Open Scope z486_scope.

(** ** Hint databases of the library *)

Create HintDb z486.
Create Rewrite HintDb z486_rw.
Create HintDb z486_range.
Create HintDb z486_bytes.

(** ** Record update

    [r <| field := v |>] is the C++ assignment [r.field = v] as a pure
    function.  A record states its eta-expansion once ([Eta]); the setter of a
    projection is found in it. *)

Class Eta (R : Type) := eta : R -> R.

Class Setter {R E : Type} (proj : R -> E) := set_field : (E -> E) -> R -> R.

Ltac build_setter R proj :=
  let e := constr:(_ : Eta R) in
  let e := eval hnf in e in
  let upd := fresh "upd" in
  let r := fresh "r" in
  intros upd r;
  let b := eval cbv beta in (e r) in
  lazymatch eval pattern (proj r) in b with
  | ?F _ => let res := eval cbv beta in (F (upd (proj r))) in exact res
  end.

#[export] Hint Extern 1 (@Setter ?R ?E ?proj) =>
  unfold Setter; build_setter R proj : typeclass_instances.

Notation "x <| proj := v |>" := (set_field (proj := proj) (fun _ => v) x)
  (at level 12, left associativity, proj constr, v constr at level 99,
   format "x  <| proj  :=  v |>") : z486_scope.

(** Case analysis on the conditionals of a goal or hypothesis. *)
Ltac case_bool :=
  match goal with
  | |- context [if ?b then _ else _] => let E := fresh "E" in destruct b eqn:E
  | H : context [if ?b then _ else _] |- _ => let E := fresh "E" in destruct b eqn:E
  end.

(** ** Machine integers

    A [w]-bit unsigned object holds a [Z] in [0, 2^w); a store truncates. *)

Definition u8 (x : Z) : Z := x mod 256.
Definition u16 (x : Z) : Z := x mod 65536.
Definition u32 (x : Z) : Z := x mod 4294967296.
Definition u64 (x : Z) : Z := x mod 18446744073709551616.

(** A byte read as a [signed char]. *)
Definition s8 (x : Z) : Z := if 128 <=? u8 x then u8 x - 256 else u8 x.

Definition is_u8 (x : Z) : Prop := 0 <= x < 256.
Definition is_u16 (x : Z) : Prop := 0 <= x < 65536.
Definition is_u32 (x : Z) : Prop := 0 <= x < 4294967296.
Definition is_u64 (x : Z) : Prop := 0 <= x < 18446744073709551616.

Definition b2z (b : bool) : Z := if b then 1 else 0.

(** An [int] multiplication; overflow of a signed type is undefined. *)
Definition int_mul (a b : Z) : option Z :=
  if (-2147483648 <=? a * b) && (a * b <? 2147483648) then Some (a * b) else None.

(** [divlia]: linear arithmetic with quotients and remainders. *)
Ltac divlia := Z.to_euclidean_division_equations; lia.

(** [urange] closes goals on the width of a truncated or constant value. *)
Ltac urange :=
  unfold is_u8, is_u16, is_u32, is_u64, u8, u16, u32, u64, s8, b2z in *;
  repeat match goal with |- context [if ?b then _ else _] => destruct b end;
  divlia.

Lemma u8_range x : is_u8 (u8 x).
Proof. urange. Qed.
Lemma u16_range x : is_u16 (u16 x).
Proof. urange. Qed.
Lemma u32_range x : is_u32 (u32 x).
Proof. urange. Qed.
Lemma u64_range x : is_u64 (u64 x).
Proof. urange. Qed.

Lemma u8_id x : is_u8 x -> u8 x = x.
Proof. intros; unfold u8; apply Z.mod_small; urange. Qed.
Lemma u16_id x : is_u16 x -> u16 x = x.
Proof. intros; unfold u16; apply Z.mod_small; urange. Qed.
Lemma u32_id x : is_u32 x -> u32 x = x.
Proof. intros; unfold u32; apply Z.mod_small; urange. Qed.
Lemma u64_id x : is_u64 x -> u64 x = x.
Proof. intros; unfold u64; apply Z.mod_small; urange. Qed.

#[export] Hint Resolve u8_range u16_range u32_range u64_range : z486_range.
#[export] Hint Rewrite u8_id u16_id u32_id u64_id using urange : z486_rw.

Lemma s8_u8 x : u8 (s8 x) = u8 x.
Proof. unfold s8, u8. destruct (128 <=? x mod 256) eqn:E; divlia. Qed.

(** Bit-level lemmas: masks and byte packing as arithmetic. *)

Lemma land_ones_mod x n : 0 <= n -> Z.land x (Z.ones n) = x mod 2 ^ n.
Proof. intros; by apply Z.land_ones. Qed.

Lemma land_255 x : Z.land x 255 = u8 x.
Proof. apply (Z.land_ones x 8). lia. Qed.
Lemma land_65535 x : Z.land x 65535 = u16 x.
Proof. apply (Z.land_ones x 16). lia. Qed.
Lemma land_15 x : Z.land x 15 = x mod 16.
Proof. apply (Z.land_ones x 4). lia. Qed.
Lemma land_7 x : Z.land x 7 = x mod 8.
Proof. apply (Z.land_ones x 3). lia. Qed.
Lemma land_3 x : Z.land x 3 = x mod 4.
Proof. apply (Z.land_ones x 2). lia. Qed.
Lemma land_1 x : Z.land x 1 = x mod 2.
Proof. apply (Z.land_ones x 1). lia. Qed.

Lemma shiftr_div x n : 0 <= n -> Z.shiftr x n = x / 2 ^ n.
Proof. intros; by apply Z.shiftr_div_pow2. Qed.
Lemma shiftl_mul x n : 0 <= n -> Z.shiftl x n = x * 2 ^ n.
Proof. intros; by apply Z.shiftl_mul_pow2. Qed.

(** Widths of bitwise operations. *)

Lemma lor_range n x y : 0 <= n -> 0 <= x < 2 ^ n -> 0 <= y < 2 ^ n -> 0 <= Z.lor x y < 2 ^ n.
Proof.
  intros Hn Hx Hy. rewrite <- (Z.mod_small x (2 ^ n)), <- (Z.mod_small y (2 ^ n)) by lia.
  rewrite <- !Z.land_ones by lia. rewrite <- Z.land_lor_distr_l, Z.land_ones by lia.
  apply Z.mod_pos_bound, Z.pow_pos_nonneg; lia.
Qed.

Lemma lor_u8 x y : is_u8 x -> is_u8 y -> is_u8 (Z.lor x y).
Proof. apply (lor_range 8). lia. Qed.
Lemma lor_u16 x y : is_u16 x -> is_u16 y -> is_u16 (Z.lor x y).
Proof. apply (lor_range 16). lia. Qed.
Lemma lor_u32 x y : is_u32 x -> is_u32 y -> is_u32 (Z.lor x y).
Proof. apply (lor_range 32). lia. Qed.

Lemma land_lxor_ones x y n :
  0 <= n -> Z.land (Z.lxor x y) (Z.ones n) = Z.lxor (Z.land x (Z.ones n)) (Z.land y (Z.ones n)).
Proof.
  intros Hn. apply Z.bits_inj'; intros i Hi.
  rewrite Z.land_spec, !Z.lxor_spec, !Z.land_spec.
  by destruct (Z.testbit x i), (Z.testbit y i), (Z.testbit (Z.ones n) i).
Qed.

Lemma lxor_range n x y : 0 <= n -> 0 <= x < 2 ^ n -> 0 <= y < 2 ^ n -> 0 <= Z.lxor x y < 2 ^ n.
Proof.
  intros Hn Hx Hy. rewrite <- (Z.mod_small x (2 ^ n)), <- (Z.mod_small y (2 ^ n)) by lia.
  rewrite <- !Z.land_ones by lia. rewrite <- land_lxor_ones, Z.land_ones by lia.
  apply Z.mod_pos_bound, Z.pow_pos_nonneg; lia.
Qed.

Lemma land_le x m : 0 <= m -> 0 <= Z.land x m <= m.
Proof.
  intros Hm. split; [apply Z.land_nonneg; lia|].
  apply Z.ldiff_le; [lia|]. apply Z.bits_inj'. intros i Hi.
  rewrite Z.ldiff_spec, Z.land_spec, Z.bits_0. by destruct (Z.testbit x i), (Z.testbit m i).
Qed.

Lemma land_range n x m : 0 <= m -> m < n -> 0 <= Z.land x m < n.
Proof. intros Hm Hn. pose proof (land_le x m Hm). lia. Qed.

Lemma shiftr_range n x k : 0 <= k -> 0 <= x < n -> 0 <= Z.shiftr x k < n.
Proof.
  intros Hk Hx. rewrite shiftr_div by lia.
  assert (0 < 2 ^ k) by (apply Z.pow_pos_nonneg; lia).
  split; [apply Z.div_pos; lia|]. apply Z.div_lt_upper_bound; nia.
Qed.

#[export] Hint Resolve lor_u8 lor_u16 lor_u32 : z486_range.

(** Disjoint fields: [hi << n | lo] is [hi * 2^n + lo]. *)
Lemma lor_shiftl_add hi lo n :
  0 <= n -> 0 <= lo < 2 ^ n -> Z.lor (Z.shiftl hi n) lo = hi * 2 ^ n + lo.
Proof.
  intros Hn Hlo. rewrite <- (Z.shiftl_mul_pow2 hi n) by lia.
  symmetry. rewrite Z.add_nocarry_lxor.
  - rewrite Z.lxor_lor; [done|].
    apply Z.bits_inj'; intros i Hi.
    rewrite Z.land_spec, Z.bits_0.
    destruct (Z.lt_ge_cases i n) as [Hlt|Hge].
    + rewrite Z.shiftl_spec_low by lia. done.
    + rewrite <- (Z.mod_small lo (2 ^ n)) by lia.
      rewrite Z.mod_pow2_bits_high by lia. by rewrite andb_false_r.
  - apply Z.bits_inj'; intros i Hi.
    rewrite Z.land_spec, Z.bits_0.
    destruct (Z.lt_ge_cases i n) as [Hlt|Hge].
    + rewrite Z.shiftl_spec_low by lia. done.
    + rewrite <- (Z.mod_small lo (2 ^ n)) by lia.
      rewrite Z.mod_pow2_bits_high by lia. by rewrite andb_false_r.
Qed.

Lemma lor_shiftl_add' hi lo n :
  0 <= n -> 0 <= lo < 2 ^ n -> Z.lor lo (Z.shiftl hi n) = hi * 2 ^ n + lo.
Proof. intros; rewrite Z.lor_comm; by apply lor_shiftl_add. Qed.

(** [width] decides that a machine expression fits its type. *)
Ltac width :=
  lazymatch goal with
  | |- is_u8 (u8 _) => apply u8_range
  | |- is_u16 (u16 _) => apply u16_range
  | |- is_u32 (u32 _) => apply u32_range
  | |- is_u64 (u64 _) => apply u64_range
  | |- is_u8 (Z.lor _ _) => apply lor_u8; width
  | |- is_u16 (Z.lor _ _) => apply lor_u16; width
  | |- is_u32 (Z.lor _ _) => apply lor_u32; width
  | |- is_u8 (Z.land _ _) => unfold is_u8; apply land_range; lia
  | |- is_u16 (Z.land _ _) => unfold is_u16; apply land_range; lia
  | |- is_u32 (Z.land _ _) => unfold is_u32; apply land_range; lia
  | |- _ (if ?b then _ else _) => destruct b; width
  | |- _ => first
    [ assumption
    | match goal with |- _ ?c => is_const c; by vm_compute end
    | unfold is_u8, is_u16, is_u32, is_u64 in *; lia
    | rewrite ?shiftr_div, ?shiftl_mul by lia;
      unfold is_u8, is_u16, is_u32, is_u64, u8, u16, u32 in *; divlia ]
  end.

(** ** Little-endian encoding of integers *)

Fixpoint le_bytes (n : nat) (z : Z) : list Z :=
  match n with
  | O => []
  | S n => u8 z :: le_bytes n (z / 256)
  end.

Fixpoint le_val (l : list Z) : Z :=
  match l with
  | [] => 0
  | b :: l => b + 256 * le_val l
  end.

Definition bytes (l : list Z) : Prop := Forall is_u8 l.

Lemma length_le_bytes n z : length (le_bytes n z) = n.
Proof. revert z; induction n; intros; simpl; auto. Qed.

Lemma le_bytes_bytes n z : bytes (le_bytes n z).
Proof. revert z; induction n; intros; constructor; [apply u8_range|apply IHn]. Qed.

Lemma le_val_bytes n z : le_val (le_bytes n z) = z mod 256 ^ Z.of_nat n.
Proof.
  revert z; induction n as [|n IH]; intros z.
  - simpl. by rewrite Z.mod_1_r.
  - cbn [le_bytes le_val]. rewrite IH, Nat2Z.inj_succ, Z.pow_succ_r by lia.
    rewrite Z.rem_mul_r by lia. unfold u8. lia.
Qed.

Lemma le_bytes_val l : bytes l -> le_bytes (length l) (le_val l) = l.
Proof.
  induction 1 as [|b l Hb Hl IH]; [done|]. cbn [length le_bytes le_val].
  unfold is_u8 in Hb. f_equal.
  - unfold u8. rewrite Z.mul_comm, Z_mod_plus_full. apply Z.mod_small; lia.
  - replace ((b + 256 * le_val l) / 256) with (le_val l) by divlia. done.
Qed.

Lemma le_val_range l : bytes l -> 0 <= le_val l < 256 ^ Z.of_nat (length l).
Proof.
  induction 1 as [|b l Hb Hl IH]; [simpl; lia|].
  cbn [length le_val]. unfold is_u8 in Hb.
  rewrite Nat2Z.inj_succ, Z.pow_succ_r by lia. lia.
Qed.

#[export] Hint Resolve le_bytes_bytes : z486_range.

(** ** Lists *)

(** [splice i new l]: the elements of [l] from index [i] replaced by [new]
    ([memcpy] into a buffer; [new] must fit). *)
Definition splice {A} (i : nat) (new l : list A) : list A :=
  take i l ++ new ++ drop (i + length new) l.

Lemma length_splice {A} i (new l : list A) :
  (i + length new <= length l)%nat -> length (splice i new l) = length l.
Proof. intros; unfold splice. rewrite !length_app, length_take, length_drop. lia. Qed.

(** [a\[i\]] for an array: an index outside it is undefined behaviour. *)
Definition zlookup {A} (l : list A) (i : Z) : option A :=
  if 0 <=? i then l !! Z.to_nat i else None.

Lemma zlookup_Some {A} (l : list A) i :
  0 <= i < Z.of_nat (length l) -> exists x, zlookup l i = Some x /\ l !! Z.to_nat i = Some x.
Proof.
  intros Hi. destruct (lookup_lt_is_Some_2 l (Z.to_nat i)) as [x Hx]; [lia|].
  exists x. unfold zlookup. rewrite (proj2 (Z.leb_le _ _)) by lia. done.
Qed.

Lemma zlookup_Forall {A} (P : A -> Prop) l i x : Forall P l -> zlookup l i = Some x -> P x.
Proof. unfold zlookup. intros Hl. case_bool; [|done]. by apply Forall_lookup_1. Qed.

(** ** Byte vectors *)

Lemma bytes_nil : bytes [].
Proof. constructor. Qed.
Lemma bytes_cons b l : is_u8 b -> bytes l -> bytes (b :: l).
Proof. by constructor. Qed.
Lemma bytes_app l k : bytes l -> bytes k -> bytes (l ++ k).
Proof. apply Forall_app_2. Qed.
Lemma bytes_insert i b l : is_u8 b -> bytes l -> bytes (<[i := b]> l).
Proof. intros; by apply Forall_insert. Qed.
Lemma bytes_replicate n b : is_u8 b -> bytes (replicate n b).
Proof. intros; by apply Forall_replicate. Qed.
Lemma bytes_resize n b l : is_u8 b -> bytes l -> bytes (resize n b l).
Proof. intros; by apply Forall_resize. Qed.
Lemma bytes_take n l : bytes l -> bytes (take n l).
Proof. apply Forall_take. Qed.
Lemma bytes_drop n l : bytes l -> bytes (drop n l).
Proof. apply Forall_drop. Qed.
Lemma bytes_splice i l k : bytes l -> bytes k -> bytes (splice i l k).
Proof.
  intros. unfold splice. auto using bytes_app, bytes_take, bytes_drop.
Qed.

#[export] Hint Resolve bytes_nil bytes_cons bytes_app bytes_insert bytes_replicate
  bytes_resize bytes_take bytes_drop bytes_splice le_bytes_bytes : z486_bytes.
#[export] Hint Extern 3 (is_u8 _) => width : z486_bytes.

Lemma Forall_lookup_default {A} (P : A -> Prop) (d : A) l (i : nat) :
  P d -> Forall P l -> P (default d (l !! i)).
Proof.
  intros Hd Hl. destruct (l !! i) eqn:E; simpl; [|done].
  by eapply Forall_lookup in Hl.
Qed.


(** [a\[i\] = v] for an array: an index outside it is undefined behaviour. *)
Definition zupdate {A} (l : list A) (i : Z) (v : A) : option (list A) :=
  if (0 <=? i) && (i <? Z.of_nat (length l)) then Some (<[Z.to_nat i := v]> l) else None.

(** An element that the code reads only below the vector's size. *)
Definition znth {A} (d : A) (l : list A) (i : Z) : A := default d (zlookup l i).

Lemma zupdate_Some {A} (l : list A) i v :
  0 <= i < Z.of_nat (length l) -> zupdate l i v = Some (<[Z.to_nat i := v]> l).
Proof. intros. unfold zupdate. by rewrite (proj2 (andb_true_iff _ _)) by lia. Qed.

Lemma zupdate_length {A} (l l' : list A) i v : zupdate l i v = Some l' -> length l' = length l.
Proof. unfold zupdate. case_bool; [|done]. intros [= <-]. apply length_insert. Qed.

Lemma znth_update {A} (d : A) (l l' : list A) i v j :
  zupdate l i v = Some l' -> znth d l' j = if j =? i then v else znth d l j.
Proof.
  unfold zupdate, znth, zlookup. case_bool; [|done]. intros [= <-].
  apply andb_true_iff in E as [E1 E2]. destruct (Z.eqb_spec j i) as [->|Hne].
  - rewrite E1, list_lookup_insert_eq by lia. done.
  - destruct (0 <=? j) eqn:Ej; [|done]. by rewrite list_lookup_insert_ne by lia.
Qed.

Lemma zupdate_bytes l l' i v : is_u8 v -> bytes l -> zupdate l i v = Some l' -> bytes l'.
Proof. unfold zupdate. intros. case_bool; [|done]. simplify_eq. by apply bytes_insert. Qed.

Lemma znth_out {A} (d : A) l i : ~ 0 <= i < Z.of_nat (length l) -> znth d l i = d.
Proof.
  intros Hi. unfold znth, zlookup. case_bool; [|done]. by rewrite lookup_ge_None_2 by lia.
Qed.

Lemma znth_Forall {A} (P : A -> Prop) d l i : P d -> Forall P l -> P (znth d l i).
Proof.
  intros Hd Hl. unfold znth. destruct (zlookup l i) eqn:E; [|done]. by eapply zlookup_Forall.
Qed.

Lemma znth_u8 l i : bytes l -> is_u8 (znth 0 l i).
Proof. apply (znth_Forall is_u8). by vm_compute. Qed.

(** Bits of a byte-wise assembly [b0 | b1 << 8 | ...]. *)
Fixpoint or_bytes (k : Z) (l : list Z) : Z :=
  match l with
  | [] => 0
  | b :: l => Z.lor (Z.shiftl b k) (or_bytes (k + 8) l)
  end.

Lemma or_bytes_val l : forall k, 0 <= k -> bytes l -> or_bytes k l = le_val l * 2 ^ k.
Proof.
  induction l as [|b l IH]; intros k Hk Hl; [done|]. inversion Hl; subst. cbn [or_bytes le_val].
  rewrite IH by (done || lia). rewrite Z.pow_add_r by lia. change (2 ^ 8) with 256.
  replace (le_val l * (2 ^ k * 256)) with (Z.shiftl (le_val l * 256) k)
    by (rewrite Z.shiftl_mul_pow2 by lia; ring).
  rewrite <- Z.shiftl_lor, Z.shiftl_mul_pow2 by lia. f_equal.
  change 256 with (2 ^ 8) at 1. rewrite <- (Z.shiftl_mul_pow2 _ 8) by lia.
  rewrite lor_shiftl_add' by (unfold is_u8 in *; lia). lia.
Qed.
