(* ===== verification/Blocks.v ===== *)
(** * Images as sequences of blocks

    A checkpoint stores the blocks of an image that differ from a base: the
    512-byte sectors of a disk ([IdeCheckpoint]), the 4 KB pages of the guest's
    RAM ([RamSnapshot]).  Writing those blocks over the base gives the image. *)
From S2P Require Import Prelude.

Section Blocks.
Context {A : Type} (B : nat) (B_pos : (0 < B)%nat).
Implicit Types img new base : list A.

(** The [k]-th block; the last one may be short. *)
Definition block (img : list A) (k : nat) : list A := take B (drop (k * B) img).

(** [img] with the blocks [ks] of [new]. *)
Definition patch (new : list A) (ks : list nat) (img : list A) : list A :=
  fold_left (fun b k => splice (k * B) (block new k) b) ks img.

Lemma lookup_block img k i : (k * B <= i < k * B + B)%nat -> block img k !! (i - k * B)%nat = img !! i.
Proof using Type. clear B_pos. intros Hi. unfold block. rewrite lookup_take_lt, lookup_drop by lia. f_equal. lia. Qed.

Lemma length_block img k : length (block img k) = Nat.min B (length img - k * B).
Proof using Type. unfold block. by rewrite length_take, length_drop. Qed.

Lemma block_index i k : (i / B = k <-> k * B <= i < k * B + B)%nat.
Proof using B_pos. pose proof (Nat.div_mod_eq i B). pose proof (Nat.mod_upper_bound i B). nia. Qed.

Lemma lookup_splice_block new img k i :
  length img = length new -> (k * B < length new)%nat ->
  splice (k * B) (block new k) img !! i = if decide (i / B = k)%nat then new !! i else img !! i.
Proof using B_pos.
  intros Hlen Hk. unfold splice. rewrite length_block. pose proof (block_index i k) as Hdiv.
  destruct (decide (i < k * B)%nat) as [H1|H1].
  - rewrite lookup_app_l, lookup_take_lt by (rewrite ?length_take; lia).
    rewrite decide_False by lia. done.
  - rewrite lookup_app_r by (rewrite length_take; lia). rewrite length_take.
    replace (Nat.min (k * B) (length img)) with (k * B)%nat by lia.
    destruct (decide (i < k * B + Nat.min B (length new - k * B))%nat) as [H2|H2].
    + rewrite lookup_app_l by (rewrite length_block; lia).
      rewrite lookup_block, decide_True by lia. done.
    + rewrite lookup_app_r by (rewrite length_block; lia). rewrite length_block, lookup_drop.
      replace (k * B + Nat.min B (length new - k * B) + (i - k * B - Nat.min B (length new - k * B)))%nat
        with i by lia.
      destruct (decide (i / B = k)%nat) as [H3|H3]; [|done].
      rewrite !lookup_ge_None_2 by lia. done.
Qed.

Lemma length_splice_block new img k :
  length img = length new -> (k * B < length new)%nat ->
  length (splice (k * B) (block new k) img) = length new.
Proof using Type. clear B_pos. intros Hl Hk. rewrite length_splice; [done|]. rewrite length_block. lia. Qed.

Lemma lookup_patch new ks : forall img i,
  length img = length new -> Forall (fun k => k * B < length new)%nat ks ->
  length (patch new ks img) = length new /\
  patch new ks img !! i = if decide (i / B ∈ ks)%nat then new !! i else img !! i.
Proof using B_pos.
  induction ks as [|k ks IH]; intros img i Hlen Hks.
  - cbn. rewrite decide_False by apply not_elem_of_nil. done.
  - inversion_clear Hks. cbn [patch fold_left].
    destruct (IH (splice (k * B) (block new k) img) i) as [Hl Hp]; [by apply length_splice_block|done|].
    split; [exact Hl|]. etransitivity; [exact Hp|]. rewrite lookup_splice_block by done.
    destruct (decide (i / B ∈ ks)%nat) as [Hin|Hin].
    + rewrite decide_True by (rewrite elem_of_cons; tauto). done.
    + destruct (decide (i / B = k)%nat) as [->|Hne].
      * rewrite decide_True by (rewrite elem_of_cons; tauto). done.
      * rewrite decide_False; [done|]. rewrite elem_of_cons. tauto.
Qed.

(** The blocks that differ are enough. *)
Lemma patch_complete new ks base :
  length base = length new -> Forall (fun k => k * B < length new)%nat ks ->
  (forall k, (k * B < length new)%nat -> k ∉ ks -> block base k = block new k) ->
  patch new ks base = new.
Proof using B_pos.
  intros Hlen Hks Hsame. apply list_eq. intros i.
  destruct (lookup_patch new ks base i Hlen Hks) as [_ ->]. case_decide as Hin; [done|].
  destruct (decide (i < length new)%nat) as [Hi|Hi]; [|by rewrite (lookup_ge_None_2 base), (lookup_ge_None_2 new) by lia].
  pose proof (proj1 (block_index i (i / B)%nat) eq_refl) as Hb.
  rewrite <- (lookup_block base _ i Hb), <- (lookup_block new _ i Hb). by rewrite Hsame by (done || lia).
Qed.
End Blocks.
