(* ===== verification/Codec.v ===== *)
(** * Binary streams

    The checkpoint helpers of verilator/ide_hps.cpp and verilator/main.cpp:
    [write_pod]/[read_pod] and the string and vector forms, over a model of
    [std::istream] whose short reads leave the rest of the object untouched and
    set the fail state.  [Codec] is the interface of an object representation;
    each loader has a round-trip lemma against its writer. *)
From S2P Require Import Prelude.

(** ** Results of code that can throw or be undefined *)

Inductive Result (A : Type) :=
| Ok (a : A)
| Throw
| Undefined.
Arguments Ok {A} a.
Arguments Throw {A}.
Arguments Undefined {A}.

#[export] Instance Result_ret : MRet Result := fun A a => Ok a.
#[export] Instance Result_bind : MBind Result := fun A B f m =>
  match m with Ok a => f a | Throw => Throw | Undefined => Undefined end.

(** ** [std::istream] *)

Record Istream := mkIn {
  in_data : list Z;     (* bytes not yet extracted *)
  in_fail : bool        (* not good() *)
}.

#[export] Instance eta_Istream : Eta Istream := fun i => mkIn (in_data i) (in_fail i).

Definition stream (l : list Z) : Istream := mkIn l false.

(** [in.read(p, n)] where [p] points to the bytes [old] (at least [n]). *)
Definition istream_read (n : nat) (old : list Z) (i : Istream) : list Z * Istream :=
  if in_fail i then (old, i)
  else
    let got := take n (in_data i) in
    (got ++ drop (length got) old, mkIn (drop n (in_data i)) (length got <? n)%nat).

(** ** Object representations *)

Record Codec (T : Type) := mkCodec {
  c_size : nat;
  c_enc : forall v : T, list Z;
  c_dec : forall l : list Z, option T;     (* [None]: not a value of the type *)
  c_valid : forall v : T, Prop
}.
Arguments c_size {T} c.
Arguments c_enc {T} c v.
Arguments c_dec {T} c l.
Arguments c_valid {T} c v.

Class CodecOk {T} (c : Codec T) : Prop := {
  enc_size v : length (c_enc c v) = c_size c;
  enc_bytes v : bytes (c_enc c v);
  dec_enc v : c_valid c v -> c_dec c (c_enc c v) = Some v
}.

(** Unsigned integers of [n] bytes, little-endian. *)
Definition unsigned (n : nat) : Codec Z := {|
  c_size := n;
  c_enc := le_bytes n;
  c_dec l := Some (le_val l);
  c_valid v := 0 <= v < 256 ^ Z.of_nat n
|}.

(** Signed integers, two's complement. *)
Definition signed (n : nat) : Codec Z := {|
  c_size := n;
  c_enc := le_bytes n;
  c_dec l := let v := le_val l in
    Some (if 256 ^ Z.of_nat n <=? 2 * v then v - 256 ^ Z.of_nat n else v);
  c_valid v := - 256 ^ Z.of_nat n <= 2 * v < 256 ^ Z.of_nat n
|}.

(** [bool]: 0 or 1; any other byte is not a value of the type. *)
Definition boolean : Codec bool := {|
  c_size := 1;
  c_enc b := [b2z b];
  c_dec l := match l with [0] => Some false | [1] => Some true | _ => None end;
  c_valid _ := True
|}.

#[export] Instance unsigned_ok n : CodecOk (unsigned n).
Proof.
  constructor; cbn; intros.
  - apply length_le_bytes.
  - apply le_bytes_bytes.
  - by rewrite le_val_bytes, Z.mod_small.
Qed.

#[export] Instance signed_ok n : CodecOk (signed n).
Proof.
  constructor; cbn; intros.
  - apply length_le_bytes.
  - apply le_bytes_bytes.
  - rewrite le_val_bytes. set (m := 256 ^ Z.of_nat n) in *. f_equal.
    destruct (Z.leb_spec m (2 * (v mod m))); destruct (Z.lt_ge_cases v 0).
    + replace (v mod m) with (v + m); [lia|]. apply Z.mod_unique with (-1); lia.
    + rewrite Z.mod_small in *; lia.
    + replace (v mod m) with (v + m) in *; [lia|]. apply Z.mod_unique with (-1); lia.
    + rewrite Z.mod_small in *; lia.
Qed.

#[export] Instance boolean_ok : CodecOk boolean.
Proof.
  constructor; [done| |by intros []].
  intros b. apply bytes_cons, bytes_nil. destruct b; cbn; width.
Qed.

Notation u8c := (unsigned 1).
Notation u16c := (unsigned 2).
Notation u32c := (unsigned 4).
Notation u64c := (unsigned 8).

Lemma valid_u8 v : is_u8 v -> c_valid u8c v.
Proof. unfold is_u8; cbn; lia. Qed.
Lemma valid_u16 v : is_u16 v -> c_valid u16c v.
Proof. unfold is_u16; cbn; lia. Qed.
Lemma valid_u32 v : is_u32 v -> c_valid u32c v.
Proof. unfold is_u32; cbn; lia. Qed.
Lemma valid_u64 v : is_u64 v -> c_valid u64c v.
Proof. unfold is_u64; cbn; lia. Qed.
Lemma valid_bool b : c_valid boolean b.
Proof. done. Qed.
Lemma valid_i32 v : -2147483648 <= v < 2147483648 -> c_valid (signed 4) v.
Proof. unfold c_valid, signed. change (256 ^ Z.of_nat 4) with 4294967296. lia. Qed.
Lemma valid_i64 v : -9223372036854775808 <= v < 9223372036854775808 -> c_valid (signed 8) v.
Proof. unfold c_valid, signed. change (256 ^ Z.of_nat 8) with 18446744073709551616. lia. Qed.
Create HintDb codec.
#[export] Hint Resolve valid_u8 valid_u16 valid_u32 valid_u64 valid_i32 valid_i64 valid_bool : codec.

(** ** [write_pod], [read_pod] *)

Definition write_pod {T} (c : Codec T) (v : T) : list Z := c_enc c v.

Definition read_pod {T} (c : Codec T) (old : T) (i : Istream) : Result (T * Istream) :=
  let '(l, i) := istream_read (c_size c) (c_enc c old) i in
  match c_dec c l with
  | Some v => Ok (v, i)
  | None => Undefined
  end.

(** [in.read(reinterpret_cast<char*>(buf), sizeof(buf))]. *)
Definition read_buf (old : list Z) (i : Istream) : list Z * Istream :=
  istream_read (length old) old i.

Definition write_string (value : list Z) : list Z :=
  write_pod u32c (u32 (Z.of_nat (length value))) ++ take (Z.to_nat (u32 (Z.of_nat (length value)))) value.

(** [value.resize(size)] keeps the old prefix; the read then overwrites it. *)
Definition read_string (old : list Z) (i : Istream) : Result (list Z * Istream) :=
  '(size, i) ← read_pod u32c 0 i;
  Ok (istream_read (Z.to_nat size) (resize (Z.to_nat size) 0 old) i).

Definition write_vector_u8 (value : list Z) : list Z :=
  write_pod u64c (u64 (Z.of_nat (length value))) ++ value.

Definition read_vector_u8 (old : list Z) (i : Istream) : Result (list Z * Istream) :=
  '(size, i) ← read_pod u64c 0 i;
  let value := resize (Z.to_nat size) 0 old in
  Ok (if size =? 0 then (value, i) else istream_read (Z.to_nat size) value i).

(** A sequence of objects of one type, each read over the old one. *)
Fixpoint read_pods {T} (c : Codec T) (old : list T) (i : Istream) : Result (list T * Istream) :=
  match old with
  | [] => Ok ([], i)
  | v :: old =>
    '(v, i) ← read_pod c v i;
    '(l, i) ← read_pods c old i;
    Ok (v :: l, i)
  end.

Definition write_pods {T} (c : Codec T) (l : list T) : list Z := concat (map (write_pod c) l).

(** ** Round trips *)

Lemma istream_read_full n old l rest :
  length l = n -> length old = n -> istream_read n old (stream (l ++ rest)) = (l, stream rest).
Proof.
  intros Hl Ho. unfold istream_read. cbn [in_fail in_data stream].
  rewrite take_app_length', drop_app_length' by done.
  rewrite drop_ge by lia. rewrite app_nil_r, Hl, Nat.ltb_irrefl. done.
Qed.

Lemma read_pod_write {T} (c : Codec T) {ok : CodecOk c} (v old : T) rest :
  c_valid c v -> read_pod c old (stream (write_pod c v ++ rest)) = Ok (v, stream rest).
Proof.
  intros Hv. unfold read_pod, write_pod.
  rewrite istream_read_full by apply enc_size. by rewrite dec_enc.
Qed.

Lemma read_buf_write old l rest :
  length l = length old -> read_buf old (stream (l ++ rest)) = (l, stream rest).
Proof. intros. by apply istream_read_full. Qed.

Lemma read_string_write old l rest :
  Z.of_nat (length l) < 4294967296 ->
  read_string old (stream (write_string l ++ rest)) = Ok (l, stream rest).
Proof.
  intros Hl. unfold read_string, write_string. rewrite <- app_assoc.
  rewrite (read_pod_write u32c) by apply valid_u32, u32_range.
  cbn [mbind Result_bind]. rewrite u32_id, Nat2Z.id, take_ge by (unfold is_u32; lia).
  by rewrite istream_read_full by (rewrite ?length_resize; done).
Qed.

Lemma read_vector_u8_write old l rest :
  Z.of_nat (length l) < 18446744073709551616 ->
  read_vector_u8 old (stream (write_vector_u8 l ++ rest)) = Ok (l, stream rest).
Proof.
  intros Hl. unfold read_vector_u8, write_vector_u8. rewrite <- app_assoc.
  rewrite (read_pod_write u64c) by apply valid_u64, u64_range.
  cbn [mbind Result_bind]. rewrite u64_id, Nat2Z.id by (unfold is_u64; lia).
  case_bool.
  - destruct l; [|cbn in E; lia]. cbn [length]. by rewrite resize_0.
  - by rewrite istream_read_full by (rewrite ?length_resize; done).
Qed.

Lemma read_pods_write {T} (c : Codec T) {ok : CodecOk c} (l old : list T) rest :
  Forall (c_valid c) l -> length old = length l ->
  read_pods c old (stream (write_pods c l ++ rest)) = Ok (l, stream rest).
Proof.
  intros Hl. revert old. induction Hl as [|v l Hv _ IH]; intros old Ho.
  - by destruct old.
  - destruct old as [|o old]; [done|]. cbn [read_pods write_pods map concat].
    change (concat (map (write_pod c) l)) with (write_pods c l).
    rewrite <- app_assoc, (read_pod_write c v o) by done. cbn [mbind Result_bind].
    rewrite IH by (cbn in Ho; lia). done.
Qed.

(** A stream that has failed changes nothing any more. *)
Lemma read_pod_failed {T} (c : Codec T) {ok : CodecOk c} (old : T) i :
  c_valid c old -> in_fail i = true -> read_pod c old i = Ok (old, i).
Proof. intros Hv Hf. unfold read_pod, istream_read. rewrite Hf. by rewrite dec_enc. Qed.

(** ** Loading into the fields of an object

    A [Loader] reads from the stream into an object of type [S]: the member
    function [load], whose statements are sequenced by [;;]. *)

Definition Loader (S : Type) := S -> Istream -> Result (S * Istream).

Definition seq_load {S} (a b : Loader S) : Loader S := fun s i => '(s, i) ← a s i; b s i.
Notation "a ;;; b" := (seq_load a b) (at level 100, b at level 200, right associativity).

Definition load_pod {S T} (c : Codec T) (proj : S -> T) {St : Setter (E := T) proj} : Loader S :=
  fun s i => '(v, i) ← read_pod c (proj s) i; Ok (set_field (proj := proj) (fun _ => v) s, i).

Definition load_buf {S} (proj : S -> list Z) {St : Setter (E := list Z) proj} : Loader S :=
  fun s i => let '(v, i) := read_buf (proj s) i in Ok (set_field (proj := proj) (fun _ => v) s, i).

Definition load_string {S} (proj : S -> list Z) {St : Setter (E := list Z) proj} : Loader S :=
  fun s i => '(v, i) ← read_string (proj s) i; Ok (set_field (proj := proj) (fun _ => v) s, i).

Definition load_vector_u8 {S} (proj : S -> list Z) {St : Setter (E := list Z) proj} : Loader S :=
  fun s i => '(v, i) ← read_vector_u8 (proj s) i; Ok (set_field (proj := proj) (fun _ => v) s, i).

Definition load_pods {S T} (c : Codec T) (proj : S -> list T) {St : Setter (E := list T) proj} : Loader S :=
  fun s i => '(v, i) ← read_pods c (proj s) i; Ok (set_field (proj := proj) (fun _ => v) s, i).

Definition load_sub {S T} (proj : S -> T) {St : Setter (E := T) proj} (l : Loader T) : Loader S :=
  fun s i => '(v, i) ← l (proj s) i; Ok (set_field (proj := proj) (fun _ => v) s, i).

(** [loads l bs f]: from [bs] followed by anything, [l] applies [f]. *)
Definition loads {S} (l : Loader S) (s : S) (bs : list Z) (s' : S) : Prop :=
  forall rest, l s (stream (bs ++ rest)) = Ok (s', stream rest).

Lemma loads_seq {S} (a b : Loader S) s1 s2 s3 ba bb :
  loads a s1 ba s2 -> loads b s2 bb s3 -> loads (a ;;; b) s1 (ba ++ bb) s3.
Proof.
  intros Ha Hb rest. unfold seq_load. rewrite <- app_assoc, Ha. cbn [mbind Result_bind]. apply Hb.
Qed.

Section Loads.
Context {S T : Type}.

Lemma loads_pod (c : Codec T) {ok : CodecOk c} (proj : S -> T) {St : Setter (E := T) proj} s v :
  c_valid c v -> loads (load_pod c proj) s (write_pod c v) (set_field (proj := proj) (fun _ => v) s).
Proof. intros Hv rest. unfold load_pod. by rewrite (read_pod_write c). Qed.

Lemma loads_buf (proj : S -> list Z) {St : Setter (E := list Z) proj} s v :
  length v = length (proj s) -> loads (load_buf proj) s v (set_field (proj := proj) (fun _ => v) s).
Proof. intros Hv rest. unfold load_buf. by rewrite read_buf_write. Qed.

Lemma loads_string (proj : S -> list Z) {St : Setter (E := list Z) proj} s v :
  Z.of_nat (length v) < 4294967296 ->
  loads (load_string proj) s (write_string v) (set_field (proj := proj) (fun _ => v) s).
Proof. intros Hv rest. unfold load_string. by rewrite read_string_write. Qed.

Lemma loads_vector_u8 (proj : S -> list Z) {St : Setter (E := list Z) proj} s v :
  Z.of_nat (length v) < 18446744073709551616 ->
  loads (load_vector_u8 proj) s (write_vector_u8 v) (set_field (proj := proj) (fun _ => v) s).
Proof. intros Hv rest. unfold load_vector_u8. by rewrite read_vector_u8_write. Qed.

Lemma loads_pods (c : Codec T) {ok : CodecOk c} (proj : S -> list T) {St : Setter (E := list T) proj} s v :
  Forall (c_valid c) v -> length (proj s) = length v ->
  loads (load_pods c proj) s (write_pods c v) (set_field (proj := proj) (fun _ => v) s).
Proof. intros Hv Hl rest. unfold load_pods. by rewrite (read_pods_write c). Qed.

Lemma loads_sub (proj : S -> T) {St : Setter (E := T) proj} (l : Loader T) s v bs :
  loads l (proj s) bs v -> loads (load_sub proj l) s bs (set_field (proj := proj) (fun _ => v) s).
Proof. intros Hl rest. unfold load_sub. by rewrite Hl. Qed.
End Loads.
