(* ===== verification/IdeTypes.v ===== *)
(** * The emulated IDE/ATAPI device: state, bus and constants

    Data of [HpsIde] (verilator/ide_hps.h): the task-file registers, the drive
    description, the state machine's states and the device object, with the
    ports of the Verilated top level that the device drives or samples.
    Fields keep the C++ names; the members of [HpsIdeRegs] and [HpsIdeDrive]
    carry an [r_] and a [d_] prefix. *)
From S2P Require Import Prelude.
From Stdlib Require Ascii String.
Export String.StringSyntax.

(** The [ATA_STATUS_*] macros. *)
Definition ATA_STATUS_RDY : Z := 0x40.
Definition ATA_STATUS_DSC : Z := 0x10.
Definition ATA_STATUS_DRQ : Z := 0x08.
Definition ATA_STATUS_IRQ : Z := 0x04.
Definition ATA_STATUS_END : Z := 0x02.
Definition ATA_STATUS_ERR : Z := 0x01.

(** [struct HpsIdeRegs]. *)
Record HpsIdeRegs := mkRegs {
  r_io_size : Z;          (* uint8_t *)
  r_error : Z;            (* uint8_t *)
  r_sector_count : Z;     (* uint16_t *)
  r_sector : Z;           (* uint16_t *)
  r_cylinder : Z;         (* uint32_t *)
  r_head : Z;             (* uint8_t *)
  r_drv : Z;              (* uint8_t *)
  r_lba : Z;              (* uint8_t *)
  r_cmd : Z;              (* uint8_t *)
  r_pkt_io_size : Z;      (* uint16_t *)
  r_status : Z            (* uint8_t *)
}.

#[export] Instance eta_HpsIdeRegs : Eta HpsIdeRegs :=
  fun r => mkRegs (r_io_size r) (r_error r) (r_sector_count r) (r_sector r)
    (r_cylinder r) (r_head r) (r_drv r) (r_lba r) (r_cmd r) (r_pkt_io_size r)
    (r_status r).

(** [HpsIdeRegs{}]: the default member initializers. *)
Definition regs_init : HpsIdeRegs := mkRegs 0 0 1 1 0 0 0 0 0 0 ATA_STATUS_RDY.

(** [struct HpsIdeDrive]. *)
Record HpsIdeDrive := mkDrive {
  d_present : bool;
  d_cylinders : Z;        (* uint16_t *)
  d_heads : Z;            (* uint16_t *)
  d_spt : Z;              (* uint16_t *)
  d_total_sectors : Z;    (* uint32_t *)
  d_spb : Z;              (* uint32_t *)
  d_id : list Z           (* uint16_t[256] *)
}.

#[export] Instance eta_HpsIdeDrive : Eta HpsIdeDrive :=
  fun r => mkDrive (d_present r) (d_cylinders r) (d_heads r) (d_spt r)
    (d_total_sectors r) (d_spb r) (d_id r).

Definition drive_init : HpsIdeDrive := mkDrive false 0 16 63 0 16 (replicate 256 0).

(** [HpsIde::State], in declaration order. *)
Inductive State :=
| INITIAL | IDLE | GET_RESET_DRIVE | RESET_SET | GET_CMD | DO_CMD | SEND_ID
| SET_REGS | SET_REGS_SEND | READ | READ_REGS | READ_SEND | READ_WAIT_REQ
| WRITE | WRITE_REGS | WRITE_WAIT_REQ | WRITE_RECV
| PACKET_WAIT_REQ | PACKET_RECV | PACKET_SEND | PACKET_READ_WAIT_REQ | PACKET_HANDLE.

#[global] Instance State_eq_dec : EqDecision State.
Proof. solve_decision. Defined.

(** [class HpsIde]: its data members, in declaration order.  [sector_words_]
    points into [image_]: it is a byte offset, [None] for [nullptr]. *)
Record HpsIde := mkIde {
  id_ : Z;                (* uint8_t *)
  base_ : Z;              (* uint16_t *)
  state_ : State;
  next_state_ : State;
  regs_ : HpsIdeRegs;
  drive_ : HpsIdeDrive;
  image_ : list Z;        (* std::vector<uint8_t> *)
  image_name_ : list Z;   (* std::string *)
  image_path_ : list Z;   (* std::string *)
  sector_words_ : option Z;
  sector_ : Z;            (* uint32_t *)
  sector_count_ : Z;      (* uint32_t *)
  cylinder_ : Z;          (* uint32_t *)
  drv_addr_ : Z;          (* uint8_t *)
  cmd_ : Z;               (* uint8_t *)
  features_ : Z;          (* uint8_t *)
  buf_ : list Z;          (* uint8_t[12] *)
  packet_ : list Z;       (* uint8_t[12] *)
  packet_data_ : list Z;  (* std::vector<uint8_t> *)
  packet_lba_ : Z;        (* uint32_t *)
  packet_remaining_ : Z;  (* uint32_t *)
  packet_size_limit_ : Z; (* uint16_t *)
  sense_key_ : Z;         (* uint8_t *)
  sense_asc_ : Z;         (* uint8_t *)
  sense_ascq_ : Z;        (* uint8_t *)
  cnt_ : Z;               (* int *)
  irq_pending_ : Z;       (* uint8_t *)
  bus_cooldown_ : bool;
  jitter_delay_ : Z;      (* int *)
  debug_ : bool;
  cdrom_ : bool
}.

#[export] Instance eta_HpsIde : Eta HpsIde :=
  fun r => mkIde (id_ r) (base_ r) (state_ r) (next_state_ r) (regs_ r) (drive_ r)
    (image_ r) (image_name_ r) (image_path_ r) (sector_words_ r) (sector_ r)
    (sector_count_ r) (cylinder_ r) (drv_addr_ r) (cmd_ r) (features_ r) (buf_ r)
    (packet_ r) (packet_data_ r) (packet_lba_ r) (packet_remaining_ r)
    (packet_size_limit_ r) (sense_key_ r) (sense_asc_ r) (sense_ascq_ r) (cnt_ r)
    (irq_pending_ r) (bus_cooldown_ r) (jitter_delay_ r) (debug_ r) (cdrom_ r).

(** The ports of [Vz486_mister_sim] the device uses. *)
Record Bus := mkBus {
  reset : bool;
  mgmt_address : Z;       (* 16 bits *)
  mgmt_read : bool;
  mgmt_write : bool;
  mgmt_writedata : Z;     (* 16 bits *)
  mgmt_readdata : Z;      (* 16 bits *)
  ide0_request : Z;       (* 3 bits *)
  ide1_request : Z;       (* 3 bits *)
  fdd_request : Z         (* 2 bits *)
}.

#[export] Instance eta_Bus : Eta Bus :=
  fun r => mkBus (reset r) (mgmt_address r) (mgmt_read r) (mgmt_write r)
    (mgmt_writedata r) (mgmt_readdata r) (ide0_request r) (ide1_request r)
    (fdd_request r).

(** [HpsIde::HpsIde(uint8_t id, uint16_t base_addr)] with the default member
    initializers of the class. *)
Definition HpsIde_new (id base_addr : Z) : HpsIde :=
  {| id_ := u8 id; base_ := u16 base_addr; state_ := INITIAL; next_state_ := IDLE;
     regs_ := regs_init; drive_ := drive_init; image_ := []; image_name_ := [];
     image_path_ := []; sector_words_ := None; sector_ := 0; sector_count_ := 0;
     cylinder_ := 0; drv_addr_ := 0; cmd_ := 0; features_ := 0;
     buf_ := replicate 12 0; packet_ := replicate 12 0; packet_data_ := [];
     packet_lba_ := 0; packet_remaining_ := 0; packet_size_limit_ := 0;
     sense_key_ := 0; sense_asc_ := 0; sense_ascq_ := 0; cnt_ := 0;
     irq_pending_ := 0; bus_cooldown_ := false; jitter_delay_ := 0;
     debug_ := false; cdrom_ := false |}.

(** Bytes of a string literal. *)
Definition str (s : String.string) : list Z :=
  map (fun c => Z.of_N (Ascii.N_of_ascii c)) (String.list_ascii_of_string s).
Arguments str _%_string_scope.

Lemma str_bytes s : bytes (str s).
Proof.
  unfold str, bytes. apply Forall_map, Forall_true. intros c.
  pose proof (Ascii.N_ascii_bounded c). unfold is_u8; simpl. lia.
Qed.

(** ** Bus operations: [pulse_read], [pulse_write], [clear_bus]. *)

Definition pulse_read (tb : Bus) (addr : Z) : Bus :=
  tb <| mgmt_address := u16 addr |> <| mgmt_read := true |> <| mgmt_write := false |>.

Definition pulse_write (tb : Bus) (addr data : Z) : Bus :=
  tb <| mgmt_address := u16 addr |> <| mgmt_writedata := u16 data |>
     <| mgmt_write := true |> <| mgmt_read := false |>.

Definition clear_bus (tb : Bus) : Bus :=
  tb <| mgmt_read := false |> <| mgmt_write := false |>.

(** [uint8_t req = id_ ? tb.ide1_request : tb.ide0_request]. *)
Definition request (s : HpsIde) (tb : Bus) : Z :=
  if id_ s =? 0 then ide0_request tb else ide1_request tb.

(** ** The sector window: [sector_words_\[k\]] for a pointer into [image_].

    An access outside the image is undefined behaviour, [None]. *)

Definition word_at (img : list Z) (off : Z) : option Z :=
  lo ← zlookup img off;
  hi ← zlookup img (off + 1);
  Some (Z.lor lo (Z.shiftl hi 8)).

Definition store_word (img : list Z) (off w : Z) : option (list Z) :=
  if (0 <=? off) && (off + 1 <? Z.of_nat (length img)) then
    Some (splice (Z.to_nat off) [u8 w; u8 (Z.shiftr w 8)] img)
  else None.

Lemma word_at_Some img off :
  0 <= off -> off + 1 < Z.of_nat (length img) -> exists w, word_at img off = Some w.
Proof.
  intros H0 H1. unfold word_at.
  destruct (zlookup_Some img off) as (lo & -> & _); [lia|].
  destruct (zlookup_Some img (off + 1)) as (hi & -> & _); [lia|]. eauto.
Qed.

Lemma word_at_range img off w : bytes img -> word_at img off = Some w -> is_u16 w.
Proof.
  unfold word_at. intros Hb H.
  destruct (zlookup img off) as [lo|] eqn:Elo; [|done]; simpl in H.
  destruct (zlookup img (off + 1)) as [hi|] eqn:Ehi; [|done]; simpl in H.
  injection H as <-.
  apply (zlookup_Forall is_u8) in Elo, Ehi; [|done..].
  unfold is_u8 in *. rewrite (lor_shiftl_add' hi lo 8) by lia. urange.
Qed.

Lemma store_word_length img off w img' :
  store_word img off w = Some img' -> length img' = length img.
Proof.
  unfold store_word. case_bool; [|done]. intros [= <-].
  apply andb_true_iff in E as [??]. apply length_splice. simpl. lia.
Qed.

Lemma store_word_bytes img off w img' :
  bytes img -> store_word img off w = Some img' -> bytes img'.
Proof.
  unfold store_word. intros Hb. case_bool; [|done]. intros [= <-].
  unfold splice, bytes. repeat apply Forall_app_2;
    [by apply Forall_take | repeat constructor; apply u8_range | by apply Forall_drop].
Qed.
