(* ===== verification/IdeGeometry.v ===== *)
(** * IDE geometry: IDENTIFY data, CHS and LBA addressing, opening an image

    [be_word], [set_ident_string], [update_identify], [set_geometry],
    [get_lba], [put_lba], [open] and [open_cdrom] of verilator/ide_hps.cpp. *)
From S2P Require Import Prelude IdeTypes.
From Stdlib Require Ascii String.

(** ** IDENTIFY strings *)

(** [be_word(char hi, char lo)]: [char] is signed, [uint16_t] arithmetic. *)
Definition be_word (hi lo : Z) : Z :=
  u16 (Z.lor (Z.shiftl (u16 (s8 hi)) 8) (u8 lo)).

(** [id\[k\] = v] for the constant indices below 256. *)
Definition set_word (id : list Z) (kv : nat * Z) : list Z := <[kv.1 := kv.2]> id.

Definition set_words (kvs : list (nat * Z)) (id : list Z) : list Z :=
  fold_left set_word kvs id.

Fixpoint ident_words (base : nat) (count : nat) (padded : list Z) : list (nat * Z) :=
  match count, padded with
  | S count, hi :: lo :: padded => (base, be_word hi lo) :: ident_words (S base) count padded
  | _, _ => []
  end.

Definition set_ident_string (id : list Z) (word_base word_count : nat) (text : list Z) : list Z :=
  let padded := resize (word_count * 2) 32 text in
  set_words (ident_words word_base word_count padded) id.

(** ** [HpsIde::update_identify] *)

Definition cdrom_identify : list Z :=
  let id := replicate 256 0 in
  let id := set_words [(0%nat, 0x8580)] id in
  let id := set_ident_string id 10 10 (str "AOCD00000") in
  let id := set_ident_string id 23 4 (str "1.0") in
  let id := set_ident_string id 27 20 (str "MiSTer CDROM") in
  set_words
    [(49%nat, 512); (53%nat, 0x0007);
     (65%nat, 120); (66%nat, 120); (67%nat, 120); (68%nat, 120);
     (80%nat, 0x007E); (82%nat, Z.lor 512 16); (83%nat, 16384); (84%nat, 16384);
     (85%nat, Z.lor (Z.lor 16384 512) 16); (87%nat, 16384);
     (93%nat, Z.lor 1 (Z.lor 16384 (Z.lor 8192 (Z.lor 512 (Z.lor 256 (Z.lor 8 2))))))] id.

(** [std::string model = image_name_; if (model.size() > 40) model.resize(40)]. *)
Definition model_string (name : list Z) : list Z :=
  if (40 <? length name)%nat then resize 40 0 name else name.

Definition disk_identify (d : HpsIdeDrive) (image_name : list Z) : list Z :=
  let lo := u16 (Z.land (d_total_sectors d) 0xFFFF) in
  let hi := u16 (Z.shiftr (d_total_sectors d) 16) in
  let id := replicate 256 0 in
  let id := set_words
    [(0%nat, 0x0040); (1%nat, d_cylinders d); (2%nat, 0x0000); (3%nat, d_heads d);
     (4%nat, u16 (512 * d_spt d)); (5%nat, 512); (6%nat, d_spt d)] id in
  let id := set_ident_string id 10 10 (str "AOHD0000") in
  let id := set_words [(20%nat, 3); (21%nat, 512); (22%nat, 4)] id in
  let id := set_ident_string id 23 4 [] in
  let id := set_ident_string id 27 20 [] in
  let id := set_words
    [(47%nat, 0x8020); (48%nat, 0x0001); (49%nat, 512); (50%nat, 0x4001);
     (51%nat, 0x0200); (52%nat, 0x0200); (53%nat, 0x0007);
     (54%nat, d_cylinders d); (55%nat, d_heads d); (56%nat, d_spt d);
     (57%nat, lo); (58%nat, hi); (59%nat, 0x0110); (60%nat, lo); (61%nat, hi);
     (62%nat, 0); (63%nat, 0); (64%nat, 0);
     (65%nat, 120); (66%nat, 120); (67%nat, 120); (68%nat, 120);
     (80%nat, 0x007E); (81%nat, 0); (82%nat, Z.lor 16384 512);
     (83%nat, Z.lor 16384 (Z.lor 8192 4096)); (84%nat, 16384);
     (85%nat, Z.lor 16384 512); (86%nat, Z.lor 16384 (Z.lor 8192 4096)); (87%nat, 16384);
     (93%nat, Z.lor 16384 (Z.lor 8192 (Z.lor 512 (Z.lor 256 (Z.lor 8 (Z.lor 2 1))))));
     (100%nat, lo); (101%nat, hi); (102%nat, 0); (103%nat, 0)] id in
  if (length image_name =? 0)%nat then id
  else set_ident_string id 27 20 (model_string image_name).

Definition update_identify (s : HpsIde) : HpsIde :=
  let id := if cdrom_ s then cdrom_identify else disk_identify (drive_ s) (image_name_ s) in
  s <| drive_ := drive_ s <| d_id := id |> |>.

#[global] Arguments cdrom_identify : simpl never.
#[global] Arguments disk_identify : simpl never.

(** ** [HpsIde::set_geometry]

    [heads] and [spt] are [uint16_t] and multiply as [int]. *)
Definition set_geometry (s : HpsIde) (sectors heads : Z) : option HpsIde :=
  let heads := if u16 heads =? 0 then 16 else u16 heads in
  let spt := if u16 sectors =? 0 then 63 else u16 sectors in
  hspt ← int_mul heads spt;
  let cylinders := d_total_sectors (drive_ s) / hspt in
  let cylinders := if 65535 <? cylinders then 65535 else cylinders in
  let d := drive_ s <| d_heads := heads |> <| d_spt := spt |> <| d_cylinders := u16 cylinders |> in
  Some (update_identify (s <| drive_ := d |>)).

(** ** [HpsIde::get_lba], [HpsIde::put_lba] *)

Definition get_lba (d : HpsIdeDrive) (r : HpsIdeRegs) : Z :=
  if negb (r_lba r =? 0) then
    Z.lor (Z.lor (Z.land (r_sector r) 0x00FF)
                 (u32 (Z.shiftl (Z.land (r_cylinder r) 0xFFFF) 8)))
          (u32 (Z.shiftl (Z.land (r_head r) 0x0F) 24))
  else
    let lba := r_cylinder r in
    let lba := u32 (lba * d_heads d) in
    let lba := u32 (lba + r_head r) in
    let lba := u32 (lba * d_spt d) in
    u32 (lba + (r_sector r - 1)).

(** Division by a zero sector count is undefined. *)
Definition put_lba (d : HpsIdeDrive) (r : HpsIdeRegs) (lba : Z) : option HpsIdeRegs :=
  if negb (r_lba r =? 0) then
    let r := r <| r_sector := u16 (Z.land lba 0x00FF) |> in
    let lba := Z.shiftr lba 8 in
    let r := r <| r_cylinder := Z.land lba 0xFFFF |> in
    let lba := Z.shiftr lba 16 in
    Some (r <| r_head := u8 (Z.land lba 0x0F) |>)
  else
    hspt ← int_mul (d_heads d) (d_spt d);
    if (hspt =? 0) || (d_spt d =? 0) then None else
    let r := r <| r_cylinder := lba / hspt |> in
    let lba := lba mod hspt in
    let r := r <| r_head := u8 (lba / d_spt d) |> in
    let lba := lba mod d_spt d in
    Some (r <| r_sector := u16 (lba + 1) |>).

(** ** Opening an image

    The file system is the host's: [fs_read path] is the content of a readable
    file and [fs_absolute] is [std::filesystem::absolute] (or the path itself
    when that fails). *)

(** [path.find_last_of("/\\")]. *)
Fixpoint find_last_slash (path : list Z) : option nat :=
  match path with
  | [] => None
  | c :: path =>
    match find_last_slash path with
    | Some k => Some (S k)
    | None => if (c =? 47) || (c =? 92) then Some 0%nat else None
    end
  end.

Definition image_basename (path : list Z) : list Z :=
  match find_last_slash path with
  | None => path
  | Some slash => drop (slash + 1) path
  end.

Section Open.
Context (fs_read : list Z -> option (list Z)) (fs_absolute : list Z -> list Z).

Definition open (s : HpsIde) (path : list Z) : option (bool * HpsIde) :=
  match fs_read path with
  | None => Some (false, s)
  | Some content =>
    let size := Z.of_nat (length content) in
    let s := s <| image_ := content |> in
    let s := s <| cdrom_ := false |>
               <| drive_ := drive_ s <| d_present := true |>
                                     <| d_total_sectors := u32 (size / 512) |> |>
               <| image_name_ := image_basename path |>
               <| image_path_ := fs_absolute path |> in
    s ← set_geometry s 63 16;
    Some (true, s)
  end.

Definition open_cdrom (s : HpsIde) (path : list Z) : bool * HpsIde :=
  match fs_read path with
  | None => (false, s)
  | Some content =>
    let size := Z.of_nat (length content) in
    if (size =? 0) || negb (size mod 2048 =? 0) then (false, s) else
    let s := s <| image_ := content |> in
    let s := s <| cdrom_ := true |>
               <| drive_ := drive_ s <| d_present := true |>
                                     <| d_total_sectors := u32 (size / 2048) |> |>
               <| image_name_ := image_basename path |>
               <| image_path_ := fs_absolute path |> in
    (true, update_identify s)
  end.
End Open.

(** ** Well-formedness *)

Definition regs_ok (r : HpsIdeRegs) : Prop :=
  is_u8 (r_io_size r) /\ is_u8 (r_error r) /\ is_u16 (r_sector_count r) /\
  is_u16 (r_sector r) /\ is_u32 (r_cylinder r) /\ is_u8 (r_head r) /\
  is_u8 (r_drv r) /\ is_u8 (r_lba r) /\ is_u8 (r_cmd r) /\
  is_u16 (r_pkt_io_size r) /\ is_u8 (r_status r).

(** A drive whose geometry every address computation can use: no head count
    above 256, so a head number fits its byte and [heads * spt] an [int]. *)
Definition drive_ok (d : HpsIdeDrive) : Prop :=
  is_u16 (d_cylinders d) /\ 0 < d_heads d <= 256 /\ 0 < d_spt d < 65536 /\
  is_u32 (d_total_sectors d) /\ is_u32 (d_spb d) /\
  length (d_id d) = 256%nat /\ Forall is_u16 (d_id d).

Lemma regs_init_ok : regs_ok regs_init.
Proof. unfold regs_ok, is_u8, is_u16, is_u32; cbn. unfold ATA_STATUS_RDY. lia. Qed.
#[export] Hint Resolve regs_init_ok : z486_range.

Lemma be_word_val hi lo : is_u8 hi -> is_u8 lo -> be_word hi lo = hi * 256 + lo.
Proof.
  intros Hhi Hlo. unfold be_word.
  rewrite u8_id, lor_shiftl_add by (unfold is_u8 in *; lia).
  unfold u16, s8, u8, is_u8 in *. destruct (128 <=? hi mod 256) eqn:E; divlia.
Qed.

Lemma be_word_range hi lo : is_u16 (be_word hi lo).
Proof. apply u16_range. Qed.
#[export] Hint Resolve be_word_range : z486_range.

Lemma length_set_words kvs id : length (set_words kvs id) = length id.
Proof.
  revert id; induction kvs as [|kv kvs IH]; intros id; [done|].
  cbn. rewrite IH. apply length_insert.
Qed.

Lemma set_words_u16 kvs id :
  Forall is_u16 id -> Forall (fun kv => is_u16 kv.2) kvs -> Forall is_u16 (set_words kvs id).
Proof.
  intros Hid Hkvs. revert id Hid. induction Hkvs as [|[k v] kvs Hv _ IH]; intros id Hid; [done|].
  cbn. apply IH. by apply Forall_insert.
Qed.

Lemma set_words_ne kvs id k :
  Forall (fun kv => kv.1 <> k) kvs -> set_words kvs id !! k = id !! k.
Proof.
  intros Hkvs. revert id. induction Hkvs as [|[j v] kvs Hj _ IH]; intros id; [done|].
  cbn. rewrite IH. by apply list_lookup_insert_ne.
Qed.

Lemma ident_words_u16 base count padded : Forall (fun kv => is_u16 kv.2) (ident_words base count padded).
Proof.
  revert base padded. induction count as [|count IH]; intros base padded; [constructor|].
  destruct padded as [|hi [|lo padded]]; try constructor; [apply be_word_range|apply IH].
Qed.

Lemma ident_words_keys base count padded :
  Forall (fun kv => base <= kv.1 < base + count)%nat (ident_words base count padded).
Proof.
  revert base padded. induction count as [|count IH]; intros base padded; [constructor|].
  destruct padded as [|hi [|lo padded]]; try constructor; [simpl; lia|].
  eapply Forall_impl; [apply IH|]. simpl; lia.
Qed.

Lemma length_set_ident_string id b c t : length (set_ident_string id b c t) = length id.
Proof. apply length_set_words. Qed.

Lemma set_ident_string_u16 id b c t : Forall is_u16 id -> Forall is_u16 (set_ident_string id b c t).
Proof. intros; apply set_words_u16; [done|apply ident_words_u16]. Qed.

Lemma set_ident_string_ne id b c t k :
  (k < b \/ b + c <= k)%nat -> set_ident_string id b c t !! k = id !! k.
Proof.
  intros Hk. apply set_words_ne. eapply Forall_impl; [apply ident_words_keys|].
  simpl; lia.
Qed.

Lemma ident_words_lookup base count padded id i hi lo :
  (i < count)%nat -> (base + count <= length id)%nat ->
  padded !! (2 * i)%nat = Some hi -> padded !! (2 * i + 1)%nat = Some lo ->
  set_words (ident_words base count padded) id !! (base + i)%nat = Some (be_word hi lo).
Proof.
  revert base padded id i. induction count as [|count IH]; intros base padded id i Hi Hlen Hhi Hlo; [lia|].
  destruct padded as [|h [|l padded]].
  - by rewrite lookup_nil in Hhi.
  - destruct i; simpl in Hlo; [done|]. replace (i + S (i + 0) + 1)%nat with (S (2 * i + 1)) in Hlo by lia. done.
  - destruct i as [|i].
    + simpl in Hhi, Hlo. injection Hhi as ->; injection Hlo as ->.
      cbn [ident_words]. change (set_words ?a ?b) with (set_words a b).
      cbn. rewrite Nat.add_0_r.
      change (fold_left set_word ?k ?l) with (set_words k l).
      rewrite set_words_ne.
      * apply list_lookup_insert_eq; lia.
      * eapply Forall_impl; [apply ident_words_keys|]. simpl; lia.
    + cbn. change (fold_left set_word ?k ?l) with (set_words k l).
      replace (base + S i)%nat with (S base + i)%nat by lia.
      apply IH; [lia | unfold set_word; rewrite length_insert; lia | |].
      * replace (2 * S i)%nat with (S (S (2 * i))) in Hhi by lia. done.
      * replace (2 * S i + 1)%nat with (S (S (2 * i + 1))) in Hlo by lia. done.
Qed.

Lemma set_ident_string_lookup id b c t i :
  (i < c)%nat -> (b + c <= length id)%nat ->
  set_ident_string id b c t !! (b + i)%nat =
    Some (be_word (default 32 (resize (c * 2) 32 t !! (2 * i)%nat))
                  (default 32 (resize (c * 2) 32 t !! (2 * i + 1)%nat))).
Proof.
  intros Hi Hlen. unfold set_ident_string.
  destruct (lookup_lt_is_Some_2 (resize (c * 2) 32 t) (2 * i)) as [hi Hhi];
    [rewrite length_resize; lia|].
  destruct (lookup_lt_is_Some_2 (resize (c * 2) 32 t) (2 * i + 1)) as [lo Hlo];
    [rewrite length_resize; lia|].
  rewrite Hhi, Hlo. by apply ident_words_lookup.
Qed.

Lemma length_update_identify s : length (d_id (drive_ (update_identify s))) = 256%nat.
Proof.
  unfold update_identify. cbn. destruct (cdrom_ s); [done|].
  unfold disk_identify. case_bool; rewrite ?length_set_ident_string, !length_set_words; done.
Qed.

(** Discharges the side conditions of [set_words_u16] on a constant table. *)
Ltac words_u16 :=
  repeat first
    [ apply set_ident_string_u16 | apply set_words_u16
    | apply Forall_replicate; urange | apply Forall_nil_2
    | apply Forall_cons_2; [first [apply u16_range | cbn; unfold is_u16 in *; cbn; lia | by vm_compute]|] ].

Lemma disk_identify_u16 d name :
  drive_ok d -> Forall is_u16 (disk_identify d name).
Proof.
  intros (Hcyl & Hheads & Hspt & Htot & _).
  unfold disk_identify. case_bool; words_u16.
Qed.

Lemma cdrom_identify_u16 : Forall is_u16 cdrom_identify.
Proof. unfold cdrom_identify; words_u16. Qed.

Lemma update_identify_ok s : drive_ok (drive_ s) -> drive_ok (drive_ (update_identify s)).
Proof.
  intros Hd. pose proof (length_update_identify s) as Hlen.
  destruct Hd as (Hcyl & Hheads & Hspt & Htot & Hspb & Hid & Hids).
  unfold update_identify in *. cbn in *.
  unfold drive_ok; cbn. split_and?; try done; try lia.
  destruct (cdrom_ s); [apply cdrom_identify_u16|].
  apply disk_identify_u16. unfold drive_ok. split_and?; done || lia.
Qed.

(** [set_geometry] with a head count a byte can hold is defined, keeps the
    drive well formed and never claims more sectors than the image has. *)
Lemma set_geometry_Some s sectors heads :
  drive_ok (drive_ s) -> 0 <= heads <= 256 ->
  exists s', set_geometry s sectors heads = Some s' /\ drive_ok (drive_ s') /\
    d_heads (drive_ s') = (if heads =? 0 then 16 else heads) /\
    d_spt (drive_ s') = (if u16 sectors =? 0 then 63 else u16 sectors) /\
    d_cylinders (drive_ s') =
      Z.min 65535 (d_total_sectors (drive_ s) / (d_heads (drive_ s') * d_spt (drive_ s'))) /\
    s' = s <| drive_ := drive_ s' |>.
Proof.
  intros Hd Hheads. pose proof Hd as (Hcyl & Hh & Hspt & Htot & Hspb & Hid & Hids).
  unfold set_geometry. rewrite (u16_id heads) by urange.
  set (hd := if heads =? 0 then 16 else heads).
  set (sp := if u16 sectors =? 0 then 63 else u16 sectors).
  assert (Hhd : 0 < hd <= 256) by (unfold hd; case_bool; lia).
  assert (Hsp : 0 < sp < 65536).
  { unfold sp. pose proof (u16_range sectors). unfold is_u16 in *. case_bool; lia. }
  assert (Hmul : int_mul hd sp = Some (hd * sp)).
  { unfold int_mul. rewrite (proj2 (andb_true_iff _ _)); [done|]. split; nia. }
  rewrite Hmul. cbn [mbind option_bind].
  set (d := drive_ s <| d_heads := hd |> <| d_spt := sp |> <| d_cylinders := _ |>).
  eexists. split; [done|].
  assert (Hq : 0 <= d_total_sectors (drive_ s) / (hd * sp)) by (apply Z.div_pos; unfold is_u32 in *; nia).
  assert (Hc : d_cylinders d = Z.min 65535 (d_total_sectors (drive_ s) / (hd * sp))).
  { unfold d. cbn. case_bool; rewrite u16_id by (unfold is_u16; lia); lia. }
  split; [|split_and?; try exact Hc; done].
  apply update_identify_ok. cbn. change (drive_ok d).
  unfold drive_ok. rewrite Hc. unfold is_u16.
  split_and?; try (cbn; lia || done).
Qed.

Lemma int_mul_drive d : drive_ok d -> int_mul (d_heads d) (d_spt d) = Some (d_heads d * d_spt d).
Proof.
  intros (_ & Hh & Hs & _). unfold int_mul.
  rewrite (proj2 (andb_true_iff _ _)); [done|]. split; nia.
Qed.

(** The quotients and remainders of a CHS conversion. *)
Lemma chs_split lba H S :
  0 <= lba -> 0 < H -> 0 < S ->
  0 <= lba / (H * S) <= lba /\ 0 <= lba mod (H * S) / S < H /\
  0 <= (lba mod (H * S)) mod S < S /\
  lba = (lba / (H * S) * H + lba mod (H * S) / S) * S + (lba mod (H * S)) mod S.
Proof.
  intros Hlba HH HS.
  assert (0 <= lba mod (H * S) < H * S) by (apply Z.mod_pos_bound; nia).
  assert (lba = (H * S) * (lba / (H * S)) + lba mod (H * S)) by (apply Z.div_mod; nia).
  assert (lba mod (H * S) = S * (lba mod (H * S) / S) + (lba mod (H * S)) mod S)
    by (apply Z.div_mod; lia).
  repeat split; try (apply Z.div_pos; nia); try (apply Z.mod_pos_bound; lia).
  - apply Z.div_le_upper_bound; nia.
  - apply Z.div_lt_upper_bound; nia.
  - nia.
Qed.

Lemma put_lba_chs d r lba :
  drive_ok d -> regs_ok r -> is_u32 lba -> r_lba r = 0 ->
  exists r', put_lba d r lba = Some r' /\ regs_ok r' /\ get_lba d r' = lba /\
    r_head r' < d_heads d /\ 1 <= r_sector r' <= d_spt d /\
    r' = r <| r_sector := r_sector r' |> <| r_cylinder := r_cylinder r' |>
           <| r_head := r_head r' |>.
Proof.
  intros Hd Hr Hlba Elba. unfold put_lba, is_u32 in *. rewrite Elba. cbn [Z.eqb negb].
  rewrite (int_mul_drive d Hd). cbn [mbind option_bind].
  destruct Hd as (_ & Hh & Hs & _).
  set (H := d_heads d) in *. set (S := d_spt d) in *.
  rewrite (proj2 (Z.eqb_neq (H * S) 0)), (proj2 (Z.eqb_neq S 0)) by nia. cbn [orb].
  destruct (chs_split lba H S) as (Hc & Hhd & Hsec & E); [lia..|].
  set (c := lba / (H * S)) in *. set (h := lba mod (H * S) / S) in *.
  set (t := (lba mod (H * S)) mod S) in *.
  assert (Eh : u8 h = h) by (apply u8_id; urange).
  assert (Et : u16 (t + 1) = t + 1) by (apply u16_id; urange).
  eexists. split; [done|]. cbn. rewrite Eh, Et.
  repeat split; try (unfold regs_ok, is_u8, is_u16, is_u32 in *; cbn; lia).
  unfold get_lba. cbn. rewrite Elba. cbn. fold H S.
  rewrite (u32_id (c * H)), (u32_id (c * H + h)) by (unfold is_u32; nia).
  rewrite (u32_id ((c * H + h) * S)) by (unfold is_u32; nia).
  rewrite u32_id; unfold is_u32; nia.
Qed.

Lemma put_lba_28 d r lba :
  regs_ok r -> is_u32 lba -> r_lba r <> 0 ->
  exists r', put_lba d r lba = Some r' /\ regs_ok r' /\
    get_lba d r' = lba mod 268435456 /\
    r' = r <| r_sector := r_sector r' |> <| r_cylinder := r_cylinder r' |>
           <| r_head := r_head r' |>.
Proof.
  intros Hr Hlba Elba. apply Z.eqb_neq in Elba.
  unfold put_lba. rewrite Elba. cbn [negb].
  assert (Hs : Z.land lba 255 = lba mod 256) by (rewrite land_255; done).
  assert (Hc : Z.land (Z.shiftr lba 8) 65535 = (lba / 256) mod 65536)
    by (rewrite land_65535, shiftr_div by lia; done).
  assert (Hh : Z.land (Z.shiftr (Z.shiftr lba 8) 16) 15 = (lba / 16777216) mod 16)
    by (rewrite land_15, !shiftr_div, Z.div_div by lia; done).
  eexists. split; [done|]. cbn. rewrite Hs, Hc, Hh.
  repeat split; try (unfold regs_ok, is_u8, is_u16, is_u32, u16, u8 in *; cbn; divlia).
  unfold get_lba. cbn. rewrite Elba. cbn.
  rewrite land_255, land_65535, land_15.
  rewrite (u32_id (Z.shiftl (u16 _) 8)) by (rewrite shiftl_mul by lia; urange).
  rewrite (u32_id (Z.shiftl (_ mod 16) 24)) by (rewrite shiftl_mul by lia; urange).
  rewrite (lor_shiftl_add' (u16 _) _ 8) by urange.
  rewrite (lor_shiftl_add' (_ mod 16) _ 24) by urange.
  unfold u16, u8, is_u32 in *. divlia.
Qed.

(** Both addressing modes: [put_lba] is defined and stores the address it is
    given ([modulo] 2^28 in the taskfile's LBA format), and touches only the
    address registers. *)
Lemma put_lba_Some d r lba :
  drive_ok d -> regs_ok r -> is_u32 lba ->
  exists r', put_lba d r lba = Some r' /\ regs_ok r' /\
    get_lba d r' = (if r_lba r =? 0 then lba else lba mod 268435456) /\
    r' = r <| r_sector := r_sector r' |> <| r_cylinder := r_cylinder r' |>
           <| r_head := r_head r' |>.
Proof.
  intros Hd Hr Hlba. destruct (r_lba r =? 0) eqn:E.
  - apply Z.eqb_eq in E.
    destruct (put_lba_chs d r lba Hd Hr Hlba E) as (r' & ? & ? & ? & ? & ? & ?). eauto.
  - apply Z.eqb_neq in E. by apply put_lba_28.
Qed.
