(* ===== verification/IdePacket.v ===== *)
(** * ATAPI packet commands

    [send_packet_data], [finish_packet], [prepare_cdrom_read] and
    [handle_packet] of verilator/ide_hps.cpp: the CD-ROM side of [HpsIde].
    Each response is a byte vector; the builders below are the bodies of the
    [switch] cases of [handle_packet], up to their call of
    [send_packet_data]. *)
From S2P Require Import Prelude IdeTypes.

(** ** Ending a packet command *)

Definition send_packet_data (s : HpsIde) (data : list Z) : HpsIde :=
  let limit := packet_size_limit_ s in
  let data := if negb (limit =? 0) && (limit <? Z.of_nat (length data))
              then resize (Z.to_nat limit) 0 data else data in
  let data := if Nat.odd (length data) then data ++ [0] else data in
  let size := Z.of_nat (length data) in
  let r := regs_ s <| r_pkt_io_size := u16 (size / 2) |>
                   <| r_cylinder := u32 size |>
                   <| r_sector_count := 2 |>
                   <| r_error := 0 |>
                   <| r_status := Z.lor (Z.lor ATA_STATUS_RDY ATA_STATUS_DRQ) ATA_STATUS_IRQ |> in
  s <| packet_data_ := data |> <| regs_ := r |> <| cnt_ := 0 |> <| state_ := PACKET_SEND |>.

Definition finish_packet (s : HpsIde) (sense_key asc ascq extra_status : Z) : HpsIde :=
  let r := regs_ s <| r_sector_count := 3 |>
                   <| r_pkt_io_size := 0 |>
                   <| r_error := u8 (Z.shiftl sense_key 4) |>
                   <| r_status := u8 (Z.lor (Z.lor (Z.lor ATA_STATUS_RDY ATA_STATUS_IRQ)
                                      (if negb (sense_key =? 0) then ATA_STATUS_ERR else 0))
                                      extra_status) |> in
  s <| sense_key_ := sense_key |> <| sense_asc_ := asc |> <| sense_ascq_ := ascq |>
    <| regs_ := r |> <| state_ := SET_REGS |> <| next_state_ := IDLE |>.

(** [finish_packet()] with its default arguments. *)
Definition finish_packet_ok (s : HpsIde) : HpsIde := finish_packet s 0 0 0 0.

(** ** CD-ROM reads: up to eight 2048-byte sectors per data phase *)

(** The number of sectors of the next data phase. *)
Definition cdrom_read_sectors (s : HpsIde) : Z :=
  let sectors := Z.min (packet_remaining_ s) 8 in
  let sectors := if 2048 <=? packet_size_limit_ s
                 then Z.min sectors (packet_size_limit_ s / 2048) else sectors in
  if sectors =? 0 then 1 else sectors.

Definition prepare_cdrom_read (s : HpsIde) : HpsIde :=
  if packet_remaining_ s =? 0 then finish_packet_ok s else
  let sectors := cdrom_read_sectors s in
  let offset := u64 (packet_lba_ s * 2048) in
  let nbytes := u64 (sectors * 2048) in
  if Z.of_nat (length (image_ s)) <? u64 (offset + nbytes) then
    finish_packet s 5 0x21 0 0                 (* LBA out of range *)
  else
    let data := take (Z.to_nat nbytes) (drop (Z.to_nat offset) (image_ s)) in
    send_packet_data
      (s <| packet_lba_ := u32 (packet_lba_ s + sectors) |>
         <| packet_remaining_ := u32 (packet_remaining_ s - sectors) |>) data.

(** ** Fields of the command packet: [packet_\[i\]], [be16], [be32] *)

Definition pk (s : HpsIde) (i : nat) : Z := default 0 (packet_ s !! i).

Definition be16 (s : HpsIde) (o : nat) : Z :=
  u16 (Z.lor (Z.shiftl (pk s o) 8) (pk s (o + 1))).

Definition be32 (s : HpsIde) (o : nat) : Z :=
  Z.lor (Z.lor (Z.lor (u32 (Z.shiftl (pk s o) 24)) (Z.shiftl (pk s (o + 1)) 16))
               (Z.shiftl (pk s (o + 2)) 8)) (pk s (o + 3)).

(** [push_be32(data, offset, value)]: the four bytes fit in [data]. *)
Definition push_be32 (data : list Z) (offset : nat) (value : Z) : list Z :=
  <[offset := u8 (Z.shiftr value 24)]>
  (<[(offset + 1)%nat := u8 (Z.shiftr value 16)]>
  (<[(offset + 2)%nat := u8 (Z.shiftr value 8)]>
  (<[(offset + 3)%nat := u8 value]> data))).

(** [if (n < data.size()) data.resize(n)]. *)
Definition clip (n : Z) (data : list Z) : list Z :=
  if n <? Z.of_nat (length data) then resize (Z.to_nat n) 0 data else data.

(** The length header most responses carry: the bytes that follow it, stored
    big-endian where the (clipped) response still has room for it. *)
Definition put_returned (at_ : nat) (header : Z) (data : list Z) : list Z :=
  let size := Z.of_nat (length data) in
  let returned := u16 (if header <=? size then size - header else 0) in
  let data := if (Z.of_nat at_ <? size) then <[at_ := u8 (Z.shiftr returned 8)]> data else data in
  if (Z.of_nat at_ + 1 <? size) then <[(at_ + 1)%nat := u8 returned]> data else data.

(** ** Responses *)

(** 0x03 REQUEST SENSE. *)
Definition request_sense_data (s : HpsIde) : list Z :=
  let data := replicate 18 0 in
  let data := <[0%nat := 0x70]> data in
  let data := <[2%nat := Z.land (sense_key_ s) 0x0F]> data in
  let data := <[7%nat := 10]> data in
  let data := <[12%nat := sense_asc_ s]> data in
  let data := <[13%nat := sense_ascq_ s]> data in
  clip (pk s 4) data.

(** 0x12 INQUIRY. *)
Definition inquiry_data (s : HpsIde) : list Z :=
  let data := replicate 36 0 in
  let data := <[0%nat := 5]> data in
  let data := <[1%nat := 0x80]> data in
  let data := <[3%nat := 0x21]> data in
  let data := <[4%nat := 31]> data in
  let data := splice 8 (str "MiSTer  ") data in
  let data := splice 16 (str "CDROM           ") data in
  clip (pk s 4) data.

(** 0x25 READ CAPACITY. *)
Definition read_capacity_data (s : HpsIde) : list Z :=
  let total := d_total_sectors (drive_ s) in
  let data := push_be32 (replicate 8 0) 0 (if negb (total =? 0) then total - 1 else 0) in
  push_be32 data 4 2048.

(** 0x43 READ TOC: one cooked data track plus lead-out. *)
Definition toc_descriptor (msf : bool) (track lba : Z) : list Z :=
  let d := <[2%nat := track]> (<[1%nat := 0x14]> (replicate 8 0)) in
  if msf then
    let frame := u32 (lba + 150) in
    <[7%nat := u8 (frame mod 75)]>
    (<[6%nat := u8 ((frame / 75) mod 60)]>
    (<[5%nat := u8 (frame / (60 * 75))]> d))
  else push_be32 d 4 lba.

Definition toc_format (s : HpsIde) : Z :=
  if negb (Z.shiftr (pk s 9) 6 =? 0) then Z.shiftr (pk s 9) 6 else Z.land (pk s 2) 0x0F.

Definition toc_data (s : HpsIde) : option (list Z) :=
  let msf := negb (Z.land (pk s 1) 2 =? 0) in
  let data := <[3%nat := 1]> (<[2%nat := 1]> (replicate 4 0)) in
  let body :=
    if toc_format s =? 0 then
      let data := if pk s 6 <=? 1 then data ++ toc_descriptor msf 1 0 else data in
      Some (data ++ toc_descriptor msf 0xAA (d_total_sectors (drive_ s)))
    else if toc_format s =? 1 then
      let data := resize 12 0 data in
      Some (<[3%nat := 1]> (<[2%nat := 1]> (<[1%nat := 0x0A]> data)))
    else None in
  data ← body;
  Some (put_returned 0 2 (clip (be16 s 7) data)).

(** 0x42 READ SUB-CHANNEL. *)
Definition subchannel_data (s : HpsIde) : list Z :=
  let subq := negb (Z.land (pk s 2) 0x40 =? 0) in
  let data := replicate (if subq then 16 else 4) 0 in
  let data := <[1%nat := 0x13]> data in
  let data := if subq then
      <[7%nat := 1]> (<[6%nat := 1]> (<[5%nat := 0x14]> (<[4%nat := 1]> data)))
    else data in
  put_returned 2 4 (clip (be16 s 7) data).

(** 0x5A MODE SENSE(10). *)
Definition capabilities : list Z :=
  [0x2A; 0x14; 0x3B; 0x00; 0x71; 0x60; 0x29; 0x00;
   0x02; 0xC0; 0x00; 0x02; 0x02; 0x00; 0x02; 0xC0;
   0x00; 0x00; 0x00; 0x00; 0x00; 0x00].

Definition mode_sense_data (s : HpsIde) : list Z :=
  let data := replicate 8 0 in
  let page := Z.land (pk s 2) 0x3F in
  let data :=
    if (page =? 0x2A) || (page =? 0x3F) then <[2%nat := 0x70]> (data ++ capabilities)
    else data ++ [page; 0x06; 0; 0; 0; 0; 0; 0] in
  put_returned 0 2 (clip (be16 s 7) data).

(** 0x46 GET CONFIGURATION. *)
Definition get_configuration_data (s : HpsIde) : list Z :=
  let data := replicate 16 0 in
  let data := <[3%nat := 12]> data in
  let data := <[7%nat := 8]> data in
  let data := <[10%nat := 3]> data in
  let data := <[11%nat := 4]> data in
  let data := <[13%nat := 8]> data in
  let data := <[14%nat := 1]> data in
  clip (be16 s 7) data.

(** ** [HpsIde::handle_packet] *)

(** Commands that complete at once. *)
Definition nop_packet (op : Z) : bool :=
  existsb (Z.eqb op) [0x00; 0x1B; 0x1E; 0x35; 0x45; 0x47; 0x4B; 0x4E].

Definition handle_packet (s : HpsIde) : HpsIde :=
  let op := pk s 0 in
  if nop_packet op then finish_packet_ok s
  else if op =? 0x2B then finish_packet s 0 0 0 ATA_STATUS_DSC
  else if op =? 0x03 then
    send_packet_data s (request_sense_data s)
      <| sense_key_ := 0 |> <| sense_asc_ := 0 |> <| sense_ascq_ := 0 |>
  else if op =? 0x12 then send_packet_data s (inquiry_data s)
  else if op =? 0x25 then send_packet_data s (read_capacity_data s)
  else if op =? 0x28 then
    prepare_cdrom_read (s <| packet_lba_ := be32 s 2 |> <| packet_remaining_ := be16 s 7 |>)
  else if op =? 0xA8 then
    prepare_cdrom_read (s <| packet_lba_ := be32 s 2 |> <| packet_remaining_ := be32 s 6 |>)
  else if op =? 0x43 then
    match toc_data s with
    | Some data => send_packet_data s data
    | None => finish_packet s 5 0x24 0 0       (* invalid packet field *)
    end
  else if op =? 0x42 then send_packet_data s (subchannel_data s)
  else if op =? 0x5A then send_packet_data s (mode_sense_data s)
  else if op =? 0x46 then send_packet_data s (get_configuration_data s)
  else finish_packet s 5 0x20 0 0.             (* unsupported opcode *)

(** ** Every response is a byte vector *)

#[export] Hint Resolve str_bytes : z486_bytes.

Lemma pk_u8 s i : bytes (packet_ s) -> is_u8 (pk s i).
Proof. intros. unfold pk. apply (Forall_lookup_default is_u8); [unfold is_u8; lia|done]. Qed.

Lemma be16_u16 s o : is_u16 (be16 s o).
Proof. apply u16_range. Qed.

Lemma be32_u32 s o : bytes (packet_ s) -> is_u32 (be32 s o).
Proof.
  intros Hp. unfold be32.
  pose proof (pk_u8 s o Hp). pose proof (pk_u8 s (o + 1) Hp).
  pose proof (pk_u8 s (o + 2) Hp). pose proof (pk_u8 s (o + 3) Hp).
  repeat apply lor_u32; width.
Qed.

Lemma be32_val s o :
  bytes (packet_ s) ->
  be32 s o = pk s o * 16777216 + pk s (o + 1) * 65536 + pk s (o + 2) * 256 + pk s (o + 3).
Proof.
  intros Hp. unfold be32.
  pose proof (pk_u8 s o Hp). pose proof (pk_u8 s (o + 1) Hp).
  pose proof (pk_u8 s (o + 2) Hp). pose proof (pk_u8 s (o + 3) Hp).
  unfold is_u8 in *.
  rewrite (u32_id (Z.shiftl (pk s o) 24)) by (rewrite shiftl_mul by lia; unfold is_u32; lia).
  rewrite <- !Z.lor_assoc.
  rewrite (lor_shiftl_add (pk s (o + 2)) _ 8), (lor_shiftl_add (pk s (o + 1)) _ 16),
    (lor_shiftl_add (pk s o) _ 24) by lia. lia.
Qed.

Lemma be16_val s o : bytes (packet_ s) -> be16 s o = pk s o * 256 + pk s (o + 1).
Proof.
  intros Hp. unfold be16. pose proof (pk_u8 s o Hp). pose proof (pk_u8 s (o + 1) Hp).
  unfold is_u8 in *. rewrite lor_shiftl_add by lia. apply u16_id. unfold is_u16. lia.
Qed.

Lemma push_be32_bytes data o v : bytes data -> bytes (push_be32 data o v).
Proof. intros. unfold push_be32. auto 10 with z486_bytes. Qed.

Lemma clip_bytes n data : bytes data -> bytes (clip n data).
Proof. intros. unfold clip. case_bool; auto with z486_bytes. Qed.

Lemma put_returned_bytes k h data : bytes data -> bytes (put_returned k h data).
Proof. intros. unfold put_returned. repeat case_bool; auto 10 with z486_bytes. Qed.

#[export] Hint Resolve push_be32_bytes clip_bytes put_returned_bytes : z486_bytes.

Lemma length_clip n data :
  0 <= n -> length (clip n data) = Nat.min (Z.to_nat n) (length data).
Proof.
  intros Hn. unfold clip. case_bool; [rewrite length_resize|]; lia.
Qed.

Lemma length_put_returned k h data : length (put_returned k h data) = length data.
Proof. unfold put_returned. repeat case_bool; rewrite ?length_insert; done. Qed.

Section ResponseBytes.
Context (s : HpsIde) (Hp : bytes (packet_ s)).
Context (Hkey : is_u8 (sense_key_ s)) (Hasc : is_u8 (sense_asc_ s)) (Hascq : is_u8 (sense_ascq_ s)).

Lemma request_sense_bytes : bytes (request_sense_data s).
Proof. unfold request_sense_data; cbv zeta. auto 20 with z486_bytes. Qed.

Lemma inquiry_bytes : bytes (inquiry_data s).
Proof. unfold inquiry_data; cbv zeta. auto 20 with z486_bytes. Qed.

Lemma read_capacity_bytes : bytes (read_capacity_data s).
Proof. unfold read_capacity_data; cbv zeta. auto 20 with z486_bytes. Qed.

Lemma toc_descriptor_bytes msf track lba : is_u8 track -> bytes (toc_descriptor msf track lba).
Proof. intros. unfold toc_descriptor; cbv zeta. destruct msf; auto 20 with z486_bytes. Qed.

Lemma toc_bytes data : toc_data s = Some data -> bytes data.
Proof.
  assert (H170 : is_u8 0xAA) by width. assert (H1 : is_u8 1) by width.
  pose proof toc_descriptor_bytes. unfold toc_data; cbv zeta.
  repeat case_bool; cbn [mbind option_bind]; intros [= <-];
    auto 20 with z486_bytes.
Qed.

Lemma subchannel_bytes : bytes (subchannel_data s).
Proof. unfold subchannel_data; cbv zeta. case_bool; auto 20 with z486_bytes. Qed.

Lemma capabilities_bytes : bytes capabilities.
Proof. unfold capabilities. auto 30 with z486_bytes. Qed.

Lemma mode_sense_bytes : bytes (mode_sense_data s).
Proof.
  pose proof capabilities_bytes. unfold mode_sense_data; cbv zeta.
  case_bool; auto 20 with z486_bytes.
Qed.

Lemma get_configuration_bytes : bytes (get_configuration_data s).
Proof. unfold get_configuration_data; cbv zeta. auto 20 with z486_bytes. Qed.
End ResponseBytes.
