(* ===== verification/IdeCommand.v ===== *)
(** * ATA and ATAPI task-file commands

    [handle_cdrom_cmd] and [handle_cmd] of verilator/ide_hps.cpp: what the
    device does once the six task-file words of a command are in [regs_]. *)
From S2P Require Import Prelude IdeTypes IdeGeometry IdePacket.

(** ** [HpsIde::handle_cdrom_cmd] *)

(** The ending most commands share: report the registers, then wait. *)
Definition set_regs_then (next : State) (s : HpsIde) (r : HpsIdeRegs) : HpsIde :=
  s <| regs_ := r |> <| state_ := SET_REGS |> <| next_state_ := next |>.

Definition handle_cdrom_cmd (s : HpsIde) : HpsIde :=
  if cmd_ s =? 0xA1 then                       (* IDENTIFY PACKET DEVICE *)
    let drv := r_drv (regs_ s) in
    let r := regs_init <| r_drv := drv |> <| r_pkt_io_size := 256 |>
               <| r_status := Z.lor (Z.lor (Z.lor ATA_STATUS_RDY ATA_STATUS_DRQ) ATA_STATUS_IRQ)
                                    ATA_STATUS_END |> in
    s <| regs_ := r |> <| cnt_ := 0 |> <| state_ := SEND_ID |>
  else if cmd_ s =? 0xA0 then                  (* PACKET *)
    if negb (Z.land (features_ s) 1 =? 0) then finish_packet s 5 0x20 0 0
    else
      let limit := u16 (r_cylinder (regs_ s)) in
      let limit := if limit =? 0 then 32 * 512 else limit in
      let r := regs_ s <| r_pkt_io_size := 6 |> <| r_sector_count := 1 |> <| r_error := 0 |>
                 <| r_status := Z.lor ATA_STATUS_RDY ATA_STATUS_DRQ |> in
      set_regs_then PACKET_WAIT_REQ (s <| packet_size_limit_ := limit |>) r
  else if cmd_ s =? 0x08 then                  (* DEVICE RESET *)
    set_regs_then IDLE s
      (regs_ s <| r_error := 1 |> <| r_sector_count := 1 |> <| r_sector := 1 |>
               <| r_cylinder := 0xEB14 |> <| r_head := 0 |> <| r_pkt_io_size := 0 |>
               <| r_status := 0 |>)
  else if cmd_ s =? 0xEF then                  (* SET FEATURES *)
    set_regs_then IDLE s
      (regs_ s <| r_error := 0 |> <| r_status := Z.lor ATA_STATUS_RDY ATA_STATUS_IRQ |>)
  else                                         (* 0xEC and everything else *)
    set_regs_then IDLE s
      (regs_ s <| r_error := 0x04 |> <| r_sector_count := 1 |> <| r_sector := 1 |>
               <| r_cylinder := 0xEB14 |>
               <| r_status := Z.lor (Z.lor ATA_STATUS_RDY ATA_STATUS_ERR) ATA_STATUS_IRQ |>).

(** ** [HpsIde::handle_cmd] *)

Definition reject_cmd (s : HpsIde) : HpsIde :=
  set_regs_then IDLE s
    (regs_ s <| r_error := 0x04 |>
             <| r_status := Z.lor (Z.lor ATA_STATUS_RDY ATA_STATUS_ERR) ATA_STATUS_IRQ |>).

(** The taskfile bytes the 28-bit commands use; a zero count means 256. *)
Definition mask_taskfile (s : HpsIde) : HpsIde :=
  let r := regs_ s <| r_sector_count := Z.land (r_sector_count (regs_ s)) 0x00FF |>
                   <| r_sector := Z.land (r_sector (regs_ s)) 0x00FF |>
                   <| r_cylinder := Z.land (r_cylinder (regs_ s)) 0x0000FFFF |> in
  let r := if existsb (Z.eqb (cmd_ s)) [0x20; 0x21; 0x30; 0x31; 0xC4; 0xC5] then
             if r_sector_count r =? 0 then r <| r_sector_count := 256 |> else r
           else r in
  s <| regs_ := r |>.

Definition handle_disk_cmd (s : HpsIde) : option HpsIde :=
  let ok := Z.lor ATA_STATUS_RDY ATA_STATUS_IRQ in
  if cmd_ s =? 0xEC then
    let drv := r_drv (regs_ s) in
    let r := regs_init <| r_drv := drv |> <| r_io_size := 1 |>
               <| r_status := Z.lor (Z.lor (Z.lor ATA_STATUS_RDY ATA_STATUS_DRQ) ATA_STATUS_IRQ)
                                    ATA_STATUS_END |> in
    Some (s <| regs_ := r |> <| state_ := SEND_ID |> <| cnt_ := 0 |>)
  else if (cmd_ s =? 0x20) || (cmd_ s =? 0x21) then Some (s <| state_ := READ |>)
  else if (cmd_ s =? 0x30) || (cmd_ s =? 0x31) then Some (s <| state_ := WRITE |>)
  else if cmd_ s =? 0x91 then
    s ← set_geometry s (r_sector_count (regs_ s)) (r_head (regs_ s) + 1);
    Some (set_regs_then IDLE s (regs_ s <| r_status := ok |>))
  else if (0x10 <=? cmd_ s) && (cmd_ s <=? 0x1F) then
    Some (set_regs_then IDLE s (regs_ s <| r_status := ok |> <| r_cylinder := 0 |>))
  else if cmd_ s =? 0x40 then
    Some (set_regs_then IDLE s (regs_ s <| r_status := ok |>))
  else Some (reject_cmd s).

Definition handle_cmd (s : HpsIde) : option HpsIde :=
  if negb (d_present (drive_ s)) || negb (r_drv (regs_ s) =? 0) then Some (reject_cmd s)
  else if cdrom_ s then Some (handle_cdrom_cmd s)
  else handle_disk_cmd (mask_taskfile s).
