(* ===== verification/IdeTick.v ===== *)
(** * The device's clock: [HpsIde::tick]

    One call per simulated clock.  Each [case] of the [switch] is a definition
    [on_<STATE>]; [dispatch] is the [switch], [tick] the whole handler with
    its early returns for reset, bus cooldown and jitter.  [None] is undefined
    behaviour: an array access out of range, an [int] overflow, a division by
    zero.  Logging under [debug_] is left out. *)
From S2P Require Import Prelude IdeTypes IdeGeometry IdePacket IdeCommand.

(** ** Disk-latency jitter: the globals [g_jitter_en], [g_jitter_state] *)

Record Jitter := mkJitter { g_jitter_en : bool; g_jitter_state : Z }.

Definition hps_ide_set_jitter (en : bool) (seed : Z) : Jitter :=
  mkJitter en (if negb (seed =? 0) then seed else 1).

(** [jitter_next()]: xorshift32, 0..63 extra idle cycles. *)
Definition jitter_next (g : Jitter) : Z * Jitter :=
  let x := g_jitter_state g in
  let x := Z.lxor x (u32 (Z.shiftl x 13)) in
  let x := Z.lxor x (Z.shiftr x 17) in
  let x := Z.lxor x (u32 (Z.shiftl x 5)) in
  (Z.land x 0x3F, mkJitter (g_jitter_en g) x).

Definition Step := option (HpsIde * Bus).

(** ** The cases of the [switch] *)

Definition on_INITIAL (s : HpsIde) (tb : Bus) : Step :=
  Some (s <| state_ := IDLE |>,
        pulse_write tb (base_ s + 6) (if d_present (drive_ s) then 0x0009 else 0x0008)).

Definition on_IDLE (s : HpsIde) (tb : Bus) : Step :=
  let req := request s tb in
  if req =? 4 then Some (s <| state_ := GET_CMD |>, pulse_read tb (base_ s + 0))
  else if req =? 6 then Some (s <| state_ := GET_RESET_DRIVE |>, pulse_read tb (base_ s + 5))
  else Some (s, tb).

Definition on_GET_RESET_DRIVE (s : HpsIde) (tb : Bus) : Step :=
  let drv_addr := u8 (Z.land (mgmt_readdata tb) 0xFF) in
  let drv := Z.land (Z.shiftr drv_addr 4) 0x1 in
  let r := regs_ s
    <| r_drv := drv |>
    <| r_lba := Z.land (Z.shiftr drv_addr 6) 0x1 |>
    <| r_head := 0 |>
    <| r_error := if cdrom_ s then 1 else 0 |>
    <| r_sector := 1 |>
    <| r_sector_count := 1 |>
    <| r_cylinder := if d_present (drive_ s) && (drv =? 0)
                     then (if cdrom_ s then 0xEB14 else 0x0000) else 0xFFFF |>
    <| r_status := if cdrom_ s then 0 else ATA_STATUS_RDY |> in
  Some (set_regs_then RESET_SET (s <| drv_addr_ := drv_addr |>) r, tb).

Definition on_RESET_SET (s : HpsIde) (tb : Bus) : Step := Some (s <| state_ := IDLE |>, tb).

Definition on_GET_CMD (s : HpsIde) (tb : Bus) : Step :=
  let addr := mgmt_address tb in
  let data := mgmt_readdata tb in
  let next := pulse_read tb (addr + 1) in
  let k := Z.land addr 0xF in
  if k =? 0 then Some (s <| features_ := u8 (Z.shiftr data 8) |>, next)
  else if k =? 1 then
    Some (s <| sector_count_ := Z.land data 0xFF |> <| sector_ := Z.shiftr data 8 |>, next)
  else if k =? 2 then Some (s <| cylinder_ := data |>, next)
  else if k =? 3 then
    Some (s <| sector_ := u32 (sector_ s + Z.land data 0xFF00) |>
            <| sector_count_ := u32 (sector_count_ s + Z.shiftl (Z.land data 0x00FF) 8) |>, next)
  else if k =? 4 then
    Some (s <| cylinder_ := u32 (cylinder_ s + u32 (Z.shiftl data 16)) |>, next)
  else if k =? 5 then
    let drv_addr := u8 (Z.land data 0xFF) in
    let r := regs_ s
      <| r_sector_count := u16 (sector_count_ s) |>
      <| r_sector := u16 (sector_ s) |>
      <| r_cylinder := cylinder_ s |>
      <| r_head := Z.land drv_addr 0x0F |>
      <| r_drv := Z.land (Z.shiftr drv_addr 4) 0x1 |>
      <| r_lba := Z.land (Z.shiftr drv_addr 6) 0x1 |> in
    Some (s <| drv_addr_ := drv_addr |> <| cmd_ := u8 (Z.shiftr data 8) |>
            <| regs_ := r |> <| state_ := DO_CMD |>, tb)
  else Some (s <| state_ := IDLE |>, tb).

Definition on_DO_CMD (s : HpsIde) (tb : Bus) : Step :=
  s ← handle_cmd s;
  Some (s, tb).

Definition on_SEND_ID (s : HpsIde) (tb : Bus) : Step :=
  if cnt_ s <? 256 then
    w ← zlookup (d_id (drive_ s)) (cnt_ s);
    Some (s <| cnt_ := cnt_ s + 1 |>, pulse_write tb (base_ s + 255) w)
  else Some (s <| state_ := SET_REGS |> <| next_state_ := IDLE |>, tb).

(** The register report of SET_REGS: [buf_] as six little-endian words. *)
Definition regs_report (cdrom : bool) (r : HpsIdeRegs) : list Z :=
  [ (if cdrom then 0x80 else r_io_size r);
    r_error r;
    u8 (r_sector_count r);
    u8 (r_sector r);
    u8 (r_cylinder r);
    u8 (Z.shiftr (r_cylinder r) 8);
    u8 (Z.shiftr (r_cylinder r) 16);
    u8 (Z.shiftr (r_cylinder r) 24);
    u8 (r_pkt_io_size r);
    u8 (Z.shiftr (r_pkt_io_size r) 8);
    u8 (Z.lor (Z.lor (if negb (r_lba r =? 0) then 0xE0 else 0xA0)
                     (if negb (r_drv r =? 0) then 0x10 else 0x00)) (r_head r));
    r_status r ].

Definition on_SET_REGS (s : HpsIde) (tb : Bus) : Step :=
  let r := regs_ s in
  let r := if negb (cdrom_ s) && (Z.land (r_status r) ATA_STATUS_DRQ =? 0)
           then r <| r_status := Z.lor (r_status r) ATA_STATUS_DSC |> else r in
  Some (s <| regs_ := r |> <| buf_ := regs_report (cdrom_ s) r |>
          <| cnt_ := 0 |> <| state_ := SET_REGS_SEND |>, tb).

Definition on_SET_REGS_SEND (s : HpsIde) (tb : Bus) : Step :=
  if cnt_ s <? 6 then
    w ← word_at (buf_ s) (2 * cnt_ s);
    Some (s <| cnt_ := cnt_ s + 1 |>, pulse_write tb (base_ s + cnt_ s) w)
  else Some (s <| cnt_ := 0 |> <| state_ := next_state_ s |>, tb).

Definition on_READ (s : HpsIde) (tb : Bus) : Step := Some (s <| state_ := READ_REGS |>, tb).

(** [sector_words_] for the sector at [lba], [nullptr] outside the image. *)
Definition sector_window (img : list Z) (lba : Z) : option Z :=
  if Z.of_nat (length img) <? u64 ((lba + 1) * 512) then None else Some (lba * 512).

Definition on_READ_REGS (s : HpsIde) (tb : Bus) : Step :=
  let lba := get_lba (drive_ s) (regs_ s) in
  let window := sector_window (image_ s) lba in
  let s := match window with
           | None => s <| buf_ := replicate 12 0 |> <| sector_words_ := None |>
           | Some off => s <| sector_words_ := Some off |>
           end in
  r ← put_lba (drive_ s) (regs_ s) (u32 (get_lba (drive_ s) (regs_ s) + 1));
  let r := r <| r_sector_count := u16 (r_sector_count r - 1) |> <| r_io_size := 1 |>
             <| r_status := Z.lor (Z.lor ATA_STATUS_RDY ATA_STATUS_DRQ) ATA_STATUS_IRQ |> in
  let r := if r_sector_count r =? 0
           then r <| r_status := Z.lor (r_status r) ATA_STATUS_END |> else r in
  Some (s <| regs_ := r |> <| cnt_ := 0 |> <| state_ := READ_SEND |>, tb).

Definition on_READ_SEND (s : HpsIde) (tb : Bus) : Step :=
  if cnt_ s <? 256 then
    w ← match sector_words_ s with
        | Some off => word_at (image_ s) (off + 2 * cnt_ s)
        | None => Some 0
        end;
    Some (s <| cnt_ := cnt_ s + 1 |>, pulse_write tb (base_ s + 255) w)
  else
    Some (s <| cnt_ := 0 |> <| state_ := SET_REGS |>
            <| next_state_ := if negb (r_sector_count (regs_ s) =? 0)
                              then READ_WAIT_REQ else IDLE |>, tb).

(** The waiting states: request 5 continues, any other request abandons. *)
Definition wait_req (s : HpsIde) (tb : Bus) (go : HpsIde) : Step :=
  let req := request s tb in
  if req =? 5 then Some (go, tb)
  else if negb (req =? 0) then Some (s <| state_ := IDLE |>, tb)
  else Some (s, tb).

Definition on_READ_WAIT_REQ (s : HpsIde) (tb : Bus) : Step :=
  wait_req s tb (s <| state_ := READ_REGS |>).

Definition on_WRITE (s : HpsIde) (tb : Bus) : Step :=
  Some (s <| irq_pending_ := 0 |> <| state_ := WRITE_REGS |>, tb).

Definition on_WRITE_REGS (s : HpsIde) (tb : Bus) : Step :=
  let lba := get_lba (drive_ s) (regs_ s) in
  let s := s <| sector_words_ := sector_window (image_ s) lba |> in
  let r := regs_ s
    <| r_status := Z.lor (Z.lor ATA_STATUS_RDY ATA_STATUS_DRQ) (irq_pending_ s) |> in
  let s := s <| irq_pending_ := ATA_STATUS_IRQ |> in
  Some (set_regs_then WRITE_WAIT_REQ s (r <| r_io_size := 1 |>), tb).

Definition on_WRITE_WAIT_REQ (s : HpsIde) (tb : Bus) : Step :=
  wait_req s tb (s <| cnt_ := 0 |> <| state_ := WRITE_RECV |>).

(** [sector_words_\[cnt_ - 1\] = tb.mgmt_readdata] when both are set. *)
Definition recv_word (s : HpsIde) (tb : Bus) : option HpsIde :=
  match sector_words_ s with
  | Some off =>
    if 0 <? cnt_ s then
      img ← store_word (image_ s) (off + 2 * (cnt_ s - 1)) (mgmt_readdata tb);
      Some (s <| image_ := img |>)
    else Some s
  | None => Some s
  end.

Definition on_WRITE_RECV (s : HpsIde) (tb : Bus) : Step :=
  s ← recv_word s tb;
  if cnt_ s <? 256 then
    Some (s <| cnt_ := cnt_ s + 1 |>, pulse_read tb (base_ s + 255))
  else
    let s := s <| cnt_ := 0 |> in
    r ← put_lba (drive_ s) (regs_ s) (u32 (get_lba (drive_ s) (regs_ s) + 1));
    let r := r <| r_sector_count := u16 (r_sector_count r - 1) |> in
    if negb (r_sector_count r =? 0) then Some (s <| regs_ := r |> <| state_ := WRITE_REGS |>, tb)
    else Some (set_regs_then IDLE s
                 (r <| r_status := Z.lor ATA_STATUS_RDY ATA_STATUS_IRQ |>), tb).

Definition on_PACKET_WAIT_REQ (s : HpsIde) (tb : Bus) : Step :=
  wait_req s tb (s <| cnt_ := 0 |> <| packet_ := replicate 12 0 |> <| state_ := PACKET_RECV |>).

Definition on_PACKET_RECV (s : HpsIde) (tb : Bus) : Step :=
  p ← (if 0 <? cnt_ s then store_word (packet_ s) ((cnt_ s - 1) * 2) (mgmt_readdata tb)
       else Some (packet_ s));
  let s := s <| packet_ := p |> in
  if cnt_ s <? 6 then Some (s <| cnt_ := cnt_ s + 1 |>, pulse_read tb (base_ s + 255))
  else Some (s <| cnt_ := 0 |> <| state_ := PACKET_HANDLE |>, pulse_write tb (base_ s + 7) 0).

Definition on_PACKET_HANDLE (s : HpsIde) (tb : Bus) : Step := Some (handle_packet s, tb).

Definition on_PACKET_SEND (s : HpsIde) (tb : Bus) : Step :=
  if cnt_ s <? r_pkt_io_size (regs_ s) then
    w ← word_at (packet_data_ s) (2 * cnt_ s);
    Some (s <| cnt_ := cnt_ s + 1 |>, pulse_write tb (base_ s + 255) w)
  else
    Some (s <| cnt_ := 0 |> <| state_ := SET_REGS |> <| next_state_ := PACKET_READ_WAIT_REQ |>, tb).

Definition on_PACKET_READ_WAIT_REQ (s : HpsIde) (tb : Bus) : Step :=
  wait_req s tb (if negb (packet_remaining_ s =? 0) then prepare_cdrom_read s
                 else finish_packet_ok s).

(** ** [HpsIde::tick] *)

Definition dispatch (s : HpsIde) (tb : Bus) : Step :=
  match state_ s with
  | INITIAL => on_INITIAL s tb
  | IDLE => on_IDLE s tb
  | GET_RESET_DRIVE => on_GET_RESET_DRIVE s tb
  | RESET_SET => on_RESET_SET s tb
  | GET_CMD => on_GET_CMD s tb
  | DO_CMD => on_DO_CMD s tb
  | SEND_ID => on_SEND_ID s tb
  | SET_REGS => on_SET_REGS s tb
  | SET_REGS_SEND => on_SET_REGS_SEND s tb
  | READ => on_READ s tb
  | READ_REGS => on_READ_REGS s tb
  | READ_SEND => on_READ_SEND s tb
  | READ_WAIT_REQ => on_READ_WAIT_REQ s tb
  | WRITE => on_WRITE s tb
  | WRITE_REGS => on_WRITE_REGS s tb
  | WRITE_WAIT_REQ => on_WRITE_WAIT_REQ s tb
  | WRITE_RECV => on_WRITE_RECV s tb
  | PACKET_WAIT_REQ => on_PACKET_WAIT_REQ s tb
  | PACKET_RECV => on_PACKET_RECV s tb
  | PACKET_HANDLE => on_PACKET_HANDLE s tb
  | PACKET_SEND => on_PACKET_SEND s tb
  | PACKET_READ_WAIT_REQ => on_PACKET_READ_WAIT_REQ s tb
  end.

Definition on_reset (s : HpsIde) : HpsIde :=
  s <| state_ := INITIAL |>
    <| regs_ := regs_init <| r_status := if cdrom_ s then 0 else ATA_STATUS_RDY |> |>
    <| bus_cooldown_ := false |> <| jitter_delay_ := 0 |> <| next_state_ := IDLE |>.

(** After a bus operation the next tick is idle, and more with jitter on. *)
Definition arm_cooldown (g : Jitter) (s : HpsIde) (tb : Bus) : Jitter * HpsIde :=
  if mgmt_read tb || mgmt_write tb then
    let s := s <| bus_cooldown_ := true |> in
    if g_jitter_en g then
      let '(d, g) := jitter_next g in (g, s <| jitter_delay_ := d |>)
    else (g, s)
  else (g, s).

Definition tick (g : Jitter) (s : HpsIde) (tb : Bus) : option (Jitter * HpsIde * Bus) :=
  let tb := clear_bus tb in
  if reset tb then Some (g, on_reset s, tb)
  else if bus_cooldown_ s then Some (g, s <| bus_cooldown_ := false |>, tb)
  else if 0 <? jitter_delay_ s then Some (g, s <| jitter_delay_ := jitter_delay_ s - 1 |>, tb)
  else
    '(s, tb) ← dispatch s tb;
    let '(g, s) := arm_cooldown g s tb in
    Some (g, s, tb).
