(* ===== verification/IdeInvariant.v ===== *)
(** * The device invariant

    [ide_ok]: every member within its C++ type, every array its declared
    length, the sector window inside the image, the word counter inside the
    buffer the current state indexes.  Each handler of [IdeTick] is defined on
    every [ide_ok] state (no undefined behaviour) and preserves it. *)
From S2P Require Import Prelude IdeTypes IdeGeometry IdePacket IdeCommand IdeTick.

(** The states [next_state_] can hold: none of them indexes a buffer. *)
Definition resumable (st : State) : bool :=
  match st with
  | IDLE | RESET_SET | READ_WAIT_REQ | WRITE_WAIT_REQ
  | PACKET_WAIT_REQ | PACKET_READ_WAIT_REQ => true
  | _ => false
  end.

(** The largest value of [cnt_] in each state. *)
Definition cnt_bound (st : State) (r : HpsIdeRegs) : Z :=
  match st with
  | SEND_ID | READ_SEND | WRITE_RECV => 256
  | SET_REGS_SEND | PACKET_RECV => 6
  | PACKET_SEND => r_pkt_io_size r
  | _ => 65536
  end.

Record ide_ok (s : HpsIde) : Prop := mkOk {
  ok_id : is_u8 (id_ s);
  ok_base : is_u16 (base_ s);
  ok_next : resumable (next_state_ s) = true;
  ok_regs : regs_ok (regs_ s);
  ok_drive : drive_ok (drive_ s);
  ok_image : bytes (image_ s);
  ok_name : bytes (image_name_ s);
  ok_path : bytes (image_path_ s);
  ok_window : forall off, sector_words_ s = Some off ->
              0 <= off /\ off + 512 <= Z.of_nat (length (image_ s));
  ok_sector : is_u32 (sector_ s);
  ok_sector_count : is_u32 (sector_count_ s);
  ok_cylinder : is_u32 (cylinder_ s);
  ok_drv_addr : is_u8 (drv_addr_ s);
  ok_cmd : is_u8 (cmd_ s);
  ok_features : is_u8 (features_ s);
  ok_buf_len : length (buf_ s) = 12%nat;
  ok_buf : bytes (buf_ s);
  ok_packet_len : length (packet_ s) = 12%nat;
  ok_packet : bytes (packet_ s);
  ok_data : bytes (packet_data_ s);
  ok_data_len : state_ s = PACKET_SEND ->
                2 * r_pkt_io_size (regs_ s) <= Z.of_nat (length (packet_data_ s));
  ok_lba : is_u32 (packet_lba_ s);
  ok_remaining : is_u32 (packet_remaining_ s);
  ok_limit : is_u16 (packet_size_limit_ s);
  ok_key : is_u8 (sense_key_ s);
  ok_asc : is_u8 (sense_asc_ s);
  ok_ascq : is_u8 (sense_ascq_ s);
  ok_cnt : 0 <= cnt_ s <= cnt_bound (state_ s) (regs_ s);
  ok_irq : is_u8 (irq_pending_ s);
  ok_jitter : 0 <= jitter_delay_ s < 64
}.

(** What the Verilated model guarantees of its ports. *)
Definition bus_ok (tb : Bus) : Prop :=
  is_u16 (mgmt_address tb) /\ is_u16 (mgmt_writedata tb) /\ is_u16 (mgmt_readdata tb) /\
  0 <= ide0_request tb < 8 /\ 0 <= ide1_request tb < 8 /\ 0 <= fdd_request tb < 4.

Definition step_ok (s : HpsIde) (r : Step) : Prop :=
  exists s' tb', r = Some (s', tb') /\ ide_ok s' /\ length (image_ s') = length (image_ s).

(** Widths of closed terms and masks. *)
Lemma cnt_bound_range st r : regs_ok r -> cnt_bound st r <= 65536.
Proof.
  intros (_ & _ & _ & _ & _ & _ & _ & _ & _ & Hp & _). unfold is_u16 in Hp.
  destruct st; cbn; lia.
Qed.

(** ** Preservation, handler by handler *)

Lemma ok_cnt_max s : ide_ok s -> 0 <= cnt_ s <= 65536.
Proof.
  intros Hs. pose proof (cnt_bound_range (state_ s) _ (ok_regs _ Hs)).
  pose proof (ok_cnt _ Hs). lia.
Qed.

(** [regs_width] proves [regs_ok] of an updated register file, [ide_pres] the
    invariant of an updated state, field by field. *)
Ltac regs_width :=
  match goal with H : regs_ok _ |- _ => destruct H as (?&?&?&?&?&?&?&?&?&?&?) end;
  unfold regs_ok; cbn;
  repeat match goal with |- _ /\ _ => split end; width.

Ltac ok_field :=
  lazymatch goal with
  | |- regs_ok _ => regs_width
  | |- _ = PACKET_SEND -> _ => intros; first [discriminate | congruence | lia]
  | |- 0 <= _ <= _ => lia
  | |- forall _, _ = Some _ -> _ => intros; simplify_eq
  | |- _ = _ => done
  | |- _ => width
  end.

Ltac ide_pres :=
  match goal with H : ide_ok ?s |- _ => pose proof (ok_cnt_max _ H); destruct H end;
  constructor; cbn; try assumption; ok_field.

Lemma set_regs_then_ok next s r :
  ide_ok s -> regs_ok r -> resumable next = true -> ide_ok (set_regs_then next s r).
Proof.
  intros Hs Hr Hn. unfold set_regs_then. ide_pres.
Qed.

(** A change of state whose counter restarts at zero, or whose bound is the
    general one. *)
Lemma with_state_ok s st :
  ide_ok s -> st <> PACKET_SEND -> cnt_ s <= cnt_bound st (regs_ s) -> ide_ok (s <| state_ := st |>).
Proof. intros Hs Hne Hc. ide_pres. Qed.

Lemma with_image_ok s img :
  ide_ok s -> bytes img -> length img = length (image_ s) -> ide_ok (s <| image_ := img |>).
Proof.
  intros Hs Hb Hl. destruct Hs. constructor; cbn; try done.
  rewrite Hl. done.
Qed.

(** To a state whose counter bound is the general one. *)
Ltac to_state :=
  apply with_state_ok; [done | done |
    cbn; match goal with H : ide_ok ?s |- cnt_ ?s <= _ => pose proof (ok_cnt_max s H) end; lia].

Lemma step_ok_intro s s' tb' :
  ide_ok s' -> length (image_ s') = length (image_ s) -> step_ok s (Some (s', tb')).
Proof. intros; exists s', tb'; done. Qed.

Section Handlers.
Context (s : HpsIde) (tb : Bus) (Hs : ide_ok s) (Htb : bus_ok tb).

Lemma on_INITIAL_ok : step_ok s (on_INITIAL s tb).
Proof. apply step_ok_intro; [|done]. to_state. Qed.

Lemma on_IDLE_ok : step_ok s (on_IDLE s tb).
Proof.
  unfold on_IDLE. repeat case_bool; apply step_ok_intro; try done; to_state.
Qed.

Lemma on_GET_RESET_DRIVE_ok : step_ok s (on_GET_RESET_DRIVE s tb).
Proof.
  destruct Htb as (_ & _ & Hd & _).
  apply step_ok_intro; [|done]. apply set_regs_then_ok; [ide_pres| |done].
  pose proof (ok_regs _ Hs). regs_width.
Qed.

Lemma on_RESET_SET_ok : step_ok s (on_RESET_SET s tb).
Proof. apply step_ok_intro; [|done]. to_state. Qed.

Lemma on_GET_CMD_ok : step_ok s (on_GET_CMD s tb).
Proof.
  destruct Htb as (_ & _ & Hd & _). unfold on_GET_CMD.
  repeat case_bool; apply step_ok_intro; try done; ide_pres.
Qed.
End Handlers.

(** ** Packet commands *)

Lemma send_packet_data_ok s data : ide_ok s -> bytes data -> ide_ok (send_packet_data s data).
Proof.
  intros Hs Hdata. unfold send_packet_data; cbv zeta.
  set (d := if negb _ && _ then _ else _).
  set (d' := if Nat.odd (length d) then _ else _).
  assert (Hd' : bytes d').
  { unfold d', d. repeat case_bool; auto with z486_bytes. }
  assert (Hpk : 2 * u16 (Z.of_nat (length d') / 2) <= Z.of_nat (length d')) by (unfold u16; divlia).
  assert (0 <= u16 (Z.of_nat (length d') / 2)) by (unfold u16; divlia).
  ide_pres.
Qed.

Lemma length_send_packet_data s data : image_ (send_packet_data s data) = image_ s.
Proof. done. Qed.

Lemma finish_packet_ok_inv s key asc ascq extra :
  ide_ok s -> is_u8 key -> is_u8 asc -> is_u8 ascq -> ide_ok (finish_packet s key asc ascq extra).
Proof. intros. unfold finish_packet; cbv zeta. ide_pres. Qed.

Lemma prepare_cdrom_read_ok s : ide_ok s -> ide_ok (prepare_cdrom_read s).
Proof.
  intros Hs. unfold prepare_cdrom_read, finish_packet_ok. repeat case_bool.
  - apply finish_packet_ok_inv; width || done.
  - apply finish_packet_ok_inv; width || done.
  - apply send_packet_data_ok; [ide_pres|]. pose proof (ok_image _ Hs). auto with z486_bytes.
Qed.

Lemma image_prepare_cdrom_read s : image_ (prepare_cdrom_read s) = image_ s.
Proof. unfold prepare_cdrom_read. by repeat case_bool. Qed.

Lemma clear_sense_ok s :
  ide_ok s -> ide_ok (s <| sense_key_ := 0 |> <| sense_asc_ := 0 |> <| sense_ascq_ := 0 |>).
Proof. intros. ide_pres. Qed.

Lemma handle_packet_ok s : ide_ok s -> ide_ok (handle_packet s).
Proof.
  intros Hs. pose proof (ok_packet _ Hs) as Hp.
  pose proof (ok_key _ Hs). pose proof (ok_asc _ Hs). pose proof (ok_ascq _ Hs).
  assert (Hlba : forall o k, is_u32 k ->
    ide_ok (s <| packet_lba_ := be32 s o |> <| packet_remaining_ := k |>)).
  { intros o k Hk. pose proof (be32_u32 s o Hp). ide_pres. }
  pose proof (be16_u16 s 7). pose proof (be32_u32 s 6 Hp).
  unfold handle_packet; cbv zeta.
  repeat match goal with |- ide_ok (if ?b then _ else _) => destruct b end.
  all: try (apply finish_packet_ok_inv; width || done).
  all: try (apply prepare_cdrom_read_ok, Hlba; width).
  - apply clear_sense_ok, send_packet_data_ok, request_sense_bytes; done.
  - apply send_packet_data_ok, inquiry_bytes; done.
  - apply send_packet_data_ok, read_capacity_bytes; done.
  - destruct (toc_data s) eqn:E; [|apply finish_packet_ok_inv; width || done].
    by eapply send_packet_data_ok, toc_bytes.
  - apply send_packet_data_ok, subchannel_bytes; done.
  - apply send_packet_data_ok, mode_sense_bytes; done.
  - apply send_packet_data_ok, get_configuration_bytes; done.
Qed.

Lemma image_handle_packet s : image_ (handle_packet s) = image_ s.
Proof.
  unfold handle_packet; cbv zeta.
  repeat match goal with |- image_ (if ?b then _ else _) = _ => destruct b end.
  all: try (by rewrite image_prepare_cdrom_read).
  all: try done.
  by destruct (toc_data s).
Qed.

(** ** Task-file commands *)

Lemma with_regs_ok s r :
  ide_ok s -> regs_ok r -> state_ s <> PACKET_SEND -> ide_ok (s <| regs_ := r |>).
Proof.
  intros Hs Hr Hne. pose proof (ok_cnt _ Hs) as Hc.
  assert (cnt_bound (state_ s) r = cnt_bound (state_ s) (regs_ s)) as Hb.
  { destruct (state_ s); done. }
  rewrite <- Hb in Hc. ide_pres.
Qed.

Lemma with_drive_ok s d : ide_ok s -> drive_ok d -> ide_ok (s <| drive_ := d |>).
Proof. intros. ide_pres. Qed.

Lemma handle_cdrom_cmd_ok s : ide_ok s -> ide_ok (handle_cdrom_cmd s).
Proof.
  intros Hs. pose proof (ok_regs _ Hs) as Hr. unfold handle_cdrom_cmd; cbv zeta.
  repeat match goal with |- ide_ok (if ?b then _ else _) => destruct b end.
  - ide_pres.
  - apply finish_packet_ok_inv; width || done.
  - apply set_regs_then_ok; [ide_pres|regs_width|done].
  - apply set_regs_then_ok; [done|regs_width|done].
  - apply set_regs_then_ok; [done|regs_width|done].
  - apply set_regs_then_ok; [done|regs_width|done].
Qed.

Lemma mask_taskfile_ok s : ide_ok s -> state_ s = DO_CMD -> ide_ok (mask_taskfile s).
Proof.
  intros Hs Hst. pose proof (ok_regs _ Hs) as Hr. unfold mask_taskfile; cbv zeta.
  apply with_regs_ok; [done| |congruence].
  repeat case_bool; regs_width.
Qed.

Lemma handle_cmd_ok s :
  ide_ok s -> state_ s = DO_CMD ->
  exists s', handle_cmd s = Some s' /\ ide_ok s' /\ image_ s' = image_ s.
Proof.
  intros Hs Hst. pose proof (ok_regs _ Hs) as Hr. unfold handle_cmd.
  case_bool; [eexists; split_and?; [done| |done]; apply set_regs_then_ok; [done|regs_width|done]|].
  case_bool.
  { eexists; split_and?; [done|by apply handle_cdrom_cmd_ok|].
    unfold handle_cdrom_cmd; cbv zeta. by repeat case_bool. }
  pose proof (mask_taskfile_ok s Hs Hst) as Hm.
  assert (Himg : image_ (mask_taskfile s) = image_ s) by done.
  assert (state_ (mask_taskfile s) = DO_CMD) by done.
  set (m := mask_taskfile s) in *. rewrite <- Himg. clearbody m. clear s Hs Hst Himg E E0 Hr.
  pose proof (ok_regs _ Hm) as Hr. pose proof (ok_drive _ Hm) as Hd.
  unfold handle_disk_cmd; cbv zeta.
  repeat match goal with |- context [(if ?b then _ else _) = Some _] => destruct b end.
  4: { destruct (set_geometry_Some m (r_sector_count (regs_ m)) (r_head (regs_ m) + 1))
        as (s' & -> & Hd' & _ & _ & _ & Heq); [done|destruct Hr as (?&?&?&?&?&?&?); unfold is_u8 in *; lia|].
       cbn [mbind option_bind]. eexists. split_and?; [done| |by rewrite Heq].
       pose proof (with_drive_ok _ _ Hm Hd') as Hs'. rewrite <- Heq in Hs'.
       assert (regs_ok (regs_ s')) by (by rewrite Heq).
       apply set_regs_then_ok; [done|regs_width|done]. }
  all: eexists; split_and?; [done| |done].
  all: try (apply set_regs_then_ok; [done|regs_width|done]).
  - ide_pres.
  - to_state.
  - to_state.
Qed.

(** ** Data phases *)

Lemma sector_window_Some img lba off :
  is_u32 lba -> sector_window img lba = Some off ->
  off = lba * 512 /\ off + 512 <= Z.of_nat (length img).
Proof.
  intros Hl. unfold sector_window, is_u32 in *. rewrite u64_id by (unfold is_u64; lia).
  case_bool; [done|]. intros [= <-]. lia.
Qed.

Lemma get_lba_u32 d r : regs_ok r -> is_u32 (get_lba d r).
Proof.
  intros (_ & _ & _ & Hs & Hc & Hh & _). unfold get_lba.
  case_bool; [|width]. width.
Qed.

Lemma window_ok s w :
  ide_ok s -> (forall off, w = Some off -> 0 <= off /\ off + 512 <= Z.of_nat (length (image_ s))) ->
  ide_ok (s <| sector_words_ := w |>).
Proof. intros Hs Hw. ide_pres. Qed.

Lemma sector_window_ok s d r :
  ide_ok s -> regs_ok r -> ide_ok (s <| sector_words_ := sector_window (image_ s) (get_lba d r) |>).
Proof.
  intros Hs Hr. apply window_ok; [done|]. intros off Hoff.
  pose proof (get_lba_u32 d r Hr) as Hl.
  apply sector_window_Some in Hoff as [-> ?]; [|done]. unfold is_u32 in Hl. lia.
Qed.

Lemma no_window_ok s :
  ide_ok s -> ide_ok (s <| buf_ := replicate 12 0 |> <| sector_words_ := None |>).
Proof.
  intros Hs. assert (bytes (replicate 12 0)) by auto with z486_bytes.
  ide_pres.
Qed.

Lemma wait_req_ok s tb go :
  ide_ok s -> ide_ok go -> image_ go = image_ s -> step_ok s (wait_req s tb go).
Proof.
  intros Hs Hgo Himg. unfold wait_req. repeat case_bool; apply step_ok_intro; try done.
  - by rewrite Himg.
  - to_state.
Qed.

Lemma store_window_ok s w :
  ide_ok s -> state_ s = WRITE_RECV -> is_u16 w ->
  forall off, sector_words_ s = Some off -> 0 < cnt_ s ->
  exists img, store_word (image_ s) (off + 2 * (cnt_ s - 1)) w = Some img /\
    bytes img /\ length img = length (image_ s).
Proof.
  intros Hs Hst Hw off Hoff Hc. pose proof (ok_window _ Hs _ Hoff) as [H0 H1].
  pose proof (ok_cnt _ Hs) as Hcnt. rewrite Hst in Hcnt. cbn in Hcnt.
  destruct (store_word (image_ s) (off + 2 * (cnt_ s - 1)) w) as [img|] eqn:E.
  - exists img. split_and?; [done|by eapply store_word_bytes, E; apply Hs|by eapply store_word_length].
  - unfold store_word in E. case_bool; [done|]. lia.
Qed.

Lemma recv_word_ok s tb :
  ide_ok s -> bus_ok tb -> state_ s = WRITE_RECV ->
  exists img, recv_word s tb = Some (s <| image_ := img |>) /\ bytes img /\
    length img = length (image_ s).
Proof.
  intros Hs (_ & _ & Hd & _) Hst. unfold recv_word.
  assert (Hsame : s = s <| image_ := image_ s |>) by (by destruct s).
  destruct (sector_words_ s) as [off|] eqn:Eoff;
    [|exists (image_ s); split_and?; [by rewrite <- Hsame|apply Hs|done]].
  case_bool; [|exists (image_ s); split_and?; [by rewrite <- Hsame|apply Hs|done]].
  destruct (store_window_ok s (mgmt_readdata tb) Hs Hst Hd off Eoff) as (img & -> & Hb & Hl); [lia|].
  cbn [mbind option_bind]. eauto.
Qed.

(** The registers after one sector: the next address, one sector less. *)
Lemma next_sector_ok s :
  ide_ok s ->
  exists r, put_lba (drive_ s) (regs_ s) (u32 (get_lba (drive_ s) (regs_ s) + 1)) = Some r /\ regs_ok r.
Proof.
  intros Hs.
  destruct (put_lba_Some (drive_ s) (regs_ s) (u32 (get_lba (drive_ s) (regs_ s) + 1)))
    as (r & ? & ? & _); [apply Hs|apply Hs|apply u32_range|]. eauto.
Qed.

Section DataHandlers.
Context (s : HpsIde) (tb : Bus) (Hs : ide_ok s) (Htb : bus_ok tb).

Lemma on_DO_CMD_ok : state_ s = DO_CMD -> step_ok s (on_DO_CMD s tb).
Proof.
  intros Hst. unfold on_DO_CMD.
  destruct (handle_cmd_ok s Hs Hst) as (s' & -> & Hs' & Himg). cbn [mbind option_bind].
  apply step_ok_intro; [done|by rewrite Himg].
Qed.

Lemma on_SEND_ID_ok : state_ s = SEND_ID -> step_ok s (on_SEND_ID s tb).
Proof.
  intros Hst. pose proof (ok_cnt _ Hs) as Hc. rewrite Hst in Hc. cbn in Hc. unfold on_SEND_ID.
  destruct (ok_drive _ Hs) as (_ & _ & _ & _ & _ & Hlen & _). case_bool.
  - destruct (zlookup_Some (d_id (drive_ s)) (cnt_ s)) as (w & -> & _); [lia|]. cbn [mbind option_bind].
    apply step_ok_intro; [|done]. destruct Hs; constructor; cbn; try done.
    rewrite Hst; cbn. lia.
  - apply step_ok_intro; [|done]. ide_pres.
Qed.

Lemma regs_report_ok cdrom r :
  regs_ok r -> bytes (regs_report cdrom r) /\ length (regs_report cdrom r) = 12%nat.
Proof.
  intros (? & ? & ? & ? & ? & ? & ? & ? & ? & ? & ?). split; [|done].
  unfold regs_report, bytes. repeat apply Forall_cons_2; try width. constructor.
Qed.

Lemma on_SET_REGS_ok : step_ok s (on_SET_REGS s tb).
Proof.
  pose proof (ok_regs _ Hs) as Hr. unfold on_SET_REGS; cbv zeta.
  set (r := if _ : bool then _ else _).
  assert (Hr' : regs_ok r) by (unfold r; case_bool; [regs_width|done]).
  destruct (regs_report_ok (cdrom_ s) r Hr') as [Hb Hl]. clearbody r.
  apply step_ok_intro; [|done]. ide_pres.
Qed.

Lemma on_SET_REGS_SEND_ok : state_ s = SET_REGS_SEND -> step_ok s (on_SET_REGS_SEND s tb).
Proof.
  intros Hst. pose proof (ok_cnt _ Hs) as Hc. rewrite Hst in Hc. cbn in Hc.
  unfold on_SET_REGS_SEND. case_bool.
  - destruct (word_at_Some (buf_ s) (2 * cnt_ s)) as [w ->];
      [lia|rewrite (ok_buf_len _ Hs); lia|]. cbn [mbind option_bind].
    apply step_ok_intro; [|done]. destruct Hs; constructor; cbn; try done.
    rewrite Hst; cbn; lia.
  - apply step_ok_intro; [|done].
    pose proof (ok_next _ Hs) as Hn. destruct Hs; constructor; cbn; try done.
    + destruct (next_state_ s); done.
    + destruct (next_state_ s); done || (cbn; lia).
Qed.

Lemma on_READ_REGS_ok : step_ok s (on_READ_REGS s tb).
Proof.
  unfold on_READ_REGS; cbv zeta.
  pose proof (sector_window_ok s (drive_ s) (regs_ s) Hs (ok_regs _ Hs)) as Hw.
  set (s1 := match sector_window _ _ with Some _ => _ | None => _ end).
  assert (Hs1 : ide_ok s1 /\ regs_ s1 = regs_ s /\ drive_ s1 = drive_ s /\ image_ s1 = image_ s).
  { unfold s1. destruct (sector_window _ _); [done|].
    split; [|done]. clear Hw. apply no_window_ok, Hs. }
  destruct Hs1 as (Hs1 & Hr1 & Hd1 & Hi1). clearbody s1.
  destruct (next_sector_ok s1 Hs1) as (r & -> & Hr). cbn [mbind option_bind].
  set (r' := if _ : bool then _ else _).
  assert (Hr' : regs_ok r') by (unfold r'; case_bool; regs_width). clearbody r'.
  apply step_ok_intro; [|by cbn; rewrite Hi1]. ide_pres.
Qed.

Lemma on_READ_SEND_ok : state_ s = READ_SEND -> step_ok s (on_READ_SEND s tb).
Proof.
  intros Hst. pose proof (ok_cnt _ Hs) as Hc. rewrite Hst in Hc. cbn in Hc.
  unfold on_READ_SEND. case_bool.
  - assert (Hw : exists w, match sector_words_ s with
               | Some off => word_at (image_ s) (off + 2 * cnt_ s) | None => Some 0 end = Some w).
    { destruct (sector_words_ s) as [off|] eqn:Eoff; [|eauto].
      pose proof (ok_window _ Hs _ Eoff). apply word_at_Some; lia. }
    destruct Hw as [w ->]. cbn [mbind option_bind].
    apply step_ok_intro; [|done]. destruct Hs; constructor; cbn; try done.
    rewrite Hst; cbn; lia.
  - apply step_ok_intro; [|done].
    destruct (r_sector_count (regs_ s) =? 0); cbn [negb]; ide_pres.
Qed.

Lemma on_WRITE_ok : step_ok s (on_WRITE s tb).
Proof. apply step_ok_intro; [|done]. ide_pres. Qed.

Lemma on_WRITE_REGS_ok : step_ok s (on_WRITE_REGS s tb).
Proof.
  unfold on_WRITE_REGS; cbv zeta. apply step_ok_intro; [|done].
  pose proof (sector_window_ok s (drive_ s) (regs_ s) Hs (ok_regs _ Hs)) as Hw.
  pose proof (ok_regs _ Hs) as Hr. pose proof (ok_irq _ Hs). cbn in Hw.
  apply set_regs_then_ok; [|regs_width|done].
  set (s1 := s <| sector_words_ := _ |>) in *. clearbody s1. ide_pres.
Qed.

Lemma on_WRITE_RECV_ok : state_ s = WRITE_RECV -> step_ok s (on_WRITE_RECV s tb).
Proof.
  intros Hst. pose proof (ok_cnt _ Hs) as Hc. rewrite Hst in Hc. cbn in Hc.
  unfold on_WRITE_RECV.
  destruct (recv_word_ok s tb Hs Htb Hst) as (img & -> & Hb & Hl). cbn [mbind option_bind].
  pose proof (with_image_ok s img Hs Hb Hl) as Hs1.
  assert (Hst1 : state_ (s <| image_ := img |>) = WRITE_RECV) by done.
  assert (Hc1 : cnt_ (s <| image_ := img |>) = cnt_ s) by done.
  assert (Hl1 : length (image_ (s <| image_ := img |>)) = length (image_ s)) by done.
  set (s1 := s <| image_ := img |>) in *. clearbody s1. case_bool.
  - apply step_ok_intro; [|done]. destruct Hs1; constructor; cbn; try done.
    rewrite Hst1; cbn; lia.
  - assert (Hs2 : ide_ok (s1 <| cnt_ := 0 |>)).
    { destruct Hs1; constructor; cbn; try done. rewrite Hst1; cbn; lia. }
    destruct (next_sector_ok _ Hs2) as (r & -> & Hr). cbn [mbind option_bind].
    case_bool; apply step_ok_intro; try done.
    + assert (regs_ok (r <| r_sector_count := u16 (r_sector_count r - 1) |>)) by regs_width.
      clear Hs1. ide_pres.
    + apply set_regs_then_ok; [done|regs_width|done].
Qed.
End DataHandlers.

Section PacketHandlers.
Context (s : HpsIde) (tb : Bus) (Hs : ide_ok s) (Htb : bus_ok tb).

Lemma on_PACKET_WAIT_REQ_ok : step_ok s (on_PACKET_WAIT_REQ s tb).
Proof.
  apply wait_req_ok; [done| |done].
  assert (bytes (replicate 12 0)) by auto with z486_bytes. ide_pres.
Qed.

Lemma on_WRITE_WAIT_REQ_ok : step_ok s (on_WRITE_WAIT_REQ s tb).
Proof. apply wait_req_ok; [done|ide_pres|done]. Qed.

Lemma on_READ_WAIT_REQ_ok : step_ok s (on_READ_WAIT_REQ s tb).
Proof. apply wait_req_ok; [done|to_state|done]. Qed.

Lemma on_READ_ok : step_ok s (on_READ s tb).
Proof. apply step_ok_intro; [to_state|done]. Qed.

Lemma recv_packet_ok :
  state_ s = PACKET_RECV ->
  exists p, (if 0 <? cnt_ s then store_word (packet_ s) ((cnt_ s - 1) * 2) (mgmt_readdata tb)
             else Some (packet_ s)) = Some p /\ bytes p /\ length p = 12%nat.
Proof.
  intros Hst. pose proof (ok_cnt _ Hs) as Hc. rewrite Hst in Hc. cbn in Hc.
  pose proof (ok_packet_len _ Hs) as Hl. pose proof (ok_packet _ Hs) as Hb.
  case_bool; [|eauto].
  destruct (store_word (packet_ s) ((cnt_ s - 1) * 2) (mgmt_readdata tb)) as [p|] eqn:Ep.
  - exists p. split_and?; [done|by eapply store_word_bytes|].
    by erewrite store_word_length.
  - unfold store_word in Ep. case_bool; [done|]. lia.
Qed.

Lemma on_PACKET_RECV_ok : state_ s = PACKET_RECV -> step_ok s (on_PACKET_RECV s tb).
Proof.
  intros Hst. pose proof (ok_cnt _ Hs) as Hc. rewrite Hst in Hc. cbn in Hc.
  unfold on_PACKET_RECV. destruct (recv_packet_ok Hst) as (p & -> & Hb & Hl).
  cbn [mbind option_bind]. cbn. case_bool; (apply step_ok_intro; [|done]).
  - pose proof Hs as H. destruct H; constructor; cbn; try done. rewrite Hst; cbn; lia.
  - ide_pres.
Qed.

Lemma on_PACKET_HANDLE_ok : step_ok s (on_PACKET_HANDLE s tb).
Proof. apply step_ok_intro; [by apply handle_packet_ok|by rewrite image_handle_packet]. Qed.

Lemma on_PACKET_SEND_ok : state_ s = PACKET_SEND -> step_ok s (on_PACKET_SEND s tb).
Proof.
  intros Hst. pose proof (ok_cnt _ Hs) as Hc. rewrite Hst in Hc. cbn in Hc.
  pose proof (ok_data_len _ Hs Hst) as Hl. unfold on_PACKET_SEND. case_bool.
  - destruct (word_at_Some (packet_data_ s) (2 * cnt_ s)) as [w ->]; [lia..|].
    cbn [mbind option_bind]. apply step_ok_intro; [|done].
    pose proof Hs as H. destruct H; constructor; cbn; try done. rewrite Hst; cbn; lia.
  - apply step_ok_intro; [|done]. ide_pres.
Qed.

Lemma on_PACKET_READ_WAIT_REQ_ok : step_ok s (on_PACKET_READ_WAIT_REQ s tb).
Proof.
  unfold on_PACKET_READ_WAIT_REQ. apply wait_req_ok; [done| |].
  - case_bool; [by apply prepare_cdrom_read_ok|]. apply finish_packet_ok_inv; width || done.
  - case_bool; [apply image_prepare_cdrom_read|done].
Qed.
End PacketHandlers.

#[export] Hint Resolve on_INITIAL_ok on_IDLE_ok on_GET_RESET_DRIVE_ok on_RESET_SET_ok
  on_GET_CMD_ok on_DO_CMD_ok on_SEND_ID_ok on_SET_REGS_ok on_SET_REGS_SEND_ok on_READ_ok
  on_READ_REGS_ok on_READ_SEND_ok on_READ_WAIT_REQ_ok on_WRITE_ok on_WRITE_REGS_ok
  on_WRITE_WAIT_REQ_ok on_WRITE_RECV_ok on_PACKET_WAIT_REQ_ok on_PACKET_RECV_ok
  on_PACKET_HANDLE_ok on_PACKET_SEND_ok on_PACKET_READ_WAIT_REQ_ok : z486.

Lemma dispatch_ok s tb : ide_ok s -> bus_ok tb -> step_ok s (dispatch s tb).
Proof. intros Hs Htb. unfold dispatch. destruct (state_ s) eqn:Hst; auto with z486. Qed.

(** ** The bus after a handler: its ports stay within their widths, and at
    most one operation is issued. *)

Definition bus_frame (tb tb' : Bus) : Prop :=
  reset tb' = reset tb /\ mgmt_readdata tb' = mgmt_readdata tb /\
  ide0_request tb' = ide0_request tb /\ ide1_request tb' = ide1_request tb /\
  fdd_request tb' = fdd_request tb /\
  (tb' = tb \/ (exists a, tb' = pulse_read tb a) \/ (exists a d, tb' = pulse_write tb a d)).

Lemma bus_frame_refl tb : bus_frame tb tb.
Proof. unfold bus_frame. eauto 10. Qed.
Lemma bus_frame_read tb a : bus_frame tb (pulse_read tb a).
Proof. unfold bus_frame. eauto 12. Qed.
Lemma bus_frame_write tb a d : bus_frame tb (pulse_write tb a d).
Proof. unfold bus_frame. eauto 12. Qed.
#[export] Hint Resolve bus_frame_refl bus_frame_read bus_frame_write : z486.

Lemma bus_frame_ok tb tb' : bus_ok tb -> bus_frame tb tb' -> bus_ok tb'.
Proof.
  intros (Ha & Hw & Hr & H0 & H1 & Hf) (_ & Er & E0 & E1 & Ef & Hop).
  unfold bus_ok. rewrite Er, E0, E1, Ef.
  destruct Hop as [->|[[a ->]|[a [d ->]]]]; cbn; split_and?; try done; width.
Qed.

(** Takes a handler apart: the monadic binds, the conditionals. *)
Ltac handler_cases H :=
  repeat first
    [ match type of H with context [(if ?b then _ else _)] => destruct b end
    | match type of H with (?o ≫= _) = Some _ => destruct o eqn:?; [cbn [mbind option_bind] in H|done] end ].

Lemma dispatch_frame s tb s' tb' : dispatch s tb = Some (s', tb') -> bus_frame tb tb'.
Proof.
  unfold dispatch. intros H. destruct (state_ s);
    unfold on_INITIAL, on_IDLE, on_GET_RESET_DRIVE, on_RESET_SET, on_GET_CMD, on_DO_CMD,
      on_SEND_ID, on_SET_REGS, on_SET_REGS_SEND, on_READ, on_READ_REGS, on_READ_SEND,
      on_READ_WAIT_REQ, on_WRITE, on_WRITE_REGS, on_WRITE_WAIT_REQ, on_WRITE_RECV,
      on_PACKET_WAIT_REQ, on_PACKET_RECV, on_PACKET_HANDLE, on_PACKET_SEND,
      on_PACKET_READ_WAIT_REQ, wait_req in H;
    cbv zeta in H; handler_cases H; simplify_eq; auto with z486.
Qed.
