(* ===== verification/IdeSafety.v ===== *)
(** * Safety and liveness of the device's clock

    [reachable]: the states a device goes through from construction on, whatever
    the bus does.  [tick] is defined on all of them, keeps the invariant, issues
    at most one management operation per tick and never two in a row; after
    reset it restarts; left to itself it always comes back to a waiting state
    within [settle_bound] ticks. *)
From S2P Require Import Prelude IdeTypes IdeGeometry IdePacket IdeCommand IdeTick IdeInvariant.

(** ** Reachable states

    A device is constructed, opened at most once and then clocked; the bus
    presents any values to each tick. *)
Section Reachable.
Context (fs_read : list Z -> option (list Z)) (fs_absolute : list Z -> list Z).

Inductive reachable : HpsIde -> Prop :=
| reach_new id base : reachable (HpsIde_new id base)
| reach_open id base path ok s :
    bytes path -> open fs_read fs_absolute (HpsIde_new id base) path = Some (ok, s) -> reachable s
| reach_open_cdrom id base path ok s :
    bytes path -> open_cdrom fs_read fs_absolute (HpsIde_new id base) path = (ok, s) -> reachable s
| reach_tick g s tb g' s' tb' :
    reachable s -> bus_ok tb -> tick g s tb = Some (g', s', tb') -> reachable s'.
End Reachable.

(** The waiting states: the device moves on only when the core requests it. *)
Definition waiting (st : State) : bool :=
  match st with
  | IDLE | READ_WAIT_REQ | WRITE_WAIT_REQ | PACKET_WAIT_REQ | PACKET_READ_WAIT_REQ => true
  | _ => false
  end.

(** Values the core presents on one tick; the management outputs are the
    device's own registers and keep their values between its ticks. *)
Record Inputs := mkInputs {
  in_readdata : Z; in_ide0_request : Z; in_ide1_request : Z; in_fdd_request : Z }.

Definition inputs_ok (i : Inputs) : Prop :=
  is_u16 (in_readdata i) /\ 0 <= in_ide0_request i < 8 /\ 0 <= in_ide1_request i < 8 /\
  0 <= in_fdd_request i < 4.

Definition sample (i : Inputs) (tb : Bus) : Bus :=
  tb <| reset := false |> <| mgmt_readdata := in_readdata i |>
     <| ide0_request := in_ide0_request i |> <| ide1_request := in_ide1_request i |>
     <| fdd_request := in_fdd_request i |>.

Fixpoint run (ins : list Inputs) (g : Jitter) (s : HpsIde) (tb : Bus)
  : option (Jitter * HpsIde * Bus) :=
  match ins with
  | [] => Some (g, s, tb)
  | i :: ins => '(g, s, tb) ← tick g s (sample i tb); run ins g s tb
  end.

(** Handlers left before the device waits: the longest way through the
    states, in the order they can follow each other. *)
Definition handlers_left (s : HpsIde) (tb : Bus) : Z :=
  match state_ s with
  | IDLE | READ_WAIT_REQ | WRITE_WAIT_REQ | PACKET_WAIT_REQ | PACKET_READ_WAIT_REQ => 0
  | INITIAL | RESET_SET => 1
  | SET_REGS_SEND => 8 - cnt_ s
  | SET_REGS => 9
  | GET_RESET_DRIVE | WRITE_REGS => 10
  | WRITE => 11
  | SEND_ID | READ_SEND => 266 - cnt_ s
  | WRITE_RECV => 267 - cnt_ s
  | READ_REGS => 267
  | READ => 268
  | DO_CMD => 269
  | GET_CMD => let k := Z.land (mgmt_address tb) 0xF in if k <=? 5 then 275 - k else 1
  | PACKET_SEND => 10 + r_pkt_io_size (regs_ s) - cnt_ s
  | PACKET_HANDLE => 65546
  | PACKET_RECV => 65553 - cnt_ s
  end.

(** Ticks left: each handler is followed by at most 64 stalled ticks. *)
Definition ticks_left (s : HpsIde) (tb : Bus) : Z :=
  b2z (bus_cooldown_ s) + jitter_delay_ s + 65 * handlers_left s tb.

Definition settle_bound : Z := 65 * 65554.

(** ** The invariant, tick by tick *)

Lemma new_ok id base : ide_ok (HpsIde_new id base).
Proof.
  assert (Hz : bytes (replicate 12 0)) by (apply bytes_replicate; width).
  assert (Hd : drive_ok drive_init).
  { unfold drive_ok. split_and?; try (cbn; unfold is_u16, is_u32; lia); try done.
    apply Forall_replicate. width. }
  constructor; cbn -[replicate drive_init]; auto using regs_init_ok, bytes_nil;
    first [width | lia | discriminate].
Qed.

Lemma jitter_next_range g : 0 <= (jitter_next g).1 < 64.
Proof. unfold jitter_next; cbn. apply land_range; lia. Qed.

Lemma arm_cooldown_ok g s tb : ide_ok s -> ide_ok (arm_cooldown g s tb).2.
Proof.
  intros Hs. pose proof (jitter_next_range g) as Hj. unfold arm_cooldown.
  case_bool; [|done]. case_bool.
  - destruct (jitter_next g) as [d g']. cbn in *. ide_pres.
  - cbn. ide_pres.
Qed.

Lemma image_arm_cooldown g s tb : image_ (arm_cooldown g s tb).2 = image_ s.
Proof.
  unfold arm_cooldown. case_bool; [|done]. case_bool; [|done].
  by destruct (jitter_next g).
Qed.

Lemma on_reset_ok s : ide_ok s -> ide_ok (on_reset s).
Proof.
  intros Hs. assert (Hr : regs_ok (regs_init <| r_status := if cdrom_ s then 0 else ATA_STATUS_RDY |>)).
  { pose proof regs_init_ok. regs_width. }
  unfold on_reset. ide_pres.
Qed.

Lemma stalled_ok s j : ide_ok s -> 0 <= j < 64 ->
  ide_ok (s <| bus_cooldown_ := false |>) /\ ide_ok (s <| jitter_delay_ := j |>).
Proof. intros Hs Hj. split; destruct Hs; constructor; cbn; try done. Qed.

(** The four ways through [tick]. *)
Inductive tick_case (g : Jitter) (s : HpsIde) (tb : Bus) : option (Jitter * HpsIde * Bus) -> Prop :=
| tick_reset : reset tb = true -> tick_case g s tb (Some (g, on_reset s, clear_bus tb))
| tick_cooldown : reset tb = false -> bus_cooldown_ s = true ->
    tick_case g s tb (Some (g, s <| bus_cooldown_ := false |>, clear_bus tb))
| tick_jitter : reset tb = false -> bus_cooldown_ s = false -> 0 < jitter_delay_ s ->
    tick_case g s tb (Some (g, s <| jitter_delay_ := jitter_delay_ s - 1 |>, clear_bus tb))
| tick_dispatch : reset tb = false -> bus_cooldown_ s = false -> jitter_delay_ s <= 0 ->
    tick_case g s tb ('(s1, tb1) ← dispatch s (clear_bus tb);
                      let '(g', s2) := arm_cooldown g s1 tb1 in Some (g', s2, tb1)).

Lemma tick_cases g s tb : tick_case g s tb (tick g s tb).
Proof.
  unfold tick. cbv zeta. change (reset (clear_bus tb)) with (reset tb).
  destruct (reset tb) eqn:Er; [by apply tick_reset|].
  destruct (bus_cooldown_ s) eqn:Ec; [by apply tick_cooldown|].
  destruct (0 <? jitter_delay_ s) eqn:Ej; [apply tick_jitter; done || lia|].
  apply tick_dispatch; done || lia.
Qed.

Lemma clear_bus_ok tb : bus_ok tb -> bus_ok (clear_bus tb).
Proof. done. Qed.

Lemma tick_ok g s tb :
  ide_ok s -> bus_ok tb ->
  exists g' s' tb', tick g s tb = Some (g', s', tb') /\ ide_ok s' /\ bus_ok tb' /\
    length (image_ s') = length (image_ s).
Proof.
  intros Hs Htb. destruct (tick_cases g s tb) as [Hr|Hr Hc|Hr Hc Hj|Hr Hc Hj].
  - eexists _, _, _. split_and?; [done|by apply on_reset_ok|done|done].
  - eexists _, _, _. split_and?; [done|by apply (stalled_ok s 0); try lia|done|done].
  - pose proof (ok_jitter _ Hs). eexists _, _, _.
    split_and?; [done|apply stalled_ok; done || lia|done|done].
  - destruct (dispatch_ok s (clear_bus tb) Hs (clear_bus_ok _ Htb)) as (s1 & tb1 & E & Hs1 & Hl).
    pose proof (dispatch_frame _ _ _ _ E) as Hf. rewrite E. cbn [mbind option_bind].
    pose proof (arm_cooldown_ok g s1 tb1 Hs1) as Ha. pose proof (image_arm_cooldown g s1 tb1) as Hi.
    destruct (arm_cooldown g s1 tb1) as [g' s2]. cbn in *. eexists _, _, _.
    split_and?; [done|done|by apply (bus_frame_ok (clear_bus tb))|by rewrite Hi].
Qed.

Section ReachableOk.
Context (fs_read : list Z -> option (list Z)) (fs_absolute : list Z -> list Z).
Context (Hread : forall p c, fs_read p = Some c -> bytes c).
Context (Habs : forall p, bytes p -> bytes (fs_absolute p)).

Lemma basename_bytes p : bytes p -> bytes (image_basename p).
Proof. intros. unfold image_basename. destruct (find_last_slash p); auto with z486_bytes. Qed.

(** A device whose window is closed takes any byte image. *)
Lemma attach_ok s img name path d c :
  ide_ok s -> sector_words_ s = None -> bytes img -> bytes name -> bytes path -> drive_ok d ->
  ide_ok (s <| image_ := img |> <| cdrom_ := c |> <| drive_ := d |>
            <| image_name_ := name |> <| image_path_ := path |>).
Proof. intros Hs Hw. ide_pres. Qed.

Lemma with_total_ok d size : drive_ok d -> drive_ok (d <| d_present := true |> <| d_total_sectors := u32 size |>).
Proof. intros (?&?&?&?&?&?&?). unfold drive_ok; cbn. split_and?; try done || lia. apply u32_range. Qed.

Lemma open_ok id base path ok s :
  bytes path -> open fs_read fs_absolute (HpsIde_new id base) path = Some (ok, s) -> ide_ok s.
Proof.
  intros Hp. pose proof (new_ok id base) as Hn. unfold open.
  destruct (fs_read path) as [content|] eqn:E; [|by intros [= _ <-]].
  cbv zeta. set (s1 := _ <| image_path_ := _ |>).
  assert (Hs1 : ide_ok s1).
  { apply attach_ok; try done; eauto using basename_bytes. apply with_total_ok, Hn. }
  destruct (set_geometry_Some s1 63 16) as (s' & -> & Hd & _ & _ & _ & Heq);
    [apply Hs1|lia|]. cbn [mbind option_bind]. intros [= _ <-]. rewrite Heq.
  by apply with_drive_ok.
Qed.

Lemma open_cdrom_ok id base path ok s :
  bytes path -> open_cdrom fs_read fs_absolute (HpsIde_new id base) path = (ok, s) -> ide_ok s.
Proof.
  intros Hp. pose proof (new_ok id base) as Hn. unfold open_cdrom.
  destruct (fs_read path) as [content|] eqn:E; [|by intros [= _ <-]].
  cbv zeta. case_bool; [by intros [= _ <-]|]. set (s1 := _ <| image_path_ := _ |>).
  assert (Hs1 : ide_ok s1).
  { apply attach_ok; try done; eauto using basename_bytes. apply with_total_ok, Hn. }
  intros [= _ <-]. apply (with_drive_ok s1); [done|]. apply update_identify_ok, Hs1.
Qed.

Lemma reachable_ok s : reachable fs_read fs_absolute s -> ide_ok s.
Proof.
  induction 1 as [id base|id base path ok s Hp H|id base path ok s Hp H|g s tb g' s' tb' _ IH Htb H].
  - apply new_ok.
  - by eapply open_ok.
  - by eapply open_cdrom_ok.
  - destruct (tick_ok g s tb IH Htb) as (? & ? & ? & E & ? & _). by simplify_eq.
Qed.
End ReachableOk.

(** ** Progress *)

(** Close a transition of [handlers_left] once both states are explicit. *)
Ltac left_step := unfold handlers_left; cbn; rewrite ?Z.land_0_l; try lia.

Lemma handlers_left_nonneg s tb : ide_ok s -> 0 <= handlers_left s tb <= 65553.
Proof.
  intros Hs. pose proof (ok_cnt _ Hs) as Hc. destruct (ok_regs _ Hs) as (_&_&_&_&_&_&_&_&_&Hp&_).
  unfold is_u16 in Hp. pose proof (land_range 16 (mgmt_address tb) 15).
  unfold handlers_left. destruct (state_ s); cbn in Hc; try lia.
  cbv zeta. change (Z.land (mgmt_address tb) 0xF) with (Z.land (mgmt_address tb) 15).
  case_bool; lia.
Qed.

Lemma handlers_left_waiting s tb : waiting (state_ s) = true -> handlers_left s tb = 0.
Proof. unfold handlers_left. by destruct (state_ s). Qed.

Lemma handlers_left_active s tb : ide_ok s -> waiting (state_ s) = false -> 0 < handlers_left s tb.
Proof.
  intros Hs. pose proof (ok_cnt _ Hs) as Hc. destruct (ok_regs _ Hs) as (_&_&_&_&_&_&_&_&_&Hp&_).
  unfold is_u16 in Hp. pose proof (land_range 16 (mgmt_address tb) 15).
  unfold handlers_left. destruct (state_ s); cbn in Hc |- *; try lia; try done.
  case_bool; lia.
Qed.

Lemma left_packet_done s tb key asc ascq extra : handlers_left (finish_packet s key asc ascq extra) tb = 9.
Proof. done. Qed.

Lemma left_send_packet s tb data : handlers_left (send_packet_data s data) tb < 65546.
Proof.
  unfold send_packet_data; cbv zeta. left_step.
  match goal with |- context [u16 ?x] => pose proof (u16_range x) as H end. unfold is_u16 in H. lia.
Qed.

Lemma left_cdrom_read s tb : handlers_left (prepare_cdrom_read s) tb < 65546.
Proof.
  unfold prepare_cdrom_read, finish_packet_ok. cbv zeta.
  repeat case_bool; rewrite ?left_packet_done; try lia. apply left_send_packet.
Qed.

Lemma left_handle_packet s tb : handlers_left (handle_packet s) tb < 65546.
Proof.
  unfold handle_packet, finish_packet_ok; cbv zeta.
  repeat match goal with |- handlers_left (if ?b then _ else _) _ < _ => destruct b end;
    try destruct (toc_data s); rewrite ?left_packet_done; try lia;
    first [apply left_cdrom_read | exact (left_send_packet _ tb _)].
Qed.

Lemma left_handle_cmd s s' tb : handle_cmd s = Some s' -> handlers_left s' tb <= 268.
Proof.
  unfold handle_cmd, reject_cmd, handle_cdrom_cmd, handle_disk_cmd, reject_cmd; cbv zeta.
  intros H. handler_cases H; simplify_eq; rewrite ?left_packet_done; left_step.
Qed.

Lemma left_get_cmd s tb s' tb' :
  state_ s = GET_CMD -> on_GET_CMD s tb = Some (s', tb') ->
  handlers_left s' tb' < handlers_left s tb.
Proof.
  intros Hst. unfold on_GET_CMD; cbv zeta.
  assert (Hk : 0 <= Z.land (mgmt_address tb) 15 < 16) by (apply land_range; lia).
  assert (Hn : Z.land (mgmt_address tb) 15 < 5 ->
    Z.land (u16 (mgmt_address tb + 1)) 15 = Z.land (mgmt_address tb) 15 + 1).
  { rewrite !land_15. unfold u16. intros. divlia. }
  unfold handlers_left at 2. rewrite Hst. cbv zeta.
  repeat case_bool; intros [= <- <-]; unfold handlers_left; cbn; rewrite ?Hst; cbn;
    rewrite ?Hn by lia; repeat case_bool; lia.
Qed.

Lemma recv_word_image s tb s1 : recv_word s tb = Some s1 -> exists img, s1 = s <| image_ := img |>.
Proof.
  assert (Hsame : s = s <| image_ := image_ s |>) by (by destruct s).
  unfold recv_word. intros H. destruct (sector_words_ s); [|eauto; simplify_eq; eauto].
  handler_cases H; simplify_eq; eauto.
Qed.

Lemma left_write_recv s tb s' tb' :
  state_ s = WRITE_RECV -> cnt_ s <= 256 -> on_WRITE_RECV s tb = Some (s', tb') ->
  handlers_left s' tb' < handlers_left s tb.
Proof.
  intros Hst Hc. unfold on_WRITE_RECV.
  destruct (recv_word s tb) as [s1|] eqn:E; [|done]. cbn [mbind option_bind].
  apply recv_word_image in E as [img ->]. intros H. cbn in H. unfold handlers_left at 2. rewrite Hst.
  handler_cases H; simplify_eq; unfold handlers_left; cbn; rewrite ?Hst; lia.
Qed.

Lemma dispatch_progress s tb s' tb' :
  ide_ok s -> waiting (state_ s) = false -> dispatch s tb = Some (s', tb') ->
  handlers_left s' tb' < handlers_left s tb.
Proof.
  intros Hs Hw. pose proof (ok_cnt _ Hs) as Hc. pose proof (ok_next _ Hs) as Hn.
  unfold dispatch. destruct (state_ s) eqn:Hst; cbn in Hw, Hc; try done.
  all: unfold on_INITIAL, on_GET_RESET_DRIVE, on_RESET_SET, on_DO_CMD, on_SEND_ID, on_SET_REGS,
    on_SET_REGS_SEND, on_READ, on_READ_REGS, on_READ_SEND, on_WRITE, on_WRITE_REGS, on_PACKET_RECV,
    on_PACKET_HANDLE, on_PACKET_SEND; cbv zeta; intros H.
  all: try (apply left_get_cmd; assumption).
  all: try (apply left_write_recv; done || lia).
  all: unfold handlers_left at 2; rewrite Hst.
  all: try (destruct (handle_cmd s) as [s1|] eqn:E; [|done]; cbn in H; simplify_eq;
            pose proof (left_handle_cmd s s' tb' E); lia).
  all: try (simplify_eq; apply left_handle_packet).
  all: handler_cases H; simplify_eq; unfold handlers_left; cbn; rewrite ?Hst; try lia.
  destruct (next_state_ s); done || lia.
Qed.

Lemma arm_cooldown_left g s tb tb' :
  handlers_left (arm_cooldown g s tb).2 tb' = handlers_left s tb' /\
  state_ (arm_cooldown g s tb).2 = state_ s.
Proof.
  unfold arm_cooldown. case_bool; [|done]. case_bool; [|done].
  by destruct (jitter_next g).
Qed.

Lemma arm_cooldown_stall g s tb :
  bus_cooldown_ s = false -> jitter_delay_ s = 0 ->
  b2z (bus_cooldown_ (arm_cooldown g s tb).2) + jitter_delay_ (arm_cooldown g s tb).2 <= 64.
Proof.
  intros Hc Hj. pose proof (jitter_next_range g) as Hr. unfold arm_cooldown.
  destruct (mgmt_read tb || mgmt_write tb); [|cbn; rewrite Hc, Hj; cbn; lia].
  destruct (g_jitter_en g); [destruct (jitter_next g)|]; cbn in *; lia.
Qed.

(** What no handler touches: the device's identity and its stall registers. *)
Definition same_device (s s' : HpsIde) : Prop :=
  id_ s' = id_ s /\ base_ s' = base_ s /\ cdrom_ s' = cdrom_ s /\ debug_ s' = debug_ s /\
  image_name_ s' = image_name_ s /\ image_path_ s' = image_path_ s /\
  d_present (drive_ s') = d_present (drive_ s) /\
  d_total_sectors (drive_ s') = d_total_sectors (drive_ s) /\
  bus_cooldown_ s' = bus_cooldown_ s /\ jitter_delay_ s' = jitter_delay_ s.

Lemma same_device_refl s : same_device s s.
Proof. done. Qed.

Lemma same_cdrom_read s : same_device s (prepare_cdrom_read s).
Proof. unfold prepare_cdrom_read. by repeat case_bool. Qed.

Lemma same_handle_packet s : same_device s (handle_packet s).
Proof.
  unfold handle_packet; cbv zeta.
  repeat match goal with |- same_device _ (if ?b then _ else _) => destruct b end;
    lazymatch goal with
    | |- same_device _ (prepare_cdrom_read ?x) => exact (same_cdrom_read x)
    | _ => try destruct (toc_data s); done
    end.
Qed.

Lemma same_set_geometry s a b s' : set_geometry s a b = Some s' -> same_device s s'.
Proof.
  unfold set_geometry; cbv zeta. intros H. handler_cases H; by simplify_eq.
Qed.

Lemma same_handle_cmd s s' : handle_cmd s = Some s' -> same_device s s'.
Proof.
  unfold handle_cmd, reject_cmd, handle_cdrom_cmd, handle_disk_cmd, reject_cmd; cbv zeta.
  intros H. handler_cases H; simplify_eq; try (by repeat split).
  match goal with E : set_geometry _ _ _ = _ |- _ => exact (same_set_geometry _ _ _ _ E) end.
Qed.

Lemma dispatch_same s tb s' tb' : dispatch s tb = Some (s', tb') -> same_device s s'.
Proof.
  unfold dispatch. intros H. destruct (state_ s);
    unfold on_INITIAL, on_IDLE, on_GET_RESET_DRIVE, on_RESET_SET, on_GET_CMD, on_DO_CMD,
      on_SEND_ID, on_SET_REGS, on_SET_REGS_SEND, on_READ, on_READ_REGS, on_READ_SEND,
      on_READ_WAIT_REQ, on_WRITE, on_WRITE_REGS, on_WRITE_WAIT_REQ, on_WRITE_RECV,
      on_PACKET_WAIT_REQ, on_PACKET_RECV, on_PACKET_HANDLE, on_PACKET_SEND,
      on_PACKET_READ_WAIT_REQ, wait_req in H;
    cbv zeta in H; handler_cases H; simplify_eq;
    repeat match goal with
    | E : handle_cmd _ = Some _ |- _ => apply same_handle_cmd in E
    | E : recv_word _ _ = Some _ |- _ => apply recv_word_image in E as [? ->]
    end;
    first [done | apply same_handle_packet | apply same_cdrom_read
          | by destruct (sector_window _ _) | idtac].
Qed.

Lemma tick_progress g s tb g' s' tb' :
  ide_ok s -> bus_ok tb -> reset tb = false -> waiting (state_ s) = false ->
  tick g s tb = Some (g', s', tb') -> ticks_left s' tb' < ticks_left s tb.
Proof.
  intros Hs Htb Hr Hw. pose proof (ok_jitter _ Hs) as Hj0. unfold ticks_left.
  destruct (tick_cases g s tb) as [Hr'|_ Hc|_ Hc Hj|_ Hc Hj]; [congruence| | |].
  - intros [= <- <- <-]. cbn [b2z]. rewrite Hc.
    change (handlers_left (s <| bus_cooldown_ := false |>) (clear_bus tb)) with (handlers_left s tb).
    cbn. lia.
  - intros [= <- <- <-].
    change (handlers_left (s <| jitter_delay_ := jitter_delay_ s - 1 |>) (clear_bus tb))
      with (handlers_left s tb). cbn. lia.
  - destruct (dispatch s (clear_bus tb)) as [[s1 tb1]|] eqn:E; [|done]. cbn [mbind option_bind].
    pose proof (dispatch_progress s (clear_bus tb) s1 tb1 Hs Hw E) as Hp.
    change (handlers_left s (clear_bus tb)) with (handlers_left s tb) in Hp.
    destruct (dispatch_same _ _ _ _ E) as (_&_&_&_&_&_&_&_&Hc1&Hj1).
    pose proof (arm_cooldown_left g s1 tb1) as Ha. pose proof (arm_cooldown_stall g s1 tb1) as Hst.
    destruct (arm_cooldown g s1 tb1) as [g2 s2]. cbn [fst snd] in *. intros [= <- <- <-].
    destruct (Ha tb1) as [-> _]. rewrite Hc1, Hj1 in Hst. specialize (Hst Hc). rewrite Hc.
    assert (jitter_delay_ s = 0) as Hz by lia. specialize (Hst Hz). cbn in *. lia.
Qed.

Lemma ticks_left_bound s tb : ide_ok s -> 0 <= ticks_left s tb <= settle_bound.
Proof.
  intros Hs. pose proof (handlers_left_nonneg s tb Hs). pose proof (ok_jitter _ Hs).
  unfold ticks_left, settle_bound. destruct (bus_cooldown_ s); cbn [b2z]; lia.
Qed.

Lemma sample_ok i tb : inputs_ok i -> bus_ok tb -> bus_ok (sample i tb).
Proof. intros (?&?&?&?) (?&?&_). unfold bus_ok; cbn. done. Qed.

Lemma run_settles n : forall ins g s tb,
  ide_ok s -> bus_ok tb -> Forall inputs_ok ins -> (n <= length ins)%nat ->
  ticks_left s tb <= Z.of_nat n ->
  exists k g' s' tb', (k <= n)%nat /\ run (take k ins) g s tb = Some (g', s', tb') /\
    ide_ok s' /\ waiting (state_ s') = true.
Proof.
  induction n as [|n IH]; intros ins g s tb Hs Htb Hins Hlen Hleft;
    (destruct (waiting (state_ s)) eqn:Hw; [exists 0%nat, g, s, tb; split_and?; done || lia|]).
  - pose proof (handlers_left_active s tb Hs Hw). pose proof (ok_jitter _ Hs).
    unfold ticks_left in Hleft. destruct (bus_cooldown_ s); cbn in Hleft; lia.
  - destruct ins as [|i ins]; [cbn in Hlen; lia|]. apply Forall_cons in Hins as [Hi Hins].
    pose proof (sample_ok i tb Hi Htb) as Hb.
    destruct (tick_ok g s (sample i tb) Hs Hb) as (g1 & s1 & tb1 & E & Hs1 & Hb1 & _).
    pose proof (tick_progress _ _ _ _ _ _ Hs Hb eq_refl Hw E) as Hp.
    change (ticks_left s (sample i tb)) with (ticks_left s tb) in Hp.
    destruct (IH ins g1 s1 tb1 Hs1 Hb1 Hins) as (k & g' & s' & tb' & Hk & Hrun & Hok);
      [cbn in Hlen; lia|lia|].
    exists (S k), g', s', tb'. split_and?; [lia| |apply Hok|apply Hok].
    cbn [take run]. rewrite E. cbn [mbind option_bind]. exact Hrun.
Qed.

Lemma op_single g s tb g' s' tb' :
  bus_ok tb -> tick g s tb = Some (g', s', tb') -> mgmt_read tb' && mgmt_write tb' = false.
Proof.
  intros Htb. destruct (tick_cases g s tb) as [Hr'|_ Hc|_ Hc Hj|_ Hc Hj];
    [by intros [= <- <- <-]..|].
  destruct (dispatch s (clear_bus tb)) as [[s1 tb1]|] eqn:E; [|done]. cbn [mbind option_bind].
  pose proof (dispatch_frame _ _ _ _ E) as (_ & _ & _ & _ & _ & Hop).
  destruct (arm_cooldown g s1 tb1) as [g2 s2]. intros [= <- <- <-].
  destruct Hop as [->|[[a ->]|[a [d ->]]]]; done.
Qed.

Lemma arm_cooldown_frame g s tb :
  exists c j, (arm_cooldown g s tb).2 = s <| bus_cooldown_ := c |> <| jitter_delay_ := j |>.
Proof.
  unfold arm_cooldown.
  destruct (mgmt_read tb || mgmt_write tb);
    [destruct (g_jitter_en g); [destruct (jitter_next g) as [d g']|]|].
  - by exists true, d.
  - exists true, (jitter_delay_ s). by destruct s.
  - exists (bus_cooldown_ s), (jitter_delay_ s). by destruct s.
Qed.

(** The presence report that INITIAL writes. *)
Definition announce (s : HpsIde) (tb : Bus) : Bus :=
  pulse_write tb (base_ s + 6) (if d_present (drive_ s) then 0x0009 else 0x0008).

Lemma dispatch_INITIAL s tb :
  state_ s = INITIAL -> dispatch s tb = Some (s <| state_ := IDLE |>, announce s tb).
Proof. intros Hst. unfold dispatch. by rewrite Hst. Qed.

Lemma tick_in_reset g s tb : reset tb = true -> tick g s tb = Some (g, on_reset s, clear_bus tb).
Proof. intros Hr. destruct (tick_cases g s tb); congruence. Qed.

Lemma tick_free g s tb :
  reset tb = false -> bus_cooldown_ s = false -> jitter_delay_ s = 0 ->
  tick g s tb = ('(s1, tb1) ← dispatch s (clear_bus tb);
                 let '(g', s2) := arm_cooldown g s1 tb1 in Some (g', s2, tb1)).
Proof. intros Hr Hc Hj. destruct (tick_cases g s tb); congruence || lia. Qed.

(** An operation is always followed by a cooldown. *)
Lemma op_arms g s tb g' s' tb' :
  tick g s tb = Some (g', s', tb') -> mgmt_read tb' || mgmt_write tb' = true -> bus_cooldown_ s' = true.
Proof.
  destruct (tick_cases g s tb) as [Hr'|_ Hc|_ Hc Hj|_ Hc Hj]; [by intros [= <- <- <-]..|].
  destruct (dispatch s (clear_bus tb)) as [[s1 tb1]|] eqn:E; [|done]. cbn [mbind option_bind].
  unfold arm_cooldown. intros H Hop.
  destruct (mgmt_read tb1 || mgmt_write tb1) eqn:Eop.
  - destruct (g_jitter_en g); [destruct (jitter_next g)|]; by simplify_eq.
  - simplify_eq. by rewrite Eop in Hop.
Qed.

(** ** Properties *)

Section Properties.
Context (fs_read : list Z -> option (list Z)) (fs_absolute : list Z -> list Z).
Context (Hread : forall p c, fs_read p = Some c -> bytes c).
Context (Habs : forall p, bytes p -> bytes (fs_absolute p)).

(** C4: no undefined behaviour.  In every state a device can reach, whatever
    the core drives on the bus, [tick] is defined - no access outside the
    image, the packet, a response or the IDENTIFY words, no division by zero,
    no overflow - its result is well formed, the outputs fit their ports and
    the image keeps its size. *)
Theorem tick_safe s g tb :
  reachable fs_read fs_absolute s -> bus_ok tb ->
  exists g' s' tb', tick g s tb = Some (g', s', tb') /\ ide_ok s' /\ bus_ok tb' /\
    length (image_ s') = length (image_ s).
Proof. intros Hs Htb. by apply tick_ok; [eapply reachable_ok|]. Qed.

(** C28: bus discipline.  A tick never reads and writes at once, leaves the
    core's signals alone, and an operation is always followed by an idle
    tick, so read data is sampled two ticks after its address: that idle tick
    changes nothing but the cooldown flag. *)
Theorem bus_discipline s g tb g' s' tb' :
  reachable fs_read fs_absolute s -> bus_ok tb -> tick g s tb = Some (g', s', tb') ->
  mgmt_read tb' && mgmt_write tb' = false /\
  (reset tb' = reset tb /\ mgmt_readdata tb' = mgmt_readdata tb /\
   ide0_request tb' = ide0_request tb /\ ide1_request tb' = ide1_request tb) /\
  (mgmt_read tb' || mgmt_write tb' = true ->
   forall g2 tb2, reset tb2 = false ->
     tick g2 s' tb2 = Some (g2, s' <| bus_cooldown_ := false |>, clear_bus tb2)).
Proof.
  intros Hs Htb E. split; [by eapply op_single|]. split.
  - revert E. destruct (tick_cases g s tb) as [Hr'|_ Hc|_ Hc Hj|_ Hc Hj];
      [by intros [= <- <- <-]..|].
    destruct (dispatch s (clear_bus tb)) as [[s1 tb1]|] eqn:E; [|done]. cbn [mbind option_bind].
    apply dispatch_frame in E as (? & ? & ? & ? & _). destruct (arm_cooldown g s1 tb1).
    by intros [= <- <- <-].
  - intros Hop g2 tb2 Hr. apply (op_arms _ _ _ _ _ _ E) in Hop. unfold tick. cbv zeta.
    change (reset (clear_bus tb2)) with (reset tb2). by rewrite Hr, Hop.
Qed.

(** C27: the device never hangs.  From every reachable state, whatever values
    the core presents, as long as it is not held in reset, the device is back
    in a state that waits for a request within [settle_bound] ticks, with or
    without latency jitter. *)
Theorem returns_to_wait s g tb ins :
  reachable fs_read fs_absolute s -> bus_ok tb -> Forall inputs_ok ins ->
  settle_bound <= Z.of_nat (length ins) ->
  exists k g' s' tb', Z.of_nat k <= settle_bound /\
    run (take k ins) g s tb = Some (g', s', tb') /\ waiting (state_ s') = true.
Proof.
  intros Hs Htb Hins Hlen. apply reachable_ok in Hs; [|done..].
  pose proof (ticks_left_bound s tb Hs) as Hb.
  destruct (run_settles (Z.to_nat settle_bound) ins g s tb Hs Htb Hins)
    as (k & g' & s' & tb' & Hk & Hrun & _ & Hw); [unfold settle_bound in *; lia..|].
  exists k, g', s', tb'. split_and?; [lia|done|done].
Qed.

(** Reset recovers the device from any state.  A tick with reset asserted
    keeps the medium, and the next free tick writes the drive-presence word
    to management register 6 and leaves the device idle. *)
Lemma reset_restarts s g tb g2 tb2 :
  reset tb = true -> reset tb2 = false ->
  exists s1 g3 s2 tb3,
    tick g s tb = Some (g, s1, clear_bus tb) /\
    tick g2 s1 tb2 = Some (g3, s2, tb3) /\
    state_ s2 = IDLE /\ image_ s2 = image_ s /\ drive_ s2 = drive_ s /\
    mgmt_write tb3 = true /\ mgmt_read tb3 = false /\
    mgmt_address tb3 = u16 (base_ s + 6) /\
    mgmt_writedata tb3 = (if d_present (drive_ s) then 9 else 8).
Proof.
  intros Hr Hr2. set (s1 := on_reset s). set (tb1 := announce s (clear_bus tb2)).
  pose proof (arm_cooldown_frame g2 (s1 <| state_ := IDLE |>) tb1) as Ha.
  destruct (arm_cooldown g2 (s1 <| state_ := IDLE |>) tb1) as [g3 s2] eqn:E.
  cbn [snd] in Ha. destruct Ha as (c & j & ->).
  eexists s1, g3, _, tb1. split; [by apply tick_in_reset|]. split.
  { rewrite tick_free, (dispatch_INITIAL s1) by done. cbn [mbind option_bind].
    change (announce s1 (clear_bus tb2)) with tb1. by rewrite E. }
  split_and?; try reflexivity. unfold tb1, announce; cbn. by destruct (d_present (drive_ s)).
Qed.
End Properties.

(** ** The hypotheses can hold: an empty file system and an idle bus *)

Definition no_files (path : list Z) : option (list Z) := None.
Definition same_path (path : list Z) : list Z := path.
Definition idle_bus : Bus := mkBus false 0 false false 0 0 0 0 0.
Definition idle_inputs : Inputs := mkInputs 0 0 0 0.
Definition no_jitter : Jitter := mkJitter false 1.

Lemma idle_bus_ok : bus_ok idle_bus.
Proof. unfold bus_ok, is_u16; cbn. lia. Qed.

Lemma tick_safe_witness :
  exists g' s' tb', tick no_jitter (HpsIde_new 0 0xF000) idle_bus = Some (g', s', tb') /\
    ide_ok s' /\ bus_ok tb' /\ length (image_ s') = 0%nat.
Proof.
  apply (tick_safe no_files same_path); [done|done|apply reach_new|].
  exact idle_bus_ok.
Defined.

Lemma bus_discipline_witness :
  exists g' s' tb', tick no_jitter (HpsIde_new 0 0xF000) idle_bus = Some (g', s', tb') /\
    mgmt_write tb' = true /\
    forall g2 tb2, reset tb2 = false ->
      tick g2 s' tb2 = Some (g2, s' <| bus_cooldown_ := false |>, clear_bus tb2).
Proof.
  eexists _, _, _. split; [reflexivity|]. split; [reflexivity|].
  eapply (bus_discipline no_files same_path (HpsIde_new 0 0xF000) no_jitter idle_bus);
    [apply reach_new|exact idle_bus_ok|reflexivity|reflexivity].
Defined.

Lemma returns_to_wait_witness :
  exists k g' s' tb', Z.of_nat k <= settle_bound /\
    run (take k (replicate (Z.to_nat settle_bound) idle_inputs)) no_jitter
      (HpsIde_new 0 0xF000) idle_bus = Some (g', s', tb') /\ waiting (state_ s') = true.
Proof.
  apply (returns_to_wait no_files same_path); [done|done|apply reach_new|exact idle_bus_ok| |].
  - apply Forall_replicate. unfold inputs_ok, is_u16; cbn. lia.
  - rewrite length_replicate, Z2Nat.id by done. done.
Defined.

Lemma reset_restarts_witness :
  exists s1 g3 s2 tb3,
    tick no_jitter (HpsIde_new 0 0xF000) (idle_bus <| reset := true |>) =
      Some (no_jitter, s1, clear_bus (idle_bus <| reset := true |>)) /\
    tick no_jitter s1 idle_bus = Some (g3, s2, tb3) /\
    state_ s2 = IDLE /\ image_ s2 = [] /\ drive_ s2 = drive_init /\
    mgmt_write tb3 = true /\ mgmt_read tb3 = false /\
    mgmt_address tb3 = 0xF006 /\ mgmt_writedata tb3 = 8.
Proof.
  exact (reset_restarts (HpsIde_new 0 0xF000) no_jitter
    (idle_bus <| reset := true |>) no_jitter idle_bus eq_refl eq_refl).
Defined.
