(* ===== verification/IdeProtocol.v ===== *)
(** * The management protocol seen from the core

    A core answering the device is an [Env]: what it presents on every tick,
    as a function of the time and of the operations issued so far.  [run_env]
    clocks a device against it and records its operations.  [reaches] abstracts
    from cooldown and jitter: between two handlers the device may stall, the
    operations and the states at the handlers are the same. *)
From S2P Require Import Prelude IdeTypes IdeGeometry IdePacket IdeCommand IdeTick IdeInvariant IdeSafety.

Inductive Op :=
| Rd (addr : Z)
| Wr (addr data : Z).

Definition op_addr (o : Op) : Z := match o with Rd a => a | Wr a _ => a end.

Definition op_ok (o : Op) : Prop :=
  match o with Rd a => is_u16 a | Wr a d => is_u16 a /\ is_u16 d end.

(** The operation on the bus after a tick. *)
Definition ops_of (tb : Bus) : list Op :=
  if mgmt_read tb then [Rd (mgmt_address tb)]
  else if mgmt_write tb then [Wr (mgmt_address tb) (mgmt_writedata tb)]
  else [].

Definition issue (o : option Op) (tb : Bus) : Bus :=
  match o with
  | Some (Rd a) => pulse_read tb a
  | Some (Wr a d) => pulse_write tb a d
  | None => tb
  end.

Definition Env := nat -> list Op -> Inputs.

Definition env_ok (env : Env) : Prop := forall t h, inputs_ok (env t h).

Fixpoint run_env (k t : nat) (env : Env) (h : list Op) (g : Jitter) (s : HpsIde) (tb : Bus)
  : option (list Op * Jitter * HpsIde * Bus) :=
  match k with
  | O => Some (h, g, s, tb)
  | S k =>
    '(g, s, tb) ← tick g s (sample (env t h) tb);
    run_env k (S t) env (h ++ ops_of tb) g s tb
  end.

(** The stall registers set to given values; [ready] is not stalled. *)
Definition stall (c : bool) (j : Z) (s : HpsIde) : HpsIde :=
  s <| bus_cooldown_ := c |> <| jitter_delay_ := j |>.

Definition ready (s : HpsIde) : Prop := bus_cooldown_ s = false /\ jitter_delay_ s = 0.

(** The address port keeps the address of the last operation. *)
Definition addr_after (h : list Op) (tb : Bus) : Prop :=
  match last h with Some o => mgmt_address tb = op_addr o | None => True end.

(** Within [n] ticks, whatever the time, the jitter and the stall, the device
    goes from [s] to [s'], its operations extending [h] to [h']. *)
Definition reaches (env : Env) (h : list Op) (s : HpsIde) (h' : list Op) (s' : HpsIde) (n : Z) : Prop :=
  forall t g tb c j, 0 <= j < 64 -> bus_ok tb -> addr_after h tb ->
  exists k g' tb' c' j', Z.of_nat k <= n /\ 0 <= j' < 64 /\ bus_ok tb' /\ addr_after h' tb' /\
    run_env k t env h g (stall c j s) tb = Some (h', g', stall c' j' s', tb').

(** What the bus looks like to a handler: operations cleared, inputs sampled. *)
Definition at_handler (env : Env) (h : list Op) (tb : Bus) : Prop :=
  bus_ok tb /\ addr_after h tb /\ reset tb = false /\ mgmt_read tb = false /\ mgmt_write tb = false /\
  exists t, mgmt_readdata tb = in_readdata (env t h) /\ ide0_request tb = in_ide0_request (env t h) /\
    ide1_request tb = in_ide1_request (env t h).

(** ** Composition *)

Lemma run_env_app k1 : forall k2 t env h g s tb,
  run_env (k1 + k2) t env h g s tb =
    ('(h, g, s, tb) ← run_env k1 t env h g s tb; run_env k2 (k1 + t) env h g s tb).
Proof.
  induction k1 as [|k1 IH]; intros; [done|]. cbn [run_env Nat.add].
  destruct (tick g s (sample (env t h) tb)) as [[[g1 s1] tb1]|]; [|done].
  cbn [mbind option_bind]. rewrite IH. by rewrite Nat.add_succ_r.
Qed.

Lemma run_env_1 t env h g s tb :
  run_env 1 t env h g s tb =
    ('(g, s, tb) ← tick g s (sample (env t h) tb); Some (h ++ ops_of tb, g, s, tb)).
Proof. done. Qed.

Lemma reaches_refl env h s : reaches env h s h s 0.
Proof. intros t g tb c j Hj Htb Ha. exists 0%nat, g, tb, c, j. split_and?; done || lia. Qed.

Lemma reaches_trans env h1 s1 h2 s2 h3 s3 n m :
  reaches env h1 s1 h2 s2 n -> reaches env h2 s2 h3 s3 m -> reaches env h1 s1 h3 s3 (n + m).
Proof.
  intros H12 H23 t g tb c j Hj Htb Ha.
  destruct (H12 t g tb c j Hj Htb Ha) as (k1 & g1 & tb1 & c1 & j1 & Hk1 & Hj1 & Hb1 & Ha1 & E1).
  destruct (H23 (k1 + t)%nat g1 tb1 c1 j1 Hj1 Hb1 Ha1)
    as (k2 & g2 & tb2 & c2 & j2 & Hk2 & Hj2 & Hb2 & Ha2 & E2).
  exists (k1 + k2)%nat, g2, tb2, c2, j2. split_and?; try done; try lia.
  rewrite run_env_app, E1. cbn [mbind option_bind]. exact E2.
Qed.

Lemma reaches_le env h s h' s' n m : reaches env h s h' s' n -> n <= m -> reaches env h s h' s' m.
Proof.
  intros H Hle t g tb c j Hj Htb Ha. destruct (H t g tb c j Hj Htb Ha) as (k & g' & tb' & c' & j' & ? & ?).
  exists k, g', tb', c', j'. split; [lia|done].
Qed.

(** A loop: [n] rounds of at most [m] ticks each. *)
Lemma reaches_loop env (H : nat -> list Op) (P : nat -> HpsIde) m n :
  (forall i, (i < n)%nat -> reaches env (H i) (P i) (H (S i)) (P (S i)) m) ->
  reaches env (H 0%nat) (P 0%nat) (H n) (P n) (Z.of_nat n * m).
Proof.
  induction n as [|n IH]; intros Hstep; [apply reaches_refl|].
  replace (Z.of_nat (S n) * m) with (Z.of_nat n * m + m) by lia.
  eapply reaches_trans; [apply IH; intros; apply Hstep; lia|apply Hstep; lia].
Qed.

Lemma stall_ready s : ready s -> stall false 0 s = s.
Proof. intros [Hc Hj]. unfold stall. destruct s; cbn in *. by subst. Qed.

Lemma stall_stall c j c' j' s : stall c j (stall c' j' s) = stall c j s.
Proof. done. Qed.

(** One stalled tick: only the stall registers change. *)
Lemma stall_tick t env h g s tb c j :
  env_ok env -> 0 <= j < 64 -> bus_ok tb -> addr_after h tb -> (c = true \/ 0 < j) ->
  exists tb', tick g (stall c j s) (sample (env t h) tb) =
      Some (g, stall false (if c then j else j - 1) s, tb') /\
    bus_ok tb' /\ addr_after h tb' /\ ops_of tb' = [].
Proof.
  intros He Hj Htb Ha Hst. exists (clear_bus (sample (env t h) tb)).
  split; [|split_and?; [apply clear_bus_ok, sample_ok; [apply He|done]|done|done]].
  unfold tick; cbv zeta. cbn [reset clear_bus sample]. cbn -[dispatch arm_cooldown].
  destruct c; [done|]. destruct Hst; [done|]. by rewrite (proj2 (Z.ltb_lt _ _)).
Qed.

Lemma stall_skip j : forall env h t g s tb, 
  env_ok env -> (j < 64)%nat -> bus_ok tb -> addr_after h tb ->
  exists tb', bus_ok tb' /\ addr_after h tb' /\
    run_env j t env h g (stall false (Z.of_nat j) s) tb = Some (h, g, stall false 0 s, tb').
Proof.
  induction j as [|j IH]; intros env h t g s tb He Hj Htb Ha; [by exists tb|].
  destruct (stall_tick t env h g s tb false (Z.of_nat (S j))) as (tb1 & E & Hb & Ha1 & Hops);
    [done|lia|done|done|right; lia|].
  destruct (IH env h (S t) g s tb1 He) as (tb2 & Hb2 & Ha2 & E2); [lia|done|done|].
  exists tb2. split_and?; [done|done|]. cbn [run_env]. rewrite E. cbn [mbind option_bind].
  rewrite Hops, app_nil_r. replace (Z.of_nat (S j) - 1) with (Z.of_nat j) by lia. exact E2.
Qed.

Lemma stall_skip_all env h t g s tb c j :
  env_ok env -> 0 <= j < 64 -> bus_ok tb -> addr_after h tb ->
  exists k tb', (k <= 64)%nat /\ bus_ok tb' /\ addr_after h tb' /\
    run_env k t env h g (stall c j s) tb = Some (h, g, stall false 0 s, tb').
Proof.
  intros He Hj Htb Ha. destruct c.
  - destruct (stall_tick t env h g s tb true j) as (tb1 & E & Hb & Ha1 & Hops); [by try left..|].
    destruct (stall_skip (Z.to_nat j) env h (S t) g s tb1 He) as (tb2 & Hb2 & Ha2 & E2);
      [lia|done|done|].
    exists (S (Z.to_nat j)), tb2. split_and?; [lia|done|done|].
    cbn [run_env]. rewrite E. cbn [mbind option_bind]. rewrite Hops, app_nil_r.
    by rewrite Z2Nat.id in E2 by lia.
  - destruct (stall_skip (Z.to_nat j) env h t g s tb He) as (tb2 & Hb2 & Ha2 & E2);
      [lia|done|done|].
    exists (Z.to_nat j), tb2. rewrite Z2Nat.id in E2 by lia. split_and?; done || lia.
Qed.

Lemma ops_issue o tb :
  (forall op, o = Some op -> op_ok op) -> mgmt_read tb = false -> mgmt_write tb = false ->
  ops_of (issue o tb) = option_list o.
Proof.
  intros Hop Hr Hw. destruct o as [[a|a d]|]; unfold ops_of; cbn.
  - by rewrite u16_id by (by apply (Hop (Rd a))).
  - destruct (Hop _ eq_refl). by rewrite !u16_id by done.
  - by rewrite Hr, Hw.
Qed.

Lemma addr_after_snoc h o tb :
  (forall op, o = Some op -> op_ok op) -> addr_after h tb ->
  addr_after (h ++ option_list o) (issue o tb).
Proof.
  intros Hop Ha. destruct o as [o|]; cbn; [|by rewrite app_nil_r].
  unfold addr_after. rewrite last_snoc. specialize (Hop o eq_refl).
  destruct o as [a|a d]; cbn in *; apply u16_id; tauto.
Qed.

Lemma tick_ready g s tb :
  reset tb = false -> ready s ->
  tick g s tb = ('(s1, tb1) ← dispatch s (clear_bus tb);
                 let '(g', s2) := arm_cooldown g s1 tb1 in Some (g', s2, tb1)).
Proof.
  intros Hr [Hc Hj]. by apply tick_free.
Qed.

Lemma tick_handler g s tb s1 tb1 :
  reset tb = false -> ready s -> dispatch s (clear_bus tb) = Some (s1, tb1) ->
  exists g' c' j', 0 <= j' < 64 /\ tick g s tb = Some (g', stall c' j' s1, tb1).
Proof.
  intros Hr Hs Ed. rewrite tick_ready, Ed by done. cbn [mbind option_bind].
  pose proof (dispatch_same _ _ _ _ Ed) as (_&_&_&_&_&_&_&_&Hc1&Hj1).
  destruct Hs as [Hc Hj]. rewrite Hc in Hc1. rewrite Hj in Hj1.
  pose proof (jitter_next_range g) as Hjn. unfold arm_cooldown.
  destruct (mgmt_read tb1 || mgmt_write tb1).
  - destruct (g_jitter_en g); [destruct (jitter_next g) as [d g']|].
    + exists g', true, d. split; done.
    + exists g, true, 0. split; [lia|]. unfold stall. rewrite <- Hj1. by destruct s1.
  - exists g, false, 0. split; [lia|]. by rewrite (stall_ready s1).
Qed.

(** Each handler is a step of the protocol. *)
Lemma reaches_step env h s o s1 :
  env_ok env -> ready s -> (forall op, o = Some op -> op_ok op) ->
  (forall tb, at_handler env h tb -> dispatch s tb = Some (s1, issue o tb)) ->
  reaches env h s (h ++ option_list o) s1 65.
Proof.
  intros He Hr Hop Hd t g tb c j Hj Htb Ha.
  destruct (stall_skip_all env h t g s tb c j He Hj Htb Ha) as (k & tb1 & Hk & Hb1 & Ha1 & E1).
  set (tb2 := clear_bus (sample (env (k + t)%nat h) tb1)).
  assert (Hb2 : bus_ok tb2) by (apply clear_bus_ok, sample_ok; [apply He|done]).
  assert (Hat : at_handler env h tb2) by (split_and!; try done; by exists (k + t)%nat).
  pose proof (Hd tb2 Hat) as Ed. pose proof (dispatch_frame _ _ _ _ Ed) as Hf.
  destruct (tick_handler g s (sample (env (k + t)%nat h) tb1) s1 (issue o tb2))
    as (g' & c' & j' & Hj' & E2); [done|done|exact Ed|].
  exists (k + 1)%nat, g', (issue o tb2), c', j'. split_and?; try done; try lia.
  - by eapply bus_frame_ok.
  - apply addr_after_snoc; [done|]. apply Hat.
  - rewrite run_env_app, E1. cbn [mbind option_bind].
    rewrite (stall_ready s), run_env_1, E2 by done. cbn [mbind option_bind].
    by rewrite ops_issue by done.
Qed.

(** ** Protocol steps that keep the invariant

    [goes] is [reaches] between well-formed states: the form in which the
    command files compose handlers. *)
Definition goes (env : Env) (h : list Op) (s : HpsIde) (h' : list Op) (s' : HpsIde) (n : Z) : Prop :=
  Forall op_ok h -> ide_ok s -> ready s ->
  Forall op_ok h' /\ ide_ok s' /\ ready s' /\ reaches env h s h' s' n.

Lemma goes_refl env h s : goes env h s h s 0.
Proof. intros ???. split_and?; done || apply reaches_refl. Qed.

Lemma goes_trans env h1 s1 h2 s2 h3 s3 n m :
  goes env h1 s1 h2 s2 n -> goes env h2 s2 h3 s3 m -> goes env h1 s1 h3 s3 (n + m).
Proof.
  intros H12 H23 Hh Hs Hr. destruct (H12 Hh Hs Hr) as (Hh2 & Hs2 & Hr2 & R12).
  destruct (H23 Hh2 Hs2 Hr2) as (Hh3 & Hs3 & Hr3 & R23).
  split_and?; try done. by eapply reaches_trans.
Qed.

Lemma goes_le env h s h' s' n m : goes env h s h' s' n -> n <= m -> goes env h s h' s' m.
Proof.
  intros H Hle Hh Hs Hr. destruct (H Hh Hs Hr) as (? & ? & ? & ?).
  split_and?; try done. by eapply reaches_le.
Qed.

(** The same with the end points given up to equality. *)
Lemma goes_eq env h s h' s' h2 s2 n m :
  goes env h s h' s' n -> h' = h2 -> s' = s2 -> n <= m -> goes env h s h2 s2 m.
Proof. intros H <- <- Hle. by eapply goes_le. Qed.

Lemma goes_loop env (H : nat -> list Op) (P : nat -> HpsIde) m n :
  (forall i, (i < n)%nat -> goes env (H i) (P i) (H (S i)) (P (S i)) m) ->
  goes env (H 0%nat) (P 0%nat) (H n) (P n) (Z.of_nat n * m).
Proof.
  induction n as [|n IH]; intros Hstep; [apply goes_refl|].
  replace (Z.of_nat (S n) * m) with (Z.of_nat n * m + m) by lia.
  eapply goes_trans; [apply IH; intros; apply Hstep; lia|apply Hstep; lia].
Qed.

(** A bus on which a handler can find itself after the history [h]. *)
Lemma at_handler_exists env h : env_ok env -> Forall op_ok h -> exists tb, at_handler env h tb.
Proof.
  intros He Hh. destruct (He 0%nat h) as (Hd & H0 & H1 & Hf).
  set (a := match last h with Some o => op_addr o | None => 0 end).
  assert (Ha : is_u16 a).
  { unfold a. destruct (last h) as [o|] eqn:E; [|width].
    apply last_Some_elem_of in E. rewrite Forall_forall in Hh. specialize (Hh o E).
    destruct o; cbn in *; tauto. }
  exists (mkBus false a false false 0 (in_readdata (env 0%nat h)) (in_ide0_request (env 0%nat h))
        (in_ide1_request (env 0%nat h)) (in_fdd_request (env 0%nat h))).
  split_and!; try done; try lia.
  - unfold addr_after. subst a. by destruct (last h).
  - by exists 0%nat.
Qed.

(** The rule for one handler. *)
Lemma goes_step env h s o s1 :
  env_ok env -> (ide_ok s -> forall op, o = Some op -> op_ok op) ->
  (forall tb, ide_ok s -> at_handler env h tb -> dispatch s tb = Some (s1, issue o tb)) ->
  goes env h s (h ++ option_list o) s1 65.
Proof.
  intros He Hop Hd Hh Hs Hr. destruct (at_handler_exists env h He Hh) as [tb Htb].
  pose proof (Hd tb Hs Htb) as E. pose proof (dispatch_same _ _ _ _ E) as (_&_&_&_&_&_&_&_&Hc&Hj).
  destruct (dispatch_ok s tb Hs) as (s' & tb' & E' & Hs' & _); [apply Htb|]. simplify_eq.
  split_and?; [|done|destruct Hr; unfold ready; by rewrite Hc, Hj|].
  - apply Forall_app_2; [done|]. destruct o; cbn; [|constructor].
    constructor; [by apply Hop|constructor].
  - apply reaches_step; auto.
Qed.

(** A handler that issues nothing. *)
Lemma goes_silent env h s s1 :
  env_ok env ->
  (forall tb, ide_ok s -> at_handler env h tb -> dispatch s tb = Some (s1, tb)) ->
  goes env h s h s1 65.
Proof.
  intros He Hd. rewrite <- (app_nil_r h) at 2.
  apply (goes_step env h s None s1); done.
Qed.

Lemma goes_write env h s a w s1 :
  env_ok env -> (ide_ok s -> is_u16 w) ->
  (forall tb, ide_ok s -> at_handler env h tb -> dispatch s tb = Some (s1, pulse_write tb a w)) ->
  goes env h s (h ++ [Wr (u16 a) w]) s1 65.
Proof.
  intros He Hw Hd. apply (goes_step env h s (Some (Wr (u16 a) w)) s1); [done| |].
  - intros Hs op [= <-]. split; [width|by apply Hw].
  - intros tb Hs Htb. rewrite (Hd tb Hs Htb). cbn. unfold pulse_write.
    by rewrite (u16_id (u16 a)) by width.
Qed.

Lemma goes_read env h s a s1 :
  env_ok env ->
  (forall tb, ide_ok s -> at_handler env h tb -> dispatch s tb = Some (s1, pulse_read tb a)) ->
  goes env h s (h ++ [Rd (u16 a)]) s1 65.
Proof.
  intros He Hd. apply (goes_step env h s (Some (Rd (u16 a))) s1); [done| |].
  - intros _ op [= <-]. cbn. width.
  - intros tb Hs Htb. rewrite (Hd tb Hs Htb). cbn. unfold pulse_read.
    by rewrite (u16_id (u16 a)) by width.
Qed.

(** ** The register report *)

(** The registers SET_REGS reports: a disk that expects no data has DSC set. *)
Definition report_regs (s : HpsIde) : HpsIdeRegs :=
  if negb (cdrom_ s) && (Z.land (r_status (regs_ s)) ATA_STATUS_DRQ =? 0)
  then regs_ s <| r_status := Z.lor (r_status (regs_ s)) ATA_STATUS_DSC |> else regs_ s.

(** Word [i] of a byte buffer. *)
Definition buf_word (buf : list Z) (i : nat) : Z := default 0 (word_at buf (2 * Z.of_nat i)).

Definition report_ops (s : HpsIde) : list Op :=
  map (fun i => Wr (u16 (base_ s + Z.of_nat i)) (buf_word (regs_report (cdrom_ s) (report_regs s)) i))
    (seq 0 6).

Definition after_report (s : HpsIde) : HpsIde :=
  s <| regs_ := report_regs s |> <| buf_ := regs_report (cdrom_ s) (report_regs s) |>
    <| cnt_ := 0 |> <| state_ := next_state_ s |>.

Lemma buf_word_u16 buf i : bytes buf -> is_u16 (buf_word buf i).
Proof.
  intros Hb. unfold buf_word. destruct (word_at buf (2 * Z.of_nat i)) eqn:E; cbn; [|width].
  by eapply word_at_range.
Qed.

Lemma goes_report env h s :
  env_ok env -> state_ s = SET_REGS -> goes env h s (h ++ report_ops s) (after_report s) 520.
Proof.
  intros He Hst.
  set (buf := regs_report (cdrom_ s) (report_regs s)).
  set (P := fun i => s <| regs_ := report_regs s |> <| buf_ := buf |>
                       <| cnt_ := Z.of_nat i |> <| state_ := SET_REGS_SEND |>).
  set (H := fun i => h ++ map (fun i => Wr (u16 (base_ s + Z.of_nat i)) (buf_word buf i)) (seq 0 i)).
  assert (Hstart : goes env h s (H 0%nat) (P 0%nat) 65).
  { unfold H. cbn. rewrite app_nil_r. apply goes_silent; [done|]. intros tb Hs _.
    unfold dispatch. by rewrite Hst. }
  assert (Hloop : goes env (H 0%nat) (P 0%nat) (H 6%nat) (P 6%nat) (6 * 65)).
  { apply goes_loop. intros i Hi. unfold H. rewrite seq_S, map_app, app_assoc.
    change (0 + i)%nat with i.
    apply goes_write; [done|intros Hs; apply buf_word_u16, (ok_buf _ Hs)|].
    intros tb Hs _. change (dispatch (P i) tb) with (on_SET_REGS_SEND (P i) tb).
    assert (Hl : length buf = 12%nat) by exact (ok_buf_len _ Hs).
    destruct (word_at_Some buf (2 * Z.of_nat i)) as [w Hw]; [lia..|].
    unfold on_SET_REGS_SEND, buf_word. change (cnt_ (P i)) with (Z.of_nat i). change (buf_ (P i)) with buf.
    rewrite (proj2 (Z.ltb_lt _ _)), Hw by lia. cbn [mbind option_bind default].
    unfold P. rewrite Nat2Z.inj_succ. reflexivity. }
  assert (Hend : goes env (H 6%nat) (P 6%nat) (H 6%nat) (after_report s) 65).
  { by apply goes_silent. }
  eapply goes_eq; [eapply goes_trans; [apply Hstart|eapply goes_trans; [apply Hloop|apply Hend]]|done..|].
  lia.
Qed.
