(* ===== verification/IdeDisk.v ===== *)
(** * Disk commands as the core sees them

    The abstract disk is a sequence of 512-byte sectors, read and written as
    256 little-endian words: [sector_word], [write_sector].  READ SECTORS and
    WRITE SECTORS, clocked handler by handler against a core that answers with
    the task file, requests and data, implement it: the operations the device
    issues are those of the specification and the image after a write is the
    specification's. *)
From S2P Require Import Prelude IdeTypes IdeGeometry IdePacket IdeCommand IdeTick IdeInvariant.
From S2P Require Import IdeSafety IdeProtocol.

(** ** The abstract disk *)

(** Word [i] of the sector at [lba]; a sector outside the image reads as zero. *)
Definition sector_word (img : list Z) (lba : Z) (i : nat) : Z :=
  match sector_window img lba with
  | None => 0
  | Some off => default 0 (word_at img (off + 2 * Z.of_nat i))
  end.

Definition sector_words (img : list Z) (lba : Z) : list Z := map (sector_word img lba) (seq 0 256).

(** The image with words [ws] stored from the start of the sector at [lba];
    a sector outside the image is not written. *)
Definition write_sector (img : list Z) (lba : Z) (ws : list Z) : list Z :=
  match sector_window img lba with
  | None => img
  | Some off => splice (Z.to_nat off) (concat (map (le_bytes 2) ws)) img
  end.

(** The data phases: words through management register 255. *)
Definition send_ops (base : Z) (ws : list Z) : list Op := map (Wr (u16 (base + 255))) ws.
Definition recv_ops (base : Z) (n : nat) : list Op := replicate n (Rd (u16 (base + 255))).

(** The task file of a command, read from management registers 0 to 5. *)
Definition taskfile_ops (base : Z) : list Op := map (fun i => Rd (u16 (base + Z.of_nat i))) (seq 0 6).

(** ** Sending words: SEND_ID, READ_SEND and PACKET_SEND *)

Lemma sector_word_u16 img lba i : bytes img -> is_u16 (sector_word img lba i).
Proof.
  intros Hb. unfold sector_word. destruct (sector_window img lba); [|width].
  destruct (word_at img _) eqn:E; cbn; [|width]. by eapply word_at_range.
Qed.

Definition with_cnt (s : HpsIde) (i : nat) : HpsIde := s <| cnt_ := Z.of_nat i |>.

(** A state that sends [f i] while [cnt_] counts to [n] and then moves to [s']. *)
Lemma goes_send env h s s' (f : nat -> Z) n :
  env_ok env -> (ide_ok s -> forall i, is_u16 (f i)) -> cnt_ s = 0 ->
  (forall i tb, (i < n)%nat -> ide_ok (with_cnt s i) ->
     dispatch (with_cnt s i) tb = Some (with_cnt s (S i), pulse_write tb (base_ s + 255) (f i))) ->
  (forall tb, ide_ok (with_cnt s n) -> dispatch (with_cnt s n) tb = Some (s', tb)) ->
  goes env h s (h ++ send_ops (base_ s) (map f (seq 0 n))) s' (65 * (Z.of_nat n + 1)).
Proof.
  intros He Hf Hc Hstep Hend Hh Hs Hr. specialize (Hf Hs). revert Hh Hs Hr.
  set (H := fun i => h ++ send_ops (base_ s) (map f (seq 0 i))).
  assert (H0 : with_cnt s 0 = s) by (unfold with_cnt; change (Z.of_nat 0) with 0; rewrite <- Hc; by destruct s).
  assert (Hloop : goes env (H 0%nat) (with_cnt s 0) (H n) (with_cnt s n) (Z.of_nat n * 65)).
  { apply goes_loop. intros i Hi. unfold H, send_ops. rewrite seq_S, !map_app, app_assoc.
    apply goes_write; [done|by intros _|]. intros tb Hs _. by apply Hstep. }
  assert (Hlast : goes env (H n) (with_cnt s n) (H n) s' 65) by (apply goes_silent; auto).
  rewrite H0 in Hloop. change (H 0%nat) with (h ++ []) in Hloop. rewrite app_nil_r in Hloop.
  eapply goes_eq; [eapply goes_trans; [exact Hloop|exact Hlast]|done..|lia].
Qed.

(** ** READ: one sector *)

(** The registers READ_REGS leaves: the next address, one sector less. *)
Definition read_regs (r : HpsIdeRegs) : HpsIdeRegs :=
  let r := r <| r_sector_count := u16 (r_sector_count r - 1) |> <| r_io_size := 1 |>
             <| r_status := Z.lor (Z.lor ATA_STATUS_RDY ATA_STATUS_DRQ) ATA_STATUS_IRQ |> in
  if r_sector_count r =? 0 then r <| r_status := Z.lor (r_status r) ATA_STATUS_END |> else r.

Definition load_window (s : HpsIde) : HpsIde :=
  match sector_window (image_ s) (get_lba (drive_ s) (regs_ s)) with
  | None => s <| buf_ := replicate 12 0 |> <| sector_words_ := None |>
  | Some off => s <| sector_words_ := Some off |>
  end.

Definition reading (s : HpsIde) (r : HpsIdeRegs) : HpsIde :=
  load_window s <| regs_ := read_regs r |> <| cnt_ := 0 |> <| state_ := READ_SEND |>.

Definition read_done (s : HpsIde) (r : HpsIdeRegs) : HpsIde :=
  reading s r <| cnt_ := 0 |> <| state_ := SET_REGS |>
    <| next_state_ := if negb (r_sector_count (read_regs r) =? 0) then READ_WAIT_REQ else IDLE |>.

Lemma load_window_fields s :
  image_ (load_window s) = image_ s /\ drive_ (load_window s) = drive_ s /\
  base_ (load_window s) = base_ s /\ id_ (load_window s) = id_ s /\
  cdrom_ (load_window s) = cdrom_ s /\
  sector_words_ (load_window s) = sector_window (image_ s) (get_lba (drive_ s) (regs_ s)).
Proof. unfold load_window. by destruct (sector_window _ _). Qed.

Lemma goes_read_regs env h s r :
  env_ok env -> state_ s = READ_REGS ->
  put_lba (drive_ s) (regs_ s) (u32 (get_lba (drive_ s) (regs_ s) + 1)) = Some r ->
  goes env h s h (reading s r) 65.
Proof.
  intros He Hst Hput. apply goes_silent; [done|]. intros tb Hs _. unfold dispatch. rewrite Hst.
  unfold on_READ_REGS; cbv zeta. unfold reading, load_window, read_regs; cbv zeta.
  destruct (sector_window (image_ s) (get_lba (drive_ s) (regs_ s)));
    cbn [drive_ regs_ set_field]; cbn -[put_lba get_lba u32 u16 Z.lor]; rewrite Hput;
    cbn [mbind option_bind]; done.
Qed.

Lemma with_cnt_S s i : with_cnt s (S i) = with_cnt s i <| cnt_ := cnt_ (with_cnt s i) + 1 |>.
Proof. unfold with_cnt. rewrite Nat2Z.inj_succ. reflexivity. Qed.

(** READ_SEND with the window already looked up. *)
Lemma dispatch_READ_SEND s tb lba i :
  state_ s = READ_SEND -> sector_words_ s = sector_window (image_ s) lba -> is_u32 lba ->
  cnt_ s = Z.of_nat i -> (i < 256)%nat ->
  dispatch s tb = Some (s <| cnt_ := cnt_ s + 1 |>,
                        pulse_write tb (base_ s + 255) (sector_word (image_ s) lba i)).
Proof.
  intros Hst Hwin Hlba Hc Hi. unfold dispatch. rewrite Hst. unfold on_READ_SEND, sector_word.
  rewrite Hwin, (proj2 (Z.ltb_lt (cnt_ s) 256)) by lia.
  destruct (sector_window (image_ s) lba) as [off|] eqn:Ew; [|done].
  apply sector_window_Some in Ew as [-> Hlen]; [|done]. unfold is_u32 in Hlba. rewrite Hc.
  destruct (word_at_Some (image_ s) (lba * 512 + 2 * Z.of_nat i)) as [w ->]; [lia..|done].
Qed.

Lemma dispatch_READ_SEND_end s tb :
  state_ s = READ_SEND -> cnt_ s = 256 ->
  dispatch s tb = Some (s <| cnt_ := 0 |> <| state_ := SET_REGS |>
     <| next_state_ := if negb (r_sector_count (regs_ s) =? 0) then READ_WAIT_REQ else IDLE |>, tb).
Proof. intros Hst Hc. unfold dispatch. rewrite Hst. unfold on_READ_SEND. by rewrite Hc. Qed.

Lemma goes_read_send env h s r :
  env_ok env -> bytes (image_ s) -> is_u32 (get_lba (drive_ s) (regs_ s)) ->
  goes env h (reading s r)
    (h ++ send_ops (base_ s) (sector_words (image_ s) (get_lba (drive_ s) (regs_ s)))) (read_done s r)
    (65 * (Z.of_nat 256 + 1)).
Proof.
  intros He Hb Hlba. destruct (load_window_fields s) as (Himg & _ & Hbase & _ & _ & Hwin).
  assert (Hbase' : base_ (reading s r) = base_ s) by exact Hbase.
  assert (Himg' : image_ (reading s r) = image_ s) by exact Himg.
  assert (Hst : state_ (reading s r) = READ_SEND) by done.
  assert (Hc : cnt_ (reading s r) = 0) by done.
  assert (Hw' : sector_words_ (reading s r) = sector_window (image_ s) (get_lba (drive_ s) (regs_ s)))
    by exact Hwin.
  rewrite <- Hbase'. unfold sector_words.
  apply (goes_send env h (reading s r) (read_done s r)); [done| |exact Hc| |].
  - intros _ i. by apply sector_word_u16.
  - intros i tb Hi _. rewrite with_cnt_S, <- Himg'. rewrite <- Himg' in Hw'.
    exact (dispatch_READ_SEND (with_cnt (reading s r) i) tb _ i Hst Hw' Hlba eq_refl Hi).
  - intros tb _. by apply dispatch_READ_SEND_end.
Qed.

(** The six words of a register report. *)
Definition report_words (base : Z) (cdrom : bool) (r : HpsIdeRegs) : list Op :=
  map (fun i => Wr (u16 (base + Z.of_nat i)) (buf_word (regs_report cdrom r) i)) (seq 0 6).

(** The requests the core raises: [req] on the device's request port. *)
Definition requests (env : Env) (id : Z) (h : list Op) (req : Z) : Prop :=
  forall t, (if id =? 0 then in_ide0_request (env t h) else in_ide1_request (env t h)) = req.

Definition well_placed (h : list Op) (s : HpsIde) : Prop := Forall op_ok h /\ ide_ok s /\ ready s.

Lemma goes_placed env h s h' s' n : goes env h s h' s' n -> well_placed h s -> well_placed h' s'.
Proof. intros Hg (Hh & Hs & Hr). destruct (Hg Hh Hs Hr) as (? & ? & ? & _). done. Qed.

Lemma request_at env h s tb req : at_handler env h tb -> requests env (id_ s) h req -> request s tb = req.
Proof.
  intros (_ & _ & _ & _ & _ & t & _ & H0 & H1) Hreq. unfold request.
  specialize (Hreq t). rewrite H0, H1. by destruct (id_ s =? 0).
Qed.

Lemma after_report_fields s :
  image_ (after_report s) = image_ s /\ drive_ (after_report s) = drive_ s /\
  base_ (after_report s) = base_ s /\ id_ (after_report s) = id_ s /\
  cdrom_ (after_report s) = cdrom_ s /\ regs_ (after_report s) = report_regs s /\
  state_ (after_report s) = next_state_ s.
Proof. done. Qed.

Lemma read_done_fields s r :
  image_ (read_done s r) = image_ (load_window s) /\ drive_ (read_done s r) = drive_ (load_window s) /\
  base_ (read_done s r) = base_ (load_window s) /\ id_ (read_done s r) = id_ (load_window s) /\
  cdrom_ (read_done s r) = cdrom_ (load_window s) /\ regs_ (read_done s r) = read_regs r /\
  next_state_ (read_done s r) =
    (if negb (r_sector_count (read_regs r) =? 0) then READ_WAIT_REQ else IDLE).
Proof. unfold read_done, reading. generalize (load_window s). done. Qed.

Definition sector_read (s : HpsIde) (r : HpsIdeRegs) : HpsIde := after_report (read_done s r).

Lemma read_regs_drq r : (Z.land (r_status (read_regs r)) ATA_STATUS_DRQ =? 0) = false.
Proof. unfold read_regs; cbv zeta. by case_bool. Qed.

Lemma read_regs_fields r :
  r_sector_count (read_regs r) = u16 (r_sector_count r - 1) /\ r_sector (read_regs r) = r_sector r /\
  r_cylinder (read_regs r) = r_cylinder r /\ r_head (read_regs r) = r_head r /\
  r_lba (read_regs r) = r_lba r /\ r_drv (read_regs r) = r_drv r /\ r_error (read_regs r) = r_error r /\
  r_io_size (read_regs r) = 1 /\
  r_status (read_regs r) = (if u16 (r_sector_count r - 1) =? 0 then 0x4E else 0x4C).
Proof. unfold read_regs; cbv zeta. cbn [r_sector_count set_field]. cbn -[u16]. by case_bool. Qed.

Lemma report_read_done s r : report_regs (read_done s r) = read_regs r.
Proof.
  unfold report_regs. destruct (read_done_fields s r) as (_ & _ & _ & _ & _ & -> & _).
  by rewrite read_regs_drq, andb_false_r.
Qed.

Lemma sector_read_fields s r :
  image_ (sector_read s r) = image_ s /\ drive_ (sector_read s r) = drive_ s /\
  base_ (sector_read s r) = base_ s /\ id_ (sector_read s r) = id_ s /\
  cdrom_ (sector_read s r) = cdrom_ s /\ regs_ (sector_read s r) = read_regs r /\
  state_ (sector_read s r) = (if u16 (r_sector_count r - 1) =? 0 then IDLE else READ_WAIT_REQ).
Proof.
  unfold sector_read. destruct (load_window_fields s) as (Hi & Hd & Hb & Hid & Hc & _).
  destruct (read_done_fields s r) as (Hi' & Hd' & Hb' & Hid' & Hc' & Hr' & Hn').
  destruct (after_report_fields (read_done s r)) as (-> & -> & -> & -> & -> & -> & ->).
  rewrite Hi', Hd', Hb', Hid', Hc', Hn', report_read_done. destruct (read_regs_fields r) as [-> _].
  split_and?; try done. by destruct (u16 _ =? 0).
Qed.

(** One sector: its words, then the registers. *)
Lemma goes_read_sector env h s r :
  env_ok env -> ide_ok s -> state_ s = READ_REGS ->
  put_lba (drive_ s) (regs_ s) (u32 (get_lba (drive_ s) (regs_ s) + 1)) = Some r ->
  goes env h s
    (h ++ send_ops (base_ s) (sector_words (image_ s) (get_lba (drive_ s) (regs_ s)))
       ++ report_words (base_ s) (cdrom_ s) (read_regs r))
    (sector_read s r) (65 * 267).
Proof.
  intros He Hs Hst Hput.
  pose proof (goes_read_regs env h s r He Hst Hput) as G1.
  pose proof (goes_read_send env h s r He (ok_image _ Hs) (get_lba_u32 _ _ (ok_regs _ Hs))) as G2.
  set (h2 := h ++ send_ops _ _) in G2.
  pose proof (goes_report env h2 (read_done s r) He eq_refl) as G3.
  unfold report_ops in G3. rewrite report_read_done in G3.
  destruct (load_window_fields s) as (_ & _ & Hbase & _ & Hcd & _).
  destruct (read_done_fields s r) as (_ & _ & Hbase' & _ & Hcd' & _).
  rewrite Hbase', Hcd', Hbase, Hcd in G3.
  fold (report_words (base_ s) (cdrom_ s) (read_regs r)) in G3.
  eapply goes_eq; [eapply goes_trans; [exact G1|eapply goes_trans; [exact G2|exact G3]]| |done|lia].
  unfold h2. by rewrite app_assoc.
Qed.

(** ** READ: the whole command *)

(** What the core sees of an [n]-sector transfer: data and registers in turn. *)
Fixpoint transfer_ops (base : Z) (cdrom : bool) (blocks : list (list Z)) (regs : list HpsIdeRegs) : list Op :=
  match blocks, regs with
  | ws :: blocks, r :: regs =>
    send_ops base ws ++ report_words base cdrom r ++ transfer_ops base cdrom blocks regs
  | _, _ => []
  end.

(** The registers after sector [i] of [n] from [lba] on drive [d]. *)
Definition reports_progress (d : HpsIdeDrive) (lba n : Z) (regs : list HpsIdeRegs) : Prop :=
  Z.of_nat (length regs) = n /\
  forall i r, regs !! i = Some r ->
    get_lba d r = lba + Z.of_nat i + 1 /\ r_sector_count r = n - Z.of_nat i - 1 /\
    r_io_size r = 1 /\ r_status r = (if Z.of_nat i + 1 =? n then 0x4E else 0x4C).

Definition sectors_from (img : list Z) (lba : Z) (n : nat) : list (list Z) :=
  map (fun i => sector_words img (lba + Z.of_nat i)) (seq 0 n).

Lemma sectors_from_S img lba n :
  sectors_from img lba (S n) = sector_words img lba :: sectors_from img (lba + 1) n.
Proof.
  unfold sectors_from. cbn [seq map]. f_equal; [f_equal; lia|].
  rewrite <- seq_shift, map_map. apply map_ext. intros i. f_equal. lia.
Qed.

Lemma goes_read_next env h s :
  env_ok env -> state_ s = READ_WAIT_REQ -> requests env (id_ s) h 5 ->
  goes env h s h (s <| state_ := READ_REGS |>) 65.
Proof.
  intros He Hst Hreq. apply goes_silent; [done|]. intros tb _ Htb. unfold dispatch. rewrite Hst.
  unfold on_READ_WAIT_REQ, wait_req. by rewrite (request_at env h s tb 5 Htb Hreq).
Qed.

Lemma get_lba_read_regs d r : get_lba d (read_regs r) = get_lba d r.
Proof.
  destruct (read_regs_fields r) as (_ & Hs & Hc & Hh & Hl & _).
  unfold get_lba. by rewrite Hs, Hc, Hh, Hl.
Qed.

Lemma progress_cons d lba n r regs :
  get_lba d r = lba + 1 -> r_sector_count r = n - 1 -> r_io_size r = 1 ->
  r_status r = (if 1 =? n then 0x4E else 0x4C) ->
  reports_progress d (lba + 1) (n - 1) regs -> reports_progress d lba n (r :: regs).
Proof.
  intros Hl Hn Hio Hst [Hlen Hall]. split; [cbn [length]; lia|].
  intros [|i] x Hx.
  - injection Hx as <-. rewrite Hl, Hn. split_and?; try lia; done.
  - destruct (Hall i x Hx) as (? & ? & ? & Hs). split_and?; try lia.
    rewrite Hs. by destruct (Z.eqb_spec (Z.of_nat i + 1) (n - 1)), (Z.eqb_spec (Z.of_nat (S i) + 1) n); try lia.
Qed.

(** The next address and the kept count. *)
Lemma next_regs s lba :
  ide_ok s -> get_lba (drive_ s) (regs_ s) = lba -> lba + 1 < 268435456 ->
  exists r, put_lba (drive_ s) (regs_ s) (u32 (get_lba (drive_ s) (regs_ s) + 1)) = Some r /\
    get_lba (drive_ s) r = lba + 1 /\ r_sector_count r = r_sector_count (regs_ s).
Proof.
  intros Hs Hlba Hlt. pose proof (get_lba_u32 (drive_ s) _ (ok_regs _ Hs)) as Hu.
  destruct (put_lba_Some (drive_ s) (regs_ s) (u32 (get_lba (drive_ s) (regs_ s) + 1)))
    as (r & Hput & _ & Hget & Hr); [apply Hs|apply Hs|apply u32_range|].
  exists r. split_and?; [done| |by rewrite Hr]. rewrite Hget, Hlba in *. unfold is_u32 in Hu.
  rewrite u32_id by (unfold is_u32; lia). case_bool; [done|apply Z.mod_small; lia].
Qed.

(** One round, in terms of the address and the count. *)
Lemma goes_read_round env h s lba n :
  env_ok env -> ide_ok s -> state_ s = READ_REGS ->
  r_sector_count (regs_ s) = n -> 1 <= n < 65536 ->
  get_lba (drive_ s) (regs_ s) = lba -> lba + 1 < 268435456 ->
  exists r1 s1,
    goes env h s
      (h ++ send_ops (base_ s) (sector_words (image_ s) lba) ++ report_words (base_ s) (cdrom_ s) r1)
      s1 (65 * 267) /\
    image_ s1 = image_ s /\ drive_ s1 = drive_ s /\ base_ s1 = base_ s /\ id_ s1 = id_ s /\
    cdrom_ s1 = cdrom_ s /\ regs_ s1 = r1 /\
    get_lba (drive_ s) r1 = lba + 1 /\ r_sector_count r1 = n - 1 /\ r_io_size r1 = 1 /\
    r_status r1 = (if 1 =? n then 0x4E else 0x4C) /\
    state_ s1 = (if 1 =? n then IDLE else READ_WAIT_REQ).
Proof.
  intros He Hs Hst Hn Hmax Hlba Hlt.
  destruct (next_regs s lba Hs Hlba Hlt) as (r & Hput & Hget & Hcnt).
  pose proof (goes_read_sector env h s r He Hs Hst Hput) as G1.
  destruct (sector_read_fields s r) as (Hi1 & Hd1 & Hb1 & Hid1 & Hc1 & Hr1 & Hst1).
  destruct (read_regs_fields r) as (Hf1 & _ & _ & _ & _ & _ & _ & Hio & Hstat).
  rewrite Hlba in G1. rewrite Hcnt, Hn in *.
  assert (Hu : u16 (n - 1) = n - 1) by (apply u16_id; unfold is_u16; lia).
  assert (Hz : (u16 (n - 1) =? 0) = (1 =? n)) by (rewrite Hu; apply eq_true_iff_eq; lia).
  rewrite Hz in Hst1, Hstat. rewrite Hu in Hf1. rewrite <- (get_lba_read_regs) in Hget.
  exists (read_regs r), (sector_read s r). exact (conj G1 (conj Hi1 (conj Hd1 (conj Hb1 (conj Hid1
    (conj Hc1 (conj Hr1 (conj Hget (conj Hf1 (conj Hio (conj Hstat Hst1))))))))))).
Qed.

Lemma goes_read_sectors n : forall env h s lba,
  env_ok env -> well_placed h s -> state_ s = READ_REGS ->
  (forall l, requests env (id_ s) (h ++ l) 5) ->
  r_sector_count (regs_ s) = Z.of_nat (S n) -> Z.of_nat (S n) < 65536 ->
  get_lba (drive_ s) (regs_ s) = lba -> lba + Z.of_nat (S n) < 268435456 ->
  exists regs s', reports_progress (drive_ s) lba (Z.of_nat (S n)) regs /\
    goes env h s
      (h ++ transfer_ops (base_ s) (cdrom_ s) (sectors_from (image_ s) lba (S n)) regs) s'
      (65 * 268 * Z.of_nat (S n)) /\
    image_ s' = image_ s /\ state_ s' = IDLE.
Proof.
  induction n as [|n IH]; intros env h s lba He Hp Hst Hreq Hn Hmax Hlba Hlt;
    pose proof Hp as (_ & Hs & _);
    (destruct (goes_read_round env h s lba _ He Hs Hst Hn) as
       (r1 & s1 & G1 & Hi1 & Hd1 & Hb1 & Hid1 & Hc1 & Hr1 & Hget & Hcnt & Hio & Hstat & Hst1);
       [lia|done|lia|]).
  - exists [r1], s1. split_and?; [|  |done|done].
    + by apply progress_cons.
    + rewrite sectors_from_S. cbn [transfer_ops]. rewrite app_nil_r. eapply goes_le; [exact G1|lia].
  - rewrite (proj2 (Z.eqb_neq 1 _)) in Hst1, Hstat by lia. set (h1 := h ++ _) in G1.
    assert (Hreq1 : forall l, requests env (id_ s1) (h1 ++ l) 5).
    { intros l. rewrite Hid1. unfold h1. rewrite <- app_assoc. apply Hreq. }
    pose proof (goes_read_next env h1 _ He Hst1) as G2. rewrite <- (app_nil_r h1) in G2 at 1.
    specialize (G2 (Hreq1 [])). pose proof (goes_trans _ _ _ _ _ _ _ _ _ G1 G2) as G12.
    pose proof (goes_placed _ _ _ _ _ _ G12 Hp) as Hp2.
    destruct (IH env h1 (s1 <| state_ := READ_REGS |>) (lba + 1) He Hp2 eq_refl Hreq1)
      as (regs & s' & Hprog & G3 & Himg & Hidle); [cbn; rewrite Hr1; lia|lia| |lia|].
    { cbn. by rewrite Hd1, Hr1. }
    exists (r1 :: regs), s'.
    change (drive_ (s1 <| state_ := READ_REGS |>)) with (drive_ s1) in Hprog.
    change (base_ (s1 <| state_ := READ_REGS |>)) with (base_ s1) in G3.
    change (cdrom_ (s1 <| state_ := READ_REGS |>)) with (cdrom_ s1) in G3.
    change (image_ (s1 <| state_ := READ_REGS |>)) with (image_ s1) in G3, Himg.
    rewrite Hd1 in Hprog. rewrite Hb1, Hc1, Hi1 in G3. rewrite Hi1 in Himg. split_and?; [| |done|done].
    + apply progress_cons; try done; [by rewrite (proj2 (Z.eqb_neq 1 _)) by lia|].
      by replace (Z.of_nat (S (S n)) - 1) with (Z.of_nat (S n)) by lia.
    + rewrite sectors_from_S. cbn [transfer_ops].
      eapply goes_eq; [eapply goes_trans; [exact G12|exact G3]| |done|lia].
      unfold h1. by rewrite <- !app_assoc.
Qed.

(** ** Receiving a command *)

(** What GET_CMD does with word [k] of the task file. *)
Definition latch (k : nat) (d : Z) (s : HpsIde) : HpsIde :=
  match k with
  | 0%nat => s <| features_ := u8 (Z.shiftr d 8) |>
  | 1%nat => s <| sector_count_ := Z.land d 0xFF |> <| sector_ := Z.shiftr d 8 |>
  | 2%nat => s <| cylinder_ := d |>
  | 3%nat => s <| sector_ := u32 (sector_ s + Z.land d 0xFF00) |>
               <| sector_count_ := u32 (sector_count_ s + Z.shiftl (Z.land d 0x00FF) 8) |>
  | 4%nat => s <| cylinder_ := u32 (cylinder_ s + u32 (Z.shiftl d 16)) |>
  | _ => s <| drv_addr_ := u8 (Z.land d 0xFF) |> <| cmd_ := u8 (Z.shiftr d 8) |>
           <| regs_ := regs_ s
                <| r_sector_count := u16 (sector_count_ s) |> <| r_sector := u16 (sector_ s) |>
                <| r_cylinder := cylinder_ s |>
                <| r_head := Z.land (u8 (Z.land d 0xFF)) 0x0F |>
                <| r_drv := Z.land (Z.shiftr (u8 (Z.land d 0xFF)) 4) 0x1 |>
                <| r_lba := Z.land (Z.shiftr (u8 (Z.land d 0xFF)) 6) 0x1 |> |>
           <| state_ := DO_CMD |>
  end.

Fixpoint latched (tf : nat -> Z) (k : nat) (s : HpsIde) : HpsIde :=
  match k with
  | O => s <| state_ := GET_CMD |>
  | S k => latch k (tf k) (latched tf k s)
  end.

(** The core answers each task-file read with the word it asks for. *)
Definition answers (env : Env) (base : Z) (h : list Op) (tf : nat -> Z) : Prop :=
  forall t k, (k < 6)%nat ->
    in_readdata (env t (h ++ map (fun i => Rd (u16 (base + Z.of_nat i))) (seq 0 (S k)))) = tf k.

Lemma latch_base k d s : base_ (latch k d s) = base_ s.
Proof. by destruct k as [|[|[|[|[|k]]]]]. Qed.

Lemma latch_state k d s : (k < 5)%nat -> state_ (latch k d s) = state_ s.
Proof. intros Hk. destruct k as [|[|[|[|[|k]]]]]; try done. lia. Qed.

Lemma latched_base tf k s : base_ (latched tf k s) = base_ s.
Proof. induction k as [|k IH]; [done|]. cbn [latched]. by rewrite latch_base. Qed.

Lemma latched_state tf k s : (k < 6)%nat -> state_ (latched tf k s) = GET_CMD.
Proof.
  induction k as [|k IH]; intros Hk; [done|]. cbn [latched]. rewrite latch_state by lia.
  apply IH. lia.
Qed.

Lemma nibble_of base k : base mod 16 = 0 -> 0 <= k < 16 -> Z.land (u16 (base + k)) 0xF = k.
Proof. intros Hb Hk. change 0xF with 15. rewrite land_15. unfold u16. divlia. Qed.

Lemma dispatch_GET_CMD s tb k :
  state_ s = GET_CMD -> base_ s mod 16 = 0 -> (k < 6)%nat ->
  mgmt_address tb = u16 (base_ s + Z.of_nat k) ->
  dispatch s tb = Some (latch k (mgmt_readdata tb) s,
                        if (k <? 5)%nat then pulse_read tb (base_ s + Z.of_nat (S k)) else tb).
Proof.
  intros Hst Hb Hk Ha. unfold dispatch. rewrite Hst. unfold on_GET_CMD; cbv zeta.
  rewrite Ha, nibble_of by lia.
  assert (Hn : pulse_read tb (u16 (base_ s + Z.of_nat k) + 1) = pulse_read tb (base_ s + Z.of_nat (S k))).
  { unfold pulse_read. replace (u16 (u16 (base_ s + Z.of_nat k) + 1)) with (u16 (base_ s + Z.of_nat (S k)));
      [done|unfold u16; divlia]. }
  rewrite Hn. destruct k as [|[|[|[|[|[|k]]]]]]; try lia; done.
Qed.

Lemma goes_command env h s tf :
  env_ok env -> state_ s = IDLE -> base_ s mod 16 = 0 -> requests env (id_ s) h 4 ->
  answers env (base_ s) h tf ->
  goes env h s (h ++ taskfile_ops (base_ s)) (latched tf 6 s) (65 * 7).
Proof.
  intros He Hst Hb Hreq Hans.
  set (H := fun k => h ++ map (fun i => Rd (u16 (base_ s + Z.of_nat i))) (seq 0 (S k))).
  assert (G0 : goes env h s (H 0%nat) (latched tf 0 s) 65).
  { unfold H. cbn [seq map latched]. rewrite Z.add_0_r. apply goes_read; [done|]. intros tb _ Htb.
    unfold dispatch. rewrite Hst. unfold on_IDLE. rewrite (request_at env h s tb 4 Htb Hreq).
    cbn [Z.eqb Pos.eqb]. by rewrite Z.add_0_r. }
  assert (Hstep : forall k tb, (k < 6)%nat -> at_handler env (H k) tb ->
    dispatch (latched tf k s) tb = Some (latched tf (S k) s,
       if (k <? 5)%nat then pulse_read tb (base_ s + Z.of_nat (S k)) else tb)).
  { intros k tb Hk Htb. cbn [latched].
    destruct Htb as (_ & Ha & _ & _ & _ & t & Hd & _). rewrite (Hans t k Hk : in_readdata (env t (H k)) = tf k) in Hd.
    unfold addr_after, H in Ha. rewrite seq_S, map_app, app_assoc in Ha. cbn [map] in Ha.
    rewrite last_snoc in Ha. cbn [op_addr] in Ha. rewrite <- Hd.
    rewrite <- (latched_base tf k s). apply dispatch_GET_CMD; [by apply latched_state|..];
      rewrite ?latched_base; done. }
  assert (G1 : goes env (H 0%nat) (latched tf 0 s) (H 5%nat) (latched tf 5 s) (Z.of_nat 5 * 65)).
  { apply (goes_loop env H (fun k => latched tf k s) 65 5). intros k Hk. unfold H at 2. rewrite seq_S, map_app, app_assoc.
    apply goes_read; [done|]. intros tb _ Htb. rewrite Hstep by (done || lia).
    by rewrite (proj2 (Nat.ltb_lt k 5)) by lia. }
  assert (G2 : goes env (H 5%nat) (latched tf 5 s) (H 5%nat) (latched tf 6 s) 65).
  { apply goes_silent; [done|]. intros tb _ Htb. by rewrite Hstep by (done || lia). }
  eapply goes_eq; [eapply goes_trans; [exact G0|eapply goes_trans; [exact G1|exact G2]]|done..|lia].
Qed.

(** ** The command's address and count, in plain arithmetic *)

Definition cmd_count (tf : nat -> Z) : Z := let c := tf 1%nat mod 256 in if c =? 0 then 256 else c.

Definition cmd_lba (d : HpsIdeDrive) (tf : nat -> Z) : Z :=
  let sector := tf 1%nat / 256 in
  let cylinder := tf 2%nat in
  let head := tf 5%nat mod 16 in
  if (tf 5%nat / 64) mod 2 =? 1 then sector + 256 * cylinder + 16777216 * head
  else (cylinder * d_heads d + head) * d_spt d + sector - 1.

(** A 28-bit data command [op] for drive 0. *)
Definition addresses_drive0 (tf : nat -> Z) : Prop := (tf 5%nat / 16) mod 2 = 0.
Definition cmd_code (tf : nat -> Z) : Z := tf 5%nat / 256.

Lemma latched5_fields tf s :
  let s5 := latched tf 5 s in
  sector_count_ s5 = u32 (Z.land (tf 1%nat) 0xFF + Z.shiftl (Z.land (tf 3%nat) 0x00FF) 8) /\
  sector_ s5 = u32 (Z.shiftr (tf 1%nat) 8 + Z.land (tf 3%nat) 0xFF00) /\
  cylinder_ s5 = u32 (tf 2%nat + u32 (Z.shiftl (tf 4%nat) 16)) /\
  features_ s5 = u8 (Z.shiftr (tf 0%nat) 8) /\
  drive_ s5 = drive_ s /\ image_ s5 = image_ s /\ base_ s5 = base_ s /\ id_ s5 = id_ s /\
  cdrom_ s5 = cdrom_ s.
Proof. cbv zeta. split_and?; reflexivity. Qed.

Lemma latch5_fields d s :
  let s6 := latch 5 d s in
  cmd_ s6 = u8 (Z.shiftr d 8) /\ state_ s6 = DO_CMD /\ drive_ s6 = drive_ s /\ image_ s6 = image_ s /\
  base_ s6 = base_ s /\ id_ s6 = id_ s /\ cdrom_ s6 = cdrom_ s /\ features_ s6 = features_ s /\
  r_sector_count (regs_ s6) = u16 (sector_count_ s) /\ r_sector (regs_ s6) = u16 (sector_ s) /\
  r_cylinder (regs_ s6) = cylinder_ s /\ r_head (regs_ s6) = Z.land (u8 (Z.land d 0xFF)) 0x0F /\
  r_drv (regs_ s6) = Z.land (Z.shiftr (u8 (Z.land d 0xFF)) 4) 0x1 /\
  r_lba (regs_ s6) = Z.land (Z.shiftr (u8 (Z.land d 0xFF)) 6) 0x1.
Proof. cbv zeta. split_and?; reflexivity. Qed.

Lemma land_ff00 d : is_u16 d -> Z.land d 0xFF00 = 256 * (d / 256).
Proof.
  intros Hd. unfold is_u16 in Hd.
  assert (E : d = Z.lor (Z.shiftl (d / 256) 8) (Z.land d 255)).
  { rewrite land_255, lor_shiftl_add by (unfold u8; divlia). unfold u8. divlia. }
  rewrite E at 1. rewrite Z.land_lor_distr_l, <- Z.land_assoc.
  change (Z.land 255 0xFF00) with 0. rewrite Z.land_0_r, Z.lor_0_r.
  change 0xFF00 with (Z.shiftl 255 8). rewrite <- Z.shiftl_land, land_255, shiftl_mul by lia.
  change (2 ^ 8) with 256. unfold u8. divlia.
Qed.

(** The command as latched, before the task file is masked. *)
Definition latched_cmd (s0 : HpsIde) (tf : nat -> Z) (s : HpsIde) : Prop :=
  cmd_ s = cmd_code tf /\ state_ s = DO_CMD /\ drive_ s = drive_ s0 /\ image_ s = image_ s0 /\
  base_ s = base_ s0 /\ id_ s = id_ s0 /\ cdrom_ s = cdrom_ s0 /\
  r_sector_count (regs_ s) mod 256 = tf 1%nat mod 256 /\ r_sector (regs_ s) mod 256 = tf 1%nat / 256 /\
  r_cylinder (regs_ s) mod 65536 = tf 2%nat /\ r_head (regs_ s) = tf 5%nat mod 16 /\
  r_drv (regs_ s) = (tf 5%nat / 16) mod 2 /\ r_lba (regs_ s) = (tf 5%nat / 64) mod 2 /\
  features_ s = tf 0%nat / 256.

Lemma latched_fields tf s :
  (forall k, (k < 6)%nat -> is_u16 (tf k)) -> latched_cmd s tf (latched tf 6 s).
Proof.
  intros Htf. unfold latched_cmd. set (s1 := latched tf 6 s). pose proof (Htf 0%nat ltac:(lia)) as H0. pose proof (Htf 1%nat ltac:(lia)) as H1.
  pose proof (Htf 2%nat ltac:(lia)) as H2. pose proof (Htf 3%nat ltac:(lia)) as H3. pose proof (Htf 5%nat ltac:(lia)) as H5.
  pose proof (Htf 4%nat ltac:(lia)) as H4.
  destruct (latched5_fields tf s) as (Hc & Hs & Hcy & Hf & Hd & Hi & Hb & Hid & Hcd).
  destruct (latch5_fields (tf 5%nat) (latched tf 5 s))
    as (E1 & E2 & E3 & E4 & E5 & E6 & E7 & E8 & E9 & E10 & E11 & E12 & E13 & E14).
  change (latch 5 (tf 5%nat) (latched tf 5 s)) with s1 in *. clearbody s1.
  rewrite E1, E2, E3, E4, E5, E6, E7, E8, E9, E10, E11, E12, E13, E14, Hc, Hs, Hcy, Hf.
  unfold cmd_code. rewrite land_ff00, ?land_255, ?land_15, ?land_1, ?shiftr_div, ?shiftl_mul by (lia || auto).
  change (2 ^ 8) with 256. change (2 ^ 4) with 16. change (2 ^ 6) with 64. change (2 ^ 16) with 65536.
  unfold is_u16, u8, u16, u32 in *. split_and?; try done; divlia.
Qed.

(** A data command, once decoded: the registers hold its address and count. *)
Definition decoded (s0 : HpsIde) (tf : nat -> Z) (s : HpsIde) : Prop :=
  drive_ s = drive_ s0 /\ image_ s = image_ s0 /\ base_ s = base_ s0 /\ id_ s = id_ s0 /\
  cdrom_ s = cdrom_ s0 /\ r_sector_count (regs_ s) = cmd_count tf /\
  get_lba (drive_ s) (regs_ s) = cmd_lba (drive_ s0) tf.

Lemma cmd_count_range tf : 1 <= cmd_count tf <= 256.
Proof. unfold cmd_count; cbv zeta. case_bool; divlia. Qed.

Lemma get_lba_cmd d r tf :
  drive_ok d -> is_u16 (tf 1%nat) -> is_u16 (tf 2%nat) ->
  r_sector r = tf 1%nat / 256 -> r_cylinder r = tf 2%nat -> r_head r = tf 5%nat mod 16 ->
  r_lba r = (tf 5%nat / 64) mod 2 -> 0 <= cmd_lba d tf < 268435456 ->
  get_lba d r = cmd_lba d tf.
Proof.
  intros Hd H1 H2 Hs Hc Hh Hl. unfold get_lba, cmd_lba; cbv zeta. rewrite Hs, Hc, Hh, Hl.
  destruct Hd as (_ & Hheads & Hspt & _). unfold is_u16 in *.
  assert (0 <= tf 5%nat mod 16 < 16) by divlia. assert (0 <= (tf 5%nat / 64) mod 2 < 2) by divlia.
  assert (0 <= tf 1%nat / 256 < 256) by divlia.
  set (sec := tf 1%nat / 256) in *. set (head := tf 5%nat mod 16) in *.
  destruct ((tf 5%nat / 64) mod 2 =? 1) eqn:E; intros Hrange.
  - rewrite (proj2 (Z.eqb_neq _ 0)) by lia. cbn [negb].
    rewrite land_255, land_15. change 0xFFFF with 65535. rewrite land_65535.
    rewrite (u8_id sec), (u16_id (tf 2%nat)), (Z.mod_small head 16) by (unfold is_u8, is_u16; lia).
    rewrite (u32_id (Z.shiftl (tf 2%nat) 8)), (u32_id (Z.shiftl head 24))
      by (rewrite shiftl_mul by lia; unfold is_u32; lia).
    rewrite (lor_shiftl_add' (tf 2%nat) sec 8) by lia.
    rewrite (lor_shiftl_add' head _ 24) by lia. lia.
  - rewrite (proj2 (Z.eqb_eq _ 0)) by lia. cbn [negb].
    assert (0 <= tf 2%nat * d_heads d + head) by nia.
    assert ((tf 2%nat * d_heads d + head) * d_spt d < 268435457) by lia.
    assert (tf 2%nat * d_heads d + head < 268435457) by nia.
    rewrite (u32_id (tf 2%nat * d_heads d)), (u32_id (tf 2%nat * d_heads d + head)) by (unfold is_u32; nia).
    rewrite (u32_id (_ * d_spt d)) by (unfold is_u32; nia). rewrite u32_id by (unfold is_u32; lia). lia.
Qed.

Lemma mask_taskfile_fields s :
  existsb (Z.eqb (cmd_ s)) [0x20; 0x21; 0x30; 0x31; 0xC4; 0xC5] = true ->
  let r := regs_ (mask_taskfile s) in
  r_sector_count r = (let c := r_sector_count (regs_ s) mod 256 in if c =? 0 then 256 else c) /\
  r_sector r = r_sector (regs_ s) mod 256 /\ r_cylinder r = r_cylinder (regs_ s) mod 65536 /\
  r_head r = r_head (regs_ s) /\ r_lba r = r_lba (regs_ s).
Proof.
  intros Hcmd. unfold mask_taskfile; cbv zeta. rewrite Hcmd. cbn [regs_ set_field].
  change 0x00FF with 255. change 0x0000FFFF with 65535. rewrite !land_255, land_65535. cbn -[u8 u16].
  unfold u8, u16. destruct (r_sector_count (regs_ s) mod 256 =? 0) eqn:E; cbn; rewrite ?E; done.
Qed.

Lemma mask_taskfile_same s :
  drive_ (mask_taskfile s) = drive_ s /\ image_ (mask_taskfile s) = image_ s /\
  base_ (mask_taskfile s) = base_ s /\ id_ (mask_taskfile s) = id_ s /\
  cdrom_ (mask_taskfile s) = cdrom_ s.
Proof. unfold mask_taskfile; cbv zeta. by destruct (existsb _ _). Qed.

(** The command register decides between READ and WRITE. *)
Lemma dispatch_data_cmd s tb st :
  state_ s = DO_CMD -> d_present (drive_ s) = true -> r_drv (regs_ s) = 0 -> cdrom_ s = false ->
  (st = READ /\ (cmd_ s = 0x20 \/ cmd_ s = 0x21) \/ st = WRITE /\ (cmd_ s = 0x30 \/ cmd_ s = 0x31)) ->
  dispatch s tb = Some (mask_taskfile s <| state_ := st |>, tb).
Proof.
  intros Hst Hp Hd Hc Hcmd. unfold dispatch. rewrite Hst. unfold on_DO_CMD, handle_cmd.
  rewrite Hp, Hd, Hc. cbn [negb orb Z.eqb]. unfold handle_disk_cmd; cbv zeta.
  change (cmd_ (mask_taskfile s)) with (cmd_ s).
  destruct Hcmd as [[-> [-> | ->]]|[-> [-> | ->]]]; done.
Qed.

Lemma decoded_state s0 tf s st : decoded s0 tf s -> decoded s0 tf (s <| state_ := st |>).
Proof. done. Qed.

Lemma decoded_masked s0 tf s :
  latched_cmd s0 tf s -> drive_ok (drive_ s0) -> (forall k, (k < 6)%nat -> is_u16 (tf k)) ->
  existsb (Z.eqb (cmd_code tf)) [0x20; 0x21; 0x30; 0x31; 0xC4; 0xC5] = true ->
  0 <= cmd_lba (drive_ s0) tf < 268435456 ->
  decoded s0 tf (mask_taskfile s).
Proof.
  intros (E1 & E2 & E3 & E4 & E5 & E6 & E7 & E8 & E9 & E10 & E11 & E12 & E13 & _) Hd Htf Hcode Hlba.
  destruct (mask_taskfile_same s) as (M1 & M2 & M3 & M4 & M5). rewrite <- E1 in Hcode.
  destruct (mask_taskfile_fields s Hcode) as (F1 & F2 & F3 & F4 & F5).
  rewrite E3 in M1. rewrite E4 in M2. rewrite E5 in M3. rewrite E6 in M4. rewrite E7 in M5.
  refine (conj M1 (conj M2 (conj M3 (conj M4 (conj M5 (conj _ _)))))).
  - rewrite F1, E8. done.
  - rewrite M1. apply get_lba_cmd; [done|apply Htf; lia|apply Htf; lia|congruence..|done].
Qed.

(** DO_CMD on a data command. *)
Lemma goes_do_data env h s0 s tf st :
  env_ok env -> latched_cmd s0 tf s -> d_present (drive_ s0) = true -> cdrom_ s0 = false ->
  addresses_drive0 tf ->
  (st = READ /\ (cmd_code tf = 0x20 \/ cmd_code tf = 0x21) \/
   st = WRITE /\ (cmd_code tf = 0x30 \/ cmd_code tf = 0x31)) ->
  goes env h s h (mask_taskfile s <| state_ := st |>) 65.
Proof.
  intros He (E1 & E2 & E3 & E4 & E5 & E6 & E7 & E8 & E9 & E10 & E11 & E12 & E13 & _) Hp Hc Hd Hcode.
  apply goes_silent; [done|]. intros tb _ _.
  apply dispatch_data_cmd; rewrite ?E1, ?E3, ?E7, ?E12; assumption.
Qed.

Section DataCommand.
Context (env : Env) (h : list Op) (s : HpsIde) (tf : nat -> Z).
Context (He : env_ok env) (Hp : well_placed h s) (Hst : state_ s = IDLE) (Hbase : base_ s mod 16 = 0).
Context (Hpresent : d_present (drive_ s) = true) (Hdisk : cdrom_ s = false).
Context (Htf : forall k, (k < 6)%nat -> is_u16 (tf k)) (Hdrv : addresses_drive0 tf).
Context (Hcmd : requests env (id_ s) h 4) (Hans : answers env (base_ s) h tf).
Context (Hlba : 0 <= cmd_lba (drive_ s) tf < 268435456).

(** From IDLE to the first handler of the data phase. *)
Lemma goes_data_command (st : State) :
  (st = READ /\ (cmd_code tf = 0x20 \/ cmd_code tf = 0x21) \/
   st = WRITE /\ (cmd_code tf = 0x30 \/ cmd_code tf = 0x31)) ->
  exists s1, goes env h s (h ++ taskfile_ops (base_ s)) s1 (65 * 7 + 65) /\
    decoded s tf s1 /\ state_ s1 = st.
Proof.
  intros Hcode. pose proof (latched_fields tf s Htf) as Hl.
  pose proof (goes_command env h s tf He Hst Hbase Hcmd Hans) as G1.
  pose proof (goes_do_data env (h ++ taskfile_ops (base_ s)) s _ tf st He Hl Hpresent Hdisk Hdrv Hcode) as G2.
  eexists. split; [exact (goes_trans _ _ _ _ _ _ _ _ _ G1 G2)|]. split; [|reflexivity].
  apply decoded_state, decoded_masked; [exact Hl|apply (ok_drive s), Hp|exact Htf| |exact Hlba].
  destruct Hcode as [[_ [-> | ->]]|[_ [-> | ->]]]; done.
Qed.
End DataCommand.

Lemma goes_enter_read env h s :
  env_ok env -> state_ s = READ -> goes env h s h (s <| state_ := READ_REGS |>) 65.
Proof.
  intros He Hst. apply goes_silent; [done|]. intros tb _ _. unfold dispatch. by rewrite Hst.
Qed.
