(* ===== verification/IdeWrite.v ===== *)
(** * WRITE SECTORS as the core sees it

    The write side of the abstract disk of [IdeDisk]: words stored through the
    sector window, the reply of each data read stored when it arrives, sector
    by sector; reading back what was written. *)
From S2P Require Import Prelude IdeTypes IdeGeometry IdePacket IdeCommand IdeTick IdeInvariant.
From S2P Require Import IdeSafety IdeProtocol IdeDisk.

(** ** WRITE *)

#[global] Instance Op_eq_dec : EqDecision Op.
Proof. solve_decision. Defined.

(** Words [l] stored through a window. *)
Definition write_words (img : list Z) (win : option Z) (l : list Z) : list Z :=
  match win with
  | None => img
  | Some off => splice (Z.to_nat off) (concat (map (le_bytes 2) l)) img
  end.

Lemma write_sector_words img lba ws : write_sector img lba ws = write_words img (sector_window img lba) ws.
Proof. done. Qed.

Lemma length_words l : length (concat (map (le_bytes 2) l)) = (2 * length l)%nat.
Proof. induction l as [|w l IH]; [done|]. cbn [map concat length]. rewrite length_app, IH, length_le_bytes. lia. Qed.

Lemma words_bytes l : bytes (concat (map (le_bytes 2) l)).
Proof. induction l as [|w l IH]; [apply bytes_nil|]. cbn [map concat]. auto using bytes_app, le_bytes_bytes. Qed.

Lemma splice_nil {A} o (l : list A) : splice o [] l = l.
Proof. unfold splice. rewrite Nat.add_0_r. apply take_drop. Qed.

Lemma splice_splice {A} o (x y l : list A) :
  (o + length x + length y <= length l)%nat ->
  splice (o + length x) y (splice o x l) = splice o (x ++ y) l.
Proof.
  intros Hl. unfold splice.
  assert (Ht : take (o + length x) (take o l ++ x ++ drop (o + length x) l) = take o l ++ x).
  { rewrite app_assoc, take_app_length'; [done|]. rewrite length_app, length_take. lia. }
  rewrite Ht, !app_assoc, length_app. f_equal.
  rewrite drop_app_ge by (rewrite length_app, length_take; lia).
  rewrite drop_drop, length_app, length_take. f_equal. lia.
Qed.

Lemma write_words_length img win l :
  (forall off, win = Some off -> 0 <= off /\ off + 2 * Z.of_nat (length l) <= Z.of_nat (length img)) ->
  length (write_words img win l) = length img.
Proof.
  intros Hw. destruct win as [off|]; [|done]. specialize (Hw off eq_refl). cbn.
  apply length_splice. rewrite length_words. lia.
Qed.

Lemma store_word_next img off l w :
  0 <= off -> off + 2 * (Z.of_nat (length l) + 1) <= Z.of_nat (length img) ->
  store_word (write_words img (Some off) l) (off + 2 * Z.of_nat (length l)) w =
    Some (write_words img (Some off) (l ++ [w])).
Proof.
  intros H0 Hlen.
  assert (Hl : length (write_words img (Some off) l) = length img)
    by (apply write_words_length; intros ? [= <-]; lia).
  unfold store_word. rewrite Hl, (proj2 (andb_true_iff _ _)) by lia.
  cbn [write_words]. f_equal. rewrite map_app, concat_app. cbn [map concat].
  rewrite app_nil_r. change (le_bytes 2 w) with [u8 w; u8 (w / 256)].
  rewrite shiftr_div by lia. change (2 ^ 8) with 256.
  replace (Z.to_nat (off + 2 * Z.of_nat (length l)))
    with (Z.to_nat off + length (concat (map (le_bytes 2) l)))%nat by (rewrite length_words; lia).
  apply splice_splice. rewrite length_words. cbn [length]. lia.
Qed.

(** The state when [i] data words have been requested and [i - 1] stored. *)
Definition receiving (s : HpsIde) (ws : nat -> Z) (i : nat) : HpsIde :=
  s <| image_ := write_words (image_ s) (sector_words_ s) (map ws (seq 0 (pred i))) |>
    <| cnt_ := Z.of_nat i |>.

Definition window_fits (s : HpsIde) : Prop :=
  forall off, sector_words_ s = Some off -> 0 <= off /\ off + 512 <= Z.of_nat (length (image_ s)).

Lemma write_words_nil img win : write_words img win [] = img.
Proof. destruct win; [apply splice_nil|done]. Qed.

Lemma receiving_0 s ws : cnt_ s = 0 -> receiving s ws 0 = s.
Proof.
  intros Hc. unfold receiving. cbn [pred seq map]. rewrite write_words_nil.
  change (Z.of_nat 0) with 0. rewrite <- Hc. by destruct s.
Qed.

(** Storing word [i - 1] when it arrives. *)
Definition stored (s : HpsIde) (ws : nat -> Z) (i : nat) : HpsIde :=
  s <| image_ := write_words (image_ s) (sector_words_ s) (map ws (seq 0 i)) |> <| cnt_ := Z.of_nat i |>.

Lemma recv_word_stored s ws i tb :
  window_fits s -> (i <= 256)%nat -> (i = 0%nat \/ mgmt_readdata tb = ws (pred i)) ->
  recv_word (receiving s ws i) tb = Some (stored s ws i).
Proof.
  intros Hwin Hi Hd. unfold recv_word. change (sector_words_ (receiving s ws i)) with (sector_words_ s).
  change (cnt_ (receiving s ws i)) with (Z.of_nat i).
  destruct (sector_words_ s) as [off|] eqn:Eoff; [|unfold receiving, stored; by rewrite Eoff].
  destruct i as [|i]; [unfold receiving, stored; by rewrite Eoff|].
  rewrite (proj2 (Z.ltb_lt _ _)) by lia.
  change (image_ (receiving s ws (S i))) with
    (write_words (image_ s) (sector_words_ s) (map ws (seq 0 i))). rewrite Eoff.
  destruct Hd as [|Hd]; [done|]. rewrite Hd. cbn [pred].
  destruct (Hwin off Eoff) as [H0 Hlen].
  replace (off + 2 * (Z.of_nat (S i) - 1)) with (off + 2 * Z.of_nat (length (map ws (seq 0 i))))
    by (rewrite length_map, length_seq; lia).
  rewrite store_word_next by (rewrite ?length_map, ?length_seq; lia). cbn [mbind option_bind].
  unfold stored. rewrite Eoff, seq_S, map_app. done.
Qed.

Lemma receiving_S s ws i : receiving s ws (S i) = stored s ws i <| cnt_ := cnt_ (stored s ws i) + 1 |>.
Proof. unfold receiving, stored. rewrite Nat2Z.inj_succ. done. Qed.

Lemma dispatch_WRITE_RECV s tb s1 :
  state_ s = WRITE_RECV -> recv_word s tb = Some s1 -> cnt_ s1 < 256 ->
  dispatch s tb = Some (s1 <| cnt_ := cnt_ s1 + 1 |>, pulse_read tb (base_ s1 + 255)).
Proof.
  intros Hst Hr Hc. unfold dispatch. rewrite Hst. unfold on_WRITE_RECV. rewrite Hr.
  cbn [mbind option_bind]. by rewrite (proj2 (Z.ltb_lt _ _)).
Qed.

(** The core's answers to the data reads that follow [h]. *)
Definition data_answers (env : Env) (base : Z) (h : list Op) (ws : nat -> Z) : Prop :=
  forall t i, (i < 256)%nat -> in_readdata (env t (h ++ recv_ops base (S i))) = ws i.

Lemma recv_ops_S base n : recv_ops base (S n) = recv_ops base n ++ [Rd (u16 (base + 255))].
Proof. unfold recv_ops. by rewrite replicate_S_end. Qed.

Lemma goes_receive env h s ws :
  env_ok env -> state_ s = WRITE_RECV -> cnt_ s = 0 -> window_fits s ->
  data_answers env (base_ s) h ws ->
  goes env h s (h ++ recv_ops (base_ s) 256) (receiving s ws 256) (65 * 256).
Proof.
  intros He Hst Hc Hwin Hans.
  assert (G : goes env (h ++ recv_ops (base_ s) 0) (receiving s ws 0)
                (h ++ recv_ops (base_ s) 256) (receiving s ws 256) (Z.of_nat 256 * 65)).
  { apply (goes_loop env (fun i => h ++ recv_ops (base_ s) i) (receiving s ws) 65 256).
    intros i Hi. rewrite recv_ops_S, app_assoc. apply goes_read; [done|]. intros tb _ Htb.
    rewrite receiving_S. apply (dispatch_WRITE_RECV (receiving s ws i) tb (stored s ws i) Hst).
    - apply recv_word_stored; [done|lia|]. destruct i as [|i]; [by left|right].
      destruct Htb as (_ & _ & _ & _ & _ & t & Hd & _). rewrite Hd. apply Hans. lia.
    - cbn. lia. }
  rewrite receiving_0 in G by done. cbn [recv_ops replicate] in G. rewrite app_nil_r in G.
  eapply goes_le; [exact G|lia].
Qed.

(** ** One sector *)

(** The registers WRITE_REGS reports. *)
Definition write_regs (s : HpsIde) : HpsIdeRegs :=
  regs_ s <| r_status := Z.lor (Z.lor ATA_STATUS_RDY ATA_STATUS_DRQ) (irq_pending_ s) |>
          <| r_io_size := 1 |>.

Definition write_opened (s : HpsIde) : HpsIde :=
  set_regs_then WRITE_WAIT_REQ
    (s <| sector_words_ := sector_window (image_ s) (get_lba (drive_ s) (regs_ s)) |>
       <| irq_pending_ := ATA_STATUS_IRQ |>) (write_regs s).

Lemma goes_write_regs env h s :
  env_ok env -> state_ s = WRITE_REGS -> goes env h s h (write_opened s) 65.
Proof.
  intros He Hst. apply goes_silent; [done|]. intros tb _ _. unfold dispatch. by rewrite Hst.
Qed.

Lemma report_write_opened s :
  (irq_pending_ s = 0 \/ irq_pending_ s = 4) -> report_regs (write_opened s) = write_regs s.
Proof.
  intros Hirq. unfold report_regs. change (regs_ (write_opened s)) with (write_regs s).
  change (r_status (write_regs s)) with (Z.lor (Z.lor ATA_STATUS_RDY ATA_STATUS_DRQ) (irq_pending_ s)).
  destruct Hirq as [-> | ->]; cbn; by rewrite andb_false_r.
Qed.

Lemma write_opened_fields s :
  image_ (write_opened s) = image_ s /\ drive_ (write_opened s) = drive_ s /\
  base_ (write_opened s) = base_ s /\ id_ (write_opened s) = id_ s /\
  cdrom_ (write_opened s) = cdrom_ s /\ irq_pending_ (write_opened s) = 4 /\
  sector_words_ (write_opened s) = sector_window (image_ s) (get_lba (drive_ s) (regs_ s)) /\
  state_ (write_opened s) = SET_REGS /\ next_state_ (write_opened s) = WRITE_WAIT_REQ.
Proof. done. Qed.

Lemma after_report_more s :
  irq_pending_ (after_report s) = irq_pending_ s /\ sector_words_ (after_report s) = sector_words_ s.
Proof. done. Qed.

Lemma goes_write_next env h s :
  env_ok env -> state_ s = WRITE_WAIT_REQ -> requests env (id_ s) h 5 ->
  goes env h s h (s <| cnt_ := 0 |> <| state_ := WRITE_RECV |>) 65.
Proof.
  intros He Hst Hreq. apply goes_silent; [done|]. intros tb _ Htb. unfold dispatch. rewrite Hst.
  unfold on_WRITE_WAIT_REQ, wait_req. by rewrite (request_at env h s tb 5 Htb Hreq).
Qed.

(** The end of a sector: the next one, or the final report. *)
Definition sector_written (s : HpsIde) (r : HpsIdeRegs) : HpsIde :=
  let r := r <| r_sector_count := u16 (r_sector_count r - 1) |> in
  if negb (r_sector_count r =? 0) then s <| cnt_ := 0 |> <| regs_ := r |> <| state_ := WRITE_REGS |>
  else set_regs_then IDLE (s <| cnt_ := 0 |>) (r <| r_status := Z.lor ATA_STATUS_RDY ATA_STATUS_IRQ |>).

Lemma dispatch_WRITE_RECV_end s tb s1 r :
  state_ s = WRITE_RECV -> recv_word s tb = Some s1 -> cnt_ s1 = 256 ->
  put_lba (drive_ s1) (regs_ s1) (u32 (get_lba (drive_ s1) (regs_ s1) + 1)) = Some r ->
  dispatch s tb = Some (sector_written s1 r, tb).
Proof.
  intros Hst Hr Hc Hput. unfold dispatch. rewrite Hst. unfold on_WRITE_RECV. rewrite Hr.
  cbn [mbind option_bind]. rewrite Hc. cbn [Z.ltb Z.compare Pos.compare Pos.compare_cont].
  change (drive_ (s1 <| cnt_ := 0 |>)) with (drive_ s1).
  change (regs_ (s1 <| cnt_ := 0 |>)) with (regs_ s1). rewrite Hput. cbn [mbind option_bind].
  unfold sector_written; cbv zeta. by case_bool.
Qed.

Lemma sector_written_fields s r n :
  r_sector_count r = n -> 1 <= n < 65536 ->
  let s1 := sector_written s r in
  image_ s1 = image_ s /\ drive_ s1 = drive_ s /\ base_ s1 = base_ s /\ id_ s1 = id_ s /\
  cdrom_ s1 = cdrom_ s /\ irq_pending_ s1 = irq_pending_ s /\
  r_sector_count (regs_ s1) = n - 1 /\ get_lba (drive_ s) (regs_ s1) = get_lba (drive_ s) r /\
  (n <> 1 -> state_ s1 = WRITE_REGS) /\
  (n = 1 -> state_ s1 = SET_REGS /\ next_state_ s1 = IDLE /\ r_status (regs_ s1) = 0x44).
Proof.
  intros Hn Hr. assert (Hu : u16 (r_sector_count r - 1) = n - 1).
  { rewrite Hn. apply u16_id. unfold is_u16. lia. }
  unfold sector_written; cbv zeta. cbn [r_sector_count set_field].
  change (r_sector_count (r <| r_sector_count := u16 (r_sector_count r - 1) |>))
    with (u16 (r_sector_count r - 1)). rewrite Hu.
  destruct (n - 1 =? 0) eqn:E; cbn [negb]; split_and?; try done; intros; try lia; try done.
Qed.

Lemma receiving_fields s ws i :
  state_ (receiving s ws i) = state_ s /\ drive_ (receiving s ws i) = drive_ s /\
  regs_ (receiving s ws i) = regs_ s.
Proof. done. Qed.

Lemma stored_fields s ws i :
  image_ (stored s ws i) = write_words (image_ s) (sector_words_ s) (map ws (seq 0 i)) /\
  drive_ (stored s ws i) = drive_ s /\ base_ (stored s ws i) = base_ s /\ id_ (stored s ws i) = id_ s /\
  cdrom_ (stored s ws i) = cdrom_ s /\ irq_pending_ (stored s ws i) = irq_pending_ s /\
  regs_ (stored s ws i) = regs_ s /\ cnt_ (stored s ws i) = Z.of_nat i.
Proof. done. Qed.

(** From the first data read to the end of the sector. *)
Lemma goes_write_data env h s ws r :
  env_ok env -> state_ s = WRITE_RECV -> cnt_ s = 0 -> window_fits s ->
  data_answers env (base_ s) h ws ->
  put_lba (drive_ s) (regs_ s) (u32 (get_lba (drive_ s) (regs_ s) + 1)) = Some r ->
  goes env h s (h ++ recv_ops (base_ s) 256) (sector_written (stored s ws 256) r) (65 * 256 + 65).
Proof.
  intros He Hst Hc Hwin Hans Hput. eapply goes_trans; [by apply goes_receive|].
  apply goes_silent; [done|]. intros tb _ Htb.
  destruct (receiving_fields s ws 256) as (E1 & E2 & E3).
  destruct (stored_fields s ws 256) as (_ & S2 & _ & _ & _ & _ & S7 & S8).
  apply (dispatch_WRITE_RECV_end (receiving s ws 256) tb (stored s ws 256) r).
  - by rewrite E1.
  - apply recv_word_stored; [done|lia|right].
    destruct Htb as (_ & _ & _ & _ & _ & t & Hd & _). rewrite Hd. apply Hans. lia.
  - exact S8.
  - rewrite S2, S7. exact Hput.
Qed.

(** ** Rounds *)

(** Data words are numbered in the order the device reads them: [ws k] answers
    the data read that [k] data reads precede since [h]. *)
Definition data_reads (base : Z) (l : list Op) : nat :=
  length (filter (fun o => o = Rd (u16 (base + 255))) l).

Definition answers_data (env : Env) (base : Z) (h : list Op) (ws : nat -> Z) : Prop :=
  forall t l, in_readdata (env t (h ++ l ++ [Rd (u16 (base + 255))])) = ws (data_reads base l).

Lemma data_reads_app base l1 l2 : data_reads base (l1 ++ l2) = (data_reads base l1 + data_reads base l2)%nat.
Proof. unfold data_reads. by rewrite filter_app, length_app. Qed.

Lemma data_reads_report base cdrom b r : data_reads b (report_words base cdrom r) = 0%nat.
Proof. done. Qed.

Lemma data_reads_recv base n : data_reads base (recv_ops base n) = n.
Proof.
  unfold data_reads, recv_ops. induction n as [|n IH]; [done|].
  cbn [replicate]. rewrite filter_cons_True by done. cbn [length]. by rewrite IH.
Qed.

Lemma answers_data_report env base h ws cdrom r :
  answers_data env base h ws -> data_answers env base (h ++ report_words base cdrom r) ws.
Proof.
  intros Hans t i Hi. rewrite recv_ops_S, <- app_assoc, (app_assoc (report_words _ _ _)).
  rewrite Hans, data_reads_app, data_reads_report, data_reads_recv. done.
Qed.

Lemma answers_data_next env base h ws cdrom r :
  answers_data env base h ws ->
  answers_data env base (h ++ report_words base cdrom r ++ recv_ops base 256) (fun k => ws (256 + k)%nat).
Proof.
  intros Hans t l. rewrite <- app_assoc, (app_assoc (_ ++ recv_ops base 256)), Hans.
  by rewrite !data_reads_app, data_reads_report, data_reads_recv.
Qed.

Lemma requests_app env id h l req :
  (forall l', requests env id (h ++ l') req) -> forall l', requests env id ((h ++ l) ++ l') req.
Proof. intros H l'. rewrite <- app_assoc. apply H. Qed.

(** The core's words fit the port. *)
Lemma data_words_u16 env base h ws : env_ok env -> answers_data env base h ws -> forall k, is_u16 (ws k).
Proof.
  intros He Hans k. pose proof (Hans 0%nat (recv_ops base k)) as Hk. rewrite data_reads_recv in Hk.
  rewrite <- Hk. apply He.
Qed.

Definition sector_data (ws : nat -> Z) : list Z := map ws (seq 0 256).

(** Announcing a sector: the registers, then the request. *)
Lemma goes_write_open env h s :
  env_ok env -> state_ s = WRITE_REGS -> (irq_pending_ s = 0 \/ irq_pending_ s = 4) ->
  (forall l, requests env (id_ s) (h ++ l) 5) ->
  exists s3,
    goes env h s (h ++ report_words (base_ s) (cdrom_ s) (write_regs s)) s3 (65 * 10) /\
    state_ s3 = WRITE_RECV /\ cnt_ s3 = 0 /\ image_ s3 = image_ s /\ drive_ s3 = drive_ s /\
    base_ s3 = base_ s /\ id_ s3 = id_ s /\ cdrom_ s3 = cdrom_ s /\ regs_ s3 = write_regs s /\
    irq_pending_ s3 = 4 /\
    sector_words_ s3 = sector_window (image_ s) (get_lba (drive_ s) (regs_ s)).
Proof.
  intros He Hst Hirq Hreq. pose proof (goes_write_regs env h s He Hst) as G1.
  destruct (write_opened_fields s) as (O1 & O2 & O3 & O4 & O5 & O6 & O7 & O8 & O9).
  pose proof (goes_report env h (write_opened s) He O8) as G2.
  unfold report_ops in G2. rewrite (report_write_opened s Hirq), O3, O5 in G2.
  change (map _ (seq 0 6)) with (report_words (base_ s) (cdrom_ s) (write_regs s)) in G2.
  destruct (after_report_fields (write_opened s)) as (A1 & A2 & A3 & A4 & A5 & A6 & A7).
  destruct (after_report_more (write_opened s)) as (A8 & A9).
  rewrite (report_write_opened s Hirq) in A6.
  pose proof (goes_trans _ _ _ _ _ _ _ _ _ G1 G2) as G12. clear G1 G2.
  rewrite O1 in A1. rewrite O2 in A2. rewrite O3 in A3. rewrite O4 in A4. rewrite O5 in A5.
  rewrite O6 in A8. rewrite O7 in A9. rewrite O9 in A7. clear O1 O2 O3 O4 O5 O6 O7 O8 O9.
  revert G12 A1 A2 A3 A4 A5 A6 A7 A8 A9. generalize (after_report (write_opened s)).
  intros s2 G12 A1 A2 A3 A4 A5 A6 A7 A8 A9.
  pose proof (goes_write_next env (h ++ report_words (base_ s) (cdrom_ s) (write_regs s)) s2 He A7) as G3.
  rewrite A4 in G3. specialize (G3 (Hreq _)).
  exists (s2 <| cnt_ := 0 |> <| state_ := WRITE_RECV |>).
  split; [|split_and?; assumption || reflexivity].
  eapply goes_le; [eapply goes_trans; [exact G12|exact G3]|clear; lia].
Qed.

(** The registers of the next sector. *)
Lemma next_write_regs s lba :
  ide_ok s -> get_lba (drive_ s) (regs_ s) = lba -> lba + 1 < 268435456 ->
  (irq_pending_ s = 0 \/ irq_pending_ s = 4) ->
  exists r, put_lba (drive_ s) (write_regs s) (u32 (lba + 1)) = Some r /\
    get_lba (drive_ s) r = lba + 1 /\ r_sector_count r = r_sector_count (regs_ s).
Proof.
  intros Hs Hlba Hlt Hirq. pose proof (get_lba_u32 (drive_ s) _ (ok_regs _ Hs)) as Hu.
  rewrite Hlba in Hu. unfold is_u32 in Hu.
  destruct (put_lba_Some (drive_ s) (write_regs s) (u32 (lba + 1))) as (r & Hput & _ & Hget & Hr);
    [apply Hs| |apply u32_range|].
  { unfold write_regs. pose proof (ok_regs _ Hs) as Hro. destruct Hirq as [-> | ->]; regs_width. }
  exists r. split_and?; [done| |by rewrite Hr]. rewrite Hget, u32_id by (unfold is_u32; lia).
  case_bool; [done|apply Z.mod_small; lia].
Qed.

Lemma goes_write_round env h s lba n ws :
  env_ok env -> ide_ok s -> state_ s = WRITE_REGS ->
  r_sector_count (regs_ s) = n -> 1 <= n < 65536 ->
  get_lba (drive_ s) (regs_ s) = lba -> lba + 1 < 268435456 ->
  (irq_pending_ s = 0 \/ irq_pending_ s = 4) ->
  (forall l, requests env (id_ s) (h ++ l) 5) -> answers_data env (base_ s) h ws ->
  exists s1,
    goes env h s
      (h ++ report_words (base_ s) (cdrom_ s) (write_regs s) ++ recv_ops (base_ s) 256) s1 (65 * 267) /\
    image_ s1 = write_sector (image_ s) lba (sector_data ws) /\ drive_ s1 = drive_ s /\
    base_ s1 = base_ s /\ id_ s1 = id_ s /\ cdrom_ s1 = cdrom_ s /\ irq_pending_ s1 = 4 /\
    r_sector_count (regs_ s1) = n - 1 /\ get_lba (drive_ s) (regs_ s1) = lba + 1 /\
    (n <> 1 -> state_ s1 = WRITE_REGS) /\
    (n = 1 -> state_ s1 = SET_REGS /\ next_state_ s1 = IDLE /\ r_status (regs_ s1) = 0x44).
Proof.
  intros He Hs Hst Hn Hmax Hlba Hlt Hirq Hreq Hans.
  pose proof (get_lba_u32 (drive_ s) _ (ok_regs _ Hs)) as Hu. rewrite Hlba in Hu.
  destruct (next_write_regs s lba Hs Hlba Hlt Hirq) as (r & Hput & Hget & Hcnt).
  destruct (goes_write_open env h s He Hst Hirq Hreq)
    as (s3 & G1 & B1 & B2 & B3 & B4 & B5 & B6 & B7 & B8 & B9 & B10).
  assert (Hl1 : get_lba (drive_ s) (write_regs s) = lba) by exact Hlba.
  rewrite Hlba in B10. rewrite Hn in Hcnt.
  assert (Hw3 : window_fits s3).
  { intros off Hoff. rewrite B10 in Hoff. rewrite B3.
    apply sector_window_Some in Hoff as [-> ?]; [unfold is_u32 in Hu; lia|done]. }
  pose proof (goes_write_data env (h ++ report_words (base_ s) (cdrom_ s) (write_regs s)) s3 ws r
    He B1 B2 Hw3) as G2.
  rewrite B4, B5, B8, Hl1 in G2. specialize (G2 (answers_data_report _ _ _ _ _ _ Hans) Hput).
  destruct (stored_fields s3 ws 256) as (S1 & S2 & S3 & S4 & S5 & S6 & _ & _).
  rewrite B3, B10 in S1. rewrite B4 in S2. rewrite B5 in S3. rewrite B6 in S4. rewrite B7 in S5.
  rewrite B9 in S6. revert G2 S1 S2 S3 S4 S5 S6. generalize (stored s3 ws 256).
  intros s4 G2 S1 S2 S3 S4 S5 S6.
  destruct (sector_written_fields s4 r n Hcnt Hmax) as (W1 & W2 & W3 & W4 & W5 & W6 & W7 & W8 & W9 & W10).
  exists (sector_written s4 r). rewrite W1, W2, W3, W4, W5, W6, S1, S2, S3, S4, S5, S6.
  rewrite S2, Hget in W8. split; [|split_and?; done].
  eapply goes_eq; [eapply goes_trans; [exact G1|exact G2]| |done|clear; lia].
  by rewrite <- app_assoc.
Qed.

(** ** The whole command *)

(** What the core sees: registers and data reads in turn, then the final
    registers. *)
Definition collect_ops (base : Z) (cdrom : bool) (regs : list HpsIdeRegs) : list Op :=
  concat (map (fun r => report_words base cdrom r ++ recv_ops base 256) regs).

Definition collect_progress (d : HpsIdeDrive) (lba n : Z) (regs : list HpsIdeRegs) : Prop :=
  Z.of_nat (length regs) = n /\
  forall i r, regs !! i = Some r ->
    get_lba d r = lba + Z.of_nat i /\ r_sector_count r = n - Z.of_nat i /\ r_io_size r = 1 /\
    Z.land (r_status r) (Z.lor ATA_STATUS_RDY ATA_STATUS_DRQ) = 0x48.

(** The disk after [n] sectors of words numbered by [ws]. *)
Fixpoint write_sectors (img : list Z) (lba : Z) (ws : nat -> Z) (n : nat) : list Z :=
  match n with
  | O => img
  | S n => write_sectors (write_sector img lba (sector_data ws)) (lba + 1) (fun k => ws (256 + k)%nat) n
  end.

Lemma collect_cons d lba n r regs :
  get_lba d r = lba -> r_sector_count r = n -> r_io_size r = 1 ->
  Z.land (r_status r) (Z.lor ATA_STATUS_RDY ATA_STATUS_DRQ) = 0x48 ->
  collect_progress d (lba + 1) (n - 1) regs -> collect_progress d lba n (r :: regs).
Proof.
  intros Hl Hn Hio Hst [Hlen Hall]. split; [cbn [length]; lia|].
  intros [|i] x Hx.
  - injection Hx as <-. split_and?; try lia; done.
  - destruct (Hall i x Hx) as (? & ? & ? & ?). split_and?; try lia.
Qed.

Lemma write_regs_status s :
  (irq_pending_ s = 0 \/ irq_pending_ s = 4) ->
  Z.land (r_status (write_regs s)) (Z.lor ATA_STATUS_RDY ATA_STATUS_DRQ) = 0x48.
Proof.
  intros Hirq. change (r_status (write_regs s)) with
    (Z.lor (Z.lor ATA_STATUS_RDY ATA_STATUS_DRQ) (irq_pending_ s)).
  by destruct Hirq as [-> | ->].
Qed.

(** The final report: a disk that expects no data adds DSC. *)
Lemma goes_final_report env h s :
  env_ok env -> cdrom_ s = false -> state_ s = SET_REGS -> next_state_ s = IDLE ->
  r_status (regs_ s) = 0x44 ->
  exists s1, goes env h s
      (h ++ report_words (base_ s) false (regs_ s <| r_status := 0x54 |>)) s1 520 /\
    image_ s1 = image_ s /\ state_ s1 = IDLE.
Proof.
  intros He Hc Hst Hn Hstat. pose proof (goes_report env h s He Hst) as G.
  assert (Hr : report_regs s = regs_ s <| r_status := 0x54 |>).
  { unfold report_regs. by rewrite Hc, Hstat. }
  unfold report_ops in G. rewrite Hr, Hc in G.
  destruct (after_report_fields s) as (Hi & _ & _ & _ & _ & _ & Hs).
  exists (after_report s). rewrite Hi, Hs. done.
Qed.

Lemma goes_write_sectors n : forall env h s lba ws,
  env_ok env -> well_placed h s -> state_ s = WRITE_REGS -> cdrom_ s = false ->
  (forall l, requests env (id_ s) (h ++ l) 5) -> answers_data env (base_ s) h ws ->
  (irq_pending_ s = 0 \/ irq_pending_ s = 4) ->
  r_sector_count (regs_ s) = Z.of_nat (S n) -> Z.of_nat (S n) < 65536 ->
  get_lba (drive_ s) (regs_ s) = lba -> lba + Z.of_nat (S n) < 268435456 ->
  exists regs rf s', collect_progress (drive_ s) lba (Z.of_nat (S n)) regs /\
    get_lba (drive_ s) rf = lba + Z.of_nat (S n) /\ r_sector_count rf = 0 /\ r_status rf = 0x54 /\
    goes env h s (h ++ collect_ops (base_ s) false regs ++ report_words (base_ s) false rf) s'
      (65 * 280 * Z.of_nat (S n)) /\
    image_ s' = write_sectors (image_ s) lba ws (S n) /\ state_ s' = IDLE.
Proof.
  induction n as [|n IH]; intros env h s lba ws He Hp Hst Hcd Hreq Hans Hirq Hn Hmax Hlba Hlt;
    pose proof Hp as (_ & Hs & _);
    (destruct (goes_write_round env h s lba _ ws He Hs Hst Hn) as
       (s1 & G1 & Hi1 & Hd1 & Hb1 & Hid1 & Hc1 & Hirq1 & Hcnt & Hget & Hmore & Hlast);
       [lia|done|lia|done..|]); rewrite Hcd in G1, Hc1.
  - destruct (Hlast eq_refl) as (Hs1 & Hn1 & Hstat).
    set (h1 := h ++ _) in G1.
    destruct (goes_final_report env h1 s1 He Hc1 Hs1 Hn1 Hstat) as (s2 & G2 & Hi2 & Hs2).
    exists [write_regs s], (regs_ s1 <| r_status := 0x54 |>), s2. split_and?; try done.
    + apply collect_cons; try done; by apply write_regs_status.
    + rewrite Hb1 in G2. unfold collect_ops. cbn [map concat]. rewrite app_nil_r.
      eapply goes_eq; [eapply goes_trans; [exact G1|exact G2]| |done|clear; lia].
      unfold h1. by rewrite <- app_assoc.
    + by rewrite Hi2, Hi1.
  - specialize (Hmore ltac:(lia)). set (h1 := h ++ _) in G1.
    assert (Hreq1 : forall l, requests env (id_ s1) (h1 ++ l) 5).
    { rewrite Hid1. by apply requests_app. }
    assert (Hans1 : answers_data env (base_ s1) h1 (fun k => ws (256 + k)%nat)).
    { rewrite Hb1. by apply answers_data_next. }
    pose proof (goes_placed _ _ _ _ _ _ G1 Hp) as Hp1.
    destruct (IH env h1 s1 (lba + 1) _ He Hp1 Hmore Hc1 Hreq1 Hans1 (or_intror Hirq1))
      as (regs & rf & s' & Hprog & Hrf1 & Hrf2 & Hrf3 & G2 & Hi2 & Hs2);
      [lia|lia|by rewrite Hd1|lia|].
    exists (write_regs s :: regs), rf, s'. rewrite Hd1 in Hprog, Hrf1. rewrite Hb1 in G2.
    split_and?; try done.
    + apply collect_cons; try done; [by apply write_regs_status|].
      by replace (Z.of_nat (S (S n)) - 1) with (Z.of_nat (S n)) by lia.
    + rewrite Hrf1. lia.
    + eapply goes_eq; [eapply goes_trans; [exact G1|exact G2]| |done|lia].
      unfold h1, collect_ops. cbn [map concat]. by rewrite <- !app_assoc.
    + rewrite Hi2, Hi1. done.
Qed.

(** ** Reading back *)

Lemma splice_lookup_in {A} o (x l : list A) j :
  (o <= length l)%nat -> (j < length x)%nat -> splice o x l !! (o + j)%nat = x !! j.
Proof.
  intros Ho Hj. unfold splice. rewrite lookup_app_r by (rewrite length_take; lia).
  rewrite length_take, lookup_app_l by lia. f_equal. lia.
Qed.

Lemma splice_lookup_out {A} o (x l : list A) k :
  (o + length x <= length l)%nat -> (k < o \/ o + length x <= k)%nat -> splice o x l !! k = l !! k.
Proof.
  intros Ho [Hk|Hk]; unfold splice.
  - rewrite lookup_app_l by (rewrite length_take; lia). by rewrite lookup_take_lt.
  - rewrite lookup_app_r by (rewrite length_take; lia). rewrite length_take.
    rewrite lookup_app_r by lia. rewrite lookup_drop. f_equal. lia.
Qed.

Lemma words_lookup l i w :
  l !! i = Some w ->
  concat (map (le_bytes 2) l) !! (2 * i)%nat = Some (u8 w) /\
  concat (map (le_bytes 2) l) !! (2 * i + 1)%nat = Some (u8 (w / 256)).
Proof.
  revert i. induction l as [|x l IH]; intros i Hi; [done|]. destruct i as [|i].
  - injection Hi as ->. done.
  - destruct (IH i Hi) as [H1 H2]. cbn [map concat].
    change (le_bytes 2 x) with [u8 x; u8 (x / 256)].
    replace (2 * S i)%nat with (S (S (2 * i))) by lia. done.
Qed.

Lemma word_split w : is_u16 w -> Z.lor (u8 w) (Z.shiftl (u8 (w / 256)) 8) = w.
Proof.
  intros Hw. unfold is_u16 in Hw. rewrite lor_shiftl_add' by (unfold u8; divlia).
  change (2 ^ 8) with 256. unfold u8. divlia.
Qed.

Lemma word_at_written img off ws i w :
  0 <= off -> off + 2 * Z.of_nat (length ws) <= Z.of_nat (length img) -> is_u16 w ->
  ws !! i = Some w -> word_at (write_words img (Some off) ws) (off + 2 * Z.of_nat i) = Some w.
Proof.
  intros H0 Hlen Hw Hi. pose proof (lookup_lt_Some _ _ _ Hi) as Hlt.
  destruct (words_lookup ws i w Hi) as [Hlo Hhi]. unfold word_at, zlookup. cbn [write_words].
  rewrite !(proj2 (Z.leb_le 0 _)) by lia.
  replace (Z.to_nat (off + 2 * Z.of_nat i)) with (Z.to_nat off + 2 * i)%nat by lia.
  replace (Z.to_nat (off + 2 * Z.of_nat i + 1)) with (Z.to_nat off + (2 * i + 1))%nat by lia.
  rewrite !splice_lookup_in, Hlo, Hhi by (rewrite ?length_words; lia).
  cbn [mbind option_bind]. by rewrite word_split.
Qed.

Lemma word_at_kept img off ws k :
  0 <= off -> off + 2 * Z.of_nat (length ws) <= Z.of_nat (length img) -> 0 <= k ->
  (k + 1 < off \/ off + 2 * Z.of_nat (length ws) <= k) ->
  word_at (write_words img (Some off) ws) k = word_at img k.
Proof.
  intros H0 Hlen Hk Hout. unfold word_at, zlookup. cbn [write_words].
  rewrite !(proj2 (Z.leb_le 0 _)) by lia.
  rewrite !splice_lookup_out by (rewrite length_words; lia). done.
Qed.

Lemma sector_window_length img img' lba :
  length img = length img' -> sector_window img lba = sector_window img' lba.
Proof. intros Hl. unfold sector_window. by rewrite Hl. Qed.

Lemma length_write_sector img lba ws :
  is_u32 lba -> length ws = 256%nat -> length (write_sector img lba ws) = length img.
Proof.
  intros Hl Hws. rewrite write_sector_words. apply write_words_length. intros off Hoff.
  apply sector_window_Some in Hoff as [-> ?]; [|done]. unfold is_u32 in Hl. rewrite Hws. lia.
Qed.

(** What was written is read back; every other sector reads as before. *)
Lemma sector_words_write img lba lba' ws :
  is_u32 lba -> is_u32 lba' -> length ws = 256%nat -> Forall is_u16 ws ->
  sector_words (write_sector img lba ws) lba' =
    if (lba' =? lba) && (lba * 512 + 512 <=? Z.of_nat (length img)) then ws else sector_words img lba'.
Proof.
  intros Hl Hl' Hws Hu. pose proof (length_write_sector img lba ws Hl Hws) as Hlen.
  assert (Hsame : forall i, (i < 256)%nat ->
    sector_word (write_sector img lba ws) lba' i =
      if (lba' =? lba) && (lba * 512 + 512 <=? Z.of_nat (length img)) then default 0 (ws !! i)
      else sector_word img lba' i).
  { intros i Hi. unfold sector_word. rewrite (sector_window_length _ img lba' Hlen), write_sector_words.
    unfold is_u32 in Hl, Hl'. assert (E : forall a, 0 <= a < 4294967296 -> u64 ((a + 1) * 512) = (a + 1) * 512)
      by (intros; apply u64_id; unfold is_u64; lia).
    unfold sector_window. rewrite !E by lia.
    destruct (Z.eqb_spec lba' lba) as [->|Hne]; cbn [andb].
    - destruct (lookup_lt_is_Some_2 ws i) as [w Hw]; [lia|].
      assert (is_u16 w) by (by eapply Forall_lookup in Hw).
      destruct (Z.of_nat (length img) <? (lba + 1) * 512) eqn:E1;
        [by rewrite (proj2 (Z.leb_gt _ _)) by lia|].
      rewrite (proj2 (Z.leb_le _ _)), (word_at_written _ _ _ _ w), Hw by (done || lia). done.
    - destruct (Z.of_nat (length img) <? (lba' + 1) * 512) eqn:E1; [done|].
      destruct (Z.of_nat (length img) <? (lba + 1) * 512) eqn:E2; [done|].
      rewrite word_at_kept by (rewrite ?Hws; lia). done. }
  unfold sector_words. case_bool.
  - apply list_eq. intros i. destruct (decide (i < 256)%nat) as [Hi|Hi].
    + rewrite list_lookup_fmap, lookup_seq_lt by lia. cbn [fmap option_fmap option_map].
      rewrite Nat.add_0_l, Hsame by lia.
      destruct (lookup_lt_is_Some_2 ws i) as [w Hw]; [lia|]. by rewrite Hw.
    + rewrite !lookup_ge_None_2; [done|lia|rewrite length_map, length_seq; lia].
  - apply map_ext_in. intros i Hi%in_seq. rewrite Hsame by lia. done.
Qed.

Lemma goes_enter_write env h s :
  env_ok env -> state_ s = WRITE ->
  goes env h s h (s <| irq_pending_ := 0 |> <| state_ := WRITE_REGS |>) 65.
Proof.
  intros He Hst. apply goes_silent; [done|]. intros tb _ _. unfold dispatch. by rewrite Hst.
Qed.

Lemma enter_write_fields s :
  let s1 := s <| irq_pending_ := 0 |> <| state_ := WRITE_REGS |> in
  image_ s1 = image_ s /\ drive_ s1 = drive_ s /\ base_ s1 = base_ s /\ id_ s1 = id_ s /\
  cdrom_ s1 = cdrom_ s /\ regs_ s1 = regs_ s /\ irq_pending_ s1 = 0 /\ state_ s1 = WRITE_REGS.
Proof. done. Qed.

Lemma goes_reaches env h s h' s' n : goes env h s h' s' n -> well_placed h s -> reaches env h s h' s' n.
Proof. intros Hg (Hh & Hs & Hr). by destruct (Hg Hh Hs Hr) as (_ & _ & _ & ?). Qed.

(** The same for a run of sectors. *)
Lemma sector_words_writes n : forall img lba ws lba',
  0 <= lba -> lba + Z.of_nat n < 268435456 -> is_u32 lba' -> (forall k, is_u16 (ws k)) ->
  sector_words (write_sectors img lba ws n) lba' =
    if (lba <=? lba') && (lba' <? lba + Z.of_nat n) && (lba' * 512 + 512 <=? Z.of_nat (length img))
    then sector_data (fun k => ws (256 * Z.to_nat (lba' - lba) + k)%nat) else sector_words img lba'.
Proof.
  induction n as [|n IH]; intros img lba ws lba' H0 Hlt Hl' Hws; cbn [write_sectors].
  - assert (E : (lba <=? lba') && (lba' <? lba + Z.of_nat 0) = false) by lia.
    by rewrite E.
  - assert (Hl : is_u32 lba) by (unfold is_u32; lia).
    assert (Hdata : Forall is_u16 (sector_data ws)) by (apply Forall_map, Forall_true; auto).
    rewrite IH by (auto; lia). rewrite sector_words_write by done.
    rewrite (length_write_sector img lba (sector_data ws) Hl eq_refl).
    destruct (Z.eqb_spec lba' lba) as [->|Hne].
    + rewrite (proj2 (Z.leb_gt (lba + 1) lba)) by lia. rewrite Z.leb_refl. cbn [andb].
      rewrite (proj2 (Z.ltb_lt lba _)) by lia. cbn [andb]. case_bool; [|done].
      by rewrite Z.sub_diag.
    + cbn [andb].
      replace ((lba + 1 <=? lba') && (lba' <? lba + 1 + Z.of_nat n))
        with ((lba <=? lba') && (lba' <? lba + Z.of_nat (S n))) by (apply eq_true_iff_eq; rewrite !andb_true_iff; lia).
      case_bool; [|done]. unfold sector_data. apply map_ext. intros k. f_equal. lia.
Qed.

(** ** Properties *)

Section Commands.
Context (fs_read : list Z -> option (list Z)) (fs_absolute : list Z -> list Z).
Context (Hread : forall p c, fs_read p = Some c -> bytes c).
Context (Habs : forall p, bytes p -> bytes (fs_absolute p)).
Context (env : Env) (h : list Op) (s : HpsIde) (tf : nat -> Z).
Context (He : env_ok env) (Hh : Forall op_ok h).
Context (Hs : reachable fs_read fs_absolute s) (Hr : ready s).
Context (Hst : state_ s = IDLE) (Hbase : base_ s mod 16 = 0).
Context (Hpresent : d_present (drive_ s) = true) (Hdisk : cdrom_ s = false).
Context (Htf : forall k, (k < 6)%nat -> is_u16 (tf k)) (Hdrv : addresses_drive0 tf).
Context (Hcmd : requests env (id_ s) h 4) (Hans : answers env (base_ s) h tf).
Context (Hreq : forall l, requests env (id_ s) (h ++ taskfile_ops (base_ s) ++ l) 5).
Context (Hlba : 0 <= cmd_lba (drive_ s) tf).
Context (Hend : cmd_lba (drive_ s) tf + cmd_count tf < 268435456).

Lemma command_placed : well_placed h s.
Proof. split; [done|]. split; [by eapply reachable_ok|done]. Qed.

Lemma count_nat : exists n, cmd_count tf = Z.of_nat (S n) /\ Z.to_nat (cmd_count tf) = S n.
Proof.
  pose proof (cmd_count_range tf). exists (Z.to_nat (cmd_count tf - 1)). lia.
Qed.

(** C2: READ SECTORS implements the abstract disk.  From an idle device, a core
    that raises the command request, answers the six task-file reads with a
    READ (20h, 21h) of sectors on drive 0 and then requests each data phase
    gets exactly: the words of the addressed sectors in order, LBA or CHS, each
    block followed by a register report with the next address, the count left
    and END on the last; the image is unchanged and the device idle again.
    This takes at most a fixed number of ticks per sector, whatever the
    latency jitter. *)
Theorem read_sectors :
  cmd_code tf = 0x20 \/ cmd_code tf = 0x21 ->
  exists regs s',
    reports_progress (drive_ s) (cmd_lba (drive_ s) tf) (cmd_count tf) regs /\
    reaches env h s
      (h ++ taskfile_ops (base_ s) ++
       transfer_ops (base_ s) false
         (sectors_from (image_ s) (cmd_lba (drive_ s) tf) (Z.to_nat (cmd_count tf))) regs)
      s' (65 * 280 * cmd_count tf) /\
    image_ s' = image_ s /\ state_ s' = IDLE.
Proof.
  intros Hcode. pose proof command_placed as Hp. pose proof (cmd_count_range tf) as Hn.
  destruct (goes_data_command env h s tf He Hp Hst Hbase Hpresent Hdisk Htf Hdrv Hcmd Hans) with (st := READ)
    as (s1 & G1 & (D1 & D2 & D3 & D4 & D5 & D6 & D7) & Hst1); [lia|by left|].
  pose proof (goes_enter_read env (h ++ taskfile_ops (base_ s)) s1 He Hst1) as G2.
  pose proof (goes_trans _ _ _ _ _ _ _ _ _ G1 G2) as G12.
  pose proof (goes_placed _ _ _ _ _ _ G12 Hp) as Hp2.
  destruct count_nat as (n & En & ->).
  destruct (goes_read_sectors n env (h ++ taskfile_ops (base_ s)) (s1 <| state_ := READ_REGS |>)
    (cmd_lba (drive_ s) tf) He Hp2 eq_refl) as (regs & s' & Hprog & G3 & Hi & Hidle).
  - intros l. change (requests env (id_ s1) ((h ++ taskfile_ops (base_ s)) ++ l) 5).
    rewrite D4, <- app_assoc. apply Hreq.
  - change (r_sector_count (regs_ s1) = Z.of_nat (S n)). by rewrite D6.
  - lia.
  - exact D7.
  - lia.
  - exists regs, s'. change (drive_ (s1 <| state_ := READ_REGS |>)) with (drive_ s1) in Hprog.
    change (base_ (s1 <| state_ := READ_REGS |>)) with (base_ s1) in G3.
    change (cdrom_ (s1 <| state_ := READ_REGS |>)) with (cdrom_ s1) in G3.
    change (image_ (s1 <| state_ := READ_REGS |>)) with (image_ s1) in G3, Hi.
    rewrite D1 in Hprog. rewrite D2, D3, D5, Hdisk in G3. rewrite D2 in Hi. rewrite En.
    split_and?; [done| |done|done]. apply goes_reaches; [|exact Hp].
    eapply goes_eq; [eapply goes_trans; [exact G12|exact G3]|by rewrite <- app_assoc|done|lia].
Qed.

(** C1: WRITE SECTORS implements the abstract disk.  With a WRITE (30h, 31h)
    instead, the device reports the registers and reads 256 words before each
    sector, in the order the core supplies them, and reports completion; the
    image becomes the abstract disk after storing those words in the addressed
    sectors, and every sector then reads as the specification says: the stored
    words inside the image, the old ones elsewhere. *)
Theorem write_sectors_command ws :
  cmd_code tf = 0x30 \/ cmd_code tf = 0x31 ->
  answers_data env (base_ s) (h ++ taskfile_ops (base_ s)) ws ->
  exists regs rf s',
    collect_progress (drive_ s) (cmd_lba (drive_ s) tf) (cmd_count tf) regs /\
    get_lba (drive_ s) rf = cmd_lba (drive_ s) tf + cmd_count tf /\ r_sector_count rf = 0 /\
    r_status rf = 0x54 /\
    reaches env h s
      (h ++ taskfile_ops (base_ s) ++ collect_ops (base_ s) false regs ++
       report_words (base_ s) false rf)
      s' (65 * 300 * cmd_count tf) /\
    (forall lba, is_u32 lba ->
     sector_words (image_ s') lba =
       if (cmd_lba (drive_ s) tf <=? lba) && (lba <? cmd_lba (drive_ s) tf + cmd_count tf) &&
          (lba * 512 + 512 <=? Z.of_nat (length (image_ s)))
       then sector_data (fun k => ws (256 * Z.to_nat (lba - cmd_lba (drive_ s) tf) + k)%nat)
       else sector_words (image_ s) lba) /\
    state_ s' = IDLE.
Proof.
  intros Hcode Hdata. pose proof command_placed as Hp. pose proof (cmd_count_range tf) as Hn.
  destruct (goes_data_command env h s tf He Hp Hst Hbase Hpresent Hdisk Htf Hdrv Hcmd Hans) with (st := WRITE)
    as (s1 & G1 & (D1 & D2 & D3 & D4 & D5 & D6 & D7) & Hst1); [lia|by right|].
  pose proof (goes_enter_write env (h ++ taskfile_ops (base_ s)) s1 He Hst1) as G2.
  destruct (enter_write_fields s1) as (F1 & F2 & F3 & F4 & F5 & F6 & F7 & F8).
  revert G2 F1 F2 F3 F4 F5 F6 F7 F8. generalize (s1 <| irq_pending_ := 0 |> <| state_ := WRITE_REGS |>).
  intros s2 G2 F1 F2 F3 F4 F5 F6 F7 F8.
  rewrite D1 in F2. rewrite D2 in F1. rewrite D3 in F3. rewrite D4 in F4. rewrite D5, Hdisk in F5.
  rewrite D1 in D7. rewrite <- F6 in D6, D7. destruct count_nat as (n & En & _).
  pose proof (goes_trans _ _ _ _ _ _ _ _ _ G1 G2) as G12.
  destruct (goes_write_sectors n env (h ++ taskfile_ops (base_ s)) s2 (cmd_lba (drive_ s) tf) ws He
    (goes_placed _ _ _ _ _ _ G12 Hp) F8 F5)
    as (regs & rf & s' & Hprog & Hrf1 & Hrf2 & Hrf3 & G3 & Hi & Hidle).
  - intros l. rewrite F4, <- app_assoc. apply Hreq.
  - by rewrite F3.
  - by left.
  - by rewrite D6.
  - lia.
  - by rewrite F2.
  - lia.
  - exists regs, rf, s'. rewrite F2 in Hprog, Hrf1. rewrite F3 in G3. rewrite F1 in Hi. rewrite En.
    split_and?; try done.
    + apply goes_reaches; [|exact Hp].
      eapply goes_eq; [eapply goes_trans; [exact G12|exact G3]|by rewrite <- app_assoc|done|lia].
    + intros lba Hl. rewrite Hi. apply sector_words_writes; [lia|lia|done|].
      eapply data_words_u16; [exact He|exact Hdata].
Qed.
End Commands.

(** ** The hypotheses can hold: a one-sector disk and a core that reads it or
    fills it with one word *)

Definition demo_image : list Z := replicate 512 0x5A.
Definition demo_files (path : list Z) : option (list Z) := Some demo_image.

Definition opened_disk : HpsIde :=
  match open demo_files same_path (HpsIde_new 0 0xF000) [] with Some (_, s) => s | None => HpsIde_new 0 0 end.

Definition idle_disk : HpsIde :=
  opened_disk <| state_ := IDLE |> <| bus_cooldown_ := true |> <| bus_cooldown_ := false |>.

Definition demo_core (tf ws : nat -> Z) : Env := fun _ h =>
  mkInputs (match last h with
            | Some (Rd a) => if a <? 0xF006 then tf (Z.to_nat (a - 0xF000))
                                  else ws (pred (data_reads 0xF000 h))
            | _ => 0
            end) (match h with [] => 4 | _ => 5 end) 0 0.

Definition demo_taskfile (cmd : Z) (k : nat) : Z :=
  match k with 1%nat => 0x0001 | 5%nat => cmd * 256 + 0xE0 | _ => 0 end.

Lemma demo_bytes p c : demo_files p = Some c -> bytes c.
Proof.
  unfold demo_files. intros H. assert (E : c = demo_image) by congruence.
  rewrite E. apply bytes_replicate. width.
Qed.

Lemma idle_disk_reachable : reachable demo_files same_path idle_disk.
Proof.
  assert (H0 : reachable demo_files same_path opened_disk).
  { eapply (reach_open _ _ 0 0xF000 [] true); [apply bytes_nil|vm_compute; reflexivity]. }
  assert (H1 : reachable demo_files same_path (opened_disk <| state_ := IDLE |> <| bus_cooldown_ := true |>)).
  { eapply (reach_tick _ _ no_jitter _ idle_bus); [exact H0|exact idle_bus_ok|vm_compute; reflexivity]. }
  eapply (reach_tick _ _ no_jitter _ idle_bus); [exact H1|exact idle_bus_ok|vm_compute; reflexivity].
Qed.

Lemma demo_core_ok cmd ws :
  0 <= cmd < 256 -> (forall k, is_u16 (ws k)) -> env_ok (demo_core (demo_taskfile cmd) ws).
Proof.
  intros Hc Hw t h. unfold inputs_ok, demo_core. cbn [in_readdata in_ide0_request in_ide1_request in_fdd_request].
  split_and?; try lia; try (by destruct h).
  destruct (last h) as [[a|a d]|]; [|width..]. case_bool; [|apply Hw].
  unfold demo_taskfile, is_u16. destruct (Z.to_nat (a - 0xF000)) as [|[|[|[|[|[|k]]]]]]; lia.
Qed.

Lemma demo_core_answers cmd ws : answers (demo_core (demo_taskfile cmd) ws) 0xF000 [] (demo_taskfile cmd).
Proof. intros t k Hk. destruct k as [|[|[|[|[|[|k]]]]]]; try reflexivity. lia. Qed.

Lemma demo_core_data cmd ws h :
  data_reads 0xF000 h = 0%nat -> answers_data (demo_core (demo_taskfile cmd) ws) 0xF000 h ws.
Proof.
  intros Hh t l. unfold demo_core. cbn [in_readdata]. rewrite app_assoc, last_snoc.
  rewrite !data_reads_app, Hh. change (data_reads 0xF000 [Rd (u16 (0xF000 + 255))]) with 1%nat.
  rewrite Nat.add_1_r. reflexivity.
Qed.

(** Discharges the hypotheses of a data command on the demonstration disk. *)
Ltac demo_hypotheses :=
  first
    [ apply demo_core_ok; [lia|intros; width]
    | apply demo_core_answers | apply demo_core_data; reflexivity
    | exact idle_disk_reachable
    | by split | by constructor
    | intros l t; reflexivity | intros t; reflexivity
    | intros k Hk; unfold is_u16; destruct k as [|[|[|[|[|[|k]]]]]]; vm_compute; split; congruence
    | vm_compute; reflexivity | vm_compute; congruence
    | left; vm_compute; reflexivity ].

Lemma read_sectors_witness :
  exists regs s',
    reports_progress (drive_ idle_disk) 0 1 regs /\
    reaches (demo_core (demo_taskfile 0x20) (fun _ => 0)) [] idle_disk
      (taskfile_ops 0xF000 ++ transfer_ops 0xF000 false (sectors_from (image_ idle_disk) 0 1) regs)
      s' (65 * 280 * 1) /\
    image_ s' = image_ idle_disk /\ state_ s' = IDLE.
Proof.
  apply (read_sectors demo_files same_path demo_bytes (fun _ H => H)
           (demo_core (demo_taskfile 0x20) (fun _ => 0)) [] idle_disk (demo_taskfile 0x20)); demo_hypotheses.
Defined.

Lemma write_sectors_command_witness :
  exists regs rf s',
    collect_progress (drive_ idle_disk) 0 1 regs /\
    get_lba (drive_ idle_disk) rf = 1 /\ r_sector_count rf = 0 /\ r_status rf = 0x54 /\
    reaches (demo_core (demo_taskfile 0x30) (fun _ => 0xBEEF)) [] idle_disk
      (taskfile_ops 0xF000 ++ collect_ops 0xF000 false regs ++ report_words 0xF000 false rf)
      s' (65 * 300 * 1) /\
    (forall lba, is_u32 lba ->
     sector_words (image_ s') lba =
       if (0 <=? lba) && (lba <? 1) && (lba * 512 + 512 <=? Z.of_nat (length (image_ idle_disk)))
       then sector_data (fun _ => 0xBEEF) else sector_words (image_ idle_disk) lba) /\
    state_ s' = IDLE.
Proof.
  apply (write_sectors_command demo_files same_path demo_bytes (fun _ H => H)
           (demo_core (demo_taskfile 0x30) (fun _ => 0xBEEF)) [] idle_disk (demo_taskfile 0x30))
    with (ws := fun _ => 0xBEEF); demo_hypotheses.
Defined.
