(* ===== verification/IdeAtapi.v ===== *)
(** * ATAPI commands as the core sees them

    Packet delivery, the data-in phases and the CD-ROM read: the device hands
    out the addressed 2048-byte blocks in chunks no larger than the host's
    byte-count limit.  Two behaviours that depend on state left over from an
    earlier command are stated as they are. *)
From S2P Require Import Prelude IdeTypes IdeGeometry IdePacket IdeCommand IdeTick IdeInvariant.
From S2P Require Import IdeSafety IdeProtocol IdeDisk IdeWrite.

(** The 16-bit words of a response. *)
Definition words_of (d : list Z) : list Z := map (buf_word d) (seq 0 (length d / 2)).

(** [n] 2048-byte blocks of the disc from [lba]. *)
Definition cd_bytes (img : list Z) (lba n : Z) : list Z :=
  take (Z.to_nat (n * 2048)) (drop (Z.to_nat (lba * 2048)) img).

(** ** The data-in phase *)

(** The state after a data phase: the registers reported, then waiting. *)
Definition data_sent (s : HpsIde) : HpsIde :=
  s <| cnt_ := 0 |> <| state_ := SET_REGS |> <| next_state_ := PACKET_READ_WAIT_REQ |>.

Lemma dispatch_PACKET_SEND s tb i :
  state_ s = PACKET_SEND -> cnt_ s = Z.of_nat i -> Z.of_nat i < r_pkt_io_size (regs_ s) ->
  2 * r_pkt_io_size (regs_ s) <= Z.of_nat (length (packet_data_ s)) ->
  dispatch s tb = Some (s <| cnt_ := cnt_ s + 1 |>,
                        pulse_write tb (base_ s + 255) (buf_word (packet_data_ s) i)).
Proof.
  intros Hst Hc Hi Hlen. unfold dispatch. rewrite Hst. unfold on_PACKET_SEND, buf_word.
  rewrite (proj2 (Z.ltb_lt _ _)), Hc by lia.
  destruct (word_at_Some (packet_data_ s) (2 * Z.of_nat i)) as [w ->]; [lia..|done].
Qed.

Lemma dispatch_PACKET_SEND_end s tb :
  state_ s = PACKET_SEND -> cnt_ s = r_pkt_io_size (regs_ s) ->
  dispatch s tb = Some (data_sent s, tb).
Proof.
  intros Hst Hc. unfold dispatch. rewrite Hst. unfold on_PACKET_SEND.
  by rewrite Hc, Z.ltb_irrefl.
Qed.

(** A response ready to be sent: its length is even and counted in words. *)
Definition response_ready (s : HpsIde) (d : list Z) : Prop :=
  state_ s = PACKET_SEND /\ cnt_ s = 0 /\ packet_data_ s = d /\
  r_pkt_io_size (regs_ s) = Z.of_nat (length d / 2) /\
  Z.of_nat (length d) = 2 * Z.of_nat (length d / 2).

Lemma data_sent_fields s :
  image_ (data_sent s) = image_ s /\ base_ (data_sent s) = base_ s /\ id_ (data_sent s) = id_ s /\
  cdrom_ (data_sent s) = cdrom_ s /\ regs_ (data_sent s) = regs_ s /\ drive_ (data_sent s) = drive_ s /\
  packet_lba_ (data_sent s) = packet_lba_ s /\ packet_remaining_ (data_sent s) = packet_remaining_ s /\
  packet_size_limit_ (data_sent s) = packet_size_limit_ s /\ state_ (data_sent s) = SET_REGS /\
  next_state_ (data_sent s) = PACKET_READ_WAIT_REQ /\ sense_key_ (data_sent s) = sense_key_ s.
Proof. done. Qed.

Lemma after_report_packet s :
  packet_lba_ (after_report s) = packet_lba_ s /\
  packet_remaining_ (after_report s) = packet_remaining_ s /\
  packet_size_limit_ (after_report s) = packet_size_limit_ s /\
  sense_key_ (after_report s) = sense_key_ s.
Proof. done. Qed.

Lemma report_regs_cdrom s : cdrom_ s = true -> report_regs s = regs_ s.
Proof. intros Hc. unfold report_regs. by rewrite Hc. Qed.

(** The words of the response, then the registers. *)
Lemma goes_data_in env h s d :
  env_ok env -> cdrom_ s = true -> response_ready s d ->
  exists s1,
    goes env h s (h ++ send_ops (base_ s) (words_of d) ++ report_words (base_ s) true (regs_ s)) s1
      (65 * (Z.of_nat (length d / 2) + 9)) /\
    image_ s1 = image_ s /\ base_ s1 = base_ s /\ id_ s1 = id_ s /\ cdrom_ s1 = true /\
    packet_lba_ s1 = packet_lba_ s /\ packet_remaining_ s1 = packet_remaining_ s /\
    packet_size_limit_ s1 = packet_size_limit_ s /\ state_ s1 = PACKET_READ_WAIT_REQ.
Proof.
  intros He Hcd (Hst & Hc & Hd & Hio & Heven).
  assert (G1 : goes env h s (h ++ send_ops (base_ s) (words_of d)) (data_sent s)
                 (65 * (Z.of_nat (length d / 2) + 1))).
  { apply goes_send; [done| |exact Hc| |].
    - intros Hs i. apply buf_word_u16. rewrite <- Hd. apply Hs.
    - intros i tb Hi _. rewrite with_cnt_S, <- Hd.
      apply (dispatch_PACKET_SEND (with_cnt s i) tb i Hst eq_refl).
      + change (r_pkt_io_size (regs_ (with_cnt s i))) with (r_pkt_io_size (regs_ s)). rewrite Hio. lia.
      + change (r_pkt_io_size (regs_ (with_cnt s i))) with (r_pkt_io_size (regs_ s)).
        change (packet_data_ (with_cnt s i)) with (packet_data_ s). rewrite Hio, Hd. lia.
    - intros tb _. apply (dispatch_PACKET_SEND_end (with_cnt s (length d / 2)) tb Hst).
      change (Z.of_nat (length d / 2) = r_pkt_io_size (regs_ s)). by rewrite Hio. }
  destruct (data_sent_fields s) as (F1 & F2 & F3 & F4 & F5 & F6 & F7 & F8 & F9 & F10 & F11 & _).
  revert G1 F1 F2 F3 F4 F5 F6 F7 F8 F9 F10 F11. generalize (data_sent s).
  intros s1 G1 F1 F2 F3 F4 F5 F6 F7 F8 F9 F10 F11.
  pose proof (goes_report env (h ++ send_ops (base_ s) (words_of d)) s1 He F10) as G2.
  unfold report_ops in G2. rewrite report_regs_cdrom, F2, F4, F5, Hcd in G2 by (by rewrite F4).
  destruct (after_report_fields s1) as (A1 & A2 & A3 & A4 & A5 & A6 & A7).
  destruct (after_report_packet s1) as (A8 & A9 & A10 & A11).
  exists (after_report s1). rewrite A1, A3, A4, A5, A7, A8, A9, A10, F1, F2, F3, F4, F7, F8, F9, F11.
  split; [|split_and?; done].
  eapply goes_eq; [eapply goes_trans; [exact G1|exact G2]|by rewrite <- app_assoc|done|lia].
Qed.

(** [send_packet_data] with data the limit allows keeps all of it. *)
Lemma send_packet_data_ready s d :
  Z.of_nat (length d) <= packet_size_limit_ s -> Nat.odd (length d) = false ->
  Z.of_nat (length d) < 131072 ->
  response_ready (send_packet_data s d) d.
Proof.
  intros Hlim Hodd Hlen. unfold send_packet_data; cbv zeta.
  rewrite (proj2 (Z.ltb_ge (packet_size_limit_ s) _)), andb_false_r, Hodd by lia.
  assert (Heven : length d = (2 * (length d / 2))%nat).
  { rewrite <- Nat.negb_even in Hodd. apply negb_false_iff, Nat.even_spec in Hodd as [k Hk].
    rewrite Hk, (Nat.mul_comm 2 k), Nat.div_mul; lia. }
  assert (Hdiv : Z.of_nat (length d) / 2 = Z.of_nat (length d / 2)) by (rewrite Nat2Z.inj_div; done).
  unfold response_ready. split_and?; [done..| |lia].
  cbn -[u16 Z.div Nat.div]. rewrite Hdiv. apply u16_id. unfold is_u16. lia.
Qed.

(** ** CD-ROM reads *)

Lemma cdrom_read_sectors_range s :
  0 < packet_remaining_ s -> 2048 <= packet_size_limit_ s ->
  1 <= cdrom_read_sectors s <= packet_remaining_ s /\ cdrom_read_sectors s <= 8 /\
  cdrom_read_sectors s * 2048 <= packet_size_limit_ s.
Proof.
  intros Hr Hl. unfold cdrom_read_sectors; cbv zeta. rewrite (proj2 (Z.leb_le _ _)) by lia.
  assert (1 <= packet_size_limit_ s / 2048) by divlia.
  assert (packet_size_limit_ s / 2048 * 2048 <= packet_size_limit_ s) by divlia.
  rewrite (proj2 (Z.eqb_neq _ 0)) by lia. nia.
Qed.

Lemma cd_bytes_split img lba k m :
  0 <= lba -> 0 <= k -> 0 <= m -> cd_bytes img lba (k + m) = cd_bytes img lba k ++ cd_bytes img (lba + k) m.
Proof.
  intros Hl Hk Hm. unfold cd_bytes.
  replace (Z.to_nat ((k + m) * 2048)) with (Z.to_nat (k * 2048) + Z.to_nat (m * 2048))%nat by lia.
  replace (Z.to_nat ((lba + k) * 2048)) with (Z.to_nat (lba * 2048) + Z.to_nat (k * 2048))%nat by lia.
  rewrite <- drop_drop. symmetry. apply take_take_drop.
Qed.

Lemma length_cd_bytes img lba n :
  0 <= lba -> 0 <= n -> (lba + n) * 2048 <= Z.of_nat (length img) ->
  Z.of_nat (length (cd_bytes img lba n)) = n * 2048.
Proof. intros Hl Hn Hlen. unfold cd_bytes. rewrite length_take, length_drop. lia. Qed.

(** One chunk: as many blocks as the limit allows, none lost. *)
Definition chunk_prepared (s s1 : HpsIde) (k : Z) : Prop :=
  response_ready s1 (cd_bytes (image_ s) (packet_lba_ s) k) /\
  image_ s1 = image_ s /\ base_ s1 = base_ s /\ id_ s1 = id_ s /\ cdrom_ s1 = cdrom_ s /\
  packet_lba_ s1 = packet_lba_ s + k /\ packet_remaining_ s1 = packet_remaining_ s - k /\
  packet_size_limit_ s1 = packet_size_limit_ s /\
  r_cylinder (regs_ s1) = k * 2048 /\ r_status (regs_ s1) = 0x4C /\
  r_sector_count (regs_ s1) = 2 /\ r_error (regs_ s1) = 0.

Lemma send_packet_data_fields s d :
  Z.of_nat (length d) <= packet_size_limit_ s -> Nat.odd (length d) = false ->
  Z.of_nat (length d) < 4294967296 ->
  let s1 := send_packet_data s d in
  image_ s1 = image_ s /\ base_ s1 = base_ s /\ id_ s1 = id_ s /\ cdrom_ s1 = cdrom_ s /\
  packet_lba_ s1 = packet_lba_ s /\ packet_remaining_ s1 = packet_remaining_ s /\
  packet_size_limit_ s1 = packet_size_limit_ s /\
  r_cylinder (regs_ s1) = Z.of_nat (length d) /\ r_status (regs_ s1) = 0x4C /\
  r_sector_count (regs_ s1) = 2 /\ r_error (regs_ s1) = 0.
Proof.
  intros Hlim Hodd Hlen. unfold send_packet_data; cbv zeta.
  rewrite (proj2 (Z.ltb_ge (packet_size_limit_ s) _)), andb_false_r, Hodd by lia.
  split_and?; try done. cbn -[u32]. apply u32_id. unfold is_u32. lia.
Qed.

Lemma prepare_chunk s :
  is_u32 (packet_lba_ s) -> 0 < packet_remaining_ s < 4294967296 ->
  packet_lba_ s + packet_remaining_ s < 4294967296 ->
  (packet_lba_ s + packet_remaining_ s) * 2048 <= Z.of_nat (length (image_ s)) ->
  2048 <= packet_size_limit_ s < 65536 ->
  chunk_prepared s (prepare_cdrom_read s) (cdrom_read_sectors s).
Proof.
  intros Hl Hr Hsum Himg Hlim. unfold is_u32 in Hl.
  destruct (cdrom_read_sectors_range s) as (Hk & Hk8 & Hkl); [lia..|].
  unfold prepare_cdrom_read. rewrite (proj2 (Z.eqb_neq _ 0)) by lia. cbv zeta.
  set (k := cdrom_read_sectors s) in *.
  rewrite !u64_id by (rewrite ?u64_id; unfold is_u64; lia).
  rewrite (proj2 (Z.ltb_ge _ _)) by lia.
  change (take _ (drop _ (image_ s))) with (cd_bytes (image_ s) (packet_lba_ s) k).
  assert (Hlen : Z.of_nat (length (cd_bytes (image_ s) (packet_lba_ s) k)) = k * 2048)
    by (apply length_cd_bytes; lia).
  assert (Hodd : Nat.odd (length (cd_bytes (image_ s) (packet_lba_ s) k)) = false).
  { replace (length (cd_bytes (image_ s) (packet_lba_ s) k)) with (2 * (Z.to_nat (k * 1024)))%nat by lia.
    by rewrite Nat.odd_mul. }
  rewrite (u32_id (packet_lba_ s + k)), (u32_id (packet_remaining_ s - k)) by (unfold is_u32; lia).
  set (s0 := s <| packet_lba_ := packet_lba_ s + k |> <| packet_remaining_ := packet_remaining_ s - k |>).
  assert (Hs0 : packet_size_limit_ s0 = packet_size_limit_ s) by done.
  split; [apply send_packet_data_ready; lia || done|].
  destruct (send_packet_data_fields s0 (cd_bytes (image_ s) (packet_lba_ s) k))
    as (F1 & F2 & F3 & F4 & F5 & F6 & F7 & F8 & F9 & F10 & F11); [lia|done|lia|].
  rewrite F1, F2, F3, F4, F5, F6, F7, F8, F9, F10, F11. split_and?; done.
Qed.

Lemma goes_packet_next env h s s1 :
  env_ok env -> state_ s = PACKET_READ_WAIT_REQ -> requests env (id_ s) h 5 ->
  s1 = (if negb (packet_remaining_ s =? 0) then prepare_cdrom_read s else finish_packet_ok s) ->
  goes env h s h s1 65.
Proof.
  intros He Hst Hreq ->. apply goes_silent; [done|]. intros tb _ Htb. unfold dispatch. rewrite Hst.
  unfold on_PACKET_READ_WAIT_REQ, wait_req. by rewrite (request_at env h s tb 5 Htb Hreq).
Qed.

(** The end of a packet command: the completion report, then idle. *)
Lemma goes_finish env h s key asc ascq extra :
  env_ok env -> cdrom_ s = true ->
  let f := finish_packet s key asc ascq extra in
  goes env h f (h ++ report_words (base_ s) true (regs_ f)) (after_report f) 520 /\
  image_ (after_report f) = image_ s /\ state_ (after_report f) = IDLE /\
  sense_key_ (after_report f) = key.
Proof.
  intros He Hc f. assert (Hf : cdrom_ f = true) by exact Hc.
  split; [|split_and?; done].
  pose proof (goes_report env h f He eq_refl) as G.
  unfold report_ops in G. rewrite report_regs_cdrom, Hf in G by done. exact G.
Qed.

(** The reports of the data phases. *)
Definition chunk_report (c : list Z) (r : HpsIdeRegs) : Prop :=
  r_cylinder r = Z.of_nat (length c) /\ r_status r = 0x4C /\ r_sector_count r = 2 /\ r_error r = 0.

Definition read_finished (r : HpsIdeRegs) : Prop :=
  r_status r = 0x44 /\ r_sector_count r = 3 /\ r_error r = 0 /\ r_pkt_io_size r = 0.

Lemma finish_read s : read_finished (regs_ (finish_packet_ok s)).
Proof. done. Qed.

(** One data phase, and the request after it. *)
Lemma goes_chunk env h s0 :
  env_ok env -> cdrom_ s0 = true -> is_u32 (packet_lba_ s0) -> 0 < packet_remaining_ s0 < 4294967296 ->
  packet_lba_ s0 + packet_remaining_ s0 < 4294967296 ->
  (packet_lba_ s0 + packet_remaining_ s0) * 2048 <= Z.of_nat (length (image_ s0)) ->
  2048 <= packet_size_limit_ s0 < 65536 -> (forall l, requests env (id_ s0) (h ++ l) 5) ->
  let k := cdrom_read_sectors s0 in
  let c := cd_bytes (image_ s0) (packet_lba_ s0) k in
  exists r s1, chunk_report c r /\
    goes env h (prepare_cdrom_read s0)
      (h ++ send_ops (base_ s0) (words_of c) ++ report_words (base_ s0) true r)
      (if negb (packet_remaining_ s1 =? 0) then prepare_cdrom_read s1 else finish_packet_ok s1)
      (65 * (1024 * k + 10)) /\
    image_ s1 = image_ s0 /\ base_ s1 = base_ s0 /\ id_ s1 = id_ s0 /\ cdrom_ s1 = true /\
    packet_lba_ s1 = packet_lba_ s0 + k /\ packet_remaining_ s1 = packet_remaining_ s0 - k /\
    packet_size_limit_ s1 = packet_size_limit_ s0.
Proof.
  intros He Hcd Hl Hr Hsum Himg Hlim Hreq k c.
  destruct (cdrom_read_sectors_range s0) as (Hk & _ & _); [lia..|].
  destruct (prepare_chunk s0 Hl Hr Hsum Himg Hlim)
    as (Hready & P1 & P2 & P3 & P4 & P5 & P6 & P7 & P8 & P9 & P10 & P11).
  fold k in Hready, P5, P6, P8, Hk. fold c in Hready. rewrite Hcd in P4.
  assert (Hlen : Z.of_nat (length c) = k * 2048).
  { apply length_cd_bytes; unfold is_u32 in Hl; lia. }
  destruct (goes_data_in env h _ c He P4 Hready)
    as (s1 & G1 & F1 & F2 & F3 & F4 & F5 & F6 & F7 & F8).
  set (h1 := h ++ _) in G1.
  assert (Hreq1 : requests env (id_ s1) h1 5) by (rewrite F3, P3; apply Hreq).
  pose proof (goes_packet_next env h1 s1 _ He F8 Hreq1 eq_refl) as G2.
  exists (regs_ (prepare_cdrom_read s0)), s1.
  split; [unfold chunk_report; rewrite P8; split_and?; lia || done|].
  split; [|split_and?; congruence].
  eapply goes_eq; [eapply goes_trans; [exact G1|exact G2]| |done|].
  - unfold h1. by rewrite P2.
  - rewrite Nat2Z.inj_div, Hlen. divlia.
Qed.

Lemma goes_cd_read n : forall env h s0,
  Z.of_nat n = packet_remaining_ s0 ->
  env_ok env -> cdrom_ s0 = true -> is_u32 (packet_lba_ s0) -> 0 < packet_remaining_ s0 < 4294967296 ->
  packet_lba_ s0 + packet_remaining_ s0 < 4294967296 ->
  (packet_lba_ s0 + packet_remaining_ s0) * 2048 <= Z.of_nat (length (image_ s0)) ->
  2048 <= packet_size_limit_ s0 < 65536 -> (forall l, requests env (id_ s0) (h ++ l) 5) ->
  exists chunks regs rf s',
    concat chunks = cd_bytes (image_ s0) (packet_lba_ s0) (packet_remaining_ s0) /\
    Forall (fun c => 0 < Z.of_nat (length c) <= packet_size_limit_ s0) chunks /\
    Forall2 chunk_report chunks regs /\ read_finished rf /\
    goes env h (prepare_cdrom_read s0)
      (h ++ transfer_ops (base_ s0) true (map words_of chunks) regs ++ report_words (base_ s0) true rf)
      s' (65 * (1034 * packet_remaining_ s0 + 8)) /\
    image_ s' = image_ s0 /\ state_ s' = IDLE /\ sense_key_ s' = 0.
Proof.
  induction (lt_wf n) as [n _ IH]. intros env h s0 Hn He Hcd Hl Hr Hsum Himg Hlim Hreq.
  destruct (cdrom_read_sectors_range s0) as (Hk & _ & Hkl); [lia..|].
  destruct (goes_chunk env h s0 He Hcd Hl Hr Hsum Himg Hlim Hreq)
    as (r & s1 & Hrep & G1 & F1 & F2 & F3 & F4 & F5 & F6 & F7).
  assert (Hlen : Z.of_nat (length (cd_bytes (image_ s0) (packet_lba_ s0) (cdrom_read_sectors s0))) =
    cdrom_read_sectors s0 * 2048) by (apply length_cd_bytes; unfold is_u32 in Hl; lia).
  set (k := cdrom_read_sectors s0) in *. set (c := cd_bytes (image_ s0) (packet_lba_ s0) k) in *.
  set (h1 := h ++ _) in G1.
  assert (Hreq1 : forall l, requests env (id_ s1) (h1 ++ l) 5) by (rewrite F3; by apply requests_app).
  rewrite F6 in G1. destruct (Z.eqb_spec (packet_remaining_ s0 - k) 0) as [E|E]; cbn [negb] in G1.
  - destruct (goes_finish env h1 s1 0 0 0 0 He F4) as (G2 & Hi2 & Hs2 & Hkey2). rewrite F2 in G2.
    exists [c], [r], (regs_ (finish_packet_ok s1)), (after_report (finish_packet_ok s1)).
    assert (Ek : packet_remaining_ s0 = k) by lia. rewrite Ek.
    split_and?; [cbn [concat]; by rewrite app_nil_r|apply Forall_singleton; lia|by apply Forall2_cons|apply finish_read| |
      exact (eq_trans Hi2 F1)|done|done].
    eapply goes_eq; [eapply goes_trans; [exact G1|exact G2]| |done|lia].
    unfold h1. cbn [map transfer_ops]. by rewrite <- !app_assoc.
  - destruct (IH (Z.to_nat (packet_remaining_ s0 - k))) with (env := env) (h := h1) (s0 := s1)
      as (chunks & regs & rf & s' & Hcat & Hsz & Hreps & Hfin & G2 & Hi2 & Hs2 & Hkey2);
      try (rewrite ?F1, ?F5, ?F6, ?F7; unfold is_u32 in *; lia || assumption).
    rewrite F1, F2, F5, F6, F7 in *.
    exists (c :: chunks), (r :: regs), rf, s'. split_and?; try done.
    + cbn [concat]. rewrite Hcat. unfold c. rewrite <- cd_bytes_split by (unfold is_u32 in *; lia).
      f_equal. lia.
    + constructor; [lia|exact Hsz].
    + by constructor.
    + eapply goes_eq; [eapply goes_trans; [exact G1|exact G2]| |done|lia].
      unfold h1. cbn [map transfer_ops]. by rewrite <- !app_assoc.
Qed.

(** ** Receiving a packet *)

Definition receiving_packet (s : HpsIde) (ws : nat -> Z) (i : nat) : HpsIde :=
  s <| packet_ := write_words (replicate 12 0) (Some 0) (map ws (seq 0 (pred i))) |>
    <| cnt_ := Z.of_nat i |> <| state_ := PACKET_RECV |>.

Definition packet_bytes (ws : nat -> Z) : list Z := concat (map (le_bytes 2) (map ws (seq 0 6))).

Definition packet_received (s : HpsIde) (ws : nat -> Z) : HpsIde :=
  s <| packet_ := packet_bytes ws |> <| cnt_ := 0 |> <| state_ := PACKET_HANDLE |>.

(** The packet with word [i - 1] stored, when [i] words have been requested. *)
Lemma recv_packet_word s ws i d :
  (i <= 6)%nat -> (i = 0%nat \/ d = ws (pred i)) ->
  (if 0 <? Z.of_nat i
   then store_word (packet_ (receiving_packet s ws i)) ((Z.of_nat i - 1) * 2) d
   else Some (packet_ (receiving_packet s ws i))) =
  Some (write_words (replicate 12 0) (Some 0) (map ws (seq 0 i))).
Proof.
  intros Hi Hd. destruct i as [|i]; [done|]. rewrite (proj2 (Z.ltb_lt _ _)) by lia.
  destruct Hd as [|Hd]; [done|]. rewrite Hd. cbn [pred].
  change (packet_ (receiving_packet s ws (S i))) with
    (write_words (replicate 12 0) (Some 0) (map ws (seq 0 i))).
  replace ((Z.of_nat (S i) - 1) * 2) with (0 + 2 * Z.of_nat (length (map ws (seq 0 i))))
    by (rewrite length_map, length_seq; lia).
  rewrite store_word_next by (rewrite ?length_map, ?length_seq, ?length_replicate; lia).
  by rewrite seq_S, map_app.
Qed.

Lemma packet_complete ws : write_words (replicate 12 0) (Some 0) (map ws (seq 0 6)) = packet_bytes ws.
Proof. reflexivity. Qed.

Lemma goes_receive_packet env h s ws :
  env_ok env -> state_ s = PACKET_WAIT_REQ -> requests env (id_ s) h 5 ->
  (forall t i, (i < 6)%nat -> in_readdata (env t (h ++ recv_ops (base_ s) (S i))) = ws i) ->
  goes env h s (h ++ recv_ops (base_ s) 6 ++ [Wr (u16 (base_ s + 7)) 0]) (packet_received s ws) (65 * 8).
Proof.
  intros He Hst Hreq Hans.
  assert (G0 : goes env (h ++ recv_ops (base_ s) 0) s (h ++ recv_ops (base_ s) 0) (receiving_packet s ws 0) 65).
  { cbn [recv_ops replicate]. rewrite app_nil_r. apply goes_silent; [done|]. intros tb _ Htb.
    unfold dispatch. rewrite Hst. unfold on_PACKET_WAIT_REQ, wait_req.
    by rewrite (request_at env h s tb 5 Htb Hreq). }
  assert (Hd : forall i tb, (i <= 6)%nat -> at_handler env (h ++ recv_ops (base_ s) i) tb ->
    (i = 0%nat \/ mgmt_readdata tb = ws (pred i))).
  { intros [|i] tb Hi Htb; [by left|right]. destruct Htb as (_ & _ & _ & _ & _ & t & Hd & _).
    rewrite Hd. apply Hans. lia. }
  assert (G1 : goes env (h ++ recv_ops (base_ s) 0) (receiving_packet s ws 0)
                 (h ++ recv_ops (base_ s) 6) (receiving_packet s ws 6) (Z.of_nat 6 * 65)).
  { apply (goes_loop env (fun i => h ++ recv_ops (base_ s) i) (receiving_packet s ws) 65 6).
    intros i Hi. rewrite recv_ops_S, app_assoc. apply goes_read; [done|]. intros tb _ Htb.
    change (dispatch (receiving_packet s ws i) tb) with (on_PACKET_RECV (receiving_packet s ws i) tb).
    unfold on_PACKET_RECV. change (cnt_ (receiving_packet s ws i)) with (Z.of_nat i).
    rewrite recv_packet_word by (lia || auto with lia). cbn [mbind option_bind].
    change (cnt_ (receiving_packet s ws i <| packet_ := write_words (replicate 12 0) (Some 0) (map ws (seq 0 i)) |>))
      with (Z.of_nat i). rewrite (proj2 (Z.ltb_lt _ _)) by lia.
    unfold receiving_packet. cbn [pred]. rewrite Nat2Z.inj_succ. reflexivity. }
  assert (G2 : goes env (h ++ recv_ops (base_ s) 6) (receiving_packet s ws 6)
                 ((h ++ recv_ops (base_ s) 6) ++ [Wr (u16 (base_ s + 7)) 0]) (packet_received s ws) 65).
  { apply goes_write; [done|intros _; width|]. intros tb _ Htb.
    change (dispatch (receiving_packet s ws 6) tb) with (on_PACKET_RECV (receiving_packet s ws 6) tb).
    unfold on_PACKET_RECV. change (cnt_ (receiving_packet s ws 6)) with (Z.of_nat 6).
    rewrite recv_packet_word by (lia || auto with lia). reflexivity. }
  cbn [recv_ops replicate] in G0. rewrite app_nil_r in G0.
  change (h ++ recv_ops (base_ s) 0) with (h ++ []) in G1. rewrite app_nil_r in G1.
  eapply goes_eq; [eapply goes_trans; [exact G0|eapply goes_trans; [exact G1|exact G2]]| |done|lia].
  by rewrite <- app_assoc.
Qed.

(** ** A whole packet command *)

(** The host's byte-count limit: the cylinder word, 16384 when zero. *)
Definition byte_limit (tf : nat -> Z) : Z := if tf 2%nat =? 0 then 16384 else tf 2%nat.

(** The registers that ask for the packet. *)
Definition packet_regs (s : HpsIde) : HpsIdeRegs :=
  regs_ s <| r_pkt_io_size := 6 |> <| r_sector_count := 1 |> <| r_error := 0 |>
          <| r_status := Z.lor ATA_STATUS_RDY ATA_STATUS_DRQ |>.

Definition packet_asked (s : HpsIde) (limit : Z) : HpsIde :=
  set_regs_then PACKET_WAIT_REQ (s <| packet_size_limit_ := limit |>) (packet_regs s).

Lemma dispatch_packet_cmd s tb :
  state_ s = DO_CMD -> d_present (drive_ s) = true -> r_drv (regs_ s) = 0 -> cdrom_ s = true ->
  cmd_ s = 0xA0 -> Z.land (features_ s) 1 = 0 ->
  dispatch s tb = Some (packet_asked s (let l := u16 (r_cylinder (regs_ s)) in if l =? 0 then 16384 else l), tb).
Proof.
  intros Hst Hp Hd Hc Hcmd Hf. unfold dispatch. rewrite Hst. unfold on_DO_CMD, handle_cmd.
  rewrite Hp, Hd, Hc. cbn [negb orb Z.eqb mbind option_bind]. unfold handle_cdrom_cmd.
  rewrite Hcmd, Hf. reflexivity.
Qed.

Lemma packet_asked_fields s limit :
  image_ (packet_asked s limit) = image_ s /\ drive_ (packet_asked s limit) = drive_ s /\
  base_ (packet_asked s limit) = base_ s /\ id_ (packet_asked s limit) = id_ s /\
  cdrom_ (packet_asked s limit) = cdrom_ s /\ regs_ (packet_asked s limit) = packet_regs s /\
  packet_size_limit_ (packet_asked s limit) = limit /\ state_ (packet_asked s limit) = SET_REGS /\
  next_state_ (packet_asked s limit) = PACKET_WAIT_REQ.
Proof. done. Qed.

Lemma packet_received_fields s ws :
  image_ (packet_received s ws) = image_ s /\ base_ (packet_received s ws) = base_ s /\
  id_ (packet_received s ws) = id_ s /\ cdrom_ (packet_received s ws) = cdrom_ s /\
  packet_ (packet_received s ws) = packet_bytes ws /\
  packet_size_limit_ (packet_received s ws) = packet_size_limit_ s /\
  state_ (packet_received s ws) = PACKET_HANDLE.
Proof. done. Qed.

(** A CD-ROM command [0xA0] without overlap or DMA, for drive 0. *)
Definition packet_command (tf : nat -> Z) : Prop :=
  cmd_code tf = 0xA0 /\ addresses_drive0 tf /\ (tf 0%nat / 256) mod 2 = 0.

Section PacketCommand.
Context (env : Env) (h : list Op) (s : HpsIde) (tf ws : nat -> Z).
Context (He : env_ok env) (Hp : well_placed h s) (Hst : state_ s = IDLE) (Hbase : base_ s mod 16 = 0).
Context (Hpresent : d_present (drive_ s) = true) (Hdisc : cdrom_ s = true).
Context (Htf : forall k, (k < 6)%nat -> is_u16 (tf k)) (Hpk : packet_command tf).
Context (Hcmd : requests env (id_ s) h 4) (Hans : answers env (base_ s) h tf).
Context (Hreq : forall l, requests env (id_ s) (h ++ taskfile_ops (base_ s) ++ l) 5).
Context (Hdata : answers_data env (base_ s) (h ++ taskfile_ops (base_ s)) ws).

(** From IDLE to the packet in the device. *)
Lemma goes_packet_command :
  exists r s1,
    goes env h s
      (h ++ taskfile_ops (base_ s) ++ report_words (base_ s) true r ++
       recv_ops (base_ s) 6 ++ [Wr (u16 (base_ s + 7)) 0]) s1 (65 * 25) /\
    r_status r = 0x48 /\ r_pkt_io_size r = 6 /\ r_sector_count r = 1 /\ r_error r = 0 /\
    image_ s1 = image_ s /\ base_ s1 = base_ s /\ id_ s1 = id_ s /\ cdrom_ s1 = true /\
    packet_ s1 = packet_bytes ws /\ packet_size_limit_ s1 = byte_limit tf /\
    state_ s1 = PACKET_HANDLE.
Proof.
  destruct Hpk as (Hcode & Hdrv & Hfeat).
  pose proof (goes_command env h s tf He Hst Hbase Hcmd Hans) as G1.
  pose proof (latched_fields tf s Htf) as (E1 & E2 & E3 & E4 & E5 & E6 & E7 & _ & _ & E10 & _ & E12 & _ & E14).
  revert G1 E1 E2 E3 E4 E5 E6 E7 E10 E12 E14. generalize (latched tf 6 s).
  intros s2 G1 E1 E2 E3 E4 E5 E6 E7 E10 E12 E14.
  set (h1 := h ++ taskfile_ops (base_ s)) in *.
  assert (Hlim : (let l := u16 (r_cylinder (regs_ s2)) in if l =? 0 then 16384 else l) = byte_limit tf).
  { unfold byte_limit. cbv zeta. unfold u16. by rewrite E10. }
  assert (G2 : goes env h1 s2 h1 (packet_asked s2 (byte_limit tf)) 65).
  { apply goes_silent; [done|]. intros tb _ _. rewrite <- Hlim. unfold addresses_drive0 in Hdrv.
    apply dispatch_packet_cmd; try congruence.
    change 1 with (Z.ones 1). rewrite E14, Z.land_ones by lia. exact Hfeat. }
  destruct (packet_asked_fields s2 (byte_limit tf)) as (F1 & F2 & F3 & F4 & F5 & F6 & F7 & F8 & F9).
  revert G2 F1 F2 F3 F4 F5 F6 F7 F8 F9. generalize (packet_asked s2 (byte_limit tf)).
  intros s3 G2 F1 F2 F3 F4 F5 F6 F7 F8 F9.
  pose proof (goes_report env h1 s3 He F8) as G3. unfold report_ops in G3.
  assert (Hcd3 : cdrom_ s3 = true) by congruence. assert (Hb3 : base_ s3 = base_ s) by congruence.
  rewrite report_regs_cdrom, Hcd3, Hb3, F6 in G3 by done.
  destruct (after_report_fields s3) as (A1 & A2 & A3 & A4 & A5 & A6 & A7).
  destruct (after_report_packet s3) as (_ & _ & A10 & _).
  revert G3 A1 A2 A3 A4 A5 A6 A7 A10. generalize (after_report s3).
  intros s4 G3 A1 A2 A3 A4 A5 A6 A7 A10. rewrite F9 in A7.
  set (r := packet_regs s2) in *. set (h2 := h1 ++ _) in G3.
  assert (Hb4 : base_ s4 = base_ s) by congruence. assert (Hi4 : id_ s4 = id_ s) by congruence.
  pose proof (goes_receive_packet env h2 s4 ws He A7) as G4. rewrite Hb4, Hi4 in G4.
  destruct (packet_received_fields s4 ws) as (P1 & P2 & P3 & P4 & P5 & P6 & P7).
  exists r, (packet_received s4 ws). rewrite P1, P2, P3, P4, P5, P6, P7.
  split; [|split_and?; try done; congruence].
  eapply goes_eq; [eapply goes_trans; [exact G1|eapply goes_trans; [exact G2|eapply goes_trans; [exact G3|
    apply G4]]]| |done|lia].
  - unfold h2, h1. rewrite <- app_assoc. apply Hreq.
  - intros t i Hi. unfold h2.
    apply (answers_data_report env (base_ s) h1 ws true r Hdata). lia.
  - unfold h2, h1. by rewrite <- !app_assoc.
Qed.
End PacketCommand.

(** READ(10) and READ(12): block address and count. *)
Definition cdb_read (p : list Z) : option (Z * Z) :=
  match p with
  | [op; _; a; b; c; d; e; f; g; i; _; _] =>
    let lba := a * 16777216 + b * 65536 + c * 256 + d in
    if op =? 0x28 then Some (lba, f * 256 + g)
    else if op =? 0xA8 then Some (lba, e * 16777216 + f * 65536 + g * 256 + i)
    else None
  | _ => None
  end.

Lemma handle_packet_read s lba n :
  bytes (packet_ s) -> cdb_read (packet_ s) = Some (lba, n) ->
  handle_packet s = prepare_cdrom_read (s <| packet_lba_ := lba |> <| packet_remaining_ := n |>) /\
  is_u32 lba /\ is_u32 n.
Proof.
  intros Hb. pose proof (be32_val s 2 Hb) as H2. pose proof (be32_val s 6 Hb) as H6.
  pose proof (be16_val s 7 Hb) as H7. pose proof (be32_u32 s 2 Hb). pose proof (be32_u32 s 6 Hb).
  pose proof (be16_u16 s 7) as H16.
  unfold handle_packet; cbv zeta. unfold pk in *.
  destruct (packet_ s) as [|op [|x1 [|a [|b [|c [|d [|e [|f [|g [|i [|x2 [|x3 [|]]]]]]]]]]]]]; try done.
  cbn in H2, H6, H7. cbn [lookup list_lookup default from_option id cdb_read].
  intros Hr. rewrite <- H2, <- H6, <- H7 in Hr.
  destruct (Z.eqb_spec op 0x28) as [->|H28]; [|destruct (Z.eqb_spec op 0xA8) as [->|]; [|done]];
    injection Hr as <- <-; (split; [done|]); unfold is_u16, is_u32 in *; lia.
Qed.

(** ** Responses and errors *)

(** What a command may return, as the packet bounds it. *)
Definition allocation (s : HpsIde) : Z :=
  let op := pk s 0 in
  if (op =? 0x03) || (op =? 0x12) then pk s 4
  else if op =? 0x25 then 8
  else if (op =? 0x28) || (op =? 0xA8) then 16384
  else be16 s 7.

Lemma send_packet_data_size s d :
  0 <= packet_size_limit_ s -> Z.of_nat (length d) < 65536 ->
  let s1 := send_packet_data s d in
  let n := Z.of_nat (length (packet_data_ s1)) in
  r_cylinder (regs_ s1) = n /\ n = 2 * r_pkt_io_size (regs_ s1) /\
  n <= Z.of_nat (length d) + 1 /\ (packet_size_limit_ s <> 0 -> n <= packet_size_limit_ s + 1).
Proof.
  intros Hlim Hlen. unfold send_packet_data; cbv zeta.
  set (d1 := if negb _ && _ then _ else _).
  assert (Hd1 : Z.of_nat (length d1) <= Z.of_nat (length d) /\
    (packet_size_limit_ s <> 0 -> Z.of_nat (length d1) <= packet_size_limit_ s)).
  { unfold d1. destruct (packet_size_limit_ s =? 0) eqn:E0; cbn [negb andb]; [lia|].
    case_bool; rewrite ?length_resize; lia. }
  clearbody d1. set (d2 := if Nat.odd (length d1) then _ else _).
  assert (Hd2 : exists k, length d2 = (2 * k)%nat /\ (length d2 <= length d1 + 1)%nat).
  { unfold d2. destruct (Nat.odd (length d1)) eqn:Eo.
    - apply Nat.odd_spec in Eo as [k Hk]. exists (S k). rewrite length_app. cbn [length]. lia.
    - rewrite <- Nat.negb_even in Eo. apply negb_false_iff, Nat.even_spec in Eo as [k Hk]. exists k. lia. }
  clearbody d2. destruct Hd2 as (k & Hk & Hle). cbn [packet_data_ regs_ set_field].
  cbn -[u16 u32 Z.div]. rewrite Hk. rewrite u32_id by (unfold is_u32; lia).
  rewrite u16_id by (unfold is_u16; divlia). split_and?; try lia; divlia.
Qed.

Lemma length_clip_le n d : 0 <= n -> Z.of_nat (length (clip n d)) <= n /\
  Z.of_nat (length (clip n d)) <= Z.of_nat (length d).
Proof. intros Hn. rewrite length_clip by done. lia. Qed.

Lemma finish_not_sending s key asc ascq extra : state_ (finish_packet s key asc ascq extra) <> PACKET_SEND.
Proof. done. Qed.

(** The size of each response before [send_packet_data]. *)
Lemma response_sizes s :
  bytes (packet_ s) ->
  Z.of_nat (length (request_sense_data s)) <= Z.min (pk s 4) 18 /\
  Z.of_nat (length (inquiry_data s)) <= Z.min (pk s 4) 36 /\
  length (read_capacity_data s) = 8%nat /\
  (forall d, toc_data s = Some d -> Z.of_nat (length d) <= Z.min (be16 s 7) 20) /\
  Z.of_nat (length (subchannel_data s)) <= Z.min (be16 s 7) 16 /\
  Z.of_nat (length (mode_sense_data s)) <= Z.min (be16 s 7) 30 /\
  Z.of_nat (length (get_configuration_data s)) <= Z.min (be16 s 7) 16.
Proof.
  intros Hb. pose proof (pk_u8 s 4 Hb) as H4. pose proof (be16_u16 s 7) as H7. unfold is_u8, is_u16 in *.
  assert (Hclip : forall n d k, 0 <= n -> length d = k -> Z.of_nat (length (clip n d)) <= Z.min n (Z.of_nat k)).
  { intros n d k Hn <-. rewrite length_clip by done. lia. }
  assert (Hc7 : forall d k, length d = k -> Z.of_nat (length (clip (be16 s 7) d)) <= Z.min (be16 s 7) (Z.of_nat k))
    by (intros; apply Hclip; [lia|done]).
  unfold request_sense_data, inquiry_data, read_capacity_data, toc_data, subchannel_data,
    mode_sense_data, get_configuration_data; cbv zeta.
  split_and?.
  - apply (Hclip _ _ 18%nat); [lia|done].
  - apply (Hclip _ _ 36%nat); [lia|done].
  - reflexivity.
  - intros d. repeat case_bool; cbn [mbind option_bind]; intros [= <-]; rewrite length_put_returned;
      (etransitivity; [apply (Hc7 _ _ eq_refl)|]); unfold toc_descriptor; repeat case_bool; cbn; lia.
  - rewrite length_put_returned. etransitivity; [apply (Hc7 _ _ eq_refl)|].
    case_bool; cbn; lia.
  - rewrite length_put_returned. etransitivity; [apply (Hc7 _ _ eq_refl)|].
    case_bool; cbn; lia.
  - apply (Hclip _ _ 16%nat); [lia|done].
Qed.

Lemma cdrom_read_sectors_8 s :
  0 <= packet_remaining_ s -> 0 <= packet_size_limit_ s -> 1 <= cdrom_read_sectors s <= 8.
Proof.
  intros Hr Hl. unfold cdrom_read_sectors; cbv zeta.
  assert (0 <= packet_size_limit_ s / 2048) by divlia.
  destruct (2048 <=? packet_size_limit_ s); case_bool; lia.
Qed.

Lemma prepare_data_size s :
  0 <= packet_remaining_ s -> 0 <= packet_size_limit_ s ->
  let s1 := prepare_cdrom_read s in
  let n := Z.of_nat (length (packet_data_ s1)) in
  state_ s1 = PACKET_SEND ->
  r_cylinder (regs_ s1) = n /\ n = 2 * r_pkt_io_size (regs_ s1) /\
  n <= 16384 + 1 /\ (packet_size_limit_ s <> 0 -> n <= packet_size_limit_ s + 1).
Proof.
  intros Hr Hlim. pose proof (cdrom_read_sectors_8 s Hr Hlim) as Hk.
  unfold prepare_cdrom_read; cbv zeta.
  destruct (packet_remaining_ s =? 0); [done|]. case_bool; [done|]. intros _.
  set (d := take _ _). set (s0 := s <| packet_lba_ := _ |> <| packet_remaining_ := _ |>).
  assert (Hd : Z.of_nat (length d) <= 16384).
  { unfold d. rewrite length_take, u64_id by (unfold is_u64; lia). lia. }
  destruct (send_packet_data_size s0 d Hlim) as (H1 & H2 & H3 & H4); [lia|].
  split_and?; [exact H1|exact H2|lia|exact H4].
Qed.

(** The data-in commands other than reads, each with what its builder returns. *)
Lemma handle_packet_sizes s :
  ide_ok s -> state_ s = PACKET_HANDLE ->
  let s1 := handle_packet s in
  let n := Z.of_nat (length (packet_data_ s1)) in
  state_ s1 = PACKET_SEND ->
  r_cylinder (regs_ s1) = n /\ n = 2 * r_pkt_io_size (regs_ s1) /\
  n <= allocation s + 1 /\ (packet_size_limit_ s <> 0 -> n <= packet_size_limit_ s + 1).
Proof.
  intros Hs Hst. pose proof (ok_packet _ Hs) as Hb. pose proof (ok_limit _ Hs) as Hl.
  assert (Hlim : 0 <= packet_size_limit_ s) by (unfold is_u16 in Hl; lia).
  pose proof (be32_u32 s 6 Hb) as H6. pose proof (be16_u16 s 7) as H7. pose proof (pk_u8 s 4 Hb) as H4.
  destruct (response_sizes s Hb) as (R1 & R2 & R3 & R4 & R5 & R6 & R7).
  assert (Hsend : forall d, Z.of_nat (length d) <= allocation s -> Z.of_nat (length d) < 65536 ->
    let s1 := send_packet_data s d in let n := Z.of_nat (length (packet_data_ s1)) in
    r_cylinder (regs_ s1) = n /\ n = 2 * r_pkt_io_size (regs_ s1) /\
    n <= allocation s + 1 /\ (packet_size_limit_ s <> 0 -> n <= packet_size_limit_ s + 1)).
  { intros d Hd Hd'. destruct (send_packet_data_size s d Hlim Hd') as (? & ? & ? & ?).
    cbv zeta. split_and?; done || lia. }
  unfold is_u8, is_u16, is_u32 in *. unfold handle_packet; cbv zeta. revert Hsend.
  unfold allocation; cbv zeta.
  destruct (nop_packet (pk s 0)) eqn:Enop; [done|].
  destruct (Z.eqb_spec (pk s 0) 0x2B); [done|].
  destruct (Z.eqb_spec (pk s 0) 0x03) as [E|]; [intros Hsend _; apply (Hsend (request_sense_data s)); cbn [orb]; lia|].
  destruct (Z.eqb_spec (pk s 0) 0x12) as [E|]; [intros Hsend _; apply Hsend; cbn [orb]; lia|].
  destruct (Z.eqb_spec (pk s 0) 0x25) as [E|]; [intros Hsend _; apply Hsend; cbn [orb]; lia|].
  destruct (Z.eqb_spec (pk s 0) 0x28) as [E|];
    [intros _ Hp; destruct (prepare_data_size (s <| packet_lba_ := be32 s 2 |> <| packet_remaining_ := be16 s 7 |>))
       as (? & ? & ? & ?); cbn [orb]; try done; cbn; lia|].
  destruct (Z.eqb_spec (pk s 0) 0xA8) as [E|];
    [intros _ Hp; destruct (prepare_data_size (s <| packet_lba_ := be32 s 2 |> <| packet_remaining_ := be32 s 6 |>))
       as (? & ? & ? & ?); cbn [orb]; try done; cbn; lia|].
  cbn [orb]. intros Hsend.
  destruct (pk s 0 =? 0x43); [|repeat case_bool; intros Hp; try (apply Hsend; lia); done].
  destruct (toc_data s) as [d|]; [|done]. specialize (R4 d eq_refl). intros _. apply Hsend; lia.
Qed.

(** The sense data REQUEST SENSE returns for a key and its qualifiers. *)
Definition sense_bytes (key asc ascq : Z) : list Z :=
  [0x70; 0; key; 0; 0; 0; 0; 10; 0; 0; 0; 0; asc; ascq; 0; 0; 0; 0].

(** A REQUEST SENSE packet for [n] bytes. *)
Definition request_sense_cdb (n : Z) : list Z := [0x03; 0; 0; 0; n; 0; 0; 0; 0; 0; 0; 0].

Lemma request_sense_response s n :
  packet_ s = request_sense_cdb n -> 18 <= n < 256 -> 18 <= packet_size_limit_ s ->
  0 <= sense_key_ s < 16 ->
  let s1 := handle_packet s in
  response_ready s1 (sense_bytes (sense_key_ s) (sense_asc_ s) (sense_ascq_ s)) /\
  packet_remaining_ s1 = packet_remaining_ s /\ packet_lba_ s1 = packet_lba_ s /\
  image_ s1 = image_ s /\ id_ s1 = id_ s /\
  sense_key_ s1 = 0 /\ sense_asc_ s1 = 0 /\ sense_ascq_ s1 = 0.
Proof.
  intros Hp Hn Hlim Hk.
  assert (Hdata : request_sense_data s = sense_bytes (sense_key_ s) (sense_asc_ s) (sense_ascq_ s)).
  { unfold request_sense_data, pk; cbv zeta. rewrite Hp. cbn [lookup list_lookup default from_option id request_sense_cdb].
    unfold clip. rewrite (proj2 (Z.ltb_ge _ _)) by (cbn; lia). cbn -[Z.land].
    change 0x0F with 15. rewrite land_15, Z.mod_small by lia. done. }
  destruct (send_packet_data_fields s (request_sense_data s)) as (F1 & F2 & F3 & F4 & F5 & F6 & F7 & _);
    [rewrite Hdata; cbn; lia|by rewrite Hdata|rewrite Hdata; cbn; lia|].
  pose proof (send_packet_data_ready s (request_sense_data s)) as Hr. rewrite Hdata in *.
  assert (Hs : handle_packet s = send_packet_data s (sense_bytes (sense_key_ s) (sense_asc_ s) (sense_ascq_ s))
     <| sense_key_ := 0 |> <| sense_asc_ := 0 |> <| sense_ascq_ := 0 |>).
  { unfold handle_packet, pk; cbv zeta. rewrite Hp. cbn [lookup list_lookup default from_option id request_sense_cdb].
    cbn [nop_packet existsb Z.eqb Pos.eqb orb]. by rewrite Hdata. }
  cbv zeta. rewrite Hs. split_and?; try assumption; try reflexivity.
  apply Hr; [cbn; lia|done|cbn; lia].
Qed.

(** ** Properties *)

Section Atapi.
Context (fs_read : list Z -> option (list Z)) (fs_absolute : list Z -> list Z).
Context (Hread : forall p c, fs_read p = Some c -> bytes c).
Context (Habs : forall p, bytes p -> bytes (fs_absolute p)).

(** C3: a CD-ROM READ delivers the disc.  From an idle device, a core that
    issues PACKET with a byte-count limit of at least one block, supplies a
    READ(10) or READ(12) of blocks inside the image and requests each phase
    gets the packet request, then data phases none of which exceeds the limit
    and whose contents, in order, are exactly the addressed blocks, each
    followed by a report of its byte count, then good completion; within a
    bound of ticks, whatever the jitter. *)
Theorem cd_read_command env h s tf ws lba n :
  env_ok env -> Forall op_ok h -> reachable fs_read fs_absolute s -> ready s -> state_ s = IDLE ->
  base_ s mod 16 = 0 -> d_present (drive_ s) = true -> cdrom_ s = true ->
  (forall k, (k < 6)%nat -> is_u16 (tf k)) -> packet_command tf -> 2048 <= byte_limit tf ->
  requests env (id_ s) h 4 -> answers env (base_ s) h tf ->
  (forall l, requests env (id_ s) (h ++ taskfile_ops (base_ s) ++ l) 5) ->
  answers_data env (base_ s) (h ++ taskfile_ops (base_ s)) ws ->
  cdb_read (packet_bytes ws) = Some (lba, n) ->
  0 < n -> lba + n < 4294967296 -> (lba + n) * 2048 <= Z.of_nat (length (image_ s)) ->
  exists r0 chunks regs rf s',
    r_status r0 = 0x48 /\ r_pkt_io_size r0 = 6 /\
    concat chunks = cd_bytes (image_ s) lba n /\
    Forall (fun c => 0 < Z.of_nat (length c) <= byte_limit tf) chunks /\
    Forall2 chunk_report chunks regs /\ read_finished rf /\
    reaches env h s
      (h ++ taskfile_ops (base_ s) ++ report_words (base_ s) true r0 ++ recv_ops (base_ s) 6 ++
       [Wr (u16 (base_ s + 7)) 0] ++ transfer_ops (base_ s) true (map words_of chunks) regs ++
       report_words (base_ s) true rf)
      s' (65 * (1034 * n + 34)) /\
    image_ s' = image_ s /\ state_ s' = IDLE /\ sense_key_ s' = 0.
Proof.
  intros He Hh Hs Hr Hst Hbase Hpres Hcd Htf Hpk Hlim Hcmd Hans Hreq Hdata Hcdb Hn Hsum Himg.
  assert (Hp : well_placed h s) by (split; [done|]; split; [by eapply reachable_ok|done]).
  destruct (goes_packet_command env h s tf ws He Hst Hbase Hpres Hcd Htf Hpk Hcmd Hans Hreq Hdata)
    as (r0 & s1 & G1 & R1 & R2 & _ & _ & F1 & F2 & F3 & F4 & F5 & F6 & F7).
  set (h1 := h ++ _) in G1.
  assert (Hb : bytes (packet_ s1)) by (rewrite F5; apply words_bytes).
  rewrite <- F5 in Hcdb. destruct (handle_packet_read s1 lba n Hb Hcdb) as (Hh1 & Hl & Hn32).
  set (s2 := s1 <| packet_lba_ := lba |> <| packet_remaining_ := n |>) in *.
  assert (G2 : goes env h1 s1 h1 (prepare_cdrom_read s2) 65).
  { rewrite <- Hh1. apply goes_silent; [done|]. intros tb _ _. unfold dispatch. by rewrite F7. }
  assert (Hlim' : byte_limit tf < 65536).
  { pose proof (Htf 2%nat ltac:(lia)) as H2. unfold is_u16 in H2. unfold byte_limit. case_bool; lia. }
  unfold is_u32 in Hn32.
  destruct (goes_cd_read (Z.to_nat n) env h1 s2) as (chunks & regs & rf & s' & Hcat & Hsz & Hrep & Hfin & G3 & Hi & Hidle & Hkey);
    [cbn; lia|done|exact F4|exact Hl|cbn; lia|cbn; lia|cbn -[Z.mul]; rewrite F1; exact Himg|cbn; rewrite F6; lia| |].
  { intros l. change (id_ s2) with (id_ s1). rewrite F3. unfold h1. rewrite <- !app_assoc. apply Hreq. }
  change (image_ s2) with (image_ s1) in Hcat, Hi. change (packet_lba_ s2) with lba in Hcat.
  change (packet_remaining_ s2) with n in Hcat, G3. change (packet_size_limit_ s2) with (packet_size_limit_ s1) in Hsz.
  change (base_ s2) with (base_ s1) in G3. rewrite F1 in Hcat, Hi. rewrite F6 in Hsz. rewrite F2 in G3.
  exists r0, chunks, regs, rf, s'. split_and?; try done. apply goes_reaches; [|exact Hp].
  eapply goes_eq; [eapply goes_trans; [exact G1|eapply goes_trans; [exact G2|exact G3]]| |done|lia].
  unfold h1. by rewrite <- !app_assoc.
Qed.

(** Bounded responses.  Whatever packet a reachable device handles, a
    response it starts to send has an even size, reported in the cylinder
    registers and counted in words, and exceeds neither the allocation length
    of the packet nor the host's byte-count limit by more than the byte that
    makes it even. *)
Lemma response_bounded s :
  reachable fs_read fs_absolute s -> state_ s = PACKET_HANDLE ->
  let s1 := handle_packet s in
  let n := Z.of_nat (length (packet_data_ s1)) in
  state_ s1 = PACKET_SEND ->
  r_cylinder (regs_ s1) = n /\ n = 2 * r_pkt_io_size (regs_ s1) /\
  n <= allocation s + 1 /\ (packet_size_limit_ s <> 0 -> n <= packet_size_limit_ s + 1).
Proof. intros Hs. apply handle_packet_sizes. by eapply reachable_ok. Qed.
End Atapi.

(** Opcodes [handle_packet] knows. *)
Definition supported (op : Z) : bool :=
  nop_packet op || existsb (Z.eqb op) [0x2B; 0x03; 0x12; 0x25; 0x28; 0xA8; 0x43; 0x42; 0x5A; 0x46].

(** A read beyond the image fails before any data. *)
Lemma prepare_out_of_range s :
  0 < packet_remaining_ s -> Z.of_nat (length (image_ s)) <= packet_lba_ s * 2048 ->
  is_u32 (packet_lba_ s) -> 0 <= packet_size_limit_ s ->
  prepare_cdrom_read s = finish_packet s 5 0x21 0 0.
Proof.
  intros Hr Hlba Hl Hlim. unfold is_u32 in Hl. unfold prepare_cdrom_read; cbv zeta.
  rewrite (proj2 (Z.eqb_neq (packet_remaining_ s) 0)) by lia.
  pose proof (cdrom_read_sectors_8 s ltac:(lia) Hlim) as H8.
  rewrite !u64_id by (rewrite ?u64_id; unfold is_u64; lia).
  by rewrite (proj2 (Z.ltb_lt _ _)) by lia.
Qed.

Lemma rejected_read s lba k :
  bytes (packet_ s) -> 0 <= packet_size_limit_ s -> cdb_read (packet_ s) = Some (lba, k) -> 0 < k ->
  Z.of_nat (length (image_ s)) <= lba * 2048 ->
  exists s0, handle_packet s = finish_packet s0 5 0x21 0 0 /\ is_u32 lba /\
    packet_lba_ s0 = lba /\ packet_remaining_ s0 = k /\ image_ s0 = image_ s /\
    packet_size_limit_ s0 = packet_size_limit_ s.
Proof.
  intros Hb Hlim Hcdb Hk Hlba. destruct (handle_packet_read s lba k Hb Hcdb) as (-> & Hl & Hk32).
  exists (s <| packet_lba_ := lba |> <| packet_remaining_ := k |>).
  split; [by apply prepare_out_of_range|]. done.
Qed.

(** Errors and sense.  An unsupported opcode and a read that starts beyond
    the disc fail with ERR and sense 5/20h and 5/21h; a REQUEST SENSE that
    follows returns exactly that sense, in the fixed format, and clears it. *)
Lemma sense_reported s n :
  bytes (packet_ s) -> 18 <= n < 256 -> 18 <= packet_size_limit_ s ->
  forall asc,
  (supported (pk s 0) = false /\ asc = 0x20 \/
   asc = 0x21 /\ exists lba k, cdb_read (packet_ s) = Some (lba, k) /\ 0 < k /\
     Z.of_nat (length (image_ s)) <= lba * 2048) ->
  let s1 := handle_packet s in
  let s2 := handle_packet (s1 <| packet_ := request_sense_cdb n |>) in
  r_status (regs_ s1) = 0x45 /\ r_error (regs_ s1) = 0x50 /\ state_ s1 = SET_REGS /\
  response_ready s2 (sense_bytes 5 asc 0) /\ sense_key_ s2 = 0 /\ sense_asc_ s2 = 0.
Proof.
  intros Hb Hn Hlim asc Hcase.
  assert (H1 : exists s0, handle_packet s = finish_packet s0 5 asc 0 0 /\
    packet_size_limit_ s0 = packet_size_limit_ s).
  { destruct Hcase as [[Hop ->]|(-> & lba & k & Hcdb & Hk & Hlba)].
    - exists s. split; [|done]. unfold supported in Hop. apply orb_false_iff in Hop as [Hnop Hop].
      cbn [existsb] in Hop. repeat (apply orb_false_iff in Hop as [? Hop]).
      unfold handle_packet; cbv zeta. rewrite Hnop.
      repeat match goal with H : (_ =? _) = false |- _ => rewrite H; clear H end. done.
    - destruct (rejected_read s lba k Hb) as (s0 & E & _ & _ & _ & _ & E0); try done; [lia|].
      by exists s0. }
  destruct H1 as (s0 & -> & Hl0). cbv zeta.
  destruct (request_sense_response (finish_packet s0 5 asc 0 0 <| packet_ := request_sense_cdb n |>) n)
    as (Hr & _ & _ & _ & _ & Hkey & Hasc & _); [reflexivity|done|cbn; lia|cbn; lia|].
  split_and?; first [exact Hr | exact Hkey | exact Hasc | reflexivity].
Qed.

Lemma handle_packet_limit s : packet_size_limit_ (handle_packet s) = packet_size_limit_ s.
Proof.
  assert (Hp : forall s, packet_size_limit_ (prepare_cdrom_read s) = packet_size_limit_ s).
  { intros s0. unfold prepare_cdrom_read. by repeat case_bool. }
  unfold handle_packet; cbv zeta.
  repeat match goal with |- packet_size_limit_ (if ?b then _ else _) = _ => destruct b end;
    rewrite ?Hp; try done. by destruct (toc_data s).
Qed.

Lemma sent_and_reported s :
  let w := after_report (data_sent s) in
  packet_lba_ w = packet_lba_ s /\ packet_remaining_ w = packet_remaining_ s /\ image_ w = image_ s /\
  packet_size_limit_ w = packet_size_limit_ s /\ state_ w = PACKET_READ_WAIT_REQ.
Proof. done. Qed.

(** The block count of a failed read outlives it.  After a READ rejected as
    out of range, the next data-in command - the REQUEST SENSE that should
    explain the failure - sends its data but then ends with ERR and a new
    out-of-range sense, because [packet_remaining_] still holds the old count. *)
Lemma stale_block_count s n lba k tb :
  bytes (packet_ s) -> 18 <= n < 256 -> 18 <= packet_size_limit_ s ->
  cdb_read (packet_ s) = Some (lba, k) -> 0 < k -> Z.of_nat (length (image_ s)) <= lba * 2048 ->
  let s1 := handle_packet s in
  let s2 := handle_packet (s1 <| packet_ := request_sense_cdb n |>) in
  let waiting := after_report (data_sent s2) in
  request waiting tb = 5 ->
  exists s3, dispatch waiting tb = Some (s3, tb) /\
    Z.land (r_status (regs_ s3)) ATA_STATUS_ERR <> 0 /\ sense_key_ s3 = 5 /\ sense_asc_ s3 = 0x21.
Proof.
  intros Hb Hn Hlim Hcdb Hk Hlba. cbv zeta.
  destruct (rejected_read s lba k Hb) as (s0 & -> & Hl & Hlba0 & Hk0 & Himg0 & Hlim0); try done; [lia|].
  destruct (request_sense_response (finish_packet s0 5 0x21 0 0 <| packet_ := request_sense_cdb n |>) n)
    as (_ & Hrem & Hpl & Himg & _); [reflexivity|done|cbn; lia|cbn; lia|].
  change (packet_remaining_ (finish_packet s0 5 0x21 0 0 <| packet_ := request_sense_cdb n |>))
    with (packet_remaining_ s0) in Hrem.
  change (packet_lba_ (finish_packet s0 5 0x21 0 0 <| packet_ := request_sense_cdb n |>))
    with (packet_lba_ s0) in Hpl.
  change (image_ (finish_packet s0 5 0x21 0 0 <| packet_ := request_sense_cdb n |>))
    with (image_ s0) in Himg.
  rewrite Hk0 in Hrem. rewrite Hlba0 in Hpl. rewrite Himg0 in Himg.
  pose proof (handle_packet_limit (finish_packet s0 5 0x21 0 0 <| packet_ := request_sense_cdb n |>)) as Hlim2.
  change (packet_size_limit_ (finish_packet s0 5 0x21 0 0 <| packet_ := request_sense_cdb n |>))
    with (packet_size_limit_ s0) in Hlim2. rewrite Hlim0 in Hlim2.
  revert Hrem Hpl Himg Hlim2.
  generalize (handle_packet (finish_packet s0 5 0x21 0 0 <| packet_ := request_sense_cdb n |>)).
  intros s2 Hrem Hpl Himg Hlim2 Hreq.
  destruct (sent_and_reported s2) as (W1 & W2 & W3 & W4 & W5).
  revert Hreq W1 W2 W3 W4 W5. generalize (after_report (data_sent s2)). intros w Hreq W1 W2 W3 W4 W5.
  assert (Hprep : prepare_cdrom_read w = finish_packet w 5 0x21 0 0).
  { apply prepare_out_of_range; rewrite ?W1, ?W2, ?W3, ?W4, ?Hrem, ?Hpl, ?Himg, ?Hlim2; lia || done. }
  exists (finish_packet w 5 0x21 0 0). split; [|by split_and!].
  unfold dispatch. rewrite W5. unfold on_PACKET_READ_WAIT_REQ, wait_req. rewrite Hreq, W2, Hrem.
  rewrite (proj2 (Z.eqb_neq k 0)) by lia. by rewrite Hprep.
Qed.

(** A byte-count limit below one block loses data.  The data phase is cut
    to the limit, but the read moves past all the blocks of the chunk: up to
    eight blocks are skipped and only [limit] bytes of the first are sent. *)
Lemma short_limit_drops_blocks s :
  is_u32 (packet_lba_ s) -> 0 < packet_remaining_ s < 4294967296 ->
  packet_lba_ s + packet_remaining_ s < 4294967296 ->
  (packet_lba_ s + packet_remaining_ s) * 2048 <= Z.of_nat (length (image_ s)) ->
  0 < packet_size_limit_ s < 2048 -> packet_size_limit_ s mod 2 = 0 ->
  let k := Z.min (packet_remaining_ s) 8 in
  let s1 := prepare_cdrom_read s in
  state_ s1 = PACKET_SEND /\
  packet_data_ s1 = take (Z.to_nat (packet_size_limit_ s)) (cd_bytes (image_ s) (packet_lba_ s) k) /\
  packet_lba_ s1 = packet_lba_ s + k /\ packet_remaining_ s1 = packet_remaining_ s - k.
Proof.
  intros Hl Hr Hsum Himg Hlim Heven. cbv zeta. unfold is_u32 in Hl.
  assert (Hk : cdrom_read_sectors s = Z.min (packet_remaining_ s) 8).
  { unfold cdrom_read_sectors; cbv zeta. rewrite (proj2 (Z.leb_gt 2048 _)) by lia.
    by rewrite (proj2 (Z.eqb_neq _ 0)) by lia. }
  unfold prepare_cdrom_read; cbv zeta. rewrite Hk, (proj2 (Z.eqb_neq _ 0)) by lia.
  set (k := Z.min (packet_remaining_ s) 8) in *.
  rewrite !u64_id by (rewrite ?u64_id; unfold is_u64; lia).
  rewrite (proj2 (Z.ltb_ge _ _)) by lia.
  change (take _ (drop _ (image_ s))) with (cd_bytes (image_ s) (packet_lba_ s) k).
  assert (Hlen : Z.of_nat (length (cd_bytes (image_ s) (packet_lba_ s) k)) = k * 2048)
    by (apply length_cd_bytes; lia).
  rewrite (u32_id (packet_lba_ s + k)), (u32_id (packet_remaining_ s - k)) by (unfold is_u32; lia).
  set (d := cd_bytes (image_ s) (packet_lba_ s) k) in *. clearbody d.
  unfold send_packet_data; cbv zeta.
  change (packet_size_limit_ (s <| packet_lba_ := packet_lba_ s + k |> <| packet_remaining_ := packet_remaining_ s - k |>))
    with (packet_size_limit_ s).
  rewrite (proj2 (Z.eqb_neq (packet_size_limit_ s) 0)), (proj2 (Z.ltb_lt _ (Z.of_nat (length d)))) by lia.
  cbn [negb andb]. rewrite resize_le by lia.
  assert (Hodd : Nat.odd (length (take (Z.to_nat (packet_size_limit_ s)) d)) = false).
  { rewrite length_take, Nat.min_l by lia.
    replace (Z.to_nat (packet_size_limit_ s)) with (2 * Z.to_nat (packet_size_limit_ s / 2))%nat by divlia.
    by rewrite Nat.odd_mul. }
  rewrite Hodd. split_and?; done.
Qed.

(** ** The hypotheses can hold: a two-block disc and a core that reads it *)

Definition demo_disc_image : list Z := replicate 4096 0xA5.
Definition disc_files (path : list Z) : option (list Z) := Some demo_disc_image.

Definition opened_disc : HpsIde := (open_cdrom disc_files same_path (HpsIde_new 0 0xF000) []).2.

Definition idle_disc : HpsIde :=
  opened_disc <| state_ := IDLE |> <| bus_cooldown_ := true |> <| bus_cooldown_ := false |>.

(** READ(10) of [n] blocks from block 0, as packet words. *)
Definition read10_words (n : Z) (k : nat) : Z :=
  match k with 0%nat => 0x28 | 4%nat => n | _ => 0 end.

Lemma disc_bytes p c : disc_files p = Some c -> bytes c.
Proof.
  unfold disc_files. intros H. assert (E : c = demo_disc_image) by congruence.
  rewrite E. apply bytes_replicate. width.
Qed.

Lemma idle_disc_reachable : reachable disc_files same_path idle_disc.
Proof.
  assert (H0 : reachable disc_files same_path opened_disc).
  { eapply (reach_open_cdrom _ _ 0 0xF000 [] true); [apply bytes_nil|vm_compute; reflexivity]. }
  assert (H1 : reachable disc_files same_path (opened_disc <| state_ := IDLE |> <| bus_cooldown_ := true |>)).
  { eapply (reach_tick _ _ no_jitter _ idle_bus); [exact H0|exact idle_bus_ok|vm_compute; reflexivity]. }
  eapply (reach_tick _ _ no_jitter _ idle_bus); [exact H1|exact idle_bus_ok|vm_compute; reflexivity].
Qed.

Lemma cd_read_command_witness :
  exists r0 chunks regs rf s',
    r_status r0 = 0x48 /\ r_pkt_io_size r0 = 6 /\
    concat chunks = cd_bytes (image_ idle_disc) 0 2 /\
    Forall (fun c => 0 < Z.of_nat (length c) <= 16384) chunks /\
    Forall2 chunk_report chunks regs /\ read_finished rf /\
    reaches (demo_core (demo_taskfile 0xA0) (read10_words 2)) [] idle_disc
      (taskfile_ops 0xF000 ++ report_words 0xF000 true r0 ++ recv_ops 0xF000 6 ++
       [Wr 0xF007 0] ++ transfer_ops 0xF000 true (map words_of chunks) regs ++
       report_words 0xF000 true rf)
      s' (65 * (1034 * 2 + 34)) /\
    image_ s' = image_ idle_disc /\ state_ s' = IDLE /\ sense_key_ s' = 0.
Proof.
  apply (cd_read_command disc_files same_path disc_bytes (fun _ H => H)
    (demo_core (demo_taskfile 0xA0) (read10_words 2)) [] idle_disc (demo_taskfile 0xA0) (read10_words 2) 0 2).
  - apply demo_core_ok; [lia|]. intros k. unfold is_u16.
    destruct k as [|[|[|[|[|k]]]]]; vm_compute; split; congruence.
  - constructor.
  - exact idle_disc_reachable.
  - by split.
  - reflexivity.
  - reflexivity.
  - vm_compute; reflexivity.
  - vm_compute; reflexivity.
  - demo_hypotheses.
  - unfold packet_command. split_and?; vm_compute; reflexivity.
  - vm_compute; congruence.
  - demo_hypotheses.
  - apply demo_core_answers.
  - intros l t; reflexivity.
  - by apply demo_core_data.
  - vm_compute; reflexivity.
  - lia.
  - vm_compute; reflexivity.
  - vm_compute; congruence.
Defined.

(** A device with a packet to handle. *)
Definition with_packet (p : list Z) (s : HpsIde) : HpsIde :=
  s <| packet_ := p |> <| packet_size_limit_ := 16384 |>.

Lemma sense_reported_witness :
  let s := with_packet [0xFF; 0; 0; 0; 0; 0; 0; 0; 0; 0; 0; 0] idle_disc in
  let s1 := handle_packet s in
  let s2 := handle_packet (s1 <| packet_ := request_sense_cdb 18 |>) in
  r_status (regs_ s1) = 0x45 /\ r_error (regs_ s1) = 0x50 /\ state_ s1 = SET_REGS /\
  response_ready s2 (sense_bytes 5 0x20 0) /\ sense_key_ s2 = 0 /\ sense_asc_ s2 = 0.
Proof.
  cbv zeta. apply (sense_reported (with_packet [0xFF; 0; 0; 0; 0; 0; 0; 0; 0; 0; 0; 0] idle_disc) 18).
  - change (bytes [0xFF; 0; 0; 0; 0; 0; 0; 0; 0; 0; 0; 0]). auto 20 with z486_bytes.
  - lia.
  - vm_compute; congruence.
  - left. split; vm_compute; reflexivity.
Defined.

(** READ(10) of one block from block 9 of a two-block disc. *)
Definition read_beyond : list Z := [0x28; 0; 0; 0; 0; 9; 0; 0; 1; 0; 0; 0].

Lemma stale_block_count_witness :
  let s1 := handle_packet (with_packet read_beyond idle_disc) in
  let s2 := handle_packet (s1 <| packet_ := request_sense_cdb 18 |>) in
  exists s3, dispatch (after_report (data_sent s2)) (idle_bus <| ide0_request := 5 |>) =
      Some (s3, idle_bus <| ide0_request := 5 |>) /\
    Z.land (r_status (regs_ s3)) ATA_STATUS_ERR <> 0 /\ sense_key_ s3 = 5 /\ sense_asc_ s3 = 0x21.
Proof.
  cbv zeta. apply (stale_block_count (with_packet read_beyond idle_disc) 18 9 1).
  - change (bytes read_beyond). unfold read_beyond. auto 20 with z486_bytes.
  - lia.
  - vm_compute; congruence.
  - vm_compute; reflexivity.
  - lia.
  - vm_compute; congruence.
  - vm_compute; reflexivity.
Defined.

Definition short_limit : HpsIde :=
  idle_disc <| packet_size_limit_ := 512 |> <| packet_remaining_ := 2 |>.

Lemma short_limit_drops_blocks_witness :
  let s1 := prepare_cdrom_read short_limit in
  state_ s1 = PACKET_SEND /\
  packet_data_ s1 = take 512 (cd_bytes (image_ short_limit) 0 2) /\
  packet_lba_ s1 = 2 /\ packet_remaining_ s1 = 0.
Proof.
  apply (short_limit_drops_blocks short_limit); try (vm_compute; split; congruence);
    vm_compute; congruence.
Defined.


Lemma run_env_reachable fs_read fs_absolute env : env_ok env -> forall k t h g s tb h' g' s' tb',
  reachable fs_read fs_absolute s -> bus_ok tb ->
  (forall p c, fs_read p = Some c -> bytes c) -> (forall p, bytes p -> bytes (fs_absolute p)) ->
  run_env k t env h g s tb = Some (h', g', s', tb') -> reachable fs_read fs_absolute s'.
Proof.
  intros He k. induction k as [|k IH]; intros t h g s tb h' g' s' tb' Hs Htb Hrd Hab; cbn [run_env].
  { by intros [= _ _ <- _]. }
  assert (Hb : bus_ok (sample (env t h) tb)) by (apply sample_ok; [apply He|done]).
  destruct (tick g s _) as [[[g1 s1] tb1]|] eqn:E; [|done]. cbn [mbind option_bind].
  apply IH; try done.
  - eapply reach_tick; [exact Hs|exact Hb|exact E].
  - destruct (tick_ok g s (sample (env t h) tb)) as (g2 & s2 & tb2 & E2 & _ & Hb2 & _);
      [by eapply reachable_ok|done|]. rewrite E in E2. by injection E2 as -> -> ->.
Qed.

(** The disc after the core sent it the packet of an INQUIRY for 36 bytes. *)
Definition inquiry_words (k : nat) : Z := match k with 0%nat => 0x12 | 2%nat => 36 | _ => 0 end.
Definition inquiring : HpsIde :=
  match run_env 43 0 (demo_core (demo_taskfile 0xA0) inquiry_words) [] no_jitter idle_disc idle_bus with
  | Some (_, _, s, _) => s
  | None => idle_disc
  end.

Lemma response_bounded_witness :
  let s1 := handle_packet inquiring in
  let n := Z.of_nat (length (packet_data_ s1)) in
  state_ s1 = PACKET_SEND /\ n = 36 /\
  r_cylinder (regs_ s1) = n /\ n = 2 * r_pkt_io_size (regs_ s1) /\
  n <= allocation inquiring + 1 /\ (packet_size_limit_ inquiring <> 0 -> n <= packet_size_limit_ inquiring + 1).
Proof.
  cbv zeta. split; [vm_compute; reflexivity|]. split; [vm_compute; reflexivity|].
  apply (response_bounded disc_files same_path disc_bytes (fun _ H => H) inquiring).
  - destruct (run_env 43 0 (demo_core (demo_taskfile 0xA0) inquiry_words) [] no_jitter idle_disc idle_bus)
      as [[[[h' g'] s'] tb']|] eqn:E; [|exfalso; revert E; vm_compute; discriminate].
    assert (Es : inquiring = s') by (unfold inquiring; rewrite E; reflexivity). rewrite Es.
    eapply (run_env_reachable disc_files same_path); [..|exact E].
    + apply demo_core_ok; [lia|]. intros k. unfold is_u16.
      destruct k as [|[|[|k]]]; vm_compute; split; congruence.
    + exact idle_disc_reachable.
    + exact idle_bus_ok.
    + exact disc_bytes.
    + exact (fun _ H => H).
  - vm_compute; reflexivity.
  - vm_compute; reflexivity.
Defined.
