(* ===== verification/IdeIdentify.v ===== *)
(** * IDENTIFY DEVICE

    The parameter sector a disk sends describes the medium: its 512-byte
    sectors, the translation in force and the name of the image.  That holds in
    every reachable state, since every operation that changes the geometry
    rebuilds the sector, and the command delivers it word by word. *)
From S2P Require Import Prelude IdeTypes IdeGeometry IdePacket IdeCommand IdeTick IdeInvariant.
From S2P Require Import IdeSafety IdeProtocol IdeDisk IdeWrite.

(** ** Reading the parameter sector *)

Definition id_word (ids : list Z) (k : nat) : Z := default 0 (ids !! k).

(** The model number: 40 characters, the first of each pair in the high byte. *)
Definition id_model (ids : list Z) : list Z :=
  concat (map (fun w => [w / 256; w mod 256]) (take 20 (drop 27 ids))).

(** A name in a 40-character field, padded with spaces. *)
Definition padded_name (name : list Z) : list Z := resize 40 32 name.

Ltac lookup_words :=
  unfold set_words; cbn [fold_left]; unfold set_word; cbn [fst snd];
  repeat rewrite list_lookup_insert_ne by lia;
  rewrite list_lookup_insert_eq
    by (rewrite ?length_insert, ?length_set_ident_string, ?length_set_words, ?length_insert,
          ?length_set_ident_string, ?length_replicate; cbn; lia).

Lemma id_word_set_words kvs id k v :
  set_words kvs id !! k = Some v -> id_word (set_words kvs id) k = v.
Proof. unfold id_word. by intros ->. Qed.

(** The words outside the model number do not depend on the name. *)
Lemma disk_identify_words d name :
  id_word (disk_identify d name) 1 = d_cylinders d /\
  id_word (disk_identify d name) 3 = d_heads d /\
  id_word (disk_identify d name) 6 = d_spt d /\
  id_word (disk_identify d name) 60 = u16 (Z.land (d_total_sectors d) 0xFFFF) /\
  id_word (disk_identify d name) 61 = u16 (Z.shiftr (d_total_sectors d) 16).
Proof.
  unfold disk_identify. cbv zeta. unfold id_word.
  split_and?; case_bool; rewrite ?set_ident_string_ne by lia.
  all: rewrite ?set_words_ne by (repeat constructor; cbn; lia).
  all: rewrite ?set_ident_string_ne by lia.
  all: rewrite ?set_words_ne by (repeat constructor; cbn; lia).
  all: rewrite ?set_ident_string_ne by lia.
  all: lookup_words; done.
Qed.

Lemma model_string_resize name : resize 40 32 (model_string name) = padded_name name.
Proof.
  unfold model_string, padded_name. case_bool; [|done].
  apply Nat.ltb_lt in E. rewrite !resize_le by (rewrite ?length_resize; lia).
  by rewrite take_take.
Qed.

Lemma pairs_concat (l : list Z) : forall n,
  length l = (2 * n)%nat ->
  concat (map (fun i => [default 32 (l !! (2 * i)%nat); default 32 (l !! (2 * i + 1)%nat)]) (seq 0 n)) = l.
Proof.
  intros n. revert l. induction n as [|n IH]; intros l Hl.
  { by destruct l. }
  destruct l as [|a [|b l]]; cbn in Hl; try lia.
  cbn [seq map concat]. rewrite <- seq_shift, map_map.
  change (default 32 ((a :: b :: l) !! (2 * 0)%nat)) with a.
  change (default 32 ((a :: b :: l) !! (2 * 0 + 1)%nat)) with b. cbn [app]. f_equal. f_equal.
  etransitivity; [|apply (IH l); lia]. f_equal. apply map_ext. intros i.
  replace (2 * S i)%nat with (S (S (2 * i))) by lia.
  replace (S (S (2 * i)) + 1)%nat with (S (S (2 * i + 1))) by lia. done.
Qed.

(** A text in words [b..b+c) reads back as the padded text. *)
Lemma ident_string_model id t :
  length id = 256%nat -> bytes t -> id_model (set_ident_string id 27 20 t) = resize 40 32 t.
Proof.
  intros Hlen Ht. unfold id_model.
  assert (Hb : bytes (resize 40 32 t)) by (apply bytes_resize; [width|done]).
  assert (E : take 20 (drop 27 (set_ident_string id 27 20 t)) =
     map (fun i => be_word (default 32 (resize 40 32 t !! (2 * i)%nat))
                           (default 32 (resize 40 32 t !! (2 * i + 1)%nat))) (seq 0 20)).
  { apply list_eq. intros i. rewrite list_lookup_fmap. destruct (decide (i < 20)%nat) as [Hi|Hi].
    - rewrite lookup_take_lt, lookup_drop by lia.
      rewrite (set_ident_string_lookup id 27 20 t i) by lia.
      rewrite lookup_seq_lt by lia. done.
    - rewrite lookup_take_ge, lookup_seq_ge by lia. done. }
  rewrite E, map_map. etransitivity; [|apply (pairs_concat (resize 40 32 t) 20); by rewrite length_resize].
  f_equal. apply map_ext_in. intros i Hi.
  assert (H1 : is_u8 (default 32 (resize 40 32 t !! (2 * i)%nat)))
    by (apply (Forall_lookup_default is_u8); [width|done]).
  assert (H2 : is_u8 (default 32 (resize 40 32 t !! (2 * i + 1)%nat)))
    by (apply (Forall_lookup_default is_u8); [width|done]).
  rewrite be_word_val by done. unfold is_u8 in *. f_equal; [|f_equal]; divlia.
Qed.

Lemma disk_identify_model d name : bytes name -> id_model (disk_identify d name) = padded_name name.
Proof.
  intros Hn. unfold disk_identify. case_bool.
  - destruct name; [|done]. unfold id_model.
    set (a := set_words _ (set_ident_string _ 27 20 [])).
    vm_compute. reflexivity.
  - rewrite ident_string_model.
    + apply model_string_resize.
    + by rewrite !length_set_words, !length_set_ident_string, !length_set_words.
    + unfold model_string. case_bool; auto with z486_bytes.
Qed.

(** ** The parameter sector is always current *)

Definition described (s : HpsIde) : Prop :=
  let d := drive_ s in
  d_present d = true -> cdrom_ s = false ->
  d_id d = disk_identify d (image_name_ s) /\
  d_total_sectors d = u32 (Z.of_nat (length (image_ s)) / 512) /\
  d_cylinders d = Z.min 65535 (d_total_sectors d / (d_heads d * d_spt d)).

Lemma described_same s s' :
  described s -> drive_ s' = drive_ s -> cdrom_ s' = cdrom_ s -> image_name_ s' = image_name_ s ->
  length (image_ s') = length (image_ s) -> described s'.
Proof. unfold described. intros H -> -> -> ->. exact H. Qed.

Lemma set_geometry_described s sectors heads s' :
  drive_ok (drive_ s) -> 0 <= heads <= 256 -> set_geometry s sectors heads = Some s' ->
  (d_present (drive_ s) = true -> cdrom_ s = false ->
     d_total_sectors (drive_ s) = u32 (Z.of_nat (length (image_ s)) / 512)) ->
  described s'.
Proof.
  intros Hd Hh E Ht.
  destruct (set_geometry_Some s sectors heads Hd Hh) as (s2 & E2 & _ & _ & _ & Hc & _).
  rewrite E2 in E. injection E as ->. unfold set_geometry in E2; cbv zeta in E2.
  destruct (int_mul _ _) as [hspt|]; [|done]. cbn [mbind option_bind] in E2. injection E2 as <-.
  intros Hp Hcd. cbn in Hp, Hcd. cbn in Hc. split_and!; [|by apply Ht|exact Hc].
  unfold update_identify. cbn. by rewrite Hcd.
Qed.

(** Only INITIALIZE DEVICE PARAMETERS changes the drive. *)
Lemma handle_cmd_drive s s' :
  handle_cmd s = Some s' ->
  drive_ s' = drive_ s \/
  exists m m', drive_ m = drive_ s /\ cdrom_ m = cdrom_ s /\ image_name_ m = image_name_ s /\
    image_ m = image_ s /\ r_head (regs_ m) = r_head (regs_ s) /\
    set_geometry m (r_sector_count (regs_ m)) (r_head (regs_ m) + 1) = Some m' /\
    drive_ s' = drive_ m'.
Proof.
  destruct (mask_taskfile_same s) as (M1 & M2 & _ & _ & M5).
  unfold handle_cmd, reject_cmd, handle_cdrom_cmd, handle_disk_cmd, reject_cmd; cbv zeta.
  intros H. handler_cases H; simplify_eq; try (by left). right.
  assert (M6 : r_head (regs_ (mask_taskfile s)) = r_head (regs_ s)).
  { unfold mask_taskfile; cbv zeta. cbn. by repeat case_bool. }
  match goal with E : set_geometry _ _ _ = Some ?h |- _ => exists (mask_taskfile s), h end.
  split_and!; try assumption; reflexivity.
Qed.

Lemma same_drive_cdrom_read s :
  drive_ (prepare_cdrom_read s) = drive_ s.
Proof. unfold prepare_cdrom_read. by repeat case_bool. Qed.

Lemma same_drive_packet s : drive_ (handle_packet s) = drive_ s.
Proof.
  unfold handle_packet; cbv zeta.
  repeat match goal with |- drive_ (if ?b then _ else _) = _ => destruct b end;
    rewrite ?same_drive_cdrom_read; try done. by destruct (toc_data s).
Qed.

Lemma dispatch_drive s tb s' tb' :
  dispatch s tb = Some (s', tb') -> state_ s <> DO_CMD -> drive_ s' = drive_ s.
Proof.
  unfold dispatch. intros H Hst. destruct (state_ s) eqn:E; [..|]; try done;
    unfold on_INITIAL, on_IDLE, on_GET_RESET_DRIVE, on_RESET_SET, on_GET_CMD, on_DO_CMD,
      on_SEND_ID, on_SET_REGS, on_SET_REGS_SEND, on_READ, on_READ_REGS, on_READ_SEND,
      on_READ_WAIT_REQ, on_WRITE, on_WRITE_REGS, on_WRITE_WAIT_REQ, on_WRITE_RECV,
      on_PACKET_WAIT_REQ, on_PACKET_RECV, on_PACKET_HANDLE, on_PACKET_SEND,
      on_PACKET_READ_WAIT_REQ, wait_req in H;
    cbv zeta in H; handler_cases H; simplify_eq;
    repeat match goal with
    | E : recv_word _ _ = Some _ |- _ => apply recv_word_image in E as [? ->]
    end;
    first [done | apply same_drive_packet | apply same_drive_cdrom_read
          | by destruct (sector_window _ _) | idtac].
Qed.

Lemma dispatch_described s tb s' tb' :
  ide_ok s -> bus_ok tb -> described s -> dispatch s tb = Some (s', tb') -> described s'.
Proof.
  intros Hs Htb Hd H. destruct (dispatch_same _ _ _ _ H) as (_&_&Hcd&_&Hname&_&Hpres&Htot&_).
  destruct (dispatch_ok s tb Hs Htb) as (s2 & tb2 & E2 & _ & Hlen). rewrite H in E2.
  injection E2 as <- <-.
  destruct (decide (state_ s = DO_CMD)) as [Hst|Hst].
  2: { apply (described_same s); [done|by apply (dispatch_drive s tb _ tb')|done..]. }
  unfold dispatch in H. rewrite Hst in H. unfold on_DO_CMD in H.
  destruct (handle_cmd s) as [s1|] eqn:E; [|done]. cbn [mbind option_bind] in H. injection H as -> _.
  destruct (handle_cmd_drive s s' E) as [E1|(m & m' & M1 & M2 & M3 & M4 & M5 & Eg & M6)].
  { by apply (described_same s). }
  assert (Hm : described m').
  { eapply (set_geometry_described m); [rewrite M1; apply Hs| |exact Eg|].
    - rewrite M5. destruct (ok_regs _ Hs) as (_&_&_&_&_&Hh&_). unfold is_u8 in Hh. lia.
    - rewrite M1, M2, M4. intros Hp Hc. by apply Hd. }
  destruct (same_set_geometry _ _ _ _ Eg) as (_&_&G1&_&G2&_).
  assert (Gi : image_ m' = image_ m).
  { unfold set_geometry in Eg; cbv zeta in Eg. handler_cases Eg; by simplify_eq. }
  apply (described_same m'); [done|done|..]; [congruence|congruence|].
  rewrite Gi, M4. done.
Qed.

Section Described.
Context (fs_read : list Z -> option (list Z)) (fs_absolute : list Z -> list Z).
Context (Hread : forall p c, fs_read p = Some c -> bytes c).
Context (Habs : forall p, bytes p -> bytes (fs_absolute p)).

Lemma reachable_described s : reachable fs_read fs_absolute s -> described s.
Proof.
  induction 1 as [id base|id base path ok s Hp H|id base path ok s Hp H|g s tb g' s' tb' Hr IH Htb H].
  - done.
  - unfold open in H. destruct (fs_read path) as [content|]; [|by injection H as _ <-].
    cbv zeta in H. set (s1 := _ <| image_path_ := _ |>) in H.
    destruct (set_geometry s1 63 16) as [s2|] eqn:E; [|done]. cbn in H. injection H as _ <-.
    apply (set_geometry_described s1 63 16); [|lia|exact E|done].
    apply with_total_ok. pose proof (new_ok id base) as Hn. apply Hn.
  - unfold open_cdrom in H. destruct (fs_read path) as [content|]; [|by injection H as _ <-].
    cbv zeta in H. case_bool; injection H as _ <-; [done|]. intros _ Hc. done.
  - pose proof (reachable_ok _ _ Hread Habs s Hr) as Hs. revert H.
    destruct (tick_cases g s tb) as [Hres|Hres Hc|Hres Hc Hj|Hres Hc Hj]; try (by intros [= _ <- _]).
    destruct (dispatch s (clear_bus tb)) as [[s1 tb1]|] eqn:E; [|done]. cbn [mbind option_bind].
    pose proof (dispatch_described s (clear_bus tb) s1 tb1 Hs (clear_bus_ok _ Htb) IH E) as H1.
    intros H. apply (described_same s1); [done|..].
    all: unfold arm_cooldown in H; repeat case_bool; [destruct (jitter_next g)|..]; injection H as _ <- _; done.
Qed.
End Described.

(** ** Commands without a data-in phase from the medium *)

Definition identify_regs (drv : Z) : HpsIdeRegs :=
  regs_init <| r_drv := drv |> <| r_io_size := 1 |>
    <| r_status := Z.lor (Z.lor (Z.lor ATA_STATUS_RDY ATA_STATUS_DRQ) ATA_STATUS_IRQ) ATA_STATUS_END |>.

Definition identifying (s : HpsIde) : HpsIde :=
  mask_taskfile s <| regs_ := identify_regs (r_drv (regs_ s)) |> <| state_ := SEND_ID |> <| cnt_ := 0 |>.

Lemma mask_taskfile_drv s :
  r_drv (regs_ (mask_taskfile s)) = r_drv (regs_ s) /\ cmd_ (mask_taskfile s) = cmd_ s.
Proof. unfold mask_taskfile; cbv zeta. split; [|done]. cbn. by repeat case_bool. Qed.

Lemma dispatch_identify s tb :
  state_ s = DO_CMD -> d_present (drive_ s) = true -> r_drv (regs_ s) = 0 -> cdrom_ s = false ->
  cmd_ s = 0xEC -> dispatch s tb = Some (identifying s, tb).
Proof.
  intros Hst Hp Hd Hc Hcmd. unfold dispatch. rewrite Hst. unfold on_DO_CMD, handle_cmd.
  rewrite Hp, Hd, Hc. cbn [negb orb Z.eqb]. unfold handle_disk_cmd; cbv zeta.
  destruct (mask_taskfile_drv s) as [M1 M2]. rewrite M2, Hcmd, M1. done.
Qed.

(** The operations of SEND_ID, for any state about to send. *)
Lemma goes_send_id env h s :
  env_ok env -> state_ s = SEND_ID -> cnt_ s = 0 ->
  goes env h s (h ++ send_ops (base_ s) (d_id (drive_ s)))
    (with_cnt s 256 <| state_ := SET_REGS |> <| next_state_ := IDLE |>) (65 * 257).
Proof.
  intros He Hst Hc Hh Hs Hr.
  assert (Hlen : length (d_id (drive_ s)) = 256%nat) by apply (ok_drive _ Hs).
  assert (Hids : Forall is_u16 (d_id (drive_ s))) by apply (ok_drive _ Hs).
  set (f := fun i => default 0 (d_id (drive_ s) !! i)).
  assert (Hf : map f (seq 0 256) = d_id (drive_ s)).
  { apply list_eq. intros i. rewrite list_lookup_fmap. destruct (decide (i < 256)%nat) as [Hi|Hi].
    - rewrite lookup_seq_lt by lia. cbn. unfold f.
      destruct (lookup_lt_is_Some_2 (d_id (drive_ s)) i) as [x ->]; [lia|done].
    - rewrite lookup_seq_ge, lookup_ge_None_2 by lia. done. }
  rewrite <- Hf. revert Hh Hs Hr.
  refine (goes_send env h s _ f 256 He _ Hc _ _).
  - intros _ i. unfold f. apply (Forall_lookup_default is_u16); [width|done].
  - intros i tb Hi _. unfold dispatch. change (state_ (with_cnt s i)) with (state_ s). rewrite Hst.
    unfold on_SEND_ID. change (cnt_ (with_cnt s i)) with (Z.of_nat i).
    change (drive_ (with_cnt s i)) with (drive_ s).
    rewrite (proj2 (Z.ltb_lt _ _)) by lia. unfold zlookup. rewrite (proj2 (Z.leb_le _ _)), Nat2Z.id by lia.
    unfold f. destruct (lookup_lt_is_Some_2 (d_id (drive_ s)) i) as [x ->]; [lia|].
    cbn [mbind option_bind default]. by rewrite with_cnt_S.
  - intros tb _. unfold dispatch. change (state_ (with_cnt s 256)) with (state_ s). rewrite Hst. done.
Qed.

(** The error a command is rejected with: aborted, not busy, interrupt. *)
Definition aborted (r : HpsIdeRegs) : Prop :=
  r_error r = 0x04 /\ Z.land (r_status r) ATA_STATUS_ERR = ATA_STATUS_ERR /\
  Z.land (r_status r) ATA_STATUS_DRQ = 0 /\ Z.land (r_status r) ATA_STATUS_IRQ = ATA_STATUS_IRQ.

(** The commands a disk carries out. *)
Definition disk_command (c : Z) : bool :=
  existsb (Z.eqb c) [0xEC; 0x20; 0x21; 0x30; 0x31; 0x91; 0x40] || ((0x10 <=? c) && (c <=? 0x1F)).

Lemma dispatch_rejects s tb :
  state_ s = DO_CMD ->
  (d_present (drive_ s) = false \/ r_drv (regs_ s) <> 0 \/ (cdrom_ s = false /\ disk_command (cmd_ s) = false)) ->
  exists s0, dispatch s tb = Some (reject_cmd s0, tb) /\ image_ s0 = image_ s /\
    cdrom_ s0 = cdrom_ s /\ base_ s0 = base_ s /\ drive_ s0 = drive_ s.
Proof.
  intros Hst Hcase. unfold dispatch. rewrite Hst. unfold on_DO_CMD, handle_cmd.
  destruct (negb (d_present (drive_ s)) || negb (r_drv (regs_ s) =? 0)) eqn:E; [by exists s|].
  apply orb_false_iff in E as [E1 E2].
  destruct Hcase as [H|[H|[Hc Hcmd]]]; [by rewrite H in E1|lia|]. rewrite Hc.
  exists (mask_taskfile s). destruct (mask_taskfile_same s) as (M1 & M2 & M3 & _ & M5).
  destruct (mask_taskfile_drv s) as [_ M6]. unfold handle_disk_cmd; cbv zeta. rewrite M6.
  unfold disk_command in Hcmd. apply orb_false_iff in Hcmd as [Hx Hy]. cbn [existsb] in Hx.
  repeat (apply orb_false_iff in Hx as [? Hx]).
  repeat match goal with H : (cmd_ s =? _) = false |- _ => rewrite H; clear H end.
  rewrite Hy. cbn [orb mbind option_bind]. by split_and!.
Qed.

(** ** Properties *)

Section Identify.
Context (fs_read : list Z -> option (list Z)) (fs_absolute : list Z -> list Z).
Context (Hread : forall p c, fs_read p = Some c -> bytes c).
Context (Habs : forall p, bytes p -> bytes (fs_absolute p)).

(** IDENTIFY DEVICE describes the medium.  The 256 words a disk sends for
    it carry the translation in force, the number of 512-byte sectors of the
    image in words 60 and 61, of which the translation addresses no more than
    there are, and the image's name as the model number; the command then ends
    without error and the device is idle. *)
Lemma identify_command env h s tf :
  env_ok env -> Forall op_ok h -> reachable fs_read fs_absolute s -> ready s -> state_ s = IDLE ->
  base_ s mod 16 = 0 -> d_present (drive_ s) = true -> cdrom_ s = false ->
  (forall k, (k < 6)%nat -> is_u16 (tf k)) -> addresses_drive0 tf -> cmd_code tf = 0xEC ->
  requests env (id_ s) h 4 -> answers env (base_ s) h tf ->
  exists ids r s',
    length ids = 256%nat /\
    id_word ids 60 + 65536 * id_word ids 61 = u32 (Z.of_nat (length (image_ s)) / 512) /\
    0 < id_word ids 3 /\ 0 < id_word ids 6 /\
    id_word ids 1 * id_word ids 3 * id_word ids 6 <= id_word ids 60 + 65536 * id_word ids 61 /\
    id_model ids = padded_name (image_name_ s) /\
    Z.land (r_status r) ATA_STATUS_ERR = 0 /\
    reaches env h s
      (h ++ taskfile_ops (base_ s) ++ send_ops (base_ s) ids ++ report_words (base_ s) false r)
      s' (65 * 273) /\
    image_ s' = image_ s /\ state_ s' = IDLE.
Proof.
  intros He Hh Hs Hr Hst Hbase Hp Hc Htf Hdrv Hcode Hreq Hans.
  pose proof (reachable_described _ _ Hread Habs s Hs Hp Hc) as (Hid & Htot & Hcyl).
  pose proof (reachable_ok _ _ Hread Habs s Hs) as Hok.
  destruct (ok_drive _ Hok) as (_ & Hhd & Hspt & Ht32 & _ & Hlen & _).
  pose proof (goes_command env h s tf He Hst Hbase Hreq Hans) as G1.
  destruct (latched_fields tf s Htf) as (L1 & L2 & L3 & L4 & L5 & L6 & L7 & L8 & L9 & L10 & L11 & L12 & L13 & _).
  revert G1 L1 L2 L3 L4 L5 L6 L7 L12. generalize (latched tf 6 s).
  intros s1 G1 L1 L2 L3 L4 L5 L6 L7 L12.
  assert (G2 : goes env (h ++ taskfile_ops (base_ s)) s1 (h ++ taskfile_ops (base_ s)) (identifying s1) 65).
  { apply goes_silent; [done|]. intros tb _ _. unfold addresses_drive0 in Hdrv.
    apply dispatch_identify; congruence. }
  pose proof (goes_send_id env (h ++ taskfile_ops (base_ s)) (identifying s1) He eq_refl eq_refl) as G3.
  destruct (mask_taskfile_same s1) as (M1 & M2 & M3 & M4 & M5).
  assert (B : base_ (identifying s1) = base_ s) by (transitivity (base_ (mask_taskfile s1)); [done|congruence]).
  assert (D : drive_ (identifying s1) = drive_ s) by (transitivity (drive_ (mask_taskfile s1)); [done|congruence]).
  assert (I : image_ (identifying s1) = image_ s) by (transitivity (image_ (mask_taskfile s1)); [done|congruence]).
  assert (C : cdrom_ (identifying s1) = false) by (transitivity (cdrom_ (mask_taskfile s1)); [done|congruence]).
  assert (R : regs_ (identifying s1) = identify_regs (r_drv (regs_ s1))) by done.
  revert G2 G3 B D I C R. generalize (identifying s1). intros s2 G2 G3 B D I C R.
  rewrite B, D in G3.
  set (s3 := with_cnt s2 256 <| state_ := SET_REGS |> <| next_state_ := IDLE |>) in G3.
  pose proof (goes_report env ((h ++ taskfile_ops (base_ s)) ++ send_ops (base_ s) (d_id (drive_ s))) s3 He eq_refl) as G4.
  assert (Er : report_ops s3 = report_words (base_ s) false (regs_ s2)).
  { unfold report_ops, report_words, report_regs. change (cdrom_ s3) with (cdrom_ s2).
    change (base_ s3) with (base_ s2). change (regs_ s3) with (regs_ s2). rewrite C, B, R. done. }
  rewrite Er in G4.
  destruct (disk_identify_words (drive_ s) (image_name_ s)) as (W1 & W3 & W6 & W60 & W61).
  rewrite <- Hid in W1, W3, W6, W60, W61.
  assert (E32 : u16 (Z.land (d_total_sectors (drive_ s)) 0xFFFF) +
     65536 * u16 (Z.shiftr (d_total_sectors (drive_ s)) 16) = d_total_sectors (drive_ s)).
  { change 0xFFFF with 65535. rewrite land_65535, shiftr_div by lia. change (2 ^ 16) with 65536.
    unfold is_u32, u16 in *. divlia. }
  exists (d_id (drive_ s)), (regs_ s2), (after_report s3).
  rewrite W1, W3, W6, W60, W61, E32. split_and!; try assumption; try lia.
  - rewrite Hcyl. unfold is_u32 in Ht32. rewrite <- Z.mul_assoc.
    assert (0 < d_heads (drive_ s) * d_spt (drive_ s)) by nia.
    pose proof (Z.mul_div_le (d_total_sectors (drive_ s)) (d_heads (drive_ s) * d_spt (drive_ s)) ltac:(lia)).
    nia.
  - rewrite Hid. apply disk_identify_model, Hok.
  - by rewrite R.
  - apply goes_reaches; [|done].
    eapply goes_eq; [exact (goes_trans _ _ _ _ _ _ _ _ _ G1 (goes_trans _ _ _ _ _ _ _ _ _ G2
      (goes_trans _ _ _ _ _ _ _ _ _ G3 G4)))| |done|lia].
    by rewrite <- !app_assoc.
  - done.
Qed.

(** Commands the device cannot do are aborted.  A command for an absent
    drive, for drive 1, or, on a disk, with an opcode it does not implement is
    answered within a bound of ticks with the abort error and an interrupt and
    no data; the medium is untouched and the device idle again. *)
Lemma unsupported_command env h s tf :
  env_ok env -> Forall op_ok h -> reachable fs_read fs_absolute s -> ready s -> state_ s = IDLE ->
  base_ s mod 16 = 0 -> (forall k, (k < 6)%nat -> is_u16 (tf k)) ->
  (d_present (drive_ s) = false \/ ~ addresses_drive0 tf \/
   (cdrom_ s = false /\ disk_command (cmd_code tf) = false)) ->
  requests env (id_ s) h 4 -> answers env (base_ s) h tf ->
  exists r s', aborted r /\
    reaches env h s (h ++ taskfile_ops (base_ s) ++ report_words (base_ s) (cdrom_ s) r) s' (65 * 16) /\
    image_ s' = image_ s /\ drive_ s' = drive_ s /\ state_ s' = IDLE.
Proof.
  intros He Hh Hs Hr Hst Hbase Htf Hcase Hreq Hans.
  pose proof (reachable_ok _ _ Hread Habs s Hs) as Hok.
  pose proof (goes_command env h s tf He Hst Hbase Hreq Hans) as G1.
  destruct (latched_fields tf s Htf) as (L1 & L2 & L3 & L4 & L5 & L6 & L7 & L8 & L9 & L10 & L11 & L12 & L13 & _).
  revert G1 L1 L2 L3 L4 L5 L6 L7 L12. generalize (latched tf 6 s).
  intros s1 G1 L1 L2 L3 L4 L5 L6 L7 L12.
  assert (Hcase1 : d_present (drive_ s1) = false \/ r_drv (regs_ s1) <> 0 \/
     (cdrom_ s1 = false /\ disk_command (cmd_ s1) = false)).
  { rewrite L1, L3, L7, L12. unfold addresses_drive0 in Hcase. tauto. }
  destruct (dispatch_rejects s1 idle_bus L2 Hcase1) as (s0 & E0 & I & C & B & D).
  assert (G2 : goes env (h ++ taskfile_ops (base_ s)) s1 (h ++ taskfile_ops (base_ s)) (reject_cmd s0) 65).
  { apply goes_silent; [done|]. intros tb _ _. revert E0. unfold dispatch. rewrite L2. unfold on_DO_CMD.
    destruct (handle_cmd s1); [|done]. cbn [mbind option_bind]. by intros [= ->]. }
  pose proof (goes_report env (h ++ taskfile_ops (base_ s)) (reject_cmd s0) He eq_refl) as G3.
  rewrite L5 in B. rewrite L7 in C. rewrite L4 in I. rewrite L3 in D.
  exists (report_regs (reject_cmd s0)), (after_report (reject_cmd s0)). split_and!; try done.
  - unfold aborted, report_regs. change (cdrom_ (reject_cmd s0)) with (cdrom_ s0).
    destruct (cdrom_ s0); split_and!; reflexivity.
  - apply goes_reaches; [|done].
    eapply goes_eq; [exact (goes_trans _ _ _ _ _ _ _ _ _ G1 (goes_trans _ _ _ _ _ _ _ _ _ G2 G3))| |done|lia].
    rewrite <- app_assoc. unfold report_ops, report_words.
    change (cdrom_ (reject_cmd s0)) with (cdrom_ s0). change (base_ (reject_cmd s0)) with (base_ s0).
    by rewrite B, C.
Qed.
End Identify.

Lemma identify_command_witness :
  exists ids r s',
    length ids = 256%nat /\
    id_word ids 60 + 65536 * id_word ids 61 = u32 (Z.of_nat (length (image_ idle_disk)) / 512) /\
    0 < id_word ids 3 /\ 0 < id_word ids 6 /\
    id_word ids 1 * id_word ids 3 * id_word ids 6 <= id_word ids 60 + 65536 * id_word ids 61 /\
    id_model ids = padded_name (image_name_ idle_disk) /\
    Z.land (r_status r) ATA_STATUS_ERR = 0 /\
    reaches (demo_core (demo_taskfile 0xEC) (fun _ => 0)) [] idle_disk
      (taskfile_ops 0xF000 ++ send_ops 0xF000 ids ++ report_words 0xF000 false r) s' (65 * 273) /\
    image_ s' = image_ idle_disk /\ state_ s' = IDLE.
Proof.
  apply (identify_command demo_files same_path demo_bytes (fun _ H => H)
           (demo_core (demo_taskfile 0xEC) (fun _ => 0)) [] idle_disk (demo_taskfile 0xEC)); demo_hypotheses.
Defined.

Lemma unsupported_command_witness :
  exists r s', aborted r /\
    reaches (demo_core (demo_taskfile 0xC4) (fun _ => 0)) [] idle_disk
      (taskfile_ops 0xF000 ++ report_words 0xF000 false r) s' (65 * 16) /\
    image_ s' = image_ idle_disk /\ drive_ s' = drive_ idle_disk /\ state_ s' = IDLE.
Proof.
  apply (unsupported_command demo_files same_path demo_bytes (fun _ H => H)
           (demo_core (demo_taskfile 0xC4) (fun _ => 0)) [] idle_disk (demo_taskfile 0xC4));
    try demo_hypotheses.
  right; right. split; vm_compute; reflexivity.
Defined.
