(* ===== verification/IdeCheckpoint.v ===== *)
(** * Device checkpoints

    [HpsIde::save], [HpsIde::load], [save_image], [load_image] and
    [adopt_image_path] of verilator/ide_hps.cpp.  A checkpoint holds the image as
    the 512-byte sectors that differ from the image file, or whole when the file
    cannot serve as the base.  Loading what was saved restores the device, up to
    the jitter delay, which is not saved. *)
From S2P Require Import Prelude Blocks Codec IdeTypes IdeGeometry IdePacket IdeCommand IdeTick.
From S2P Require Import IdeInvariant IdeSafety.

(** ** [State] as the [uint32_t] of a checkpoint *)

Definition state_index (st : State) : Z :=
  match st with
  | INITIAL => 0 | IDLE => 1 | GET_RESET_DRIVE => 2 | RESET_SET => 3 | GET_CMD => 4 | DO_CMD => 5
  | SEND_ID => 6 | SET_REGS => 7 | SET_REGS_SEND => 8 | READ => 9 | READ_REGS => 10
  | READ_SEND => 11 | READ_WAIT_REQ => 12 | WRITE => 13 | WRITE_REGS => 14
  | WRITE_WAIT_REQ => 15 | WRITE_RECV => 16 | PACKET_WAIT_REQ => 17 | PACKET_RECV => 18
  | PACKET_SEND => 19 | PACKET_READ_WAIT_REQ => 20 | PACKET_HANDLE => 21
  end.

Definition all_states : list State :=
  [INITIAL; IDLE; GET_RESET_DRIVE; RESET_SET; GET_CMD; DO_CMD; SEND_ID; SET_REGS; SET_REGS_SEND;
   READ; READ_REGS; READ_SEND; READ_WAIT_REQ; WRITE; WRITE_REGS; WRITE_WAIT_REQ; WRITE_RECV;
   PACKET_WAIT_REQ; PACKET_RECV; PACKET_SEND; PACKET_READ_WAIT_REQ; PACKET_HANDLE].

(** [static_cast<State>(state)]; other values name no state. *)
Definition state_of (n : Z) : option State := zlookup all_states n.

Lemma state_of_index st : state_of (state_index st) = Some st /\ 0 <= state_index st < 22.
Proof. by destruct st. Qed.

(** ** Registers and drive *)

Definition write_regs (r : HpsIdeRegs) : list Z :=
  write_pod u8c (r_io_size r) ++ write_pod u8c (r_error r) ++ write_pod u16c (r_sector_count r) ++
  write_pod u16c (r_sector r) ++ write_pod u32c (r_cylinder r) ++ write_pod u8c (r_head r) ++
  write_pod u8c (r_drv r) ++ write_pod u8c (r_lba r) ++ write_pod u8c (r_cmd r) ++
  write_pod u16c (r_pkt_io_size r) ++ write_pod u8c (r_status r).

Definition read_regs : Loader HpsIdeRegs :=
  load_pod u8c r_io_size ;;; load_pod u8c r_error ;;; load_pod u16c r_sector_count ;;;
  load_pod u16c r_sector ;;; load_pod u32c r_cylinder ;;; load_pod u8c r_head ;;;
  load_pod u8c r_drv ;;; load_pod u8c r_lba ;;; load_pod u8c r_cmd ;;;
  load_pod u16c r_pkt_io_size ;;; load_pod u8c r_status.

Definition write_drive (d : HpsIdeDrive) : list Z :=
  write_pod boolean (d_present d) ++ write_pod u16c (d_cylinders d) ++ write_pod u16c (d_heads d) ++
  write_pod u16c (d_spt d) ++ write_pod u32c (d_total_sectors d) ++ write_pod u32c (d_spb d) ++
  write_pods u16c (d_id d).

Definition read_drive : Loader HpsIdeDrive :=
  load_pod boolean d_present ;;; load_pod u16c d_cylinders ;;; load_pod u16c d_heads ;;;
  load_pod u16c d_spt ;;; load_pod u32c d_total_sectors ;;; load_pod u32c d_spb ;;;
  load_pods u16c d_id.

(** ** The image, as a difference to its file

    [fs_stat path]: size and modification time of a file, [fs_read path] its
    content; both [None] when there is no such file. *)

Definition sector_chunk (img : list Z) (k : nat) : list Z := take 512 (drop (k * 512) img).

(** [for (size_t s = 0; s * 512 < image_.size(); ++s)]. *)
Definition sector_total (img : list Z) : nat := ((length img + 511) / 512)%nat.

Definition dirty_sectors (img base : list Z) : list nat :=
  filter (fun k => sector_chunk img k <> sector_chunk base k) (seq 0 (sector_total img)).

Section Checkpoint.
Context (fs_read : list Z -> option (list Z)) (fs_stat : list Z -> option (Z * Z)).
Context (fs_absolute : list Z -> list Z).

Definition file_identity (path : list Z) : option (Z * Z) :=
  match path with [] => None | _ => fs_stat path end.

(** [ifstream f(path); f.read(buf, size); if (!f) ...]. *)
Definition read_file (path : list Z) (size : Z) : option (list Z) :=
  match fs_read path with
  | Some content => if size <=? Z.of_nat (length content) then Some (take (Z.to_nat size) content) else None
  | None => None
  end.

Definition write_sector_diff (img : list Z) (k : nat) : list Z :=
  write_pod u32c (u32 (Z.of_nat k)) ++ sector_chunk img (Z.to_nat (u32 (Z.of_nat k))).

Definition save_image (s : HpsIde) : list Z :=
  let img := image_ s in
  let found :=
    match file_identity (image_path_ s) with
    | Some (size, mtime) =>
      if size =? Z.of_nat (length img) then
        match read_file (image_path_ s) size with
        | Some ((_ :: _) as base) => Some (size, mtime, base)
        | _ => None
        end
      else None
    | None => None
    end in
  write_string (image_path_ s) ++
  match found with
  | None => write_pod u8c 0 ++ write_vector_u8 img
  | Some (size, mtime, base) =>
    let dirty := dirty_sectors img base in
    write_pod u8c 1 ++ write_pod u64c size ++ write_pod (signed 8) mtime ++
    write_pod u64c (Z.of_nat (length dirty)) ++ concat (map (write_sector_diff img) dirty)
  end.

(** One sector of a difference; outside the image the access is undefined. *)
Definition load_sector : Loader (list Z) := fun img i =>
  '(k, i) ← read_pod u32c 0 i;
  let off := k * 512 in
  if Z.of_nat (length img) <=? off then Undefined
  else
    let n := Z.to_nat (Z.min 512 (Z.of_nat (length img) - off)) in
    let '(l, i) := istream_read n (take n (drop (Z.to_nat off) img)) i in
    Ok (splice (Z.to_nat off) l img, i).

Fixpoint load_sectors (count : nat) : Loader (list Z) :=
  match count with
  | O => fun img i => Ok (img, i)
  | S count => load_sector ;;; load_sectors count
  end.

Definition load_image : Loader HpsIde := fun s i =>
  '(s, i) ← load_string image_path_ s i;
  '(as_diff, i) ← read_pod u8c 0 i;
  if as_diff =? 0 then load_vector_u8 image_ s i
  else
    '(size, i) ← read_pod u64c 0 i;
    '(mtime, i) ← read_pod (signed 8) 0 i;
    match file_identity (image_path_ s) with
    | Some (now_size, _) =>
      if negb (now_size =? size) then Throw
      else
        match read_file (image_path_ s) size with
        | None => Throw
        | Some base =>
          '(count, i) ← read_pod u64c 0 i;
          '(img, i) ← load_sectors (Z.to_nat count) base i;
          Ok (s <| image_ := img |>, i)
        end
    | None => Throw
    end.

Definition adopt_image_path (s : HpsIde) (path : list Z) : HpsIde :=
  match image_path_ s, file_identity path with
  | [], Some (size, _) =>
    if size =? Z.of_nat (length (image_ s)) then s <| image_path_ := fs_absolute path |> else s
  | _, _ => s
  end.

(** ** [HpsIde::save], [HpsIde::load] *)

Definition no_window : Z := 18446744073709551615.

(** The offset of [sector_words_] in a non-empty image. *)
Definition window_offset (s : HpsIde) : Z :=
  match sector_words_ s with
  | Some off => if (0 <=? off) && (off <? Z.of_nat (length (image_ s))) then off else no_window
  | None => no_window
  end.

Definition save (s : HpsIde) : list Z :=
  write_pod u32c 0x48494445 ++ write_pod u32c 3 ++
  write_pod u8c (id_ s) ++ write_pod u16c (base_ s) ++
  write_pod u32c (state_index (state_ s)) ++ write_pod u32c (state_index (next_state_ s)) ++
  write_regs (regs_ s) ++ write_drive (drive_ s) ++ save_image s ++
  write_string (image_name_ s) ++ write_pod u64c (window_offset s) ++
  write_pod u32c (sector_ s) ++ write_pod u32c (sector_count_ s) ++ write_pod u32c (cylinder_ s) ++
  write_pod u8c (drv_addr_ s) ++ write_pod u8c (cmd_ s) ++ buf_ s ++
  write_pod (signed 4) (cnt_ s) ++ write_pod u8c (irq_pending_ s) ++
  write_pod boolean (bus_cooldown_ s) ++ write_pod boolean (debug_ s) ++
  write_pod boolean (cdrom_ s) ++ write_pod u8c (features_ s) ++ packet_ s ++
  write_vector_u8 (packet_data_ s) ++ write_pod u32c (packet_lba_ s) ++
  write_pod u32c (packet_remaining_ s) ++ write_pod u16c (packet_size_limit_ s) ++
  write_pod u8c (sense_key_ s) ++ write_pod u8c (sense_asc_ s) ++ write_pod u8c (sense_ascq_ s).

Definition load_states : Loader HpsIde := fun s i =>
  '(state, i) ← read_pod u32c 0 i;
  '(next_state, i) ← read_pod u32c 0 i;
  match state_of state, state_of next_state with
  | Some st, Some nx => Ok (s <| state_ := st |> <| next_state_ := nx |>, i)
  | _, _ => Undefined
  end.

(** The members before the window offset, and those after it. *)
Definition load_head (version : Z) : Loader HpsIde :=
  load_pod u8c id_ ;;; load_pod u16c base_ ;;; load_states ;;;
  load_sub regs_ read_regs ;;; load_sub drive_ read_drive ;;;
  (if 3 <=? version then load_image else load_vector_u8 image_) ;;;
  load_string image_name_.

Definition load_tail (version : Z) : Loader HpsIde :=
  load_pod u32c sector_ ;;; load_pod u32c sector_count_ ;;; load_pod u32c cylinder_ ;;;
  load_pod u8c drv_addr_ ;;; load_pod u8c cmd_ ;;; load_buf buf_ ;;;
  load_pod (signed 4) cnt_ ;;; load_pod u8c irq_pending_ ;;;
  load_pod boolean bus_cooldown_ ;;; load_pod boolean debug_ ;;;
  (if 2 <=? version then
     load_pod boolean cdrom_ ;;; load_pod u8c features_ ;;; load_buf packet_ ;;;
     load_vector_u8 packet_data_ ;;; load_pod u32c packet_lba_ ;;;
     load_pod u32c packet_remaining_ ;;; load_pod u16c packet_size_limit_ ;;;
     load_pod u8c sense_key_ ;;; load_pod u8c sense_asc_ ;;; load_pod u8c sense_ascq_
   else fun s i => Ok (s, i)).

Definition load : Loader HpsIde := fun s i =>
  '(magic, i) ← read_pod u32c 0 i;
  '(version, i) ← read_pod u32c 0 i;
  if negb (magic =? 0x48494445) || (version <? 1) || (3 <? version) then Throw
  else
    '(s, i) ← load_head version s i;
    '(off, i) ← read_pod u64c no_window i;
    '(s, i) ← load_tail version s i;
    let fits := negb (off =? no_window) && (u64 (off + 512) <=? Z.of_nat (length (image_ s))) in
    Ok (s <| sector_words_ := if fits then Some off else None |>, i).
End Checkpoint.

(** ** The difference and its application *)

(** A sector is a block of 512 bytes ([Blocks]). *)
Lemma length_chunk img k : length (sector_chunk img k) = Nat.min 512 (length img - k * 512).
Proof. apply (length_block 512). Qed.

Lemma length_splice_chunk new img k :
  length img = length new -> (k * 512 < length new)%nat ->
  length (splice (k * 512) (sector_chunk new k) img) = length new.
Proof. exact (length_splice_block 512 new img k). Qed.

Lemma sector_total_bound img k : (k < sector_total img)%nat <-> (k * 512 < length img)%nat.
Proof.
  unfold sector_total. split; intros H.
  - pose proof (Nat.div_mod_eq (length img + 511) 512).
    pose proof (Nat.mod_upper_bound (length img + 511) 512). nia.
  - apply Nat.div_le_lower_bound; lia.
Qed.

Lemma dirty_in_range img base :
  Forall (fun k => k * 512 < length img)%nat (dirty_sectors img base).
Proof.
  apply Forall_forall. intros k Hk. unfold dirty_sectors in Hk.
  apply list_elem_of_filter in Hk as [_ Hk]. apply elem_of_seq in Hk.
  apply sector_total_bound. lia.
Qed.

(** The difference carries exactly what the file lacks. *)
Lemma patch_dirty img base :
  length base = length img -> patch 512 img (dirty_sectors img base) base = img.
Proof.
  intros Hlen. apply patch_complete; [lia|done|apply dirty_in_range|]. intros k Hk Hin.
  destruct (decide (sector_chunk img k = sector_chunk base k)) as [|Hne]; [done|].
  exfalso. apply Hin, list_elem_of_filter. split; [exact Hne|].
  apply elem_of_seq. split; [lia|]. by apply sector_total_bound.
Qed.

(** ** Loading a difference *)

Lemma loads_sector new img k :
  length img = length new -> (k * 512 < length new)%nat -> Z.of_nat (length new) < 2199023255552 ->
  loads load_sector img (write_sector_diff new k) (splice (k * 512) (sector_chunk new k) img).
Proof.
  intros Hlen Hk H32 rest. unfold load_sector, write_sector_diff.
  assert (Hu : u32 (Z.of_nat k) = Z.of_nat k) by (apply u32_id; unfold is_u32; lia).
  rewrite Hu, Nat2Z.id, <- app_assoc.
  rewrite (read_pod_write u32c) by (apply valid_u32; unfold is_u32; lia). cbn [mbind Result_bind].
  rewrite (proj2 (Z.leb_gt _ _)) by lia.
  replace (Z.to_nat (Z.of_nat k * 512)) with (k * 512)%nat by lia.
  replace (Z.to_nat (Z.min 512 (Z.of_nat (length img) - Z.of_nat k * 512)))
    with (Nat.min 512 (length new - k * 512)) by lia.
  rewrite istream_read_full; [done|apply length_chunk|].
  rewrite length_take, length_drop. lia.
Qed.

Lemma loads_sectors new ks : forall img,
  length img = length new -> Forall (fun k => k * 512 < length new)%nat ks ->
  Z.of_nat (length new) < 2199023255552 ->
  loads (load_sectors (length ks)) img (concat (map (write_sector_diff new) ks)) (patch 512 new ks img).
Proof.
  induction ks as [|k ks IH]; intros img Hlen Hks H32; [done|].
  inversion_clear Hks. cbn [length load_sectors map concat].
  change (patch 512 new (k :: ks) img) with (patch 512 new ks (splice (k * 512) (sector_chunk new k) img)).
  eapply loads_seq; [by apply loads_sector|]. apply IH; try done. by apply length_splice_chunk.
Qed.

(** ** Round trips of the parts *)

Create HintDb loads.
#[local] Hint Resolve loads_pod loads_buf loads_string loads_vector_u8 loads_pods loads_sub : loads.

(** One member of an object at a time. *)
Ltac load_steps := repeat (eapply loads_seq; [solve [eauto 4 with loads codec typeclass_instances]|]).

Lemma loads_eq {S} (l : Loader S) s bs s1 s2 : loads l s bs s1 -> s1 = s2 -> loads l s bs s2.
Proof. by intros H <-. Qed.

Lemma regs_round_trip r r0 : regs_ok r -> loads read_regs r0 (write_regs r) r.
Proof.
  intros (?&?&?&?&?&?&?&?&?&?&?). unfold read_regs, write_regs.
  eapply loads_eq; [load_steps; apply loads_pod; [apply _|by apply valid_u8]|].
  by destruct r, r0.
Qed.

Lemma drive_round_trip d d0 :
  drive_ok d -> drive_ok d0 -> loads read_drive d0 (write_drive d) d.
Proof.
  intros (? & Hh & Hs & ? & ? & Hid & Hids) (_&_&_&_&_&Hid0&_).
  assert (is_u16 (d_heads d)) by (unfold is_u16; lia).
  assert (is_u16 (d_spt d)) by (unfold is_u16; lia).
  unfold read_drive, write_drive.
  eapply loads_eq; [load_steps; apply loads_pods; [apply _| |cbn; congruence]|].
  - eapply Forall_impl; [exact Hids|]. intros; by apply valid_u16.
  - by destruct d, d0.
Qed.

(** The sizes a checkpoint can represent: strings of 32-bit length, images of
    2^32 sectors. *)
Definition checkpointable (s : HpsIde) : Prop :=
  Z.of_nat (length (image_ s)) < 2199023255552 /\
  Z.of_nat (length (image_name_ s)) < 4294967296 /\
  Z.of_nat (length (image_path_ s)) < 4294967296 /\
  Z.of_nat (length (packet_data_ s)) < 18446744073709551616.

Section RoundTrip.
Context (fs_read : list Z -> option (list Z)) (fs_stat : list Z -> option (Z * Z)).
(* stat: off_t and time_t *)
Context (Hstat : forall p size mtime, fs_stat p = Some (size, mtime) ->
  0 <= size < 9223372036854775808 /\ -9223372036854775808 <= mtime < 9223372036854775808).

Lemma read_file_length p size base :
  0 <= size -> read_file fs_read p size = Some base -> Z.of_nat (length base) = size.
Proof.
  unfold read_file. intros H0 H. destruct (fs_read p) as [c|]; [|done]. case_bool; [|done].
  injection H as <-. rewrite length_take. lia.
Qed.

Lemma length_dirty img base : (length (dirty_sectors img base) <= length img + 511)%nat.
Proof.
  unfold dirty_sectors. etransitivity; [apply length_filter|]. rewrite length_seq.
  unfold sector_total. pose proof (Nat.div_mod_eq (length img + 511) 512). lia.
Qed.

Lemma image_round_trip s s0 :
  Z.of_nat (length (image_ s)) < 2199023255552 -> Z.of_nat (length (image_path_ s)) < 4294967296 ->
  loads (load_image fs_read fs_stat) s0 (save_image fs_read fs_stat s)
    (s0 <| image_path_ := image_path_ s |> <| image_ := image_ s |>).
Proof.
  intros Himg Hpath rest. unfold save_image, load_image. cbv zeta. rewrite <- app_assoc.
  rewrite (loads_string image_path_ s0 (image_path_ s) Hpath). cbn [mbind Result_bind].
  set (s1 := s0 <| image_path_ := image_path_ s |>). change (image_path_ s1) with (image_path_ s).
  assert (Hwhole : forall rest, ('(as_diff, i) ← read_pod u8c 0 (stream ((write_pod u8c 0 ++ write_vector_u8 (image_ s)) ++ rest));
    if as_diff =? 0 then load_vector_u8 image_ s1 i else Undefined) =
      Ok (s1 <| image_ := image_ s |>, stream rest)).
  { intros rest'. rewrite <- app_assoc, (read_pod_write u8c) by (apply valid_u8; width).
    cbn [mbind Result_bind Z.eqb]. apply (loads_vector_u8 image_ s1 (image_ s)). lia. }
  assert (Hw : forall rest X, ('(as_diff, i) ← read_pod u8c 0 (stream ((write_pod u8c 0 ++ write_vector_u8 (image_ s)) ++ rest));
    if as_diff =? 0 then load_vector_u8 image_ s1 i else X i) = Ok (s1 <| image_ := image_ s |>, stream rest)).
  { intros rest' X. specialize (Hwhole rest'). revert Hwhole.
    rewrite <- app_assoc, (read_pod_write u8c) by (apply valid_u8; width). by cbn [mbind Result_bind Z.eqb]. }
  destruct (file_identity fs_stat (image_path_ s)) as [[size mtime]|] eqn:Eid; [|by apply Hw].
  destruct (size =? Z.of_nat (length (image_ s))) eqn:Esize; [|by apply Hw].
  destruct (read_file fs_read (image_path_ s) size) as [[|b base]|] eqn:Ebase; try by apply Hw.
  apply Z.eqb_eq in Esize.
  assert (Hst : 0 <= size < 9223372036854775808 /\ -9223372036854775808 <= mtime < 9223372036854775808).
  { unfold file_identity in Eid. destruct (image_path_ s); [done|]. by eapply Hstat. }
  destruct Hst as [Hsize Hmtime].
  pose proof (read_file_length (image_path_ s) size _ ltac:(lia) Ebase) as Hlen.
  assert (Hds : Z.of_nat (length (dirty_sectors (image_ s) (b :: base))) < 18446744073709551616).
  { pose proof (length_dirty (image_ s) (b :: base)). lia. }
  rewrite <- !app_assoc, (read_pod_write u8c) by (apply valid_u8; width). cbn [mbind Result_bind Z.eqb].
  rewrite (read_pod_write u64c) by (apply valid_u64; unfold is_u64; lia). cbn [mbind Result_bind].
  rewrite (read_pod_write (signed 8)) by (by apply valid_i64). cbn [mbind Result_bind].
  rewrite Z.eqb_refl. cbn [negb]. rewrite Ebase.
  rewrite (read_pod_write u64c) by (apply valid_u64; unfold is_u64; lia). cbn [mbind Result_bind].
  rewrite Nat2Z.id, (loads_sectors (image_ s) (dirty_sectors (image_ s) (b :: base)) (b :: base)); [..|done]; try lia.
  - cbn [mbind Result_bind]. by rewrite patch_dirty by lia.
  - apply dirty_in_range.
Qed.
End RoundTrip.

(** ** Properties *)

Lemma states_round_trip s st nx :
  loads load_states s (write_pod u32c (state_index st) ++ write_pod u32c (state_index nx))
    (s <| state_ := st |> <| next_state_ := nx |>).
Proof.
  intros rest. destruct (state_of_index st) as [E1 R1], (state_of_index nx) as [E2 R2].
  unfold load_states. rewrite <- app_assoc.
  rewrite (read_pod_write u32c) by (apply valid_u32; unfold is_u32; lia). cbn [mbind Result_bind].
  rewrite (read_pod_write u32c) by (apply valid_u32; unfold is_u32; lia). cbn [mbind Result_bind].
  by rewrite E1, E2.
Qed.

Section Properties.
Context (fs_read : list Z -> option (list Z)) (fs_stat : list Z -> option (Z * Z)).
Context (Hstat : forall p size mtime, fs_stat p = Some (size, mtime) ->
  0 <= size < 9223372036854775808 /\ -9223372036854775808 <= mtime < 9223372036854775808).

(** The saved members before and after the window offset. *)
Definition head_bytes (s : HpsIde) : list Z :=
  write_pod u8c (id_ s) ++ write_pod u16c (base_ s) ++
  (write_pod u32c (state_index (state_ s)) ++ write_pod u32c (state_index (next_state_ s))) ++
  write_regs (regs_ s) ++ write_drive (drive_ s) ++ save_image fs_read fs_stat s ++
  write_string (image_name_ s).

Definition tail_bytes (s : HpsIde) : list Z :=
  write_pod u32c (sector_ s) ++ write_pod u32c (sector_count_ s) ++ write_pod u32c (cylinder_ s) ++
  write_pod u8c (drv_addr_ s) ++ write_pod u8c (cmd_ s) ++ buf_ s ++
  write_pod (signed 4) (cnt_ s) ++ write_pod u8c (irq_pending_ s) ++
  write_pod boolean (bus_cooldown_ s) ++ write_pod boolean (debug_ s) ++
  write_pod boolean (cdrom_ s) ++ write_pod u8c (features_ s) ++ packet_ s ++
  write_vector_u8 (packet_data_ s) ++ write_pod u32c (packet_lba_ s) ++
  write_pod u32c (packet_remaining_ s) ++ write_pod u16c (packet_size_limit_ s) ++
  write_pod u8c (sense_key_ s) ++ write_pod u8c (sense_asc_ s) ++ write_pod u8c (sense_ascq_ s).

Lemma save_parts s :
  save fs_read fs_stat s =
    write_pod u32c 0x48494445 ++ write_pod u32c 3 ++ head_bytes s ++
    write_pod u64c (window_offset s) ++ tail_bytes s.
Proof. unfold save, head_bytes, tail_bytes. by rewrite <- !app_assoc. Qed.

Definition with_head (s s0 : HpsIde) : HpsIde :=
  s0 <| id_ := id_ s |> <| base_ := base_ s |> <| state_ := state_ s |>
     <| next_state_ := next_state_ s |> <| regs_ := regs_ s |> <| drive_ := drive_ s |>
     <| image_path_ := image_path_ s |> <| image_ := image_ s |> <| image_name_ := image_name_ s |>.

Lemma head_round_trip s s0 :
  ide_ok s -> ide_ok s0 -> checkpointable s ->
  loads (load_head fs_read fs_stat 3) s0 (head_bytes s) (with_head s s0).
Proof.
  intros Hs Hs0 (Himg & Hname & Hpath & _). unfold load_head, head_bytes. cbn [Z.leb Z.compare Pos.compare Pos.compare_cont].
  eapply loads_eq; [|reflexivity].
  eapply loads_seq; [apply loads_pod; [apply _|apply valid_u8, Hs]|].
  eapply loads_seq; [apply loads_pod; [apply _|apply valid_u16, Hs]|].
  eapply loads_seq; [apply states_round_trip|].
  eapply loads_seq; [apply loads_sub, regs_round_trip, Hs|].
  eapply loads_seq; [apply loads_sub, drive_round_trip; [apply Hs|apply (ok_drive _ Hs0)]|].
  eapply loads_seq; [apply (image_round_trip fs_read fs_stat Hstat s); assumption|].
  by apply loads_string.
Qed.

Definition with_tail (s s0 : HpsIde) : HpsIde :=
  s0 <| sector_ := sector_ s |> <| sector_count_ := sector_count_ s |> <| cylinder_ := cylinder_ s |>
     <| drv_addr_ := drv_addr_ s |> <| cmd_ := cmd_ s |> <| buf_ := buf_ s |> <| cnt_ := cnt_ s |>
     <| irq_pending_ := irq_pending_ s |> <| bus_cooldown_ := bus_cooldown_ s |> <| debug_ := debug_ s |>
     <| cdrom_ := cdrom_ s |> <| features_ := features_ s |> <| packet_ := packet_ s |>
     <| packet_data_ := packet_data_ s |> <| packet_lba_ := packet_lba_ s |>
     <| packet_remaining_ := packet_remaining_ s |> <| packet_size_limit_ := packet_size_limit_ s |>
     <| sense_key_ := sense_key_ s |> <| sense_asc_ := sense_asc_ s |> <| sense_ascq_ := sense_ascq_ s |>.

Lemma tail_round_trip s s0 :
  ide_ok s -> length (buf_ s0) = 12%nat -> length (packet_ s0) = 12%nat -> checkpointable s ->
  loads (load_tail 3) s0 (tail_bytes s) (with_tail s s0).
Proof.
  intros Hs Hb0 Hp0 (_ & _ & _ & Hdata). pose proof (ok_cnt_max s Hs) as Hcnt. destruct Hs.
  unfold load_tail, tail_bytes. cbn [Z.leb Z.compare Pos.compare Pos.compare_cont].
  eapply loads_eq; [|reflexivity].
  repeat (eapply loads_seq;
    [first [ apply loads_pod; [apply _|first [by apply valid_u8 | by apply valid_u16 | by apply valid_u32 | exact I | apply valid_i32; lia]]
           | apply loads_buf; cbn; congruence | apply loads_vector_u8; assumption ]|]).
  apply loads_pod; [apply _|by apply valid_u8].
Qed.

Lemma window_round_trip s :
  ide_ok s -> Z.of_nat (length (image_ s)) < 2199023255552 ->
  is_u64 (window_offset s) /\
  (if negb (window_offset s =? no_window) && (u64 (window_offset s + 512) <=? Z.of_nat (length (image_ s)))
   then Some (window_offset s) else None) = sector_words_ s.
Proof.
  intros Hs Hlen. pose proof (ok_window _ Hs) as Hw. unfold window_offset.
  destruct (sector_words_ s) as [off|]; [|done].
  destruct (Hw off eq_refl) as [H0 H1].
  rewrite (proj2 (Z.leb_le 0 off)), (proj2 (Z.ltb_lt _ _)) by lia. cbn [andb].
  split; [unfold is_u64; lia|]. rewrite u64_id by (unfold is_u64; lia).
  rewrite (proj2 (Z.eqb_neq _ _)), (proj2 (Z.leb_le _ _)) by (unfold no_window; lia). done.
Qed.

Lemma image_restored s s0 : image_ (with_tail s (with_head s s0)) = image_ s.
Proof. destruct s, s0. by vm_compute. Qed.

Lemma members_restored s s0 :
  with_tail s (with_head s s0) <| sector_words_ := sector_words_ s |> =
    s <| jitter_delay_ := jitter_delay_ s0 |>.
Proof. destruct s, s0. by vm_compute. Qed.

(** The frame of [load] for the current version. *)
Lemma load_version3 s0 s1 s2 head tail off rest :
  loads (load_head fs_read fs_stat 3) s0 head s1 -> is_u64 off -> loads (load_tail 3) s1 tail s2 ->
  load fs_read fs_stat s0
    (stream (write_pod u32c 0x48494445 ++ write_pod u32c 3 ++ head ++ write_pod u64c off ++ tail ++ rest)) =
  Ok (s2 <| sector_words_ :=
    if negb (off =? no_window) && (u64 (off + 512) <=? Z.of_nat (length (image_ s2)))
    then Some off else None |>, stream rest).
Proof.
  intros Hh Hoff Ht. unfold load.
  rewrite (read_pod_write u32c) by (apply valid_u32; width). cbn [mbind Result_bind].
  rewrite (read_pod_write u32c) by (apply valid_u32; width). cbn [mbind Result_bind].
  cbn [Z.eqb Z.ltb Z.compare Pos.eqb Pos.compare Pos.compare_cont negb orb].
  rewrite Hh. cbn [mbind Result_bind].
  rewrite (read_pod_write u64c) by (by apply valid_u64). cbn [mbind Result_bind].
  rewrite Ht. reflexivity.
Qed.

(** A checkpoint restores the device.  Loading what [save] wrote, into any
    device and with the image file as it was, gives back every member - the
    medium with all sectors written since it was opened, the data phase in
    progress, the sense data - except the remaining jitter delay, which is the
    loading device's own; and consumes exactly what was written. *)
Lemma load_save s s0 rest :
  ide_ok s -> ide_ok s0 -> checkpointable s ->
  load fs_read fs_stat s0 (stream (save fs_read fs_stat s ++ rest)) =
    Ok (s <| jitter_delay_ := jitter_delay_ s0 |>, stream rest).
Proof.
  intros Hs Hs0 Hc. destruct (window_round_trip s Hs (proj1 Hc)) as [Hw Ew].
  rewrite save_parts, <- !app_assoc.
  rewrite (load_version3 s0 (with_head s s0) (with_tail s (with_head s s0)) (head_bytes s) (tail_bytes s));
    [|by apply head_round_trip|exact Hw
     |apply tail_round_trip; [done|exact (ok_buf_len _ Hs0)|exact (ok_packet_len _ Hs0)|done]].
  by rewrite image_restored, Ew, members_restored.
Qed.

(** A difference is not applied to a file that is gone, resized or unreadable. *)
Lemma image_refused fs_read' fs_stat' s size mtime base s1 rest :
  checkpointable s ->
  file_identity fs_stat (image_path_ s) = Some (size, mtime) ->
  read_file fs_read (image_path_ s) size = Some base -> length base = length (image_ s) -> base <> [] ->
  (forall mtime', file_identity fs_stat' (image_path_ s) <> Some (size, mtime')) \/
    read_file fs_read' (image_path_ s) size = None ->
  load_image fs_read' fs_stat' s1 (stream (save_image fs_read fs_stat s ++ rest)) = Throw.
Proof.
  intros Hc Hid Hbase Hlen Hne Hgone. unfold save_image; cbv zeta.
  pose proof (fun H0 => read_file_length fs_read (image_path_ s) size base H0 Hbase) as Hsz.
  assert (Hst : 0 <= size < 9223372036854775808 /\ -9223372036854775808 <= mtime < 9223372036854775808).
  { unfold file_identity in Hid. destruct (image_path_ s); [done|]. by eapply Hstat. }
  rewrite Hid, Hbase, (proj2 (Z.eqb_eq _ _)) by lia. destruct base as [|b base]; [done|].
  rewrite <- !app_assoc. unfold load_image.
  rewrite (loads_string image_path_ s1 (image_path_ s)) by apply Hc. cbn [mbind Result_bind].
  change (image_path_ (s1 <| image_path_ := image_path_ s |>)) with (image_path_ s).
  rewrite (read_pod_write u8c) by (apply valid_u8; width). cbn [mbind Result_bind Z.eqb].
  rewrite (read_pod_write u64c) by (apply valid_u64; unfold is_u64; lia). cbn [mbind Result_bind].
  rewrite (read_pod_write (signed 8)) by (apply valid_i64; lia). cbn [mbind Result_bind].
  destruct (file_identity fs_stat' (image_path_ s)) as [[now m']|] eqn:E; [|done].
  destruct (Z.eqb_spec now size) as [->|]; [|done]. cbn [negb].
  destruct Hgone as [Hgone| ->]; [|done]. by destruct (Hgone m').
Qed.

(** A checkpoint that cannot be restored is refused.  A stream that does
    not start with the device's magic number or has a version other than 1 to 3
    throws, and so does a checkpoint whose image was saved as a difference once
    its base file is missing, resized or unreadable. *)
Lemma load_refuses s s0 rest magic version :
  is_u32 magic -> is_u32 version -> ide_ok s -> ide_ok s0 -> checkpointable s ->
  (magic <> 0x48494445 \/ version < 1 \/ 3 < version ->
   load fs_read fs_stat s0 (stream (write_pod u32c magic ++ write_pod u32c version ++ rest)) = Throw) /\
  (forall fs_read' fs_stat' size mtime base,
   file_identity fs_stat (image_path_ s) = Some (size, mtime) ->
   read_file fs_read (image_path_ s) size = Some base -> length base = length (image_ s) ->
   base <> [] ->
   (forall mtime', file_identity fs_stat' (image_path_ s) <> Some (size, mtime')) \/
     read_file fs_read' (image_path_ s) size = None ->
   load fs_read' fs_stat' s0 (stream (save fs_read fs_stat s ++ rest)) = Throw).
Proof.
  intros Hm Hv Hs Hs0 Hc. split.
  - intros Hbad. unfold load.
    rewrite (read_pod_write u32c) by (by apply valid_u32). cbn [mbind Result_bind].
    rewrite (read_pod_write u32c) by (by apply valid_u32). cbn [mbind Result_bind].
    replace (_ || _ || _) with true; [done|]. unfold is_u32 in *. lia.
  - intros fs_read' fs_stat' size mtime base Hid Hbase Hlen Hne Hgone.
    assert (Eimg : forall rest s1, load_image fs_read' fs_stat' s1
      (stream (save_image fs_read fs_stat s ++ rest)) = Throw)
      by (intros; by eapply image_refused).
    rewrite save_parts. unfold load. rewrite <- !app_assoc.
    rewrite (read_pod_write u32c) by (apply valid_u32; width). cbn [mbind Result_bind].
    rewrite (read_pod_write u32c) by (apply valid_u32; width). cbn [mbind Result_bind].
    cbn [Z.eqb Z.ltb Z.compare Pos.eqb Pos.compare Pos.compare_cont negb orb].
    unfold load_head, head_bytes. cbn [Z.leb Z.compare Pos.compare Pos.compare_cont].
    unfold seq_load. rewrite <- !(app_assoc (write_pod _ _)), <- (app_assoc (write_regs _)), <- (app_assoc (write_drive _)), <- (app_assoc (save_image _ _ _)).
    rewrite (loads_pod u8c id_) by apply valid_u8, Hs. cbn [mbind Result_bind].
    rewrite (loads_pod u16c base_) by apply valid_u16, Hs. cbn [mbind Result_bind].
    rewrite (app_assoc (write_pod u32c _)), states_round_trip. cbn [mbind Result_bind].
    rewrite (loads_sub regs_ read_regs _ (regs_ s)) by apply regs_round_trip, Hs. cbn [mbind Result_bind].
    rewrite (loads_sub drive_ read_drive _ (drive_ s)) by (apply drive_round_trip; [apply Hs|apply (ok_drive _ Hs0)]).
    cbn [mbind Result_bind]. by rewrite Eimg.
Qed.
End Properties.

(** ** A changed image over its file *)

Definition base_file : list Z := replicate 1024 0x5A.
Definition base_files (path : list Z) : option (list Z) := Some base_file.
Definition base_stat (path : list Z) : option (Z * Z) := Some (1024, 1700000000).
Definition other_stat (path : list Z) : option (Z * Z) := Some (2048, 1700000000).

(** An opened disk whose second sector was written. *)
Definition changed_disk : HpsIde :=
  match open base_files same_path (HpsIde_new 0 0xF000) [0x61] with
  | Some (_, s) => s <| image_ := replicate 512 0x5A ++ replicate 512 0xC3 |>
  | None => HpsIde_new 0 0xF000
  end.

Lemma base_stat_ok p size mtime : base_stat p = Some (size, mtime) ->
  0 <= size < 9223372036854775808 /\ -9223372036854775808 <= mtime < 9223372036854775808.
Proof. intros [= <- <-]. lia. Qed.

Lemma base_bytes p c : base_files p = Some c -> bytes c.
Proof.
  unfold base_files. intros H. assert (E : c = base_file) by congruence.
  rewrite E. apply bytes_replicate. width.
Qed.

Lemma changed_disk_ok : ide_ok changed_disk.
Proof.
  destruct (open base_files same_path (HpsIde_new 0 0xF000) [0x61]) as [[ok s]|] eqn:E;
    [|exfalso; revert E; vm_compute; discriminate].
  assert (Ec : changed_disk = s <| image_ := replicate 512 0x5A ++ replicate 512 0xC3 |>)
    by (unfold changed_disk; by rewrite E).
  rewrite Ec. apply with_image_ok.
  - refine (open_ok base_files same_path base_bytes (fun _ H => H) 0 0xF000 [0x61] ok s _ E).
    apply bytes_cons; [width|apply bytes_nil].
  - apply bytes_app; apply bytes_replicate; width.
  - assert (Ei : (match open base_files same_path (HpsIde_new 0 0xF000) [0x61] with
                  | Some (_, s) => length (image_ s) | None => 0%nat end) = 1024%nat)
      by (vm_compute; reflexivity).
    rewrite E in Ei. rewrite Ei. reflexivity.
Qed.

Lemma changed_disk_checkpointable : checkpointable changed_disk.
Proof. unfold checkpointable. split_and?; vm_compute; reflexivity. Qed.

Lemma load_refuses_witness :
  load base_files base_stat (HpsIde_new 1 0xF100)
    (stream (write_pod u32c 0x48494445 ++ write_pod u32c 4 ++ [])) = Throw /\
  load base_files other_stat (HpsIde_new 1 0xF100)
    (stream (save base_files base_stat changed_disk ++ [])) = Throw.
Proof.
  destruct (load_refuses base_files base_stat base_stat_ok changed_disk (HpsIde_new 1 0xF100) [] 0x48494445 4)
    as [H1 H2]; [width|width|exact changed_disk_ok|exact (new_ok 1 0xF100)
                |exact changed_disk_checkpointable|].
  split; [apply H1; lia|].
  apply (H2 base_files other_stat 1024 1700000000 base_file); try reflexivity.
  - discriminate.
  - left. intros m. vm_compute. discriminate.
Defined.
