(* ===== verification/Floppy.v ===== *)
(** * The floppy controller's host

    [FloppyGeometry], [infer_floppy_geometry] and class [HpsFloppy] of
    verilator/main.cpp: two drives behind one management port (0xF200), one byte
    per management operation.  A sector read sends the image's 512 bytes, a
    sector write stores the 512 bytes the core supplies, or none of them when
    the drive is write protected. *)
From S2P Require Import Prelude Codec IdeTypes IdeInvariant IdeSafety IdeProtocol.

(** ** Geometry *)

Record FloppyGeometry := mkGeo {
  cylinders : Z;          (* uint8_t *)
  sectors_per_track : Z;  (* uint8_t *)
  total_sectors : Z;      (* uint16_t *)
  heads : Z;              (* uint8_t *)
  cmos_type : Z           (* uint8_t *)
}.

#[export] Instance eta_FloppyGeometry : Eta FloppyGeometry :=
  fun r => mkGeo (cylinders r) (sectors_per_track r) (total_sectors r) (heads r) (cmos_type r).

Definition geo_default : FloppyGeometry := mkGeo 80 18 2880 2 4.

Definition infer_floppy_geometry (image_size : Z) : FloppyGeometry :=
  let sectors := u32 (image_size / 512) in
  let geo := geo_default <| total_sectors := u16 (Z.min sectors 0xFFFF) |> in
  if sectors =? 320 then mkGeo 40 8 320 1 1
  else if sectors =? 360 then mkGeo 40 9 360 1 1
  else if sectors =? 640 then mkGeo 40 8 640 2 1
  else if sectors =? 720 then mkGeo 40 9 720 2 1
  else if sectors =? 1440 then mkGeo 80 9 1440 2 3
  else if sectors =? 2400 then mkGeo 80 15 2400 2 2
  else if sectors =? 2880 then mkGeo 80 18 2880 2 4
  else if sectors =? 5760 then mkGeo 80 36 5760 2 5
  else
    let geo := geo <| cylinders := if sectors <=? 720 then 40 else 80 |> in
    let geo := geo <| heads := if sectors <=? 360 then 1 else 2 |> in
    geo <| sectors_per_track := u8 (Z.max 1 (sectors / (cylinders geo * heads geo))) |>.

(** ** [class HpsFloppy] *)

Module HpsFloppy.

Inductive State := IDLE | READ_GET_SECTOR | READ_SEND | WRITE_GET_SECTOR | WRITE_RECV.

#[global] Instance State_eq_dec : EqDecision State.
Proof. solve_decision. Defined.

(** The two-element member arrays are pairs, indexed by a drive number. *)
Definition sel {A} (p : A * A) (drive : Z) : A := if drive =? 0 then p.1 else p.2.
Definition upd {A} (drive : Z) (x : A) (p : A * A) : A * A :=
  if drive =? 0 then (x, p.2) else (p.1, x).

Record HpsFloppy := mkFloppy {
  state_ : State;
  present_ : bool * bool;
  geo_ : FloppyGeometry * FloppyGeometry;
  image_ : list Z * list Z;
  sector_ : Z;            (* uint32_t *)
  cnt_ : Z;               (* int *)
  selected_drive_ : Z     (* uint8_t *)
}.

#[export] Instance eta_HpsFloppy : Eta HpsFloppy :=
  fun r => mkFloppy (state_ r) (present_ r) (geo_ r) (image_ r) (sector_ r) (cnt_ r) (selected_drive_ r).

Definition new : HpsFloppy :=
  mkFloppy IDLE (false, false) (geo_default, geo_default) ([], []) 0 0 0.

(** [read_file] throws when the file cannot be read. *)
Definition open (fs_read : list Z -> option (list Z)) (f : HpsFloppy) (path : list Z) (drive : Z)
  : Result HpsFloppy :=
  match fs_read path with
  | None => Throw
  | Some content =>
    let f := f <| image_ := upd drive content (image_ f) |> in
    let size := Z.of_nat (length content) in
    if (size =? 0) || negb (size mod 512 =? 0) then Throw
    else Ok (f <| geo_ := upd drive (infer_floppy_geometry size) (geo_ f) |>
               <| present_ := upd drive true (present_ f) |>)
  end.

Definition present (f : HpsFloppy) (drive : Z) : bool := sel (present_ f) drive.
Definition geometry (f : HpsFloppy) (drive : Z) : FloppyGeometry := sel (geo_ f) drive.

Definition pulse_read (tb : Bus) (addr : Z) : Bus :=
  tb <| mgmt_address := u16 addr |> <| mgmt_read := true |> <| mgmt_write := false |>.

Definition pulse_write (tb : Bus) (addr data : Z) : Bus :=
  tb <| mgmt_address := u16 addr |> <| mgmt_writedata := u16 data |>
     <| mgmt_write := true |> <| mgmt_read := false |>.

Definition read_byte (f : HpsFloppy) (sector byte_index : Z) : Z :=
  let image := sel (image_ f) (selected_drive_ f) in
  let offset := sector * 512 + byte_index in
  if Z.of_nat (length image) <=? offset then 0
  else default 0 (image !! Z.to_nat offset).

Definition write_byte (floppy_writable : bool) (f : HpsFloppy) (sector byte_index data : Z) : HpsFloppy :=
  if negb floppy_writable then f
  else
    let image := sel (image_ f) (selected_drive_ f) in
    let offset := sector * 512 + byte_index in
    if Z.of_nat (length image) <=? offset then f
    else f <| image_ := upd (selected_drive_ f) (<[Z.to_nat offset := u8 data]> image) (image_ f) |>.

Definition select_sector (f : HpsFloppy) (data : Z) : HpsFloppy :=
  f <| selected_drive_ := Z.land (Z.shiftr data 15) 1 |>
    <| sector_ := Z.land data 0x7FFF |> <| cnt_ := 0 |>.

Definition tick (floppy_writable : bool) (f : HpsFloppy) (tb : Bus) : HpsFloppy * Bus :=
  if reset tb then (f <| state_ := IDLE |> <| cnt_ := 0 |>, tb)
  else
    match state_ f with
    | IDLE =>
      if negb (present_ f).1 && negb (present_ f).2 then (f, tb)
      else if negb (Z.land (fdd_request tb) 1 =? 0) then
        (f <| state_ := READ_GET_SECTOR |>, pulse_read tb 0xF200)
      else if negb (Z.land (fdd_request tb) 2 =? 0) then
        (f <| state_ := WRITE_GET_SECTOR |>, pulse_read tb 0xF200)
      else (f, tb)
    | READ_GET_SECTOR => (select_sector f (mgmt_readdata tb) <| state_ := READ_SEND |>, tb)
    | READ_SEND =>
      if cnt_ f <? 512 then
        (f <| cnt_ := cnt_ f + 1 |>, pulse_write tb 0xF20F (read_byte f (sector_ f) (cnt_ f)))
      else (f <| state_ := IDLE |>, tb)
    | WRITE_GET_SECTOR =>
      (select_sector f (mgmt_readdata tb) <| state_ := WRITE_RECV |>, pulse_read tb 0xF20F)
    | WRITE_RECV =>
      let f := write_byte floppy_writable f (sector_ f) (cnt_ f) (mgmt_readdata tb) in
      let f := f <| cnt_ := cnt_ f + 1 |> in
      if cnt_ f <? 512 then (f, pulse_read tb 0xF20F)
      else (f <| state_ := IDLE |>, tb)
    end.

(** ** Clocking the floppy alone, as the main loop does: the bus cleared, then
    one tick; what the core presents is an [Env]. *)

Fixpoint clock (w : bool) (k t : nat) (env : Env) (h : list Op) (f : HpsFloppy) (tb : Bus)
  : list Op * HpsFloppy * Bus :=
  match k with
  | O => (h, f, tb)
  | S k =>
    let '(f, tb) := tick w f (clear_bus (sample (env t h) tb)) in
    clock w k (S t) env (h ++ ops_of tb) f tb
  end.

(** A sector request: drive in bit 15, sector below. *)
Definition drive_of (req : Z) : Z := (req / 32768) mod 2.
Definition sector_of (req : Z) : Z := req mod 32768.

(** The 512 bytes of a sector; beyond the image zeros. *)
Definition sector_bytes (image : list Z) (sector : Z) : list Z :=
  map (fun i => default 0 (image !! Z.to_nat (sector * 512 + Z.of_nat i))) (seq 0 512).

(** The image with [bytes] stored from the start of a sector, as far as it reaches. *)
Definition store_bytes (image : list Z) (sector : Z) (ws : list Z) : list Z :=
  let off := Z.to_nat (sector * 512) in
  take (length image) (take off image ++ ws ++ drop (off + length ws) image).

Lemma clock_S w k t env h f tb :
  clock w (S k) t env h f tb =
    let '(f, tb) := tick w f (clear_bus (sample (env t h) tb)) in
    clock w k (S t) env (h ++ ops_of tb) f tb.
Proof. done. Qed.

Lemma clock_app w k1 : forall k2 t env h f tb,
  clock w (k1 + k2) t env h f tb =
    let '(h, f, tb) := clock w k1 t env h f tb in clock w k2 (k1 + t) env h f tb.
Proof.
  induction k1 as [|k1 IH]; intros; [done|]. cbn [clock Nat.add].
  destruct (tick w f _) as [f1 tb1]. rewrite IH.
  by replace (k1 + S t)%nat with (S (k1 + t)) by lia.
Qed.

Lemma read_byte_default f sector i :
  0 <= sector -> 0 <= i ->
  read_byte f sector i = default 0 (sel (image_ f) (selected_drive_ f) !! Z.to_nat (sector * 512 + i)).
Proof.
  intros Hs Hi. unfold read_byte; cbv zeta. case_bool; [|done].
  rewrite lookup_ge_None_2 by lia. done.
Qed.

Lemma select_sector_fields f req :
  is_u16 req ->
  let f1 := select_sector f req in
  selected_drive_ f1 = drive_of req /\ sector_ f1 = sector_of req /\ cnt_ f1 = 0 /\
  image_ f1 = image_ f /\ present_ f1 = present_ f.
Proof.
  intros Hr. unfold is_u16 in Hr. cbn. unfold drive_of, sector_of. split_and!; try done.
  - by rewrite land_1, shiftr_div by lia.
  - apply (Z.land_ones req 15). lia.
Qed.

(** ** READ *)

Definition counting (f : HpsFloppy) (i : nat) : HpsFloppy := f <| cnt_ := Z.of_nat i |>.

Lemma clock_read_send w env f n : forall t h tb i,
  state_ f = READ_SEND -> 0 <= sector_ f -> (i + n = 512)%nat ->
  (forall k, bytes (sel (image_ f) k)) ->
  exists tb', clock w n t env h (counting f i) tb =
    (h ++ map (fun j => Wr 0xF20F (read_byte f (sector_ f) (Z.of_nat j))) (seq i n), counting f 512, tb').
Proof.
  induction n as [|n IH]; intros t h tb i Hst Hsec Hi Hb.
  - exists tb. cbn. rewrite app_nil_r. by replace i with 512%nat by lia.
  - rewrite clock_S. set (b := clear_bus _).
    assert (E : tick w (counting f i) b =
      (counting f (S i), pulse_write b 0xF20F (read_byte f (sector_ f) (Z.of_nat i)))).
    { unfold tick. change (reset b) with false. change (state_ (counting f i)) with (state_ f).
      rewrite Hst. change (cnt_ (counting f i)) with (Z.of_nat i).
      rewrite (proj2 (Z.ltb_lt _ 512)) by lia.
      unfold counting. rewrite Nat2Z.inj_succ. reflexivity. }
    rewrite E. destruct (IH (S t) (h ++ ops_of (pulse_write b 0xF20F (read_byte f (sector_ f) (Z.of_nat i))))
      (pulse_write b 0xF20F (read_byte f (sector_ f) (Z.of_nat i))) (S i)) as [tb' Er]; try done; [lia|].
    exists tb'. etransitivity; [exact Er|]. do 2 f_equal. cbn [seq map].
    rewrite <- app_assoc. f_equal. cbn -[read_byte u16]. do 2 f_equal.
    apply u16_id. rewrite read_byte_default by lia.
    pose proof (Forall_lookup_default is_u8 0 (sel (image_ f) (selected_drive_ f))
      (Z.to_nat (sector_ f * 512 + Z.of_nat i)) ltac:(width) (Hb _)). unfold is_u8, is_u16 in *. lia.
Qed.

Lemma length_store_bytes image sector ws :
  length (store_bytes image sector ws) = length image.
Proof.
  unfold store_bytes; cbv zeta. rewrite length_take, !length_app, length_take, length_drop. lia.
Qed.

Lemma lookup_store_bytes image sector ws k :
  (k < length image)%nat ->
  store_bytes image sector ws !! k =
    let off := Z.to_nat (sector * 512) in
    if decide (off <= k < off + length ws)%nat then ws !! (k - off)%nat else image !! k.
Proof.
  intros Hk. unfold store_bytes; cbv zeta. set (off := Z.to_nat (sector * 512)).
  rewrite lookup_take_lt by lia. destruct (decide (off <= k < off + length ws)%nat) as [H|H].
  - rewrite lookup_app_r, length_take by (rewrite length_take; lia).
    rewrite lookup_app_l by lia. f_equal. lia.
  - destruct (decide (k < off)%nat).
    + rewrite lookup_app_l, lookup_take_lt by (rewrite ?length_take; lia). done.
    + rewrite lookup_app_r, length_take by (rewrite length_take; lia).
      rewrite lookup_app_r, lookup_drop by lia. f_equal. lia.
Qed.

Lemma store_bytes_nil image sector : store_bytes image sector [] = image.
Proof.
  apply list_eq. intros k. destruct (decide (k < length image)%nat).
  - rewrite lookup_store_bytes by done. cbv zeta. rewrite decide_False by (cbn; lia). done.
  - rewrite !lookup_ge_None_2 by (rewrite ?length_store_bytes; lia). done.
Qed.

Lemma store_bytes_snoc image sector ws b :
  0 <= sector ->
  store_bytes image sector (ws ++ [b]) =
    if Z.of_nat (length image) <=? sector * 512 + Z.of_nat (length ws)
    then store_bytes image sector ws
    else <[Z.to_nat (sector * 512 + Z.of_nat (length ws)) := b]> (store_bytes image sector ws).
Proof.
  intros Hs. apply list_eq. intros k. destruct (decide (k < length image)%nat) as [Hk|Hk].
  - rewrite lookup_store_bytes by done. cbv zeta. rewrite length_app. cbn [length].
    destruct (Z.of_nat (length image) <=? sector * 512 + Z.of_nat (length ws)) eqn:E.
    + rewrite lookup_store_bytes by done. cbv zeta.
      destruct (decide (Z.to_nat (sector * 512) <= k < Z.to_nat (sector * 512) + length ws)%nat).
      * rewrite decide_True, lookup_app_l by lia. done.
      * rewrite decide_False by lia. done.
    + destruct (decide (k = Z.to_nat (sector * 512 + Z.of_nat (length ws)))) as [->|Hne].
      * rewrite list_lookup_insert_eq by (rewrite length_store_bytes; lia).
        rewrite decide_True by lia. rewrite lookup_app_r by lia.
        by replace (_ - _ - _)%nat with 0%nat by lia.
      * rewrite list_lookup_insert_ne, lookup_store_bytes by lia. cbv zeta.
        destruct (decide (Z.to_nat (sector * 512) <= k < Z.to_nat (sector * 512) + length ws)%nat).
        -- rewrite decide_True, lookup_app_l by lia. done.
        -- rewrite decide_False by lia. done.
  - rewrite (lookup_ge_None_2 (store_bytes _ _ (ws ++ [b]))) by (rewrite length_store_bytes; lia).
    symmetry. apply lookup_ge_None_2. case_bool; rewrite ?length_insert, length_store_bytes; lia.
Qed.

(** ** WRITE *)

Lemma sel_upd {A} d (x : A) p : sel (upd d x p) d = x.
Proof. unfold sel, upd. by destruct (d =? 0). Qed.

Lemma upd_upd {A} d (x y : A) p : upd d x (upd d y p) = upd d x p.
Proof. unfold upd. by destruct (d =? 0). Qed.

Lemma upd_sel {A} d (p : A * A) : upd d (sel p d) p = p.
Proof. unfold sel, upd. destruct p. by destruct (d =? 0). Qed.

(** The state after [i] bytes of [ws] arrived. *)
Definition receiving (w : bool) (f : HpsFloppy) (ws : nat -> Z) (i : nat) : HpsFloppy :=
  f <| image_ := if w then upd (selected_drive_ f)
         (store_bytes (sel (image_ f) (selected_drive_ f)) (sector_ f) (map (fun j => u8 (ws j)) (seq 0 i)))
         (image_ f) else image_ f |>
    <| cnt_ := Z.of_nat i |>.

Lemma receive_byte w f ws i :
  0 <= sector_ f -> 
  write_byte w (receiving w f ws i) (sector_ f) (Z.of_nat i) (ws i) <| cnt_ := Z.of_nat (S i) |> =
    receiving w f ws (S i).
Proof.
  intros Hs. unfold write_byte; cbv zeta. destruct w; [|done]. cbn [negb].
  set (img := sel (image_ f) (selected_drive_ f)).
  change (selected_drive_ (receiving true f ws i)) with (selected_drive_ f).
  change (image_ (receiving true f ws i)) with
    (upd (selected_drive_ f) (store_bytes img (sector_ f) (map (fun j => u8 (ws j)) (seq 0 i))) (image_ f)).
  rewrite sel_upd, length_store_bytes, upd_upd.
  pose proof (store_bytes_snoc img (sector_ f) (map (fun j => u8 (ws j)) (seq 0 i)) (u8 (ws i)) Hs) as E.
  rewrite length_map, length_seq in E.
  assert (Eseq : map (fun j => u8 (ws j)) (seq 0 (S i)) = map (fun j => u8 (ws j)) (seq 0 i) ++ [u8 (ws i)])
    by (by rewrite seq_S, map_app).
  unfold receiving at 3. fold img. rewrite Eseq, E. by case_bool.
Qed.

(** What the core supplies to a write: word [i] once [i + 1] bytes were asked. *)
Definition supplies (env : Env) (h : list Op) (ws : nat -> Z) : Prop :=
  forall t i, (i < 512)%nat -> in_readdata (env t (h ++ replicate (S i) (Rd 0xF20F))) = ws i.

Lemma clock_write_recv w env f ws h n : forall t tb i,
  state_ f = WRITE_RECV -> 0 <= sector_ f -> supplies env h ws -> (i + S n = 512)%nat ->
  exists tb', clock w (S n) t env (h ++ replicate (S i) (Rd 0xF20F)) (receiving w f ws i) tb =
    (h ++ replicate 512 (Rd 0xF20F), receiving w f ws 512 <| state_ := IDLE |>, tb').
Proof.
  induction n as [|n IH]; intros t tb i Hst Hsec Hws Hi; rewrite clock_S; set (b := clear_bus _);
    assert (Ed : mgmt_readdata b = ws i) by (apply (Hws t i); lia).
  - assert (Ei : i = 511%nat) by lia. subst i. exists b.
    assert (E : tick w (receiving w f ws 511) b = (receiving w f ws 512 <| state_ := IDLE |>, b)).
    { unfold tick. change (reset b) with false. change (state_ (receiving w f ws 511)) with (state_ f).
      rewrite Hst, Ed. change (sector_ (receiving w f ws 511)) with (sector_ f).
      rewrite <- (receive_byte w f ws 511 Hsec). cbv zeta.
      change (cnt_ (receiving w f ws 511)) with (Z.of_nat 511).
      assert (Ec : cnt_ (write_byte w (receiving w f ws 511) (sector_ f) (Z.of_nat 511) (ws 511%nat)) = Z.of_nat 511)
        by (unfold write_byte; cbv zeta; by destruct w, (Z.of_nat _ <=? _)).
      rewrite Ec. done. }
    rewrite E. by rewrite app_nil_r.
  - assert (E : tick w (receiving w f ws i) b = (receiving w f ws (S i), pulse_read b 0xF20F)).
    { unfold tick. change (reset b) with false. change (state_ (receiving w f ws i)) with (state_ f).
      rewrite Hst, Ed. change (sector_ (receiving w f ws i)) with (sector_ f).
      rewrite <- (receive_byte w f ws i Hsec). cbv zeta.
      change (cnt_ (receiving w f ws i)) with (Z.of_nat i).
      assert (Ec : cnt_ (write_byte w (receiving w f ws i) (sector_ f) (Z.of_nat i) (ws i)) = Z.of_nat i)
        by (unfold write_byte; cbv zeta; by repeat case_bool).
      rewrite Ec. rewrite (Nat2Z.inj_succ i). unfold Z.succ.
      cbn [cnt_ set_field]. rewrite (proj2 (Z.ltb_lt _ 512)) by (cbn; lia). done. }
    rewrite E. destruct (IH (S t) (pulse_read b 0xF20F) (S i)) as [tb' Er]; try done; [lia|].
    exists tb'. change (ops_of (pulse_read b 0xF20F)) with [Rd 0xF20F].
    rewrite (replicate_S_end (S i)), app_assoc in Er. exact Er.
Qed.

(** ** One tick at a time *)

Lemma presented i tb :
  let b := clear_bus (sample i tb) in
  reset b = false /\ mgmt_readdata b = in_readdata i /\ fdd_request b = in_fdd_request i /\ ops_of b = [].
Proof. done. Qed.

Lemma ops_pulse_read b a : is_u16 a -> ops_of (pulse_read b a) = [Rd a].
Proof. intros Ha. unfold ops_of, pulse_read. cbn. by rewrite u16_id. Qed.

Lemma clock_request w env h f tb t (b : bool) :
  state_ f = IDLE -> (present f 0 || present f 1) = true ->
  (if b then Z.land (in_fdd_request (env t h)) 1 <> 0
   else Z.land (in_fdd_request (env t h)) 1 = 0 /\ Z.land (in_fdd_request (env t h)) 2 <> 0) ->
  exists tb', clock w 1 t env h f tb =
    (h ++ [Rd 0xF200], f <| state_ := if b then READ_GET_SECTOR else WRITE_GET_SECTOR |>, tb').
Proof.
  intros Hst Hp Hreq. rewrite clock_S. destruct (presented (env t h) tb) as (P1 & _ & P3 & _).
  revert P1 P3. generalize (clear_bus (sample (env t h) tb)). intros b0 P1 P3.
  rewrite <- P3 in Hreq. unfold tick. rewrite P1, Hst.
  replace (negb (present_ f).1 && negb (present_ f).2) with false
    by (unfold present, sel in Hp; cbn in Hp; destruct (present_ f) as [[] []]; done).
  exists (pulse_read b0 0xF200). destruct b.
  - rewrite (proj2 (Z.eqb_neq _ 0) Hreq). cbn [negb Z.eqb]. by rewrite ops_pulse_read by width.
  - destruct Hreq as [-> Hreq]. rewrite (proj2 (Z.eqb_neq _ 0) Hreq). cbn [negb Z.eqb]. by rewrite ops_pulse_read by width.
Qed.

Lemma clock_select w env h f tb t :
  state_ f = READ_GET_SECTOR ->
  exists tb', clock w 1 t env h f tb =
    (h, select_sector f (in_readdata (env t h)) <| state_ := READ_SEND |>, tb').
Proof.
  intros Hst. rewrite clock_S. destruct (presented (env t h) tb) as (P1 & P2 & _ & P4).
  revert P1 P2 P4. generalize (clear_bus (sample (env t h) tb)). intros b0 P1 P2 P4.
  exists b0. unfold tick. by rewrite P1, Hst, P2, P4, app_nil_r.
Qed.

Lemma clock_select_write w env h f tb t :
  state_ f = WRITE_GET_SECTOR ->
  exists tb', clock w 1 t env h f tb =
    (h ++ [Rd 0xF20F], select_sector f (in_readdata (env t h)) <| state_ := WRITE_RECV |>, tb').
Proof.
  intros Hst. rewrite clock_S. destruct (presented (env t h) tb) as (P1 & P2 & _ & _).
  revert P1 P2. generalize (clear_bus (sample (env t h) tb)). intros b0 P1 P2.
  exists (pulse_read b0 0xF20F). unfold tick. by rewrite P1, Hst, P2, ops_pulse_read by width.
Qed.

Lemma clock_sent w env h f tb t :
  state_ f = READ_SEND -> cnt_ f = 512 ->
  exists tb', clock w 1 t env h f tb = (h, f <| state_ := IDLE |>, tb').
Proof.
  intros Hst Hc. rewrite clock_S. destruct (presented (env t h) tb) as (P1 & _ & _ & P4).
  revert P1 P4. generalize (clear_bus (sample (env t h) tb)). intros b0 P1 P4.
  exists b0. unfold tick. by rewrite P1, Hst, Hc, Z.ltb_irrefl, P4, app_nil_r.
Qed.

Lemma counting_0 f : cnt_ f = 0 -> counting f 0 = f.
Proof. intros H. unfold counting. change (Z.of_nat 0) with 0. rewrite <- H. by destruct f. Qed.

Lemma read_bytes f sector :
  0 <= sector ->
  map (fun j => Wr 0xF20F (read_byte f sector (Z.of_nat j))) (seq 0 512) =
    map (Wr 0xF20F) (sector_bytes (sel (image_ f) (selected_drive_ f)) sector).
Proof.
  intros Hs. unfold sector_bytes. rewrite map_map. apply map_ext_in. intros j _. f_equal.
  apply read_byte_default; lia.
Qed.

Lemma sector_of_range req : 0 <= sector_of req < 32768.
Proof. unfold sector_of. divlia. Qed.

(** ** Properties *)

(** C31: a floppy sector read delivers the sector.  From IDLE with a read request
    and a mounted drive, 515 ticks issue one read of the request register and
    then 512 writes to the data port carrying the addressed sector of the
    selected drive's image in order, zeros where the image ends, and leave the
    images unchanged and the controller idle. *)
Theorem floppy_read w env h f tb t req :
  state_ f = IDLE -> (present f 0 || present f 1) = true ->
  Z.land (in_fdd_request (env t h)) 1 <> 0 -> is_u16 req ->
  in_readdata (env (S t) (h ++ [Rd 0xF200])) = req ->
  bytes (image_ f).1 -> bytes (image_ f).2 ->
  exists f' tb', clock w 515 t env h f tb =
      (h ++ [Rd 0xF200] ++ map (Wr 0xF20F) (sector_bytes (sel (image_ f) (drive_of req)) (sector_of req)), f', tb') /\
    state_ f' = IDLE /\ image_ f' = image_ f /\ present_ f' = present_ f.
Proof.
  intros Hst Hp Hreq Hu Hd Hb1 Hb2.
  destruct (clock_request w env h f tb t true Hst Hp Hreq) as [tb1 E1].
  destruct (clock_select w env (h ++ [Rd 0xF200]) (f <| state_ := READ_GET_SECTOR |>) tb1 (S t))
    as [tb2 E2]; [reflexivity|]. rewrite Hd in E2.
  destruct (select_sector_fields (f <| state_ := READ_GET_SECTOR |>) req Hu) as (F1 & F2 & F3 & F4 & F5).
  change (image_ (f <| state_ := READ_GET_SECTOR |>)) with (image_ f) in F4.
  change (present_ (f <| state_ := READ_GET_SECTOR |>)) with (present_ f) in F5.
  revert E2 F1 F2 F3 F4 F5. generalize (select_sector (f <| state_ := READ_GET_SECTOR |>) req).
  intros f1 E2 F1 F2 F3 F4 F5.
  pose proof (sector_of_range req) as Hsec.
  destruct (clock_read_send w env (f1 <| state_ := READ_SEND |>) 512 (S (S t)) (h ++ [Rd 0xF200]) tb2 0)
    as [tb3 E3]; [done|cbn; lia|done|intros k; cbn; rewrite F4; unfold sel; by destruct (k =? 0)|].
  rewrite counting_0 in E3 by exact F3. rewrite read_bytes in E3 by (cbn; lia).
  change (sector_ (f1 <| state_ := READ_SEND |>)) with (sector_ f1) in E3.
  change (image_ (f1 <| state_ := READ_SEND |>)) with (image_ f1) in E3.
  change (selected_drive_ (f1 <| state_ := READ_SEND |>)) with (selected_drive_ f1) in E3.
  rewrite F1, F2, F4, <- app_assoc in E3. set (h3 := h ++ [Rd 0xF200] ++ _) in *.
  destruct (clock_sent w env h3 (counting (f1 <| state_ := READ_SEND |>) 512) tb3 (512 + S (S t)))
    as [tb4 E4]; [reflexivity|reflexivity|].
  exists (counting (f1 <| state_ := READ_SEND |>) 512 <| state_ := IDLE |>), tb4.
  refine (conj _ (conj eq_refl (conj F4 F5))).
  rewrite (clock_app w 1 514), E1, (clock_app w 1 513).
  change (1 + t)%nat with (S t). rewrite E2. change (1 + S t)%nat with (S (S t)).
  by rewrite (clock_app w 512 1), E3.
Qed.

(** A floppy sector write stores the sector.  From IDLE with a write request
    and a mounted drive, 514 ticks read the request register once and the data
    port 512 times, and the addressed sector of the selected drive's image is
    then the low bytes the core supplied, in order, as far as the image
    reaches; a write-protected image does not change; the other drive's image
    never does. *)
Lemma floppy_write w env h f tb t req ws :
  state_ f = IDLE -> (present f 0 || present f 1) = true ->
  Z.land (in_fdd_request (env t h)) 1 = 0 -> Z.land (in_fdd_request (env t h)) 2 <> 0 -> is_u16 req ->
  in_readdata (env (S t) (h ++ [Rd 0xF200])) = req -> supplies env (h ++ [Rd 0xF200]) ws ->
  exists f' tb', clock w 514 t env h f tb =
      (h ++ [Rd 0xF200] ++ replicate 512 (Rd 0xF20F), f', tb') /\
    state_ f' = IDLE /\ present_ f' = present_ f /\
    image_ f' = (if w then upd (drive_of req)
      (store_bytes (sel (image_ f) (drive_of req)) (sector_of req) (map (fun i => u8 (ws i)) (seq 0 512)))
      (image_ f) else image_ f).
Proof.
  intros Hst Hp Hr1 Hr2 Hu Hd Hws.
  destruct (clock_request w env h f tb t false Hst Hp (conj Hr1 Hr2)) as [tb1 E1].
  destruct (clock_select_write w env (h ++ [Rd 0xF200]) (f <| state_ := WRITE_GET_SECTOR |>) tb1 (S t))
    as [tb2 E2]; [reflexivity|]. rewrite Hd in E2.
  destruct (select_sector_fields (f <| state_ := WRITE_GET_SECTOR |>) req Hu) as (F1 & F2 & F3 & F4 & F5).
  change (image_ (f <| state_ := WRITE_GET_SECTOR |>)) with (image_ f) in F4.
  change (present_ (f <| state_ := WRITE_GET_SECTOR |>)) with (present_ f) in F5.
  revert E2 F1 F2 F3 F4 F5. generalize (select_sector (f <| state_ := WRITE_GET_SECTOR |>) req).
  intros f1 E2 F1 F2 F3 F4 F5. pose proof (sector_of_range req) as Hsec.
  destruct (clock_write_recv w env (f1 <| state_ := WRITE_RECV |>) ws (h ++ [Rd 0xF200]) 511 (S (S t)) tb2 0)
    as [tb3 E3]; [done|cbn; lia|exact Hws|done|].
  assert (E0 : receiving w (f1 <| state_ := WRITE_RECV |>) ws 0 = f1 <| state_ := WRITE_RECV |>).
  { unfold receiving. cbn [map seq]. rewrite store_bytes_nil, upd_sel. change (Z.of_nat 0) with 0.
    rewrite <- F3. destruct f1, w; done. }
  rewrite E0 in E3. change (replicate 1 (Rd 0xF20F)) with [Rd 0xF20F] in E3.
  exists (receiving w (f1 <| state_ := WRITE_RECV |>) ws 512 <| state_ := IDLE |>), tb3.
  refine (conj _ (conj eq_refl (conj F5 _))).
  - rewrite (clock_app w 1 513), E1, (clock_app w 1 512).
    change (1 + t)%nat with (S t). rewrite E2. change (1 + S t)%nat with (S (S t)).
    by rewrite E3, <- app_assoc.
  - unfold receiving. cbn [image_ set_field]. destruct w; [|exact F4].
    change (image_ (f1 <| state_ := WRITE_RECV |>)) with (image_ f1).
    change (sector_ (f1 <| state_ := WRITE_RECV |>)) with (sector_ f1).
    change (selected_drive_ (f1 <| state_ := WRITE_RECV |>)) with (selected_drive_ f1).
    by rewrite F1, F2, F4.
Qed.
End HpsFloppy.

(** ** Geometry *)

(** The formats [infer_floppy_geometry] knows, by sector count. *)
Definition standard_format (sectors : Z) : bool :=
  existsb (Z.eqb sectors) [320; 360; 640; 720; 1440; 2400; 2880; 5760].

(** The inferred geometry fits the image.  For the standard formats it
    covers the image exactly; for any other image of fewer than 40,960 sectors
    there are 1 to 255 sectors per track and the geometry addresses at most the
    sectors there are (at least one per track), missing less than one sector per
    track; from 40,960 sectors on the byte that holds the sectors per track
    wraps, at that size to zero. *)
Lemma geometry_fits size :
  0 <= size -> size / 512 < 4294967296 ->
  let s := size / 512 in
  let g := infer_floppy_geometry size in
  let tracks := cylinders g * heads g in
  0 < tracks /\ total_sectors g = Z.min s 65535 /\
  (standard_format s = true -> tracks * sectors_per_track g = s) /\
  (s < 40960 -> 1 <= sectors_per_track g <= 255 /\
     tracks * sectors_per_track g <= Z.max s tracks /\ s < tracks * (sectors_per_track g + 1)) /\
  (s = 40960 -> sectors_per_track g = 0).
Proof.
  intros H0 H32. cbv zeta. unfold infer_floppy_geometry, standard_format; cbv zeta.
  assert (Hs : 0 <= size / 512) by (apply Z.div_pos; lia).
  rewrite u32_id by (unfold is_u32; lia). set (s := size / 512) in *. clearbody s. cbn [existsb].
  repeat match goal with |- context [if s =? ?k then _ else _] => destruct (Z.eqb_spec s k) as [->|]; [cbn; lia|] end.
  rewrite u16_id by (unfold is_u16; lia).
  repeat match goal with H : s <> ?k |- _ => rewrite (proj2 (Z.eqb_neq s k) H); revert H end. cbn [orb]. intros.
  cbn -[u8 Z.mul Z.div Z.max].
  destruct (Z.leb_spec s 720); destruct (Z.leb_spec s 360); try lia; cbn -[u8 Z.div Z.max];
    (split; [lia|]; split; [done|]; split; [done|]; split;
     [intros Hlt; rewrite u8_id by (unfold is_u8; divlia); divlia | intros ->; try lia; done]).
Qed.

(** What was stored is what is read, as far as the image reaches. *)
Lemma sector_bytes_stored image sector ws :
  0 <= sector -> length ws = 512%nat -> sector * 512 + 512 <= Z.of_nat (length image) ->
  HpsFloppy.sector_bytes (HpsFloppy.store_bytes image sector ws) sector = ws.
Proof.
  intros Hs Hl Hfit. unfold HpsFloppy.sector_bytes. apply list_eq. intros i.
  rewrite list_lookup_fmap. destruct (decide (i < 512)%nat) as [Hi|Hi].
  - rewrite lookup_seq_lt by lia. cbn [fmap option_fmap option_map].
    rewrite HpsFloppy.lookup_store_bytes by lia. cbv zeta. rewrite decide_True by lia.
    destruct (lookup_lt_is_Some_2 ws i) as [x Hx]; [lia|].
    replace (Z.to_nat (sector * 512 + Z.of_nat (0 + i)) - Z.to_nat (sector * 512))%nat with i by lia.
    by rewrite Hx.
  - rewrite lookup_seq_ge, lookup_ge_None_2 by lia. done.
Qed.

(** ** A mounted drive A: with two sectors *)

Definition demo_floppy : HpsFloppy.HpsFloppy :=
  match HpsFloppy.open (fun _ => Some (replicate 512 0x11 ++ replicate 512 0x22)) HpsFloppy.new [] 0 with
  | Ok f => f
  | _ => HpsFloppy.new
  end.

(** A core that requests sector 1 and supplies 0xE5 bytes. *)
Definition demo_controller (req : Z) : Env := fun _ h =>
  mkInputs (match h with [_] => 1 | _ => 0x12E5 end) 0 0 req.

Lemma demo_image_bytes : bytes (HpsFloppy.image_ demo_floppy).1 /\ bytes (HpsFloppy.image_ demo_floppy).2.
Proof.
  split; [|exact bytes_nil].
  change (bytes (replicate 512 0x11 ++ replicate 512 0x22)).
  apply bytes_app; apply bytes_replicate; width.
Qed.

Lemma floppy_read_witness :
  exists f' tb', HpsFloppy.clock false 515 0 (demo_controller 1) [] demo_floppy idle_bus =
      ([Rd 0xF200] ++ map (Wr 0xF20F) (HpsFloppy.sector_bytes (replicate 512 0x11 ++ replicate 512 0x22) 1), f', tb') /\
    HpsFloppy.state_ f' = HpsFloppy.IDLE /\ HpsFloppy.image_ f' = HpsFloppy.image_ demo_floppy /\
    HpsFloppy.present_ f' = HpsFloppy.present_ demo_floppy.
Proof.
  apply (HpsFloppy.floppy_read false (demo_controller 1) [] demo_floppy idle_bus 0 1); try reflexivity.
  - vm_compute. discriminate.
  - width.
  - exact (proj1 demo_image_bytes).
  - exact (proj2 demo_image_bytes).
Defined.

Lemma floppy_write_witness :
  exists f' tb', HpsFloppy.clock true 514 0 (demo_controller 2) [] demo_floppy idle_bus =
      ([Rd 0xF200] ++ replicate 512 (Rd 0xF20F), f', tb') /\
    HpsFloppy.state_ f' = HpsFloppy.IDLE /\ HpsFloppy.present_ f' = HpsFloppy.present_ demo_floppy /\
    HpsFloppy.image_ f' = (HpsFloppy.store_bytes (replicate 512 0x11 ++ replicate 512 0x22) 1
      (map (fun i => u8 0x12E5) (seq 0 512)), []).
Proof.
  apply (HpsFloppy.floppy_write true (demo_controller 2) [] demo_floppy idle_bus 0 1 (fun _ => 0x12E5));
    try reflexivity.
  - vm_compute. discriminate.
  - width.
  - intros t i _. reflexivity.
Defined.

Lemma geometry_fits_witness :
  let g := infer_floppy_geometry 1474560 in
  0 < cylinders g * heads g /\ total_sectors g = Z.min 2880 65535 /\
  (standard_format 2880 = true -> cylinders g * heads g * sectors_per_track g = 2880) /\
  (2880 < 40960 -> 1 <= sectors_per_track g <= 255 /\
     cylinders g * heads g * sectors_per_track g <= Z.max 2880 (cylinders g * heads g) /\
     2880 < cylinders g * heads g * (sectors_per_track g + 1)) /\
  (2880 = 40960 -> sectors_per_track g = 0).
Proof. apply (geometry_fits 1474560); vm_compute; congruence. Defined.
