(* ===== verification/SharedBus.v ===== *)
(** * The management bus shared by the three drives

    The main loop of verilator/main.cpp clears the management strobes, ticks
    the first IDE channel, the second when the first issued nothing, and the
    floppy when neither did.  While the other drives have no requests, a channel
    behaves on the shared bus exactly as alone, so the command theorems hold for
    the whole simulator; when two channels have requests at once, one can take
    the other's answers for its own. *)
From S2P Require Import Prelude Codec IdeTypes IdeGeometry IdePacket IdeCommand IdeTick IdeInvariant.
From S2P Require Import IdeSafety IdeProtocol IdeDisk IdeWrite IdeAtapi Floppy.

(** ** One cycle of the main loop *)

Definition bus_op (tb : Bus) : bool := mgmt_read tb || mgmt_write tb.

Record Drives := mkDrives {
  jitter : Jitter;                 (* the globals of ide_hps.cpp *)
  ide0 : HpsIde;
  ide1 : HpsIde;
  floppy0 : HpsFloppy.HpsFloppy
}.

#[export] Instance eta_Drives : Eta Drives := fun r => mkDrives (jitter r) (ide0 r) (ide1 r) (floppy0 r).

Definition manage (floppy_writable : bool) (d : Drives) (tb : Bus) : option (Drives * Bus) :=
  let tb := clear_bus tb in
  '(g, i0, tb) ← tick (jitter d) (ide0 d) tb;
  '(g, i1, tb) ← (if negb (mgmt_read tb) && negb (mgmt_write tb) then tick g (ide1 d) tb
                  else Some (g, ide1 d, tb));
  let '(fl, tb) := if negb (mgmt_read tb) && negb (mgmt_write tb)
                   then HpsFloppy.tick floppy_writable (floppy0 d) tb else (floppy0 d, tb) in
  Some (mkDrives g i0 i1 fl, tb).

(** The loop against a core, recording the operations on the bus. *)
Fixpoint manage_run (w : bool) (k t : nat) (env : Env) (h : list Op) (d : Drives) (tb : Bus)
  : option (list Op * Drives * Bus) :=
  match k with
  | O => Some (h, d, tb)
  | S k =>
    '(d, tb) ← manage w d (sample (env t h) tb);
    manage_run w k (S t) env (h ++ ops_of tb) d tb
  end.

(** ** Drives without requests *)

(** A channel that waits for a command, is not stalled and gets no request. *)
Definition quiet_ide (s : HpsIde) : Prop := state_ s = IDLE /\ ready s.

Definition no_request (env : Env) (id : Z) : Prop :=
  forall t h, (if id =? 0 then in_ide0_request (env t h) else in_ide1_request (env t h)) = 0.

Lemma clear_bus_idle tb : mgmt_read tb = false -> mgmt_write tb = false -> clear_bus tb = tb.
Proof. destruct tb; cbn. by intros -> ->. Qed.

Lemma clear_bus_strobes tb : mgmt_read (clear_bus tb) = false /\ mgmt_write (clear_bus tb) = false.
Proof. done. Qed.

Lemma clear_bus_twice tb : clear_bus (clear_bus tb) = clear_bus tb.
Proof. done. Qed.

Lemma tick_clear g s tb : tick g s (clear_bus tb) = tick g s tb.
Proof. unfold tick. by rewrite clear_bus_twice. Qed.

(** A quiet channel does not use its tick. *)
Lemma quiet_tick g s tb :
  quiet_ide s -> reset tb = false -> request s tb = 0 -> tick g s tb = Some (g, s, clear_bus tb).
Proof.
  intros [Hst [Hc Hj]] Hr Hq. unfold tick. change (reset (clear_bus tb)) with (reset tb).
  rewrite Hr, Hc, Hj. cbn [Z.ltb Z.compare]. unfold dispatch. rewrite Hst. unfold on_IDLE.
  change (request s (clear_bus tb)) with (request s tb). rewrite Hq. done.
Qed.

Lemma quiet_floppy w f tb :
  HpsFloppy.state_ f = HpsFloppy.IDLE -> reset tb = false -> fdd_request tb = 0 ->
  HpsFloppy.tick w f tb = (f, tb).
Proof.
  intros Hst Hr Hq. unfold HpsFloppy.tick. rewrite Hr, Hst, Hq. by destruct (negb _ && negb _).
Qed.

Lemma sample_fields i tb :
  reset (sample i tb) = false /\ fdd_request (sample i tb) = in_fdd_request i /\
  ide0_request (sample i tb) = in_ide0_request i /\ ide1_request (sample i tb) = in_ide1_request i.
Proof. done. Qed.

(** A tick keeps what the core presents. *)
Lemma tick_frame g s tb g' s' tb' :
  tick g s tb = Some (g', s', tb') ->
  reset tb' = reset tb /\ fdd_request tb' = fdd_request tb /\
  ide0_request tb' = ide0_request tb /\ ide1_request tb' = ide1_request tb.
Proof.
  unfold tick. destruct (reset (clear_bus tb)); [by intros [= _ _ <-]|].
  destruct (bus_cooldown_ s); [by intros [= _ _ <-]|].
  destruct (0 <? jitter_delay_ s); [by intros [= _ _ <-]|].
  destruct (dispatch s (clear_bus tb)) as [[s1 tb1]|] eqn:E; [|done]. cbn [mbind option_bind].
  destruct (arm_cooldown g s1 tb1). intros [= _ _ <-].
  destruct (dispatch_frame _ _ _ _ E) as (F1 & _ & F3 & F4 & F2 & _). by split_and!.
Qed.

Lemma tick_same g s tb g' s' tb' : tick g s tb = Some (g', s', tb') -> id_ s' = id_ s /\ base_ s' = base_ s.
Proof.
  unfold tick. destruct (reset (clear_bus tb)); [by intros [= _ <- _]|].
  destruct (bus_cooldown_ s); [by intros [= _ <- _]|].
  destruct (0 <? jitter_delay_ s); [by intros [= _ <- _]|].
  destruct (dispatch s (clear_bus tb)) as [[s1 tb1]|] eqn:E; [|done]. cbn [mbind option_bind].
  destruct (dispatch_same _ _ _ _ E) as (F1 & F2 & _).
  unfold arm_cooldown. destruct (_ || _); [destruct (g_jitter_en g); [destruct (jitter_next g)|]|];
    by intros [= _ <- _].
Qed.

(** One cycle with the second channel and the floppy quiet is a tick of the first. *)
Lemma manage_first w d tb :
  quiet_ide (ide1 d) -> id_ (ide1 d) <> 0 -> HpsFloppy.state_ (floppy0 d) = HpsFloppy.IDLE ->
  reset tb = false -> ide1_request tb = 0 -> fdd_request tb = 0 ->
  manage w d tb =
    ('(g, s, tb) ← tick (jitter d) (ide0 d) tb; Some (mkDrives g s (ide1 d) (floppy0 d), tb)).
Proof.
  intros Hq Hid Hf Hr H1 Hfd. unfold manage. rewrite tick_clear.
  destruct (tick (jitter d) (ide0 d) tb) as [[[g s] tb1]|] eqn:E; [|done]. cbn [mbind option_bind].
  destruct (tick_frame _ _ _ _ _ _ E) as (F1 & F2 & _ & F4). rewrite Hr in F1. rewrite Hfd in F2. rewrite H1 in F4.
  destruct (mgmt_read tb1) eqn:Er; [cbn [negb andb mbind option_bind]; by rewrite Er|].
  destruct (mgmt_write tb1) eqn:Ew; [cbn [negb andb mbind option_bind]; by rewrite Er, Ew|].
  cbn [negb andb]. rewrite quiet_tick; try done.
  2: { unfold request. by rewrite (proj2 (Z.eqb_neq _ 0) Hid). }
  cbn [mbind option_bind]. rewrite (clear_bus_idle tb1) by done. rewrite Er, Ew. cbn [negb andb].
  by rewrite quiet_floppy.
Qed.

(** And with the first channel and the floppy quiet, one of the second. *)
Lemma manage_second w d tb :
  quiet_ide (ide0 d) -> id_ (ide0 d) = 0 -> HpsFloppy.state_ (floppy0 d) = HpsFloppy.IDLE ->
  reset tb = false -> ide0_request tb = 0 -> fdd_request tb = 0 ->
  manage w d tb =
    ('(g, s, tb) ← tick (jitter d) (ide1 d) tb; Some (mkDrives g (ide0 d) s (floppy0 d), tb)).
Proof.
  intros Hq Hid Hf Hr H1 Hfd. unfold manage. rewrite tick_clear.
  rewrite (quiet_tick (jitter d)) by (try done; unfold request; by rewrite Hid). cbn [mbind option_bind].
  destruct (clear_bus_strobes tb) as [-> ->]. cbn [negb andb]. rewrite tick_clear.
  destruct (tick (jitter d) (ide1 d) tb) as [[[g s] tb1]|] eqn:E; [|done]. cbn [mbind option_bind].
  destruct (tick_frame _ _ _ _ _ _ E) as (F1 & F2 & _ & _). rewrite Hr in F1. rewrite Hfd in F2.
  destruct (mgmt_read tb1) eqn:Er; [done|]. destruct (mgmt_write tb1) eqn:Ew; [done|].
  cbn [negb andb]. by rewrite quiet_floppy.
Qed.

(** ** Properties *)


(** C29: an undisturbed channel works as if alone.  As long as the core requests
    nothing from the other IDE channel and the floppy, clocking all drives on
    the shared bus is clocking the one channel: the same operations, the same
    state and the same jitter at every cycle, the other drives unchanged. *)
Theorem undisturbed_channel w k env h d :
  HpsFloppy.state_ (floppy0 d) = HpsFloppy.IDLE -> id_ (ide0 d) = 0 -> id_ (ide1 d) <> 0 ->
  (forall t h, in_fdd_request (env t h) = 0) ->
  forall t tb,
  (quiet_ide (ide1 d) -> no_request env 1 ->
   manage_run w k t env h d tb =
     ('(h, g, s, tb) ← run_env k t env h (jitter d) (ide0 d) tb;
      Some (h, mkDrives g s (ide1 d) (floppy0 d), tb))) /\
  (quiet_ide (ide0 d) -> no_request env 0 ->
   manage_run w k t env h d tb =
     ('(h, g, s, tb) ← run_env k t env h (jitter d) (ide1 d) tb;
      Some (h, mkDrives g (ide0 d) s (floppy0 d), tb))).
Proof.
  intros Hf H0 H1 Hfdd. split; intros Hq Hn; revert t h tb d Hf H0 H1 Hq;
    induction k as [|k IH]; intros t h tb d Hf H0 H1 Hq; try (by destruct d);
    cbn [manage_run run_env]; destruct (sample_fields (env t h) tb) as (S1 & S2 & S3 & S4);
    rewrite Hfdd in S2.
  - rewrite (Hn t h : in_ide1_request (env t h) = 0) in S4.
    rewrite manage_first by done.
    destruct (tick _ (ide0 d) _) as [[[g s] tb1]|] eqn:E; [|done]. cbn [mbind option_bind].
    assert (Hid : id_ s = 0).
    { destruct (tick_same _ _ _ _ _ _ E) as [-> _]. done. }
    apply (IH (S t) _ tb1 (mkDrives g s (ide1 d) (floppy0 d))); done.
  - rewrite (Hn t h : in_ide0_request (env t h) = 0) in S3.
    rewrite manage_second by done.
    destruct (tick _ (ide1 d) _) as [[[g s] tb1]|] eqn:E; [|done]. cbn [mbind option_bind].
    assert (Hid : id_ s <> 0).
    { destruct (tick_same _ _ _ _ _ _ E) as [-> _]. done. }
    apply (IH (S t) _ tb1 (mkDrives g (ide0 d) s (floppy0 d))); done.
Qed.

(** ** Two channels at once *)

(** A core whose management registers answer by address: the register last
    addressed is what it presents; both channels have a command pending until
    it is fetched. *)
Definition two_commands (tf0 tf1 : nat -> Z) : Env := fun _ h =>
  mkInputs (match last h with
            | Some o => let a := op_addr o in
                        if (0xF000 <=? a) && (a <? 0xF006) then tf0 (Z.to_nat (a - 0xF000))
                        else if (0xF100 <=? a) && (a <? 0xF106) then tf1 (Z.to_nat (a - 0xF100))
                        else 0
            | None => 0
            end) 4 4 0.

(** READ SECTORS for the disk, DEVICE RESET for the CD-ROM drive. *)
Definition disk_taskfile (k : nat) : Z := match k with 1%nat => 0x0001 | 5%nat => 0x20E0 | _ => 0 end.
Definition disc_taskfile (k : nat) : Z := match k with 1%nat => 0x0001 | 5%nat => 0x08A0 | _ => 0 end.

(** The disc of the ATAPI examples on the second channel. *)
Definition disc_on_ide1 : HpsIde :=
  match open_cdrom disc_files same_path (HpsIde_new 1 0xF100) [] with
  | (_, s) => s <| state_ := IDLE |>
  end.

Definition both_idle : Drives := mkDrives no_jitter idle_disk disc_on_ide1 HpsFloppy.new.

(** Concurrent commands collide.  When both channels have a command pending,
    the second channel issues its first read in the first one's idle tick; the
    first then takes the address and the data of that read for its own and
    fetches the rest of the other channel's task file.  The disk ends up with
    the CD-ROM drive's command, and its own task file is read no further than
    the first register. *)
Lemma concurrent_commands_collide :
  cmd_code disk_taskfile = 0x20 /\ cmd_code disc_taskfile = 0x08 /\
  ('(h, d, _) ← manage_run false 11 0 (two_commands disk_taskfile disc_taskfile) [] both_idle idle_bus;
   Some (h, state_ (ide0 d), cmd_ (ide0 d))) =
  Some (Rd 0xF000 :: map (fun k => Rd (0xF100 + Z.of_nat k)) (seq 0 6), DO_CMD, 0x08).
Proof. split; [|split]; vm_compute; reflexivity. Qed.

(** ** The undisturbed disk of the READ SECTORS example *)

Definition disk_and_disc : Drives := mkDrives no_jitter idle_disk disc_on_ide1 HpsFloppy.new.

Lemma disc_on_ide1_quiet : quiet_ide disc_on_ide1 /\ id_ disc_on_ide1 <> 0.
Proof. vm_compute. repeat split; discriminate. Qed.

Lemma undisturbed_channel_witness :
  manage_run false 40 0 (demo_core (demo_taskfile 0x20) (fun _ => 0)) [] disk_and_disc idle_bus =
    ('(h, g, s, tb) ← run_env 40 0 (demo_core (demo_taskfile 0x20) (fun _ => 0)) [] no_jitter idle_disk idle_bus;
     Some (h, mkDrives g s disc_on_ide1 HpsFloppy.new, tb)).
Proof.
  destruct disc_on_ide1_quiet as [Hq Hid].
  apply (undisturbed_channel false 40 (demo_core (demo_taskfile 0x20) (fun _ => 0)) [] disk_and_disc);
    try reflexivity; [exact Hid|exact Hq|intros t h; reflexivity].
Defined.
