(* ===== verification/Text.v ===== *)
(** * Text

    Decimal numbers as the code prints them, the words of a text, and
    [std::istringstream] as the code reads commands with it: formatted input of
    strings and integers, with the state bits that stop it ([Istringstream], [get_string],
    [get_num]).  A printed number is read back ([get_int_print], [get_unsigned_print]).
    The searches of [std::string] that the code uses, on texts of lines. *)
From S2P Require Import Prelude IdeTypes.

(** ** Numbers *)

Fixpoint digits (k : nat) (n : Z) : list Z :=
  match k with
  | O => []
  | S k => (48 + (n / 10 ^ Z.of_nat k) mod 10) :: digits k n
  end.

(** Without at most [k] leading zeros. *)
Fixpoint strip (k : nat) (l : list Z) : list Z :=
  match k, l with
  | S k, d :: l' => if d =? 48 then strip k l' else l
  | _, _ => l
  end.

(** A uint64_t printed plainly, and an int. *)
Definition dec (n : Z) : list Z := strip 19 (digits 20 n).
Definition print_int (n : Z) : list Z := if n <? 0 then 45 :: dec (- n) else dec n.

Definition isspace (c : Z) : bool := (c =? 32) || ((9 <=? c) && (c <=? 13)).
Definition isdigit (c : Z) : bool := (48 <=? c) && (c <=? 57).

(** The words [>>] extracts; [w] is the part of a word already read. *)
Fixpoint words (w l : list Z) : list (list Z) :=
  match l with
  | [] => match w with [] => [] | _ => [w] end
  | c :: l => if isspace c then (match w with [] => words [] l | _ => w :: words [] l end) else words (w ++ [c]) l
  end.

(** ** [std::string] *)

Definition newline : Z := 10.

Fixpoint starts_with (k name : list Z) : bool :=
  match k, name with
  | [], _ => true
  | x :: k, y :: name => (x =? y) && starts_with k name
  | _, [] => false
  end.

(** [find(needle)] and [find(needle, pos)]; [None] is [npos]. *)
Fixpoint find (needle l : list Z) : option nat :=
  if starts_with needle l then Some 0%nat
  else match l with [] => None | _ :: l => S <$> find needle l end.

Definition find_from (needle l : list Z) (pos : nat) : option nat := Nat.add pos <$> find needle (drop pos l).

(** [rfind(c, pos)]. *)
Fixpoint last_index (c : Z) (l : list Z) : option nat :=
  match l with
  | [] => None
  | x :: l => match last_index c l with
    | Some i => Some (S i)
    | None => if x =? c then Some 0%nat else None
    end
  end.

Definition rfind (c : Z) (l : list Z) (pos : nat) : option nat := last_index c (take (S pos) l).

(** [substr(pos, n)], [n] a [size_t]. *)
Definition substr (l : list Z) (pos : nat) (n : Z) : list Z :=
  take (Z.to_nat (Z.min n (Z.of_nat (length l)))) (drop pos l).

(** [find_first_not_of(c)] and [find_last_not_of(c)]. *)
Fixpoint first_not_of (c : Z) (l : list Z) : option nat :=
  match l with
  | [] => None
  | x :: l => if x =? c then S <$> first_not_of c l else Some 0%nat
  end.

Fixpoint last_not_of (c : Z) (l : list Z) : option nat :=
  match l with
  | [] => None
  | x :: l => match last_not_of c l with
    | Some i => Some (S i)
    | None => if x =? c then None else Some 0%nat
    end
  end.

(** ** [std::istringstream] *)

Record Istringstream := mkIstringstream { unread : list Z; failbit : bool; eofbit : bool }.

Definition iss_of (l : list Z) : Istringstream := mkIstringstream l false false.

Definition is_nil {A} (l : list A) : bool := match l with [] => true | _ => false end.

(** The characters read have reached the end. *)
Definition left_at (r : list Z) (fail : bool) : Istringstream := mkIstringstream r fail (is_nil r).

Fixpoint skip_space (l : list Z) : list Z :=
  match l with
  | c :: l' => if isspace c then skip_space l' else l
  | [] => []
  end.

(** The sentry of formatted input: the text behind the blanks, or failure. *)
Definition sentry (i : Istringstream) : option (list Z) * Istringstream :=
  if failbit i || eofbit i then (None, mkIstringstream (unread i) true (eofbit i))
  else match skip_space (unread i) with
    | [] => (None, mkIstringstream [] true true)
    | l => (Some l, i)
    end.

Fixpoint span (p : Z -> bool) (l : list Z) : list Z * list Z :=
  match l with
  | [] => ([], [])
  | c :: l' => if p c then let '(a, b) := span p l' in (c :: a, b) else ([], l)
  end.

(** [is >> string]; the string keeps its value when there is nothing to read. *)
Definition get_string (old : list Z) (i : Istringstream) : list Z * Istringstream :=
  match sentry i with
  | (None, i) => (old, i)
  | (Some l, _) => let '(w, r) := span (fun c => negb (isspace c)) l in (w, left_at r false)
  end.

Definition digit_val (acc : Z) (l : list Z) : Z := fold_left (fun acc c => acc * 10 + (c - 48)) l acc.

(** [is >> n] for an int ([lo < 0]) or an unsigned ([lo = 0]) as libstdc++ reads
    it: without digits [n] becomes 0, out of range the nearest bound, and both
    fail; a minus sign negates an unsigned modulo its width. *)
Definition get_num (lo hi old : Z) (i : Istringstream) : Z * Istringstream :=
  match sentry i with
  | (None, i) => (old, i)
  | (Some l, _) =>
    let neg := match l with c :: _ => c =? 45 | _ => false end in
    let sign := match l with c :: _ => (c =? 45) || (c =? 43) | _ => false end in
    let '(ds, r) := span isdigit (if sign then tail l else l) in
    if is_nil ds then (0, left_at r true) else
    let v := digit_val 0 ds in
    let bound := if neg && (lo <? 0) then - lo else hi in
    if bound <? v then (if neg && (lo <? 0) then lo else hi, left_at r true)
    else (if neg then (if lo <? 0 then - v else (- v) mod (hi + 1)) else v, left_at r false)
  end.

Definition INT_MIN : Z := -2147483648.
Definition INT_MAX : Z := 2147483647.
Definition UINT_MAX : Z := 4294967295.
Definition get_int : Z -> Istringstream -> Z * Istringstream := get_num INT_MIN INT_MAX.
Definition get_unsigned : Z -> Istringstream -> Z * Istringstream := get_num 0 UINT_MAX.

(** ** Printed numbers *)

Lemma length_digits k n : length (digits k n) = k.
Proof. revert n. induction k; intros n; simpl; auto. Qed.

Lemma digits_Forall k n : Forall (fun d => 48 <= d < 58) (digits k n).
Proof.
  revert n. induction k as [|k IH]; intros n; simpl; constructor; [|auto].
  pose proof (Z.mod_pos_bound (n / 10 ^ Z.of_nat k) 10). lia.
Qed.

Lemma strip_Forall (P : Z -> Prop) k l : Forall P l -> Forall P (strip k l).
Proof.
  revert l. induction k as [|k IH]; intros [|x l] H; simpl; try done.
  case_match; [|done]. inversion H. auto.
Qed.

Lemma strip_length k l : (length l - k <= length (strip k l))%nat.
Proof.
  revert l. induction k as [|k IH]; intros [|x l]; simpl; try lia.
  case_match; simpl; [|lia]. specialize (IH l). lia.
Qed.

Definition word (l : list Z) : Prop := l <> [] /\ Forall (fun c => isspace c = false) l.

Lemma digits_word k j n : (j < k)%nat -> word (strip j (digits k n)).
Proof.
  intros Hj. split.
  - intros E. pose proof (strip_length j (digits k n)) as H. rewrite E, length_digits in H. simpl in H. lia.
  - apply strip_Forall. eapply Forall_impl; [apply digits_Forall|]. intros x Hx. simpl in Hx. unfold isspace. lia.
Qed.

Lemma word_app a b : word a -> word b -> word (a ++ b).
Proof. intros [Ha Ha'] [Hb Hb']. split; [by destruct a|]. by apply Forall_app_2. Qed.

Lemma dec_word n : word (dec n).
Proof. apply digits_word. lia. Qed.

Lemma dec_digits n : Forall (fun c => isdigit c = true) (dec n).
Proof.
  apply strip_Forall. eapply Forall_impl; [apply digits_Forall|]. intros c Hc. simpl in Hc. unfold isdigit. lia.
Qed.

Lemma digit_val_digits k n : forall acc,
  digit_val acc (digits k n) = acc * 10 ^ Z.of_nat k + n mod 10 ^ Z.of_nat k.
Proof.
  unfold digit_val. induction k as [|k IH]; intros acc.
  - simpl. rewrite Z.mod_1_r. lia.
  - cbn [digits fold_left]. rewrite IH, Nat2Z.inj_succ, Z.pow_succ_r by lia.
    assert (0 < 10 ^ Z.of_nat k) by (apply Z.pow_pos_nonneg; lia).
    rewrite (Z.mul_comm 10 (10 ^ _)), (Z.rem_mul_r n) by lia. lia.
Qed.

Lemma digit_val_strip k : forall l, digit_val 0 (strip k l) = digit_val 0 l.
Proof.
  induction k as [|k IH]; intros [|c l]; simpl; try done.
  destruct (Z.eqb_spec c 48) as [->|]; [|done]. by rewrite IH.
Qed.

Lemma digit_val_dec n : 0 <= n < 10 ^ 20 -> digit_val 0 (dec n) = n.
Proof. intros Hn. unfold dec. rewrite digit_val_strip, digit_val_digits, Z.mod_small; lia. Qed.

(** ** Reading *)

(** What follows a token: the end of the text or a blank. *)
Definition at_break (l : list Z) : Prop := match l with [] => True | c :: _ => isspace c = true end.

Lemma span_all p w r :
  Forall (fun c => p c = true) w -> match r with [] => True | c :: _ => p c = false end -> span p (w ++ r) = (w, r).
Proof.
  intros Hw Hr. induction Hw as [|c w Hc Hw IH]; simpl.
  - destruct r; simpl; [done|]. by rewrite Hr.
  - by rewrite Hc, IH.
Qed.

Lemma skip_word w r : word w -> skip_space (w ++ r) = w ++ r.
Proof. intros [Hn Hw]. destruct w; [done|]. apply Forall_cons in Hw as [Hc _]. simpl. by rewrite Hc. Qed.

Lemma sentry_word b w r :
  word w -> Forall (fun c => isspace c = true) b ->
  sentry (mkIstringstream (b ++ w ++ r) false false) = (Some (w ++ r), mkIstringstream (b ++ w ++ r) false false).
Proof.
  intros Hw Hb. assert (skip_space (b ++ w ++ r) = w ++ r) as E.
  { induction Hb as [|c b Hc Hb IH]; simpl; [by apply skip_word|]. by rewrite Hc. }
  unfold sentry. cbn [failbit eofbit unread orb]. rewrite E. by destruct Hw as [Hn _], w.
Qed.

Lemma get_string_word old b w r :
  word w -> Forall (fun c => isspace c = true) b -> at_break r ->
  get_string old (mkIstringstream (b ++ w ++ r) false false) = (w, left_at r false).
Proof.
  intros Hw Hb Hr. unfold get_string. rewrite sentry_word by done.
  rewrite span_all; [done| |].
  - destruct Hw as [_ Hw]. eapply Forall_impl; [apply Hw|]. simpl. by intros c ->.
  - destruct r; [done|]. simpl in Hr. by rewrite Hr.
Qed.

(** Nothing is left: the value keeps. *)
Lemma get_string_end old : get_string old (left_at [] false) = (old, mkIstringstream [] true true).
Proof. done. Qed.
Lemma get_num_end lo hi old : get_num lo hi old (left_at [] false) = (old, mkIstringstream [] true true).
Proof. done. Qed.

Lemma print_int_word n : word (print_int n).
Proof.
  unfold print_int. case_bool; [|apply dec_word]. destruct (dec_word (- n)). split; [done|]. by constructor.
Qed.

(** A decimal number without a sign. *)
Lemma get_num_digits lo hi old b ds r :
  lo <= 0 -> ds <> [] -> Forall (fun c => isdigit c = true) ds -> Forall (fun c => isspace c = true) b -> at_break r ->
  get_num lo hi old (mkIstringstream (b ++ ds ++ r) false false) =
    if hi <? digit_val 0 ds then (hi, left_at r true) else (digit_val 0 ds, left_at r false).
Proof.
  intros Hlo Hn Hd Hb Hr. unfold get_num. rewrite sentry_word; [|split; [done|]|done].
  2: { eapply Forall_impl; [apply Hd|]. intros c. unfold isdigit, isspace. simpl. lia. }
  destruct ds as [|c ds]; [done|]. pose proof Hd as Hd'. apply Forall_cons in Hd' as [Hc _].
  cbn [app]. rewrite (proj2 (Z.eqb_neq c 45)), (proj2 (Z.eqb_neq c 43)) by (unfold isdigit in Hc; lia).
  cbn [orb andb]. change (c :: ds ++ r) with ((c :: ds) ++ r). rewrite span_all; [done|done|].
  destruct r as [|d r]; [done|]. simpl in Hr. unfold isdigit, isspace in *. lia.
Qed.

Lemma get_num_minus hi old b lo ds r :
  lo < 0 -> ds <> [] -> Forall (fun c => isdigit c = true) ds -> Forall (fun c => isspace c = true) b -> at_break r ->
  get_num lo hi old (mkIstringstream (b ++ (45 :: ds) ++ r) false false) =
    if - lo <? digit_val 0 ds then (lo, left_at r true) else (- digit_val 0 ds, left_at r false).
Proof.
  intros Hlo Hn Hd Hb Hr. unfold get_num. rewrite sentry_word; [|split; [done|constructor; [done|]]|done].
  2: { eapply Forall_impl; [apply Hd|]. intros c. unfold isdigit, isspace. simpl. lia. }
  cbn [app tail orb andb]. rewrite Z.eqb_refl. cbn [orb andb]. rewrite (proj2 (Z.ltb_lt lo 0)) by lia.
  rewrite span_all; [by destruct ds|done|].
  destruct r as [|d r]; [done|]. simpl in Hr. unfold isdigit, isspace in *. lia.
Qed.

(** A printed number is read back. *)
Lemma get_int_print old b n r :
  INT_MIN <= n <= INT_MAX -> Forall (fun c => isspace c = true) b -> at_break r ->
  get_int old (mkIstringstream (b ++ print_int n ++ r) false false) = (n, left_at r false).
Proof.
  unfold INT_MIN, INT_MAX. intros Hn Hb Hr. unfold get_int, print_int.
  destruct (Z.ltb_spec n 0).
  - rewrite get_num_minus; try done; [|by apply (dec_word (- n))|apply dec_digits].
    rewrite digit_val_dec by lia. unfold INT_MIN. rewrite (proj2 (Z.ltb_ge _ _)) by lia. f_equal. lia.
  - rewrite get_num_digits; try done; [|by apply (dec_word n)|apply dec_digits].
    rewrite digit_val_dec by lia. unfold INT_MAX. by rewrite (proj2 (Z.ltb_ge _ _)) by lia.
Qed.

Lemma get_unsigned_print old b n r :
  0 <= n <= UINT_MAX -> Forall (fun c => isspace c = true) b -> at_break r ->
  get_unsigned old (mkIstringstream (b ++ dec n ++ r) false false) = (n, left_at r false).
Proof.
  unfold UINT_MAX. intros Hn Hb Hr. unfold get_unsigned.
  rewrite get_num_digits; try done; [|by apply (dec_word n)|apply dec_digits].
  rewrite digit_val_dec by lia. unfold UINT_MAX. by rewrite (proj2 (Z.ltb_ge _ _)) by lia.
Qed.

(** ** Texts of lines *)

Definition unlines (rows : list (list Z)) : list Z := concat (map (fun r => r ++ [newline]) rows).

Definition one_line (l : list Z) : Prop := newline ∉ l.

Lemma unlines_cons r rows : unlines (r :: rows) = r ++ newline :: unlines rows.
Proof. unfold unlines. cbn. by rewrite <- app_assoc. Qed.

Lemma unlines_app a b : unlines (a ++ b) = unlines a ++ unlines b.
Proof. unfold unlines. by rewrite map_app, concat_app. Qed.

Lemma starts_with_line needle row rest :
  one_line needle -> starts_with needle (row ++ newline :: rest) = starts_with needle row.
Proof.
  revert row. induction needle as [|x needle IH]; intros row Hn; [by destruct row|].
  apply not_elem_of_cons in Hn as [Hx Hn]. destruct row as [|y row]; cbn.
  - by rewrite (proj2 (Z.eqb_neq x newline)).
  - by rewrite IH.
Qed.

Lemma find_line needle row rest :
  needle <> [] -> one_line needle ->
  find needle (row ++ newline :: rest) =
    match find needle row with
    | Some i => Some i
    | None => Nat.add (S (length row)) <$> find needle rest
    end.
Proof.
  intros Hne Hn. induction row as [|y row IH].
  - pose proof (starts_with_line needle [] rest Hn) as E. cbn [app] in E. cbn [app find length]. rewrite E.
    destruct needle; [done|]. by destruct (find _ rest).
  - pose proof (starts_with_line needle (y :: row) rest Hn) as E. cbn [app] in E. cbn [app find length]. rewrite E.
    destruct (starts_with needle (y :: row)); [done|]. rewrite IH.
    destruct (find needle row); [done|]. by destruct (find needle rest).
Qed.

Lemma find_length needle l i : find needle l = Some i -> (i + length needle <= length l)%nat.
Proof.
  revert i. induction l as [|x l IH]; intros i; cbn [find].
  - destruct (starts_with needle []) eqn:E; [|done]. destruct needle; [|done]. intros [= <-]. cbn. lia.
  - destruct (starts_with needle (x :: l)) eqn:E.
    + intros [= <-]. clear IH. revert E. generalize (x :: l) as m. clear x l.
      induction needle as [|c needle IH]; intros [|y m] E; cbn in *; try done; [lia..|].
      apply andb_prop in E as [_ E]. specialize (IH _ E). lia.
    + intros (j & Hj & ->)%fmap_Some. specialize (IH _ Hj). cbn. lia.
Qed.

(** The rows before the first with a match, that row, and where the match is. *)
Lemma find_unlines needle rows :
  needle <> [] -> one_line needle ->
  match find needle (unlines rows) with
  | None => Forall (fun r => find needle r = None) rows
  | Some pos => exists above row below i,
      rows = above ++ row :: below /\ Forall (fun r => find needle r = None) above /\
      find needle row = Some i /\ pos = (length (unlines above) + i)%nat
  end.
Proof.
  intros Hne Hn. induction rows as [|r rows IH].
  - destruct needle; [done|]. by constructor.
  - rewrite unlines_cons, find_line by done. destruct (find needle r) as [i|] eqn:E.
    + exists [], r, rows, i. by repeat split.
    + destruct (find needle (unlines rows)) as [pos|]; cbn [fmap option_fmap option_map]; [|by constructor].
      destruct IH as (above & row & below & i & -> & Ha & Hi & ->).
      exists (r :: above), row, below, i. repeat split; [by constructor|done|].
      rewrite unlines_cons, length_app. cbn [length]. lia.
Qed.

Lemma last_index_none c l : c ∉ l -> last_index c l = None.
Proof.
  induction l as [|x l IH]; [done|]. intros [Hx Hl]%not_elem_of_cons. cbn.
  rewrite IH by done. by rewrite (proj2 (Z.eqb_neq x c)).
Qed.

Lemma last_index_app c a w : c ∉ w -> last_index c (a ++ c :: w) = Some (length a).
Proof.
  intros Hw. induction a as [|x a IH]; cbn.
  - by rewrite last_index_none, Z.eqb_refl.
  - by rewrite IH.
Qed.

(** A position in a row: the row starts behind the last newline before it. *)
Lemma row_start above row rest i :
  one_line row -> (i < length row)%nat ->
  match rfind newline (unlines above ++ row ++ rest) (length (unlines above) + i) with
  | Some k => S k
  | None => 0%nat
  end = length (unlines above).
Proof.
  intros Hr Hi. unfold rfind.
  replace (S (length (unlines above) + i)) with (length (unlines above) + S i)%nat by lia.
  rewrite take_app_add, take_app_le by lia.
  assert (newline ∉ take (S i) row) as Ht.
  { intros H. apply Hr. eapply elem_of_take in H as (j & Hj & _). by eapply list_elem_of_lookup_2. }
  destruct above as [|a above _] using rev_ind.
  - cbn. by rewrite last_index_none.
  - rewrite unlines_app, unlines_cons. cbn [unlines map concat]. rewrite app_assoc.
    rewrite <- app_assoc. cbn [app]. rewrite last_index_app by done.
    rewrite !length_app. cbn [length]. lia.
Qed.

Lemma find_char c w r : c ∉ w -> find [c] (w ++ c :: r) = Some (length w).
Proof.
  induction w as [|x w IH].
  - intros _. cbn. by rewrite Z.eqb_refl.
  - intros [Hx Hw]%not_elem_of_cons. cbn [app find starts_with].
    rewrite (proj2 (Z.eqb_neq c x)) by done. cbn [andb]. by rewrite IH.
Qed.

(** Printed numbers have no leading zeros. *)
Lemma strip_head k : forall l, strip k l = drop k l \/ head (strip k l) <> Some 48.
Proof.
  induction k as [|k IH]; intros l; [by left|]. destruct l as [|d l]; [by left|]. cbn [strip drop].
  destruct (Z.eqb_spec d 48); [apply IH|]. right. cbn. congruence.
Qed.

Lemma dec_head n : dec n = [48] \/ head (dec n) <> Some 48.
Proof.
  unfold dec. destruct (strip_head 19 (digits 20 n)) as [E|E]; [|by right].
  rewrite E. cbn [digits drop]. set (d := 48 + _). destruct (decide (d = 48)) as [->|Hd]; [by left|right; cbn; congruence].
Qed.
