(* ===== verification/Screen.v ===== *)
(** * The text screen

    [current_text_screen], [row_for_match] and [dump_nonempty_rows] of
    verilator/main.cpp: the characters of a VGA text mode as the adapter's
    registers place them in plane 0, the row of the screen in which a text is
    found, and the rows that are printed.  The text, searches and print-out are
    those of a grid of 25 rows ([screen_seen]). *)
From S2P Require Import Prelude IdeTypes Text.

(** The adapter's registers and its first plane of 64 KB. *)
Record TextMode := mkTextMode {
  crtc_address_start : Z;
  crtc_address_byte_panning : Z;
  crtc_address_offset : Z;
  crtc_horizontal_display_size : Z;
  plane_ram_0 : list Z
}.

Definition text_char (ch : Z) : Z := if (ch <? 0x20) || (0x7e <? ch) then 32 else ch.

Definition columns (t : TextMode) : Z :=
  let cols := u16 (u16 (crtc_horizontal_display_size t) + 1) in
  if (cols =? 0) || (80 <? cols) then 80 else cols.

Definition row_stride (t : TextMode) : Z :=
  let stride := u16 (Z.shiftl (u16 (crtc_address_offset t)) 2) in
  if (stride =? 0) || (4096 <? stride) then u16 (Z.shiftl (columns t) 1) else stride.

Definition first_row (t : TextMode) : Z :=
  u16 (u16 (crtc_address_start t) + u16 (crtc_address_byte_panning t)).

(** The loops over columns and rows. *)
Definition text_row (t : TextMode) (row_addr : Z) : list Z :=
  map (fun col => text_char (znth 0 (plane_ram_0 t) (u16 (row_addr + Z.shiftl col 1)))) (seqZ 0 (columns t)).

Fixpoint text_rows (n : nat) (t : TextMode) (row_addr : Z) : list Z :=
  match n with
  | O => []
  | S n => text_row t row_addr ++ newline :: text_rows n t (u16 (row_addr + row_stride t))
  end.

Definition current_text_screen (t : TextMode) : list Z := text_rows 25 t (first_row t).

Definition row_for_match (screen needle : list Z) : list Z :=
  match find needle screen with
  | None => []
  | Some pos =>
    let line_start := match rfind newline screen pos with Some i => S i | None => 0%nat end in
    let line_end := default (length screen) (find_from [newline] screen pos) in
    substr screen line_start (u64 (Z.of_nat line_end - Z.of_nat line_start))
  end.

(** A row without the blanks around it; [None] when it is blank. *)
Definition trim (row_text : list Z) : option (list Z) :=
  match first_not_of 32 row_text with
  | None => None
  | Some first =>
    let last := default 0%nat (last_not_of 32 row_text) in
    Some (substr row_text first (Z.of_nat last - Z.of_nat first + 1))
  end.

(** The rows [dump_nonempty_rows] prints, with their numbers.  [fuel]: the
    length of the screen suffices, every row has a character. *)
Fixpoint dump_rows (fuel : nat) (screen : list Z) (line_start : nat) (row : Z) : list (Z * list Z) :=
  match fuel with
  | O => []
  | S fuel =>
    if (line_start <? length screen)%nat then
      let line_end := default (length screen) (find_from [newline] screen line_start) in
      let row_text := substr screen line_start (Z.of_nat line_end - Z.of_nat line_start) in
      match trim row_text with Some text => [(row, text)] | None => [] end ++
      (if (line_end =? length screen)%nat then [] else dump_rows fuel screen (S line_end) (row + 1))
    else []
  end.

Definition dump_nonempty_rows (screen : list Z) : list (Z * list Z) := dump_rows (S (length screen)) screen 0 0.

(** ** The grid *)

(** The character a column of a row shows. *)
Definition cell (t : TextMode) (row col : Z) : Z :=
  text_char (znth 0 (plane_ram_0 t)
    ((crtc_address_start t + crtc_address_byte_panning t + row * row_stride t + 2 * col) mod 65536)).

Definition grid (t : TextMode) : list (list Z) :=
  map (fun row => map (cell t row) (seqZ 0 (columns t))) (seqZ 0 25).

Lemma text_rows_cells n t : forall row addr,
  u16 addr = u16 (crtc_address_start t + crtc_address_byte_panning t + row * row_stride t) ->
  text_rows n t addr = unlines (map (fun row => map (cell t row) (seqZ 0 (columns t))) (seqZ row (Z.of_nat n))).
Proof.
  induction n as [|n IH]; intros row addr Ha; [done|].
  rewrite Nat2Z.inj_succ, (seqZ_cons row) by lia. cbn [map text_rows]. rewrite unlines_cons.
  replace (Z.pred (Z.succ (Z.of_nat n))) with (Z.of_nat n) by lia. f_equal.
  - unfold text_row. apply map_ext. intros col. unfold cell. f_equal. f_equal.
    unfold u16 in *. rewrite Z.shiftl_mul_pow2 by lia. rewrite Z.add_mod, Ha, <- Z.add_mod by lia. f_equal. lia.
  - f_equal. apply IH. unfold u16 in *. rewrite Zmod_mod, Z.add_mod, Ha, <- Z.add_mod by lia. f_equal. lia.
Qed.

Lemma screen_grid t : current_text_screen t = unlines (grid t).
Proof.
  unfold current_text_screen, grid. apply (text_rows_cells 25). unfold first_row, u16.
  rewrite Z.mod_mod, <- Z.add_mod by lia. f_equal. lia.
Qed.

Lemma text_char_printable c : 32 <= text_char c <= 126.
Proof. unfold text_char. case_bool; lia. Qed.

Lemma columns_range t : 1 <= columns t <= 80.
Proof. unfold columns. pose proof (u16_range (u16 (crtc_horizontal_display_size t) + 1)). unfold is_u16 in *. case_bool; lia. Qed.

Lemma grid_lines t : Forall (fun r => one_line r /\ r <> [] /\ Z.of_nat (length r) <= 80) (grid t).
Proof.
  apply Forall_map, Forall_true. intros row. pose proof (columns_range t). split_and!.
  - intros (col & E & _)%list_elem_of_fmap. pose proof (text_char_printable (znth 0 (plane_ram_0 t)
      ((crtc_address_start t + crtc_address_byte_panning t + row * row_stride t + 2 * col) mod 65536))).
    unfold newline, cell in *. lia.
  - intros E%(f_equal length). rewrite length_map, length_seqZ in E. cbn in E. lia.
  - rewrite length_map, length_seqZ. lia.
Qed.

(** ** Searching *)

Definition found (needle row : list Z) : bool := match find needle row with Some _ => true | None => false end.

Lemma substr_all a m b n : Z.of_nat (length m) = n -> substr (a ++ m ++ b) (length a) n = m.
Proof.
  intros <-. unfold substr. rewrite drop_app_length, Z.min_l by (rewrite !length_app; lia).
  rewrite Nat2Z.id. apply take_app_length.
Qed.

Lemma find_from_row above row rest i :
  one_line row -> (i <= length row)%nat ->
  find_from [newline] (above ++ row ++ newline :: rest) (length above + i) = Some (length above + length row)%nat.
Proof.
  intros Hr Hi. unfold find_from. rewrite drop_app_add, drop_app_le by done.
  rewrite find_char.
  - cbn. f_equal. rewrite length_drop. lia.
  - intros H. apply Hr. rewrite <- (take_drop i row). apply elem_of_app. by right.
Qed.

Lemma row_found needle rows :
  needle <> [] -> one_line needle -> Forall one_line rows -> Z.of_nat (length (unlines rows)) < 18446744073709551616 ->
  row_for_match (unlines rows) needle = default [] (snd <$> list_find (fun r => found needle r = true) rows).
Proof.
  intros Hne Hn Hl Hs. unfold row_for_match. pose proof (find_unlines needle rows Hne Hn) as Hf.
  destruct (find needle (unlines rows)) as [pos|].
  - destruct Hf as (above & row & below & i & -> & Ha & Hi & ->).
    apply Forall_app in Hl as [_ Hl]. inversion Hl as [|? ? Hr _]; subst.
    assert (i < length row)%nat as Hlt.
    { pose proof (find_length _ _ _ Hi). destruct needle; [done|cbn in *; lia]. }
    assert (list_find (fun r => found needle r = true) (above ++ row :: below) = Some (length above, row)) as ->.
    { apply list_find_Some. rewrite lookup_app_r, Nat.sub_diag by lia. split_and!; [done|unfold found; by rewrite Hi|].
      intros j y Hj Hlt'. rewrite lookup_app_l in Hj by done. eapply Forall_lookup_1 in Ha; [|done].
      unfold found. by rewrite Ha. }
    cbn [fmap option_fmap option_map default snd from_option id].
    rewrite unlines_app, unlines_cons in *. rewrite row_start by done.
    rewrite find_from_row by (done || lia). cbn [default from_option id].
    apply substr_all. rewrite !length_app in Hs. cbn [length] in Hs.
    rewrite u64_id by (unfold is_u64; cbn [id]; lia). cbn [id]. lia.
  - assert (list_find (fun r => found needle r = true) rows = None) as ->; [|done].
    apply list_find_None. eapply Forall_impl; [exact Hf|]. intros r E. unfold found. by rewrite E.
Qed.

(** ** Printing *)

(** [text] is the row without the blanks at its ends. *)
Definition trimmed (row text : list Z) : Prop :=
  exists n m, row = replicate n 32 ++ text ++ replicate m 32 /\ text <> [] /\ head text <> Some 32 /\ last text <> Some 32.

Lemma first_not_of_spec c l :
  match first_not_of c l with
  | Some i => exists x r, l = replicate i c ++ x :: r /\ x <> c
  | None => Forall (eq c) l
  end.
Proof.
  induction l as [|x l IH]; cbn; [constructor|]. destruct (Z.eqb_spec x c) as [->|Hx].
  - destruct (first_not_of c l); cbn; [|by constructor]. destruct IH as (y & r & -> & ?). by exists y, r.
  - by exists x, l.
Qed.

Lemma last_not_of_spec c l :
  match last_not_of c l with
  | Some i => exists r x, l = r ++ x :: replicate (length l - S i) c /\ length r = i /\ x <> c
  | None => Forall (eq c) l
  end.
Proof.
  induction l as [|x l IH]; cbn; [constructor|]. destruct (last_not_of c l) as [i|].
  - destruct IH as (r & y & E & <- & Hy). exists (x :: r), y. cbn. split_and!; [by rewrite <- E|done|done].
  - destruct (Z.eqb_spec x c) as [->|Hx]; [by constructor|]. exists [], x. split_and!; [|done|done].
    cbn. f_equal. rewrite Nat.sub_0_r. symmetry. apply replicate_as_elem_of. split; [done|].
    intros y Hy. rewrite Forall_forall in IH. symmetry. by apply IH.
Qed.

Lemma trim_spec row : match trim row with Some text => trimmed row text | None => Forall (eq 32) row end.
Proof.
  unfold trim. pose proof (first_not_of_spec 32 row) as Hf. destruct (first_not_of 32 row) as [i|]; [|done].
  destruct Hf as (x & r & E & Hx). pose proof (last_not_of_spec 32 row) as Hl.
  destruct (last_not_of 32 row) as [j|]; cbn [default from_option id].
  2: { rewrite E, Forall_app, Forall_cons in Hl. destruct Hl as (_ & Hl & _). congruence. }
  destruct Hl as (q & y & E' & Hj & Hy).
  set (k := (length row - S j)%nat) in *. assert (i <= j)%nat as Hij.
  { destruct (decide (i <= j)%nat); [done|]. exfalso. apply Hy.
    assert (row !! j = Some y) as Hy' by (rewrite E', lookup_app_r by lia; by rewrite Hj, Nat.sub_diag).
    rewrite E, lookup_app_l in Hy' by (rewrite length_replicate; lia).
    by apply lookup_replicate in Hy' as [-> _]. }
  assert (row = (q ++ [y]) ++ replicate k 32) as E1 by (rewrite <- app_assoc; exact E').
  assert (length (q ++ [y]) = S j) as Hq by (rewrite length_app; cbn; lia).
  assert (row = replicate i 32 ++ drop i (q ++ [y]) ++ replicate k 32) as Er.
  { rewrite E1 at 1. rewrite app_assoc. f_equal. rewrite <- (take_drop i (q ++ [y])) at 1. f_equal.
    rewrite <- (take_app_le _ (replicate k 32)) by lia. rewrite <- E1, E.
    by rewrite take_app_length' by (by rewrite length_replicate). }
  assert (length (drop i (q ++ [y])) = j + 1 - i)%nat as Hd by (rewrite length_drop; lia).
  pose proof (substr_all (replicate i 32) (drop i (q ++ [y])) (replicate k 32) (Z.of_nat j - Z.of_nat i + 1)
    ltac:(lia)) as Hs. rewrite length_replicate, <- Er in Hs. rewrite Hs.
  exists i, k. split_and!; [done|by intros H; rewrite H in Hd; cbn in Hd; lia| |].
  - intros Hh. apply Hx. assert (row !! i = Some x) as Hxi by (rewrite E, lookup_app_r, length_replicate, Nat.sub_diag by (rewrite length_replicate; lia); done).
    rewrite Er, lookup_app_r, length_replicate, Nat.sub_diag in Hxi by (rewrite length_replicate; lia).
    destruct (drop i (q ++ [y])) as [|z l] eqn:Ed; [cbn in Hd; lia|]. cbn in *. congruence.
  - rewrite drop_app_le, last_snoc by lia. congruence.
Qed.

(** The rows of a list of lines that are printed. *)
Definition printed (rows : list (list Z)) (row : Z) : list (Z * list Z) :=
  concat (imap (fun i r => match trim r with Some text => [(row + Z.of_nat i, text)] | None => [] end) rows).

Lemma printed_cons r rows row :
  printed (r :: rows) row = match trim r with Some text => [(row, text)] | None => [] end ++ printed rows (row + 1).
Proof.
  unfold printed. cbn [imap concat]. f_equal; [by rewrite Z.add_0_r|]. apply (f_equal (@concat _)), imap_ext. intros i x _. cbn.
  by replace (row + Z.of_nat (S i)) with (row + 1 + Z.of_nat i) by lia.
Qed.

Lemma dump_rows_lines rows : forall fuel above row,
  Forall one_line rows -> (length rows < fuel)%nat ->
  dump_rows fuel (above ++ unlines rows) (length above) row = printed rows row.
Proof.
  induction rows as [|r rows IH]; intros fuel above row Hl Hf; (destruct fuel as [|fuel]; [lia|]).
  - cbn [dump_rows]. rewrite (proj2 (Nat.ltb_ge _ _)); [done|]. cbn. rewrite app_nil_r. lia.
  - inversion Hl as [|? ? Hr Hl']; subst. cbn [dump_rows]. rewrite unlines_cons, printed_cons.
    rewrite (proj2 (Nat.ltb_lt _ _)) by (rewrite !length_app; cbn; lia).
    pose proof (find_from_row above r (unlines rows) 0 Hr ltac:(lia)) as Ef. rewrite Nat.add_0_r in Ef. rewrite Ef.
    cbn [default from_option id].
    rewrite substr_all by lia. f_equal.
    rewrite (proj2 (Nat.eqb_neq _ _)) by (rewrite !length_app; cbn; lia).
    replace (S (length above + length r)) with (length (above ++ r ++ [newline])) by (rewrite !length_app; cbn; lia).
    replace (above ++ r ++ newline :: unlines rows) with ((above ++ r ++ [newline]) ++ unlines rows)
      by (by rewrite <- !app_assoc).
    apply IH; [done|cbn in Hf; lia].
Qed.

(** The text screen is a grid: 25 rows of up to 80 printable characters,
    each the character of plane 0 at the start address plus its row times the
    row offset plus twice its column, modulo 64 KB; a text is found in the
    first row that has it, which is the row returned; and the rows printed are
    those that are not blank, with their numbers, less the blanks around
    them. *)
Lemma screen_seen t needle :
  needle <> [] -> one_line needle ->
  current_text_screen t = unlines (grid t) /\
  row_for_match (current_text_screen t) needle = default [] (snd <$> list_find (fun r => found needle r = true) (grid t)) /\
  dump_nonempty_rows (current_text_screen t) = printed (grid t) 0 /\
  Forall (fun r => match trim r with Some text => trimmed r text | None => Forall (eq 32) r end) (grid t).
Proof.
  intros Hne Hn. pose proof (grid_lines t) as Hg.
  assert (Forall one_line (grid t)) as Hl by (eapply Forall_impl; [exact Hg|]; by intros r (? & _)).
  assert (length (grid t) <= length (unlines (grid t)))%nat as Hlen.
  { clear. induction (grid t) as [|r l IH]; [done|]. rewrite unlines_cons, length_app. cbn. lia. }
  assert (Z.of_nat (length (unlines (grid t))) <= 25 * 81) as Hs.
  { assert (forall rows, Forall (fun r => one_line r /\ r <> [] /\ Z.of_nat (length r) <= 80) rows ->
      Z.of_nat (length (unlines rows)) <= Z.of_nat (length rows) * 81) as H.
    { clear. induction 1 as [|r rows (_ & _ & H) _ IH]; [done|]. rewrite unlines_cons, length_app. cbn. lia. }
    specialize (H _ Hg). unfold grid at 2 in H. rewrite length_map, length_seqZ in H. done. }
  rewrite screen_grid. split_and!; [done| | |].
  - apply row_found; [done..|lia].
  - apply (dump_rows_lines (grid t) _ [] 0); [done|lia].
  - apply Forall_true. intros r. apply trim_spec.
Qed.

(** ** A screen *)

Definition demo_text : TextMode :=
  mkTextMode 0x20 0 0 7 (replicate 33 0 ++ concat (map (fun c => [c; 7]) (str "  C:\>ver")) ++ replicate (Z.to_nat 65000) 0).

Lemma screen_seen_witness :
  str "C:" <> [] /\ one_line (str "C:") /\
  row_for_match (current_text_screen demo_text) (str "C:") =
    default [] (snd <$> list_find (fun r => found (str "C:") r = true) (grid demo_text)).
Proof.
  assert (str "C:" <> []) as H1 by done.
  assert (one_line (str "C:")) as H2 by (unfold one_line; by apply (bool_decide_unpack _)).
  split_and!; [done..|]. apply (screen_seen demo_text (str "C:")); done.
Defined.
