(* ===== verification/Input.v ===== *)
(** * Keyboard and mouse

    The PS/2 part of verilator/main.cpp: the byte queues and scheduled events,
    the mouse packet encoder, the keyboard's command processor
    ([handle_kbd_host_cmd]), and the lambdas of [main] that pace the bytes
    towards the core and take its commands. *)
From Stdlib Require Import Sorting.
From stdpp Require Import sorting.
From S2P Require Import Prelude.

Record ScheduledPs2Bytes := mkEvent { ev_cycle : Z; ev_bytes : list Z }.

#[global] Instance event_eq_dec : EqDecision ScheduledPs2Bytes.
Proof. solve_decision. Defined.

(** The PS/2 globals of the harness. *)
Record Ps2 := mkPs2 {
  ps2_events : list ScheduledPs2Bytes;
  next_ps2_event : nat;
  mouse_events : list ScheduledPs2Bytes;
  next_mouse_event : nat;
  kbd_scancode_queue : list Z;
  mouse_byte_queue : list Z;
  last_kbd_byte_time : Z;       (* uint64_t *)
  last_mouse_byte_time : Z;     (* uint64_t *)
  ps2_kbd_scan_set : Z;         (* uint8_t *)
  ps2_mouse_buttons : Z;        (* uint8_t *)
  pending_kbd_cmd : Z;          (* uint8_t *)
  pending_kbd_arg : bool;
  kbd_host_busy : bool;
  kbd_host_clear_pending : bool
}.

#[export] Instance eta_Ps2 : Eta Ps2 :=
  fun r => mkPs2 (ps2_events r) (next_ps2_event r) (mouse_events r) (next_mouse_event r)
    (kbd_scancode_queue r) (mouse_byte_queue r) (last_kbd_byte_time r) (last_mouse_byte_time r)
    (ps2_kbd_scan_set r) (ps2_mouse_buttons r) (pending_kbd_cmd r) (pending_kbd_arg r)
    (kbd_host_busy r) (kbd_host_clear_pending r).

Definition ps2_init : Ps2 := mkPs2 [] 0 [] 0 [] [] 0 0 2 0 0 false false false.

(** The model's PS/2 ports that the harness drives. *)
Record Ps2Ports := mkPorts {
  sim_kbd_data : Z;
  sim_kbd_data_valid : bool;
  sim_kbd_host_data_clear : bool;
  sim_mouse_data : Z;
  sim_mouse_data_valid : bool
}.

#[export] Instance eta_Ps2Ports : Eta Ps2Ports :=
  fun r => mkPorts (sim_kbd_data r) (sim_kbd_data_valid r) (sim_kbd_host_data_clear r)
    (sim_mouse_data r) (sim_mouse_data_valid r).

(** ** Queues *)

Definition queue_ps2_bytes (s : Ps2) (bytes : list Z) : Ps2 :=
  s <| kbd_scancode_queue := kbd_scancode_queue s ++ bytes |>.

Definition clamp (v lo hi : Z) : Z := if v <? lo then lo else if hi <? v then hi else v.

(** The loop of [encode_mouse_packets]; [None] when [fuel] runs out. *)
Fixpoint encode_loop (fuel : nat) (first : bool) (dx dy buttons : Z) : option (list Z) :=
  if first || negb (dx =? 0) || negb (dy =? 0) then
    match fuel with
    | O => None
    | S fuel =>
      let step_x := clamp dx (-127) 127 in
      let step_y := clamp dy (-127) 127 in
      let flags := Z.lor 0x08 (Z.land buttons 0x07) in
      let flags := if step_x <? 0 then Z.lor flags 0x10 else flags in
      let flags := if step_y <? 0 then Z.lor flags 0x20 else flags in
      bytes ← encode_loop fuel false (dx - step_x) (dy - step_y) buttons;
      Some (flags :: u8 step_x :: u8 step_y :: bytes)
    end
  else Some [].

(** The displacement bounds the number of packets. *)
Definition encode_mouse_packets (dx dy buttons : Z) : option (list Z) :=
  encode_loop (S (Z.to_nat (Z.max (Z.abs dx) (Z.abs dy)))) true dx dy buttons.

Definition queue_mouse_packet (s : Ps2) (dx dy buttons : Z) : option Ps2 :=
  bytes ← encode_mouse_packets dx dy buttons;
  Some (s <| mouse_byte_queue := mouse_byte_queue s ++ bytes |>).

(** [update_mouse_button]: SDL buttons 1 left, 2 middle, 3 right. *)
Definition update_mouse_button (buttons sdl_button : Z) (pressed : bool) : Z :=
  let mask := if sdl_button =? 1 then 0x01 else if sdl_button =? 3 then 0x02
              else if sdl_button =? 2 then 0x04 else 0 in
  if mask =? 0 then buttons
  else if pressed then Z.lor buttons mask
  else Z.land buttons (u8 (Z.lnot mask)).

(** ** [handle_kbd_host_cmd] *)

Definition reply (code : Z) (s : Ps2) : Ps2 :=
  s <| kbd_scancode_queue := kbd_scancode_queue s ++ [code] |>.

Definition handle_kbd_host_cmd (s : Ps2) (cmd : Z) : Ps2 :=
  if negb (pending_kbd_arg s) then
    let s := s <| pending_kbd_cmd := cmd |> in
    if cmd =? 0xFF then
      reply 0xAA (reply 0xFA (s <| ps2_kbd_scan_set := 2 |>)) <| pending_kbd_cmd := 0 |>
    else if cmd =? 0xF2 then
      reply 0x83 (reply 0xAB (reply 0xFA s)) <| pending_kbd_cmd := 0 |>
    else if (cmd =? 0xF0) || (cmd =? 0xF3) || (cmd =? 0xED) then
      reply 0xFA s <| pending_kbd_arg := true |>
    else if cmd =? 0xF6 then
      reply 0xFA (s <| ps2_kbd_scan_set := 2 |>) <| pending_kbd_cmd := 0 |>
    else if (cmd =? 0xF4) || (cmd =? 0xF5) || (cmd =? 0xFA) then
      reply 0xFA s <| pending_kbd_cmd := 0 |>
    else if cmd =? 0xEE then reply 0xEE s <| pending_kbd_cmd := 0 |>
    else reply 0xFE s <| pending_kbd_cmd := 0 |>
  else
    let s :=
      if pending_kbd_cmd s =? 0xED then reply 0xFA s
      else if pending_kbd_cmd s =? 0xF0 then
        if cmd <=? 3 then
          let s := reply 0xFA s in
          if cmd =? 0 then reply (ps2_kbd_scan_set s) s else s <| ps2_kbd_scan_set := cmd |>
        else reply 0xFE s
      else if pending_kbd_cmd s =? 0xF3 then reply 0xFA s
      else s in
    s <| pending_kbd_cmd := 0 |> <| pending_kbd_arg := false |>.

(** ** The lambdas of [main] *)

(** The events that are due, queued in order: the [while] loop over
    [ps2_events\[next_ps2_event\]]. *)
Fixpoint due_events (cycle : Z) (events : list ScheduledPs2Bytes) : nat * list Z :=
  match events with
  | e :: events =>
    if ev_cycle e <=? cycle then
      let '(n, bytes) := due_events cycle events in (S n, ev_bytes e ++ bytes)
    else (0%nat, [])
  | [] => (0%nat, [])
  end.

Definition keyboard_send_pre (cycle : Z) (s : Ps2) (p : Ps2Ports) : Ps2 * Ps2Ports :=
  let p := p <| sim_kbd_host_data_clear := kbd_host_clear_pending s |> in
  let '(n, bytes) := due_events cycle (drop (next_ps2_event s) (ps2_events s)) in
  let s := queue_ps2_bytes s bytes <| next_ps2_event := (next_ps2_event s + n)%nat |> in
  match kbd_scancode_queue s with
  | byte :: rest =>
    if negb (kbd_host_busy s) && (100000 <? u64 (cycle - last_kbd_byte_time s)) then
      (s <| kbd_scancode_queue := rest |> <| last_kbd_byte_time := cycle |>,
       p <| sim_kbd_data := byte |> <| sim_kbd_data_valid := true |>)
    else (s, p <| sim_kbd_data_valid := false |>)
  | [] => (s, p <| sim_kbd_data_valid := false |>)
  end.

(** [keyboard_observe_post]; [host] is the port [sim_kbd_host_data]. *)
Definition keyboard_observe_post (posedge : bool) (host : Z) (s : Ps2) (p : Ps2Ports) : Ps2 * Ps2Ports :=
  if negb posedge then (s, p)
  else
    let valid := negb (Z.land host 0x100 =? 0) in
    let s :=
      if valid && negb (kbd_host_busy s) then
        handle_kbd_host_cmd s (u8 (Z.land host 0xFF))
          <| kbd_host_busy := true |> <| kbd_host_clear_pending := true |>
      else if negb valid && kbd_host_busy s then
        s <| kbd_host_busy := false |> <| kbd_host_clear_pending := false |>
      else s in
    (s, p <| sim_kbd_data_valid := false |>).

Definition mouse_send_pre (cycle : Z) (s : Ps2) (p : Ps2Ports) : Ps2 * Ps2Ports :=
  let '(n, bytes) := due_events cycle (drop (next_mouse_event s) (mouse_events s)) in
  let s := s <| mouse_byte_queue := mouse_byte_queue s ++ bytes |>
             <| next_mouse_event := (next_mouse_event s + n)%nat |> in
  match mouse_byte_queue s with
  | byte :: rest =>
    if 20000 <? u64 (cycle - last_mouse_byte_time s) then
      (s <| mouse_byte_queue := rest |> <| last_mouse_byte_time := cycle |>,
       p <| sim_mouse_data := byte |> <| sim_mouse_data_valid := true |>)
    else (s, p <| sim_mouse_data_valid := false |>)
  | [] => (s, p <| sim_mouse_data_valid := false |>)
  end.

(** [requeue_input_events] after a restore: the checkpoint's events that are
    left and the command line's that are still to come.  [sort] is
    [std::sort] by cycle. *)
Definition requeue_input_events (sort : list ScheduledPs2Bytes -> list ScheduledPs2Bytes)
    (current_cycle : Z) (cmdline_ps2 cmdline_mouse : list ScheduledPs2Bytes) (s : Ps2) : Ps2 :=
  let later := filter (fun e => current_cycle < ev_cycle e) in
  s <| ps2_events := sort (drop (next_ps2_event s) (ps2_events s) ++ later cmdline_ps2) |>
    <| next_ps2_event := 0%nat |>
    <| mouse_events := sort (drop (next_mouse_event s) (mouse_events s) ++ later cmdline_mouse) |>
    <| next_mouse_event := 0%nat |>.

(** ** Mouse packets *)

(** A receiver's view of a three-byte packet: 9-bit signed displacements. *)
Fixpoint decode_packets (bytes : list Z) : option (list (Z * Z * Z)) :=
  match bytes with
  | [] => Some []
  | flags :: x :: y :: bytes =>
    if Z.testbit flags 3 then
      rest ← decode_packets bytes;
      Some ((Z.land flags 7, (if Z.testbit flags 4 then x - 256 else x),
             (if Z.testbit flags 5 then y - 256 else y)) :: rest)
    else None
  | _ => None
  end.

Definition total_x (ps : list (Z * Z * Z)) : Z := foldr (fun p a => p.1.2 + a) 0 ps.
Definition total_y (ps : list (Z * Z * Z)) : Z := foldr (fun p a => p.2 + a) 0 ps.

Definition packet_flags (buttons x y : Z) : Z :=
  let flags := Z.lor 0x08 (Z.land buttons 0x07) in
  let flags := if x <? 0 then Z.lor flags 0x10 else flags in
  if y <? 0 then Z.lor flags 0x20 else flags.

Lemma packet_flags_bits buttons x y :
  0 <= buttons < 8 ->
  let f := packet_flags buttons x y in
  Z.testbit f 3 = true /\ Z.land f 7 = buttons /\ Z.testbit f 4 = (x <? 0) /\ Z.testbit f 5 = (y <? 0).
Proof.
  intros Hb. cbv zeta. unfold packet_flags; cbv zeta.
  assert (H : buttons = 0 \/ buttons = 1 \/ buttons = 2 \/ buttons = 3 \/ buttons = 4 \/ buttons = 5 \/
              buttons = 6 \/ buttons = 7) by lia.
  destruct (x <? 0), (y <? 0);
    destruct H as [->|[->|[->|[->|[->|[->|[->| ->]]]]]]]; done.
Qed.

Lemma clamp_range v : -127 <= clamp v (-127) 127 <= 127.
Proof. unfold clamp. repeat case_bool; lia. Qed.

Lemma signed_byte v : -127 <= v <= 127 -> (if v <? 0 then u8 v - 256 else u8 v) = v.
Proof. intros Hv. unfold u8. case_bool; divlia. Qed.

Lemma encode_loop_decodes fuel : forall first dx dy buttons,
  0 <= buttons < 8 -> (first = true -> (0 < fuel)%nat) ->
  (dx = 0 /\ dy = 0 \/ Z.max (Z.abs dx) (Z.abs dy) <= Z.of_nat fuel) ->
  exists bytes ps, encode_loop fuel first dx dy buttons = Some bytes /\
    decode_packets bytes = Some ps /\ total_x ps = dx /\ total_y ps = dy /\
    Forall (fun p => p.1.1 = buttons /\ -127 <= p.1.2 <= 127 /\ -127 <= p.2 <= 127) ps /\
    Forall is_u8 bytes /\ (first = true -> ps <> []) /\
    Z.of_nat (length ps) <= b2z first + (Z.max (Z.abs dx) (Z.abs dy) + 126) / 127.
Proof.
  induction fuel as [|fuel IH]; intros first dx dy buttons Hb Hfirst Hfuel.
  - assert (first = false) as -> by (destruct first; [specialize (Hfirst eq_refl); lia|done]).
    assert (dx = 0) as -> by lia. assert (dy = 0) as -> by lia. exists [], []. cbn.
    split_and!; try done; constructor.
  - cbn [encode_loop]. destruct (first || negb (dx =? 0) || negb (dy =? 0)) eqn:E.
    2: { apply orb_false_iff in E as [E E2]. apply orb_false_iff in E as [-> E1].
         assert (dx = 0) as -> by lia. assert (dy = 0) as -> by lia.
         exists [], []. cbn. split_and!; try done; constructor. }
    pose proof (clamp_range dx) as Hx. pose proof (clamp_range dy) as Hy.
    destruct (IH false (dx - clamp dx (-127) 127) (dy - clamp dy (-127) 127) buttons Hb)
      as (bytes & ps & -> & Hd & Htx & Hty & Hps & Hbs & _ & Hlen); [done| |].
    { unfold clamp in *. repeat case_bool; lia. }
    destruct (packet_flags_bits buttons (clamp dx (-127) 127) (clamp dy (-127) 127) Hb)
      as (B3 & B7 & B4 & B5).
    cbn [mbind option_bind].
    change (if clamp dy (-127) 127 <? 0 then Z.lor _ 0x20 else _)
      with (packet_flags buttons (clamp dx (-127) 127) (clamp dy (-127) 127)).
    eexists _, _. split; [done|]. cbn [decode_packets]. rewrite B3, Hd, B7, B4, B5.
    cbn [mbind option_bind]. rewrite !signed_byte by done. split; [done|].
    unfold total_x, total_y in *. cbn [foldr fst snd].
    split_and!; [lia|lia|by constructor| |done|].
    + apply bytes_cons; [unfold packet_flags; cbv zeta; repeat case_bool; width|].
      apply bytes_cons; [apply u8_range|]. by apply bytes_cons; [apply u8_range|].
    + cbn [length]. destruct first; cbn [b2z] in *; unfold clamp in *; repeat case_bool; divlia.
Qed.

(** ** The keyboard's command processor *)

(** What the commands leave true: a scan set 1 to 3, and a command waits for
    its argument only if it takes one. *)
Record kbd_ok (s : Ps2) : Prop := mkKbdOk {
  kbd_scan : 1 <= ps2_kbd_scan_set s <= 3;
  kbd_pending : if pending_kbd_arg s then In (pending_kbd_cmd s) [0xED; 0xF0; 0xF3] else pending_kbd_cmd s = 0;
  kbd_busy : kbd_host_clear_pending s = kbd_host_busy s
}.

(** The specification: the replies to a byte and the keyboard's new mode, as a
    transition of (scan set, pending command). *)
Inductive kbd_reply : Z * option Z -> Z -> list Z -> Z * option Z -> Prop :=
| KReset ss : kbd_reply (ss, None) 0xFF [0xFA; 0xAA] (2, None)
| KIdentify ss : kbd_reply (ss, None) 0xF2 [0xFA; 0xAB; 0x83] (ss, None)
| KTakesArg ss c : In c [0xED; 0xF0; 0xF3] -> kbd_reply (ss, None) c [0xFA] (ss, Some c)
| KDefaults ss : kbd_reply (ss, None) 0xF6 [0xFA] (2, None)
| KAck ss c : In c [0xF4; 0xF5; 0xFA] -> kbd_reply (ss, None) c [0xFA] (ss, None)
| KEcho ss : kbd_reply (ss, None) 0xEE [0xEE] (ss, None)
| KResend ss c : ~ In c [0xFF; 0xF2; 0xED; 0xF0; 0xF3; 0xF6; 0xF4; 0xF5; 0xFA; 0xEE] ->
    kbd_reply (ss, None) c [0xFE] (ss, None)
| KArg ss p c : In p [0xED; 0xF3] -> kbd_reply (ss, Some p) c [0xFA] (ss, None)
| KGetSet ss : kbd_reply (ss, Some 0xF0) 0 [0xFA; ss] (ss, None)
| KSetSet ss c : 1 <= c <= 3 -> kbd_reply (ss, Some 0xF0) c [0xFA] (c, None)
| KBadSet ss c : 3 < c -> kbd_reply (ss, Some 0xF0) c [0xFE] (ss, None).

Definition kbd_mode (s : Ps2) : Z * option Z :=
  (ps2_kbd_scan_set s, if pending_kbd_arg s then Some (pending_kbd_cmd s) else None).

(** A command touches only the reply queue and the mode. *)
Definition kbd_frame (s s' : Ps2) : Prop :=
  ps2_events s' = ps2_events s /\ next_ps2_event s' = next_ps2_event s /\
  mouse_events s' = mouse_events s /\ next_mouse_event s' = next_mouse_event s /\
  mouse_byte_queue s' = mouse_byte_queue s /\ last_kbd_byte_time s' = last_kbd_byte_time s /\
  last_mouse_byte_time s' = last_mouse_byte_time s /\ ps2_mouse_buttons s' = ps2_mouse_buttons s /\
  kbd_host_busy s' = kbd_host_busy s /\ kbd_host_clear_pending s' = kbd_host_clear_pending s.

Lemma handle_kbd_frame s cmd : kbd_frame s (handle_kbd_host_cmd s cmd).
Proof. unfold handle_kbd_host_cmd; cbv zeta. repeat case_bool; by repeat split. Qed.

(** One branch of the command table, the pending flag known from [Ha]. *)
Ltac kbd_case K :=
  eexists; split; [unfold kbd_mode; cbn;
      repeat match goal with H : pending_kbd_arg _ = _ |- _ => rewrite H end; by apply K|];
    split; [cbn; by rewrite <- ?app_assoc|];
    constructor; cbn; repeat match goal with H : pending_kbd_arg _ = _ |- _ => rewrite H end;
    try done; try lia.

Lemma kbd_command_spec s cmd :
  kbd_ok s -> is_u8 cmd ->
  exists rs, kbd_reply (kbd_mode s) cmd rs (kbd_mode (handle_kbd_host_cmd s cmd)) /\
    kbd_scancode_queue (handle_kbd_host_cmd s cmd) = kbd_scancode_queue s ++ rs /\
    kbd_ok (handle_kbd_host_cmd s cmd).
Proof.
  intros [Hscan Hpend Hbusy] Hc. unfold is_u8 in Hc. unfold kbd_mode at 1.
  destruct (pending_kbd_arg s) eqn:Ha.
  - unfold handle_kbd_host_cmd; cbv zeta. rewrite Ha. cbn [negb].
    destruct Hpend as [<-|[<-|[<-|[]]]]; cbn [Z.eqb Pos.eqb].
    + eexists. split; [apply KArg; left; done|]. split; [done|]. by constructor.
    + destruct (Z.leb_spec cmd 3).
      * destruct (Z.eqb_spec cmd 0) as [->|].
        -- eexists. split; [apply KGetSet|]. split; [cbn; by rewrite <- app_assoc|]. by constructor.
        -- eexists. split; [apply KSetSet; lia|]. split; [done|]. constructor; cbn; done || lia.
      * eexists. split; [apply KBadSet; lia|]. split; [done|]. by constructor.
    + eexists. split; [apply KArg; right; left; done|]. split; [done|]. by constructor.
  - unfold handle_kbd_host_cmd; cbv zeta. rewrite Ha. cbn [negb].
    destruct (Z.eqb_spec cmd 0xFF) as [->|]; [by kbd_case KReset|].
    destruct (Z.eqb_spec cmd 0xF2) as [->|]; [by kbd_case KIdentify|].
    destruct ((cmd =? 0xF0) || (cmd =? 0xF3) || (cmd =? 0xED)) eqn:E1.
    { assert (Hin : In cmd [0xED; 0xF0; 0xF3]) by (cbn; lia). by kbd_case KTakesArg. }
    destruct (Z.eqb_spec cmd 0xF6) as [->|]; [by kbd_case KDefaults|].
    destruct ((cmd =? 0xF4) || (cmd =? 0xF5) || (cmd =? 0xFA)) eqn:E2.
    { assert (Hin : In cmd [0xF4; 0xF5; 0xFA]) by (cbn; lia). by kbd_case KAck. }
    destruct (Z.eqb_spec cmd 0xEE) as [->|]; [by kbd_case KEcho|].
    assert (Hin : ~ In cmd [0xFF; 0xF2; 0xED; 0xF0; 0xF3; 0xF6; 0xF4; 0xF5; 0xFA; 0xEE]) by (cbn; lia).
    by kbd_case KResend.
Qed.

(** ** Taking commands: every rising edge of the valid bit, once *)

Definition host_valid (host : Z) : bool := negb (Z.land host 0x100 =? 0).

(** The command bytes at the rising edges of the valid bit. *)
Fixpoint host_commands (before : bool) (hosts : list Z) : list Z :=
  match hosts with
  | [] => []
  | h :: hosts =>
    (if host_valid h && negb before then [u8 (Z.land h 0xFF)] else []) ++ host_commands (host_valid h) hosts
  end.

Fixpoint observe_run (hosts : list Z) (s : Ps2) (p : Ps2Ports) : Ps2 * Ps2Ports :=
  match hosts with
  | [] => (s, p)
  | h :: hosts => let '(s, p) := keyboard_observe_post true h s p in observe_run hosts s p
  end.

Inductive kbd_replies : Z * option Z -> list Z -> list Z -> Z * option Z -> Prop :=
| KNil m : kbd_replies m [] [] m
| KCons m c rs m1 cs rs' m' :
    kbd_reply m c rs m1 -> kbd_replies m1 cs rs' m' -> kbd_replies m (c :: cs) (rs ++ rs') m'.

Lemma u8_low h : is_u8 (u8 (Z.land h 0xFF)).
Proof. apply u8_range. Qed.

Lemma observe_step h s p :
  kbd_ok s ->
  let '(s1, p1) := keyboard_observe_post true h s p in
  kbd_ok s1 /\ kbd_host_busy s1 = host_valid h /\
  exists cs rs, cs = (if host_valid h && negb (kbd_host_busy s) then [u8 (Z.land h 0xFF)] else []) /\
    kbd_replies (kbd_mode s) cs rs (kbd_mode s1) /\
    kbd_scancode_queue s1 = kbd_scancode_queue s ++ rs.
Proof.
  intros Hok. unfold keyboard_observe_post. cbn [negb]. fold (host_valid h).
  destruct (host_valid h) eqn:Ev; cbn [andb negb]; destruct (kbd_host_busy s) eqn:Eb; cbn [andb negb].
  - split_and!; try done. exists [], []. split_and!; [done|constructor|by rewrite app_nil_r].
  - destruct (kbd_command_spec s (u8 (Z.land h 0xFF)) Hok (u8_low h)) as (rs & Hr & Hq & Hk).
    revert Hr Hq Hk. generalize (handle_kbd_host_cmd s (u8 (Z.land h 0xFF))). intros s1 Hr Hq [K1 K2 K3].
    split_and!; [by constructor|done|].
    exists [u8 (Z.land h 0xFF)], (rs ++ []). split_and!; [done| |cbn; by rewrite app_nil_r].
    econstructor; [exact Hr|constructor].
  - destruct Hok as [K1 K2 K3]. split_and!; [by constructor|done|].
    exists [], []. split_and!; [done|constructor|cbn; by rewrite app_nil_r].
  - split_and!; try done. exists [], []. split_and!; [done|constructor|by rewrite app_nil_r].
Qed.

Lemma kbd_replies_app m cs1 rs1 m1 cs2 rs2 m2 :
  kbd_replies m cs1 rs1 m1 -> kbd_replies m1 cs2 rs2 m2 ->
  kbd_replies m (cs1 ++ cs2) (rs1 ++ rs2) m2.
Proof.
  induction 1 as [|m c rs m1 cs rs' m' Hr _ IH]; [done|].
  intros H2. cbn [app]. rewrite <- app_assoc. econstructor; [exact Hr|by apply IH].
Qed.

(** ** Sending scan codes: in order, paced *)

Fixpoint kbd_run (k : nat) (cycle : Z) (s : Ps2) (p : Ps2Ports) : list (Z * Z) * Ps2 :=
  match k with
  | O => ([], s)
  | S k =>
    let '(s, p) := keyboard_send_pre cycle s p in
    let '(out, s') := kbd_run k (cycle + 1) s p in
    ((if sim_kbd_data_valid p then [(cycle, sim_kbd_data p)] else []) ++ out, s')
  end.

(** One byte every 100,001 cycles. *)
Fixpoint paced (last : Z) (q : list Z) : list (Z * Z) :=
  match q with
  | [] => []
  | b :: q => (last + 100001, b) :: paced (last + 100001) q
  end.

Lemma kbd_run_S k cycle s p :
  kbd_run (S k) cycle s p =
    let '(s, p) := keyboard_send_pre cycle s p in
    let '(out, s') := kbd_run k (cycle + 1) s p in
    ((if sim_kbd_data_valid p then [(cycle, sim_kbd_data p)] else []) ++ out, s').
Proof. done. Qed.

Lemma no_due_events s cycle :
  drop (next_ps2_event s) (ps2_events s) = [] ->
  forall p, keyboard_send_pre cycle s p =
    let p := p <| sim_kbd_host_data_clear := kbd_host_clear_pending s |> in
    match kbd_scancode_queue s with
    | byte :: rest =>
      if negb (kbd_host_busy s) && (100000 <? u64 (cycle - last_kbd_byte_time s)) then
        (s <| kbd_scancode_queue := rest |> <| last_kbd_byte_time := cycle |>,
         p <| sim_kbd_data := byte |> <| sim_kbd_data_valid := true |>)
      else (s, p <| sim_kbd_data_valid := false |>)
    | [] => (s, p <| sim_kbd_data_valid := false |>)
    end.
Proof.
  intros Hd p. unfold keyboard_send_pre. rewrite Hd. cbn [due_events].
  assert (E : queue_ps2_bytes s [] <| next_ps2_event := (next_ps2_event s + 0)%nat |> = s).
  { unfold queue_ps2_bytes. rewrite app_nil_r, Nat.add_0_r. by destruct s. }
  by rewrite E.
Qed.

Lemma kbd_run_waits k : forall cycle s p,
  drop (next_ps2_event s) (ps2_events s) = [] ->
  last_kbd_byte_time s <= cycle -> cycle + Z.of_nat k <= last_kbd_byte_time s + 100001 ->
  kbd_run k cycle s p = ([], s).
Proof.
  induction k as [|k IH]; intros cycle s p Hd Hle Hk; [done|].
  rewrite kbd_run_S, no_due_events by done. cbv zeta.
  destruct (kbd_scancode_queue s) as [|b q].
  - rewrite IH by (done || lia). done.
  - rewrite (proj2 (Z.ltb_ge _ _)) by (rewrite u64_id; unfold is_u64; lia).
    rewrite andb_false_r, IH by (done || lia). done.
Qed.

Lemma kbd_run_app k1 : forall k2 cycle s p,
  exists p', kbd_run (k1 + k2) cycle s p =
    let '(o1, s1) := kbd_run k1 cycle s p in
    let '(o2, s2) := kbd_run k2 (cycle + Z.of_nat k1) s1 p' in (o1 ++ o2, s2).
Proof.
  induction k1 as [|k1 IH]; intros k2 cycle s p.
  - exists p. cbn [kbd_run Nat.add]. rewrite Z.add_0_r. by destruct (kbd_run k2 cycle s p).
  - cbn [Nat.add]. rewrite !kbd_run_S. destruct (keyboard_send_pre cycle s p) as [s1 p1].
    destruct (IH k2 (cycle + 1) s1 p1) as [p' E]. exists p'. rewrite E.
    destruct (kbd_run k1 (cycle + 1) s1 p1) as [o1 s2].
    replace (cycle + Z.of_nat (S k1)) with (cycle + 1 + Z.of_nat k1) by lia.
    destruct (kbd_run k2 (cycle + 1 + Z.of_nat k1) s2 p') as [o2 s3]. by rewrite app_assoc.
Qed.

(** ** Events after a restore *)

Lemma due_events_sorted cycle l :
  StronglySorted (fun a b => ev_cycle a <= ev_cycle b) l ->
  (due_events cycle l).2 = concat (map ev_bytes (filter (fun e => ev_cycle e <= cycle) l)).
Proof.
  induction 1 as [|e l Hs IH Hall]; [done|]. cbn [due_events].
  destruct (Z.leb_spec (ev_cycle e) cycle).
  - rewrite filter_cons_True by done. destruct (due_events cycle l) as [n bs]. cbn in *. by rewrite IH.
  - rewrite filter_cons_False by lia.
    assert (E : filter (fun e => ev_cycle e <= cycle) l = []); [|by rewrite E].
    clear Hs IH. induction Hall as [|x l Hx _ IH]; [done|]. rewrite filter_cons_False by lia. exact IH.
Qed.

Lemma mouse_encoded dx dy buttons :
  0 <= buttons < 8 ->
  exists bytes ps, encode_mouse_packets dx dy buttons = Some bytes /\
    decode_packets bytes = Some ps /\ total_x ps = dx /\ total_y ps = dy /\
    Forall (fun p => p.1.1 = buttons /\ -127 <= p.1.2 <= 127 /\ -127 <= p.2 <= 127) ps /\
    Forall is_u8 bytes /\ ps <> [] /\
    Z.of_nat (length ps) <= 1 + (Z.max (Z.abs dx) (Z.abs dy) + 126) / 127.
Proof.
  intros Hb. unfold encode_mouse_packets.
  destruct (encode_loop_decodes (S (Z.to_nat (Z.max (Z.abs dx) (Z.abs dy)))) true dx dy buttons Hb)
    as (bytes & ps & He & Hd & Hx & Hy & Hp & Hu & Hn & Hl); [intros _; lia|right; lia|].
  exists bytes, ps. split_and!; try done. by apply Hn.
Qed.

Lemma mouse_queued s dx dy buttons :
  0 <= buttons < 8 ->
  exists bytes ps, queue_mouse_packet s dx dy buttons = Some (s <| mouse_byte_queue := mouse_byte_queue s ++ bytes |>) /\
    decode_packets bytes = Some ps /\ total_x ps = dx /\ total_y ps = dy /\
    Forall (fun p => p.1.1 = buttons) ps /\ ps <> [].
Proof.
  intros Hb. destruct (mouse_encoded dx dy buttons Hb) as (bytes & ps & Ee & Ed & Ex & Ey & Ep & _ & Hn & _).
  exists bytes, ps. unfold queue_mouse_packet. rewrite Ee. split_and!; try done.
  eapply Forall_impl; [apply Ep|]. by intros p [? _].
Qed.

(** C32: a mouse displacement becomes a finite sequence of three-byte packets
    that a receiver decodes to the same total displacement with the same
    buttons, at least one packet, and no more than the larger displacement in
    steps of 127 needs. *)
Theorem mouse_packets dx dy buttons :
  0 <= buttons < 8 ->
  exists bytes ps, encode_mouse_packets dx dy buttons = Some bytes /\
    decode_packets bytes = Some ps /\ total_x ps = dx /\ total_y ps = dy /\
    Forall (fun p => p.1.1 = buttons /\ -127 <= p.1.2 <= 127 /\ -127 <= p.2 <= 127) ps /\
    Forall is_u8 bytes /\ ps <> [] /\
    Z.of_nat (length ps) <= 1 + (Z.max (Z.abs dx) (Z.abs dy) + 126) / 127.
Proof. apply mouse_encoded. Qed.

Lemma mouse_packets_witness :
  exists bytes ps, encode_mouse_packets 300 (-5) 1 = Some bytes /\
    decode_packets bytes = Some ps /\ total_x ps = 300 /\ total_y ps = -5 /\
    Forall (fun p => p.1.1 = 1 /\ -127 <= p.1.2 <= 127 /\ -127 <= p.2 <= 127) ps /\
    Forall is_u8 bytes /\ ps <> [] /\
    Z.of_nat (length ps) <= 1 + (Z.max (Z.abs 300) (Z.abs (-5)) + 126) / 127.
Proof. apply (mouse_packets 300 (-5) 1). lia. Defined.

Lemma kbd_init_ok : kbd_ok ps2_init.
Proof. by constructor. Qed.

Lemma last_next {A} (a : A) l : forall d, List.last (a :: l) d = List.last l a.
Proof.
  revert a. induction l as [|b l IH]; intros a d; [done|].
  change (List.last (b :: l) d = List.last (b :: l) a). by rewrite !IH.
Qed.

(** Over any sequence of samples of the controller's command register the
    keyboard takes a command exactly at each rising edge of the valid bit,
    answers each as the command table specifies, in order and after the bytes
    already queued, and its busy flag follows the valid bit. *)
Lemma host_handshake hosts : forall s p,
  kbd_ok s ->
  let s' := (observe_run hosts s p).1 in
  exists rs, kbd_replies (kbd_mode s) (host_commands (kbd_host_busy s) hosts) rs (kbd_mode s') /\
    kbd_scancode_queue s' = kbd_scancode_queue s ++ rs /\ kbd_ok s' /\
    kbd_host_busy s' = List.last (map host_valid hosts) (kbd_host_busy s).
Proof.
  induction hosts as [|h hosts IH]; intros s p Hok; cbv zeta; cbn [observe_run host_commands].
  - exists []. split_and!; [constructor|by rewrite app_nil_r|done|done].
  - pose proof (observe_step h s p Hok) as Hstep.
    destruct (keyboard_observe_post true h s p) as [s1 p1].
    destruct Hstep as (Hok1 & Hb1 & cs & rs & -> & Hr & Hq).
    destruct (IH s1 p1 Hok1) as (rs' & Hr' & Hq' & Hok' & Hb').
    exists (rs ++ rs'). split_and!; [|by rewrite Hq', Hq, app_assoc|done|].
    + eapply kbd_replies_app; [exact Hr|]. by rewrite <- Hb1.
    + rewrite Hb', Hb1. cbn [map]. by rewrite last_next.
Qed.

Lemma host_handshake_witness :
  kbd_ok ps2_init /\
  let s' := (observe_run [0x1F0; 0x1F0; 0; 0x100] ps2_init (mkPorts 0 false false 0 false)).1 in
  exists rs, kbd_replies (2, None) [0xF0; 0] rs (kbd_mode s') /\
    kbd_scancode_queue s' = [] ++ rs /\ kbd_ok s' /\ kbd_host_busy s' = true.
Proof.
  split; [exact kbd_init_ok|].
  exact (host_handshake [0x1F0; 0x1F0; 0; 0x100] ps2_init (mkPorts 0 false false 0 false) kbd_init_ok).
Defined.

Lemma kbd_run_sends k cycle s p b q :
  drop (next_ps2_event s) (ps2_events s) = [] -> kbd_host_busy s = false ->
  kbd_scancode_queue s = b :: q ->
  last_kbd_byte_time s + 100001 = cycle ->
  exists p', kbd_run (S k) cycle s p =
    let s1 := s <| kbd_scancode_queue := q |> <| last_kbd_byte_time := cycle |> in
    let '(out, s') := kbd_run k (cycle + 1) s1 p' in ((cycle, b) :: out, s').
Proof.
  intros Hd Hb Hq Hc. rewrite kbd_run_S, no_due_events by done. cbv zeta. rewrite Hq, Hb.
  rewrite (proj2 (Z.ltb_lt _ _)) by (rewrite u64_id; unfold is_u64; lia).
  cbn [negb andb]. eexists. reflexivity.
Qed.

Lemma kbd_run_drains q : forall last s cycle p,
  kbd_scancode_queue s = q -> last_kbd_byte_time s = last ->
  drop (next_ps2_event s) (ps2_events s) = [] -> kbd_host_busy s = false ->
  last <= cycle <= last + 1 ->
  let n := Z.to_nat (last + 100001 * Z.of_nat (length q) + 1 - cycle) in
  (kbd_run n cycle s p).1 = paced last q /\ kbd_scancode_queue (kbd_run n cycle s p).2 = [].
Proof.
  induction q as [|b q IH]; intros last s cycle p Hq Hl Hd Hb Hc; cbv zeta.
  - rewrite kbd_run_waits by (done || cbn; lia). done.
  - set (w := Z.to_nat (last + 100001 - cycle)).
    set (n := Z.to_nat (100001 * Z.of_nat (length q))).
    assert (Hw : cycle + Z.of_nat w = last + 100001) by (subst w; lia).
    replace (Z.to_nat _) with (w + S n)%nat by (subst w n; cbn [length]; lia).
    destruct (kbd_run_app w (S n) cycle s p) as [p' ->].
    rewrite (kbd_run_waits w) by (done || lia). rewrite Hw.
    destruct (kbd_run_sends n (last + 100001) s p' b q Hd Hb Hq ltac:(lia)) as [p2 ->]. cbv zeta.
    specialize (IH (last + 100001)
      (s <| kbd_scancode_queue := q |> <| last_kbd_byte_time := last + 100001 |>)
      (last + 100001 + 1) p2 eq_refl eq_refl Hd Hb ltac:(lia)). cbv zeta in IH.
    replace (Z.to_nat (_ + _ - _)) with n in IH by (subst n; lia).
    destruct (kbd_run n _ _ p2) as [out s']. destruct IH as [IH1 IH2]. cbn [fst snd] in *.
    split; [|done]. cbn [paced app]. f_equal. exact IH1.
Qed.

(** The scan code queue drains: from the cycle after the last byte, with no
    event due and no command in progress, every queued byte is presented to the
    core once, in order, one every 100,001 cycles, and the queue is empty after
    the last. *)
Lemma kbd_drains s p :
  drop (next_ps2_event s) (ps2_events s) = [] -> kbd_host_busy s = false ->
  let n := Z.to_nat (100001 * Z.of_nat (length (kbd_scancode_queue s))) in
  let r := kbd_run n (last_kbd_byte_time s + 1) s p in
  r.1 = paced (last_kbd_byte_time s) (kbd_scancode_queue s) /\ kbd_scancode_queue r.2 = [].
Proof.
  intros Hd Hb. cbv zeta.
  pose proof (kbd_run_drains (kbd_scancode_queue s) _ s (last_kbd_byte_time s + 1) p eq_refl eq_refl Hd Hb ltac:(lia)) as H.
  cbv zeta in H. by replace (Z.to_nat (last_kbd_byte_time s + _ + 1 - _))
    with (Z.to_nat (100001 * Z.of_nat (length (kbd_scancode_queue s)))) in H by lia.
Qed.

Lemma kbd_drains_witness :
  let r := kbd_run (Z.to_nat (100001 * 3)) (0 + 1) (queue_ps2_bytes ps2_init [0x1C; 0xF0; 0x1C])
             (mkPorts 0 false false 0 false) in
  r.1 = [(100001, 0x1C); (200002, 0xF0); (300003, 0x1C)] /\ kbd_scancode_queue r.2 = [].
Proof. apply (kbd_drains (queue_ps2_bytes ps2_init [0x1C; 0xF0; 0x1C])); reflexivity. Defined.

(** What a restore leaves to send: [own] from index [i] on, and the later
    events of the command line. *)
Definition left_over (now : Z) (i : nat) (own cmdline : list ScheduledPs2Bytes) : list ScheduledPs2Bytes :=
  drop i own ++ filter (fun e => now < ev_cycle e) cmdline.

(** After a restore no input event is lost or repeated: the two new queues
    are the events the checkpoint had left and the command line's events of
    later cycles, and at any cycle the bytes queued are those of exactly the
    events that are due by then. *)
Lemma requeue_complete (sort : list ScheduledPs2Bytes -> list ScheduledPs2Bytes)
    (sort_perm : forall l, Permutation (sort l) l)
    (sort_sorted : forall l, StronglySorted (fun a b => ev_cycle a <= ev_cycle b) (sort l))
    now keys mouse s :
  let s' := requeue_input_events sort now keys mouse s in
  Permutation (drop (next_ps2_event s') (ps2_events s'))
    (left_over now (next_ps2_event s) (ps2_events s) keys) /\
  Permutation (drop (next_mouse_event s') (mouse_events s'))
    (left_over now (next_mouse_event s) (mouse_events s) mouse) /\
  forall cycle,
    (due_events cycle (drop (next_ps2_event s') (ps2_events s'))).2
      = concat (map ev_bytes (filter (fun e => ev_cycle e <= cycle) (ps2_events s'))) /\
    (due_events cycle (drop (next_mouse_event s') (mouse_events s'))).2
      = concat (map ev_bytes (filter (fun e => ev_cycle e <= cycle) (mouse_events s'))).
Proof.
  cbv zeta. unfold requeue_input_events, left_over; cbn [ps2_events next_ps2_event mouse_events next_mouse_event set_field].
  cbn. rewrite !drop_0. split_and!; [apply sort_perm|apply sort_perm|].
  intros cycle. split; apply due_events_sorted, sort_sorted.
Qed.

(** Insertion by cycle, for the witness. *)
Fixpoint insert_event (e : ScheduledPs2Bytes) (l : list ScheduledPs2Bytes) : list ScheduledPs2Bytes :=
  match l with
  | [] => [e]
  | x :: l => if ev_cycle e <=? ev_cycle x then e :: x :: l else x :: insert_event e l
  end.
Definition sort_events (l : list ScheduledPs2Bytes) : list ScheduledPs2Bytes := foldr insert_event [] l.

Lemma insert_event_perm e l : Permutation (insert_event e l) (e :: l).
Proof. induction l as [|x l IH]; cbn; [done|]. case_bool; [done|]. rewrite IH. constructor. Qed.

Lemma sort_events_perm l : Permutation (sort_events l) l.
Proof. induction l as [|x l IH]; cbn; [done|]. by rewrite insert_event_perm, IH. Qed.

Lemma insert_event_sorted e l :
  StronglySorted (fun a b => ev_cycle a <= ev_cycle b) l ->
  StronglySorted (fun a b => ev_cycle a <= ev_cycle b) (insert_event e l).
Proof.
  induction 1 as [|x l Hs IH Hall]; cbn; [by repeat constructor|]. case_bool.
  - constructor; [by constructor|]. constructor; [lia|]. eapply Forall_impl; [exact Hall|]. cbn. lia.
  - constructor; [done|]. rewrite insert_event_perm. constructor; [lia|done].
Qed.

Lemma sort_events_sorted l : StronglySorted (fun a b => ev_cycle a <= ev_cycle b) (sort_events l).
Proof. induction l; cbn; [constructor|by apply insert_event_sorted]. Qed.

Definition demo_events : Ps2 :=
  ps2_init <| ps2_events := [mkEvent 5 [1]; mkEvent 90 [2]] |> <| next_ps2_event := 1%nat |>.

Lemma requeue_complete_witness :
  let s := demo_events in
  let s' := requeue_input_events sort_events 50 [mkEvent 10 [3]; mkEvent 70 [4]] [] s in
  ps2_events s' = [mkEvent 70 [4]; mkEvent 90 [2]] /\
  Permutation (drop (next_ps2_event s') (ps2_events s')) (left_over 50 1 (ps2_events s) [mkEvent 10 [3]; mkEvent 70 [4]]).
Proof.
  cbv zeta. split; [reflexivity|].
  exact (proj1 (requeue_complete sort_events sort_events_perm sort_events_sorted 50
    [mkEvent 10 [3]; mkEvent 70 [4]] [] demo_events)).
Defined.
