(* ===== verification/Keyboard.v ===== *)
(** * Keys

    The scan codes of verilator/scancode.h and what verilator/main.cpp queues
    with them: keys pressed and released in the window ([queue_sdl_key]), keys
    named on the command line or the control socket ([parse_named_key]), and the
    key events scheduled for a cycle.  Whatever is queued, a receiver of scan
    code set 2 decodes it to the keys in order ([keys_decode]).

    The keycodes are SDL's; the class [Sdl] states what the code relies on. *)
From Stdlib Require Import Sorting.Permutation Sorting.Sorted.
From S2P Require Import Prelude IdeTypes Text Input.

(** The keys the program names, with SDL's names. *)
Inductive Key :=
  | SDLK_ESCAPE | SDLK_F1 | SDLK_F2 | SDLK_F3 | SDLK_F4 | SDLK_F5 | SDLK_F6 | SDLK_F7 | SDLK_F8 | SDLK_F9
  | SDLK_F10 | SDLK_F11 | SDLK_F12 | SDLK_PRINTSCREEN | SDLK_SCROLLLOCK | SDLK_PAUSE | SDLK_BACKQUOTE | SDLK_1
  | SDLK_EXCLAIM | SDLK_2 | SDLK_AT | SDLK_3 | SDLK_HASH | SDLK_4 | SDLK_DOLLAR | SDLK_5 | SDLK_PERCENT
  | SDLK_6 | SDLK_CARET | SDLK_7 | SDLK_AMPERSAND | SDLK_8 | SDLK_ASTERISK | SDLK_9 | SDLK_LEFTPAREN | SDLK_0
  | SDLK_RIGHTPAREN | SDLK_MINUS | SDLK_UNDERSCORE | SDLK_EQUALS | SDLK_PLUS | SDLK_BACKSPACE | SDLK_TAB
  | SDLK_q | SDLK_w | SDLK_e | SDLK_r | SDLK_t | SDLK_y | SDLK_u | SDLK_i | SDLK_o | SDLK_p | SDLK_LEFTBRACKET
  | SDLK_RIGHTBRACKET | SDLK_BACKSLASH | SDLK_CAPSLOCK | SDLK_a | SDLK_s | SDLK_d | SDLK_f | SDLK_g | SDLK_h
  | SDLK_j | SDLK_k | SDLK_l | SDLK_SEMICOLON | SDLK_COLON | SDLK_QUOTE | SDLK_QUOTEDBL | SDLK_RETURN
  | SDLK_LSHIFT | SDLK_z | SDLK_x | SDLK_c | SDLK_v | SDLK_b | SDLK_n | SDLK_m | SDLK_COMMA | SDLK_LESS
  | SDLK_PERIOD | SDLK_GREATER | SDLK_SLASH | SDLK_QUESTION | SDLK_RSHIFT | SDLK_LCTRL | SDLK_LALT | SDLK_SPACE
  | SDLK_RALT | SDLK_RCTRL | SDLK_INSERT | SDLK_HOME | SDLK_PAGEUP | SDLK_DELETE | SDLK_END | SDLK_PAGEDOWN
  | SDLK_UP | SDLK_LEFT | SDLK_DOWN | SDLK_RIGHT | SDLK_NUMLOCKCLEAR | SDLK_KP_DIVIDE | SDLK_KP_MULTIPLY
  | SDLK_KP_MINUS | SDLK_KP_7 | SDLK_KP_8 | SDLK_KP_9 | SDLK_KP_PLUS | SDLK_KP_4 | SDLK_KP_5 | SDLK_KP_6
  | SDLK_KP_1 | SDLK_KP_2 | SDLK_KP_3 | SDLK_KP_0 | SDLK_KP_PERIOD | SDLK_KP_ENTER | SDLK_KP_EQUALS.

(** SDL's numbers of the keys: distinct, and that of a letter or a digit is its
    character. *)
Definition key_char (k : Key) : option Z :=
  match k with
  | SDLK_0 => Some 48 | SDLK_1 => Some 49 | SDLK_2 => Some 50 | SDLK_3 => Some 51 | SDLK_4 => Some 52
  | SDLK_5 => Some 53 | SDLK_6 => Some 54 | SDLK_7 => Some 55 | SDLK_8 => Some 56 | SDLK_9 => Some 57
  | SDLK_a => Some 97 | SDLK_b => Some 98 | SDLK_c => Some 99 | SDLK_d => Some 100 | SDLK_e => Some 101
  | SDLK_f => Some 102 | SDLK_g => Some 103 | SDLK_h => Some 104 | SDLK_i => Some 105 | SDLK_j => Some 106
  | SDLK_k => Some 107 | SDLK_l => Some 108 | SDLK_m => Some 109 | SDLK_n => Some 110 | SDLK_o => Some 111
  | SDLK_p => Some 112 | SDLK_q => Some 113 | SDLK_r => Some 114 | SDLK_s => Some 115 | SDLK_t => Some 116
  | SDLK_u => Some 117 | SDLK_v => Some 118 | SDLK_w => Some 119 | SDLK_x => Some 120 | SDLK_y => Some 121
  | SDLK_z => Some 122
  | _ => None
  end.

Class Sdl := {
  keycode : Key -> Z;
  keycode_inj : Inj eq eq keycode;
  keycode_char k c : key_char k = Some c -> keycode k = c;
}.
#[export] Existing Instance keycode_inj.

(** ** The tables of the source *)

(** Scan code set 2: the bytes of a key's press and of its release. *)
Definition ps2scancodes : list (Key * (list Z * list Z)) := [
  (SDLK_ESCAPE, ([0x76], [0xf0; 0x76])); (SDLK_F1, ([0x05], [0xf0; 0x05])); (SDLK_F2, ([0x06], [0xf0; 0x06]));
  (SDLK_F3, ([0x04], [0xf0; 0x04])); (SDLK_F4, ([0x0c], [0xf0; 0x0c])); (SDLK_F5, ([0x03], [0xf0; 0x03]));
  (SDLK_F6, ([0x0b], [0xf0; 0x0b])); (SDLK_F7, ([0x83], [0xf0; 0x83])); (SDLK_F8, ([0x0a], [0xf0; 0x0a]));
  (SDLK_F9, ([0x01], [0xf0; 0x01])); (SDLK_F10, ([0x09], [0xf0; 0x09])); (SDLK_F11, ([0x78], [0xf0; 0x78]));
  (SDLK_F12, ([0x07], [0xf0; 0x07]));
  (SDLK_PRINTSCREEN, ([0xe0; 0x12; 0xe0; 0x7c], [0xe0; 0xf0; 0x7c; 0xe0; 0xf0; 0x12]));
  (SDLK_SCROLLLOCK, ([0x7e], [0xf0; 0x7e]));
  (SDLK_PAUSE, ([0xe1; 0x14; 0x77; 0xe1; 0xf0; 0x14; 0xe0; 0x77], []));
  (SDLK_BACKQUOTE, ([0x0e], [0xf0; 0x0e])); (SDLK_1, ([0x16], [0xf0; 0x16]));
  (SDLK_EXCLAIM, ([0x16], [0xf0; 0x16])); (SDLK_2, ([0x1e], [0xf0; 0x1e])); (SDLK_AT, ([0x1e], [0xf0; 0x1e]));
  (SDLK_3, ([0x26], [0xf0; 0x26])); (SDLK_HASH, ([0x26], [0xf0; 0x26])); (SDLK_4, ([0x25], [0xf0; 0x25]));
  (SDLK_DOLLAR, ([0x25], [0xf0; 0x25])); (SDLK_5, ([0x2e], [0xf0; 0x2e]));
  (SDLK_PERCENT, ([0x2e], [0xf0; 0x2e])); (SDLK_6, ([0x36], [0xf0; 0x36]));
  (SDLK_CARET, ([0x36], [0xf0; 0x36])); (SDLK_7, ([0x3d], [0xf0; 0x3d]));
  (SDLK_AMPERSAND, ([0x3d], [0xf0; 0x3d])); (SDLK_8, ([0x3e], [0xf0; 0x3e]));
  (SDLK_ASTERISK, ([0x3e], [0xf0; 0x3e])); (SDLK_9, ([0x46], [0xf0; 0x46]));
  (SDLK_LEFTPAREN, ([0x46], [0xf0; 0x46])); (SDLK_0, ([0x45], [0xf0; 0x45]));
  (SDLK_RIGHTPAREN, ([0x45], [0xf0; 0x45])); (SDLK_MINUS, ([0x4e], [0xf0; 0x4e]));
  (SDLK_UNDERSCORE, ([0x4e], [0xf0; 0x4e])); (SDLK_EQUALS, ([0x55], [0xf0; 0x55]));
  (SDLK_PLUS, ([0x55], [0xf0; 0x55])); (SDLK_BACKSPACE, ([0x66], [0xf0; 0x66]));
  (SDLK_TAB, ([0x0d], [0xf0; 0x0d])); (SDLK_q, ([0x15], [0xf0; 0x15])); (SDLK_w, ([0x1D], [0xf0; 0x1D]));
  (SDLK_e, ([0x24], [0xf0; 0x24])); (SDLK_r, ([0x2D], [0xf0; 0x2D])); (SDLK_t, ([0x2C], [0xf0; 0x2C]));
  (SDLK_y, ([0x35], [0xf0; 0x35])); (SDLK_u, ([0x3c], [0xf0; 0x3c])); (SDLK_i, ([0x43], [0xf0; 0x43]));
  (SDLK_o, ([0x44], [0xf0; 0x44])); (SDLK_p, ([0x4d], [0xf0; 0x4d]));
  (SDLK_LEFTBRACKET, ([0x54], [0xf0; 0x54])); (SDLK_RIGHTBRACKET, ([0x5b], [0xf0; 0x5b]));
  (SDLK_BACKSLASH, ([0x5d], [0xf0; 0x5d])); (SDLK_CAPSLOCK, ([0x58], [0xf0; 0x58]));
  (SDLK_a, ([0x1c], [0xf0; 0x1c])); (SDLK_s, ([0x1b], [0xf0; 0x1b])); (SDLK_d, ([0x23], [0xf0; 0x23]));
  (SDLK_f, ([0x2b], [0xf0; 0x2b])); (SDLK_g, ([0x34], [0xf0; 0x34])); (SDLK_h, ([0x33], [0xf0; 0x33]));
  (SDLK_j, ([0x3b], [0xf0; 0x3b])); (SDLK_k, ([0x42], [0xf0; 0x42])); (SDLK_l, ([0x4b], [0xf0; 0x4b]));
  (SDLK_SEMICOLON, ([0x4c], [0xf0; 0x4c])); (SDLK_COLON, ([0x4c], [0xf0; 0x4c]));
  (SDLK_QUOTE, ([0x52], [0xf0; 0x52])); (SDLK_QUOTEDBL, ([0x52], [0xf0; 0x52]));
  (SDLK_RETURN, ([0x5a], [0xf0; 0x5a])); (SDLK_LSHIFT, ([0x12], [0xf0; 0x12]));
  (SDLK_z, ([0x1a], [0xf0; 0x1a])); (SDLK_x, ([0x22], [0xf0; 0x22])); (SDLK_c, ([0x21], [0xf0; 0x21]));
  (SDLK_v, ([0x2a], [0xf0; 0x2a])); (SDLK_b, ([0x32], [0xf0; 0x32])); (SDLK_n, ([0x31], [0xf0; 0x31]));
  (SDLK_m, ([0x3a], [0xf0; 0x3a])); (SDLK_COMMA, ([0x41], [0xf0; 0x41])); (SDLK_LESS, ([0x41], [0xf0; 0x41]));
  (SDLK_PERIOD, ([0x49], [0xf0; 0x49])); (SDLK_GREATER, ([0x49], [0xf0; 0x49]));
  (SDLK_SLASH, ([0x4a], [0xf0; 0x4a])); (SDLK_QUESTION, ([0x4a], [0xf0; 0x4a]));
  (SDLK_RSHIFT, ([0x59], [0xf0; 0x59])); (SDLK_LCTRL, ([0x14], [0xf0; 0x14]));
  (SDLK_LALT, ([0x11], [0xf0; 0x11])); (SDLK_SPACE, ([0x29], [0xf0; 0x29]));
  (SDLK_RALT, ([0xe0; 0x11], [0xe0; 0xf0; 0x11])); (SDLK_RCTRL, ([0xe0; 0x14], [0xe0; 0xf0; 0x14]));
  (SDLK_INSERT, ([0xe0; 0x70], [0xe0; 0xf0; 0x70])); (SDLK_HOME, ([0xe0; 0x6c], [0xe0; 0xf0; 0x6c]));
  (SDLK_PAGEUP, ([0xe0; 0x7d], [0xe0; 0xf0; 0x7d])); (SDLK_DELETE, ([0xe0; 0x71], [0xe0; 0xf0; 0x71]));
  (SDLK_END, ([0xe0; 0x69], [0xe0; 0xf0; 0x69])); (SDLK_PAGEDOWN, ([0xe0; 0x7a], [0xe0; 0xf0; 0x7a]));
  (SDLK_UP, ([0xe0; 0x75], [0xe0; 0xf0; 0x75])); (SDLK_LEFT, ([0xe0; 0x6b], [0xe0; 0xf0; 0x6b]));
  (SDLK_DOWN, ([0xe0; 0x72], [0xe0; 0xf0; 0x72])); (SDLK_RIGHT, ([0xe0; 0x74], [0xe0; 0xf0; 0x74]));
  (SDLK_NUMLOCKCLEAR, ([0x77], [0xf0; 0x77])); (SDLK_KP_DIVIDE, ([0xe0; 0x4a], [0xe0; 0xf0; 0x4a]));
  (SDLK_KP_MULTIPLY, ([0x7c], [0xf0; 0x7c])); (SDLK_KP_MINUS, ([0x7b], [0xf0; 0x7b]));
  (SDLK_KP_7, ([0x6c], [0xf0; 0x6c])); (SDLK_KP_8, ([0x75], [0xf0; 0x75]));
  (SDLK_KP_9, ([0x7d], [0xf0; 0x7d])); (SDLK_KP_PLUS, ([0x79], [0xf0; 0x79]));
  (SDLK_KP_4, ([0x6b], [0xf0; 0x6b])); (SDLK_KP_5, ([0x73], [0xf0; 0x73]));
  (SDLK_KP_6, ([0x74], [0xf0; 0x74])); (SDLK_KP_1, ([0x69], [0xf0; 0x69]));
  (SDLK_KP_2, ([0x72], [0xf0; 0x72])); (SDLK_KP_3, ([0x7a], [0xf0; 0x7a]));
  (SDLK_KP_0, ([0x70], [0xf0; 0x70])); (SDLK_KP_PERIOD, ([0x71], [0xf0; 0x71]));
  (SDLK_KP_ENTER, ([0xe0; 0x5a], [0xe0; 0xf0; 0x5a])); (SDLK_KP_EQUALS, ([0xe0; 0x5a], [0xe0; 0xf0; 0x5a]))
].

Definition named_keys : list (list Z * Key) := [
  (str "up", SDLK_UP); (str "down", SDLK_DOWN); (str "left", SDLK_LEFT); (str "right", SDLK_RIGHT);
  (str "enter", SDLK_RETURN); (str "return", SDLK_RETURN); (str "escape", SDLK_ESCAPE);
  (str "esc", SDLK_ESCAPE); (str "space", SDLK_SPACE); (str "tab", SDLK_TAB);
  (str "backspace", SDLK_BACKSPACE); (str "delete", SDLK_DELETE); (str "insert", SDLK_INSERT);
  (str "home", SDLK_HOME); (str "end", SDLK_END); (str "pageup", SDLK_PAGEUP); (str "pagedown", SDLK_PAGEDOWN);
  (str "ctrl", SDLK_LCTRL); (str "shift", SDLK_LSHIFT); (str "alt", SDLK_LALT); (str "f1", SDLK_F1);
  (str "f2", SDLK_F2); (str "f3", SDLK_F3); (str "f4", SDLK_F4); (str "f5", SDLK_F5); (str "f6", SDLK_F6);
  (str "f7", SDLK_F7); (str "f8", SDLK_F8); (str "f9", SDLK_F9); (str "f10", SDLK_F10); (str "f11", SDLK_F11);
  (str "f12", SDLK_F12)
].

Definition key_index (k : Key) : nat :=
  match k with
  | SDLK_ESCAPE => 0 | SDLK_F1 => 1 | SDLK_F2 => 2 | SDLK_F3 => 3 | SDLK_F4 => 4 | SDLK_F5 => 5 | SDLK_F6 => 6
  | SDLK_F7 => 7 | SDLK_F8 => 8 | SDLK_F9 => 9 | SDLK_F10 => 10 | SDLK_F11 => 11 | SDLK_F12 => 12
  | SDLK_PRINTSCREEN => 13 | SDLK_SCROLLLOCK => 14 | SDLK_PAUSE => 15 | SDLK_BACKQUOTE => 16 | SDLK_1 => 17
  | SDLK_EXCLAIM => 18 | SDLK_2 => 19 | SDLK_AT => 20 | SDLK_3 => 21 | SDLK_HASH => 22 | SDLK_4 => 23
  | SDLK_DOLLAR => 24 | SDLK_5 => 25 | SDLK_PERCENT => 26 | SDLK_6 => 27 | SDLK_CARET => 28 | SDLK_7 => 29
  | SDLK_AMPERSAND => 30 | SDLK_8 => 31 | SDLK_ASTERISK => 32 | SDLK_9 => 33 | SDLK_LEFTPAREN => 34
  | SDLK_0 => 35 | SDLK_RIGHTPAREN => 36 | SDLK_MINUS => 37 | SDLK_UNDERSCORE => 38 | SDLK_EQUALS => 39
  | SDLK_PLUS => 40 | SDLK_BACKSPACE => 41 | SDLK_TAB => 42 | SDLK_q => 43 | SDLK_w => 44 | SDLK_e => 45
  | SDLK_r => 46 | SDLK_t => 47 | SDLK_y => 48 | SDLK_u => 49 | SDLK_i => 50 | SDLK_o => 51 | SDLK_p => 52
  | SDLK_LEFTBRACKET => 53 | SDLK_RIGHTBRACKET => 54 | SDLK_BACKSLASH => 55 | SDLK_CAPSLOCK => 56
  | SDLK_a => 57 | SDLK_s => 58 | SDLK_d => 59 | SDLK_f => 60 | SDLK_g => 61 | SDLK_h => 62 | SDLK_j => 63
  | SDLK_k => 64 | SDLK_l => 65 | SDLK_SEMICOLON => 66 | SDLK_COLON => 67 | SDLK_QUOTE => 68
  | SDLK_QUOTEDBL => 69 | SDLK_RETURN => 70 | SDLK_LSHIFT => 71 | SDLK_z => 72 | SDLK_x => 73 | SDLK_c => 74
  | SDLK_v => 75 | SDLK_b => 76 | SDLK_n => 77 | SDLK_m => 78 | SDLK_COMMA => 79 | SDLK_LESS => 80
  | SDLK_PERIOD => 81 | SDLK_GREATER => 82 | SDLK_SLASH => 83 | SDLK_QUESTION => 84 | SDLK_RSHIFT => 85
  | SDLK_LCTRL => 86 | SDLK_LALT => 87 | SDLK_SPACE => 88 | SDLK_RALT => 89 | SDLK_RCTRL => 90
  | SDLK_INSERT => 91 | SDLK_HOME => 92 | SDLK_PAGEUP => 93 | SDLK_DELETE => 94 | SDLK_END => 95
  | SDLK_PAGEDOWN => 96 | SDLK_UP => 97 | SDLK_LEFT => 98 | SDLK_DOWN => 99 | SDLK_RIGHT => 100
  | SDLK_NUMLOCKCLEAR => 101 | SDLK_KP_DIVIDE => 102 | SDLK_KP_MULTIPLY => 103 | SDLK_KP_MINUS => 104
  | SDLK_KP_7 => 105 | SDLK_KP_8 => 106 | SDLK_KP_9 => 107 | SDLK_KP_PLUS => 108 | SDLK_KP_4 => 109
  | SDLK_KP_5 => 110 | SDLK_KP_6 => 111 | SDLK_KP_1 => 112 | SDLK_KP_2 => 113 | SDLK_KP_3 => 114
  | SDLK_KP_0 => 115 | SDLK_KP_PERIOD => 116 | SDLK_KP_ENTER => 117 | SDLK_KP_EQUALS => 118
  end%nat.

Section Keys.
Context `{Sdl}.

(** [ps2scancodes.find]. *)
Definition find_key (code : Z) : option (list Z * list Z) :=
  snd ∘ snd <$> list_find (fun e => keycode e.1 = code) ps2scancodes.

Definition queue_sdl_key (s : Ps2) (code : Z) (pressed : bool) : Ps2 :=
  match find_key code with
  | Some (make, break) => queue_ps2_bytes s (if pressed then make else break)
  | None => s
  end.

Definition tolower (c : Z) : Z := if (65 <=? c) && (c <=? 90) then c + 32 else c.
Definition isalnum (c : Z) : bool := isdigit c || ((65 <=? c) && (c <=? 90)) || ((97 <=? c) && (c <=? 122)).

Definition parse_named_key (name : list Z) : option Z :=
  let name := map tolower name in
  match list_find (fun e => e.1 = name) named_keys with
  | Some (_, (_, k)) => Some (keycode k)
  | None =>
    match name with
    | [ch] => if isalnum ch then Some ch else None
    | _ => None
    end
  end.

(** ** Key events of the command line *)

Definition bytes_of (code : Z) (pressed : bool) : list Z :=
  match find_key code with Some (make, break) => if pressed then make else break | None => [] end.

(** The loops over [enter_cycles], [key_events], [key_edge_events] and
    [ctrl_alt_del_cycles]; a key that is not in the table schedules nothing. *)
Definition typed_event (e : Z * Z) : option ScheduledPs2Bytes :=
  '(make, break) ← find_key e.2; Some (mkEvent e.1 (make ++ break)).

Definition edge_event (e : Z * Z * bool) : option ScheduledPs2Bytes :=
  '(make, break) ← find_key e.1.2; Some (mkEvent e.1.1 (if e.2 then make else break)).

Definition ctrl_alt_del_event (cycle : Z) : ScheduledPs2Bytes :=
  mkEvent cycle
    (concat (map (fun k => bytes_of (keycode k) true) [SDLK_LCTRL; SDLK_LALT; SDLK_DELETE]) ++
     concat (map (fun k => bytes_of (keycode k) false) [SDLK_DELETE; SDLK_LALT; SDLK_LCTRL])).

Definition schedule_keys (sort : list ScheduledPs2Bytes -> list ScheduledPs2Bytes)
    (enter_cycles : list Z) (key_events : list (Z * Z)) (key_edge_events : list (Z * Z * bool))
    (ctrl_alt_del_cycles : list Z) : list ScheduledPs2Bytes :=
  sort (omap (fun cycle => typed_event (cycle, keycode SDLK_RETURN)) enter_cycles ++
        omap typed_event key_events ++ omap edge_event key_edge_events ++
        map ctrl_alt_del_event ctrl_alt_del_cycles).
End Keys.

(** ** A receiver of scan code set 2 *)

Inductive Cap := Plain (code : Z) | Extended (code : Z) | PrintScreen | Pause.

Fixpoint strip_prefix (p l : list Z) : option (list Z) :=
  match p, l with
  | [], _ => Some l
  | x :: p, y :: l => if x =? y then strip_prefix p l else None
  | _, [] => None
  end.

(** One press or release at the head of a stream. *)
Definition decode_key (l : list Z) : option (Cap * bool * list Z) :=
  match strip_prefix [0xe1; 0x14; 0x77; 0xe1; 0xf0; 0x14; 0xe0; 0x77] l with Some l => Some (Pause, true, l) | None =>
  match strip_prefix [0xe0; 0x12; 0xe0; 0x7c] l with Some l => Some (PrintScreen, true, l) | None =>
  match strip_prefix [0xe0; 0xf0; 0x7c; 0xe0; 0xf0; 0x12] l with Some l => Some (PrintScreen, false, l) | None =>
  match strip_prefix [0xe0; 0xf0] l with
  | Some (b :: l) => Some (Extended b, false, l)
  | Some [] => None
  | None =>
  match strip_prefix [0xe0] l with
  | Some (b :: l) => Some (Extended b, true, l)
  | Some [] => None
  | None =>
  match strip_prefix [0xf0] l with
  | Some (b :: l) => Some (Plain b, false, l)
  | Some [] => None
  | None => match l with b :: l => Some (Plain b, true, l) | [] => None end
  end end end end end end.

(** [fuel]: the length of the stream suffices, every key takes a byte. *)
Fixpoint decode_keys (fuel : nat) (l : list Z) : option (list (Cap * bool)) :=
  match l, fuel with
  | [], _ => Some []
  | _, O => None
  | _, S fuel => '(e, l) ← decode_key l; es ← decode_keys fuel l; Some (e :: es)
  end.

(** The cap a key is on: shifted characters are on that of the plain ones. *)
Definition scancode (k : Key) : list Z * list Z :=
  from_option snd ([], []) (ps2scancodes !! key_index k).

Definition cap (k : Key) : Cap :=
  match (scancode k).1 with
  | [b] => Plain b
  | [_; b] => Extended b
  | [_; _; _; _] => PrintScreen
  | _ => Pause
  end.

(** The Pause key sends nothing when it is released. *)
Definition cap_event (e : Key * bool) : option (Cap * bool) :=
  match cap e.1, e.2 with
  | Pause, false => None
  | c, p => Some (c, p)
  end.

Definition press (k : Key) : list (Key * bool) := [(k, true); (k, false)].

(** ** The table *)

Lemma table_at k : exists e, ps2scancodes !! key_index k = Some (k, e).
Proof. destruct k; eexists; reflexivity. Qed.

#[export] Instance key_index_inj : Inj eq eq key_index.
Proof.
  intros j k E. destruct (table_at j) as [a Ha], (table_at k) as [b Hb].
  rewrite E, Hb in Ha. by injection Ha.
Qed.

#[export] Instance Key_eq_dec : EqDecision Key.
Proof. intros j k. destruct (decide (key_index j = key_index k)); [left|right]; naive_solver. Defined.

Lemma table_keys : map (fun e => key_index e.1) ps2scancodes = seq 0 (length ps2scancodes).
Proof. by vm_compute. Qed.

(** Each key has one entry. *)
Lemma table_entry i k e : ps2scancodes !! i = Some (k, e) -> i = key_index k /\ e = scancode k.
Proof.
  intros Hi. assert (i = key_index k) as ->.
  { assert (map (fun e => key_index e.1) ps2scancodes !! i = Some (key_index k)) as Hk
      by (by rewrite list_lookup_fmap, Hi).
    rewrite table_keys in Hk. apply lookup_seq in Hk. lia. }
  split; [done|]. unfold scancode. by rewrite Hi.
Qed.

(** The bytes of a key. *)
Definition key_bytes (e : Key * bool) : list Z := if e.2 then (scancode e.1).1 else (scancode e.1).2.

(** One key's bytes are decoded whatever follows them. *)
Lemma decode_key_bytes e l :
  match cap_event e with
  | Some c => decode_key (key_bytes e ++ l) = Some (c, l) /\ key_bytes e <> []
  | None => key_bytes e = []
  end.
Proof. destruct e as [k []]; destruct k; try (split; [|discriminate]); reflexivity. Qed.

(** Two keys on one cap. *)
Definition cap_eqb (a b : Cap) : bool :=
  match a, b with
  | Plain x, Plain y | Extended x, Extended y => x =? y
  | PrintScreen, PrintScreen | Pause, Pause => true
  | _, _ => false
  end.

(** The characters that share the cap of another key, and the keypad's equals
    sign, which the table puts on its enter key. *)
Definition shifted : list (Key * Key) := [
  (SDLK_1, SDLK_EXCLAIM); (SDLK_2, SDLK_AT); (SDLK_3, SDLK_HASH); (SDLK_4, SDLK_DOLLAR); (SDLK_5, SDLK_PERCENT);
  (SDLK_6, SDLK_CARET); (SDLK_7, SDLK_AMPERSAND); (SDLK_8, SDLK_ASTERISK); (SDLK_9, SDLK_LEFTPAREN);
  (SDLK_0, SDLK_RIGHTPAREN); (SDLK_MINUS, SDLK_UNDERSCORE); (SDLK_EQUALS, SDLK_PLUS);
  (SDLK_SEMICOLON, SDLK_COLON); (SDLK_QUOTE, SDLK_QUOTEDBL); (SDLK_COMMA, SDLK_LESS);
  (SDLK_PERIOD, SDLK_GREATER); (SDLK_SLASH, SDLK_QUESTION); (SDLK_KP_ENTER, SDLK_KP_EQUALS)
].

Definition same_cap (j k : Key) : bool :=
  (key_index j =? key_index k)%nat ||
  existsb (fun e => ((key_index e.1 =? key_index j) && (key_index e.2 =? key_index k)) ||
                    ((key_index e.1 =? key_index k) && (key_index e.2 =? key_index j)))%nat shifted.

Definition all_keys : list Key := map fst ps2scancodes.

Lemma all_keys_all k : k ∈ all_keys.
Proof.
  destruct (table_at k) as [e He]. apply (list_elem_of_fmap_2 fst _ (k, e)). by eapply list_elem_of_lookup_2.
Qed.

Lemma same_cap_correct j k : same_cap j k = true -> j = k \/ (j, k) ∈ shifted \/ (k, j) ∈ shifted.
Proof.
  unfold same_cap. intros [E|E]%orb_prop.
  - left. apply (inj key_index). lia.
  - right. apply existsb_exists in E as [[a b] [Hin E]]. apply list_elem_of_In in Hin. cbn in E.
    apply orb_prop in E as [E|E]; apply andb_prop in E as [E1 E2];
      apply Nat.eqb_eq in E1; apply Nat.eqb_eq in E2; apply (inj key_index) in E1, E2; subst; auto.
Qed.

Lemma caps_checked :
  (let l := map (fun k => (k, cap k)) all_keys in
   forallb (fun j => forallb (fun k => negb (cap_eqb j.2 k.2) || same_cap j.1 k.1) l) l) = true.
Proof. by vm_compute. Qed.

(** Keys on one cap are the same or a character and its shifted one. *)
Lemma caps_distinct j k : cap j = cap k -> j = k \/ (j, k) ∈ shifted \/ (k, j) ∈ shifted.
Proof.
  intros E. apply same_cap_correct. pose proof caps_checked as C. cbv zeta in C.
  assert (forall k, In (k, cap k) (map (fun k => (k, cap k)) all_keys)) as Hin.
  { intros x. apply in_map_iff. exists x. split; [done|]. apply list_elem_of_In, all_keys_all. }
  rewrite forallb_forall in C. specialize (C _ (Hin j)).
  rewrite forallb_forall in C. specialize (C _ (Hin k)). cbn [fst snd] in C.
  apply orb_prop in C as [C|C]; [|done]. rewrite E in C.
  assert (cap_eqb (cap k) (cap k) = true) as X by (destruct (cap k); cbn; try apply Z.eqb_refl; done).
  by rewrite X in C.
Qed.

(** ** What is queued is decoded *)

Lemma queue_ps2_nil s : queue_ps2_bytes s [] = s.
Proof. unfold queue_ps2_bytes. rewrite app_nil_r. by destruct s. Qed.

Lemma queue_ps2_app s a b : queue_ps2_bytes (queue_ps2_bytes s a) b = queue_ps2_bytes s (a ++ b).
Proof. unfold queue_ps2_bytes. cbn. by rewrite <- app_assoc. Qed.

Lemma decode_keys_app evs : forall fuel,
  (length (concat (map key_bytes evs)) <= fuel)%nat ->
  decode_keys fuel (concat (map key_bytes evs)) = Some (omap cap_event evs).
Proof.
  induction evs as [|e evs IH]; intros fuel Hf; cbn [map concat] in *; [by destruct fuel|].
  cbn [omap list_omap]. pose proof (decode_key_bytes e (concat (map key_bytes evs))) as He.
  destruct (cap_event e) as [c|]; [destruct He as [He Hn]|rewrite He in *; by apply IH].
  rewrite length_app in Hf. destruct (key_bytes e) as [|b bs] eqn:Eb; [done|]. cbn [length] in Hf.
  destruct fuel as [|fuel]; [lia|]. cbn [app decode_keys]. change (b :: bs ++ ?l) with ((b :: bs) ++ l).
  rewrite He. cbn [mbind option_bind]. rewrite IH by lia. done.
Qed.

Lemma decode_keys_bytes evs :
  decode_keys (length (concat (map key_bytes evs))) (concat (map key_bytes evs)) = Some (omap cap_event evs).
Proof. by apply decode_keys_app. Qed.

Section Queued.
Context `{Sdl}.

Definition key_of (code : Z) : option Key := fst ∘ snd <$> list_find (fun e => keycode e.1 = code) ps2scancodes.

Lemma key_of_Some code k : key_of code = Some k -> keycode k = code.
Proof.
  unfold key_of. destruct (list_find _ _) as [[i [j e]]|] eqn:E; [|done].
  apply list_find_Some in E. naive_solver.
Qed.

Lemma find_key_of code : find_key code = scancode <$> key_of code.
Proof.
  unfold find_key, key_of. destruct (list_find _ _) as [[i [k e]]|] eqn:E; [|done].
  apply list_find_Some in E as [Hi _]. simpl. f_equal. by apply table_entry in Hi as [_ ->].
Qed.

Lemma key_of_keycode k : key_of (keycode k) = Some k.
Proof.
  unfold key_of. destruct (list_find _ _) as [[i [j e]]|] eqn:E; simpl.
  - apply list_find_Some in E as (_ & E & _). simpl in E. by apply keycode_inj in E as ->.
  - apply list_find_None in E. destruct (table_at k) as [e He].
    apply list_elem_of_lookup_2 in He. rewrite Forall_forall in E. by destruct (E _ He).
Qed.

Lemma find_key_keycode k : find_key (keycode k) = Some (scancode k).
Proof. by rewrite find_key_of, key_of_keycode. Qed.

(** The keys behind codes and directions; codes without a key are skipped. *)
Definition known (evs : list (Z * bool)) : list (Key * bool) :=
  omap (fun e => (fun k => (k, e.2)) <$> key_of e.1) evs.

Definition queue_keys (evs : list (Z * bool)) (s : Ps2) : Ps2 :=
  fold_left (fun s e => queue_sdl_key s e.1 e.2) evs s.

Lemma queue_sdl_key_bytes s code pressed :
  queue_sdl_key s code pressed = queue_ps2_bytes s (bytes_of code pressed).
Proof.
  unfold queue_sdl_key, bytes_of. destruct (find_key code) as [[]|]; [done|].
  unfold queue_ps2_bytes. rewrite app_nil_r. by destruct s.
Qed.

Lemma bytes_of_key code pressed :
  bytes_of code pressed = from_option (fun k => key_bytes (k, pressed)) [] (key_of code).
Proof.
  unfold bytes_of. rewrite find_key_of. destruct (key_of code) as [k|]; [|done]. simpl.
  unfold key_bytes. cbn. by destruct (scancode k).
Qed.

Lemma queue_keys_bytes evs : forall s,
  queue_keys evs s = queue_ps2_bytes s (concat (map key_bytes (known evs))).
Proof.
  induction evs as [|[code p] evs IH]; intros s; cbn [queue_keys fold_left]; [by rewrite queue_ps2_nil|].
  rewrite queue_sdl_key_bytes, IH, bytes_of_key, queue_ps2_app. f_equal.
  unfold known. cbn [omap list_omap fst snd]. by destruct (key_of code) as [k|].
Qed.

(** Keys pressed and released in any order, at the window, on the command line
    or over the control socket: the bytes queued behind what was waiting are
    decoded to exactly the caps of the known keys, in order. *)
Lemma keys_decode evs s :
  exists bytes,
    queue_keys evs s = queue_ps2_bytes s bytes /\
    decode_keys (length bytes) bytes = Some (omap cap_event (known evs)).
Proof. eexists. split; [apply queue_keys_bytes|apply decode_keys_bytes]. Qed.

(** ** Scheduled keys *)

(** What the command line asks for, as keys. *)
Definition ctrl_alt_del : list (Key * bool) :=
  [(SDLK_LCTRL, true); (SDLK_LALT, true); (SDLK_DELETE, true);
   (SDLK_DELETE, false); (SDLK_LALT, false); (SDLK_LCTRL, false)].

Definition scheduled (enter_cycles : list Z) (key_events : list (Z * Z)) (key_edge_events : list (Z * Z * bool))
    (ctrl_alt_del_cycles : list Z) : list (Z * list (Key * bool)) :=
  map (fun cycle => (cycle, press SDLK_RETURN)) enter_cycles ++
  omap (fun e => (fun k => (e.1, press k)) <$> key_of e.2) key_events ++
  omap (fun e => (fun k => (e.1.1, [(k, e.2)])) <$> key_of e.1.2) key_edge_events ++
  map (fun cycle => (cycle, ctrl_alt_del)) ctrl_alt_del_cycles.

Definition event_of (e : Z * list (Key * bool)) : ScheduledPs2Bytes := mkEvent e.1 (concat (map key_bytes e.2)).

Lemma omap_map {A B C} (f : A -> option B) (g : B -> C) (h : A -> option C) l :
  (forall a, h a = g <$> f a) -> omap h l = map g (omap f l).
Proof.
  intros E. induction l as [|a l IH]; [done|]. cbn [omap list_omap]. rewrite E, IH. by destruct (f a).
Qed.

Lemma typed_event_keys e : typed_event e = event_of <$> ((fun k => (e.1, press k)) <$> key_of e.2).
Proof.
  unfold typed_event. rewrite find_key_of. destruct (key_of e.2) as [k|]; [|done]. cbn.
  unfold event_of, key_bytes. cbn. by destruct (scancode k); rewrite app_nil_r.
Qed.

Lemma edge_event_keys e : edge_event e = event_of <$> ((fun k => (e.1.1, [(k, e.2)])) <$> key_of e.1.2).
Proof.
  unfold edge_event. rewrite find_key_of. destruct (key_of e.1.2) as [k|]; [|done]. cbn.
  unfold event_of, key_bytes. cbn. by destruct (scancode k); rewrite app_nil_r.
Qed.

Lemma enter_events cycles :
  omap (fun cycle => typed_event (cycle, keycode SDLK_RETURN)) cycles =
  map event_of (map (fun cycle => (cycle, press SDLK_RETURN)) cycles).
Proof.
  induction cycles as [|c l IH]; [done|]. cbn [omap list_omap]. rewrite typed_event_keys. cbn [fst snd].
  rewrite key_of_keycode. cbn [fmap option_fmap option_map map]. by rewrite IH.
Qed.

Lemma ctrl_alt_del_event_keys cycle : ctrl_alt_del_event cycle = event_of (cycle, ctrl_alt_del).
Proof.
  unfold ctrl_alt_del_event, event_of. cbn [fst snd map concat ctrl_alt_del].
  rewrite !bytes_of_key, !key_of_keycode. done.
Qed.

Lemma schedule_events sort enter keys edges cads :
  schedule_keys sort enter keys edges cads = sort (map event_of (scheduled enter keys edges cads)).
Proof.
  unfold schedule_keys, scheduled. rewrite !map_app, enter_events. f_equal. f_equal. f_equal.
  - by apply omap_map, typed_event_keys.
  - f_equal; [by apply omap_map, edge_event_keys|]. rewrite map_map. apply map_ext, ctrl_alt_del_event_keys.
Qed.

Lemma concat_event_bytes l :
  concat (map ev_bytes (map event_of l)) = concat (map key_bytes (concat (map snd l))).
Proof. induction l as [|e l IH]; [done|]. cbn. by rewrite IH, concat_map, map_app, concat_app, <- concat_map. Qed.

Lemma filter_events cycle l :
  filter (fun e => ev_cycle e <= cycle) (map event_of l) = map event_of (filter (fun e => e.1 <= cycle) l).
Proof.
  induction l as [|e l IH]; [done|]. cbn [map]. rewrite !filter_cons. cbn [ev_cycle event_of].
  destruct (decide _); cbn [map]; by rewrite IH.
Qed.

(** In whatever order [sort] leaves the events of one cycle, the bytes due at a
    cycle are decoded to the keys of exactly the events scheduled by then, each
    event's keys together. *)
Lemma scheduled_keys_decode sort enter keys edges cads
    (sort_perm : forall l, Permutation (sort l) l)
    (sort_sorted : forall l, StronglySorted (fun a b => ev_cycle a <= ev_cycle b) (sort l)) :
  exists l, Permutation l (scheduled enter keys edges cads) /\
    forall cycle,
      let bytes := (due_events cycle (schedule_keys sort enter keys edges cads)).2 in
      decode_keys (length bytes) bytes =
        Some (omap cap_event (concat (map snd (filter (fun e => e.1 <= cycle) l)))).
Proof.
  pose proof (sort_perm (map event_of (scheduled enter keys edges cads))) as P.
  apply Permutation_map_inv in P as (l & El & Pl).
  exists l. split; [by symmetry|]. intros cycle. cbv zeta.
  rewrite due_events_sorted by (rewrite schedule_events; apply sort_sorted).
  rewrite schedule_events, El, filter_events, concat_event_bytes. apply decode_keys_bytes.
Qed.

(** ** Named keys *)

(** Every name accepted is that of a key in the table. *)
Lemma parse_named_key_known name code :
  parse_named_key name = Some code -> exists k, code = keycode k.
Proof.
  unfold parse_named_key. destruct (list_find _ named_keys) as [[i [n k]]|] eqn:E.
  - intros [= <-]. by exists k.
  - destruct (map tolower name) as [|c [|]] eqn:En; try done. case_bool; [|done]. intros [= <-].
    destruct name as [|d [|]]; try done. injection En as Ec.
    assert (forall k, key_char k = Some c -> exists k, c = keycode k) as X.
    { intros k Hk. exists k. symmetry. by apply keycode_char. }
    assert (48 <= c <= 57 \/ 97 <= c <= 122) as Hc.
    { unfold isalnum, isdigit in E0. unfold tolower in Ec. case_bool; lia. }
    assert (exists k, key_char k = Some c) as [k Hk]; [|by apply (X k)].
    assert (existsb (fun k => bool_decide (key_char k = Some c)) all_keys = true) as Hx.
    { clear - Hc.
      assert (forallb (fun c => existsb (fun k => bool_decide (key_char k = Some c)) all_keys)
                (map Z.of_nat (seq 48 10 ++ seq 97 26)) = true) as A by (by vm_compute).
      rewrite forallb_forall in A. apply A. apply in_map_iff. exists (Z.to_nat c). split; [lia|].
      apply in_or_app. destruct Hc; [left|right]; apply in_seq; lia. }
    apply existsb_exists in Hx as (k & _ & Hk). exists k. by apply bool_decide_eq_true in Hk.
Qed.
End Queued.

(** An instance for examples: the characters' own codes, then any others. *)
Definition demo_keycode (k : Key) : Z := default (1000 + Z.of_nat (key_index k)) (key_char k).

Lemma demo_keycode_inj : Inj eq eq demo_keycode.
Proof.
  intros j k E. apply (inj key_index).
  assert (forall x, map demo_keycode all_keys !! key_index x = Some (demo_keycode x)) as L.
  { intros x. destruct (table_at x) as [e He]. unfold all_keys. by rewrite map_map, list_lookup_fmap, He. }
  assert (NoDup (map demo_keycode all_keys)) as N by (apply (bool_decide_unpack _); by vm_compute).
  eapply NoDup_lookup; [apply N|apply L|rewrite E; apply L].
Qed.

Definition demo_sdl : Sdl := {|
  keycode := demo_keycode;
  keycode_inj := demo_keycode_inj;
  keycode_char k c E := f_equal (default _) E;
|}.
