(* ===== verification/Control.v ===== *)
(** * The control socket

    Class [ControlServer] of verilator/control_server.cpp and the commands that
    [process_control_commands] of verilator/main.cpp takes from it.  A server
    thread splits what a client sends into lines, answers status and help and
    queues the rest; the main thread drains the queue.  The threads interleave
    between lines, where the queue's mutex is free: [run] is any interleaving.

    Every line is handled once and in order, however the bytes arrive, and a
    command that was acknowledged is drained exactly once
    ([commands_delivered]); what a client asks for happens, in order
    ([remote_control]).  An unreadable button mask is taken for one
    ([buttons_unchecked]).

    Opening, accepting and closing sockets is in [Server]; the results of
    [send] are a list given from outside. *)
From S2P Require Import Prelude IdeTypes Text Input Keyboard.

Definition MAX_QUEUED_COMMANDS : Z := 4096.
Definition MAX_PENDING_INPUT : Z := 65536.

(** The size of the receive buffer. *)
Definition BUFFER : Z := 4096.

(** ** The server thread *)

(** One call of [send]: bytes taken, or an error. *)
Inductive SendResult := Sent (n : nat) | Interrupted | Failed.

(** [send_all]: whether all was sent, what was sent, and the calls left.  When
    no result is left the peer is gone. *)
Fixpoint send_all (text : list Z) (sends : list SendResult) : bool * list Z * list SendResult :=
  match text, sends with
  | [], _ => (true, [], sends)
  | _, Interrupted :: sends => send_all text sends
  | _, Sent (S n) :: sends =>
    let '(ok, sent, sends) := send_all (drop (S n) text) sends in (ok, take (S n) text ++ sent, sends)
  | _, (Sent O | Failed) :: sends => (false, [], sends)
  | _, [] => (false, [], [])
  end.

Record ControlServer := mkServer {
  commands_ : list (list Z);
  sim_time_ : Z;
  width_ : Z;
  height_ : Z;
  mouse_buttons_ : Z;
}.
#[export] Instance eta_server : Eta ControlServer :=
  fun r => mkServer (commands_ r) (sim_time_ r) (width_ r) (height_ r) (mouse_buttons_ r).

(** The locals of [handle_client] and the bytes the client has been sent;
    [open]: the loop runs. *)
Record Client := mkClient {
  pending : list Z;
  out : list Z;
  sends : list SendResult;
  open : bool;
}.
#[export] Instance eta_client : Eta Client := fun r => mkClient (pending r) (out r) (sends r) (open r).

Definition new_client (sends : list SendResult) : Client := mkClient [] [] sends true.

Definition update_status (sim_time width height mouse_buttons : Z) (s : ControlServer) : ControlServer :=
  s <| sim_time_ := sim_time |> <| width_ := width |> <| height_ := height |> <| mouse_buttons_ := mouse_buttons |>.

Definition drain_commands (s : ControlServer) : list (list Z) * ControlServer :=
  (commands_ s, s <| commands_ := [] |>).

Definition status_line (s : ControlServer) : list Z :=
  str "OK sim_time=" ++ dec (sim_time_ s) ++ str " resolution=" ++ print_int (width_ s) ++ str "x" ++
  print_int (height_ s) ++ str " mouse_buttons=" ++ dec (mouse_buttons_ s) ++ [newline].

Definition help : list Z :=
  str "OK commands: mouse <dx> <dy> [buttons]; key <name> [press|down|up]; " ++
  str "checkpoint; screenshot [path]; status; quit" ++ [newline].

Definition reply (text : list Z) (c : Client) : Client :=
  let '(ok, sent, more) := send_all text (sends c) in
  c <| out := out c ++ sent |> <| sends := more |> <| open := ok |>.

(** The line without its carriage return. *)
Definition chomp (line : list Z) : list Z :=
  match last line with Some 13 => removelast line | _ => line end.

Definition handle_line (line : list Z) (s : ControlServer) (c : Client) : ControlServer * Client :=
  let line := chomp line in
  if is_nil line then (s, c)
  else if decide (line = str "status") then (s, reply (status_line s) c)
  else if decide (line = str "help") then (s, reply help c)
  else if Z.of_nat (length (commands_ s)) <? MAX_QUEUED_COMMANDS then
    (s <| commands_ := commands_ s ++ [line] |>, reply (str "OK queued" ++ [newline]) c)
  else (s, reply (str "ERR command queue full" ++ [newline]) c).

(** [pending.find('\n')] and the parts around it. *)
Definition cut_line (l : list Z) : option (list Z * list Z) :=
  match span (fun c => negb (c =? newline)) l with
  | (line, _ :: rest) => Some (line, rest)
  | _ => None
  end.

(** The inner loop's body. *)
Definition next_line (s : ControlServer) (c : Client) : option (ControlServer * Client) :=
  '(line, rest) ← cut_line (pending c);
  Some (handle_line line s (c <| pending := rest |>)).

(** A successful [recv]. *)
Definition receive (chunk : list Z) (c : Client) : Client :=
  let c := c <| pending := pending c ++ chunk |> in
  if MAX_PENDING_INPUT <? Z.of_nat (length (pending c)) then
    reply (str "ERR input buffer too large" ++ [newline]) c <| open := false |>
  else c.

(** *** The threads *)

Inductive Step := Received (chunk : list Z) | Handled | Drained (commands : list (list Z)) | Updated.

Inductive step : ControlServer * Client -> Step -> ControlServer * Client -> Prop :=
| step_received s c chunk :
    open c = true -> cut_line (pending c) = None -> chunk <> [] -> Z.of_nat (length chunk) <= BUFFER ->
    step (s, c) (Received chunk) (s, receive chunk c)
| step_handled s c s' c' :
    open c = true -> next_line s c = Some (s', c') -> step (s, c) Handled (s', c')
| step_drained s c commands s' :
    drain_commands s = (commands, s') -> step (s, c) (Drained commands) (s', c)
| step_updated s c sim_time width height mouse_buttons :
    step (s, c) Updated (update_status sim_time width height mouse_buttons s, c).

Inductive run : ControlServer * Client -> list Step -> ControlServer * Client -> Prop :=
| run_nil x : run x [] x
| run_snoc x tr y l z : run x tr y -> step y l z -> run x (tr ++ [l]) z.

(** What a run received and drained. *)
Definition received (tr : list Step) : list Z :=
  concat (map (fun l => match l with Received chunk => chunk | _ => [] end) tr).
Definition drained (tr : list Step) : list (list Z) :=
  concat (map (fun l => match l with Drained commands => commands | _ => [] end) tr).

(** ** The commands *)

Section Commands.
Context `{Sdl}.

(** What the commands act on; [checkpoints] holds the cycles of the calls of
    [save_checkpoint], [requests] is [control_screenshot_requests]. *)
Record Control := mkControl {
  ps2 : Ps2;
  running : bool;
  checkpoint_dir : list Z;
  checkpoints : list Z;
  requests : list (list Z);
}.
#[export] Instance eta_control : Eta Control :=
  fun r => mkControl (ps2 r) (running r) (checkpoint_dir r) (checkpoints r) (requests r).

Definition control_mouse (i : Istringstream) (st : Control) : option Control :=
  let '(dx, i) := get_int 0 i in
  let '(dy, i) := get_int 0 i in
  if failbit i then Some st
  else
    let '(buttons, i) := get_unsigned (ps2_mouse_buttons (ps2 st)) i in
    if negb (failbit i) && (7 <? buttons) then Some st
    else
      let p := ps2 st <| ps2_mouse_buttons := u8 buttons |> in
      p ← queue_mouse_packet p dx dy (u8 buttons);
      Some (st <| ps2 := p |>).

Definition control_key (i : Istringstream) (st : Control) : Control :=
  let '(name, i) := get_string [] i in
  if is_nil name then st
  else
    let '(action, _) := get_string (str "press") i in
    match parse_named_key name with
    | None => st
    | Some key =>
      if bool_decide (find_key key = None) then st
      else if decide (action = str "press") then
        st <| ps2 := queue_sdl_key (queue_sdl_key (ps2 st) key true) key false |>
      else if decide (action = str "down") then st <| ps2 := queue_sdl_key (ps2 st) key true |>
      else if decide (action = str "up") then st <| ps2 := queue_sdl_key (ps2 st) key false |>
      else st
    end.

(** [fs::path(dir) / name] for a relative name. *)
Definition path_join (dir name : list Z) : list Z :=
  match last dir with Some 47 => dir ++ name | _ => dir ++ [47] ++ name end.

Definition control_screenshot (screenshot_dir : list Z) (sim_time : Z) (i : Istringstream) (st : Control) : Control :=
  let '(requested_path, _) := get_string [] i in
  let name := str "control_" ++ dec sim_time ++ str ".png" in
  let path :=
    if negb (is_nil requested_path) then requested_path
    else if negb (is_nil screenshot_dir) then path_join screenshot_dir name
    else name in
  st <| requests := requests st ++ [path] |>.

Definition process_command (screenshot_dir : list Z) (sim_time current_cycle : Z) (line : list Z) (st : Control) :
    option Control :=
  let '(operation, i) := get_string [] (iss_of line) in
  if decide (operation = str "mouse") then control_mouse i st
  else if decide (operation = str "key") then Some (control_key i st)
  else if decide (operation = str "checkpoint") then
    Some (st <| checkpoint_dir := if is_nil (checkpoint_dir st) then str "checkpoints" else checkpoint_dir st |>
             <| checkpoints := checkpoints st ++ [current_cycle] |>)
  else if decide (operation = str "screenshot") then Some (control_screenshot screenshot_dir sim_time i st)
  else if decide (operation = str "quit") then Some (st <| running := false |>)
  else Some st.

(** [process_control_commands]; the loop over the drained lines. *)
Fixpoint process_commands (screenshot_dir : list Z) (sim_time current_cycle : Z) (lines : list (list Z)) (st : Control) :
    option Control :=
  match lines with
  | [] => Some st
  | line :: lines =>
    st ← process_command screenshot_dir sim_time current_cycle line st;
    process_commands screenshot_dir sim_time current_cycle lines st
  end.

Definition process_control_commands (screenshot_dir : list Z) (sim_time current_cycle : Z) (width height : Z)
    (s : ControlServer) (st : Control) : option (ControlServer * Control) :=
  let s := update_status sim_time width height (ps2_mouse_buttons (ps2 st)) s in
  let '(lines, s) := drain_commands s in
  st ← process_commands screenshot_dir sim_time current_cycle lines st;
  Some (s, st).
End Commands.

(** ** Sending *)

(** Everything is sent, or the start of it. *)
Lemma send_all_sent sends : forall text,
  exists rest, (send_all text sends).1.2 ++ rest = text /\ ((send_all text sends).1.1 = true -> rest = []).
Proof.
  assert (forall sends, exists rest, (send_all [] sends).1.2 ++ rest = [] /\ ((send_all [] sends).1.1 = true -> rest = []))
    as E0 by (intros []; by exists []).
  induction sends as [|r sends IH]; intros [|b text]; try apply E0; [by exists (b :: text)|].
  destruct r as [[|n]| |]; cbn [send_all].
  - by exists (b :: text).
  - destruct (IH (drop (S n) (b :: text))) as (rest & E & Hok).
    destruct (send_all (drop (S n) (b :: text)) sends) as [[ok sent] more] eqn:Es. cbn [fst snd] in *.
    exists rest. split; [|done]. by rewrite <- app_assoc, E, take_drop.
  - apply IH.
  - by exists (b :: text).
Qed.

Lemma reply_out text c :
  pending (reply text c) = pending c /\
  exists rest, out (reply text c) ++ rest = out c ++ text /\ (open (reply text c) = true -> rest = []).
Proof.
  unfold reply. destruct (send_all_sent (sends c) text) as (rest & E & Hok).
  destruct (send_all text (sends c)) as [[ok sent] more] eqn:Es. cbn [fst snd] in *.
  split; [done|]. exists rest. cbn. by rewrite <- app_assoc, E.
Qed.

(** ** Lines *)

Lemma cut_line_Some l line rest :
  cut_line l = Some (line, rest) -> l = line ++ newline :: rest /\ newline ∉ line.
Proof.
  unfold cut_line. revert line rest. induction l as [|c l IH]; intros line rest E; [done|]. cbn [span] in E.
  destruct (Z.eqb_spec c newline) as [->|Hc]; cbn [negb] in E.
  - injection E as <- <-. split; [done|]. apply not_elem_of_nil.
  - destruct (span _ l) as [a b]. destruct b as [|d b]; [done|]. injection E as <- <-.
    destruct (IH a b eq_refl) as [-> Hn]. split; [done|]. by apply not_elem_of_cons.
Qed.

Lemma cut_line_None l : cut_line l = None <-> newline ∉ l.
Proof.
  unfold cut_line. induction l as [|c l IH]; [split; [intros _; apply not_elem_of_nil|done]|].
  cbn [span]. rewrite not_elem_of_cons. destruct (Z.eqb_spec c newline) as [->|Hc]; cbn [negb].
  - split; [done|]. by intros [? _].
  - destruct (span _ l) as [a [|d b]].
    + split; [intros _; split; [done|by apply IH]|done].
    + split; [done|]. intros [_ Hn]. by apply IH in Hn.
Qed.

(** The lines of a text that are complete, and what follows the last one. *)
Fixpoint split_lines (w l : list Z) : list (list Z) * list Z :=
  match l with
  | [] => ([], w)
  | c :: l =>
    if c =? newline then let '(ls, r) := split_lines [] l in (w :: ls, r)
    else split_lines (w ++ [c]) l
  end.

Lemma split_lines_app l m : forall w,
  split_lines w (l ++ m) =
    let '(ls, r) := split_lines w l in let '(ms, q) := split_lines r m in (ls ++ ms, q).
Proof.
  induction l as [|c l IH]; intros w; cbn [app split_lines].
  - by destruct (split_lines w m).
  - destruct (c =? newline); [|apply IH]. rewrite IH. destruct (split_lines [] l) as [ls r].
    by destruct (split_lines r m).
Qed.

Lemma split_lines_none l : forall w, newline ∉ l -> split_lines w l = ([], w ++ l).
Proof.
  induction l as [|c l IH]; intros w Hn; cbn [split_lines]; [by rewrite app_nil_r|].
  apply not_elem_of_cons in Hn as [Hc Hn]. rewrite (proj2 (Z.eqb_neq c newline)) by done.
  by rewrite IH, <- app_assoc.
Qed.

Lemma split_lines_line line rest :
  newline ∉ line -> split_lines [] (line ++ newline :: rest) = (line :: (split_lines [] rest).1, (split_lines [] rest).2).
Proof.
  intros Hn. rewrite split_lines_app, split_lines_none by done. cbn [app split_lines].
  rewrite Z.eqb_refl. by destruct (split_lines [] rest).
Qed.

(** ** What becomes of a line *)

Inductive Outcome := Blank | Answered (text : list Z) | Queued | Refused.

Definition outcome_ok (line : list Z) (o : Outcome) : Prop :=
  match o with
  | Blank => chomp line = []
  | Answered text => (chomp line = str "status" /\ exists s, text = status_line s) \/ (chomp line = str "help" /\ text = help)
  | Queued | Refused => chomp line <> [] /\ chomp line <> str "status" /\ chomp line <> str "help"
  end.

Definition reply_text (o : Outcome) : list Z :=
  match o with
  | Blank => []
  | Answered text => text
  | Queued => str "OK queued" ++ [newline]
  | Refused => str "ERR command queue full" ++ [newline]
  end.

Definition accepted (handled : list (list Z * Outcome)) : list (list Z) :=
  omap (fun h => match h.2 with Queued => Some (chomp h.1) | _ => None end) handled.

Lemma handle_line_outcome line s c s' c' :
  handle_line line s c = (s', c') ->
  exists o, outcome_ok line o /\
    commands_ s' = commands_ s ++ accepted [(line, o)] /\
    (o = Refused -> MAX_QUEUED_COMMANDS <= Z.of_nat (length (commands_ s))) /\
    (Z.of_nat (length (commands_ s)) <= MAX_QUEUED_COMMANDS -> Z.of_nat (length (commands_ s')) <= MAX_QUEUED_COMMANDS) /\
    pending c' = pending c /\
    exists rest, out c' ++ rest = out c ++ reply_text o /\ (open c' = true -> rest = []) /\
      (o = Blank -> open c' = open c).
Proof.
  unfold handle_line. intros E.
  assert (forall o text, outcome_ok line o -> text = reply_text o -> o <> Blank ->
    pending (reply text c) = pending c /\ exists rest, out (reply text c) ++ rest = out c ++ reply_text o /\
      (open (reply text c) = true -> rest = []) /\ (o = Blank -> open (reply text c) = open c)) as R.
  { intros o text _ -> Hb. destruct (reply_out (reply_text o) c) as (Hp & rest & Er & Hok).
    split; [done|]. by exists rest. }
  destruct (is_nil (chomp line)) eqn:E1; [|destruct (decide (chomp line = str "status")) as [E2|E2];
    [|destruct (decide (chomp line = str "help")) as [E3|E3]; [|case_bool]]]; injection E as <- <-.
  - exists Blank. split_and!; try done.
    + unfold outcome_ok. by destruct (chomp line).
    + by rewrite app_nil_r.
    + exists []. by rewrite !app_nil_r.
  - assert (outcome_ok line (Answered (status_line s))) as Ho by (left; eauto).
    destruct (R _ _ Ho eq_refl) as [Hp Hr]; [done|].
    exists (Answered (status_line s)). split_and!; try done. by rewrite app_nil_r.
  - assert (outcome_ok line (Answered help)) as Ho by (right; eauto).
    destruct (R _ _ Ho eq_refl) as [Hp Hr]; [done|].
    exists (Answered help). split_and!; try done. by rewrite app_nil_r.
  - assert (outcome_ok line Queued) as Ho by (split_and!; try done; by intros X; rewrite X in E1).
    destruct (R _ _ Ho eq_refl) as [Hp Hr]; [done|].
    exists Queued. split_and!; try done.
    intros _. cbn. rewrite length_app. cbn. unfold MAX_QUEUED_COMMANDS in *. lia.
  - assert (outcome_ok line Refused) as Ho by (split_and!; try done; by intros X; rewrite X in E1).
    destruct (R _ _ Ho eq_refl) as [Hp Hr]; [done|].
    exists Refused. split_and!; try done; [by rewrite app_nil_r|lia].
Qed.

(** ** Runs of the two threads *)

Lemma received_snoc tr l : received (tr ++ [l]) = received tr ++ match l with Received chunk => chunk | _ => [] end.
Proof. unfold received. rewrite map_app, concat_app. cbn. by rewrite app_nil_r. Qed.

Lemma drained_snoc tr l : drained (tr ++ [l]) = drained tr ++ match l with Drained ls => ls | _ => [] end.
Proof. unfold drained. rewrite map_app, concat_app. cbn. by rewrite app_nil_r. Qed.

Lemma accepted_app a b : accepted (a ++ b) = accepted a ++ accepted b.
Proof. apply omap_app. Qed.

Definition text_of (handled : list (list Z * Outcome)) : list Z := concat (map (fun h => h.1 ++ [newline]) handled).
Definition replies (handled : list (list Z * Outcome)) : list Z := concat (map (fun h => reply_text h.2) handled).

Record delivered (q0 : list (list Z)) (tr : list Step) (x : ControlServer * Client)
    (handled : list (list Z * Outcome)) : Prop := mkDelivered {
  del_ok : Forall (fun h => outcome_ok h.1 h.2 /\ newline ∉ h.1) handled;
  del_text : received tr = text_of handled ++ pending x.2;
  del_queue : q0 ++ accepted handled = drained tr ++ commands_ x.1;
  del_refused : Refused ∈ map snd handled ->
    MAX_QUEUED_COMMANDS <= Z.of_nat (length q0) + Z.of_nat (length (accepted handled));
  del_bound : Z.of_nat (length q0) <= MAX_QUEUED_COMMANDS -> Z.of_nat (length (commands_ x.1)) <= MAX_QUEUED_COMMANDS;
  del_out : open x.2 = true -> out x.2 = replies handled;
  del_pending : open x.2 = true -> Z.of_nat (length (pending x.2)) <= MAX_PENDING_INPUT;
}.

Lemma receive_pending chunk c : pending (receive chunk c) = pending c ++ chunk.
Proof.
  unfold receive. case_bool; [|done].
  exact (proj1 (reply_out (str "ERR input buffer too large" ++ [newline]) (c <| pending := pending c ++ chunk |>))).
Qed.

Lemma receive_open chunk c :
  open (receive chunk c) = true ->
  out (receive chunk c) = out c /\ open c = true /\ Z.of_nat (length (pending c ++ chunk)) <= MAX_PENDING_INPUT.
Proof. unfold receive. cbn. case_bool; [done|]. cbn. intros ->. split_and!; [done..|lia]. Qed.

Lemma delivered_handled q0 tr s c handled s' c' :
  delivered q0 tr (s, c) handled -> open c = true -> next_line s c = Some (s', c') ->
  exists h, delivered q0 (tr ++ [Handled]) (s', c') (handled ++ [h]).
Proof.
  intros [Hok Ht Hq Hr Hb Ho Hp] Hopen E. unfold next_line in E. cbn [fst snd] in *.
  destruct (cut_line (pending c)) as [[line rest]|] eqn:Ec; [|done]. cbn in E. injection E as E.
  apply cut_line_Some in Ec as [Ep Hn].
  destruct (handle_line_outcome _ _ _ _ _ E) as (o & Hoo & Hc & Href & Hbb & Hpp & more & Hout & Hmore & Hblank).
  exists (line, o). split; cbn [fst snd].
  - apply Forall_app. by repeat constructor.
  - rewrite received_snoc, app_nil_r, Ht, Hpp. unfold text_of. rewrite map_app, concat_app. cbn.
    by rewrite Ep, app_nil_r, <- !app_assoc.
  - rewrite drained_snoc, app_nil_r, Hc, accepted_app, !app_assoc. by rewrite Hq.
  - rewrite map_app, elem_of_app, accepted_app, length_app. intros [Hin|Hin].
    + specialize (Hr Hin). lia.
    + apply list_elem_of_singleton in Hin. symmetry in Hin. specialize (Href Hin).
      assert (length (commands_ s) <= length q0 + length (accepted handled))%nat; [|lia].
      rewrite <- length_app, Hq, length_app. lia.
  - intros H0. auto.
  - intros Hop. rewrite (Hmore Hop), app_nil_r in Hout. rewrite Hout. cbn. rewrite Ho by done.
    unfold replies. rewrite map_app, concat_app. cbn. by rewrite app_nil_r.
  - intros _. rewrite Hpp. cbn. specialize (Hp Hopen). rewrite Ep, length_app in Hp. cbn [length] in Hp. lia.
Qed.

Lemma run_delivered s0 sends tr x :
  run (s0, new_client sends) tr x -> exists handled, delivered (commands_ s0) tr x handled.
Proof.
  remember (s0, new_client sends) as x0 eqn:E0. induction 1 as [x|x tr y l z _ IH Hs]; subst.
  - exists []. split; cbn; rewrite ?app_nil_r; try done. intros Hin. by apply not_elem_of_nil in Hin.
  - destruct (IH eq_refl) as [handled D]. destruct Hs as [s c chunk Hop Hcut _ _|s c s' c' Hop E|s c cs s' E|s c].
    + exists handled. destruct D as [Hok Ht Hq Hr Hb Ho Hp]. split; cbn [fst snd] in *; try done.
      * by rewrite received_snoc, receive_pending, Ht, app_assoc.
      * by rewrite drained_snoc, app_nil_r.
      * intros [-> [? _]]%receive_open. auto.
      * intros (_ & _ & H)%receive_open. by rewrite receive_pending.
    + destruct (delivered_handled _ _ _ _ _ _ _ D Hop E) as [h Dh]. by exists (handled ++ [h]).
    + exists handled. destruct D as [Hok Ht Hq Hr Hb Ho Hp]. injection E as <- <-. split; cbn [fst snd] in *; try done.
      * by rewrite received_snoc, app_nil_r.
      * rewrite drained_snoc. cbn. by rewrite app_nil_r.
    + exists handled. destruct D as [Hok Ht Hq Hr Hb Ho Hp]. split; cbn [fst snd] in *; try done.
      * by rewrite received_snoc, app_nil_r.
      * by rewrite drained_snoc, app_nil_r.
Qed.

Lemma split_text handled p :
  Forall (fun h => outcome_ok h.1 h.2 /\ newline ∉ h.1) handled ->
  split_lines [] (text_of handled ++ p) = (map fst handled ++ (split_lines [] p).1, (split_lines [] p).2).
Proof.
  induction 1 as [|h handled [_ Hn] _ IH]; [apply surjective_pairing|].
  unfold text_of in *. cbn [map concat]. rewrite <- !app_assoc. cbn [app]. rewrite split_lines_line by done.
  rewrite IH. done.
Qed.

(** C38: the socket delivers commands: however a client's bytes are cut into
    chunks and however the main thread's drains fall between its lines, the
    lines handled are those of the text, in order; each is answered by kind; a
    command is drained, or still waiting, exactly once and in order exactly
    when it was acknowledged; none is refused before 4096 were acknowledged or
    waiting; and neither the queue nor the unfinished input outgrows its
    bound. *)
Theorem commands_delivered s0 sends tr s c :
  run (s0, new_client sends) tr (s, c) ->
  exists handled,
    Forall (fun h => outcome_ok h.1 h.2) handled /\
    split_lines [] (received tr) = (map fst handled ++ (split_lines [] (pending c)).1, (split_lines [] (pending c)).2) /\
    commands_ s0 ++ accepted handled = drained tr ++ commands_ s /\
    (Refused ∈ map snd handled ->
       MAX_QUEUED_COMMANDS <= Z.of_nat (length (commands_ s0)) + Z.of_nat (length (accepted handled))) /\
    (Z.of_nat (length (commands_ s0)) <= MAX_QUEUED_COMMANDS -> Z.of_nat (length (commands_ s)) <= MAX_QUEUED_COMMANDS) /\
    (open c = true -> out c = replies handled /\ Z.of_nat (length (pending c)) <= MAX_PENDING_INPUT).
Proof.
  intros Hrun. destruct (run_delivered _ _ _ _ Hrun) as [handled [Hok Ht Hq Hr Hb Ho Hp]].
  exists handled. cbn [fst snd] in *. split_and!; try done; [|by rewrite Ht; apply split_text|by auto].
  eapply Forall_impl; [apply Hok|]. by intros h [? _].
Qed.

(** A line that fits in 60 KB is never taken for an overlong one. *)
Lemma short_line_received chunk c :
  open c = true -> Z.of_nat (length chunk) <= BUFFER ->
  Z.of_nat (length (pending c)) <= MAX_PENDING_INPUT - BUFFER -> open (receive chunk c) = true.
Proof.
  unfold BUFFER, MAX_PENDING_INPUT, receive. intros Ho Hc Hp. cbn. rewrite length_app.
  case_bool; [unfold MAX_PENDING_INPUT in *; lia|done].
Qed.

(** ** The commands a client can give *)

Inductive Action := Press | Down | Up.

Inductive Command :=
| Mouse (dx dy : Z) (buttons : option Z)
| KeyName (name : list Z) (action : Action)
| Checkpoint
| Screenshot (path : option (list Z))
| Quit.

Definition action_name (a : Action) : list Z :=
  match a with Press => str "press" | Down => str "down" | Up => str "up" end.

(** A command as a line. *)
Definition render (c : Command) : list Z :=
  match c with
  | Mouse dx dy b => str "mouse" ++ 32 :: print_int dx ++ 32 :: print_int dy ++ from_option (fun b => 32 :: dec b) [] b
  | KeyName name a => str "key" ++ 32 :: name ++ 32 :: action_name a
  | Checkpoint => str "checkpoint"
  | Screenshot path => str "screenshot" ++ from_option (fun p => 32 :: p) [] path
  | Quit => str "quit"
  end.

Section Obeyed.
Context `{Sdl}.
Context (screenshot_dir : list Z) (sim_time current_cycle : Z).

Definition valid (c : Command) : Prop :=
  match c with
  | Mouse dx dy b => INT_MIN <= dx <= INT_MAX /\ INT_MIN <= dy <= INT_MAX /\ from_option (fun b => 0 <= b < 8) True b
  | KeyName name _ => word name /\ is_Some (parse_named_key name)
  | Screenshot (Some path) => word path
  | _ => True
  end.

Definition key_events (k : Key) (a : Action) : list (Key * bool) :=
  match a with Press => press k | Down => [(k, true)] | Up => [(k, false)] end.

(** What a command does: a mouse command moves the mouse by its displacement
    with its buttons held, a key command presses or releases the key. *)
Definition effect (c : Command) (st st' : Control) : Prop :=
  match c with
  | Mouse dx dy b =>
    let held := default (ps2_mouse_buttons (ps2 st)) b in
    exists bytes ps,
      st' = st <| ps2 := ps2 st <| ps2_mouse_buttons := held |> <| mouse_byte_queue := mouse_byte_queue (ps2 st) ++ bytes |> |> /\
      decode_packets bytes = Some ps /\ total_x ps = dx /\ total_y ps = dy /\ Forall (fun p => p.1.1 = held) ps /\ ps <> []
  | KeyName name a =>
    exists k bytes,
      parse_named_key name = Some (keycode k) /\ st' = st <| ps2 := queue_ps2_bytes (ps2 st) bytes |> /\
      decode_keys (length bytes) bytes = Some (omap cap_event (key_events k a))
  | Checkpoint =>
    st' = st <| checkpoint_dir := if is_nil (checkpoint_dir st) then str "checkpoints" else checkpoint_dir st |>
             <| checkpoints := checkpoints st ++ [current_cycle] |>
  | Screenshot path =>
    let name := str "control_" ++ dec sim_time ++ str ".png" in
    st' = st <| requests := requests st ++
                 [default (if is_nil screenshot_dir then name else path_join screenshot_dir name) path] |>
  | Quit => st' = st <| running := false |>
  end.

Definition held_ok (st : Control) : Prop := 0 <= ps2_mouse_buttons (ps2 st) < 8.

(** The first word of a line. *)
Lemma operation_word w r : word w -> at_break r -> get_string [] (iss_of (w ++ r)) = (w, left_at r false).
Proof. intros Hw Hr. by apply (get_string_word [] []). Qed.

Lemma str_word s : forallb (fun c => negb (isspace c)) (str s) = true -> str s <> [] -> word (str s).
Proof.
  intros Hs Hn. split; [done|]. apply Forall_forall. intros c Hc. rewrite forallb_forall in Hs.
  specialize (Hs c (proj1 (list_elem_of_In _ _) Hc)). by apply negb_true_iff.
Qed.

Lemma next_string old w r : word w -> at_break r -> get_string old (left_at (32 :: w ++ r) false) = (w, left_at r false).
Proof. intros Hw Hr. apply (get_string_word old [32]); [done|by repeat constructor|done]. Qed.

Lemma next_int old n r : INT_MIN <= n <= INT_MAX -> at_break r -> get_int old (left_at (32 :: print_int n ++ r) false) = (n, left_at r false).
Proof. intros Hn Hr. apply (get_int_print old [32]); [done|by repeat constructor|done]. Qed.

Lemma next_unsigned old n : 0 <= n <= UINT_MAX -> get_unsigned old (left_at (32 :: dec n) false) = (n, left_at [] false).
Proof.
  intros Hn. rewrite <- (app_nil_r (dec n)) at 1. apply (get_unsigned_print old [32]); [done|by repeat constructor|done].
Qed.

Lemma queue_mouse_effect dx dy b (st : Control) :
  0 <= b < 8 ->
  exists st', (p ← queue_mouse_packet (ps2 st <| ps2_mouse_buttons := b |>) dx dy b; Some (st <| ps2 := p |>)) = Some st' /\
    effect (Mouse dx dy (Some b)) st st'.
Proof.
  intros Hb. destruct (mouse_queued (ps2 st <| ps2_mouse_buttons := b |>) dx dy b Hb) as (bytes & ps & E & H1).
  rewrite E. eexists. split; [reflexivity|]. exists bytes, ps. by split.
Qed.

Lemma mouse_obeyed dx dy b st :
  valid (Mouse dx dy b) -> held_ok st ->
  exists st', control_mouse (left_at (32 :: print_int dx ++ 32 :: print_int dy ++ from_option (fun b => 32 :: dec b) [] b) false) st = Some st' /\
    effect (Mouse dx dy b) st st'.
Proof.
  intros (Hx & Hy & Hb) Hh. unfold control_mouse.
  rewrite next_int by done. rewrite next_int by (done || by destruct b). destruct b as [b|]; cbn [from_option].
  - cbn [failbit left_at]. cbn in Hb. rewrite next_unsigned by (unfold UINT_MAX; lia).
    cbn [failbit left_at negb andb]. rewrite (proj2 (Z.ltb_ge 7 b)) by lia.
    rewrite u8_id by (unfold is_u8; lia). by apply queue_mouse_effect.
  - cbn [failbit left_at]. unfold get_unsigned. rewrite get_num_end. cbn [failbit negb andb].
    rewrite u8_id by (unfold held_ok in Hh; unfold is_u8; lia). by apply (queue_mouse_effect dx dy _ st).
Qed.

Lemma key_obeyed name a st :
  valid (KeyName name a) ->
  effect (KeyName name a) st (control_key (left_at (32 :: name ++ 32 :: action_name a) false) st).
Proof.
  intros [Hw [code Hc]]. unfold control_key. rewrite next_string by done.
  replace (32 :: action_name a) with (32 :: action_name a ++ []) by by rewrite app_nil_r.
  rewrite next_string; [|by destruct a; apply str_word|done].
  rewrite Hc. destruct (parse_named_key_known _ _ Hc) as [k ->].
  rewrite find_key_keycode. rewrite (bool_decide_eq_false_2 _) by done.
  assert (is_nil name = false) as -> by (by destruct Hw as [Hn _], name).
  assert (forall evs, known (map (fun e => (keycode e.1, e.2)) evs) = evs) as Hk.
  { induction evs as [|[j p] evs IH]; [done|]. unfold known in *. cbn [map omap list_omap fst snd].
    rewrite key_of_keycode. cbn. by f_equal. }
  assert (forall evs, exists bytes, st <| ps2 := queue_keys (map (fun e => (keycode e.1, e.2)) evs) (ps2 st) |> =
      st <| ps2 := queue_ps2_bytes (ps2 st) bytes |> /\
      decode_keys (length bytes) bytes = Some (omap cap_event evs)) as Hq.
  { intros evs. destruct (keys_decode (map (fun e => (keycode e.1, e.2)) evs) (ps2 st)) as (bytes & -> & Ed).
    rewrite Hk in Ed. by exists bytes. }
  unfold effect. exists k. destruct (Hq (key_events k a)) as (bytes & Eb & Ed). exists bytes.
  split; [done|]. split; [|done]. rewrite <- Eb. by destruct a.
Qed.

Lemma command_obeyed c st :
  valid c -> held_ok st ->
  exists st', process_command screenshot_dir sim_time current_cycle (render c) st = Some st' /\ effect c st st'.
Proof.
  intros Hv Hh. unfold process_command. destruct c as [dx dy b|name a| |path|]; cbn [render].
  - rewrite operation_word by (done || by apply str_word). rewrite decide_True by done. by apply mouse_obeyed.
  - rewrite operation_word by (done || by apply str_word). rewrite decide_False, decide_True by done.
    eexists. split; [reflexivity|]. by apply key_obeyed.
  - rewrite <- (app_nil_r (str "checkpoint")), operation_word by (done || by apply str_word).
    rewrite app_nil_r, !decide_False, decide_True by done. by eexists.
  - rewrite operation_word by (by apply str_word) || by destruct path.
    rewrite !decide_False, decide_True by done. eexists. split; [reflexivity|].
    unfold control_screenshot. destruct path as [path|]; cbn [from_option].
    + pose proof (next_string [] path [] Hv I) as E. rewrite app_nil_r in E. rewrite E. cbn [effect default].
      by destruct Hv as [Hn _], path.
    + rewrite get_string_end. cbn [effect default]. by destruct screenshot_dir.
  - rewrite <- (app_nil_r (str "quit")), operation_word by (done || by apply str_word).
    rewrite app_nil_r, !decide_False, decide_True by done. by eexists.
Qed.

(** *** A client's text *)

Fixpoint effects (cs : list Command) (st st' : Control) : Prop :=
  match cs with
  | [] => st' = st
  | c :: cs => exists st1, effect c st st1 /\ effects cs st1 st'
  end.

Lemma effect_held c st st' : valid c -> effect c st st' -> held_ok st -> held_ok st'.
Proof.
  unfold held_ok. destruct c as [dx dy b|name a| |path|]; cbn [effect].
  - intros (_ & _ & Hb) (bytes & ps & -> & _) Hh. by destruct b.
  - by intros _ (k & bytes & _ & -> & _).
  - by intros _ ->.
  - by intros _ ->.
  - by intros _ ->.
Qed.

Lemma commands_obeyed cs : forall st,
  Forall valid cs -> held_ok st ->
  exists st', process_commands screenshot_dir sim_time current_cycle (map render cs) st = Some st' /\ effects cs st st'.
Proof.
  induction cs as [|c cs IH]; intros st Hv Hh; [by exists st|]. apply Forall_cons in Hv as [Hc Hv].
  destruct (command_obeyed c st Hc Hh) as (st1 & E1 & Ef1).
  destruct (IH st1 Hv (effect_held _ _ _ Hc Ef1 Hh)) as (st' & E & Ef).
  exists st'. cbn [map process_commands]. rewrite E1. split; [done|]. by exists st1.
Qed.
End Obeyed.

Definition plain (x : Z) : Prop := x <> newline /\ x <> 13.

Lemma word_plain w : word w -> Forall plain w.
Proof.
  intros [_ Hw]. eapply Forall_impl; [apply Hw|]. unfold plain, newline, isspace. intros x Hx. cbn in Hx. lia.
Qed.

Lemma render_plain `{Sdl} c : valid c -> Forall plain (render c).
Proof.
  assert (forall s, forallb (fun c => negb (isspace c)) (str s) = true -> Forall plain (str s)) as Hs.
  { intros s Hs. destruct (str s) eqn:E; [done|]. rewrite <- E in *. apply word_plain, str_word; [done|by rewrite E]. }
  assert (forall w, word w -> Forall plain (32 :: w)) as Hb.
  { intros w Hw. constructor; [by split|]. by apply word_plain. }
  destruct c as [dx dy b|name a| |[path|]|]; cbn [render from_option]; intros Hv; try (by apply Hs).
  - apply Forall_app_2; [by apply Hs|]. rewrite !app_comm_cons.
    apply Forall_app_2; [apply Hb, print_int_word|]. apply Forall_app_2; [apply Hb, print_int_word|].
    destruct b as [b|]; [apply Hb, dec_word|constructor].
  - apply Forall_app_2; [by apply Hs|]. rewrite app_comm_cons.
    apply Forall_app_2; [apply Hb, Hv|]. apply Hb. destruct a; by apply str_word.
  - apply Forall_app_2; [by apply Hs|]. by apply Hb.
  - apply Forall_app_2; [by apply Hs|constructor].
Qed.

Lemma chomp_plain l : Forall plain l -> chomp l = l.
Proof.
  intros Hl. unfold chomp. destruct (last l) as [x|] eqn:E; [|done].
  assert (plain x) as [_ Hx].
  { apply last_Some in E as [l' ->]. apply Forall_app in Hl as [_ Hl]. by inversion Hl. }
  by repeat (case_match; try done).
Qed.

Lemma render_command c : render c <> [] /\ render c <> str "status" /\ render c <> str "help".
Proof. by destruct c. Qed.

(** Of lines that are commands, none refused, all are accepted. *)
Lemma accepted_length handled : (length (accepted handled) <= length handled)%nat.
Proof.
  induction handled as [|h l IH]; [done|]. unfold accepted in *. cbn [omap list_omap].
  destruct (h.2); cbn [length]; lia.
Qed.

Lemma refused_length handled :
  Refused ∈ map snd handled -> (length (accepted handled) < length handled)%nat.
Proof.
  induction handled as [|h l IH]; cbn [map]; intros Hin; [by apply not_elem_of_nil in Hin|].
  pose proof (accepted_length l) as Hl. unfold accepted in *. cbn [omap list_omap].
  apply elem_of_cons in Hin as [<-|Hin]; [cbn [length]; lia|]. specialize (IH Hin).
  destruct (h.2); cbn [length]; lia.
Qed.

Lemma accepted_all handled :
  Forall (fun h => outcome_ok h.1 h.2) handled -> Refused ∉ map snd handled ->
  Forall (fun h => chomp h.1 <> [] /\ chomp h.1 <> str "status" /\ chomp h.1 <> str "help") handled ->
  accepted handled = map (chomp ∘ fst) handled.
Proof.
  induction 1 as [|[line o] handled Ho _ IH]; intros Hr Hc; [done|].
  apply Forall_cons in Hc as [(Hb & Hs & Hh) Hc]. cbn [map snd] in Hr. apply not_elem_of_cons in Hr as [Hn Hr].
  unfold accepted in *. cbn [omap list_omap fst snd map] in *. destruct o; [done| |by f_equal; apply IH|done].
  by destruct Ho as [[? _]|[? _]].
Qed.

Lemma split_commands cs :
  Forall (fun c => newline ∉ render c) cs ->
  split_lines [] (concat (map (fun c => render c ++ [newline]) cs)) = (map render cs, []).
Proof.
  induction 1 as [|c cs Hc _ IH]; [done|]. cbn [map concat]. rewrite <- app_assoc. cbn [app].
  by rewrite split_lines_line, IH.
Qed.

(** C39: what a client asks for happens: when the text of at most 4096 valid
    commands has been received, in any chunks, and its lines have been handled,
    with drains anywhere between, the commands drained or waiting have, in
    order, their effects: the mouse packets carry each displacement with its
    buttons, the keyboard bytes are decoded to each key's press and release,
    and the checkpoints, screenshots and the end are as asked. *)
Theorem remote_control `{Sdl} screenshot_dir sim_time current_cycle cs s0 sends tr s c st
  (Hv : Forall valid cs) (Hh : held_ok st) (Hn : Z.of_nat (length cs) <= MAX_QUEUED_COMMANDS)
  (Hq : commands_ s0 = []) (Hrun : run (s0, new_client sends) tr (s, c))
  (Ht : received tr = concat (map (fun c => render c ++ [newline]) cs)) (Hp : cut_line (pending c) = None) :
  exists st',
    process_commands screenshot_dir sim_time current_cycle (drained tr ++ commands_ s) st = Some st' /\
    effects screenshot_dir sim_time current_cycle cs st st'.
Proof.
  assert (Forall (fun c => Forall plain (render c)) cs) as Hpl by (eapply Forall_impl; [apply Hv|apply render_plain]).
  destruct (run_delivered _ _ _ _ Hrun) as [handled [Hok Hte Hqu Hre _ _ _]]. cbn [fst snd] in *.
  pose proof (split_text handled (pending c) Hok) as Hs. rewrite <- Hte, Ht, split_commands in Hs.
  2: { eapply Forall_impl; [apply Hpl|]. intros x Hx Hin. cbn in Hx. rewrite Forall_forall in Hx.
       by destruct (Hx _ Hin). }
  apply cut_line_None in Hp. rewrite split_lines_none in Hs by done. injection Hs as Hl Hpe.
  rewrite app_nil_r in Hl.
  assert (Refused ∉ map snd handled) as Hr.
  { intros Hin. pose proof (refused_length _ Hin) as Hlt. specialize (Hre Hin). rewrite Hq in Hre. cbn in Hre.
    apply (f_equal length) in Hl. rewrite !length_map in Hl. lia. }
  assert (map (chomp ∘ fst) handled = map render cs) as Hm.
  { transitivity (map chomp (map fst handled)); [by rewrite map_map|]. rewrite <- Hl, map_map. apply map_ext_Forall.
    eapply Forall_impl; [apply Hpl|]. intros x. apply chomp_plain. }
  assert (Forall (fun l => l <> [] /\ l <> str "status" /\ l <> str "help") (map (chomp ∘ fst) handled)) as Hc.
  { rewrite Hm. apply Forall_map, Forall_true. intros x. apply render_command. }
  rewrite <- Hqu, Hq. cbn [app]. rewrite accepted_all; [|by eapply Forall_impl; [apply Hok|]; intros h [? _]|done|].
  2: { by apply Forall_map in Hc. }
  rewrite Hm. by apply commands_obeyed.
Qed.

#[local] Existing Instance demo_sdl.

Definition demo_control : Control := mkControl ps2_init true [] [] [].
Definition demo_server : ControlServer := mkServer [] 0 0 0 0.
Definition demo_commands : list Command := [KeyName (str "enter") Press; Mouse 5 (-3) (Some 1)].
Definition demo_chunks : list (list Z) := [str "key enter press" ++ newline :: str "mou"; str "se 5 -3 1" ++ [newline]].

(** Two chunks, the first command drained before the second arrives. *)
Definition demo_client : Client :=
  mkClient [] (str "OK queued" ++ newline :: str "OK queued" ++ [newline]) [] true.

Lemma run_cons x l y tr z : step x l y -> run y tr z -> run x (l :: tr) z.
Proof.
  intros Hs. induction 1 as [y|y tr u k z _ IH Hk].
  - apply (run_snoc _ [] x); [constructor|done].
  - rewrite app_comm_cons. eapply run_snoc; [by apply IH|done].
Qed.

Definition demo_left : ControlServer := mkServer [str "mouse 5 -3 1"] 0 0 0 0.

Definition demo_trace : list Step :=
  [Received (str "key enter press" ++ newline :: str "mou"); Handled; Drained [str "key enter press"];
   Received (str "se 5 -3 1" ++ [newline]); Handled].

Lemma demo_client_run :
  run (demo_server, new_client [Sent 10; Interrupted; Sent 4; Sent 6]) demo_trace
    (demo_left, demo_client).
Proof.
  eapply run_cons; [by apply step_received|]. eapply run_cons; [by apply step_handled|].
  eapply run_cons; [by apply step_drained|]. eapply run_cons; [by apply step_received|].
  eapply run_cons; [by apply step_handled|]. constructor.
Qed.

Lemma commands_delivered_witness :
  exists handled,
    Forall (fun h => outcome_ok h.1 h.2) handled /\
    split_lines [] (received demo_trace) =
      (map fst handled ++ (split_lines [] (pending demo_client)).1, (split_lines [] (pending demo_client)).2) /\
    commands_ demo_server ++ accepted handled = drained demo_trace ++ commands_ demo_left /\
    (Refused ∈ map snd handled ->
       MAX_QUEUED_COMMANDS <= Z.of_nat (length (commands_ demo_server)) + Z.of_nat (length (accepted handled))) /\
    (Z.of_nat (length (commands_ demo_server)) <= MAX_QUEUED_COMMANDS -> Z.of_nat (length (commands_ demo_left)) <= MAX_QUEUED_COMMANDS) /\
    (open demo_client = true -> out demo_client = replies handled /\ Z.of_nat (length (pending demo_client)) <= MAX_PENDING_INPUT).
Proof. exact (commands_delivered _ _ _ _ _ demo_client_run). Defined.

Lemma remote_control_witness :
  exists st',
    process_commands [] 7 9 (drained demo_trace ++ commands_ demo_left) demo_control = Some st' /\
    effects [] 7 9 demo_commands demo_control st'.
Proof.
  apply (remote_control [] 7 9 demo_commands demo_server [Sent 10; Interrupted; Sent 4; Sent 6] demo_trace
           demo_left demo_client demo_control).
  - apply Forall_cons. split; [|apply Forall_cons; split; [|constructor]].
    + split; [split; [done|by repeat constructor]|by eexists].
    + cbn. unfold INT_MIN, INT_MAX. lia.
  - unfold held_ok. cbn. lia.
  - cbn. unfold MAX_QUEUED_COMMANDS. lia.
  - reflexivity.
  - apply demo_client_run.
  - reflexivity.
  - reflexivity.
Defined.

(** The button mask is checked only when it could be read: a number that is
    none leaves no button held, one past 32 bits holds all three (and five bits
    that do not exist), where 8 is refused. *)
Lemma buttons_unchecked st :
  (exists st', process_command [] 0 0 (str "mouse 0 0 8") st = Some st' /\ ps2 st' = ps2 st) /\
  (exists st', process_command [] 0 0 (str "mouse 0 0 left") st = Some st' /\
     ps2_mouse_buttons (ps2 st') = 0 /\ mouse_byte_queue (ps2 st') = mouse_byte_queue (ps2 st) ++ [0x08; 0; 0]) /\
  (exists st', process_command [] 0 0 (str "mouse 0 0 4294967296") st = Some st' /\
     ps2_mouse_buttons (ps2 st') = 0xff /\ mouse_byte_queue (ps2 st') = mouse_byte_queue (ps2 st) ++ [0x0f; 0; 0]).
Proof. split_and!; eexists; split; reflexivity || split; reflexivity. Qed.
