(* ===== verification/Server.v ===== *)
(** * The control server's threads

    [ControlServer::start], [stop], [run] and the frame of [handle_client] of
    verilator/control_server.cpp: the server thread accepts one client at a
    time, the main thread stops it, and both close the descriptors they share
    through the atomics [listen_fd_] and [client_fd_].  Every access to an
    atomic and every call of a socket is a step; the threads interleave in
    any way.  What is done with a client's lines is in [Control].

    However they interleave, no descriptor is closed twice or left open, and
    [stop] returns: once it waits for the thread, the thread is in no call that
    could block and ends within eight steps ([stop_returns]).

    A descriptor is a number that the system may give out again once it is
    closed. *)
From S2P Require Import Prelude.

(** ** State *)

(** Where the server thread is. *)
Inductive Thread :=
| Loop                          (* while (!stopping_) of run *)
| Load                          (* listen_fd_.load() *)
| Accept (listener : nat)
| Check                         (* if (stopping_) break; behind a failed accept *)
| Publish (client : nat)        (* client_fd_ = client *)
| While (client : nat)          (* while (!stopping_) of handle_client *)
| Recv (client : nat)
| Lines (client : nat)          (* the lines received and their replies *)
| Leave (client : nat)          (* client_fd_.exchange(-1) == client *)
| CloseClient (client : nat)
| Exit                          (* listen_fd_.exchange(-1) *)
| CloseListener (listener : nat)
| Ended.

(** Where the main thread is: before [stop], in it, behind it. *)
Inductive Main :=
| Before
| TakeClient                    (* client_fd_.exchange(-1) *)
| ShutClient (client : nat) | DropClient (client : nat)
| TakeListener                  (* listen_fd_.exchange(-1) *)
| ShutListener (listener : nat) | DropListener (listener : nat)
| Join
| Stopped.

Record Sockets := mkSockets {
  stopping_ : bool;
  listen_fd_ : option nat;      (* [None] is -1 *)
  client_fd_ : option nat;
  live : gset nat;              (* the descriptors that are open *)
  shut : gset nat;              (* those that have been shut down *)
  server : Thread;
  main : Main
}.
#[export] Instance eta_Sockets : Eta Sockets := fun r =>
  mkSockets (stopping_ r) (listen_fd_ r) (client_fd_ r) (live r) (shut r) (server r) (main r).

(** The descriptor the next [close] of a thread is for. *)
Definition close_fd (fd : nat) (s : Sockets) : Sockets := s <| live := live s ∖ {[fd]} |> <| shut := shut s ∖ {[fd]} |>.

Definition shutdown (fd : nat) (s : Sockets) : Sockets := s <| shut := shut s ∪ {[fd]} |>.

(** ** [start] *)

Inductive StartError := already_running | socket_failed | invalid_address | bind_failed | listen_failed.

(** [thread_] runs until [stop] has joined it. *)
Definition joinable (s : Sockets) : bool := match main s with Stopped => false | _ => true end.

(** [fd]: what [socket] returns; the flags tell which calls succeed. *)
Definition start (fd : option nat) (address_ok bind_ok listen_ok : bool) (s : Sockets) : option StartError * Sockets :=
  if joinable s then (Some already_running, s)
  else
    match fd with
    | None => (Some socket_failed, s)
    | Some fd =>
      let s := s <| live := live s ∪ {[fd]} |> in
      if negb address_ok then (Some invalid_address, close_fd fd s)
      else if negb bind_ok then (Some bind_failed, close_fd fd s)
      else if negb listen_ok then (Some listen_failed, close_fd fd s)
      else (None, s <| stopping_ := false |> <| listen_fd_ := Some fd |> <| server := Loop |> <| main := Before |>)
    end.

(** ** The threads *)

Definition usable (fd : nat) (s : Sockets) : Prop := fd ∈ live s /\ fd ∉ shut s.

(** A step of [run] and [handle_client].  A call on a descriptor that is open
    and not shut down can succeed; it can fail at any time. *)
Inductive server_step (s : Sockets) : Sockets -> Prop :=
| s_loop : server s = Loop -> server_step s (s <| server := if stopping_ s then Exit else Load |>)
| s_load : server s = Load ->
    server_step s (s <| server := match listen_fd_ s with Some l => Accept l | None => Exit end |>)
| s_accept l c : server s = Accept l -> usable l s -> c ∉ live s ->
    server_step s (s <| live := live s ∪ {[c]} |> <| shut := shut s ∖ {[c]} |> <| server := Publish c |>)
| s_accept_eintr l : server s = Accept l -> server_step s (s <| server := Loop |>)
| s_accept_fails l : server s = Accept l -> server_step s (s <| server := Check |>)
| s_check : server s = Check -> server_step s (s <| server := if stopping_ s then Exit else Loop |>)
| s_publish c : server s = Publish c -> server_step s (s <| client_fd_ := Some c |> <| server := While c |>)
| s_while c : server s = While c -> server_step s (s <| server := if stopping_ s then Leave c else Recv c |>)
| s_recv_eintr c : server s = Recv c -> server_step s (s <| server := While c |>)
| s_recv c : server s = Recv c -> server_step s (s <| server := Lines c |>)
| s_recv_ends c : server s = Recv c -> server_step s (s <| server := Leave c |>)
| s_lines c : server s = Lines c -> server_step s (s <| server := While c |>)
| s_lines_fail c : server s = Lines c -> server_step s (s <| server := Leave c |>)
| s_leave c : server s = Leave c ->
    server_step s (s <| client_fd_ := None |> <| server := if decide (client_fd_ s = Some c) then CloseClient c else Loop |>)
| s_close c : server s = CloseClient c -> server_step s (close_fd c s <| server := Loop |>)
| s_exit : server s = Exit ->
    server_step s (s <| listen_fd_ := None |> <| server := match listen_fd_ s with Some l => CloseListener l | None => Ended end |>)
| s_close_listener l : server s = CloseListener l -> server_step s (close_fd l s <| server := Ended |>).

(** A step of [stop]; the destructor calls it again. *)
Inductive main_step (s : Sockets) : Sockets -> Prop :=
| m_stop : main s = Before \/ main s = Stopped -> main_step s (s <| stopping_ := true |> <| main := TakeClient |>)
| m_take_client : main s = TakeClient ->
    main_step s (s <| client_fd_ := None |> <| main := match client_fd_ s with Some c => ShutClient c | None => TakeListener end |>)
| m_shut_client c : main s = ShutClient c -> main_step s (shutdown c s <| main := DropClient c |>)
| m_drop_client c : main s = DropClient c -> main_step s (close_fd c s <| main := TakeListener |>)
| m_take_listener : main s = TakeListener ->
    main_step s (s <| listen_fd_ := None |> <| main := match listen_fd_ s with Some l => ShutListener l | None => Join end |>)
| m_shut_listener l : main s = ShutListener l -> main_step s (shutdown l s <| main := DropListener l |>)
| m_drop_listener l : main s = DropListener l -> main_step s (close_fd l s <| main := Join |>)
| m_join : main s = Join -> server s = Ended -> main_step s (s <| main := Stopped |>).

Inductive step (s s' : Sockets) : Prop :=
| by_server : server_step s s' -> step s s'
| by_main : main_step s s' -> step s s'.

(** Before the first [start]: no thread, nothing open. *)
Definition no_server : Sockets := mkSockets false None None ∅ ∅ Ended Stopped.

Definition started (s : Sockets) : Prop := exists fd, start (Some fd) true true true no_server = (None, s).

Definition reachable (s : Sockets) : Prop := exists s0, started s0 /\ rtc step s0 s.

(** A call that waits for something outside: [accept], [recv], and [send] of a reply. *)
Definition blocking (s : Sockets) : Prop :=
  match server s with Accept fd | Recv fd | Lines fd => usable fd s | _ => False end.

(** The descriptor that a thread is about to close. *)
Definition to_close (s : Sockets) : list nat :=
  match server s with CloseClient fd | CloseListener fd => [fd] | _ => [] end ++
  match main s with DropClient fd | DropListener fd => [fd] | _ => [] end.

(** The steps the server thread has left. *)
Definition steps_left (t : Thread) : nat :=
  match t with
  | Ended => 0 | CloseListener _ => 1 | Exit => 2 | Loop | Check => 3 | CloseClient _ | Accept _ => 4
  | Leave _ | Load => 5 | While _ => 6 | Lines _ | Publish _ => 7 | Recv _ => 8
  end.

(** ** Who holds which descriptor *)

Definition server_holds (t : Thread) : list nat :=
  match t with Publish fd | CloseClient fd | CloseListener fd => [fd] | _ => [] end.
Definition main_holds (m : Main) : list nat :=
  match m with ShutClient fd | DropClient fd | ShutListener fd | DropListener fd => [fd] | _ => [] end.
Definition held (s : Sockets) : list nat :=
  option_list (listen_fd_ s) ++ option_list (client_fd_ s) ++ server_holds (server s) ++ main_holds (main s).

(** Whether [stop] has taken the client, and the listener. *)
Definition client_taken (m : Main) : bool := match m with Before | TakeClient => false | _ => true end.
Definition listener_taken (m : Main) : bool :=
  match m with ShutListener _ | DropListener _ | Join | Stopped => true | _ => false end.

(** Every open descriptor is held once, and no other is. *)
Definition holders_ok (s : Sockets) : Prop := (forall fd, fd ∈ live s <-> fd ∈ held s) /\ NoDup (held s).

(** What the threads know of each other. *)
Record threads_ok (s : Sockets) : Prop := mkThreadsOk {
  to_stopping : stopping_ s = match main s with Before => false | _ => true end;
  to_client : match server s with
              | While c | Recv c | Lines c | Leave c => client_fd_ s = None \/ client_fd_ s = Some c
              | _ => client_fd_ s = None
              end;
  to_taken : match server s with Recv _ | Lines _ => client_taken (main s) = true -> client_fd_ s = None | _ => True end;
  to_listener : listener_taken (main s) = true -> listen_fd_ s = None;
  to_ended : match server s with Ended | CloseListener _ => listen_fd_ s = None | _ => True end;
  to_stopped : main s = Stopped -> server s = Ended
}.

(** ** The invariant *)

Lemma server_threads s s' : server_step s s' -> threads_ok s -> threads_ok s'.
Proof.
  intros Hstep [Hst Hc Ht Hli He Hsd]. destruct s as [st lf cf lv sh sv mn]; cbn in *; subst st.
  inversion Hstep; cbn in *; subst; (constructor; cbn; try done; try (intros ->; by specialize (Hsd eq_refl)));
    destruct mn; cbn in *; try done; try (by destruct lf); try (by case_decide); by eauto.
Qed.

Lemma main_threads s s' : main_step s s' -> threads_ok s -> threads_ok s'.
Proof.
  intros Hstep [Hst Hc Ht Hli He Hsd]. destruct s as [st lf cf lv sh sv mn]; cbn in *; subst st.
  inversion Hstep; cbn in *; subst; (constructor; cbn; try done);
    try (by destruct sv; auto); try (by destruct lf); try (by destruct cf); try (by destruct sv, lf).
Qed.

(** Descriptors that change hands, and those that are closed. *)
Lemma holders_moved (s s' : Sockets) : live s' = live s -> held s' ≡ₚ held s -> holders_ok s -> holders_ok s'.
Proof. intros E Hp [Hl Hn]. split; [intros fd; by rewrite Hp, E|by rewrite Hp]. Qed.

Lemma holder_closed (s s' : Sockets) fd : live s' = live s ∖ {[fd]} -> held s ≡ₚ fd :: held s' -> holders_ok s -> holders_ok s'.
Proof.
  intros E Hp [Hl Hn]. rewrite Hp in Hn. apply NoDup_cons in Hn as [Hf Hn]. split; [|done].
  intros x. rewrite E, elem_of_difference, elem_of_singleton, Hl, Hp, elem_of_cons. split; [tauto|].
  intros Hx. split; [by right|]. by intros ->.
Qed.

(** A descriptor that is new. *)
Lemma holder_opened (s s' : Sockets) fd : live s' = live s ∪ {[fd]} -> held s' ≡ₚ fd :: held s -> fd ∉ live s -> holders_ok s -> holders_ok s'.
Proof.
  intros E Hp Hf [Hl Hn]. split.
  - intros x. rewrite E, elem_of_union, elem_of_singleton, Hl, Hp, elem_of_cons. tauto.
  - rewrite Hp. apply NoDup_cons. by rewrite <- Hl.
Qed.

Ltac same_holders Hh := refine (holders_moved _ _ _ _ Hh); [reflexivity|unfold held; cbn].

Lemma server_holders s s' : server_step s s' -> threads_ok s -> holders_ok s -> holders_ok s'.
Proof.
  intros Hstep [Hst Hc Ht Hli He Hsd] Hh. destruct s as [st lf cf lv sh sv mn]; cbn in *; subst st.
  inversion Hstep; cbn in *; subst; cbn in *; subst; try (same_holders Hh; done).
  - same_holders Hh. by destruct mn.
  - same_holders Hh. by destruct lf.
  - refine (holder_opened _ _ c _ _ _ Hh); [reflexivity| |done]. unfold held; cbn.
    by rewrite Permutation_middle.
  - same_holders Hh. by destruct mn.
  - same_holders Hh. by destruct mn.
  - same_holders Hh. destruct Hc as [->| ->]; case_decide; done.
  - refine (holder_closed _ _ c _ _ Hh); [reflexivity|]. unfold held; cbn.
    by rewrite Permutation_middle.
  - same_holders Hh. by destruct lf.
  - refine (holder_closed _ _ l _ _ Hh); [reflexivity|]. done.
Qed.

Lemma main_holders s s' : main_step s s' -> threads_ok s -> holders_ok s -> holders_ok s'.
Proof.
  intros Hstep [Hst Hc Ht Hli He Hsd] Hh. destruct s as [st lf cf lv sh sv mn]; cbn in *; subst st.
  inversion Hstep; cbn in *; subst; try (same_holders Hh; done).
  - same_holders Hh. by destruct H as [-> | ->].
  - same_holders Hh. destruct cf as [c|]; [|done]. cbn. rewrite !app_nil_r. apply Permutation_app_head. symmetry. apply Permutation_cons_append.
  - refine (holder_closed _ _ c _ _ Hh); [reflexivity|]. unfold held; cbn. rewrite app_nil_r, !app_assoc. symmetry. apply Permutation_cons_append.
  - same_holders Hh. destruct lf as [l|]; [|done]. cbn. rewrite !app_nil_r, app_assoc. symmetry. apply Permutation_cons_append.
  - refine (holder_closed _ _ l _ _ Hh); [reflexivity|]. unfold held; cbn. rewrite app_nil_r, !app_assoc. symmetry. apply Permutation_cons_append.
Qed.

Lemma started_ok s : started s -> threads_ok s /\ holders_ok s.
Proof.
  intros [fd [= <-]]. split; [by constructor|]. split; [|by apply NoDup_singleton].
  intros x. cbn. rewrite union_empty_l_L, elem_of_singleton, list_elem_of_singleton. done.
Qed.

Lemma sockets_ok s : reachable s -> threads_ok s /\ holders_ok s.
Proof.
  intros (s0 & H0%started_ok & Hr). induction Hr as [|s1 s2 s3 Hstep _ IH]; [done|]. apply IH.
  destruct H0 as [Ht Hh], Hstep as [Hs|Hs].
  - split; [by eapply server_threads|by eapply server_holders].
  - split; [by eapply main_threads|by eapply main_holders].
Qed.

(** ** [stop] *)

Lemma to_close_held s : sublist (to_close s) (held s).
Proof.
  unfold to_close, held. apply sublist_inserts_l, sublist_inserts_l. apply sublist_app.
  - destruct (server s); cbn; try done; apply sublist_nil_l.
  - destruct (main s); cbn; try done; apply sublist_nil_l.
Qed.

(** Waiting for the thread, [stop] has closed what the thread could block on. *)
Lemma join_quiet s : threads_ok s -> holders_ok s -> main s = Join -> ~ blocking s.
Proof.
  intros [Hst Hc Ht Hli He Hsd] [Hl _] Hj. unfold blocking, usable. rewrite Hj in Ht, Hli. specialize (Hli eq_refl).
  unfold held in Hl. rewrite Hli, Hj in Hl.
  destruct (server s) as [| |l| | | |c|c| | | | |]; try (by intros []); intros [H _]; apply Hl in H; cbn in H.
  - rewrite Hc in H. cbn in H. by apply elem_of_nil in H.
  - rewrite (Ht eq_refl) in H. cbn in H. by apply elem_of_nil in H.
  - rewrite (Ht eq_refl) in H. cbn in H. by apply elem_of_nil in H.
Qed.

Lemma server_goes_on s : server s <> Ended -> exists s', server_step s s'.
Proof.
  intros Hs. destruct (server s) eqn:E; try done; eexists.
  - by apply s_loop.
  - by apply s_load.
  - by eapply s_accept_fails.
  - by apply s_check.
  - by eapply s_publish.
  - by eapply s_while.
  - by eapply s_recv_ends.
  - by eapply s_lines_fail.
  - by eapply s_leave.
  - by eapply s_close.
  - by apply s_exit.
  - by eapply s_close_listener.
Qed.

Lemma server_nears_end s s' : stopping_ s = true -> ~ blocking s -> server_step s s' ->
  (steps_left (server s') < steps_left (server s))%nat.
Proof.
  intros Hst Hb Hstep. unfold blocking in Hb.
  inversion Hstep as [E|E|l c E Hu Hc|l E|l E|E|c E|c E|c E|c E|c E|c E|c E|c E|c E|E|l E]; rewrite E in *; cbn; rewrite ?Hst; cbn; try lia.
  - destruct (listen_fd_ s); cbn; lia.
  - done.
  - case_decide; cbn; lia.
  - destruct (listen_fd_ s); cbn; lia.
Qed.

(** C16: however the server thread and [stop] interleave, a descriptor is only
    closed while it is open and by one thread, and [stop] returns: when it waits
    for the thread, the thread is in no call that could block and every step
    brings it nearer to its end, at most eight steps away; then everything that
    was opened is closed. *)
Theorem stop_returns s : reachable s ->
  NoDup (to_close s) /\ (forall fd, fd ∈ to_close s -> fd ∈ live s) /\
  (main s = Join ->
    ~ blocking s /\ (steps_left (server s) <= 8)%nat /\ (server s <> Ended -> exists s', server_step s s') /\
    forall s', server_step s s' -> (steps_left (server s') < steps_left (server s))%nat) /\
  (main s = Stopped -> server s = Ended /\ live s = ∅).
Proof.
  intros Hr. destruct (sockets_ok s Hr) as [Ht Hh]. pose proof (to_close_held s) as Hc. destruct Hh as [Hl Hn] eqn:Eh. clear Eh.
  split; [by eapply sublist_NoDup|]. split; [intros fd Hf; apply Hl; eapply elem_of_sublist; [exact Hf|exact Hc]|]. split.
  - intros Hj. pose proof (join_quiet s Ht Hh Hj) as Hb. split_and!; [done| |by apply server_goes_on|].
    + destruct (server s); cbn; lia.
    + intros s'. apply server_nears_end; [|done]. rewrite (to_stopping _ Ht), Hj. done.
  - intros Hm. pose proof (to_stopped _ Ht Hm) as He. split; [done|]. apply set_eq. intros fd. rewrite Hl.
    unfold held. pose proof (to_client _ Ht) as Hcl. rewrite He in *. rewrite Hcl, (to_listener _ Ht), Hm by (by rewrite Hm).
    cbn. by rewrite elem_of_nil, elem_of_empty.
Qed.

(** A [start] that fails leaves no descriptor behind. *)
Lemma start_fails fd a b l s : (forall x, fd = Some x -> x ∉ live s) -> (start fd a b l s).1 <> None ->
  live (start fd a b l s).2 = live s.
Proof.
  intros Hf. unfold start. destruct (joinable s); [done|]. destruct fd as [x|]; [|done]. specialize (Hf x eq_refl). cbv zeta.
  assert (live (close_fd x (s <| live := live s ∪ {[x]} |>)) = live s) as E by (cbn; set_solver).
  by destruct a, b, l.
Qed.

(** A client accepted when the thread is stopped: [stop] finds no client. *)
Definition late_client : Sockets := mkSockets true None None {[4%nat]} ∅ (Publish 4) Join.

Lemma stop_returns_witness : reachable late_client /\ ~ blocking late_client.
Proof.
  assert (reachable late_client) as Hr.
  { exists (mkSockets false (Some 3%nat) None {[3%nat]} ∅ Loop Before). split; [exists 3%nat; done|].
    eapply rtc_l; [apply by_server, s_loop; reflexivity|]. eapply rtc_l; [apply by_server, s_load; reflexivity|].
    eapply rtc_l; [apply by_server; apply (s_accept _ 3 4); [reflexivity|split; set_solver|set_solver]|].
    eapply rtc_l; [apply by_main, m_stop; by left|]. eapply rtc_l; [apply by_main, m_take_client; reflexivity|].
    eapply rtc_l; [apply by_main, m_take_listener; reflexivity|]. eapply rtc_l; [apply by_main; eapply m_shut_listener; reflexivity|].
    eapply rtc_l; [apply by_main; eapply m_drop_listener; reflexivity|]. cbn.
    match goal with |- rtc _ ?s _ => replace s with late_client; [apply rtc_refl|] end.
    unfold late_client, close_fd, shutdown. cbn. f_equal; set_solver. }
  destruct (stop_returns late_client Hr) as (_ & _ & H & _). split; [exact Hr|]. by apply H.
Defined.
