(* ===== verification/Window.v ===== *)
(** * The window's events

    The SDL event loop of verilator/main.cpp: the keys and the mouse of the
    window reach the PS/2 queues of [Input], but for the program's own hotkeys -
    the trace, the soft reset, a checkpoint, and the release of the captured
    mouse.

    While no hotkey is struck the guest gets every key and every movement of the
    captured mouse ([window_input]).  A key whose release looks like a hotkey
    stays down in the guest ([release_lost]).

    The window itself and its title are not modelled; an event tells the
    modifiers held when it is processed. *)
From S2P Require Import Prelude IdeTypes Text Input Keyboard Control.

(** The scan codes the loop names. *)
Inductive Scancode := SC_ESCAPE | SC_T | SC_R | SC_C | SC_OTHER.

#[global] Instance scancode_eq_dec : EqDecision Scancode.
Proof. solve_decision. Defined.

(** SDL_GetModState, either side of the keyboard. *)
Record Mods := mkMods { KMOD_GUI : bool; KMOD_CTRL : bool }.

(** [ours]: the event is for this window. *)
Inductive SdlEvent :=
| SDL_QUIT
| SDL_WINDOWEVENT_CLOSE (ours : bool)
| SDL_WINDOWEVENT_FOCUS_LOST (ours : bool)
| SDL_WINDOWEVENT_DAMAGED (ours : bool)        (* exposed, resized, size changed *)
| SDL_KEYDOWN (scancode : Scancode) (sym : Z) (repeat : bool) (mods : Mods)
| SDL_KEYUP (scancode : Scancode) (sym : Z) (mods : Mods)
| SDL_MOUSEBUTTONDOWN (ours : bool) (button : Z)
| SDL_MOUSEBUTTONUP (button : Z)
| SDL_MOUSEMOTION (xrel yrel : Z).

(** The locals of [main] that the events change. *)
Record Gui := mkGui {
  control : Control;
  mouse_captured : bool;
  gui_r_soft_reset_active : bool;
  gui_c_checkpoint_active : bool;
  sim_soft_reset_cycles : Z;
  trace_toggle : bool;
  present_dirty : bool;
}.
#[export] Instance eta_Gui : Eta Gui :=
  fun r => mkGui (control r) (mouse_captured r) (gui_r_soft_reset_active r) (gui_c_checkpoint_active r)
    (sim_soft_reset_cycles r) (trace_toggle r) (present_dirty r).

Definition trace_hotkey (scancode : Scancode) (mods : Mods) : bool :=
  bool_decide (scancode = SC_T) && (KMOD_GUI mods || KMOD_CTRL mods).

Section Window.
Context `{Sdl}.

Definition stop (g : Gui) : Gui := g <| control := control g <| running := false |> |>.

Definition gui_key (sym : Z) (pressed : bool) (g : Gui) : Gui :=
  g <| control := control g <| ps2 := queue_sdl_key (ps2 (control g)) sym pressed |> |>.

(** A hotkey checkpoint, into "checkpoints" when no directory was given. *)
Definition gui_checkpoint (cycle : Z) (c : Control) : Control :=
  c <| checkpoint_dir := if is_nil (checkpoint_dir c) then str "checkpoints" else checkpoint_dir c |>
    <| checkpoints := checkpoints c ++ [cycle] |>.

Definition key_down (cycle : Z) (scancode : Scancode) (sym : Z) (mods : Mods) (g : Gui) : Gui :=
  if mouse_captured g && bool_decide (scancode = SC_ESCAPE) then g <| mouse_captured := false |>
  else if trace_hotkey scancode mods then g <| trace_toggle := negb (trace_toggle g) |>
  else if bool_decide (scancode = SC_R) && KMOD_GUI mods then
    g <| gui_r_soft_reset_active := true |> <| sim_soft_reset_cycles := 8 |>
  else if bool_decide (scancode = SC_C) && KMOD_GUI mods then
    g <| gui_c_checkpoint_active := true |> <| control := gui_checkpoint cycle (control g) |>
  else gui_key sym true g.

Definition key_up (scancode : Scancode) (sym : Z) (mods : Mods) (g : Gui) : Gui :=
  if gui_r_soft_reset_active g && bool_decide (scancode = SC_R) then g <| gui_r_soft_reset_active := false |>
  else if gui_c_checkpoint_active g && bool_decide (scancode = SC_C) then g <| gui_c_checkpoint_active := false |>
  else if negb (trace_hotkey scancode mods) then gui_key sym false g
  else g.

(** A packet of the mouse with the buttons held. *)
Definition gui_mouse (dx dy : Z) (g : Gui) : option Gui :=
  p ← queue_mouse_packet (ps2 (control g)) dx dy (ps2_mouse_buttons (ps2 (control g)));
  Some (g <| control := control g <| ps2 := p |> |>).

Definition gui_button (button : Z) (pressed : bool) (g : Gui) : option Gui :=
  let p := ps2 (control g) in
  let p := p <| ps2_mouse_buttons := update_mouse_button (ps2_mouse_buttons p) button pressed |> in
  gui_mouse 0 0 (g <| control := control g <| ps2 := p |> |>).

(** The body of the SDL_PollEvent loop.  [None]: the negation of the least int
    overflows. *)
Definition handle_event (cycle : Z) (e : SdlEvent) (g : Gui) : option Gui :=
  match e with
  | SDL_QUIT => Some (stop g)
  | SDL_WINDOWEVENT_CLOSE ours => Some (if ours then stop g else g)
  | SDL_WINDOWEVENT_FOCUS_LOST ours => Some (if ours then g <| mouse_captured := false |> else g)
  | SDL_WINDOWEVENT_DAMAGED ours => Some (if ours then g <| present_dirty := true |> else g)
  | SDL_KEYDOWN scancode sym repeat mods => Some (if repeat then g else key_down cycle scancode sym mods g)
  | SDL_KEYUP scancode sym mods => Some (key_up scancode sym mods g)
  | SDL_MOUSEBUTTONDOWN ours button => if ours then gui_button button true (g <| mouse_captured := true |>) else Some g
  | SDL_MOUSEBUTTONUP button => if mouse_captured g then gui_button button false g else Some g
  | SDL_MOUSEMOTION xrel yrel =>
    if mouse_captured g && (negb (xrel =? 0) || negb (yrel =? 0)) then
      if yrel =? INT_MIN then None else gui_mouse xrel (- yrel) g
    else Some g
  end.

Fixpoint handle_events (cycle : Z) (es : list SdlEvent) (g : Gui) : option Gui :=
  match es with
  | [] => Some g
  | e :: es => g ← handle_event cycle e g; handle_events cycle es g
  end.

(** ** Without hotkeys *)

(** Events that no hotkey takes, whatever the state; buttons and movements are
    those SDL reports. *)
Definition plain_event (e : SdlEvent) : Prop :=
  match e with
  | SDL_KEYDOWN scancode _ repeat mods => repeat = true \/ (scancode <> SC_ESCAPE /\ KMOD_GUI mods = false /\ trace_hotkey scancode mods = false)
  | SDL_KEYUP scancode _ mods => trace_hotkey scancode mods = false
  | SDL_MOUSEMOTION _ yrel => yrel <> INT_MIN
  | _ => True
  end.

(** The keys of the events. *)
Definition event_keys (es : list SdlEvent) : list (Z * bool) :=
  omap (fun e => match e with
    | SDL_KEYDOWN _ sym false _ => Some (sym, true)
    | SDL_KEYUP _ sym _ => Some (sym, false)
    | _ => None
    end) es.

(** Whether the mouse is captured after an event that is no hotkey. *)
Definition capture (e : SdlEvent) (captured : bool) : bool :=
  match e with
  | SDL_WINDOWEVENT_FOCUS_LOST true => false
  | SDL_MOUSEBUTTONDOWN true _ => true
  | _ => captured
  end.

(** The way of the mouse while it is captured, the buttons in the end. *)
Fixpoint mouse_way (es : list SdlEvent) (captured : bool) : Z * Z :=
  match es with
  | [] => (0, 0)
  | e :: es =>
    let '(x, y) := mouse_way es (capture e captured) in
    match e with
    | SDL_MOUSEMOTION xrel yrel => if captured then (xrel + x, - yrel + y) else (x, y)
    | _ => (x, y)
    end
  end.

Fixpoint buttons_after (es : list SdlEvent) (captured : bool) (buttons : Z) : Z :=
  match es with
  | [] => buttons
  | e :: es =>
    buttons_after es (capture e captured)
      (match e with
       | SDL_MOUSEBUTTONDOWN true button => update_mouse_button buttons button true
       | SDL_MOUSEBUTTONUP button => if captured then update_mouse_button buttons button false else buttons
       | _ => buttons
       end)
  end.

Definition captured_after (es : list SdlEvent) (captured : bool) : bool := fold_left (fun c e => capture e c) es captured.

(** No hotkey is being held. *)
Definition no_hotkey (g : Gui) : Prop := gui_r_soft_reset_active g = false /\ gui_c_checkpoint_active g = false.

Lemma buttons_mask b button pressed : 0 <= b < 8 -> 0 <= update_mouse_button b button pressed < 8.
Proof.
  intros Hb. unfold update_mouse_button.
  assert (b = 0 \/ b = 1 \/ b = 2 \/ b = 3 \/ b = 4 \/ b = 5 \/ b = 6 \/ b = 7) as Hc by lia.
  repeat destruct Hc as [-> | Hc]; [..|subst b];
    destruct (button =? 1), (button =? 3), (button =? 2), pressed; (split; by vm_compute).
Qed.

Lemma decode_packets_app ps : forall a b qs,
  decode_packets a = Some ps -> decode_packets b = Some qs -> decode_packets (a ++ b) = Some (ps ++ qs).
Proof.
  induction ps as [|p ps IH]; intros [|f [|x [|y a]]] b qs Ha Hb; try done; cbn [decode_packets] in Ha.
  - by destruct (Z.testbit f 3), (decode_packets a).
  - cbn [app decode_packets]. destruct (Z.testbit f 3); [|done]. destruct (decode_packets a) as [l|] eqn:E; [|done].
    cbn in Ha. injection Ha as <- <-. by rewrite (IH a b qs).
Qed.

Lemma total_app ps qs : total_x (ps ++ qs) = total_x ps + total_x qs /\ total_y (ps ++ qs) = total_y ps + total_y qs.
Proof. unfold total_x, total_y. induction ps as [|p ps IH]; cbn; lia. Qed.

(** What events without hotkeys do. *)
Record passed (es : list SdlEvent) (g g' : Gui) : Prop := mkPassed {
  pa_keys : kbd_scancode_queue (ps2 (control g')) =
    kbd_scancode_queue (ps2 (control g)) ++ concat (map key_bytes (known (event_keys es)));
  pa_mouse : exists bytes ps,
    mouse_byte_queue (ps2 (control g')) = mouse_byte_queue (ps2 (control g)) ++ bytes /\
    decode_packets bytes = Some ps /\ (total_x ps, total_y ps) = mouse_way es (mouse_captured g);
  pa_buttons : ps2_mouse_buttons (ps2 (control g')) =
    buttons_after es (mouse_captured g) (ps2_mouse_buttons (ps2 (control g)));
  pa_mask : held_ok (control g');
  pa_captured : mouse_captured g' = captured_after es (mouse_captured g);
  pa_hotkey : no_hotkey g';
  pa_reset : sim_soft_reset_cycles g' = sim_soft_reset_cycles g;
  pa_trace : trace_toggle g' = trace_toggle g;
  pa_saved : checkpoints (control g') = checkpoints (control g);
}.

(** An event that queues nothing and captures nothing. *)
Lemma passed_none e g g' :
  event_keys [e] = [] -> mouse_way [e] (mouse_captured g) = (0, 0) ->
  ps2 (control g') = ps2 (control g) -> held_ok (control g) ->
  ps2_mouse_buttons (ps2 (control g)) = buttons_after [e] (mouse_captured g) (ps2_mouse_buttons (ps2 (control g))) ->
  mouse_captured g' = capture e (mouse_captured g) -> no_hotkey g' ->
  sim_soft_reset_cycles g' = sim_soft_reset_cycles g -> trace_toggle g' = trace_toggle g ->
  checkpoints (control g') = checkpoints (control g) -> passed [e] g g'.
Proof.
  intros Hk Hm Hp Hh Hb Hc Hn Hr Ht Hs. split; try done.
  - by rewrite Hk, Hp, app_nil_r.
  - exists [], []. by rewrite Hp, app_nil_r, Hm.
  - by rewrite Hp.
  - unfold held_ok. by rewrite Hp.
Qed.

Lemma passed_key e sym pressed g :
  event_keys [e] = [(sym, pressed)] -> mouse_way [e] (mouse_captured g) = (0, 0) ->
  (forall b, buttons_after [e] (mouse_captured g) b = b) -> capture e (mouse_captured g) = mouse_captured g ->
  held_ok (control g) -> no_hotkey g -> passed [e] g (gui_key sym pressed g).
Proof.
  intros Hk Hm Hb Hc Hh Hn. assert (ps2 (control (gui_key sym pressed g)) =
    queue_ps2_bytes (ps2 (control g)) (concat (map key_bytes (known [(sym, pressed)])))) as E.
  { exact (queue_keys_bytes [(sym, pressed)] (ps2 (control g))). }
  split; try done.
  - by rewrite E, Hk.
  - exists [], []. by rewrite E, app_nil_r, Hm.
  - by rewrite E, Hb.
  - unfold held_ok. by rewrite E.
Qed.

(** An event that queues packets with the buttons [b]. *)
Lemma passed_mouse e dx dy b g g0 :
  event_keys [e] = [] -> mouse_way [e] (mouse_captured g) = (dx, dy) ->
  b = buttons_after [e] (mouse_captured g) (ps2_mouse_buttons (ps2 (control g))) ->
  0 <= b < 8 -> ps2_mouse_buttons (ps2 (control g0)) = b ->
  kbd_scancode_queue (ps2 (control g0)) = kbd_scancode_queue (ps2 (control g)) ->
  mouse_byte_queue (ps2 (control g0)) = mouse_byte_queue (ps2 (control g)) ->
  mouse_captured g0 = capture e (mouse_captured g) -> no_hotkey g0 ->
  sim_soft_reset_cycles g0 = sim_soft_reset_cycles g -> trace_toggle g0 = trace_toggle g ->
  checkpoints (control g0) = checkpoints (control g) ->
  exists g', gui_mouse dx dy g0 = Some g' /\ passed [e] g g'.
Proof.
  intros Hk Hm Hb Hmask Hb0 Hq Hmq Hc Hn Hr Ht Hs. unfold gui_mouse.
  destruct (mouse_queued (ps2 (control g0)) dx dy (ps2_mouse_buttons (ps2 (control g0)))) as (bytes & ps & E & Hd & Hx & Hy & _);
    [by rewrite Hb0|]. rewrite E. eexists. split; [reflexivity|]. split; try done.
  - rewrite Hk. cbn. by rewrite app_nil_r.
  - exists bytes, ps. rewrite Hm, Hx, Hy, <- Hmq. done.
  - rewrite <- Hb. done.
  - unfold held_ok. cbn. by rewrite Hb0.
Qed.

Lemma event_passed cycle e g :
  plain_event e -> no_hotkey g -> held_ok (control g) ->
  exists g', handle_event cycle e g = Some g' /\ passed [e] g g'.
Proof.
  intros Hp Hn Hh. assert (Hn' := Hn). destruct Hn' as [Hr Hc].
  assert (forall g', ps2 (control g') = ps2 (control g) -> event_keys [e] = [] -> mouse_way [e] (mouse_captured g) = (0, 0) ->
    ps2_mouse_buttons (ps2 (control g)) = buttons_after [e] (mouse_captured g) (ps2_mouse_buttons (ps2 (control g))) ->
    mouse_captured g' = capture e (mouse_captured g) -> no_hotkey g' ->
    sim_soft_reset_cycles g' = sim_soft_reset_cycles g -> trace_toggle g' = trace_toggle g ->
    checkpoints (control g') = checkpoints (control g) -> exists g1, Some g' = Some g1 /\ passed [e] g g1) as Hnone.
  { intros g' ? ? ? ? ? ? ? ? ?. exists g'. split; [done|]. by apply passed_none. }
  destruct e as [|[]|[]|[]|sc sym [] mods|sc sym mods|[] button|button|dx dy]; cbn [handle_event];
    try (apply Hnone; done).
  - destruct Hp as [Hp|(Hsc & Hg & Ht)]; [done|]. unfold key_down.
    rewrite (bool_decide_false (sc = SC_ESCAPE)), andb_false_r, Ht, Hg, !andb_false_r by done.
    eexists. split; [done|]. by apply passed_key.
  - unfold key_up. cbn in Hp. rewrite Hr, Hc, Hp. cbn [andb negb]. eexists. split; [done|]. by apply passed_key.
  - eapply passed_mouse; try done. by apply buttons_mask.
  - destruct (mouse_captured g) eqn:Em.
    + eapply (passed_mouse _ 0 0 (update_mouse_button (ps2_mouse_buttons (ps2 (control g))) button false));
        rewrite ?Em; try done. by apply buttons_mask.
    + apply Hnone; by rewrite ?Em.
  - destruct (mouse_captured g) eqn:Em; cbn [andb]; [|apply Hnone; by rewrite ?Em].
    destruct (negb (dx =? 0) || negb (dy =? 0)) eqn:Ez.
    + cbn in Hp. rewrite (proj2 (Z.eqb_neq dy INT_MIN)) by done.
      eapply (passed_mouse _ dx (- dy) (ps2_mouse_buttons (ps2 (control g)))); rewrite ?Em; try done.
      cbn. by rewrite !Z.add_0_r.
    + apply Hnone; rewrite ?Em; try done. cbn. f_equal; lia.
Qed.

Lemma event_keys_cons e es : event_keys (e :: es) = event_keys [e] ++ event_keys es.
Proof. exact (omap_app _ [e] es). Qed.

Lemma mouse_way_cons e es c :
  mouse_way (e :: es) c =
    ((mouse_way [e] c).1 + (mouse_way es (capture e c)).1, (mouse_way [e] c).2 + (mouse_way es (capture e c)).2).
Proof.
  cbn [mouse_way]. destruct (mouse_way es (capture e c)) as [x y].
  destruct e; try done. destruct c; cbn; f_equal; lia.
Qed.

Lemma passed_cons e es g g1 g2 : passed [e] g g1 -> passed es g1 g2 -> passed (e :: es) g g2.
Proof.
  intros [K1 (b1 & p1 & M1 & D1 & W1) B1 _ C1 _ R1 T1 S1] [K2 (b2 & p2 & M2 & D2 & W2) B2 H2 C2 N2 R2 T2 S2].
  cbn in B1, C1. split; try done.
  - rewrite K2, K1, <- app_assoc, <- concat_app, <- map_app. do 3 f_equal.
    unfold known. by rewrite (event_keys_cons e es), omap_app.
  - exists (b1 ++ b2), (p1 ++ p2). destruct (total_app p1 p2) as [-> ->].
    split_and!; [by rewrite M2, M1, app_assoc|by apply decode_packets_app|].
    rewrite mouse_way_cons, <- W1, <- C1, <- W2. done.
  - by rewrite B2, B1, C1.
  - rewrite C2, C1. done.
  - by rewrite R2.
  - by rewrite T2.
  - by rewrite S2.
Qed.

Lemma events_passed cycle es : forall g,
  Forall plain_event es -> no_hotkey g -> held_ok (control g) ->
  exists g', handle_events cycle es g = Some g' /\ passed es g g'.
Proof.
  induction es as [|e es IH]; intros g He Hn Hh.
  - exists g. split; [done|]. split; try done; [by rewrite app_nil_r|]. exists [], []. by rewrite app_nil_r.
  - inversion He; subst. destruct (event_passed cycle e g) as (g1 & E & P1); [done..|].
    destruct (IH g1) as (g2 & E2 & P2); [done|apply P1..|]. exists g2. cbn. rewrite E.
    split; [done|]. by eapply passed_cons.
Qed.

(** C21: what is done in the window reaches the guest: events among which no
    hotkey is struck are all handled; the keyboard bytes queued are decoded to
    the keys pressed and released in order, and the mouse packets to exactly
    the way of the mouse while it was captured, by clicking into the window,
    with the buttons as they are in the end; and none of them resets the
    system, changes the trace or saves a checkpoint. *)
Theorem window_input cycle es g :
  Forall plain_event es -> no_hotkey g -> held_ok (control g) ->
  exists g' bytes mbytes ps,
    handle_events cycle es g = Some g' /\
    kbd_scancode_queue (ps2 (control g')) = kbd_scancode_queue (ps2 (control g)) ++ bytes /\
    decode_keys (length bytes) bytes = Some (omap cap_event (known (event_keys es))) /\
    mouse_byte_queue (ps2 (control g')) = mouse_byte_queue (ps2 (control g)) ++ mbytes /\
    decode_packets mbytes = Some ps /\ (total_x ps, total_y ps) = mouse_way es (mouse_captured g) /\
    ps2_mouse_buttons (ps2 (control g')) = buttons_after es (mouse_captured g) (ps2_mouse_buttons (ps2 (control g))) /\
    mouse_captured g' = captured_after es (mouse_captured g) /\
    sim_soft_reset_cycles g' = sim_soft_reset_cycles g /\ trace_toggle g' = trace_toggle g /\
    checkpoints (control g') = checkpoints (control g).
Proof.
  intros He Hn Hh. destruct (events_passed cycle es g He Hn Hh) as (g' & E & [Pk (mb & ps & Hm & Hd & Hw) Pb _ Pc _ Pr Pt Ps]).
  exists g', (concat (map key_bytes (known (event_keys es)))), mb, ps.
  split_and!; try done. apply decode_keys_bytes.
Qed.

(** A release that looks like a hotkey is lost: the T that was typed as a
    letter stays down in the guest when Ctrl is held as it is let go. *)
Lemma release_lost cycle sym g :
  no_hotkey g ->
  exists g', handle_events cycle
      [SDL_KEYDOWN SC_T sym false (mkMods false false); SDL_KEYUP SC_T sym (mkMods false true)] g = Some g' /\
    ps2 (control g') = queue_sdl_key (ps2 (control g)) sym true.
Proof.
  intros [Hr Hc]. exists (gui_key sym true g). split; [|done]. cbn [handle_events handle_event mbind option_bind].
  assert (key_down cycle SC_T sym (mkMods false false) g = gui_key sym true g) as ->.
  { unfold key_down, trace_hotkey. by rewrite bool_decide_false, andb_false_r. }
  unfold key_up. cbn [gui_key gui_r_soft_reset_active gui_c_checkpoint_active set_field].
  by rewrite !(bool_decide_false (SC_T = _)), !andb_false_r.
Qed.

(** The soft reset's hotkey does not reach the guest, pressed or released. *)
Lemma reset_hotkey cycle sym g mods :
  no_hotkey g -> KMOD_GUI mods = true ->
  exists g', handle_events cycle [SDL_KEYDOWN SC_R sym false mods; SDL_KEYUP SC_R sym (mkMods false false)] g = Some g' /\
    ps2 (control g') = ps2 (control g) /\ sim_soft_reset_cycles g' = 8 /\ no_hotkey g'.
Proof.
  intros [Hr Hc] Hm. eexists. split; [reflexivity|]. unfold handle_event, key_down, key_up, trace_hotkey.
  rewrite !bool_decide_false by done. rewrite Hm, andb_false_r. cbn. done.
Qed.
End Window.

(** ** Typing and clicking *)

#[local] Existing Instance demo_sdl.

Definition demo_gui : Gui := mkGui demo_control false false false 0 false false.

Definition demo_window : list SdlEvent :=
  [SDL_KEYDOWN SC_OTHER (keycode SDLK_a) false (mkMods false false);
   SDL_MOUSEBUTTONDOWN true 1; SDL_MOUSEMOTION 4 (-2);
   SDL_KEYUP SC_OTHER (keycode SDLK_a) (mkMods false false); SDL_MOUSEBUTTONUP 1].

Lemma window_input_witness :
  Forall plain_event demo_window /\ no_hotkey demo_gui /\ held_ok (control demo_gui) /\
  exists g' bytes mbytes ps,
    handle_events 0 demo_window demo_gui = Some g' /\
    kbd_scancode_queue (ps2 (control g')) = kbd_scancode_queue (ps2 (control demo_gui)) ++ bytes /\
    decode_keys (length bytes) bytes = Some (omap cap_event (known (event_keys demo_window))) /\
    mouse_byte_queue (ps2 (control g')) = mouse_byte_queue (ps2 (control demo_gui)) ++ mbytes /\
    decode_packets mbytes = Some ps /\ (total_x ps, total_y ps) = mouse_way demo_window (mouse_captured demo_gui) /\
    ps2_mouse_buttons (ps2 (control g')) =
      buttons_after demo_window (mouse_captured demo_gui) (ps2_mouse_buttons (ps2 (control demo_gui))) /\
    mouse_captured g' = captured_after demo_window (mouse_captured demo_gui) /\
    sim_soft_reset_cycles g' = sim_soft_reset_cycles demo_gui /\ trace_toggle g' = trace_toggle demo_gui /\
    checkpoints (control g') = checkpoints (control demo_gui).
Proof.
  assert (Forall plain_event demo_window) as H1.
  { unfold demo_window. rewrite !Forall_cons. split_and!; try done. right. by split_and!. }
  assert (no_hotkey demo_gui) as H2 by done.
  assert (held_ok (control demo_gui)) as H3 by done.
  split_and!; [done..|]. by apply (window_input 0 demo_window demo_gui).
Defined.
