(* ===== verification/Ddr.v ===== *)
(** * The DDR memory of the simulator

    The vectors of verilator/main.cpp that back the core's memory port and
    framebuffer ([ddram_mem], [fb_mem]), the KV260 backend's accesses to them,
    the Avalon slave that [step] implements around the model's rising edge with
    its wait-request injection, and the staging of the ROMs. *)
From S2P Require Import Prelude.

Definition DDR_SHMEM_BASE : Z := 0x30000000.
Definition DDR_SIZE : Z := 16 * 1024 * 1024.
Definition FB_BASE_BYTE : Z := 0x3F800000.
Definition FB_MEM_SIZE : Z := 4 * 1024 * 1024.

(** The globals of the memory model. *)
Record Ddr := mkDdr {
  ddram_mem : list Z;
  fb_mem : list Z;
  ddram_resp_valid : bool;
  ddram_resp_data : Z;          (* uint64_t *)
  ddr_busy_period : Z;          (* int *)
  ddr_busy_len : Z;             (* int *)
  ddr_busy_phase : Z;           (* uint64_t *)
  ddr_busy_rand_pct : Z;        (* int *)
  ddr_busy_rand_state : Z;      (* uint64_t *)
  ddr_busy_rand_now : bool;
  ddr_dropped_reads : Z;        (* uint64_t *)
  prev_blocked : bool;          (* static local of [step] *)
  ddr_pre_rd : bool;
  ddr_pre_we : bool;
  ddr_pre_busy : bool;
  ddr_pre_addr : Z;             (* uint32_t *)
  ddr_pre_be : Z;               (* uint32_t *)
  ddr_pre_din : Z               (* uint64_t *)
}.

#[export] Instance eta_Ddr : Eta Ddr :=
  fun r => mkDdr (ddram_mem r) (fb_mem r) (ddram_resp_valid r) (ddram_resp_data r)
    (ddr_busy_period r) (ddr_busy_len r) (ddr_busy_phase r) (ddr_busy_rand_pct r)
    (ddr_busy_rand_state r) (ddr_busy_rand_now r) (ddr_dropped_reads r) (prev_blocked r)
    (ddr_pre_rd r) (ddr_pre_we r) (ddr_pre_busy r) (ddr_pre_addr r) (ddr_pre_be r) (ddr_pre_din r).

Definition ddr_init : Ddr :=
  mkDdr (replicate (Z.to_nat DDR_SIZE) 0) (replicate (Z.to_nat FB_MEM_SIZE) 0) false 0
    0 1 0 0 0x9E3779B97F4A7C15 false 0 false false false false 0 0 0.

Definition msize (m : list Z) : Z := Z.of_nat (length m).

(** The core's side of the memory port. *)
Record Request := mkRequest {
  ddram_rd : bool;
  ddram_we : bool;
  ddram_addr : Z;    (* in units of eight bytes *)
  ddram_be : Z;
  ddram_din : Z
}.

(** ** [kv260_memory_read], [kv260_memory_write] *)

(** The byte of the ternary chain. *)
Definition kv260_byte (d : Ddr) (a : Z) : Z :=
  if a <? msize (ddram_mem d) then znth 0 (ddram_mem d) a
  else if (0x0f800000 <=? a) && (a - 0x0f800000 <? msize (fb_mem d)) then znth 0 (fb_mem d) (a - 0x0f800000)
  else 0.

Definition kv260_memory_read (d : Ddr) (address : Z) : Z :=
  foldl (fun value b => Z.lor value (Z.shiftl (kv260_byte d (u32 (address + b))) (b * 8))) 0 [0; 1; 2; 3].

Definition kv260_lane (data mask : Z) (d : Ddr) (address b : Z) : Ddr :=
  if negb (Z.land mask (Z.shiftl 1 b) =? 0) then
    let a := u32 (address + b) in
    if a <? msize (ddram_mem d) then
      d <| ddram_mem := <[Z.to_nat a := u8 (Z.shiftr data (b * 8))]> (ddram_mem d) |>
    else if (0x0f800000 <=? a) && (a - 0x0f800000 <? msize (fb_mem d)) then
      d <| fb_mem := <[Z.to_nat (a - 0x0f800000) := u8 (Z.shiftr data (b * 8))]> (fb_mem d) |>
    else d
  else d.

Definition kv260_memory_write (d : Ddr) (address data mask : Z) : Ddr :=
  foldl (fun d b => kv260_lane data mask d address b) d [0; 1; 2; 3].

(** ** Wait-request injection *)

Definition ddram_busy_now (d : Ddr) : bool :=
  if 0 <? ddr_busy_rand_pct d then ddr_busy_rand_now d
  else if ddr_busy_period d <=? 0 then false
  else ddr_busy_phase d mod u64 (ddr_busy_period d) <? u64 (ddr_busy_len d).

(** The draw of one cycle: a 64-bit xorshift. *)
Definition xorshift (x : Z) : Z :=
  let x := Z.lxor x (u64 (Z.shiftl x 13)) in
  let x := Z.lxor x (Z.shiftr x 7) in
  Z.lxor x (u64 (Z.shiftl x 17)).

Definition draw (d : Ddr) : Ddr :=
  if 0 <? ddr_busy_rand_pct d then
    let d := d <| ddr_busy_rand_state := xorshift (ddr_busy_rand_state d) |> in
    d <| ddr_busy_rand_now := Z.shiftr (ddr_busy_rand_state d) 33 mod 100 <? ddr_busy_rand_pct d |>
  else d.

(** ** The slave *)

(** The request as the slave sees it across the coming rising edge; [busy] is
    the wait request driven for this step. *)
Definition latch (d : Ddr) (r : Request) (busy : bool) : Ddr :=
  d <| ddr_pre_rd := ddram_rd r |> <| ddr_pre_we := ddram_we r |> <| ddr_pre_busy := busy |>
    <| ddr_pre_addr := u32 (ddram_addr r) |> <| ddr_pre_be := u32 (ddram_be r) |>
    <| ddr_pre_din := u64 (ddram_din r) |>.

(** The Avalon check on a read that was presented into a busy cycle. *)
Definition check_dropped (d : Ddr) : Ddr :=
  let d := if prev_blocked d && negb (ddr_pre_rd d)
           then d <| ddr_dropped_reads := u64 (ddr_dropped_reads d + 1) |> else d in
  d <| prev_blocked := ddr_pre_rd d && ddr_pre_busy d |>.

(** The memory a read is served from, and the offset in it. *)
Definition read_source (d : Ddr) (byte_addr : Z) : option (list Z * Z) :=
  if (FB_BASE_BYTE <=? byte_addr) && (byte_addr <? FB_BASE_BYTE + FB_MEM_SIZE) then
    Some (fb_mem d, byte_addr - FB_BASE_BYTE)
  else if (DDR_SHMEM_BASE <=? byte_addr) && (byte_addr <? DDR_SHMEM_BASE + msize (ddram_mem d)) then
    Some (ddram_mem d, byte_addr - DDR_SHMEM_BASE)
  else None.

Definition lanes : list Z := [0; 1; 2; 3; 4; 5; 6; 7].

Definition read_data (d : Ddr) (byte_addr : Z) : Z :=
  match read_source d byte_addr with
  | Some (memory, offset) =>
    foldl (fun data i => if offset + i <? msize memory
                         then Z.lor data (Z.shiftl (znth 0 memory (offset + i)) (8 * i)) else data) 0 lanes
  | None => 0
  end.

Definition slave_read (d : Ddr) : Ddr :=
  let read_accepted := ddr_pre_rd d && negb (ddr_pre_busy d) in
  if read_accepted then
    d <| ddram_resp_data := read_data d (Z.shiftl (ddr_pre_addr d) 3) |> <| ddram_resp_valid := true |>
  else if ddram_resp_valid d then d <| ddram_resp_valid := false |>
  else d.

(** One byte lane of a write; [None] is a store past the end of [fb_mem],
    whose size the code does not test. *)
Definition write_lane (d : Ddr) (byte_addr be din i : Z) : option Ddr :=
  if Z.land (Z.shiftr be i) 1 =? 0 then Some d
  else
    let b := Z.land (Z.shiftr din (8 * i)) 0xFF in
    let a := byte_addr + i in
    if (FB_BASE_BYTE <=? a) && (a <? FB_BASE_BYTE + FB_MEM_SIZE) then
      m ← zupdate (fb_mem d) (a - FB_BASE_BYTE) b; Some (d <| fb_mem := m |>)
    else if (DDR_SHMEM_BASE <=? a) && (a - DDR_SHMEM_BASE <? msize (ddram_mem d)) then
      m ← zupdate (ddram_mem d) (a - DDR_SHMEM_BASE) b; Some (d <| ddram_mem := m |>)
    else Some d.

Fixpoint write_lanes (d : Ddr) (byte_addr be din : Z) (ls : list Z) : option Ddr :=
  match ls with
  | [] => Some d
  | i :: ls => d ← write_lane d byte_addr be din i; write_lanes d byte_addr be din ls
  end.

Definition slave_write (d : Ddr) : option Ddr :=
  if ddr_pre_we d && negb (ddr_pre_busy d) then
    write_lanes d (Z.shiftl (ddr_pre_addr d) 3) (ddr_pre_be d) (ddr_pre_din d) lanes
  else Some d.

(** The slave's part of [step] after a rising edge. *)
Definition slave_edge (d : Ddr) : option Ddr :=
  let d := d <| ddr_busy_phase := u64 (ddr_busy_phase d + 1) |> in
  slave_write (slave_read (check_dropped d)).

(** ** Staging the ROMs *)

Definition fill (lo hi b : Z) (m : list Z) : list Z :=
  splice (Z.to_nat lo) (replicate (Z.to_nat (hi - lo)) b) m.

Definition ddr_write (offset : Z) (data m : list Z) : list Z :=
  if msize m <=? offset then m
  else
    let count := Z.min (msize data) (msize m - offset) in
    splice (Z.to_nat offset) (take (Z.to_nat count) data) m.

Definition stage_roms_to_ddr (boot0 boot1 m : list Z) : list Z :=
  let boot0_offset := if 65536 <? msize boot0 then 0xE0000 else 0xF0000 in
  let m := replicate (length m) 0 in
  let m := fill 0xA0000 0x100000 0xFF m in
  let m := fill 0xA0000 0xC0000 0x00 m in
  let m := fill 0xCE000 0xD0000 0x00 m in
  let m := ddr_write 0xC0000 boot1 m in
  ddr_write boot0_offset boot0 m.

(** * The memory seen by byte address *)

(** The byte of the core's address space that is at [a]: the framebuffer window
    shadows the shared memory, anything else reads as zero. *)
Definition phys_byte (d : Ddr) (a : Z) : Z :=
  if (FB_BASE_BYTE <=? a) && (a <? FB_BASE_BYTE + FB_MEM_SIZE) then znth 0 (fb_mem d) (a - FB_BASE_BYTE)
  else if (DDR_SHMEM_BASE <=? a) && (a - DDR_SHMEM_BASE <? msize (ddram_mem d))
       then znth 0 (ddram_mem d) (a - DDR_SHMEM_BASE)
  else 0.

Definition phys_mapped (d : Ddr) (a : Z) : bool :=
  (FB_BASE_BYTE <=? a) && (a <? FB_BASE_BYTE + FB_MEM_SIZE) ||
  (DDR_SHMEM_BASE <=? a) && (a - DDR_SHMEM_BASE <? msize (ddram_mem d)).

Record ddr_ok (d : Ddr) : Prop := mkDdrOk {
  ok_ddram : bytes (ddram_mem d);
  ok_fb : bytes (fb_mem d);
  ok_fb_size : msize (fb_mem d) = FB_MEM_SIZE;
  ok_ddram_size : msize (ddram_mem d) <= FB_BASE_BYTE - DDR_SHMEM_BASE
}.

Lemma ddr_ok_frame d d' :
  ddram_mem d' = ddram_mem d -> fb_mem d' = fb_mem d -> ddr_ok d -> ddr_ok d'.
Proof. intros E1 E2 [H1 H2 H3 H4]. constructor; by rewrite ?E1, ?E2. Qed.

Lemma ddr_init_ok : ddr_ok ddr_init.
Proof.
  constructor; unfold ddr_init; cbn [ddram_mem fb_mem].
  - by apply bytes_replicate.
  - by apply bytes_replicate.
  - unfold msize. rewrite length_replicate. by apply Z2Nat.id.
  - unfold msize. rewrite length_replicate, Z2Nat.id by done. done.
Qed.

(** What a byte lane writes. *)
Definition lane_hit (be i : Z) : bool := negb (Z.land (Z.shiftr be i) 1 =? 0).
Definition lane_byte (din i : Z) : Z := Z.land (Z.shiftr din (8 * i)) 0xFF.

Lemma lane_byte_u8 din i : is_u8 (lane_byte din i).
Proof. unfold lane_byte. width. Qed.

Ltac mapped_cases :=
  repeat match goal with
  | |- context [(?a <=? ?b) && _] => destruct (Z.leb_spec a b); cbn [andb orb]
  | |- context [?a <? ?b] => destruct (Z.ltb_spec a b); cbn [andb orb]
  end; try lia; try done.

Lemma write_lane_spec d byte_addr be din i :
  ddr_ok d -> 
  exists d', write_lane d byte_addr be din i = Some d' /\ ddr_ok d' /\
    msize (ddram_mem d') = msize (ddram_mem d) /\
    (forall a, phys_byte d' a =
      if lane_hit be i && (a =? byte_addr + i) && phys_mapped d a then lane_byte din i else phys_byte d a) /\
    ddram_resp_valid d' = ddram_resp_valid d /\ ddram_resp_data d' = ddram_resp_data d.
Proof.
  intros Hok. pose proof Hok as [Hd Hf Hfs Hds]. pose proof (lane_byte_u8 din i) as Hb.
  unfold write_lane. fold (lane_byte din i). unfold lane_hit.
  destruct (Z.land (Z.shiftr be i) 1 =? 0); cbn [negb andb]; [by exists d|].
  unfold msize, FB_BASE_BYTE, FB_MEM_SIZE, DDR_SHMEM_BASE in *.
  destruct ((0x3F800000 <=? byte_addr + i) && _) eqn:E1;
    [|destruct ((0x30000000 <=? byte_addr + i) && _) eqn:E2].
  - destruct (zupdate (fb_mem d) (byte_addr + i - 0x3F800000) (lane_byte din i)) as [m|] eqn:Em;
      [|rewrite zupdate_Some in Em by lia; done].
    exists (d <| fb_mem := m |>). split; [done|].
    pose proof (zupdate_length _ _ _ _ Em) as Hlen.
    split_and!; try done.
    + constructor; cbn; unfold msize; rewrite ?Hlen;
        unfold FB_BASE_BYTE, FB_MEM_SIZE, DDR_SHMEM_BASE; try lia; try done;
        eauto using zupdate_bytes.
    + intros a. unfold phys_byte, phys_mapped, msize, FB_BASE_BYTE, FB_MEM_SIZE, DDR_SHMEM_BASE.
      cbn [ddram_mem fb_mem set_field]. cbn.
      rewrite (znth_update 0 _ _ _ _ _ Em).
      destruct (Z.eqb_spec a (byte_addr + i)) as [->|Hne]; cbn [andb].
      * rewrite E1, Z.eqb_refl. done.
      * destruct (_ && _); [|done].
        by destruct (Z.eqb_spec (a - 0x3F800000) (byte_addr + i - 0x3F800000)); [lia|].
  - destruct (zupdate (ddram_mem d) (byte_addr + i - 0x30000000) (lane_byte din i)) as [m|] eqn:Em;
      [|rewrite zupdate_Some in Em by lia; done].
    exists (d <| ddram_mem := m |>). split; [done|].
    pose proof (zupdate_length _ _ _ _ Em) as Hlen.
    split_and!; try done.
    + constructor; cbn; unfold msize; rewrite ?Hlen;
        unfold FB_BASE_BYTE, FB_MEM_SIZE, DDR_SHMEM_BASE; try lia; try done;
        eauto using zupdate_bytes.
    + cbn. unfold msize. by rewrite Hlen.
    + intros a. unfold phys_byte, phys_mapped, msize, FB_BASE_BYTE, FB_MEM_SIZE, DDR_SHMEM_BASE.
      cbn. rewrite Hlen, (znth_update 0 _ _ _ _ _ Em).
      destruct (Z.eqb_spec a (byte_addr + i)) as [->|Hne]; cbn [andb].
      * rewrite E1, E2, Z.eqb_refl. done.
      * destruct (_ && _); [done|]. destruct (_ && _); [|done].
        by destruct (Z.eqb_spec (a - 0x30000000) (byte_addr + i - 0x30000000)); [lia|].
  - exists d. split_and!; try done. intros a.
    destruct (Z.eqb_spec a (byte_addr + i)) as [->|Hne]; cbn [andb]; [|done].
    unfold phys_mapped, msize, FB_BASE_BYTE, FB_MEM_SIZE, DDR_SHMEM_BASE.
    by rewrite E1, E2.
Qed.

Lemma write_lanes_spec ls : forall d byte_addr be din,
  ddr_ok d -> NoDup ls ->
  exists d', write_lanes d byte_addr be din ls = Some d' /\ ddr_ok d' /\
    msize (ddram_mem d') = msize (ddram_mem d) /\
    (forall a, phys_byte d' a =
      if bool_decide (a - byte_addr ∈ ls) && lane_hit be (a - byte_addr) && phys_mapped d a
      then lane_byte din (a - byte_addr) else phys_byte d a) /\
    ddram_resp_valid d' = ddram_resp_valid d /\ ddram_resp_data d' = ddram_resp_data d.
Proof.
  induction ls as [|i ls IH]; intros d byte_addr be din Hok Hnd.
  - exists d. split_and!; try done. 
  - apply NoDup_cons in Hnd as [Hni Hnd].
    destruct (write_lane_spec d byte_addr be din i Hok) as (d1 & H1 & Hok1 & Hs1 & Hb1 & Hv1 & Hr1).
    destruct (IH d1 byte_addr be din Hok1 Hnd) as (d2 & H2 & Hok2 & Hs2 & Hb2 & Hv2 & Hr2).
    exists d2. cbn [write_lanes]. rewrite H1. cbn [mbind option_bind].
    split_and!; try done; try congruence.
    intros a. rewrite Hb2, Hb1.
    assert (Hm : phys_mapped d1 a = phys_mapped d a) by (unfold phys_mapped; by rewrite Hs1).
    rewrite Hm. destruct (Z.eqb_spec a (byte_addr + i)) as [->|Hne].
    + replace (byte_addr + i - byte_addr) with i by lia.
      rewrite (bool_decide_eq_false_2 (i ∈ ls)) by done.
      rewrite (bool_decide_eq_true_2 (i ∈ i :: ls)) by left. cbn [andb]. by rewrite andb_true_r.
    + rewrite (bool_decide_ext (a - byte_addr ∈ i :: ls) (a - byte_addr ∈ ls)).
      * by rewrite andb_false_r.
      * rewrite elem_of_cons. split; [intros [?|?]; [lia|done]|by right].
Qed.

Lemma lanes_elem i : i ∈ lanes <-> 0 <= i < 8.
Proof.
  unfold lanes. rewrite !elem_of_cons, elem_of_nil. lia.
Qed.

Lemma lanes_nodup : NoDup lanes.
Proof. apply (bool_decide_unpack _). by vm_compute. Qed.

(** The word at a byte address, little-endian. *)
Definition phys_word (d : Ddr) (byte_addr : Z) : Z := le_val (map (fun i => phys_byte d (byte_addr + i)) lanes).

Lemma phys_byte_u8 d a : ddr_ok d -> is_u8 (phys_byte d a).
Proof. intros [Hd Hf _ _]. unfold phys_byte. repeat case_bool; auto using znth_u8. done. Qed.

Lemma read_fold (f : Z -> Z) :
  foldl (fun data i => Z.lor data (Z.shiftl (f i) (8 * i))) 0 lanes = or_bytes 0 (map f lanes).
Proof.
  cbn [foldl lanes map or_bytes]. rewrite Z.lor_0_l, Z.lor_0_r, !Z.lor_assoc. done.
Qed.

Lemma fold_guard (c : Z -> bool) (f : Z -> Z) ls : forall acc,
  foldl (fun data i => if c i then Z.lor data (Z.shiftl (f i) (8 * i)) else data) acc ls
    = foldl (fun data i => Z.lor data (Z.shiftl (if c i then f i else 0) (8 * i))) acc ls.
Proof.
  induction ls as [|i ls IH]; intros acc; [done|]. cbn [foldl]. rewrite IH.
  destruct (c i); [done|]. by rewrite Z.shiftl_0_l, Z.lor_0_r.
Qed.

Lemma read_fold_guard (c : Z -> bool) (f : Z -> Z) :
  foldl (fun data i => if c i then Z.lor data (Z.shiftl (f i) (8 * i)) else data) 0 lanes
    = or_bytes 0 (map (fun i => if c i then f i else 0) lanes).
Proof. by rewrite fold_guard, (read_fold (fun i => if c i then f i else 0)). Qed.

(** A read returns the eight bytes at its address, wherever they are. *)
Lemma read_data_word d k : ddr_ok d -> 0 <= k -> read_data d (8 * k) = phys_word d (8 * k).
Proof.
  intros Hok Hk. pose proof Hok as [Hd Hf Hfs Hds]. unfold phys_word.
  assert (Hb : bytes (map (fun i => phys_byte d (8 * k + i)) lanes))
    by (apply Forall_map, Forall_forall; intros; by apply phys_byte_u8).
  pose proof (or_bytes_val _ 0 ltac:(lia) Hb) as Ho. change (2 ^ 0) with 1 in Ho.
  rewrite Z.mul_1_r in Ho. rewrite <- Ho. clear Ho Hb.
  unfold read_data, read_source. unfold FB_BASE_BYTE, FB_MEM_SIZE, DDR_SHMEM_BASE in *.
  destruct ((0x3F800000 <=? 8 * k) && _) eqn:E1; [|destruct ((0x30000000 <=? 8 * k) && _) eqn:E2].
  - rewrite read_fold_guard. f_equal. apply map_ext_in. intros i Hi%list_elem_of_In%lanes_elem.
    unfold phys_byte, FB_BASE_BYTE, FB_MEM_SIZE.
    rewrite (proj2 (Z.ltb_lt _ _)) by (rewrite Hfs; lia).
    replace ((0x3F800000 <=? 8 * k + i) && (8 * k + i <? 0x3F800000 + 4 * 1024 * 1024)) with true by lia.
    f_equal. lia.
  - rewrite read_fold_guard. f_equal. apply map_ext_in. intros i Hi%list_elem_of_In%lanes_elem.
    unfold phys_byte, FB_BASE_BYTE, FB_MEM_SIZE, DDR_SHMEM_BASE.
    replace ((0x3F800000 <=? 8 * k + i) && (8 * k + i <? 0x3F800000 + 4 * 1024 * 1024)) with false by lia.
    rewrite (proj2 (Z.leb_le 0x30000000 _)) by lia. cbn [andb].
    replace (8 * k + i - 0x30000000) with (8 * k - 0x30000000 + i) by lia. done.
  - rewrite <- (read_fold (fun i => phys_byte d (8 * k + i))).
    assert (Hz : forall i, 0 <= i < 8 -> phys_byte d (8 * k + i) = 0).
    { intros i Hi. unfold phys_byte, FB_BASE_BYTE, FB_MEM_SIZE, DDR_SHMEM_BASE.
      replace ((0x3F800000 <=? 8 * k + i) && (8 * k + i <? 0x3F800000 + 4 * 1024 * 1024)) with false by lia.
      replace ((0x30000000 <=? 8 * k + i) && (8 * k + i - 0x30000000 <? msize (ddram_mem d))) with false
        by lia. done. }
    cbn [foldl lanes]. by rewrite !Hz by lia.
Qed.

(** ** One memory cycle *)

(** The slave across a rising edge: the request latched before the edge, then
    the edge itself. *)
Definition clock_edge (d : Ddr) (r : Request) : option Ddr :=
  let d := draw d in slave_edge (latch d r (ddram_busy_now d)).

Definition accepts (d : Ddr) : bool := negb (ddram_busy_now (draw d)).

Lemma draw_mem d : ddram_mem (draw d) = ddram_mem d /\ fb_mem (draw d) = fb_mem d.
Proof. unfold draw. by case_bool. Qed.

Lemma check_dropped_mem d :
  ddram_mem (check_dropped d) = ddram_mem d /\ fb_mem (check_dropped d) = fb_mem d.
Proof. unfold check_dropped. by case_bool. Qed.

Lemma slave_read_mem d : ddram_mem (slave_read d) = ddram_mem d /\ fb_mem (slave_read d) = fb_mem d.
Proof. unfold slave_read. by repeat case_bool. Qed.

Lemma phys_byte_frame d d' a :
  ddram_mem d' = ddram_mem d -> fb_mem d' = fb_mem d -> phys_byte d' a = phys_byte d a.
Proof. unfold phys_byte. by intros -> ->. Qed.

Lemma phys_word_frame d d' a :
  ddram_mem d' = ddram_mem d -> fb_mem d' = fb_mem d -> phys_word d' a = phys_word d a.
Proof. intros. unfold phys_word. f_equal. apply map_ext. intros. by apply phys_byte_frame. Qed.

(** What an edge does to the memory and to the response. *)
Definition written (d d' : Ddr) (r : Request) : Prop :=
  forall a, phys_byte d' a =
    if ddram_we r && bool_decide (0 <= a - 8 * ddram_addr r < 8) &&
       lane_hit (ddram_be r) (a - 8 * ddram_addr r) && phys_mapped d a
    then lane_byte (ddram_din r) (a - 8 * ddram_addr r) else phys_byte d a.

(** A request with the port's widths. *)
Definition request_ok (r : Request) : Prop :=
  is_u32 (ddram_addr r) /\ is_u8 (ddram_be r) /\ is_u64 (ddram_din r).

(** The state that the edge works on: the memory as before, the request. *)
Record presented_to (d : Ddr) (r : Request) (busy : bool) (d1 : Ddr) : Prop := mkPresentedTo {
  pt_ddram : ddram_mem d1 = ddram_mem d;
  pt_fb : fb_mem d1 = fb_mem d;
  pt_rd : ddr_pre_rd d1 = ddram_rd r;
  pt_we : ddr_pre_we d1 = ddram_we r;
  pt_busy : ddr_pre_busy d1 = busy;
  pt_addr : ddr_pre_addr d1 = ddram_addr r;
  pt_be : ddr_pre_be d1 = ddram_be r;
  pt_din : ddr_pre_din d1 = ddram_din r
}.

Lemma latch_presents d r busy :
  request_ok r -> presented_to d r busy (latch d r busy).
Proof.
  intros (Ha & Hbe & Hdin). unfold latch.
  rewrite (u32_id (ddram_addr r)), (u32_id (ddram_be r)), (u64_id (ddram_din r))
    by (unfold is_u8, is_u32 in *; done || lia). by constructor.
Qed.

Lemma phase_presents d r busy d1 n :
  presented_to d r busy d1 -> presented_to d r busy (d1 <| ddr_busy_phase := n |>).
Proof. intros []. by constructor. Qed.

Lemma check_presents d r busy d1 : presented_to d r busy d1 -> presented_to d r busy (check_dropped d1).
Proof. intros []. unfold check_dropped. cbv zeta. case_bool; by constructor. Qed.

Lemma draw_presents d r busy d1 : presented_to (draw d) r busy d1 -> presented_to d r busy d1.
Proof. destruct (draw_mem d) as [E1 E2]. intros []. constructor; congruence. Qed.

Lemma slave_read_spec d r busy d1 :
  ddr_ok d -> request_ok r -> presented_to d r busy d1 ->
  presented_to d r busy (slave_read d1) /\
  ddram_resp_valid (slave_read d1) = ddram_rd r && negb busy /\
  (ddram_rd r && negb busy = true -> ddram_resp_data (slave_read d1) = phys_word d (8 * ddram_addr r)).
Proof.
  intros Hok (Ha & _) [P1 P2 P3 P4 P5 P6 P7 P8]. unfold slave_read. rewrite P3, P5. cbv zeta.
  assert (E : read_data d1 (Z.shiftl (ddr_pre_addr d1) 3) = phys_word d (8 * ddram_addr r)).
  { rewrite P6, Z.shiftl_mul_pow2, Z.mul_comm by lia. change (2 ^ 3) with 8.
    rewrite read_data_word; [by apply phys_word_frame|by apply (ddr_ok_frame d)|apply Ha]. }
  rewrite E. destruct (ddram_rd r && negb busy).
  - split_and!; [by constructor|done|done].
  - destruct (ddram_resp_valid d1) eqn:Ev; split_and!; by constructor || done.
Qed.

Lemma slave_write_spec d r busy d1 :
  ddr_ok d -> request_ok r -> presented_to d r busy d1 ->
  exists d2, slave_write d1 = Some d2 /\ ddr_ok d2 /\ msize (ddram_mem d2) = msize (ddram_mem d) /\
    (if busy then forall a, phys_byte d2 a = phys_byte d a else written d d2 r) /\
    ddram_resp_valid d2 = ddram_resp_valid d1 /\ ddram_resp_data d2 = ddram_resp_data d1.
Proof.
  intros Hok _ [P1 P2 P3 P4 P5 P6 P7 P8]. unfold slave_write. rewrite P4, P5, P6, P7, P8.
  assert (Hok1 : ddr_ok d1) by (by apply (ddr_ok_frame d)).
  assert (Hb : forall a, phys_byte d1 a = phys_byte d a) by (intros; by apply phys_byte_frame).
  rewrite <- P1.
  destruct busy; cbn [negb]; [rewrite andb_false_r; by exists d1|]. rewrite andb_true_r.
  unfold written. destruct (ddram_we r).
  - rewrite (Z.shiftl_mul_pow2 _ 3), Z.mul_comm by lia. change (2 ^ 3) with 8.
    destruct (write_lanes_spec lanes d1 (8 * ddram_addr r) (ddram_be r) (ddram_din r) Hok1 lanes_nodup)
      as (d3 & -> & Hok3 & Hs3 & Hw & Hv3 & Hr3).
    exists d3. split_and!; try done. intros a. rewrite Hw, Hb. cbn [andb].
    rewrite (bool_decide_ext _ _ (lanes_elem (a - 8 * ddram_addr r))).
    assert (Hm : phys_mapped d1 a = phys_mapped d a) by (unfold phys_mapped; by rewrite P1).
    by rewrite Hm.
  - by exists d1.
Qed.

(** One cycle: without wait request a read is answered in the next cycle with the
    bytes before the cycle's write, and a write changes the enabled bytes that
    the simulator backs; with wait request neither happens. *)
Lemma clock_edge_spec d r :
  ddr_ok d -> request_ok r ->
  exists d', clock_edge d r = Some d' /\ ddr_ok d' /\ (forall a, phys_mapped d' a = phys_mapped d a) /\
    if accepts d then
      written d d' r /\ ddram_resp_valid d' = ddram_rd r /\
      (ddram_rd r = true -> ddram_resp_data d' = phys_word d (8 * ddram_addr r))
    else (forall a, phys_byte d' a = phys_byte d a) /\ ddram_resp_valid d' = false.
Proof.
  intros Hok Hr. unfold clock_edge, accepts, slave_edge. cbv zeta.
  generalize (ddram_busy_now (draw d)) as busy. intros busy.
  pose proof (check_presents _ _ _ _ (phase_presents _ _ _ _
    (u64 (ddr_busy_phase (latch (draw d) r busy) + 1)) (latch_presents (draw d) r busy Hr))) as Hp.
  revert Hp. generalize (check_dropped (latch (draw d) r busy
    <| ddr_busy_phase := u64 (ddr_busy_phase (latch (draw d) r busy) + 1) |>)) as d1.
  intros d1 Hp%draw_presents.
  destruct (slave_read_spec d r busy d1 Hok Hr Hp) as (Hp1 & Hv & Hdata).
  destruct (slave_write_spec d r busy _ Hok Hr Hp1) as (d2 & -> & Hok2 & Hs2 & Hw & Hv2 & Hd2).
  exists d2. split_and!; [done|done|intros a; unfold phys_mapped; by rewrite Hs2|]. destruct busy; cbn [negb] in *.
  - split; [done|]. by rewrite Hv2, Hv, andb_false_r.
  - rewrite andb_true_r in *. split_and!; [done|by rewrite Hv2|]. intros. by rewrite Hd2, Hdata.
Qed.

(** ** Wait states *)

(** The injection's settings, its phase and its random state. *)
Definition injection (d : Ddr) : Z * Z * Z * Z * Z :=
  (ddr_busy_period d, ddr_busy_len d, ddr_busy_rand_pct d, ddr_busy_phase d, ddr_busy_rand_state d).

Lemma write_lanes_injection ls : forall d a be din d',
  write_lanes d a be din ls = Some d' -> injection d' = injection d.
Proof.
  induction ls as [|i ls IH]; intros d a be din d'; cbn [write_lanes]; [by intros [= <-]|].
  destruct (write_lane d a be din i) as [d1|] eqn:E; [|done]. cbn [mbind option_bind].
  intros ->%IH. unfold write_lane in E. repeat case_bool; simplify_eq; try done;
    match type of E with mbind _ ?z = _ => destruct z; [|done] end; cbn in E; by simplify_eq.
Qed.

Lemma slave_write_injection d d' : slave_write d = Some d' -> injection d' = injection d.
Proof. unfold slave_write. case_bool; [apply write_lanes_injection|by intros [= <-]]. Qed.

Lemma slave_read_injection d : injection (slave_read d) = injection d.
Proof. unfold slave_read. cbv zeta. by repeat case_bool. Qed.

Lemma check_dropped_injection d : injection (check_dropped d) = injection d.
Proof. unfold check_dropped. cbv zeta. by case_bool. Qed.

(** An edge advances the phase by one and keeps the settings. *)
Lemma clock_edge_injection d r d' :
  clock_edge d r = Some d' ->
  injection d' = (ddr_busy_period d, ddr_busy_len d, ddr_busy_rand_pct d, u64 (ddr_busy_phase d + 1),
                  ddr_busy_rand_state (draw d)).
Proof.
  unfold clock_edge, slave_edge. cbv zeta.
  intros ->%slave_write_injection. rewrite slave_read_injection, check_dropped_injection.
  unfold draw. by case_bool.
Qed.

Fixpoint edges (d : Ddr) (rs : list Request) : option Ddr :=
  match rs with
  | [] => Some d
  | r :: rs => d ← clock_edge d r; edges d rs
  end.

Lemma edges_ok rs : forall d, ddr_ok d -> Forall request_ok rs -> exists d', edges d rs = Some d' /\ ddr_ok d'.
Proof.
  induction rs as [|r rs IH]; intros d Hok Hrs; [by exists d|]. inversion Hrs; subst.
  destruct (clock_edge_spec d r Hok) as (d1 & E & Hok1 & _); [done|]. cbn [edges]. rewrite E. by apply IH.
Qed.

Lemma edges_phase rs : forall d d',
  is_u64 (ddr_busy_phase d) ->
  edges d rs = Some d' -> ddr_busy_phase d + Z.of_nat (length rs) < 18446744073709551616 ->
  ddr_busy_period d' = ddr_busy_period d /\ ddr_busy_len d' = ddr_busy_len d /\
  ddr_busy_rand_pct d' = ddr_busy_rand_pct d /\ ddr_busy_phase d' = ddr_busy_phase d + Z.of_nat (length rs).
Proof.
  induction rs as [|r rs IH]; intros d d' Hp; cbn [edges length].
  - intros [= <-] _. split_and!; try done. lia.
  - destruct (clock_edge d r) as [d1|] eqn:E; [|done]. cbn [mbind option_bind].
    apply clock_edge_injection in E. injection E as E1 E2 E3 E4 E5.
    intros E Hb. unfold is_u64 in *. rewrite u64_id in E4 by (unfold is_u64; lia).
    destruct (IH d1 d') as (-> & -> & -> & ->); [lia|done|lia|]. split_and!; congruence || lia.
Qed.

(** Within a period the phase leaves the busy part. *)
Lemma phase_free p len phi :
  0 <= len < p -> 0 <= phi ->
  exists j, 0 <= j <= len /\ len <= (phi + j) mod p.
Proof.
  intros Hl Hphi. destruct (Z.lt_ge_cases (phi mod p) len) as [Hlt|Hge].
  - exists (len - phi mod p). pose proof (Z.mod_pos_bound phi p ltac:(lia)). split; [lia|].
    rewrite (Z.div_mod phi p) at 1 by lia.
    replace (p * (phi / p) + phi mod p + (len - phi mod p)) with (len + (phi / p) * p) by lia.
    rewrite Z_mod_plus_full, Z.mod_small by lia. lia.
  - exists 0. rewrite Z.add_0_r. lia.
Qed.

(** ** The memory port implements a memory *)

(** The abstract memory: a function from addresses to bytes, of which only the
    mapped ones are stored. *)
Definition spec_write (mapped : Z -> bool) (r : Request) (M : Z -> Z) : Z -> Z := fun a =>
  if ddram_we r && bool_decide (0 <= a - 8 * ddram_addr r < 8) &&
     lane_hit (ddram_be r) (a - 8 * ddram_addr r) && mapped a
  then lane_byte (ddram_din r) (a - 8 * ddram_addr r) else M a.

Definition spec_word (M : Z -> Z) (byte_addr : Z) : Z := le_val (map (fun i => M (byte_addr + i)) lanes).

(** Requests with the cycles' ready flags, in order; the responses. *)
Fixpoint spec_run (mapped : Z -> bool) (M : Z -> Z) (rs : list (Request * bool)) : (Z -> Z) * list (option Z) :=
  match rs with
  | [] => (M, [])
  | (r, ready) :: rs =>
    let answer := if ready && ddram_rd r then Some (spec_word M (8 * ddram_addr r)) else None in
    let M := if ready then spec_write mapped r M else M in
    let '(M, answers) := spec_run mapped M rs in (M, answer :: answers)
  end.

(** The slave over a sequence of cycles: ready flags and responses. *)
Fixpoint ddr_run (d : Ddr) (rs : list Request) : option (Ddr * list bool * list (option Z)) :=
  match rs with
  | [] => Some (d, [], [])
  | r :: rs =>
    d1 ← clock_edge d r;
    '(d2, readys, answers) ← ddr_run d1 rs;
    Some (d2, accepts d :: readys,
          (if ddram_resp_valid d1 then Some (ddram_resp_data d1) else None) :: answers)
  end.

Lemma spec_run_ext rs : forall mapped mapped' M M',
  (forall a, mapped a = mapped' a) -> (forall a, M a = M' a) ->
  (forall a, (spec_run mapped M rs).1 a = (spec_run mapped' M' rs).1 a) /\
  (spec_run mapped M rs).2 = (spec_run mapped' M' rs).2.
Proof.
  induction rs as [|[r ready] rs IH]; intros mapped mapped' M M' Hm HM; [done|]. cbn [spec_run].
  assert (HM' : forall a, (if ready then spec_write mapped r M else M) a =
                          (if ready then spec_write mapped' r M' else M') a).
  { intros a. destruct ready; [|done]. unfold spec_write. by rewrite Hm, HM. }
  destruct (IH mapped mapped' _ _ Hm HM') as [I1 I2].
  destruct (spec_run mapped _ rs) as [M1 o1], (spec_run mapped' _ rs) as [M2 o2]. cbn [fst snd] in *.
  split; [done|]. rewrite I2. f_equal. case_bool; [|done]. f_equal. unfold spec_word. f_equal.
  apply map_ext. intros i. apply HM.
Qed.

(** C25: the memory port implements a memory: over any sequence of requests, with
    whatever wait states the injection makes, the responses are exactly those
    of a byte memory in which each accepted read is answered in the next cycle
    with the eight bytes at its address and each accepted write stores its
    enabled bytes, and the simulator's vectors hold that memory at the end. *)
Theorem memory_refines rs : forall d,
  ddr_ok d -> Forall request_ok rs ->
  exists d' readys answers, ddr_run d rs = Some (d', readys, answers) /\ ddr_ok d' /\
    length readys = length rs /\
    (forall a, phys_byte d' a = (spec_run (phys_mapped d) (phys_byte d) (zip rs readys)).1 a) /\
    answers = (spec_run (phys_mapped d) (phys_byte d) (zip rs readys)).2.
Proof.
  induction rs as [|r rs IH]; intros d Hok Hrs; [by exists d, [], []|]. inversion Hrs; subst.
  destruct (clock_edge_spec d r Hok) as (d1 & E & Hok1 & Hm & Hc); [done|].
  destruct (IH d1 Hok1) as (d2 & readys & answers & E2 & Hok2 & Hl & Hb & Ha); [done|].
  exists d2, (accepts d :: readys), ((if ddram_resp_valid d1 then Some (ddram_resp_data d1) else None) :: answers).
  cbn [ddr_run]. rewrite E. cbn [mbind option_bind]. rewrite E2. cbn [mbind option_bind zip zip_with spec_run].
  destruct (spec_run_ext (zip rs readys) (phys_mapped d1) (phys_mapped d) (phys_byte d1)
    (if accepts d then spec_write (phys_mapped d) r (phys_byte d) else phys_byte d) Hm) as [X1 X2].
  { intros a. destruct (accepts d); [apply Hc|apply (proj1 Hc)]. }
  rewrite X2 in Ha. fold (zip rs readys).
  destruct (spec_run (phys_mapped d) _ (zip rs readys)) as [M o]. cbn [fst snd] in *.
  split_and!; [done|done|cbn; lia| |].
  - intros a. by rewrite Hb, X1.
  - rewrite Ha. f_equal. destruct (accepts d); cbn [andb].
    + destruct Hc as (_ & -> & Hd). destruct (ddram_rd r); [|done]. by rewrite Hd.
    + by destruct Hc as [_ ->].
Qed.

(** C33: with the periodic injection of --ddr-busy P,L the memory port is never
    stuck: whatever requests are made meanwhile, after at most L cycles there is
    one without wait request, so a master that holds its read gets its data. *)
Theorem wait_states_end d r rs :
  ddr_ok d -> request_ok r -> Forall request_ok rs ->
  ddr_busy_rand_pct d <= 0 -> 0 <= ddr_busy_len d < ddr_busy_period d -> ddr_busy_period d < 2147483648 ->
  0 <= ddr_busy_phase d -> ddr_busy_phase d + ddr_busy_period d < 18446744073709551616 ->
  Z.of_nat (length rs) = ddr_busy_len d -> ddram_rd r = true ->
  exists j d1 d2, (j <= length rs)%nat /\ edges d (take j rs) = Some d1 /\ clock_edge d1 r = Some d2 /\
    ddram_resp_valid d2 = true /\ ddram_resp_data d2 = phys_word d1 (8 * ddram_addr r).
Proof.
  intros Hok Hr Hrs Hpct Hlen Hper Hphi Hend Hl Hrd.
  destruct (phase_free (ddr_busy_period d) (ddr_busy_len d) (ddr_busy_phase d)) as (j & Hj & Hfree); [lia|lia|].
  destruct (edges_ok (take (Z.to_nat j) rs) d Hok) as (d1 & E & Hok1); [by apply Forall_take|].
  assert (Hlj : length (take (Z.to_nat j) rs) = Z.to_nat j) by (rewrite length_take; lia).
  destruct (edges_phase (take (Z.to_nat j) rs) d d1) as (Ep & El & Ec & Eph); [unfold is_u64; lia|done|rewrite Hlj; lia|].
  destruct (clock_edge_spec d1 r Hok1 Hr) as (d2 & E2 & _ & _ & Hc).
  assert (Ha : accepts d1 = true).
  { unfold accepts, draw. rewrite Ec. replace (0 <? ddr_busy_rand_pct d) with false by lia.
    unfold ddram_busy_now. rewrite Ec, Ep, El, Eph, Hlj, Z2Nat.id by lia.
    replace (0 <? ddr_busy_rand_pct d) with false by lia.
    replace (ddr_busy_period d <=? 0) with false by lia. rewrite !u64_id by (unfold is_u64; lia). apply negb_true_iff, Z.ltb_ge. lia. }
  rewrite Ha in Hc. destruct Hc as (_ & Hv & Hd).
  exists (Z.to_nat j), d1, d2. split_and!; try done; [lia|by rewrite Hv|by apply Hd].
Qed.

(** ** The random injection *)

Lemma testbit_u64 x i : 0 <= i -> Z.testbit (u64 x) i = (i <? 64) && Z.testbit x i.
Proof.
  intros Hi. unfold u64. change 18446744073709551616 with (2 ^ 64).
  destruct (Z.ltb_spec i 64); [by rewrite Z.mod_pow2_bits_low by lia|].
  by rewrite Z.mod_pow2_bits_high by lia.
Qed.

Lemma u64_high x i : is_u64 x -> 64 <= i -> Z.testbit x i = false.
Proof.
  intros Hx Hi. rewrite <- (u64_id x Hx), testbit_u64 by lia. by rewrite (proj2 (Z.ltb_ge _ _)) by lia.
Qed.

Lemma shift_left_fixed k x : 0 < k -> is_u64 x -> Z.lxor x (u64 (Z.shiftl x k)) = 0 -> x = 0.
Proof.
  intros Hk Hx E%Z.lxor_eq. apply Z.bits_inj_0. intros n. destruct (Z.lt_ge_cases n 0) as [Hn|Hn].
  { by apply Z.testbit_neg_r. }
  revert n Hn. apply (Zlt_0_ind (fun n => Z.testbit x n = false)). intros n IH Hn.
  rewrite E, testbit_u64, Z.shiftl_spec by lia.
  destruct (Z.lt_ge_cases (n - k) 0); [by rewrite (Z.testbit_neg_r x), andb_false_r by lia|].
  by rewrite IH, andb_false_r by lia.
Qed.

Lemma shift_right_fixed k x : 0 < k -> is_u64 x -> Z.lxor x (Z.shiftr x k) = 0 -> x = 0.
Proof.
  intros Hk Hx E%Z.lxor_eq. apply Z.bits_inj_0. intros n. destruct (Z.lt_ge_cases n 0) as [Hn|Hn].
  { by apply Z.testbit_neg_r. }
  assert (H : forall m, 0 <= m -> forall n, 0 <= n -> 64 <= n + m -> Z.testbit x n = false).
  { clear n Hn. apply (Zlt_0_ind (fun m => forall n, 0 <= n -> 64 <= n + m -> Z.testbit x n = false)).
    intros m IH Hm n Hn Hnm. destruct (Z.lt_ge_cases n 64); [|by apply u64_high].
    rewrite E, Z.shiftr_spec by lia.
    destruct (Z.lt_ge_cases m k); [apply u64_high; [done|lia]|].
    apply (IH (m - k)); lia. }
  apply (H 64); lia.
Qed.

Lemma lxor_u64 x y : is_u64 x -> is_u64 y -> is_u64 (Z.lxor x y).
Proof. apply (lxor_range 64). lia. Qed.

Lemma xorshift_nonzero x : is_u64 x -> x <> 0 -> is_u64 (xorshift x) /\ xorshift x <> 0.
Proof.
  intros Hx Hn. unfold xorshift. cbv zeta.
  set (y := Z.lxor x (u64 (Z.shiftl x 13))).
  assert (Hy : is_u64 y) by (apply lxor_u64; [done|apply u64_range]).
  assert (Hyn : y <> 0) by (intros E; apply Hn, (shift_left_fixed 13); [lia|done|exact E]).
  set (z := Z.lxor y (Z.shiftr y 7)).
  assert (Hz : is_u64 z) by (apply lxor_u64; [done|apply shiftr_range; [lia|exact Hy]]).
  assert (Hzn : z <> 0) by (intros E; apply Hyn, (shift_right_fixed 7); [lia|done|exact E]).
  split; [apply lxor_u64; [done|apply u64_range]|].
  intros E. apply Hzn, (shift_left_fixed 17); [lia|done|exact E].
Qed.

(** The random wait states never die out: from a seed other than zero the
    generator's state stays a non-zero 64-bit number over any number of
    cycles and requests. *)
Lemma random_state_alive rs : forall d,
  is_u64 (ddr_busy_rand_state d) -> ddr_busy_rand_state d <> 0 ->
  forall d', edges d rs = Some d' -> is_u64 (ddr_busy_rand_state d') /\ ddr_busy_rand_state d' <> 0.
Proof.
  induction rs as [|r rs IH]; intros d Hu Hn d'; cbn [edges]; [by intros [= <-]|].
  destruct (clock_edge d r) as [d1|] eqn:E; [|done]. cbn [mbind option_bind].
  apply clock_edge_injection in E. injection E as _ _ _ _ E5.
  assert (H : is_u64 (ddr_busy_rand_state (draw d)) /\ ddr_busy_rand_state (draw d) <> 0).
  { unfold draw. cbv zeta. case_bool; [|done]. by apply xorshift_nonzero. }
  apply IH; by destruct H; congruence.
Qed.

(** ** The KV260 backend *)

Definition kv260_mapped (d : Ddr) (a : Z) : bool :=
  (a <? msize (ddram_mem d)) || (0x0f800000 <=? a) && (a - 0x0f800000 <? msize (fb_mem d)).

Definition mask_hit (mask b : Z) : bool := negb (Z.land mask (Z.shiftl 1 b) =? 0).
Definition data_byte (data b : Z) : Z := u8 (Z.shiftr data (b * 8)).

Lemma znth_insert (l : list Z) i v j :
  0 <= i < msize l -> znth 0 (<[Z.to_nat i := v]> l) j = if j =? i then v else znth 0 l j.
Proof. intros Hi. apply znth_update. by apply zupdate_Some. Qed.

Lemma kv260_lane_spec data mask d address b :
  bytes (ddram_mem d) -> bytes (fb_mem d) ->
  let d' := kv260_lane data mask d address b in
  bytes (ddram_mem d') /\ bytes (fb_mem d') /\
  msize (ddram_mem d') = msize (ddram_mem d) /\ msize (fb_mem d') = msize (fb_mem d) /\
  forall a, is_u32 a -> kv260_byte d' a =
    if mask_hit mask b && (a =? u32 (address + b)) && kv260_mapped d a then data_byte data b else kv260_byte d a.
Proof.
  intros Hd Hf. cbv zeta. unfold kv260_lane, mask_hit. fold (data_byte data b). cbv zeta.
  destruct (negb (Z.land mask (Z.shiftl 1 b) =? 0)); cbn [andb]; [|done].
  pose proof (u32_range (address + b)) as Hu. unfold is_u32 in *.
  assert (Hb : is_u8 (data_byte data b)) by apply u8_range.
  destruct (u32 (address + b) <? msize (ddram_mem d)) eqn:E1; [|destruct (_ && _) eqn:E2].
  - cbn [ddram_mem fb_mem set_field]. cbn. unfold msize. rewrite length_insert.
    split_and!; [by apply bytes_insert|done|done|done|]. intros a Ha.
    unfold kv260_byte, kv260_mapped, msize. cbn. rewrite length_insert, znth_insert by (unfold msize in *; lia).
    destruct (Z.eqb_spec a (u32 (address + b))) as [->|Hne]; cbn [andb]; [|done].
    unfold msize in E1. by rewrite E1.
  - cbn. unfold msize. rewrite length_insert.
    split_and!; [done|by apply bytes_insert|done|done|]. intros a Ha.
    unfold kv260_byte, kv260_mapped, msize. cbn. rewrite length_insert, znth_insert by (unfold msize in *; lia).
    destruct (Z.eqb_spec a (u32 (address + b))) as [->|Hne]; cbn [andb].
    + unfold msize in E1, E2. by rewrite E1, E2, Z.eqb_refl.
    + destruct (_ <? _); [done|]. destruct (_ && _); [|done].
      by destruct (Z.eqb_spec (a - 0x0f800000) (u32 (address + b) - 0x0f800000)); [lia|].
  - split_and!; try done. intros a Ha. destruct (Z.eqb_spec a (u32 (address + b))) as [->|Hne]; [|done].
    unfold kv260_mapped. by rewrite E1, E2.
Qed.

Lemma kv260_lanes_spec ls data mask address : forall d,
  bytes (ddram_mem d) -> bytes (fb_mem d) -> NoDup (map (fun b => u32 (address + b)) ls) ->
  let d' := foldl (fun d b => kv260_lane data mask d address b) d ls in
  bytes (ddram_mem d') /\ bytes (fb_mem d') /\
  (forall a, is_u32 a -> Forall (fun b => a <> u32 (address + b)) ls -> kv260_byte d' a = kv260_byte d a) /\
  forall b, b ∈ ls -> kv260_byte d' (u32 (address + b)) =
    if mask_hit mask b && kv260_mapped d (u32 (address + b)) then data_byte data b
    else kv260_byte d (u32 (address + b)).
Proof.
  induction ls as [|b ls IH]; intros d Hd Hf Hnd; cbv zeta; cbn [foldl].
  - split_and!; try done. by intros b ?%elem_of_nil.
  - cbn [map] in Hnd. apply NoDup_cons in Hnd as [Hni Hnd].
    destruct (kv260_lane_spec data mask d address b Hd Hf) as (Hd1 & Hf1 & S1 & S2 & Hb1).
    revert Hd1 Hf1 S1 S2 Hb1. generalize (kv260_lane data mask d address b) as d1. intros d1 Hd1 Hf1 S1 S2 Hb1.
    destruct (IH d1 Hd1 Hf1 Hnd) as (Hd2 & Hf2 & Ho & Hi). split_and!; [done|done| |].
    + intros a Ha Hall. inversion Hall; subst. rewrite Ho, Hb1 by done.
      by rewrite (proj2 (Z.eqb_neq a _)), andb_false_r by done.
    + assert (Hm : forall a, kv260_mapped d1 a = kv260_mapped d a) by (intros; unfold kv260_mapped; by rewrite S1, S2).
      intros c [->|Hc]%elem_of_cons.
      * rewrite Ho; [|apply u32_range|].
        -- rewrite Hb1 by apply u32_range. by rewrite Z.eqb_refl, andb_true_r.
        -- apply Forall_forall. intros x Hx E. apply Hni. rewrite E.
           by apply (list_elem_of_fmap_2 (fun b => u32 (address + b))).
      * rewrite Hi, Hm, Hb1 by (done || apply u32_range).
        rewrite (proj2 (Z.eqb_neq _ (u32 (address + b)))), andb_false_r; [done|].
        intros E. apply Hni. rewrite <- E. by apply (list_elem_of_fmap_2 (fun b => u32 (address + b))).
Qed.

Lemma four_addresses address : NoDup (map (fun b => u32 (address + b)) [0; 1; 2; 3]).
Proof.
  cbn [map]. unfold u32. repeat (apply NoDup_cons; split; [|]); [..|apply NoDup_nil_2];
    rewrite ?elem_of_cons, ?elem_of_nil; divlia.
Qed.

(** The KV260 backend's memory: a masked 32-bit write followed by a read of
    the same address returns the enabled bytes of the data where the simulator
    backs them and the old bytes elsewhere, whatever the alignment, at the end
    of the address space too; no other byte changes. *)
Lemma kv260_write_read d address data mask :
  bytes (ddram_mem d) -> bytes (fb_mem d) ->
  let d' := kv260_memory_write d address data mask in
  kv260_memory_read d' address =
    le_val (map (fun b => if mask_hit mask b && kv260_mapped d (u32 (address + b)) then data_byte data b
                          else kv260_byte d (u32 (address + b))) [0; 1; 2; 3]) /\
  forall a, is_u32 a -> Forall (fun b => a <> u32 (address + b)) [0; 1; 2; 3] ->
    kv260_byte d' a = kv260_byte d a.
Proof.
  intros Hd Hf. cbv zeta. unfold kv260_memory_write.
  destruct (kv260_lanes_spec [0; 1; 2; 3] data mask address d Hd Hf (four_addresses address))
    as (Hd' & Hf' & Ho & Hi).
  revert Hd' Hf' Ho Hi. generalize (foldl (fun d b => kv260_lane data mask d address b) d [0; 1; 2; 3]) as d'.
  intros d' Hd' Hf' Ho Hi. split; [|done].
  unfold kv260_memory_read.
  assert (Hb : forall a, is_u8 (kv260_byte d' a)).
  { intros a. unfold kv260_byte. repeat case_bool; auto using znth_u8. done. }
  transitivity (or_bytes 0 (map (fun b => kv260_byte d' (u32 (address + b))) [0; 1; 2; 3])).
  { cbn [foldl map or_bytes]. by rewrite Z.lor_0_l, Z.lor_0_r, !Z.lor_assoc. }
  rewrite or_bytes_val; [|lia|apply Forall_map, Forall_forall; intros; apply Hb].
  rewrite Z.mul_1_r. f_equal. apply map_ext_in. intros b Hb4%list_elem_of_In. by apply Hi.
Qed.

(** ** The staged ROM image *)

Lemma znth_splice (l new : list Z) i j :
  0 <= i -> i + msize new <= msize l ->
  znth 0 (splice (Z.to_nat i) new l) j =
    if (i <=? j) && (j <? i + msize new) then znth 0 new (j - i) else znth 0 l j.
Proof.
  unfold msize. intros Hi Hl. unfold znth, zlookup.
  destruct (Z.leb_spec 0 j) as [Hj|Hj].
  2: { by rewrite (proj2 (Z.leb_gt i j)) by lia. }
  unfold splice. assert (Ht : length (take (Z.to_nat i) l) = Z.to_nat i) by (rewrite length_take; lia).
  destruct (Z.leb_spec i j); cbn [andb]; [destruct (Z.ltb_spec j (i + Z.of_nat (length new)))|].
  - rewrite (proj2 (Z.leb_le 0 (j - i))) by lia.
    rewrite lookup_app_r, lookup_app_l by lia. f_equal. f_equal. lia.
  - rewrite app_assoc, lookup_app_r by (rewrite length_app; lia).
    rewrite lookup_drop, length_app, Ht. f_equal. f_equal. lia.
  - rewrite lookup_app_l by lia. by rewrite lookup_take_lt by lia.
Qed.

Lemma msize_splice (l new : list Z) i :
  0 <= i -> i + msize new <= msize l -> msize (splice (Z.to_nat i) new l) = msize l.
Proof. unfold msize. intros. rewrite length_splice by lia. done. Qed.

Lemma znth_replicate n b j : 0 <= n -> znth 0 (replicate (Z.to_nat n) b) j = if (0 <=? j) && (j <? n) then b else 0.
Proof.
  intros Hn. unfold znth, zlookup. destruct (Z.leb_spec 0 j); [|done]. cbn [andb].
  destruct (Z.ltb_spec j n); [by rewrite lookup_replicate_2 by lia|].
  by rewrite lookup_ge_None_2 by (rewrite length_replicate; lia).
Qed.

Lemma msize_replicate n b : 0 <= n -> msize (replicate (Z.to_nat n) b) = n.
Proof. intros. unfold msize. rewrite length_replicate. lia. Qed.

Lemma znth_fill lo hi b m j :
  0 <= lo -> lo <= hi -> hi <= msize m ->
  znth 0 (fill lo hi b m) j = if (lo <=? j) && (j <? hi) then b else znth 0 m j.
Proof.
  intros. unfold fill. rewrite znth_splice by (rewrite ?msize_replicate; lia).
  rewrite msize_replicate, znth_replicate by lia. repeat case_bool; done || lia.
Qed.

Lemma msize_fill lo hi b m : 0 <= lo -> lo <= hi -> hi <= msize m -> msize (fill lo hi b m) = msize m.
Proof. intros. unfold fill. apply msize_splice; rewrite ?msize_replicate; lia. Qed.

Lemma znth_take (l : list Z) n j : 0 <= j < n -> znth 0 (take (Z.to_nat n) l) j = znth 0 l j.
Proof.
  intros Hj. unfold znth, zlookup. rewrite (proj2 (Z.leb_le 0 j)) by lia.
  by rewrite lookup_take_lt by lia.
Qed.

Lemma znth_ddr_write off data m j :
  0 <= off -> 
  znth 0 (ddr_write off data m) j =
    if (off <=? j) && (j <? off + msize data) && (j <? msize m) then znth 0 data (j - off) else znth 0 m j.
Proof.
  intros Ho. unfold ddr_write. destruct (Z.leb_spec (msize m) off) as [H|H].
  - destruct (Z.ltb_spec j (msize m)); [|by rewrite andb_false_r].
    by rewrite (proj2 (Z.leb_gt off j)) by lia.
  - assert (Ht : msize (take (Z.to_nat (Z.min (msize data) (msize m - off))) data)
      = Z.min (msize data) (msize m - off)) by (unfold msize in *; rewrite length_take; lia).
    rewrite znth_splice, Ht by lia.
    destruct (Z.leb_spec off j); cbn [andb]; [|done].
    destruct (Z.ltb_spec j (off + msize data)), (Z.ltb_spec j (msize m)); cbn [andb];
      destruct (Z.ltb_spec j (off + Z.min (msize data) (msize m - off))); try lia; try done.
    by rewrite znth_take by lia.
Qed.

Lemma msize_ddr_write off data m : 0 <= off -> msize (ddr_write off data m) = msize m.
Proof.
  intros. unfold ddr_write. case_bool; [done|]. apply msize_splice; [done|].
  unfold msize in *. rewrite length_take. lia.
Qed.

(** Sizes of nested fills. *)
Ltac fill_size := first [lia | rewrite msize_replicate by lia; lia | rewrite msize_fill by fill_size; fill_size].

(** The guest's first megabyte as the boot ROM copier expects it. *)
Definition rom_image (boot0 boot1 : list Z) (a : Z) : Z :=
  let boot0_offset := if 65536 <? msize boot0 then 0xE0000 else 0xF0000 in
  if (boot0_offset <=? a) && (a <? boot0_offset + msize boot0) then znth 0 boot0 (a - boot0_offset)
  else if (0xC0000 <=? a) && (a <? 0xC0000 + msize boot1) then znth 0 boot1 (a - 0xC0000)
  else if (0xCE000 <=? a) && (a <? 0xD0000) then 0
  else if (0xC0000 <=? a) && (a <? 0x100000) then 0xFF
  else 0.

(** Staging leaves in memory exactly the system ROM at its offset over the
    video ROM at 0xC0000 over the cleared MiSTer window, the unused ROM space as
    0xFF and everything else, the video memory included, zero; images that do
    not fit are cut at the end of memory. *)
Lemma roms_staged boot0 boot1 m a :
  0x100000 <= msize m -> 0 <= a < msize m ->
  msize (stage_roms_to_ddr boot0 boot1 m) = msize m /\
  znth 0 (stage_roms_to_ddr boot0 boot1 m) a = rom_image boot0 boot1 a.
Proof.
  intros Hm Ha. unfold stage_roms_to_ddr. cbv zeta.
  replace (length m) with (Z.to_nat (msize m)) by (unfold msize; lia).
  assert (Hoff : 0 <= (if 65536 <? msize boot0 then 0xE0000 else 0xF0000)) by (case_bool; lia).
  assert (S0 : msize (replicate (Z.to_nat (msize m)) 0) = msize m) by (apply msize_replicate; lia).
  rewrite !msize_ddr_write by lia. split; [by rewrite !msize_fill by fill_size|].
  rewrite !znth_ddr_write, !msize_ddr_write by lia.
  rewrite !znth_fill, !msize_fill by fill_size. rewrite S0, znth_replicate by lia.
  unfold rom_image. replace (a <? msize m) with true by lia. rewrite !andb_true_r.
  replace (0 <=? a) with true by lia. cbn [andb].
  generalize (if 65536 <? msize boot0 then 0xE0000 else 0xF0000) as off. intros off.
  repeat (case_bool; try done; try lia).
Qed.

(** ** Witnesses *)

Definition busy_ddr : Ddr := ddr_init <| ddr_busy_period := 3 |> <| ddr_busy_len := 1 |>.

Lemma busy_ddr_ok : ddr_ok busy_ddr.
Proof. by apply (ddr_ok_frame ddr_init), ddr_init_ok. Qed.

(** Address 0x30000008, the low four bytes enabled. *)
Definition demo_request : Request := mkRequest true true 0x6000001 0x0F 0x1122334455667788.

Lemma demo_request_ok : request_ok demo_request.
Proof. repeat split; by vm_compute. Qed.

Lemma memory_refines_witness :
  exists d' readys answers, ddr_run busy_ddr [demo_request; demo_request] = Some (d', readys, answers) /\
    ddr_ok d' /\ length readys = 2%nat /\
    answers = (spec_run (phys_mapped busy_ddr) (phys_byte busy_ddr) (zip [demo_request; demo_request] readys)).2.
Proof.
  destruct (memory_refines [demo_request; demo_request] busy_ddr busy_ddr_ok) as (d' & rd & an & E & Hok & Hl & _ & Ha).
  { constructor; [exact demo_request_ok|]. constructor; [exact demo_request_ok|constructor]. }
  exists d', rd, an. split_and!; assumption.
Defined.

Lemma wait_states_end_witness :
  exists j d1 d2, (j <= 1)%nat /\ edges busy_ddr (take j [demo_request]) = Some d1 /\
    clock_edge d1 demo_request = Some d2 /\ ddram_resp_valid d2 = true /\
    ddram_resp_data d2 = phys_word d1 (8 * ddram_addr demo_request).
Proof.
  apply (wait_states_end busy_ddr demo_request [demo_request] busy_ddr_ok demo_request_ok);
    [constructor; [exact demo_request_ok|constructor]|lazy; congruence|split; lazy; congruence| | | | |];
    lazy; congruence.
Defined.

Lemma random_state_alive_witness :
  exists d', edges ddr_init [demo_request] = Some d' /\
    is_u64 (ddr_busy_rand_state d') /\ ddr_busy_rand_state d' <> 0.
Proof.
  destruct (edges_ok [demo_request] ddr_init ddr_init_ok) as (d' & E & _).
  { constructor; [exact demo_request_ok|constructor]. }
  exists d'. split; [exact E|]. refine (random_state_alive [demo_request] ddr_init _ _ d' E).
  - split; lazy; congruence.
  - lazy; congruence.
Defined.

Definition small_ddr : Ddr := ddr_init <| ddram_mem := [1; 2; 3; 4; 5; 6; 7; 8] |> <| fb_mem := [] |>.

Lemma kv260_write_read_witness :
  bytes (ddram_mem small_ddr) /\
  kv260_memory_read (kv260_memory_write small_ddr 5 0xAABBCCDD 5) 5 = 0x00BB07DD.
Proof.
  assert (H : bytes [1; 2; 3; 4; 5; 6; 7; 8]) by (repeat (apply bytes_cons; [by vm_compute|]); apply bytes_nil).
  split; [exact H|].
  rewrite (proj1 (kv260_write_read small_ddr 5 0xAABBCCDD 5 H bytes_nil)). reflexivity.
Defined.

Lemma roms_staged_witness :
  let m := replicate (Z.to_nat 0x100000) 7 in
  msize (stage_roms_to_ddr [0xEA] [0x55; 0xAA] m) = msize m /\
  znth 0 (stage_roms_to_ddr [0xEA] [0x55; 0xAA] m) 0xC0001 = 0xAA.
Proof.
  cbv zeta. apply (roms_staged [0xEA] [0x55; 0xAA]); rewrite msize_replicate by done; [done|split; done].
Defined.
