(* ===== verification/Clock.v ===== *)
(** * One step of the simulated clock

    [step] and [full_step] of verilator/main.cpp around the model's [eval],
    which is a parameter: the memory slave of [Ddr], the fractional audio clock
    and the recorded samples, the capture of the accelerator's memory writes and
    of the palette, and the detector of audio dropouts. *)
From S2P Require Import Prelude Ddr.

Record Pixel := mkPixel { px_a : Z; px_b : Z; px_g : Z; px_r : Z }.

Definition black : Pixel := mkPixel 0xff 0 0 0.

Definition AUDIO_SAMPLE_RATE : Z := 48000.
Definition SIM_SYS_CLOCK_HZ : Z := 20000000.
Definition AUDIO_CLOCK_HZ : Z := 24576000.
Definition FLATLINE_HOLD_THRESHOLD : Z := 150000.
Definition ZSST_MEM_SIZE : Z := 16 * 1024 * 1024.

(** The model's ports that [step] drives. *)
Record CoreIn := mkCoreIn {
  clk_sys : bool;
  clk_audio : bool;
  ddram_busy : bool;
  ddram_dout_ready : bool;
  ddram_dout : Z
}.

#[export] Instance eta_CoreIn : Eta CoreIn :=
  fun r => mkCoreIn (clk_sys r) (clk_audio r) (ddram_busy r) (ddram_dout_ready r) (ddram_dout r).

(** The ports that [step] samples. *)
Record CoreOut := mkCoreOut {
  request : Request;
  audio_l : Z;
  audio_r : Z;
  dbg_zsst_mem_write_valid : bool;
  dbg_zsst_mem_write_address : Z;
  dbg_zsst_mem_write_strobe : Z;
  dbg_zsst_mem_write_data : list Z;   (* four 32-bit words *)
  sample_sb_l : Z;
  fb_pal_wr : bool;
  fb_pal_addr : Z;
  fb_pal_data : Z
}.

(** The static locals of the dropout detector and the globals it sets. *)
Record Flatline := mkFlatline {
  fl_last : Z;            (* int16_t *)
  fl_hold : Z;            (* uint64_t *)
  fl_start : Z;           (* uint64_t *)
  trace_start_cycle : Z;  (* uint64_t *)
  force_stop_cycle : Z    (* uint64_t *)
}.

#[export] Instance eta_Flatline : Eta Flatline :=
  fun r => mkFlatline (fl_last r) (fl_hold r) (fl_start r) (trace_start_cycle r) (force_stop_cycle r).

Definition flatline_init : Flatline := mkFlatline 0 0 0 0 0.

(** Command-line settings. *)
Record Settings := mkSettings {
  g_no_audio_clock : bool;
  recording : bool;                   (* [wav_writer] is set *)
  arm_trace_on_flatline : bool;
  flatline_trace_window : Z
}.

Definition s16 (x : Z) : Z := if 32768 <=? u16 x then u16 x - 65536 else u16 x.

(** ** Pieces of [step] *)

Definition expand_dac_color (value : Z) : Z := u8 (Z.lor (Z.shiftl value 2) (Z.shiftr value 4)).

Definition palette_entry (data : Z) : Pixel :=
  mkPixel 0xff (expand_dac_color (Z.land data 0x3f)) (expand_dac_color (Z.land (Z.shiftr data 6) 0x3f))
    (expand_dac_color (Z.land (Z.shiftr data 12) 0x3f)).

(** The palette snoop; the port is eight bits wide. *)
Definition palette_write (o : CoreOut) (palette : list Pixel) : option (list Pixel) :=
  if fb_pal_wr o then zupdate palette (u8 (fb_pal_addr o)) (palette_entry (fb_pal_data o)) else Some palette.

Definition zsst_lanes : list Z := map Z.of_nat (seq 0 16).

Definition zsst_lane (o : CoreOut) (mem : list Z) (lane : Z) : list Z :=
  if negb (Z.land (Z.shiftr (dbg_zsst_mem_write_strobe o) lane) 1 =? 0) then
    let offset := dbg_zsst_mem_write_address o + lane in
    if offset <? msize mem then
      <[Z.to_nat offset :=
         u8 (Z.shiftr (znth 0 (dbg_zsst_mem_write_data o) (Z.shiftr lane 2)) (Z.land lane 3 * 8))]> mem
    else mem
  else mem.

Definition zsst_write (o : CoreOut) (mem : list Z) : list Z :=
  if dbg_zsst_mem_write_valid o && (dbg_zsst_mem_write_address o <? msize mem) then
    foldl (zsst_lane o) mem zsst_lanes
  else mem.

Definition flatline_step (c : Settings) (current_cycle v : Z) (f : Flatline) : Flatline :=
  let v := s16 v in
  if v =? fl_last f then
    let f := f <| fl_hold := u64 (fl_hold f + 1) |> in
    if arm_trace_on_flatline c && negb (fl_last f =? 0) && (fl_hold f =? FLATLINE_HOLD_THRESHOLD) &&
       (force_stop_cycle f =? 0) then
      f <| trace_start_cycle := current_cycle |>
        <| force_stop_cycle := u64 (current_cycle + flatline_trace_window c) |>
    else f
  else f <| fl_last := v |> <| fl_hold := 0 |> <| fl_start := current_cycle |>.

(** ** [step] *)

(** The simulator: the Verilated model's state and the globals of [step]. *)
Record Sim (Core : Type) := mkSim {
  core : Core;
  cin : CoreIn;
  cout : CoreOut;
  ddr : Ddr;
  zsst_mem : list Z;
  fb_palette : list Pixel;
  audio_clock_accum : Z;     (* uint32_t *)
  audio_sample_accum : Z;    (* uint32_t *)
  wav : list (Z * Z);        (* samples written *)
  flatline : Flatline;
  current_cycle : Z;
  posedge : bool;
  sim_time : Z               (* uint64_t *)
}.
#[global] Arguments mkSim {Core}.
#[global] Arguments core {Core}.
#[global] Arguments cin {Core}.
#[global] Arguments cout {Core}.
#[global] Arguments ddr {Core}.
#[global] Arguments zsst_mem {Core}.
#[global] Arguments fb_palette {Core}.
#[global] Arguments audio_clock_accum {Core}.
#[global] Arguments audio_sample_accum {Core}.
#[global] Arguments wav {Core}.
#[global] Arguments flatline {Core}.
#[global] Arguments current_cycle {Core}.
#[global] Arguments posedge {Core}.
#[global] Arguments sim_time {Core}.

#[export] Instance eta_Sim Core : Eta (Sim Core) :=
  fun r => mkSim (core r) (cin r) (cout r) (ddr r) (zsst_mem r) (fb_palette r) (audio_clock_accum r)
    (audio_sample_accum r) (wav r) (flatline r) (current_cycle r) (posedge r) (sim_time r).

Section Step.
(** The model's [eval], and the settings. *)
Context {Core : Type} (eval : Core -> CoreIn -> Core * CoreOut) (cfg : Settings).
Notation Sim := (Sim Core).

Definition do_eval (s : Sim) : Sim :=
  let '(c, o) := eval (core s) (cin s) in s <| core := c |> <| cout := o |>.

(** A rising audio edge of a recording run: one sample every 512. *)
Definition audio_sample (s : Sim) : Sim :=
  if clk_audio (cin s) && recording cfg then
    let s := s <| audio_sample_accum := u32 (audio_sample_accum s + AUDIO_SAMPLE_RATE) |> in
    if AUDIO_CLOCK_HZ <=? audio_sample_accum s then
      s <| audio_sample_accum := u32 (audio_sample_accum s - AUDIO_CLOCK_HZ) |>
        <| wav := wav s ++ [(s16 (audio_l (cout s)), s16 (audio_r (cout s)))] |>
    else s
  else s.

(** One edge of the audio clock. *)
Definition audio_edge (s : Sim) : Sim :=
  let s := s <| audio_clock_accum := u32 (audio_clock_accum s - 2 * SIM_SYS_CLOCK_HZ) |>
             <| cin := cin s <| clk_audio := negb (clk_audio (cin s)) |> |> in
  audio_sample (do_eval s).

(** The [while] loop over the accumulator; [None] when [fuel] runs out. *)
Fixpoint audio_loop (fuel : nat) (s : Sim) : option Sim :=
  if 2 * SIM_SYS_CLOCK_HZ <=? audio_clock_accum s then
    match fuel with
    | O => None
    | S fuel => audio_loop fuel (audio_edge s)
    end
  else Some s.

Definition audio_advance (s : Sim) : option Sim :=
  let s := if g_no_audio_clock cfg then s
           else s <| audio_clock_accum := u32 (audio_clock_accum s + 2 * AUDIO_CLOCK_HZ) |> in
  audio_loop (Z.to_nat (audio_clock_accum s / (2 * SIM_SYS_CLOCK_HZ))) s.

(** What [step] does on a rising edge of the system clock. *)
Definition on_posedge (s : Sim) : option Sim :=
  let s := s <| zsst_mem := zsst_write (cout s) (zsst_mem s) |>
             <| flatline := flatline_step cfg (current_cycle s) (sample_sb_l (cout s)) (flatline s) |> in
  d ← slave_edge (ddr s);
  p ← palette_write (cout s) (fb_palette s);
  Some (s <| ddr := d |> <| fb_palette := p |>).

Definition step (s : Sim) : option Sim :=
  let low := negb (clk_sys (cin s)) in
  let d := if low then draw (ddr s) else ddr s in
  let busy := ddram_busy_now d in
  let i := cin s <| ddram_busy := busy |> <| ddram_dout_ready := ddram_resp_valid d |>
                 <| ddram_dout := ddram_resp_data d |> in
  let d := if low then latch d (request (cout s)) busy else d in
  let i := i <| clk_sys := negb (clk_sys i) |> in
  let s := s <| ddr := d |> <| cin := i |> <| posedge := clk_sys i |> in
  s ← audio_advance (do_eval s);
  s ← (if posedge s then on_posedge s else Some s);
  Some (s <| sim_time := u64 (sim_time s + 1) |>).

Definition full_step (s : Sim) : option Sim := s ← step s; step s.

Fixpoint steps (n : nat) (s : Sim) : option Sim :=
  match n with
  | O => Some s
  | S n => s ← step s; steps n s
  end.

End Step.

(** ** Audio *)

(** Rising edges among [e] edges of a clock that is at [b]. *)
Definition rises (e : Z) (b : bool) : Z := (e + b2z (negb b)) / 2.

Lemma rises_0 b : rises 0 b = 0.
Proof. by destruct b. Qed.

Lemma rises_succ e b : 0 <= e -> rises 1 b + rises e (negb b) = rises (e + 1) b.
Proof. intros. unfold rises. destruct b; cbn [negb b2z]; divlia. Qed.

Lemma rises_add e1 e2 b : 0 <= e1 -> 0 <= e2 -> rises e1 b + rises e2 (xorb b (Z.odd e1)) = rises (e1 + e2) b.
Proof.
  intros H1 H2. pose proof (Zmod_odd e1) as Ho. unfold rises.
  destruct b, (Z.odd e1); cbn [negb b2z xorb]; divlia.
Qed.

(** The model's memory requests fit the port, in every state it can show. *)
Definition requests_fit {Core : Type} (eval : Core -> CoreIn -> Core * CoreOut) : Prop :=
  forall c i, request_ok (request (eval c i).2).

Section Audio.
Context {Core : Type} (eval : Core -> CoreIn -> Core * CoreOut) (eval_fits : requests_fit eval) (cfg : Settings).

(** What the audio part may change: [e] audio edges lie between the states. *)
Record audio_rel (e : Z) (s s' : Sim Core) : Prop := mkAudioRel {
  ar_clk : clk_audio (cin s') = xorb (clk_audio (cin s)) (Z.odd e);
  ar_samples : exists new, wav s' = wav s ++ new /\
    if recording cfg
    then AUDIO_CLOCK_HZ * Z.of_nat (length new) + audio_sample_accum s'
         = audio_sample_accum s + AUDIO_SAMPLE_RATE * rises e (clk_audio (cin s))
    else new = [] /\ audio_sample_accum s' = audio_sample_accum s;
  ar_accum : 0 <= audio_sample_accum s' < AUDIO_CLOCK_HZ;
  ar_request : request_ok (request (cout s)) -> request_ok (request (cout s'));
  ar_sys : clk_sys (cin s') = clk_sys (cin s);
  ar_port : ddram_busy (cin s') = ddram_busy (cin s) /\ ddram_dout_ready (cin s') = ddram_dout_ready (cin s) /\
    ddram_dout (cin s') = ddram_dout (cin s);
  ar_ddr : ddr s' = ddr s;
  ar_zsst : zsst_mem s' = zsst_mem s;
  ar_palette : fb_palette s' = fb_palette s;
  ar_flatline : flatline s' = flatline s;
  ar_cycle : current_cycle s' = current_cycle s;
  ar_posedge : posedge s' = posedge s;
  ar_time : sim_time s' = sim_time s
}.

Lemma audio_rel_refl s : 0 <= audio_sample_accum s < AUDIO_CLOCK_HZ -> audio_rel 0 s s.
Proof.
  intros Ha. constructor; try done.
  - by rewrite xorb_false_r.
  - exists []. rewrite app_nil_r. split; [done|]. destruct (recording cfg); [|done].
    rewrite rises_0. cbn [length]. lia.
Qed.

Lemma audio_rel_trans e1 e2 s1 s2 s3 :
  0 <= e1 -> 0 <= e2 -> audio_rel e1 s1 s2 -> audio_rel e2 s2 s3 -> audio_rel (e1 + e2) s1 s3.
Proof.
  intros P1 P2 [A1 (n1 & A2 & A3) A4 Aq A5 A6 A7 A8 A9 A10 A11 A12 A13]
    [B1 (n2 & B2 & B3) B4 Bq B5 B6 B7 B8 B9 B10 B11 B12 B13].
  destruct A6 as (? & ? & ?), B6 as (? & ? & ?).
  constructor; try congruence; try done; try (split_and!; congruence); try (by auto).
  - rewrite B1, A1, Z.odd_add. by destruct (clk_audio (cin s1)), (Z.odd e1), (Z.odd e2).
  - exists (n1 ++ n2). rewrite B2, A2, app_assoc. split; [done|].
    destruct (recording cfg).
    + rewrite length_app, Nat2Z.inj_add, <- rises_add by done. rewrite A1 in B3.
      clear -A3 B3. unfold AUDIO_CLOCK_HZ, AUDIO_SAMPLE_RATE in *. lia.
    + destruct A3 as [-> ?], B3 as [-> ?]. split; [done|congruence].
Qed.

(** ** [eval] touches only the model's side *)

Record eval_rel (s s' : Sim Core) : Prop := mkEvalRel {
  er_request : request_ok (request (cout s'));
  er_cin : cin s' = cin s;
  er_ddr : ddr s' = ddr s;
  er_zsst : zsst_mem s' = zsst_mem s;
  er_palette : fb_palette s' = fb_palette s;
  er_clock_accum : audio_clock_accum s' = audio_clock_accum s;
  er_sample_accum : audio_sample_accum s' = audio_sample_accum s;
  er_wav : wav s' = wav s;
  er_flatline : flatline s' = flatline s;
  er_cycle : current_cycle s' = current_cycle s;
  er_posedge : posedge s' = posedge s;
  er_time : sim_time s' = sim_time s
}.

Lemma do_eval_rel s : eval_rel s (do_eval eval s).
Proof.
  unfold do_eval. pose proof (eval_fits (core s) (cin s)) as Hf.
  destruct (eval (core s) (cin s)) as [c o]. by constructor.
Qed.

(** What the sample part may change. *)
Record sample_rel (s s' : Sim Core) : Prop := mkSampleRel {
  sr_cin : cin s' = cin s;
  sr_cout : cout s' = cout s;
  sr_samples : exists new, wav s' = wav s ++ new /\
    if recording cfg
    then AUDIO_CLOCK_HZ * Z.of_nat (length new) + audio_sample_accum s'
         = audio_sample_accum s + AUDIO_SAMPLE_RATE * b2z (clk_audio (cin s))
    else new = [] /\ audio_sample_accum s' = audio_sample_accum s;
  sr_accum : 0 <= audio_sample_accum s' < AUDIO_CLOCK_HZ;
  sr_ddr : ddr s' = ddr s;
  sr_zsst : zsst_mem s' = zsst_mem s;
  sr_palette : fb_palette s' = fb_palette s;
  sr_clock_accum : audio_clock_accum s' = audio_clock_accum s;
  sr_flatline : flatline s' = flatline s;
  sr_cycle : current_cycle s' = current_cycle s;
  sr_posedge : posedge s' = posedge s;
  sr_time : sim_time s' = sim_time s
}.

Lemma audio_sample_rel s :
  0 <= audio_sample_accum s < AUDIO_CLOCK_HZ -> sample_rel s (audio_sample cfg s).
Proof.
  intros Ha. unfold audio_sample. cbv zeta. cbn [audio_sample_accum set_field]. cbn.
  rewrite !(u32_id (audio_sample_accum s + AUDIO_SAMPLE_RATE))
    by (unfold is_u32, AUDIO_CLOCK_HZ, AUDIO_SAMPLE_RATE in *; lia).
  destruct (clk_audio (cin s)) eqn:Ec; cbn [andb];
    [destruct (recording cfg) eqn:Er; [destruct (Z.leb_spec AUDIO_CLOCK_HZ (audio_sample_accum s + AUDIO_SAMPLE_RATE))|]|].
  - rewrite u32_id by (unfold is_u32, AUDIO_CLOCK_HZ, AUDIO_SAMPLE_RATE in *; lia).
    constructor; try done; cbn; [|unfold AUDIO_CLOCK_HZ, AUDIO_SAMPLE_RATE in *; lia].
    eexists. split; [done|]. rewrite Er, Ec. unfold AUDIO_CLOCK_HZ, AUDIO_SAMPLE_RATE. cbn [length b2z]. lia.
  - constructor; try done; cbn; [|unfold AUDIO_CLOCK_HZ, AUDIO_SAMPLE_RATE in *; lia].
    exists []. split; [by rewrite app_nil_r|]. rewrite Er, Ec. cbn [length b2z]. lia.
  - constructor; try done. exists []. rewrite Er. by rewrite app_nil_r.
  - constructor; try done. exists []. split; [by rewrite app_nil_r|].
    destruct (recording cfg); [|done]. rewrite Ec. cbn [length b2z]. lia.
Qed.

Lemma audio_edge_rel s :
  0 <= audio_sample_accum s < AUDIO_CLOCK_HZ ->
  2 * SIM_SYS_CLOCK_HZ <= audio_clock_accum s < 4294967296 ->
  audio_rel 1 s (audio_edge eval cfg s) /\
  audio_clock_accum (audio_edge eval cfg s) = audio_clock_accum s - 2 * SIM_SYS_CLOCK_HZ.
Proof.
  intros Ha Hc. unfold audio_edge. cbv zeta.
  match goal with |- context [do_eval eval ?x] =>
    destruct (do_eval_rel x) as [Eq E1 E2 E3 E4 E5 E6 E7 E8 E9 E10 E11]; revert Eq E1 E2 E3 E4 E5 E6 E7 E8 E9 E10 E11;
    generalize (do_eval eval x) as s1 end.
  intros s1. cbn. intros Eq E1 E2 E3 E4 E5 E6 E7 E8 E9 E10 E11.
  rewrite u32_id in E5 by (unfold is_u32, SIM_SYS_CLOCK_HZ in *; lia).
  destruct (audio_sample_rel s1 ltac:(by rewrite E6)) as [F1 Fq (new & F2 & F3) F4 F5 F6 F7 F8 F9 F10 F11 F12].
  split; [|congruence].
  constructor; rewrite ?F1, ?Fq, ?E1; try done; try congruence.
  exists new. split; [congruence|]. destruct (recording cfg); [|by rewrite <- E6].
  rewrite F3, E6, E1. cbn. unfold rises. by destruct (clk_audio (cin s)).
Qed.

Lemma audio_loop_rel n : forall s,
  0 <= audio_sample_accum s < AUDIO_CLOCK_HZ -> is_u32 (audio_clock_accum s) ->
  audio_clock_accum s / (2 * SIM_SYS_CLOCK_HZ) = Z.of_nat n ->
  exists s', audio_loop eval cfg n s = Some s' /\ audio_rel (Z.of_nat n) s s' /\
    audio_clock_accum s' = audio_clock_accum s mod (2 * SIM_SYS_CLOCK_HZ).
Proof.
  unfold is_u32, SIM_SYS_CLOCK_HZ. induction n as [|n IH]; intros s Ha Hu Hn; cbn [audio_loop];
    unfold SIM_SYS_CLOCK_HZ.
  - rewrite (proj2 (Z.leb_gt _ _)) by divlia. exists s. split_and!; [done|by apply audio_rel_refl|divlia].
  - rewrite (proj2 (Z.leb_le _ _)) by divlia.
    destruct (audio_edge_rel s Ha) as [Hr He]; [unfold SIM_SYS_CLOCK_HZ; divlia|].
    unfold SIM_SYS_CLOCK_HZ in He.
    destruct (IH (audio_edge eval cfg s) (ar_accum _ _ _ Hr)) as (s' & -> & Hr' & Hs');
      [rewrite He; divlia|rewrite He; divlia|].
    exists s'. split; [done|]. split.
    + replace (Z.of_nat (S n)) with (1 + Z.of_nat n) by lia. eapply audio_rel_trans; eauto; lia.
    + rewrite Hs', He. divlia.
Qed.
End Audio.

(** ** A step *)

Record sim_ok {Core : Type} (s : Sim Core) : Prop := mkSimOk {
  sok_ddr : ddr_ok (ddr s);
  sok_request : request_ok (request (cout s));
  sok_zsst : bytes (zsst_mem s);
  sok_palette : length (fb_palette s) = 256%nat;
  sok_clock : 0 <= audio_clock_accum s < 2 * SIM_SYS_CLOCK_HZ;
  sok_sample : 0 <= audio_sample_accum s < AUDIO_CLOCK_HZ
}.

Section Stepping.
Context {Core : Type} (eval : Core -> CoreIn -> Core * CoreOut) (eval_fits : requests_fit eval) (cfg : Settings).

(** The audio clock's advance in one step. *)
Definition audio_increment : Z := if g_no_audio_clock cfg then 0 else 2 * AUDIO_CLOCK_HZ.

Lemma audio_advance_rel s :
  0 <= audio_sample_accum s < AUDIO_CLOCK_HZ -> 0 <= audio_clock_accum s < 2 * SIM_SYS_CLOCK_HZ ->
  exists s', audio_advance eval cfg s = Some s' /\
    audio_rel cfg ((audio_clock_accum s + audio_increment) / (2 * SIM_SYS_CLOCK_HZ)) s s' /\
    audio_clock_accum s' = (audio_clock_accum s + audio_increment) mod (2 * SIM_SYS_CLOCK_HZ).
Proof.
  intros Ha Hc. unfold audio_advance, audio_increment. cbv zeta.
  destruct (g_no_audio_clock cfg).
  - rewrite Z.add_0_r.
    destruct (audio_loop_rel eval eval_fits cfg (Z.to_nat (audio_clock_accum s / (2 * SIM_SYS_CLOCK_HZ))) s Ha)
      as (s' & E & Hr & Hs'); [unfold is_u32, SIM_SYS_CLOCK_HZ in *; lia|unfold SIM_SYS_CLOCK_HZ in *; divlia|].
    rewrite Z2Nat.id in Hr by (unfold SIM_SYS_CLOCK_HZ in *; divlia). by exists s'.
  - cbn [audio_clock_accum set_field]. cbn.
    assert (Hb : is_u32 (audio_clock_accum s + 2 * AUDIO_CLOCK_HZ))
      by (unfold is_u32, SIM_SYS_CLOCK_HZ, AUDIO_CLOCK_HZ in *; lia).
    rewrite u32_id by done. revert Hb.
    generalize dependent (audio_clock_accum s + 2 * AUDIO_CLOCK_HZ). intros a Hb. unfold is_u32 in Hb.
    assert (E1 : audio_clock_accum (s <| audio_clock_accum := a |>) = a) by done.
    assert (E2 : audio_sample_accum (s <| audio_clock_accum := a |>) = audio_sample_accum s) by done.
    assert (E3 : forall e s', audio_rel cfg e (s <| audio_clock_accum := a |>) s' -> audio_rel cfg e s s').
    { intros e s' []. by constructor. }
    revert E1 E2 E3. generalize (s <| audio_clock_accum := a |>). intros s1 E1 E2 E3.
    destruct (audio_loop_rel eval eval_fits cfg (Z.to_nat (a / (2 * SIM_SYS_CLOCK_HZ))) s1)
      as (s' & E & Hr & Hs'); [by rewrite E2|by rewrite E1|rewrite E1; unfold SIM_SYS_CLOCK_HZ; divlia|].
    rewrite Z2Nat.id in Hr by (unfold SIM_SYS_CLOCK_HZ; divlia). rewrite E1 in Hs'.
    exists s'. auto.
Qed.

Lemma zsst_lane_ok o m lane : bytes m -> bytes (zsst_lane o m lane) /\ length (zsst_lane o m lane) = length m.
Proof.
  intros Hm. unfold zsst_lane. cbv zeta. repeat case_bool; rewrite ?length_insert; auto.
  split; [|done]. apply bytes_insert; [apply u8_range|done].
Qed.

Lemma zsst_lanes_ok o ls : forall m, bytes m ->
  bytes (foldl (zsst_lane o) m ls) /\ length (foldl (zsst_lane o) m ls) = length m.
Proof.
  induction ls as [|l ls IH]; intros m Hm; [done|]. cbn [foldl].
  destruct (zsst_lane_ok o m l Hm) as [H1 H2]. destruct (IH _ H1) as [H3 H4]. by rewrite H4, H2.
Qed.

Lemma zsst_write_ok o m : bytes m -> bytes (zsst_write o m) /\ length (zsst_write o m) = length m.
Proof. intros Hm. unfold zsst_write. case_bool; [by apply zsst_lanes_ok|done]. Qed.

Lemma palette_write_ok o p :
  length p = 256%nat -> exists p', palette_write o p = Some p' /\ length p' = 256%nat.
Proof.
  intros Hp. unfold palette_write. destruct (fb_pal_wr o); [|by exists p].
  pose proof (u8_range (fb_pal_addr o)) as Hu. unfold is_u8 in Hu.
  rewrite zupdate_Some by lia. eexists. split; [done|]. by rewrite length_insert.
Qed.

(** What [step] does, from a state in which the invariant holds. *)
Record step_rel (s s' : Sim Core) : Prop := mkStepRel {
  st_ok : sim_ok s';
  st_clk : clk_sys (cin s') = negb (clk_sys (cin s));
  st_posedge : posedge s' = negb (clk_sys (cin s));
  st_ready : ddram_dout_ready (cin s') = ddram_resp_valid (ddr s);
  st_dout : ddram_dout (cin s') = ddram_resp_data (ddr s);
  st_memory : if clk_sys (cin s) then ddr s' = ddr s
              else clock_edge (ddr s) (request (cout s)) = Some (ddr s') /\
                   ddram_busy (cin s') = negb (accepts (ddr s));
  st_accum : audio_clock_accum s' = (audio_clock_accum s + audio_increment) mod (2 * SIM_SYS_CLOCK_HZ);
  st_audio : let e := (audio_clock_accum s + audio_increment) / (2 * SIM_SYS_CLOCK_HZ) in
    clk_audio (cin s') = xorb (clk_audio (cin s)) (Z.odd e) /\
    exists new, wav s' = wav s ++ new /\
      if recording cfg
      then AUDIO_CLOCK_HZ * Z.of_nat (length new) + audio_sample_accum s'
           = audio_sample_accum s + AUDIO_SAMPLE_RATE * rises e (clk_audio (cin s))
      else new = [] /\ audio_sample_accum s' = audio_sample_accum s;
  st_time : sim_time s' = u64 (sim_time s + 1);
  st_cycle : current_cycle s' = current_cycle s
}.

Lemma draw_resp d : ddram_resp_valid (draw d) = ddram_resp_valid d /\ ddram_resp_data (draw d) = ddram_resp_data d.
Proof. unfold draw. by case_bool. Qed.

(** The part of [step] before [audio_advance]: the ports driven and latched. *)
Definition driven (s : Sim Core) : Sim Core :=
  let low := negb (clk_sys (cin s)) in
  let d := if low then draw (ddr s) else ddr s in
  let busy := ddram_busy_now d in
  let i := cin s <| ddram_busy := busy |> <| ddram_dout_ready := ddram_resp_valid d |>
                 <| ddram_dout := ddram_resp_data d |> in
  let d := if low then latch d (request (cout s)) busy else d in
  let i := i <| clk_sys := negb (clk_sys i) |> in
  s <| ddr := d |> <| cin := i |> <| posedge := clk_sys i |>.

Lemma step_driven s :
  step eval cfg s =
    (s ← audio_advance eval cfg (do_eval eval (driven s));
     s ← (if posedge s then on_posedge cfg s else Some s);
     Some (s <| sim_time := u64 (sim_time s + 1) |>)).
Proof. done. Qed.

Lemma driven_spec s :
  sim_ok s ->
  let s1 := driven s in
  request_ok (request (cout s1)) /\
  clk_sys (cin s1) = negb (clk_sys (cin s)) /\ clk_audio (cin s1) = clk_audio (cin s) /\
  posedge s1 = negb (clk_sys (cin s)) /\
  ddram_dout_ready (cin s1) = ddram_resp_valid (ddr s) /\ ddram_dout (cin s1) = ddram_resp_data (ddr s) /\
  ddr_ok (ddr s1) /\
  (if clk_sys (cin s) then ddr s1 = ddr s
   else ddr s1 = latch (draw (ddr s)) (request (cout s)) (ddram_busy_now (draw (ddr s))) /\
        ddram_busy (cin s1) = negb (accepts (ddr s))) /\
  zsst_mem s1 = zsst_mem s /\ fb_palette s1 = fb_palette s /\
  audio_clock_accum s1 = audio_clock_accum s /\ audio_sample_accum s1 = audio_sample_accum s /\
  wav s1 = wav s /\ sim_time s1 = sim_time s /\ current_cycle s1 = current_cycle s.
Proof.
  intros [H1 Hq H2 H3 H4 H5]. cbv zeta. unfold driven. cbv zeta.
  destruct (draw_resp (ddr s)) as [R1 R2]. destruct (draw_mem (ddr s)) as [M1 M2].
  unfold accepts. destruct (clk_sys (cin s)) eqn:Ec; cbn [negb]; cbn; rewrite ?Ec, ?R1, ?R2, ?negb_involutive;
    split_and!; try done. by apply (ddr_ok_frame (ddr s)).
Qed.

Lemma step_spec s : sim_ok s -> exists s', step eval cfg s = Some s' /\ step_rel s s'.
Proof.
  intros Hok. rewrite step_driven.
  destruct (driven_spec s Hok) as (D0 & D1 & D2 & D3 & D4 & D5 & D6 & D7 & D8 & D9 & D10 & D11 & D12 & D13 & D14).
  revert D0 D1 D2 D3 D4 D5 D6 D7 D8 D9 D10 D11 D12 D13 D14. generalize (driven s) as s1.
  intros s1 D0 D1 D2 D3 D4 D5 D6 D7 D8 D9 D10 D11 D12 D13 D14. destruct Hok as [H1 Hq H2 H3 H4 H5].
  destruct (do_eval_rel eval eval_fits s1) as [E0 E1 E2 E3 E4 E5 E6 E7 E8 E9 E10 E11].
  revert E0 E1 E2 E3 E4 E5 E6 E7 E8 E9 E10 E11. generalize (do_eval eval s1) as s2. intros.
  destruct (audio_advance_rel s2) as (s3 & -> & [A1 (new & A2 & A2') A3 Aq A4 (A5 & A6 & A7) A8 A9 A10 A11 A12 A13 A14] & A15);
    [by rewrite E6, D11|by rewrite E5, D10|].
  cbn [mbind option_bind]. rewrite A13, E10, D3.
  assert (Haccum : audio_clock_accum s3 = (audio_clock_accum s + audio_increment) mod (2 * SIM_SYS_CLOCK_HZ))
    by (by rewrite A15, E5, D10).
  assert (Hz3 : bytes (zsst_mem s3)) by (by rewrite A9, E3, D8).
  assert (Hp3 : length (fb_palette s3) = 256%nat) by (by rewrite A10, E4, D9).
  assert (Hd3 : ddr_ok (ddr s3)) by (by rewrite A8, E2).
  assert (Hb : 0 <= audio_clock_accum s3 < 2 * SIM_SYS_CLOCK_HZ).
  { rewrite Haccum. apply Z.mod_pos_bound. done. }
  assert (Haudio : let e := (audio_clock_accum s + audio_increment) / (2 * SIM_SYS_CLOCK_HZ) in
    clk_audio (cin s3) = xorb (clk_audio (cin s)) (Z.odd e) /\
    exists new, wav s3 = wav s ++ new /\
      if recording cfg
      then AUDIO_CLOCK_HZ * Z.of_nat (length new) + audio_sample_accum s3
           = audio_sample_accum s + AUDIO_SAMPLE_RATE * rises e (clk_audio (cin s))
      else new = [] /\ audio_sample_accum s3 = audio_sample_accum s).
  { cbv zeta. rewrite A1, E5, D10, E1, D2. split; [done|]. exists new.
    rewrite A2, E7, D12. split; [done|]. by rewrite E5, D10, E6, D11, E1, D2 in A2'. }
  destruct (clk_sys (cin s)) eqn:Ec; cbn [negb mbind option_bind].
  - eexists. split; [done|]. constructor; cbn; try done; try congruence.
    + constructor; cbn; auto.
    + rewrite Ec. congruence.
  - destruct D7 as [D7 D7'].
    assert (Hce : slave_edge (ddr s3) = clock_edge (ddr s) (request (cout s))).
    { rewrite A8, E2, D7. unfold clock_edge. cbv zeta. reflexivity. }
    destruct (clock_edge_spec (ddr s) (request (cout s)) H1 Hq) as (d' & Hd' & Hok' & _).
    destruct (palette_write_ok (cout s3) (fb_palette s3) Hp3) as (p' & Hp' & Hpl).
    unfold on_posedge. cbv zeta. cbn [ddr cout fb_palette zsst_mem set_field].
    match goal with |- context [slave_edge ?x] => change x with (ddr s3) end.
    match goal with |- context [palette_write ?x ?y] => change x with (cout s3); change y with (fb_palette s3) end.
    rewrite Hce, Hd'. cbn [mbind option_bind]. rewrite Hp'. cbn [mbind option_bind].
    eexists. split; [done|]. constructor; cbn; try done; try congruence.
    + constructor; cbn; auto. by apply zsst_write_ok.
    + rewrite Ec. split; [done|congruence].
Qed.
End Stepping.

Section Properties.
Context {Core : Type} (eval : Core -> CoreIn -> Core * CoreOut) (eval_fits : requests_fit eval) (cfg : Settings).

(** Audio edges in [n] steps. *)
Definition audio_edges (n accum : Z) : Z := (accum + n * audio_increment cfg) / (2 * SIM_SYS_CLOCK_HZ).

Lemma audio_edges_succ n accum :
  0 <= n -> 0 <= accum < 2 * SIM_SYS_CLOCK_HZ ->
  audio_edges (n + 1) accum = audio_edges 1 accum +
    audio_edges n ((accum + audio_increment cfg) mod (2 * SIM_SYS_CLOCK_HZ)) /\
  0 <= audio_edges n accum.
Proof.
  intros Hn Ha. unfold audio_edges, audio_increment, SIM_SYS_CLOCK_HZ, AUDIO_CLOCK_HZ in *.
  destruct (g_no_audio_clock cfg).
  - rewrite !Z.mul_0_r, !Z.add_0_r. rewrite Z.mod_small by lia. split; divlia.
  - assert (0 <= n * (2 * 24576000)) by lia. split; [|apply Z.div_pos; lia].
    rewrite Z.mul_add_distr_r, Z.mul_1_l. generalize dependent (n * (2 * 24576000)). intros m Hm. divlia.
Qed.

Lemma steps_spec n : forall s,
  sim_ok s ->
  exists s', steps eval cfg n s = Some s' /\ sim_ok s' /\
    let e := audio_edges (Z.of_nat n) (audio_clock_accum s) in
    clk_audio (cin s') = xorb (clk_audio (cin s)) (Z.odd e) /\
    exists new, wav s' = wav s ++ new /\
      if recording cfg
      then AUDIO_CLOCK_HZ * Z.of_nat (length new) + audio_sample_accum s'
           = audio_sample_accum s + AUDIO_SAMPLE_RATE * rises e (clk_audio (cin s))
      else new = [].
Proof.
  induction n as [|n IH]; intros s Hok; cbv zeta.
  - exists s. split; [done|]. split; [done|]. destruct Hok as [_ _ _ _ Hc _].
    assert (E : audio_edges (Z.of_nat 0) (audio_clock_accum s) = 0).
    { unfold audio_edges. change (Z.of_nat 0) with 0. rewrite Z.mul_0_l, Z.add_0_r. by apply Z.div_small. }
    rewrite E. split; [by rewrite xorb_false_r|]. exists []. rewrite app_nil_r. split; [done|].
    destruct (recording cfg); [|done]. rewrite rises_0. cbn [length]. lia.
  - destruct (step_spec eval eval_fits cfg s Hok) as (s1 & E1 & [Hok1 _ _ _ _ _ Hac1 [Hclk1 (new1 & W1 & N1)] _ _]).
    destruct (IH s1 Hok1) as (s2 & E2 & Hok2 & Hclk2 & new2 & W2 & N2). cbv zeta in *.
    exists s2. cbn [steps]. rewrite E1. cbn [mbind option_bind]. split; [done|]. split; [done|].
    destruct (audio_edges_succ (Z.of_nat n) (audio_clock_accum s)) as [Hsum _]; [lia|by destruct Hok|].
    destruct (audio_edges_succ 1 (audio_clock_accum s)) as [_ P1]; [lia|by destruct Hok|].
    destruct (audio_edges_succ (Z.of_nat n) (audio_clock_accum s1)) as [_ P2]; [lia|by destruct Hok1|].
    replace (Z.of_nat (S n)) with (Z.of_nat n + 1) by lia. rewrite Hsum, <- Hac1.
    assert (E : (audio_clock_accum s + audio_increment cfg) / (2 * SIM_SYS_CLOCK_HZ) = audio_edges 1 (audio_clock_accum s))
      by (unfold audio_edges; by rewrite Z.mul_1_l).
    rewrite E in Hclk1, N1. split.
    + rewrite Hclk2, Hclk1, Z.odd_add. by destruct (clk_audio (cin s)), (Z.odd _), (Z.odd _).
    + exists (new1 ++ new2). rewrite W2, W1, app_assoc. split; [done|]. destruct (recording cfg).
      * rewrite length_app, Nat2Z.inj_add, <- rises_add by done. rewrite Hclk1 in N2.
        clear -N1 N2. unfold AUDIO_CLOCK_HZ, AUDIO_SAMPLE_RATE in *. lia.
      * destruct N1 as [-> _]. by rewrite N2.
Qed.

End Properties.

(** C34: every step returns and keeps the invariant, and recording has the right
    rate: after [n] half cycles of the 20 MHz clock the audio clock has had
    exactly floor(n * 24.576 / 20) edges (from the accumulator's start), and the
    file exactly one sample per 512 rising edges, 48,000 a second, none lost or
    repeated however the clocks drift. *)
Theorem audio_rate {Core : Type} (eval : Core -> CoreIn -> Core * CoreOut) (eval_fits : requests_fit eval)
    (cfg : Settings) n (s : Sim Core) :
  sim_ok s -> g_no_audio_clock cfg = false -> recording cfg = true ->
  exists s' new, steps eval cfg n s = Some s' /\ sim_ok s' /\ wav s' = wav s ++ new /\
    let e := (audio_clock_accum s + Z.of_nat n * 49152000) / 40000000 in
    clk_audio (cin s') = xorb (clk_audio (cin s)) (Z.odd e) /\
    Z.of_nat (length new) = (audio_sample_accum s + 48000 * rises e (clk_audio (cin s))) / 24576000.
Proof.
  intros Hok Ha Hr. destruct (steps_spec eval eval_fits cfg n s Hok) as (s' & E & Hok' & Hclk & new & W & N).
  rewrite Hr in N. exists s', new. split; [done|]. split; [done|]. split; [done|]. cbv zeta in *.
  unfold audio_edges, audio_increment in *. rewrite Ha in *. split; [exact Hclk|].
  destruct Hok' as [_ _ _ _ _ Hs]. unfold AUDIO_CLOCK_HZ, SIM_SYS_CLOCK_HZ, AUDIO_SAMPLE_RATE in *.
  change (2 * 24576000) with 49152000 in N. change (2 * 20000000) with 40000000 in N. rewrite <- N.
  clear -Hs. divlia.
Qed.

(** A cycle of the system clock is one cycle of the memory port: from a low
    clock the two steps latch the request that the model showed before the
    rising edge, apply exactly one slave cycle, show the answer in the next
    cycle's inputs and leave the clock low. *)
Lemma full_step_memory {Core : Type} (eval : Core -> CoreIn -> Core * CoreOut) (eval_fits : requests_fit eval)
    (cfg : Settings) (s : Sim Core) :
  sim_ok s -> clk_sys (cin s) = false ->
  exists s', full_step eval cfg s = Some s' /\ sim_ok s' /\
    clock_edge (ddr s) (request (cout s)) = Some (ddr s') /\
    ddram_dout_ready (cin s') = ddram_resp_valid (ddr s') /\ ddram_dout (cin s') = ddram_resp_data (ddr s') /\
    clk_sys (cin s') = false /\ sim_time s' = u64 (sim_time s + 2).
Proof.
  intros Hok Hlow.
  destruct (step_spec eval eval_fits cfg s Hok) as (s1 & E1 & [Hok1 C1 _ _ _ M1 _ _ T1 _]).
  destruct (step_spec eval eval_fits cfg s1 Hok1) as (s2 & E2 & [Hok2 C2 _ R2 D2 M2 _ _ T2 _]).
  rewrite C1, Hlow in *. cbn [negb] in *. destruct M1 as [M1 _].
  exists s2. unfold full_step. rewrite E1. cbn [mbind option_bind].
  rewrite M2 in *. split_and!; try done; try congruence.
  rewrite T2, T1. unfold u64. rewrite Zplus_mod_idemp_l. f_equal. lia.
Qed.

(** ** The dropout detector *)

(** How often the newest sample was held before, in a history newest first. *)
Fixpoint hold (h : list Z) : Z :=
  match h with
  | v :: ((w :: _) as h') => if v =? w then 1 + hold h' else 0
  | _ => 0
  end.

Definition dropout (h : list Z) : Prop := exists v h', h = v :: h' /\ v <> 0 /\ hold h = FLATLINE_HOLD_THRESHOLD.

Fixpoint flatline_run (c : Settings) (cycle : Z) (vs : list Z) (f : Flatline) : Flatline :=
  match vs with
  | [] => f
  | v :: vs => flatline_run c (cycle + 1) vs (flatline_step c cycle v f)
  end.

Lemma hold_range h : 0 <= hold h <= Z.of_nat (length h).
Proof.
  induction h as [|v h IH]; [done|]. cbn [hold length]. destruct h as [|w h]; [cbn; lia|].
  case_bool; cbn [length] in *; lia.
Qed.

(** Some part of the history, up to a moment in the past, was a dropout. *)
Definition dropped_out (h : list Z) : Prop := exists h1 h2, h = h1 ++ h2 /\ dropout h2.

(** The detector's state after the samples [h], newest first. *)
Record fl_history (c : Settings) (h : list Z) (f : Flatline) : Prop := mkFlHistory {
  fh_last : fl_last f = hd 0 h;
  fh_hold : hd 0 h <> 0 -> fl_hold f = hold h;
  fh_range : 0 <= fl_hold f <= Z.of_nat (length h);
  fh_armed : force_stop_cycle f <> 0 <-> dropped_out h;
  fh_window : force_stop_cycle f <> 0 ->
    force_stop_cycle f = u64 (trace_start_cycle f + flatline_trace_window c)
}.

Lemma dropped_out_cons v h : dropped_out (v :: h) <-> dropout (v :: h) \/ dropped_out h.
Proof.
  split.
  - intros (h1 & h2 & E & Hd). destruct h1 as [|w h1]; cbn in E; [left; by subst|].
    right. exists h1, h2. split; [congruence|done].
  - intros [Hd|(h1 & h2 & -> & Hd)]; [by exists [], (v :: h)|]. by exists (v :: h1), h2.
Qed.

Lemma hold_cons v h : hold (v :: h) = match h with [] => 0 | w :: _ => if v =? w then 1 + hold h else 0 end.
Proof. by destruct h. Qed.

Lemma s16_range x : -32768 <= s16 x < 32768.
Proof. unfold s16. pose proof (u16_range x). unfold is_u16 in *. case_bool; lia. Qed.

Lemma flatline_step_history c cycle v h f :
  arm_trace_on_flatline c = true -> u64 (cycle + flatline_trace_window c) <> 0 ->
  Z.of_nat (length h) < 18446744073709551615 ->
  fl_history c h f -> fl_history c (s16 v :: h) (flatline_step c cycle v f).
Proof.
  intros Harm Hw Hlen [H1 H2 H3 H4 H5]. unfold flatline_step. cbv zeta.
  generalize (s16 v) as w. intros w. rewrite H1.
  assert (Hd : dropout (w :: h) <-> w <> 0 /\ hold (w :: h) = FLATLINE_HOLD_THRESHOLD).
  { split; [intros (? & ? & [= <- <-] & ? & ?); done|intros []; by exists w, h]. }
  destruct (Z.eqb_spec w (hd 0 h)) as [E|Hne].
  - rewrite Harm. cbn [fl_last fl_hold force_stop_cycle set_field]. cbn. rewrite u64_id by (unfold is_u64; lia).
    rewrite H1. cbn [andb].
    assert (Hh : w <> 0 -> hold (w :: h) = fl_hold f + 1).
    { intros Hn. rewrite hold_cons. destruct h as [|x h]; [cbn in E; lia|]. cbn [hd] in E. subst x.
      rewrite Z.eqb_refl, H2 by done. lia. }
    destruct (negb (hd 0 h =? 0) && (fl_hold f + 1 =? FLATLINE_HOLD_THRESHOLD) && (force_stop_cycle f =? 0)) eqn:Ec.
    + constructor; cbn -[hold].
      * by rewrite H1.
      * intros Hn. by rewrite Hh.
      * lia.
      * rewrite dropped_out_cons, Hd. split; [|done]. intros _. left. rewrite Hh by lia. split; lia.
      * done.
    + constructor; cbn -[hold].
      * by rewrite H1.
      * intros Hn. by rewrite Hh.
      * lia.
      * rewrite dropped_out_cons, Hd, <- H4. split; [by right|]. intros [[Hn Ht]|?]; [|done].
        rewrite Hh in Ht by done. lia.
      * done.
  - constructor; cbn -[hold].
    + done.
    + intros _. rewrite hold_cons. destruct h as [|x h]; [done|]. cbn in Hne.
      by rewrite (proj2 (Z.eqb_neq w x)).
    + lia.
    + rewrite dropped_out_cons, Hd, <- H4. split; [by right|]. intros [[Hn Ht]|?]; [|done].
      rewrite hold_cons in Ht. destruct h as [|x h]; [done|]. cbn in Hne.
      by rewrite (proj2 (Z.eqb_neq w x)) in Ht.
    + done.
Qed.

Lemma flatline_run_history c vs : forall cycle h f,
  arm_trace_on_flatline c = true -> 0 <= cycle -> 0 < flatline_trace_window c ->
  cycle + Z.of_nat (length vs) + flatline_trace_window c < 18446744073709551616 ->
  Z.of_nat (length h) + Z.of_nat (length vs) < 18446744073709551616 ->
  fl_history c h f -> fl_history c (rev (map s16 vs) ++ h) (flatline_run c cycle vs f).
Proof.
  induction vs as [|v vs IH]; intros cycle h f Harm Hc Hw Hb Hl Hf; [done|].
  cbn [flatline_run map rev length] in *. rewrite <- app_assoc. cbn [app].
  apply IH; try done; try lia; [cbn [length]; lia|].
  apply flatline_step_history; try done; [|lia]. rewrite u64_id by (unfold is_u64; lia). lia.
Qed.

(** The dropout detector stops the run exactly when the output has been
    held: over any samples, the stop is armed if and only if at some rising
    edge the same non-zero sample had been seen 150,001 times in a row, silence
    never arms it, and the stop lies one trace window after the moment. *)
Lemma flatline_detects c cycle vs :
  arm_trace_on_flatline c = true -> 0 <= cycle -> 0 < flatline_trace_window c ->
  cycle + Z.of_nat (length vs) + flatline_trace_window c < 18446744073709551616 ->
  let f := flatline_run c cycle vs flatline_init in
  (force_stop_cycle f <> 0 <-> dropped_out (rev (map s16 vs))) /\
  (force_stop_cycle f <> 0 -> force_stop_cycle f = u64 (trace_start_cycle f + flatline_trace_window c)).
Proof.
  intros Harm Hc Hw Hb. cbv zeta.
  assert (Hi : fl_history c [] flatline_init).
  { constructor; try done. split; [done|]. intros (h1 & h2 & E & v & h' & -> & _).
    by destruct h1. }
  pose proof (flatline_run_history c vs cycle [] flatline_init Harm Hc Hw Hb ltac:(cbn; lia) Hi) as [_ _ _ H4 H5].
  rewrite app_nil_r in H4. done.
Qed.

(** ** The accelerator's memory *)

Definition zsst_hit (o : CoreOut) (k : Z) : bool :=
  negb (Z.land (Z.shiftr (dbg_zsst_mem_write_strobe o) k) 1 =? 0).

(** Byte [k] of the 128-bit write data. *)
Definition zsst_data_byte (o : CoreOut) (k : Z) : Z :=
  u8 (Z.shiftr (znth 0 (dbg_zsst_mem_write_data o) (k / 4)) (k mod 4 * 8)).

Lemma zsst_lane_byte o m k a :
  0 <= dbg_zsst_mem_write_address o -> 0 <= k ->
  znth 0 (zsst_lane o m k) a =
    if zsst_hit o k && (a =? dbg_zsst_mem_write_address o + k) && (a <? msize m)
    then zsst_data_byte o k else znth 0 m a.
Proof.
  intros Ha Hk. unfold zsst_lane, zsst_hit, zsst_data_byte. cbv zeta.
  rewrite (shiftr_div k 2), land_3 by lia. change (2 ^ 2) with 4.
  destruct (negb _); cbn [andb]; [|done].
  destruct (Z.ltb_spec (dbg_zsst_mem_write_address o + k) (msize m)).
  - rewrite znth_insert by lia. destruct (Z.eqb_spec a (dbg_zsst_mem_write_address o + k)) as [->|]; cbn [andb]; [|done].
    by rewrite (proj2 (Z.ltb_lt _ _)) by lia.
  - destruct (Z.eqb_spec a (dbg_zsst_mem_write_address o + k)) as [->|]; cbn [andb]; [|done].
    by rewrite (proj2 (Z.ltb_ge _ _)) by lia.
Qed.

Lemma zsst_lanes_bytes o ls : forall m a,
  0 <= dbg_zsst_mem_write_address o -> Forall (fun k => 0 <= k) ls -> NoDup ls -> bytes m ->
  znth 0 (foldl (zsst_lane o) m ls) a =
    let k := a - dbg_zsst_mem_write_address o in
    if bool_decide (k ∈ ls) && zsst_hit o k && (a <? msize m) then zsst_data_byte o k else znth 0 m a.
Proof.
  induction ls as [|l ls IH]; intros m a Ha Hls Hnd Hm; cbv zeta; [done|].
  inversion Hls; subst. apply NoDup_cons in Hnd as [Hni Hnd]. cbn [foldl].
  destruct (zsst_lane_ok o m l Hm) as [Hm1 Hl1].
  rewrite IH, zsst_lane_byte by done. cbv zeta. unfold msize. rewrite Hl1.
  destruct (Z.eqb_spec a (dbg_zsst_mem_write_address o + l)) as [->|Hne].
  - replace (dbg_zsst_mem_write_address o + l - dbg_zsst_mem_write_address o) with l by lia.
    rewrite (bool_decide_eq_false_2 (l ∈ ls)), (bool_decide_eq_true_2 (l ∈ l :: ls)) by (done || by left).
    cbn [andb]. by rewrite andb_true_r.
  - rewrite andb_false_r. cbn [andb].
    rewrite (bool_decide_ext (a - dbg_zsst_mem_write_address o ∈ l :: ls)
      (a - dbg_zsst_mem_write_address o ∈ ls)); [done|].
    rewrite elem_of_cons. split; [intros [?|?]; [lia|done]|by right].
Qed.

Lemma zsst_lanes_elem k : k ∈ zsst_lanes <-> 0 <= k < 16.
Proof.
  unfold zsst_lanes. rewrite list_elem_of_fmap. split.
  - intros (i & -> & Hi%elem_of_seq). lia.
  - intros Hk. exists (Z.to_nat k). rewrite elem_of_seq. lia.
Qed.

(** The captured accelerator memory and palette: a write changes exactly the
    strobed bytes of its sixteen that lie in the memory, to the data's bytes,
    and a palette write sets its one entry to the three six-bit levels, black
    and full intensity exact. *)
Lemma captures_exact o m p a i :
  bytes m -> length p = 256%nat -> 0 <= dbg_zsst_mem_write_address o -> 0 <= i < 256 ->
  znth 0 (zsst_write o m) a =
    (let k := a - dbg_zsst_mem_write_address o in
     if dbg_zsst_mem_write_valid o && (dbg_zsst_mem_write_address o <? msize m) &&
        bool_decide (0 <= k < 16) && zsst_hit o k && (a <? msize m)
     then zsst_data_byte o k else znth 0 m a) /\
  exists p', palette_write o p = Some p' /\ length p' = 256%nat /\
    znth black p' i = (if fb_pal_wr o && (i =? u8 (fb_pal_addr o)) then palette_entry (fb_pal_data o) else znth black p i).
Proof.
  intros Hm Hp Ha Hi. split.
  - cbv zeta. unfold zsst_write. destruct (_ && _); [|done]. cbn [andb].
    rewrite zsst_lanes_bytes; [|done| | |done].
    + cbv zeta. by rewrite (bool_decide_ext _ _ (zsst_lanes_elem _)).
    + apply Forall_forall. intros k Hk%zsst_lanes_elem. lia.
    + unfold zsst_lanes. apply NoDup_fmap_2; [apply _|apply NoDup_seq].
  - destruct (palette_write_ok o p Hp) as (p' & E & Hl). exists p'. split; [done|]. split; [done|].
    unfold palette_write in E. destruct (fb_pal_wr o); cbn [andb]; [|by simplify_eq].
    by rewrite (znth_update black _ _ _ _ _ E).
Qed.

Lemma expand_dac_color_ends : expand_dac_color 0 = 0 /\ expand_dac_color 63 = 255.
Proof. done. Qed.

(** ** Witnesses *)

(** A model that never asks for anything. *)
Definition idle_request : Request := mkRequest false false 0 0 0.
Definition idle_out : CoreOut := mkCoreOut idle_request 0 0 false 0 0 [] 0 false 0 0.
Definition idle_eval (c : unit) (i : CoreIn) : unit * CoreOut := (tt, idle_out).

Lemma idle_fits : requests_fit idle_eval.
Proof. intros c i. repeat split; done. Qed.

Definition idle_sim : Sim unit :=
  mkSim tt (mkCoreIn false false false false 0) idle_out ddr_init [] (replicate 256 black) 0 0 []
    flatline_init 0 false 0.

Definition recording_run : Settings := mkSettings false true true 8000000.

Lemma idle_sim_ok : sim_ok idle_sim.
Proof.
  constructor; [exact ddr_init_ok|exact (idle_fits tt (cin idle_sim))|constructor|exact (length_replicate 256 black)|done|done].
Qed.

Lemma audio_rate_witness :
  exists s' new, steps idle_eval recording_run 4096 idle_sim = Some s' /\ sim_ok s' /\ wav s' = [] ++ new /\
    let e := (0 + Z.of_nat 4096 * 49152000) / 40000000 in
    clk_audio (cin s') = xorb false (Z.odd e) /\ Z.of_nat (length new) = (0 + 48000 * rises e false) / 24576000.
Proof. exact (audio_rate idle_eval idle_fits recording_run 4096 idle_sim idle_sim_ok eq_refl eq_refl). Defined.

Lemma full_step_memory_witness :
  exists s', full_step idle_eval recording_run idle_sim = Some s' /\ sim_ok s' /\
    clock_edge (ddr idle_sim) idle_request = Some (ddr s') /\
    ddram_dout_ready (cin s') = ddram_resp_valid (ddr s') /\ ddram_dout (cin s') = ddram_resp_data (ddr s') /\
    clk_sys (cin s') = false /\ sim_time s' = u64 (0 + 2).
Proof. exact (full_step_memory idle_eval idle_fits recording_run idle_sim idle_sim_ok eq_refl). Defined.

Lemma flatline_detects_witness :
  let f := flatline_run recording_run 5 [0; 0; 7] flatline_init in
  force_stop_cycle f <> 0 <-> dropped_out (rev (map s16 [0; 0; 7])).
Proof. apply (flatline_detects recording_run 5 [0; 0; 7]); done. Defined.

Lemma captures_exact_witness :
  let o := mkCoreOut idle_request 0 0 true 2 5 [0x44332211; 0; 0; 0] 0 true 9 0x3F000 in
  znth 0 (zsst_write o [9; 9; 9; 9; 9]) 4 = 0x33.
Proof.
  cbv zeta.
  rewrite (proj1 (captures_exact (mkCoreOut idle_request 0 0 true 2 5 [0x44332211; 0; 0; 0] 0 true 9 0x3F000)
    [9; 9; 9; 9; 9] (replicate 256 black) 4 9 ltac:(repeat (apply bytes_cons; [by vm_compute|]); apply bytes_nil)
    eq_refl ltac:(done) ltac:(done))).
  reflexivity.
Defined.
