(* ===== verification/Video.v ===== *)
(** * Screen capture

    The scan-out of verilator/main.cpp: [consume_video], which collects the
    model's pixels into [screenbuffer], finds the frame boundaries and fills
    [presentbuffer], and the renderers of the linear framebuffers,
    [render_svga_frame] and [render_zsst_frame]. *)
From S2P Require Import Prelude Ddr Clock.

Definition H_RES : Z := 1600.
Definition V_RES : Z := 900.
Definition MIN_FRAME_CYCLES : Z := SIM_SYS_CLOCK_HZ / 80.

(** The video ports, and the framebuffer registers the renderers read. *)
Record VideoOut := mkVideoOut {
  video_vs : bool;
  video_hs : bool;
  video_de : bool;
  ce_pixel : bool;
  video_r : Z;
  video_g : Z;
  video_b : Z;
  fb_flags : Z;
  fb_off : bool;
  fb_start_addr : Z;
  fb_stride : Z;
  fb_width : Z;
  fb_height : Z;
  dbg_zsst_video_active : bool;
  dbg_zsst_width : Z;
  dbg_zsst_height : Z;
  dbg_zsst_stride : Z;
  dbg_zsst_displayed_buffer : Z;
  dbg_zsst_buffer_size : Z
}.

(** The memories and settings of the renderers. *)
Record Frames := mkFrames {
  fr_fb_mem : list Z;
  fr_palette : list Pixel;
  fr_zsst_mem : list Z;
  fb_1555 : bool;
  fb_bgr : bool
}.

(** ** Rendering a framebuffer *)

(** [for (int i = lo; i < lo + n; ++i)] whose body can be undefined. *)
Fixpoint for_loop {A} (n : nat) (i : Z) (body : Z -> A -> option A) (a : A) : option A :=
  match n with
  | O => Some a
  | S n => a ← body i a; for_loop n (i + 1) body a
  end.

(** The two loops over the picture: [pixels\[y * H_RES + x\] = f(y, x)]. *)
Definition paint (f : Z -> Z -> option Pixel) (width height : Z) (pixels : list Pixel) : option (list Pixel) :=
  for_loop (Z.to_nat height) 0 (fun y pixels =>
    for_loop (Z.to_nat width) 0 (fun x pixels =>
      c ← f y x; zupdate pixels (y * H_RES + x) c) pixels) pixels.

(** A little-endian 16-bit load from a byte vector. *)
Definition packed_at (m : list Z) (offset : Z) : option Z :=
  lo ← zlookup m offset; hi ← zlookup m (offset + 1); Some (Z.lor lo (u16 (Z.shiftl hi 8))).

Definition level (v bits : Z) : Z := u8 (Z.land v (Z.ones bits) * 255 / Z.ones bits).

Definition svga_pixel (fr : Frames) (depth base stride y x : Z) : option Pixel :=
  let row := base + y * stride in
  if depth =? 1 then
    i ← zlookup (fr_fb_mem fr) (row + x); zlookup (fr_palette fr) i
  else
    packed ← packed_at (fr_fb_mem fr) (row + x * 2);
    let low := level packed 5 in
    let green := if fb_1555 fr then level (Z.shiftr packed 5) 5 else level (Z.shiftr packed 5) 6 in
    let high := level (Z.shiftr packed (if fb_1555 fr then 10 else 11)) 5 in
    Some (mkPixel 0xff (if fb_bgr fr then high else low) green (if fb_bgr fr then low else high)).

(** The outcome of a renderer that does not run into undefined behaviour:
    [None] when it returns false. *)
Definition render_svga_frame (o : VideoOut) (fr : Frames) (pixels : list Pixel) :
    option (option (list Pixel * Z * Z)) :=
  let depth := Z.land (fb_flags o) 3 in
  if fb_off o || negb (Z.land (fb_flags o) 4 =? 0) || (negb (depth =? 1) && negb (depth =? 2)) then Some None
  else
    let base := fb_start_addr o * 4 in
    let stride := fb_stride o * 8 in
    let bytes_per_pixel := if depth =? 2 then 2 else 1 in
    let width := Z.min (fb_width o * 8) H_RES in
    let height := Z.min (if negb (Z.land (fb_flags o) 8 =? 0) then fb_height o / 2 else fb_height o) V_RES in
    let size := msize (fr_fb_mem fr) in
    if (width <=? 0) || (height <=? 0) || (stride =? 0) || (size <=? base) then Some None
    else
      let last_row := base + (height - 1) * stride in
      let row_bytes := width * bytes_per_pixel in
      if (size <=? last_row) || (size - last_row <? row_bytes) then Some None
      else
        pixels ← paint (svga_pixel fr depth base stride) width height pixels;
        Some (Some (pixels, width, height)).

Definition zsst_pixel (m : list Z) (base stride y x : Z) : option Pixel :=
  packed ← packed_at m (base + y * stride + x * 2);
  Some (mkPixel 0xff (level packed 5) (level (Z.shiftr packed 5) 6) (level (Z.shiftr packed 11) 5)).

Definition render_zsst_frame (o : VideoOut) (fr : Frames) (pixels : list Pixel) :
    option (option (list Pixel * Z * Z)) :=
  if negb (dbg_zsst_video_active o) then Some None
  else
    let width := Z.min (dbg_zsst_width o) H_RES in
    let height := Z.min (dbg_zsst_height o) V_RES in
    let stride := dbg_zsst_stride o in
    let base := if negb (Z.land (dbg_zsst_displayed_buffer o) 1 =? 0) then dbg_zsst_buffer_size o else 0 in
    let size := msize (fr_zsst_mem fr) in
    if (width <=? 0) || (height <=? 0) || (stride =? 0) || (size <=? base) then Some None
    else
      let last_row := base + (height - 1) * stride in
      let row_bytes := width * 2 in
      if (size <=? last_row) || (size - last_row <? row_bytes) then Some None
      else
        pixels ← paint (zsst_pixel (fr_zsst_mem fr) base stride) width height pixels;
        Some (Some (pixels, width, height)).

(** ** [consume_video] *)

Record Video := mkVideo {
  screenbuffer : list Pixel;
  presentbuffer : list Pixel;
  scan_x : Z;                   (* int *)
  scan_y : Z;                   (* int *)
  frame_pix_cnt : Z;            (* int *)
  frame_x_max : Z;              (* int *)
  frame_line_max : Z;           (* int *)
  resolution_x : Z;             (* int *)
  resolution_y : Z;             (* int *)
  present_dirty : bool;
  saw_video_sync : bool;
  saw_nonblack_pixel : bool;
  last_full_frame_cycle : Z;    (* uint64_t *)
  frames_skipped : Z;           (* uint64_t *)
  prev_vs : bool;
  prev_hs : bool;
  prev_de : bool
}.

#[export] Instance eta_Video : Eta Video :=
  fun r => mkVideo (screenbuffer r) (presentbuffer r) (scan_x r) (scan_y r) (frame_pix_cnt r) (frame_x_max r)
    (frame_line_max r) (resolution_x r) (resolution_y r) (present_dirty r) (saw_video_sync r)
    (saw_nonblack_pixel r) (last_full_frame_cycle r) (frames_skipped r) (prev_vs r) (prev_hs r) (prev_de r).

(** [++] on an [int]; overflow is undefined. *)
Definition int_incr (x : Z) : option Z := if x <? 2147483647 then Some (x + 1) else None.

Definition lit (r g b : Z) : bool := negb (r =? 0) || negb (g =? 0) || negb (b =? 0).

(** A pixel clock: the start of a line, then the pixel. *)
Definition start_line (v : Video) : Video :=
  let v := v <| scan_x := 0 |> in
  let v := if negb (frame_line_max v =? 0) && (scan_y v + 1 <? V_RES) then v <| scan_y := scan_y v + 1 |> else v in
  if frame_line_max v <? scan_y v + 1 then v <| frame_line_max := scan_y v + 1 |> else v.

Definition draw_pixel (o : VideoOut) (v : Video) : option Video :=
  v ← (if (scan_x v <? H_RES) && (scan_y v <? V_RES) then
         m ← zupdate (screenbuffer v) (scan_y v * H_RES + scan_x v)
               (mkPixel 0xff (video_b o) (video_g o) (video_r o));
         let v := v <| screenbuffer := m |> in
         if lit (video_r o) (video_g o) (video_b o) then
           n ← int_incr (frame_pix_cnt v);
           Some (v <| frame_pix_cnt := n |> <| saw_nonblack_pixel := true |>)
         else Some v
       else Some v);
  x ← int_incr (scan_x v);
  let v := v <| scan_x := x |> in
  Some (if frame_x_max v <? scan_x v then v <| frame_x_max := scan_x v |> else v).

Definition scan_pixel (o : VideoOut) (v : Video) : option Video :=
  if ce_pixel o then
    let v := if video_de o && negb (prev_de v) then start_line v else v in
    if video_de o then draw_pixel o v else Some v
  else Some v.

(** [std::fill] of the first [n] pixels. *)
Definition clear_rows (n : Z) (m : list Pixel) : list Pixel :=
  splice 0 (replicate (Z.to_nat n) black) m.

Definition reset_counts (v : Video) : Video :=
  v <| frame_pix_cnt := 0 |> <| frame_x_max := 0 |> <| frame_line_max := 0 |>.

(** A frame boundary that comes too soon: the rows drawn are cleared. *)
Definition skip_frame (v : Video) : Video :=
  let rows := Z.min (frame_line_max v + 1) V_RES in
  reset_counts (v <| screenbuffer := clear_rows (rows * H_RES) (screenbuffer v) |>
                  <| frames_skipped := u64 (frames_skipped v + 1) |>).

(** The picture shown, and its size. *)
Definition present (o : VideoOut) (fr : Frames) (v : Video) : option Video :=
  z ← render_zsst_frame o fr (presentbuffer v);
  match z with
  | Some (px, w, h) =>
    Some (v <| presentbuffer := px |> <| resolution_x := w |> <| resolution_y := h |>)
  | None =>
    g ← render_svga_frame o fr (presentbuffer v);
    match g with
    | Some (px, w, h) =>
      Some (v <| presentbuffer := px |> <| resolution_x := w |> <| resolution_y := h |>)
    | None =>
      let v := if 640 <=? frame_x_max v then v <| resolution_x := Z.min (frame_x_max v) H_RES |> else v in
      let v := if 300 <=? frame_line_max v then v <| resolution_y := Z.min (frame_line_max v) V_RES |> else v in
      Some (v <| presentbuffer := screenbuffer v |>)
    end
  end.

Definition show_frame (cycle : Z) (o : VideoOut) (fr : Frames) (v : Video) : option Video :=
  v ← present o fr (v <| saw_video_sync := true |> <| last_full_frame_cycle := cycle |>);
  let v := v <| present_dirty := true |> <| frames_skipped := 0 |> in
  Some (reset_counts (v <| screenbuffer := clear_rows (H_RES * V_RES) (screenbuffer v) |>)).

(** [consume_video] on a rising edge, up to the checks of the text screen. *)
Definition consume_video (cycle : Z) (o : VideoOut) (fr : Frames) (v : Video) : option Video :=
  let vsync := video_vs o && negb (prev_vs v) in
  let v := if vsync then v <| scan_x := 0 |> <| scan_y := 0 |> else v in
  v ← scan_pixel o v;
  v ← (if vsync && negb (last_full_frame_cycle v =? 0) &&
          (u64 (cycle - last_full_frame_cycle v) <? MIN_FRAME_CYCLES) then Some (skip_frame v)
       else if vsync then show_frame cycle o fr v
       else Some v);
  Some (v <| prev_vs := video_vs o |> <| prev_hs := video_hs o |> <| prev_de := video_de o |>).

(** ** Painting *)

Lemma for_loop_ind {A} (P : Z -> A -> Prop) (body : Z -> A -> option A) n : forall i a,
  P i a ->
  (forall j a, i <= j < i + Z.of_nat n -> P j a -> exists a', body j a = Some a' /\ P (j + 1) a') ->
  exists a', for_loop n i body a = Some a' /\ P (i + Z.of_nat n) a'.
Proof.
  induction n as [|n IH]; intros i a HP Hb.
  - exists a. split; [done|]. by rewrite Z.add_0_r.
  - destruct (Hb i a) as (a1 & E & HP1); [lia|done|].
    destruct (IH (i + 1) a1 HP1) as (a2 & E2 & HP2); [intros; apply Hb; [lia|done]|].
    exists a2. cbn [for_loop]. rewrite E. cbn [mbind option_bind]. split; [done|].
    by replace (i + Z.of_nat (S n)) with (i + 1 + Z.of_nat n) by lia.
Qed.

(** Row and column of a buffer index. *)
Lemma index_split y x : 0 <= x < H_RES -> (y * H_RES + x) / H_RES = y /\ (y * H_RES + x) mod H_RES = x.
Proof.
  unfold H_RES. intros Hx. rewrite Z.add_comm, Z_div_plus_full, Z_mod_plus_full by lia.
  rewrite Z.div_small, Z.mod_small by lia. lia.
Qed.

Definition pixels_size (m : list Pixel) : Prop := Z.of_nat (length m) = H_RES * V_RES.

(** Row [y] painted up to column [x] over [m0]. *)
Definition row_painted (f : Z -> Z -> option Pixel) (y x : Z) (m0 m : list Pixel) : Prop :=
  pixels_size m /\
  forall j, 0 <= j < H_RES * V_RES ->
    znth black m j = if (j / H_RES =? y) && (j mod H_RES <? x) then default black (f y (j mod H_RES))
                     else znth black m0 j.

Lemma paint_row f width y m :
  0 <= width <= H_RES -> 0 <= y < V_RES -> pixels_size m ->
  (forall x, 0 <= x < width -> exists c, f y x = Some c) ->
  exists m', for_loop (Z.to_nat width) 0 (fun x m => c ← f y x; zupdate m (y * H_RES + x) c) m = Some m' /\
    row_painted f y width m m'.
Proof.
  intros Hw Hy Hm Hf.
  destruct (for_loop_ind (fun x m' => 0 <= x /\ row_painted f y x m m')
    (fun x m => c ← f y x; zupdate m (y * H_RES + x) c) (Z.to_nat width) 0 m) as (m' & E & _ & HP).
  - split; [lia|]. split; [done|]. intros j Hj.
    rewrite (proj2 (Z.ltb_ge _ _)) by (unfold H_RES in *; divlia). by rewrite andb_false_r.
  - intros x m1 Hx [_ [Hs Hp]]. rewrite Z2Nat.id in Hx by lia.
    destruct (Hf x) as [c Hc]; [lia|]. rewrite Hc. cbn [mbind option_bind].
    assert (Hi : 0 <= y * H_RES + x < Z.of_nat (length m1)).
    { unfold pixels_size, H_RES, V_RES in *. rewrite Hs. nia. }
    destruct (zupdate m1 (y * H_RES + x) c) as [m2|] eqn:E; [|by rewrite zupdate_Some in E].
    exists m2. split; [done|]. split; [lia|]. split.
    + unfold pixels_size. by rewrite (zupdate_length _ _ _ _ E).
    + intros j Hj. rewrite (znth_update black _ _ _ _ _ E).
      destruct (Z.eqb_spec j (y * H_RES + x)) as [->|Hne].
      * destruct (index_split y x) as [-> ->]; [lia|]. rewrite Z.eqb_refl, Hc.
        by rewrite (proj2 (Z.ltb_lt _ _)) by lia.
      * rewrite Hp by done. destruct (Z.eqb_spec (j / H_RES) y) as [Ey|]; cbn [andb]; [|done].
        assert (j mod H_RES <> x) by (intros Ex; apply Hne; unfold H_RES in *; divlia).
        destruct (Z.ltb_spec (j mod H_RES) x), (Z.ltb_spec (j mod H_RES) (x + 1)); try lia; done.
  - exists m'. split; [done|]. by rewrite Z.add_0_l, Z2Nat.id in HP by lia.
Qed.

(** The picture [f], [width] by [height], over [m0]. *)
Definition painted (f : Z -> Z -> option Pixel) (width height : Z) (m0 m : list Pixel) : Prop :=
  pixels_size m /\
  forall j, 0 <= j < H_RES * V_RES ->
    znth black m j = if (j / H_RES <? height) && (j mod H_RES <? width)
                     then default black (f (j / H_RES) (j mod H_RES)) else znth black m0 j.

Lemma paint_spec f width height m :
  0 <= width <= H_RES -> 0 <= height <= V_RES -> pixels_size m ->
  (forall y x, 0 <= y < height -> 0 <= x < width -> exists c, f y x = Some c) ->
  exists m', paint f width height m = Some m' /\ painted f width height m m'.
Proof.
  intros Hw Hh Hm Hf. unfold paint.
  destruct (for_loop_ind (fun y m' => 0 <= y /\ painted f width y m m')
    (fun y m => for_loop (Z.to_nat width) 0 (fun x m => c ← f y x; zupdate m (y * H_RES + x) c) m)
    (Z.to_nat height) 0 m) as (m' & E & _ & HP).
  - split; [lia|]. split; [done|]. intros j Hj.
    by rewrite (proj2 (Z.ltb_ge _ _)) by (unfold H_RES in *; divlia).
  - intros y m1 Hy [Hy0 [Hs Hp]]. rewrite Z2Nat.id in Hy by lia.
    destruct (paint_row f width y m1) as (m2 & E & Hs2 & Hr); [done|lia|done|intros; apply Hf; lia|].
    exists m2. split; [done|]. split; [lia|]. split; [done|]. intros j Hj. rewrite Hr, Hp by done.
    destruct (Z.eqb_spec (j / H_RES) y) as [->|Hne]; cbn [andb].
    + rewrite (proj2 (Z.ltb_lt y (y + 1))) by lia. rewrite (proj2 (Z.ltb_ge y y)) by lia. done.
    + destruct (Z.ltb_spec (j / H_RES) y), (Z.ltb_spec (j / H_RES) (y + 1)); try lia; done.
  - exists m'. split; [done|]. by rewrite Z.add_0_l, Z2Nat.id in HP by lia.
Qed.

(** ** The renderers stay inside their memories *)

Lemma packed_at_Some m offset :
  0 <= offset -> offset + 1 < msize m -> exists c, packed_at m offset = Some c.
Proof.
  intros H1 H2. unfold packed_at, msize in *.
  destruct (zlookup_Some m offset) as (lo & -> & _); [lia|].
  destruct (zlookup_Some m (offset + 1)) as (hi & -> & _); [lia|]. by eexists.
Qed.

(** The registers a renderer uses. *)
Record regs_fit (o : VideoOut) : Prop := mkRegsFit {
  rf_start : 0 <= fb_start_addr o;
  rf_stride : 0 <= fb_stride o;
  rf_zstride : 0 <= dbg_zsst_stride o;
  rf_zbuffer : 0 <= dbg_zsst_buffer_size o
}.

Lemma row_fits base stride height y size row x :
  0 <= stride -> 0 <= base -> 0 <= y < height -> base + (height - 1) * stride < size -> row <= size - (base + (height - 1) * stride) ->
  0 <= x < row -> 0 <= base + y * stride + x < size.
Proof. intros. assert (y * stride <= (height - 1) * stride) by nia. nia. Qed.

(** The fields a renderer's outcome has. *)
Definition shown (f : Z -> Z -> option Pixel) (m : list Pixel) (r : option (list Pixel * Z * Z)) : Prop :=
  match r with
  | None => True
  | Some (m', w, h) => 0 < w <= H_RES /\ 0 < h <= V_RES /\ painted f w h m m'
  end.

Lemma render_svga_ok o fr m :
  regs_fit o -> bytes (fr_fb_mem fr) -> length (fr_palette fr) = 256%nat -> pixels_size m ->
  exists r, render_svga_frame o fr m = Some r /\
    shown (svga_pixel fr (Z.land (fb_flags o) 3) (fb_start_addr o * 4) (fb_stride o * 8)) m r.
Proof.
  intros [R1 R2 _ _] Hb Hp Hm. unfold render_svga_frame. cbv zeta.
  match goal with |- context [if ?b then Some None else _] => destruct b eqn:E0; [by exists None|] end.
  assert (Hd : Z.land (fb_flags o) 3 = 1 \/ Z.land (fb_flags o) 3 = 2) by lia.
  generalize dependent (Z.land (fb_flags o) 3). intros depth _ Hd.
  generalize (if negb (Z.land (fb_flags o) 8 =? 0) then fb_height o / 2 else fb_height o). intros h0.
  assert (Hwm : Z.min (fb_width o * 8) H_RES <= H_RES) by lia.
  assert (Hhm : Z.min h0 V_RES <= V_RES) by lia. revert Hwm Hhm.
  generalize (Z.min (fb_width o * 8) H_RES), (Z.min h0 V_RES). intros w h Hwm Hhm.
  match goal with |- context [if ?b then Some None else _] => destruct b eqn:E1; [by exists None|] end.
  match goal with |- context [if ?b then Some None else _] => destruct b eqn:E2; [by exists None|] end.
  apply orb_false_iff in E2 as [E2 E3]. apply Z.leb_gt in E2. apply Z.ltb_ge in E3.
  assert (Hw : 0 <= w <= H_RES) by lia. assert (Hh : 0 <= h <= V_RES) by lia.
  destruct (paint_spec (svga_pixel fr depth (fb_start_addr o * 4) (fb_stride o * 8))
    w h m Hw Hh Hm) as (m' & -> & HP).
  - intros y x Hy Hx. unfold svga_pixel. cbv zeta. destruct Hd as [-> | ->]; cbn [Z.eqb Pos.eqb] in *.
    + pose proof (row_fits (fb_start_addr o * 4) (fb_stride o * 8) h y (msize (fr_fb_mem fr))
        w x ltac:(lia) ltac:(lia) ltac:(lia) ltac:(lia) ltac:(lia) ltac:(lia)) as Hi.
      destruct (zlookup_Some (fr_fb_mem fr) (fb_start_addr o * 4 + y * (fb_stride o * 8) + x)) as (i & Hl & _);
        [exact Hi|].
      rewrite Hl. cbn [mbind option_bind].
      pose proof (zlookup_Forall is_u8 _ _ _ Hb Hl) as Hi8. unfold is_u8 in Hi8.
      destruct (zlookup_Some (fr_palette fr) i) as (c & -> & _); [lia|]. by exists c.
    + pose proof (row_fits (fb_start_addr o * 4) (fb_stride o * 8) h y (msize (fr_fb_mem fr))
        (w * 2) (x * 2 + 1) ltac:(lia) ltac:(lia) ltac:(lia) ltac:(lia) ltac:(lia) ltac:(lia)) as Hi.
      destruct (packed_at_Some (fr_fb_mem fr) (fb_start_addr o * 4 + y * (fb_stride o * 8) + x * 2)) as [c Hc];
        [nia|lia|]. rewrite Hc. cbn [mbind option_bind]. by eexists.
  - cbn [mbind option_bind]. eexists. split; [done|]. cbn [shown]. split_and!; [lia|lia|lia|lia|done].
Qed.

Lemma render_zsst_ok o fr m :
  regs_fit o -> pixels_size m ->
  exists r, render_zsst_frame o fr m = Some r /\
    shown (zsst_pixel (fr_zsst_mem fr)
      (if negb (Z.land (dbg_zsst_displayed_buffer o) 1 =? 0) then dbg_zsst_buffer_size o else 0)
      (dbg_zsst_stride o)) m r.
Proof.
  intros [_ _ R3 R4] Hm. unfold render_zsst_frame. cbv zeta.
  destruct (negb (dbg_zsst_video_active o)); [by exists None|].
  assert (Hbase : 0 <= if negb (Z.land (dbg_zsst_displayed_buffer o) 1 =? 0) then dbg_zsst_buffer_size o else 0)
    by (case_bool; lia).
  generalize dependent (if negb (Z.land (dbg_zsst_displayed_buffer o) 1 =? 0) then dbg_zsst_buffer_size o else 0).
  intros base Hbase.
  assert (Hwm : Z.min (dbg_zsst_width o) H_RES <= H_RES) by lia.
  assert (Hhm : Z.min (dbg_zsst_height o) V_RES <= V_RES) by lia. revert Hwm Hhm.
  generalize (Z.min (dbg_zsst_width o) H_RES), (Z.min (dbg_zsst_height o) V_RES). intros w h Hwm Hhm.
  match goal with |- context [if ?b then Some None else _] => destruct b eqn:E1; [by exists None|] end.
  match goal with |- context [if ?b then Some None else _] => destruct b eqn:E2; [by exists None|] end.
  apply orb_false_iff in E2 as [E2 E3]. apply Z.leb_gt in E2. apply Z.ltb_ge in E3.
  assert (Hw : 0 <= w <= H_RES) by lia. assert (Hh : 0 <= h <= V_RES) by lia.
  destruct (paint_spec (zsst_pixel (fr_zsst_mem fr) base (dbg_zsst_stride o)) _ _ m Hw Hh Hm) as (m' & -> & HP).
  - intros y x Hy Hx. unfold zsst_pixel.
    pose proof (row_fits base (dbg_zsst_stride o) h y (msize (fr_zsst_mem fr))
      (w * 2) (x * 2 + 1) ltac:(lia) ltac:(lia) ltac:(lia) ltac:(lia) ltac:(lia) ltac:(lia)) as Hi.
    destruct (packed_at_Some (fr_zsst_mem fr) (base + y * dbg_zsst_stride o + x * 2)) as [c Hc]; [nia|lia|].
    rewrite Hc. cbn [mbind option_bind]. by eexists.
  - cbn [mbind option_bind]. eexists. split; [done|]. cbn [shown]. split_and!; [lia|lia|lia|lia|done].
Qed.

(** ** Frame boundaries *)

(** From row [y] on the buffer is black. *)
Definition black_from (y : Z) (m : list Pixel) : Prop :=
  forall j, y * H_RES <= j < H_RES * V_RES -> znth black m j = black.

Record video_wf (v : Video) : Prop := mkVideoWf {
  vok_screen : pixels_size (screenbuffer v);
  vok_present : pixels_size (presentbuffer v);
  vok_x : 0 <= scan_x v;
  vok_y : 0 <= scan_y v < V_RES;
  vok_lines : scan_y v < Z.max (frame_line_max v) 1 <= V_RES;
  vok_lines0 : 0 <= frame_line_max v;
  vok_count : 0 <= frame_pix_cnt v;
  vok_width : 0 <= frame_x_max v;
  vok_res_x : 0 < resolution_x v <= H_RES;
  vok_res_y : 0 < resolution_y v <= V_RES
}.

(** Once a frame has been shown, the rows not drawn are black. *)
Definition video_ok (v : Video) : Prop :=
  video_wf v /\ (last_full_frame_cycle v <> 0 -> black_from (Z.max (frame_line_max v) 1) (screenbuffer v)).

(** No counter overflows in the next sample. *)
Definition counters_free (v : Video) : Prop := scan_x v < 2147483647 /\ frame_pix_cnt v < 2147483647.

Definition vsync (o : VideoOut) (v : Video) : bool := video_vs o && negb (prev_vs v).
Definition de_rise (o : VideoOut) (v : Video) : bool := video_de o && negb (prev_de v).

Lemma start_line_ok v : video_ok v -> video_ok (start_line v) /\ scan_x (start_line v) = 0 /\
  frame_pix_cnt (start_line v) = frame_pix_cnt v /\ last_full_frame_cycle (start_line v) = last_full_frame_cycle v.
Proof.
  intros [[H1 H2 H3 H4 H5 H6 H7 H8 H9 H10] H11]. unfold start_line. cbv zeta.
  cbn [frame_line_max scan_y set_field]. cbn.
  destruct (negb (frame_line_max v =? 0) && (scan_y v + 1 <? V_RES)) eqn:E1; cbn;
    destruct (frame_line_max v <? _) eqn:E2; cbn; (split; [|done]); (split; [constructor; cbn; try done; try lia|cbn]);
    intros Hc j Hj; apply H11; try done; unfold H_RES, V_RES in *; lia.
Qed.

Lemma draw_pixel_ok o v :
  video_ok v -> counters_free v ->
  exists v', draw_pixel o v = Some v' /\ video_ok v' /\ last_full_frame_cycle v' = last_full_frame_cycle v /\
    scan_y v' = scan_y v /\ frame_line_max v' = frame_line_max v /\ prev_vs v' = prev_vs v /\ prev_de v' = prev_de v.
Proof.
  intros [[H1 H2 H3 H4 H5 H6 H7 H8 H9 H10] H11] [C1 C2]. unfold draw_pixel.
  assert (Hinc : int_incr (scan_x v) = Some (scan_x v + 1)) by (unfold int_incr; by rewrite (proj2 (Z.ltb_lt _ _))).
  assert (Hinc' : int_incr (frame_pix_cnt v) = Some (frame_pix_cnt v + 1))
    by (unfold int_incr; by rewrite (proj2 (Z.ltb_lt _ _))).
  destruct ((scan_x v <? H_RES) && (scan_y v <? V_RES)) eqn:E.
  - destruct (zupdate (screenbuffer v) (scan_y v * H_RES + scan_x v) (mkPixel 0xff (video_b o) (video_g o) (video_r o)))
      as [m|] eqn:Em; [|rewrite zupdate_Some in Em by (unfold pixels_size, H_RES, V_RES in *; nia); done].
    pose proof (zupdate_length _ _ _ _ Em) as Hl.
    assert (Hm : last_full_frame_cycle v <> 0 -> black_from (Z.max (frame_line_max v) 1) m).
    { intros Hc j Hj. rewrite (znth_update black _ _ _ _ _ Em).
      rewrite (proj2 (Z.eqb_neq _ _)) by (unfold H_RES, V_RES in *; nia). by apply H11. }
    cbn [mbind option_bind].
    destruct (lit (video_r o) (video_g o) (video_b o)); cbn [frame_pix_cnt scan_x set_field]; cbn;
      rewrite ?Hinc'; cbn; rewrite ?Hinc; cbn; eexists; (split; [done|]);
      destruct (frame_x_max v <? scan_x v + 1) eqn:Ex; cbn; (split; [|done]);
      (split; [constructor; cbn; try done; try lia; unfold pixels_size; by rewrite Hl|done]).
  - cbn [mbind option_bind]. rewrite Hinc. cbn. eexists. split; [done|].
    destruct (frame_x_max v <? scan_x v + 1) eqn:Ex; cbn; (split; [|done]);
      (split; [constructor; cbn; try done; lia|done]).
Qed.

Lemma znth_clear n m j :
  pixels_size m -> 0 <= n <= H_RES * V_RES -> 0 <= j ->
  znth black (clear_rows n m) j = if j <? n then black else znth black m j.
Proof.
  intros Hm Hn Hj. unfold clear_rows, znth, zlookup, splice. rewrite take_0, (proj2 (Z.leb_le 0 j)) by lia.
  cbn [app]. rewrite length_replicate. cbn [Nat.add]. destruct (Z.ltb_spec j n).
  - rewrite lookup_app_l by (rewrite length_replicate; lia). by rewrite lookup_replicate_2 by lia.
  - rewrite lookup_app_r, length_replicate, lookup_drop by (rewrite length_replicate; lia). do 2 f_equal. lia.
Qed.

Lemma clear_rows_size n m : pixels_size m -> 0 <= n <= H_RES * V_RES -> pixels_size (clear_rows n m).
Proof.
  unfold pixels_size, clear_rows. intros Hm Hn. rewrite length_splice; [done|]. rewrite length_replicate. lia.
Qed.

(** What a frame boundary leaves. *)
Definition frame_start (v : Video) : Prop :=
  black_from 0 (screenbuffer v) /\ frame_line_max v = 0 /\ frame_x_max v = 0 /\ frame_pix_cnt v = 0.

Lemma skip_frame_ok v :
  video_ok v -> scan_y v = 0 -> last_full_frame_cycle v <> 0 ->
  video_ok (skip_frame v) /\ frame_start (skip_frame v).
Proof.
  intros [[H1 H2 H3 H4 H5 H6 H7 H8 H9 H10] H11] Hy Hc. unfold skip_frame, reset_counts, frame_start. cbv zeta. cbn.
  assert (Hr : 0 <= Z.min (frame_line_max v + 1) V_RES * H_RES <= H_RES * V_RES) by (unfold H_RES, V_RES in *; lia).
  assert (Hb : black_from 0 (clear_rows (Z.min (frame_line_max v + 1) V_RES * H_RES) (screenbuffer v))).
  { intros j Hj. rewrite znth_clear by (done || lia). destruct (Z.ltb_spec j (Z.min (frame_line_max v + 1) V_RES * H_RES));
      [done|]. apply H11; [done|]. unfold H_RES, V_RES in *. lia. }
  split; [|done]. split; [constructor; cbn; try done; try lia; by apply clear_rows_size|].
  cbn. intros _ j Hj. apply Hb. unfold H_RES in *. lia.
Qed.

Record frames_ok (fr : Frames) : Prop := mkFramesOk {
  fo_mem : bytes (fr_fb_mem fr);
  fo_palette : length (fr_palette fr) = 256%nat
}.

Lemma present_ok o fr v :
  regs_fit o -> frames_ok fr -> video_wf v ->
  exists v', present o fr v = Some v' /\ video_wf v' /\ scan_y v' = scan_y v /\ screenbuffer v' = screenbuffer v /\
    frame_line_max v' = frame_line_max v.
Proof.
  intros Ho [F1 F2] [H1 H2 H3 H4 H5 H6 H7 H8 H9 H10]. unfold present.
  destruct (render_zsst_ok o fr (presentbuffer v) Ho H2) as (rz & -> & Hz). cbn [mbind option_bind].
  destruct rz as [[[px w] h]|].
  - cbn [shown] in Hz. destruct Hz as (Hw & Hh & Hp & _). eexists. split; [done|].
    split; [|done]. by constructor.
  - destruct (render_svga_ok o fr (presentbuffer v) Ho F1 F2 H2) as (rs & -> & Hs). cbn [mbind option_bind].
    destruct rs as [[[px w] h]|].
    + cbn [shown] in Hs. destruct Hs as (Hw & Hh & Hp & _). eexists. split; [done|].
      split; [|done]. by constructor.
    + cbv zeta. destruct (640 <=? frame_x_max v) eqn:E1; cbn;
        destruct (300 <=? frame_line_max v) eqn:E2; cbn; eexists; (split; [done|]); (split; [|done]);
        constructor; cbn; try done; unfold H_RES, V_RES in *; lia.
Qed.


Lemma show_frame_ok cycle o fr v :
  regs_fit o -> frames_ok fr -> video_wf v -> scan_y v = 0 ->
  exists v', show_frame cycle o fr v = Some v' /\ video_ok v' /\ frame_start v'.
Proof.
  intros Ho Hf Hv Hy. unfold show_frame.
  assert (Hv1 : video_wf (v <| saw_video_sync := true |> <| last_full_frame_cycle := cycle |>))
    by (destruct Hv; by constructor).
  assert (Hy1 : scan_y (v <| saw_video_sync := true |> <| last_full_frame_cycle := cycle |>) = 0) by done.
  revert Hv1 Hy1. generalize (v <| saw_video_sync := true |> <| last_full_frame_cycle := cycle |>).
  intros v1 Hv1 Hy1. destruct (present_ok o fr v1 Ho Hf Hv1) as (v2 & -> & Hv2 & Hy2 & _). cbn [mbind option_bind].
  rewrite Hy1 in Hy2. destruct Hv2 as [G1 G2 G3 G4 G5 G6 G7 G8 G9 G10].
  assert (Hb : black_from 0 (clear_rows (H_RES * V_RES) (screenbuffer v2))).
  { intros j Hj. rewrite znth_clear by (done || lia). by rewrite (proj2 (Z.ltb_lt _ _)) by lia. }
  assert (Hs : pixels_size (clear_rows (H_RES * V_RES) (screenbuffer v2))) by (apply clear_rows_size; done || lia).
  cbv zeta. change (screenbuffer (v2 <| present_dirty := true |> <| frames_skipped := 0 |>)) with (screenbuffer v2).
  revert Hb Hs. generalize (clear_rows (H_RES * V_RES) (screenbuffer v2)). intros m Hb Hs.
  unfold reset_counts, frame_start. eexists. split; [reflexivity|]. cbn. split; [|done]. split.
  - constructor; cbn; try done; lia.
  - cbn. intros _ j Hj. apply Hb. unfold H_RES in *. lia.
Qed.

Lemma scan_pixel_ok o v :
  video_ok v -> counters_free v ->
  exists v', scan_pixel o v = Some v' /\ video_ok v' /\ last_full_frame_cycle v' = last_full_frame_cycle v /\
    (scan_y v = 0 -> de_rise o v = false -> scan_y v' = 0).
Proof.
  intros Hv [C1 C2]. unfold scan_pixel, de_rise. destruct (ce_pixel o); [|by exists v].
  destruct (start_line_ok v Hv) as (Hv1 & X1 & N1 & L1).
  destruct (video_de o) eqn:Ed; cbn [andb]; [|by exists v].
  destruct (negb (prev_de v)).
  - destruct (draw_pixel_ok o (start_line v) Hv1) as (v2 & E & Hv2 & L2 & _).
    { split; [rewrite X1; lia|by rewrite N1]. }
    exists v2. split; [done|]. split; [done|]. split; [congruence|done].
  - destruct (draw_pixel_ok o v Hv) as (v2 & E & Hv2 & L2 & Y2 & _); [done|].
    exists v2. split; [done|]. split; [done|]. split; [done|]. intros. congruence.
Qed.

(** One clock of screen capture: from a well-formed state every access stays
    inside the buffers, the framebuffers and the palette, the state stays well
    formed with a shown size that fits the window buffer, and every frame
    boundary, shown or skipped, starts the next frame on a black screen. *)
Lemma capture_safe cycle o fr v :
  video_ok v -> regs_fit o -> frames_ok fr -> counters_free v ->
  (vsync o v = true -> de_rise o v = false) ->
  exists v', consume_video cycle o fr v = Some v' /\ video_ok v' /\
    (vsync o v = true -> frame_start v').
Proof.
  intros Hv Ho Hf Hc Hde. unfold consume_video. fold (vsync o v). cbv zeta.
  set (v0 := if vsync o v then _ else v).
  assert (H0 : video_ok v0 /\ counters_free v0 /\ de_rise o v0 = de_rise o v /\
               (vsync o v = true -> scan_y v0 = 0)).
  { subst v0. destruct (vsync o v) eqn:E; [|done]. destruct Hv as [[] Hb], Hc.
    split; [|split; [split; cbn; lia|done]]. split; [constructor; cbn; try done; unfold V_RES in *; lia|done]. }
  clearbody v0. destruct H0 as (Hv0 & Hc0 & Hd0 & Hy0).
  destruct (scan_pixel_ok o v0 Hv0 Hc0) as (v1 & -> & Hv1 & _ & Hy1). cbn [mbind option_bind].
  assert (Hdone : forall v2, video_ok v2 ->
    video_ok (v2 <| prev_vs := video_vs o |> <| prev_hs := video_hs o |> <| prev_de := video_de o |>)).
  { intros v2 [[] Hb]. by split; [constructor|]. }
  destruct (vsync o v) eqn:E; cbn [andb].
  - assert (Hy : scan_y v1 = 0) by (apply Hy1; [by apply Hy0|rewrite Hd0; by apply Hde]).
    destruct (negb (last_full_frame_cycle v1 =? 0) && _) eqn:E2; cbn [mbind option_bind].
    + destruct (skip_frame_ok v1 Hv1 Hy ltac:(lia)) as [Hv2 Hs2]. eexists. split; [done|].
      split; [by apply Hdone|]. by intros _.
    + destruct (show_frame_ok cycle o fr v1 Ho Hf (proj1 Hv1) Hy) as (v2 & -> & Hv2 & Hs2).
      cbn [mbind option_bind]. eexists. split; [done|]. split; [by apply Hdone|]. by intros _.
  - cbn [mbind option_bind]. eexists. split; [done|]. split; [by apply Hdone|done].
Qed.

(** ** A captured frame *)

Fixpoint video_run (cycle : Z) (os : list VideoOut) (fr : Frames) (v : Video) : option Video :=
  match os with
  | [] => Some v
  | o :: os => v ← consume_video cycle o fr v; video_run (cycle + 1) os fr v
  end.

(** A colour as (r, g, b); a line of them; the picture of some lines. *)
Definition colour : Type := Z * Z * Z.

Definition colour_pixel (c : colour) : Pixel := mkPixel 0xff c.2 c.1.2 c.1.1.

Definition picture (ls : list (list colour)) (y x : Z) : Pixel :=
  match ls !! Z.to_nat y with
  | Some l => match l !! Z.to_nat x with Some c => colour_pixel c | None => black end
  | None => black
  end.

Definition widest (ls : list (list colour)) : Z := foldr (fun l w => Z.max (Z.of_nat (length l)) w) 0 ls.
Definition pixel_total (ls : list (list colour)) : Z := foldr (fun l n => Z.of_nat (length l) + n) 0 ls.

(** Samples of the video ports during a frame. *)
Definition blank_sample (o : VideoOut) : Prop := video_vs o = false /\ video_de o = false.
Definition pixel_sample (c : colour) (o : VideoOut) : Prop :=
  video_vs o = false /\ video_de o = true /\ ce_pixel o = true /\ (video_r o, video_g o, video_b o) = c.

(** A line: some blanking, then its pixels. *)
Definition line_samples (l : list colour) (os : list VideoOut) : Prop :=
  exists blanks pixels, os = blanks ++ pixels /\ blanks <> [] /\ Forall blank_sample blanks /\
    l <> [] /\ Forall2 pixel_sample l pixels.

(** The lines drawn so far are on the screen. *)
Record drawn (ls : list (list colour)) (v : Video) : Prop := mkDrawn {
  dr_size : pixels_size (screenbuffer v);
  dr_screen : forall y x, 0 <= y < V_RES -> 0 <= x < H_RES ->
    znth black (screenbuffer v) (y * H_RES + x) = picture ls y x;
  dr_lines : frame_line_max v = Z.of_nat (length ls);
  dr_y : scan_y v = Z.max (Z.of_nat (length ls) - 1) 0;
  dr_width : frame_x_max v = widest ls;
  dr_count : 0 <= frame_pix_cnt v <= pixel_total ls
}.

(** What stays over the samples of a frame. *)
Definition between (v v' : Video) : Prop :=
  presentbuffer v' = presentbuffer v /\ resolution_x v' = resolution_x v /\ resolution_y v' = resolution_y v /\
  last_full_frame_cycle v' = last_full_frame_cycle v.

Lemma between_trans v1 v2 v3 : between v1 v2 -> between v2 v3 -> between v1 v3.
Proof. unfold between. intros (? & ? & ? & ?) (? & ? & ? & ?). split_and!; congruence. Qed.

Lemma consume_no_vsync cycle o fr v :
  video_vs o = false ->
  consume_video cycle o fr v =
    (v ← scan_pixel o v;
     Some (v <| prev_vs := false |> <| prev_hs := video_hs o |> <| prev_de := video_de o |>)).
Proof. intros Hv. unfold consume_video. rewrite Hv. cbn [andb]. by destruct (scan_pixel o v). Qed.

Lemma blank_step cycle o fr ls v :
  blank_sample o -> drawn ls v ->
  exists v', consume_video cycle o fr v = Some v' /\ drawn ls v' /\ between v v' /\
    prev_vs v' = false /\ prev_de v' = false.
Proof.
  intros [Hvs Hde] Hd. rewrite consume_no_vsync by done. unfold scan_pixel. rewrite Hde. cbn [andb].
  exists (v <| prev_vs := false |> <| prev_hs := video_hs o |> <| prev_de := false |>).
  split; [by destruct (ce_pixel o)|]. split; [|done]. destruct Hd. by constructor.
Qed.

Lemma picture_snoc ls l c y x :
  0 <= y -> 0 <= x ->
  picture (ls ++ [l ++ [c]]) y x =
    if (y =? Z.of_nat (length ls)) && (x =? Z.of_nat (length l)) then colour_pixel c else picture (ls ++ [l]) y x.
Proof.
  intros Hy Hx. unfold picture.
  destruct (Z.eqb_spec y (Z.of_nat (length ls))) as [->|Hne]; cbn [andb].
  - rewrite !lookup_app_r, !Nat2Z.id, Nat.sub_diag by lia. cbn.
    destruct (Z.eqb_spec x (Z.of_nat (length l))) as [->|Hnx].
    + by rewrite Nat2Z.id, lookup_app_r, Nat.sub_diag by lia.
    + destruct (decide (Z.to_nat x < length l)%nat); [by rewrite lookup_app_l by lia|].
      rewrite lookup_app_r, (lookup_ge_None_2 l) by lia.
      destruct (Z.to_nat x - length l)%nat eqn:E; [lia|done].
  - destruct (decide (Z.to_nat y < length ls)%nat); [by rewrite !lookup_app_l by lia|].
    rewrite !lookup_app_r by lia. destruct (Z.to_nat y - length ls)%nat eqn:E; [lia|done].
Qed.

Lemma picture_blank ls y x : picture (ls ++ [[]]) y x = picture ls y x.
Proof.
  unfold picture. destruct (decide (Z.to_nat y < length ls)%nat); [by rewrite lookup_app_l by lia|].
  rewrite lookup_app_r, (lookup_ge_None_2 ls) by lia. by destruct (Z.to_nat y - length ls)%nat.
Qed.

Lemma widest_snoc ls l : widest (ls ++ [l]) = Z.max (widest ls) (Z.of_nat (length l)).
Proof. induction ls as [|k ls IH]; cbn; [lia|]. unfold widest in IH. rewrite IH. lia. Qed.

Lemma pixel_total_snoc ls l : pixel_total (ls ++ [l]) = pixel_total ls + Z.of_nat (length l).
Proof. induction ls as [|k ls IH]; cbn; [lia|]. unfold pixel_total in IH. rewrite IH. lia. Qed.

Lemma pixel_total_range ls : 0 <= pixel_total ls.
Proof. induction ls as [|k ls IH]; cbn; [lia|]. unfold pixel_total in IH. lia. Qed.

(** The line being drawn, of which [l] is there. *)
Record line_state (ls : list (list colour)) (l : list colour) (v : Video) : Prop := mkLineState {
  ls_size : pixels_size (screenbuffer v);
  ls_screen : forall y x, 0 <= y < V_RES -> 0 <= x < H_RES ->
    znth black (screenbuffer v) (y * H_RES + x) = picture (ls ++ [l]) y x;
  ls_lines : frame_line_max v = Z.of_nat (length ls) + 1;
  ls_y : scan_y v = Z.of_nat (length ls);
  ls_x : scan_x v = Z.of_nat (length l);
  ls_width : frame_x_max v = Z.max (widest ls) (Z.of_nat (length l));
  ls_count : 0 <= frame_pix_cnt v <= pixel_total ls + Z.of_nat (length l)
}.

Lemma start_line_state ls v :
  drawn ls v -> Z.of_nat (length ls) < V_RES ->
  line_state ls [] (start_line v) /\ between v (start_line v).
Proof.
  intros [D1 D2 D3 D4 D5 D6] Hlen. unfold start_line. cbv zeta. cbn [frame_line_max scan_y set_field]. cbn.
  assert (Hw : 0 <= widest ls) by (clear; induction ls as [|l ls IH]; cbn in *; lia).
  destruct (negb (frame_line_max v =? 0) && (scan_y v + 1 <? V_RES)) eqn:E1; cbn;
    rewrite (proj2 (Z.ltb_lt _ _)) by lia; cbn; (split; [|done]); constructor; cbn; try done; try lia;
    intros y x Hy Hx; by rewrite picture_blank, D2.
Qed.

Lemma draw_pixel_state ls l c o v :
  line_state ls l v -> pixel_sample c o -> Z.of_nat (length ls) < V_RES ->
  pixel_total ls + Z.of_nat (length l) < 2147483647 ->
  exists v', draw_pixel o v = Some v' /\ line_state ls (l ++ [c]) v' /\ between v v'.
Proof.
  intros [L1 L2 L3 L4 L5 L6 L7] (_ & _ & _ & Hc) Hlen Htot. unfold draw_pixel.
  pose proof (pixel_total_range ls) as Ht.
  assert (Hinc : int_incr (scan_x v) = Some (scan_x v + 1))
    by (unfold int_incr; by rewrite (proj2 (Z.ltb_lt _ _)) by lia).
  assert (Hinc' : int_incr (frame_pix_cnt v) = Some (frame_pix_cnt v + 1))
    by (unfold int_incr; by rewrite (proj2 (Z.ltb_lt _ _)) by lia).
  assert (Hpx : mkPixel 0xff (video_b o) (video_g o) (video_r o) = colour_pixel c) by (by subst c).
  rewrite Hpx, L4, L5 in *. assert (Hl : Z.of_nat (length (l ++ [c])) = Z.of_nat (length l) + 1)
    by (rewrite length_app; cbn; lia).
  destruct ((Z.of_nat (length l) <? H_RES) && (Z.of_nat (length ls) <? V_RES)) eqn:E.
  - destruct (zupdate (screenbuffer v) (Z.of_nat (length ls) * H_RES + Z.of_nat (length l)) (colour_pixel c))
      as [m|] eqn:Em; [|rewrite zupdate_Some in Em by (unfold pixels_size, H_RES, V_RES in *; nia); done].
    pose proof (zupdate_length _ _ _ _ Em) as Hlm.
    assert (Hm : forall y x, 0 <= y < V_RES -> 0 <= x < H_RES ->
      znth black m (y * H_RES + x) = picture (ls ++ [l ++ [c]]) y x).
    { intros y x Hy Hx. rewrite (znth_update black _ _ _ _ _ Em), picture_snoc, L2 by lia.
      destruct (Z.eqb_spec (y * H_RES + x) (Z.of_nat (length ls) * H_RES + Z.of_nat (length l))) as [Ei|Ei].
      - destruct (index_split y x) as [I1 I2]; [lia|].
        destruct (index_split (Z.of_nat (length ls)) (Z.of_nat (length l))) as [I3 I4]; [lia|].
        rewrite <- Ei, I1 in I3. rewrite <- Ei, I2 in I4. by rewrite I3, I4, !Z.eqb_refl.
      - destruct (Z.eqb_spec y (Z.of_nat (length ls))) as [->|], (Z.eqb_spec x (Z.of_nat (length l))) as [->|];
          cbn [andb]; try done. }
    cbn [mbind option_bind].
    destruct (lit (video_r o) (video_g o) (video_b o)); cbn [frame_pix_cnt scan_x set_field]; cbn;
      rewrite ?Hinc'; cbn; rewrite ?L5, ?Hinc; cbn; eexists; (split; [done|]);
      destruct (frame_x_max v <? Z.of_nat (length l) + 1) eqn:Ex; cbn; (split; [|done]);
      constructor; cbn; rewrite ?Hl; try done; try lia; unfold pixels_size; by rewrite Hlm.
  - cbn [mbind option_bind]. rewrite L5, Hinc. cbn. eexists. split; [done|].
    assert (Hm : forall y x, 0 <= y < V_RES -> 0 <= x < H_RES ->
      znth black (screenbuffer v) (y * H_RES + x) = picture (ls ++ [l ++ [c]]) y x).
    { intros y x Hy Hx. rewrite picture_snoc, L2 by lia.
      destruct (Z.eqb_spec x (Z.of_nat (length l))); [lia|]. by rewrite andb_false_r. }
    destruct (frame_x_max v <? Z.of_nat (length l) + 1) eqn:Ex; cbn; (split; [|done]);
      constructor; cbn; rewrite ?Hl; try done; lia.
Qed.

Lemma blanks_run fr ls blanks : forall cycle v,
  Forall blank_sample blanks -> drawn ls v -> blanks <> [] ->
  exists v', video_run cycle blanks fr v = Some v' /\ drawn ls v' /\ between v v' /\
    prev_vs v' = false /\ prev_de v' = false.
Proof.
  induction blanks as [|o blanks IH]; intros cycle v Hb Hd Hne; [done|]. inversion Hb; subst.
  destruct (blank_step cycle o fr ls v) as (v1 & E & Hd1 & Hb1 & Hv1 & Hp1); [done|done|].
  cbn [video_run]. rewrite E. cbn [mbind option_bind].
  destruct blanks as [|o2 blanks]; [by exists v1|].
  destruct (IH (cycle + 1) v1) as (v2 & E2 & Hd2 & Hb2 & Hvp); [done|done|done|].
  exists v2. split; [done|]. split; [done|]. split; [by eapply between_trans|done].
Qed.

(** A pixel sample, the line started when the pixel is its first. *)
Lemma pixel_step cycle fr ls l c o v :
  (if prev_de v then line_state ls l v else drawn ls v /\ l = []) ->
  pixel_sample c o -> Z.of_nat (length ls) < V_RES -> pixel_total ls + Z.of_nat (length l) < 2147483647 ->
  exists v', consume_video cycle o fr v = Some v' /\ line_state ls (l ++ [c]) v' /\ between v v' /\
    prev_vs v' = false /\ prev_de v' = true.
Proof.
  intros Hv Ho Hlen Htot. pose proof Ho as (Hvs & Hde & Hce & _). rewrite consume_no_vsync by done.
  unfold scan_pixel. rewrite Hce, Hde. cbn [andb].
  assert (H1 : exists v1, (if negb (prev_de v) then start_line v else v) = v1 /\ line_state ls l v1 /\ between v v1).
  { destruct (prev_de v); cbn [negb]; [by exists v|]. destruct Hv as [Hd ->].
    destruct (start_line_state ls v Hd Hlen) as [Hl Hb]. by exists (start_line v). }
  destruct H1 as (v1 & -> & Hl1 & Hb1).
  destruct (draw_pixel_state ls l c o v1 Hl1 Ho Hlen Htot) as (v2 & -> & [] & Hb2). cbn [mbind option_bind].
  eexists. split; [done|]. split; [by constructor|]. split; [|done].
  by apply (between_trans v v1); [|apply (between_trans v1 v2)].
Qed.

Lemma pixels_run fr ls rest : forall l cycle pixels v,
  (if prev_de v then line_state ls l v else drawn ls v /\ l = []) ->
  Forall2 pixel_sample rest pixels -> rest <> [] -> Z.of_nat (length ls) < V_RES ->
  pixel_total ls + Z.of_nat (length l) + Z.of_nat (length rest) < 2147483648 ->
  exists v', video_run cycle pixels fr v = Some v' /\ line_state ls (l ++ rest) v' /\ between v v' /\
    prev_vs v' = false.
Proof.
  induction rest as [|c rest IH]; intros l cycle pixels v Hv Hp Hne Hlen Htot; [done|].
  inversion Hp as [|? o ? pixels' Ho Hp']; subst. cbn [length] in Htot.
  destruct (pixel_step cycle fr ls l c o v Hv Ho Hlen) as (v1 & E & Hl1 & Hb1 & Hvs1 & Hde1); [lia|].
  cbn [video_run]. rewrite E. cbn [mbind option_bind].
  destruct rest as [|c2 rest]; [inversion Hp'; subst; by exists v1|].
  destruct (IH (l ++ [c]) (cycle + 1) pixels' v1) as (v2 & E2 & Hl2 & Hb2 & Hvs2);
    [by rewrite Hde1|done|done|done|rewrite length_app; cbn [length] in *; lia|].
  exists v2. rewrite <- app_assoc in Hl2. split; [done|]. split; [done|].
  split; [by eapply between_trans|done].
Qed.

Lemma line_drawn ls l v : line_state ls l v -> drawn (ls ++ [l]) v.
Proof.
  intros []. constructor; try done; rewrite ?length_app, ?widest_snoc, ?pixel_total_snoc; cbn [length]; lia.
Qed.

Lemma video_run_app os1 os2 fr : forall cycle v v1,
  video_run cycle os1 fr v = Some v1 ->
  video_run cycle (os1 ++ os2) fr v = video_run (cycle + Z.of_nat (length os1)) os2 fr v1.
Proof.
  induction os1 as [|o os1 IH]; intros cycle v v1; cbn [video_run app length].
  - intros [= ->]. by rewrite Z.add_0_r.
  - destruct (consume_video cycle o fr v) as [v2|]; [|done]. cbn [mbind option_bind]. intros ->%IH. f_equal. lia.
Qed.

Lemma line_run cycle fr ls l os v :
  line_samples l os -> drawn ls v -> Z.of_nat (length ls) < V_RES ->
  pixel_total ls + Z.of_nat (length l) < 2147483648 ->
  exists v', video_run cycle os fr v = Some v' /\ drawn (ls ++ [l]) v' /\ between v v' /\ prev_vs v' = false.
Proof.
  intros (blanks & pixels & -> & Hb & Hbs & Hl & Hps) Hd Hlen Htot.
  destruct (blanks_run fr ls blanks cycle v Hbs Hd Hb) as (v1 & E1 & Hd1 & Hb1 & _ & Hde1).
  rewrite (video_run_app _ _ _ _ _ _ E1).
  destruct (pixels_run fr ls l [] (cycle + Z.of_nat (length blanks)) pixels v1)
    as (v2 & E2 & Hl2 & Hb2 & Hvs2); [by rewrite Hde1|done|done|done|cbn [length]; lia|].
  exists v2. split; [done|]. split; [by apply line_drawn|]. split; [by eapply between_trans|done].
Qed.

Lemma lines_run fr rest : forall cycle ls oss v,
  Forall2 line_samples rest oss -> drawn ls v -> rest <> [] ->
  Z.of_nat (length ls) + Z.of_nat (length rest) <= V_RES ->
  pixel_total ls + pixel_total rest < 2147483648 ->
  exists v', video_run cycle (concat oss) fr v = Some v' /\ drawn (ls ++ rest) v' /\ between v v' /\
    prev_vs v' = false.
Proof.
  induction rest as [|l rest IH]; intros cycle ls oss v Hr Hd Hne Hlen Htot; [done|].
  inversion Hr as [|? os ? oss' Hl Hr']; subst. cbn [length pixel_total foldr concat] in *.
  pose proof (pixel_total_range rest) as Ht. unfold pixel_total in Ht at 1.
  destruct (line_run cycle fr ls l os v Hl Hd) as (v1 & E1 & Hd1 & Hb1 & Hvs1); [lia|lia|].
  rewrite (video_run_app _ _ _ _ _ _ E1).
  destruct rest as [|l2 rest]; [inversion Hr'; subst; by exists v1|].
  destruct (IH (cycle + Z.of_nat (length os)) (ls ++ [l]) oss' v1) as (v2 & E2 & Hd2 & Hb2 & Hvs2);
    [done|done|done|rewrite length_app; cbn [length] in *; lia| |].
  { rewrite pixel_total_snoc. unfold pixel_total at 2. lia. }
  rewrite <- app_assoc in Hd2. exists v2. split; [done|]. split; [done|].
  split; [by eapply between_trans|done].
Qed.

(** The sample that ends a frame: the sync rises while no framebuffer is shown. *)
Definition end_sample (o : VideoOut) : Prop :=
  video_vs o = true /\ video_de o = false /\ dbg_zsst_video_active o = false /\ fb_off o = true.

Lemma present_scanned o fr v :
  end_sample o ->
  exists v', present o fr v = Some v' /\ presentbuffer v' = screenbuffer v /\ 
    screenbuffer v' = screenbuffer v /\
    resolution_x v' = (if 640 <=? frame_x_max v then Z.min (frame_x_max v) H_RES else resolution_x v) /\
    resolution_y v' = (if 300 <=? frame_line_max v then Z.min (frame_line_max v) V_RES else resolution_y v).
Proof.
  intros (_ & _ & Hz & Hf). unfold present, render_zsst_frame, render_svga_frame. rewrite Hz, Hf.
  cbn [negb orb mbind option_bind]. cbv zeta. eexists. split; [done|].
  destruct (640 <=? frame_x_max v); cbn; destruct (300 <=? frame_line_max v); done.
Qed.

(** C26: a frame arrives on the screen: from the start of a frame, lines of pixels
    with any blanking between them, up to the next sync pulse, show exactly the
    picture they draw, cut to the buffer, in the presented image, and the
    resolution follows the widest line and the number of lines. *)
Theorem frame_captured cycle fr ls oss o v :
  video_ok v -> frame_start v -> scan_y v = 0 -> Forall2 line_samples ls oss -> ls <> [] ->
  Z.of_nat (length ls) <= V_RES -> pixel_total ls < 2147483648 -> end_sample o ->
  (last_full_frame_cycle v = 0 \/
   MIN_FRAME_CYCLES <= u64 (cycle + Z.of_nat (length (concat oss)) - last_full_frame_cycle v)) ->
  exists v', video_run cycle (concat oss ++ [o]) fr v = Some v' /\
    (forall y x, 0 <= y < V_RES -> 0 <= x < H_RES -> znth black (presentbuffer v') (y * H_RES + x) = picture ls y x) /\
    resolution_x v' = (if 640 <=? widest ls then Z.min (widest ls) H_RES else resolution_x v) /\
    resolution_y v' = (if 300 <=? Z.of_nat (length ls) then Z.of_nat (length ls) else resolution_y v).
Proof.
  intros [[] _] (Hb & Hlm & Hxm & Hpc) Hy Hls Hne Hlen Htot Ho Hlast.
  assert (Hd : drawn [] v).
  { constructor; try done; [|by rewrite Hpc]. intros y x Hy' Hx. apply Hb. unfold H_RES, V_RES in *. lia. }
  destruct (lines_run fr ls cycle [] oss v Hls Hd Hne) as (v1 & E1 & [D1 D2 D3 D4 D5 D6] & Hbw & Hvs1); [cbn; lia|cbn; lia|].
  cbn [app] in D2, D3, D5. rewrite (video_run_app _ _ _ _ _ _ E1). cbn [video_run].
  pose proof Ho as (Hvs & Hde & _). destruct Hbw as (_ & Hrx & Hry & Hlf).
  set (c := cycle + Z.of_nat (length (concat oss))) in *.
  unfold consume_video. rewrite Hvs, Hvs1. cbn [andb negb]. cbv zeta. unfold scan_pixel. rewrite Hde. cbn [andb].
  replace (if ce_pixel o then Some _ else Some _) with (Some (v1 <| scan_x := 0 |> <| scan_y := 0 |>))
    by (by destruct (ce_pixel o)).
  cbn [mbind option_bind]. change (last_full_frame_cycle (v1 <| scan_x := 0 |> <| scan_y := 0 |>))
    with (last_full_frame_cycle v1). rewrite Hlf.
  replace (negb (last_full_frame_cycle v =? 0) && (u64 (c - last_full_frame_cycle v) <? MIN_FRAME_CYCLES)) with false
    by (destruct Hlast; lia).
  unfold show_frame.
  assert (F : forall b n, let v2 := v1 <| scan_x := 0 |> <| scan_y := 0 |> <| saw_video_sync := b |> <| last_full_frame_cycle := n |> in
    screenbuffer v2 = screenbuffer v1 /\ frame_x_max v2 = frame_x_max v1 /\ frame_line_max v2 = frame_line_max v1 /\
    resolution_x v2 = resolution_x v1 /\ resolution_y v2 = resolution_y v1) by done.
  specialize (F true c). cbv zeta in F. revert F.
  generalize (v1 <| scan_x := 0 |> <| scan_y := 0 |> <| saw_video_sync := true |> <| last_full_frame_cycle := c |>) as v2.
  intros v2 (F1 & F2 & F3 & F4 & F5).
  destruct (present_scanned o fr v2 Ho) as (v3 & -> & P1 & _ & P2 & P3). cbn [mbind option_bind]. cbv zeta.
  generalize (clear_rows (H_RES * V_RES) (screenbuffer (v3 <| present_dirty := true |> <| frames_skipped := 0 |>))) as m.
  intros m. eexists. split; [reflexivity|]. unfold reset_counts. cbn.
  rewrite P1, P2, P3, F1, F2, F3, F4, F5, D3, D5, Hrx, Hry. split; [done|]. split; [done|].
  case_bool; [|done]. unfold V_RES in *. lia.
Qed.

(** ** Witnesses *)

Definition blank_video : Video :=
  mkVideo (replicate (Z.to_nat (H_RES * V_RES)) black) (replicate (Z.to_nat (H_RES * V_RES)) black)
    0 0 0 0 0 720 400 true false false 0 0 false false false.

Definition no_frames : Frames := mkFrames [] (replicate 256 black) [] true true.

Lemma blank_pixels_size : pixels_size (replicate (Z.to_nat (H_RES * V_RES)) black).
Proof. unfold pixels_size. rewrite length_replicate. by apply Z2Nat.id. Qed.

Lemma blank_video_ok : video_ok blank_video.
Proof.
  split; [|intros H; exfalso; apply H; reflexivity].
  constructor; [exact blank_pixels_size|exact blank_pixels_size|..];
    cbn [blank_video scan_x scan_y frame_line_max frame_pix_cnt frame_x_max resolution_x resolution_y];
    unfold H_RES, V_RES; lia.
Qed.

Lemma black_from_replicate n : black_from 0 (replicate n black).
Proof.
  intros j _. unfold znth, zlookup. destruct (0 <=? j); [|done].
  destruct (replicate n black !! Z.to_nat j) as [p|] eqn:E; [|done]. by apply lookup_replicate in E as [-> _].
Qed.

Lemma blank_video_start : frame_start blank_video.
Proof. split; [apply black_from_replicate|done]. Qed.

(** Samples: blanking, a pixel, the sync. *)
Definition demo_sample (vs de : bool) (r g b : Z) : VideoOut :=
  mkVideoOut vs false de true r g b 0 true 0 0 0 0 false 0 0 0 0 0.

Lemma capture_safe_witness :
  let o := demo_sample true false 1 2 3 in
  video_ok blank_video /\
  exists v', consume_video 7 o no_frames blank_video = Some v' /\ video_ok v' /\
    (vsync o blank_video = true -> frame_start v').
Proof.
  cbv zeta. split; [exact blank_video_ok|].
  apply (capture_safe 7 (demo_sample true false 1 2 3) no_frames blank_video blank_video_ok).
  - constructor; cbn; lia.
  - constructor; [apply bytes_nil|exact (length_replicate 256 black)].
  - split; reflexivity.
  - reflexivity.
Defined.

Lemma frame_captured_witness :
  exists v', video_run 9 (concat [[demo_sample false false 0 0 0; demo_sample false true 1 2 3]]
                          ++ [demo_sample true false 0 0 0]) no_frames blank_video = Some v' /\
    znth black (presentbuffer v') (0 * H_RES + 0) = mkPixel 0xff 3 2 1.
Proof.
  destruct (frame_captured 9 no_frames [[(1, 2, 3)]]
    [[demo_sample false false 0 0 0; demo_sample false true 1 2 3]] (demo_sample true false 0 0 0) blank_video)
    as (v' & E & Hp & _); [exact blank_video_ok|exact blank_video_start|reflexivity| |congruence|
      unfold V_RES; cbn; lia|cbn; lia|by repeat split|by left|].
  - constructor; [|constructor].
    exists [demo_sample false false 0 0 0], [demo_sample false true 1 2 3].
    split; [reflexivity|]. split; [congruence|]. split; [by repeat constructor|]. split; [congruence|].
    constructor; [by repeat split|constructor].
  - exists v'. split; [exact E|]. rewrite Hp by (unfold V_RES, H_RES; lia). reflexivity.
Defined.

(** What is presented: the accelerator's buffer when its video is active and
    fits, else the linear framebuffer when its mode and registers fit, else the
    scanned picture; a framebuffer's picture is exactly its memory decoded, over
    what was presented before outside it, and no register value makes a
    renderer read outside its memory. *)
Lemma framebuffers_shown o fr v :
  regs_fit o -> frames_ok fr -> pixels_size (presentbuffer v) ->
  exists v' rz rs, present o fr v = Some v' /\ render_zsst_frame o fr (presentbuffer v) = Some rz /\
    render_svga_frame o fr (presentbuffer v) = Some rs /\
    match rz, rs with
    | Some (px, w, h), _ =>
      presentbuffer v' = px /\ resolution_x v' = w /\ resolution_y v' = h /\ 0 < w <= H_RES /\ 0 < h <= V_RES /\
      painted (zsst_pixel (fr_zsst_mem fr)
        (if negb (Z.land (dbg_zsst_displayed_buffer o) 1 =? 0) then dbg_zsst_buffer_size o else 0)
        (dbg_zsst_stride o)) w h (presentbuffer v) px
    | None, Some (px, w, h) =>
      presentbuffer v' = px /\ resolution_x v' = w /\ resolution_y v' = h /\ 0 < w <= H_RES /\ 0 < h <= V_RES /\
      painted (svga_pixel fr (Z.land (fb_flags o) 3) (fb_start_addr o * 4) (fb_stride o * 8)) w h (presentbuffer v) px
    | None, None => presentbuffer v' = screenbuffer v
    end.
Proof.
  intros Ho [F1 F2] Hs. unfold present.
  destruct (render_zsst_ok o fr (presentbuffer v) Ho Hs) as (rz & Ez & Hz).
  destruct (render_svga_ok o fr (presentbuffer v) Ho F1 F2 Hs) as (rs & Es & Hg).
  rewrite Ez, Es. cbn [mbind option_bind].
  destruct rz as [[[px w] h]|].
  - eexists _, _, rs. split; [done|]. split; [done|]. split; [done|]. cbn [shown] in Hz. by destruct Hz as (? & ? & ?).
  - destruct rs as [[[px w] h]|]; cbn [mbind option_bind]; cbv zeta.
    + eexists _, _, _. split; [done|]. split; [done|]. split; [done|]. cbn [shown] in Hg. by destruct Hg as (? & ? & ?).
    + eexists _, _, _. split; [done|]. split; [done|]. split; [done|].
      destruct (640 <=? frame_x_max v); cbn; by destruct (300 <=? frame_line_max v).
Qed.

Lemma framebuffers_shown_witness :
  let o := demo_sample true false 0 0 0 in
  exists v' rz rs, present o no_frames blank_video = Some v' /\
    render_zsst_frame o no_frames (presentbuffer blank_video) = Some rz /\
    render_svga_frame o no_frames (presentbuffer blank_video) = Some rs /\
    (rz = None -> rs = None -> presentbuffer v' = screenbuffer blank_video).
Proof.
  cbv zeta.
  destruct (framebuffers_shown (demo_sample true false 0 0 0) no_frames blank_video)
    as (v' & rz & rs & E1 & E2 & E3 & H).
  - constructor; cbn; lia.
  - constructor; [apply bytes_nil|exact (length_replicate 256 black)].
  - exact blank_pixels_size.
  - exists v', rz, rs. split; [exact E1|]. split; [exact E2|]. split; [exact E3|].
    intros -> ->. exact H.
Defined.
