(* ===== verification/Config.v ===== *)
(** * The machine's configuration

    What verilator/main.cpp writes over the management bus before the CPU
    starts: the floppy slots, the CMOS with its clock and checksum
    ([configure_floppy_slot], [configure_cmos], [configure_x86_management]),
    and the status word of the core. *)
From S2P Require Import Prelude Floppy.

(** [pulse_mgmt_write]: one write on the management bus. *)
Definition MgmtWrite : Type := Z * Z.
Definition pulse_mgmt_write (addr data : Z) : MgmtWrite := (u16 addr, u16 data).

Definition bin2bcd (val : Z) : Z := u8 (Z.lor (Z.shiftl (val / 10) 4) (val mod 10)).

(** The fields of [std::tm] that are used. *)
Record Tm := mkTm {
  tm_sec : Z; tm_min : Z; tm_hour : Z; tm_wday : Z; tm_mday : Z; tm_mon : Z; tm_year : Z
}.

Definition configure_floppy_slot (floppy_writable : bool) (slot : Z) (present : bool) (geo : FloppyGeometry)
    : list MgmtWrite :=
  let base := u16 (0xF200 + Z.shiftl slot 7) in
  [pulse_mgmt_write (base + 0x0) (if present then 1 else 0);
   pulse_mgmt_write (base + 0x1) (if floppy_writable then 0 else 1);
   pulse_mgmt_write (base + 0x2) (if present then cylinders geo else 0);
   pulse_mgmt_write (base + 0x3) (if present then sectors_per_track geo else 0);
   pulse_mgmt_write (base + 0x4) (if present then total_sectors geo else 0);
   pulse_mgmt_write (base + 0x5) (if present then heads geo else 0);
   pulse_mgmt_write (base + 0xC) 0].

Section Cmos.
Context (hdd0_present floppy0_present : bool) (floppy0_geo : FloppyGeometry)
  (boot_from_floppy floppy1_present : bool) (floppy1_geo : FloppyGeometry).

Definition ext_mem_kb : Z := 15 * 1024.

(** The clock registers, from a [tm] with [int] fields. *)
Definition cmos_clock (tm : Tm) (cmos : list Z) : list Z :=
  let cmos := <[0x00%nat := bin2bcd (u32 (tm_sec tm))]> cmos in
  let cmos := <[0x02%nat := bin2bcd (u32 (tm_min tm))]> cmos in
  let cmos := <[0x04%nat := bin2bcd (u32 (tm_hour tm))]> cmos in
  let cmos := <[0x05%nat := 0x12]> cmos in
  let cmos := <[0x06%nat := u8 (tm_wday tm + 1)]> cmos in
  let cmos := <[0x07%nat := bin2bcd (u32 (tm_mday tm))]> cmos in
  let cmos := <[0x08%nat := bin2bcd (u32 (tm_mon tm + 1))]> cmos in
  let cmos := <[0x09%nat := bin2bcd (u32 (if tm_year tm <? 117 then 17 else tm_year tm - 100))]> cmos in
  let cmos := <[0x0A%nat := 0x26]> cmos in
  let cmos := <[0x0B%nat := 0x02]> cmos in
  <[0x0D%nat := 0x80]> cmos.

Definition cmos_equipment (cmos : list Z) : list Z :=
  let cmos := <[0x10%nat := u8 (Z.lor (if floppy0_present then Z.shiftl (cmos_type floppy0_geo) 4 else 0)
                                      (if floppy1_present then cmos_type floppy1_geo else 0))]> cmos in
  let cmos := <[0x12%nat := u8 (Z.shiftl (if hdd0_present then 0xF else 0) 4)]> cmos in
  let floppy_count := b2z floppy0_present + b2z floppy1_present in
  let cmos := <[0x14%nat := u8 (Z.lor (Z.lor 0x0C (if negb (floppy_count =? 0) then 1 else 0))
                                      (if 1 <? floppy_count then 0x40 else 0))]> cmos in
  let cmos := <[0x15%nat := 0x80]> cmos in
  let cmos := <[0x16%nat := 0x02]> cmos in
  let cmos := <[0x17%nat := Z.land ext_mem_kb 0xFF]> cmos in
  let cmos := <[0x18%nat := u8 (Z.shiftr ext_mem_kb 8)]> cmos in
  let cmos := <[0x19%nat := if hdd0_present then 0x2F else 0]> cmos in
  <[0x2D%nat := if floppy0_present && boot_from_floppy then 0x20 else 0]> cmos.

Definition cmos_memory (cmos : list Z) : list Z :=
  let cmos := <[0x30%nat := Z.land ext_mem_kb 0xFF]> cmos in
  let cmos := <[0x31%nat := u8 (Z.shiftr ext_mem_kb 8)]> cmos in
  let cmos := <[0x32%nat := 0x20]> cmos in
  let cmos := <[0x34%nat := 0x00]> cmos in
  let cmos := <[0x35%nat := 0x00]> cmos in
  let cmos := <[0x37%nat := 0x20]> cmos in
  <[0x39%nat := 0x02]> cmos.

(** The sum over 0x10..0x2D in an [unsigned short]. *)
Definition cmos_sum (cmos : list Z) : Z := foldl (fun sum b => u16 (sum + b)) 0 (take 30 (drop 16 cmos)).

Definition cmos_checksum (cmos : list Z) : list Z :=
  let sum := cmos_sum cmos in <[0x2F%nat := Z.land sum 0xFF]> (<[0x2E%nat := u8 (Z.shiftr sum 8)]> cmos).

Definition cmos_image (tm : Tm) : list Z :=
  cmos_checksum (cmos_memory (cmos_equipment (cmos_clock tm (replicate 128 0)))).

Definition configure_cmos (tm : Tm) : list MgmtWrite :=
  imap (fun i b => pulse_mgmt_write (0xF400 + Z.of_nat i) b) (cmos_image tm).

End Cmos.

Definition configure_x86_management (floppy_writable hdd0_present : bool) (floppy0 : HpsFloppy.HpsFloppy)
    (boot_from_floppy : bool) (tm : Tm) : list MgmtWrite :=
  let p0 := HpsFloppy.present floppy0 0 in
  let p1 := HpsFloppy.present floppy0 1 in
  configure_floppy_slot floppy_writable 0 p0 (HpsFloppy.geometry floppy0 0) ++
  configure_floppy_slot floppy_writable 1 p1 (HpsFloppy.geometry floppy0 1) ++
  configure_cmos hdd0_present p0 (HpsFloppy.geometry floppy0 0) boot_from_floppy
    p1 (HpsFloppy.geometry floppy0 1) tm.

(** ** The status word *)

Definition ram_size_code (ram_mb : Z) : Z :=
  if ram_mb =? 64 then 0 else if ram_mb =? 128 then 1 else if ram_mb =? 16 then 2 else 3.

Definition initial_status (cpu_speed_status ram_mb : Z) (variable_vsync vga_border opl3_mode : bool) : Z :=
  Z.lor (Z.lor (Z.lor (Z.lor (u64 (Z.shiftl cpu_speed_status 8)) (u64 (Z.shiftl (ram_size_code ram_mb) 61)))
    (Z.shiftl (b2z variable_vsync) 4)) (Z.shiftl (b2z vga_border) 54)) (Z.shiftl (b2z (negb opl3_mode)) 57).

(** [status = (status & ~(mask << at)) | (value << at)] on 64 bits. *)
Definition set_status_field (status mask at_bit value : Z) : Z :=
  Z.lor (Z.land status (u64 (Z.lnot (Z.shiftl mask at_bit)))) (u64 (Z.shiftl value at_bit)).

(** The selections given on the command line, applied after a restore. *)
Definition override_status (ram_mb_explicit opl_mode_explicit variable_vsync vga_border_explicit : bool)
    (ram_mb : Z) (opl3_mode vga_border : bool) (status : Z) : Z :=
  let status := if ram_mb_explicit then set_status_field status 3 61 (ram_size_code ram_mb) else status in
  let status := if opl_mode_explicit then set_status_field status 1 57 (b2z (negb opl3_mode)) else status in
  let status := if variable_vsync then Z.lor status (Z.shiftl 1 4) else status in
  if vga_border_explicit then set_status_field status 1 54 (b2z vga_border) else status.

(** A change of the CPU speed at run time. *)
Definition set_cpu_speed (status speed : Z) : Z := set_status_field status 7 8 speed.

(** * The clock *)

Definition bcd_value (b : Z) : Z := 10 * (b / 16) + b mod 16.
Definition is_bcd (b : Z) : Prop := 0 <= b / 16 < 10 /\ 0 <= b mod 16 < 10.

Lemma bin2bcd_val v : 0 <= v < 100 -> bin2bcd v = 16 * (v / 10) + v mod 10.
Proof.
  intros Hv. unfold bin2bcd. rewrite lor_shiftl_add by divlia. change (2 ^ 4) with 16. unfold u8. divlia.
Qed.

Lemma bin2bcd_range v : is_u8 (bin2bcd v).
Proof. apply u8_range. Qed.

Lemma bin2bcd_correct v : 0 <= v < 100 -> bcd_value (bin2bcd v) = v /\ is_bcd (bin2bcd v).
Proof.
  intros Hv. rewrite bin2bcd_val by done. unfold bcd_value, is_bcd.
  replace ((16 * (v / 10) + v mod 10) / 16) with (v / 10) by divlia.
  replace ((16 * (v / 10) + v mod 10) mod 16) with (v mod 10) by divlia. divlia.
Qed.

Lemma bin2bcd_past v : 100 <= v < 160 -> ~ is_bcd (bin2bcd v).
Proof.
  intros Hv. unfold bin2bcd, is_bcd. rewrite lor_shiftl_add by divlia. change (2 ^ 4) with 16.
  unfold u8. intros [H _]. divlia.
Qed.

(** ** The CMOS image *)

(** A broken-down time as [localtime] gives it, before the year 2100. *)
Definition valid_tm (tm : Tm) : Prop :=
  0 <= tm_sec tm <= 60 /\ 0 <= tm_min tm < 60 /\ 0 <= tm_hour tm < 24 /\ 0 <= tm_wday tm < 7 /\
  1 <= tm_mday tm <= 31 /\ 0 <= tm_mon tm < 12 /\ -2147483648 <= tm_year tm < 200.

Definition cmos_at (c : list Z) (i : nat) : Z := default 0 (c !! i).

(** What a BCD register shows. *)
Definition shows (b v : Z) : Prop := is_bcd b /\ bcd_value b = v.

Lemma shows_bin2bcd v : 0 <= v < 100 -> shows (bin2bcd v) v.
Proof. intros Hv. by destruct (bin2bcd_correct v Hv). Qed.

Lemma sum_fold l : forall a, bytes l -> 0 <= a -> a + 255 * Z.of_nat (length l) < 65536 ->
  foldl (fun s b => u16 (s + b)) a l = a + foldr Z.add 0 l /\ 0 <= foldr Z.add 0 l <= 255 * Z.of_nat (length l).
Proof.
  induction l as [|b l IH]; intros a Hb Ha Hl; cbn [foldl foldr length] in *; [lia|].
  inversion Hb as [|? ? Hb1 Hb2]; subst. unfold is_u8 in Hb1. rewrite u16_id by (unfold is_u16; lia).
  destruct (IH (a + b)) as [-> ?]; [done|lia|lia|]. lia.
Qed.

Section Image.
Context (hdd f0 : bool) (g0 : FloppyGeometry) (boot f1 : bool) (g1 : FloppyGeometry).

Lemma cmos_parts_bytes c :
  bytes c -> forall tm, bytes (cmos_memory (cmos_equipment hdd f0 g0 boot f1 g1 (cmos_clock tm c))).
Proof.
  intros Hc tm. unfold cmos_memory, cmos_equipment, cmos_clock. cbv zeta.
  repeat (apply bytes_insert; [first [apply u8_range|apply bin2bcd_range|by vm_compute|by destruct hdd|
    by destruct (f0 && boot)]|]). done.
Qed.

Lemma cmos_parts_length c tm :
  length (cmos_memory (cmos_equipment hdd f0 g0 boot f1 g1 (cmos_clock tm c))) = length c.
Proof. unfold cmos_memory, cmos_equipment, cmos_clock. cbv zeta. by rewrite !length_insert. Qed.

Lemma cmos_summed_window c : take 30 (drop 16 (cmos_checksum c)) = take 30 (drop 16 c).
Proof.
  unfold cmos_checksum. cbv zeta. rewrite !drop_insert_ge by lia. cbn [Nat.sub].
  by rewrite !take_insert_ge by lia.
Qed.

Lemma cmos_sum_bytes c : bytes c -> (48 <= length c)%nat ->
  cmos_sum c = foldr Z.add 0 (take 30 (drop 16 c)) /\ is_u16 (cmos_sum c).
Proof.
  intros Hc Hl. unfold cmos_sum.
  assert (Hb : bytes (take 30 (drop 16 c))) by (by apply bytes_take, bytes_drop).
  assert (Hn : length (take 30 (drop 16 c)) = 30%nat) by (rewrite length_take, length_drop; lia).
  destruct (sum_fold _ 0 Hb ltac:(lia)) as [-> H]; [rewrite Hn; lia|]. rewrite Hn in H. unfold is_u16. lia.
Qed.

Lemma cmos_checksum_holds c : bytes c -> (48 <= length c)%nat ->
  256 * cmos_at (cmos_checksum c) 0x2E + cmos_at (cmos_checksum c) 0x2F
    = foldr Z.add 0 (take 30 (drop 16 (cmos_checksum c))).
Proof.
  intros Hc Hl. rewrite cmos_summed_window. destruct (cmos_sum_bytes c Hc Hl) as [E Hr]. rewrite <- E.
  unfold cmos_checksum, cmos_at. cbv zeta.
  rewrite list_lookup_insert_eq by (rewrite length_insert; lia).
  rewrite list_lookup_insert_ne, list_lookup_insert_eq by lia. cbn [default from_option id].
  rewrite land_255, shiftr_div by lia. change (2 ^ 8) with 256. unfold u8, is_u16 in *. divlia.
Qed.

(** The CMOS that the guest finds: 128 writes, one per register in order,
    whose checksum bytes add up 0x10..0x2D as the BIOS checks them, and clock
    registers that are valid BCD and show the host's time (years before 2017
    as 2017), for every time before 2100 and every equipment. *)
Lemma cmos_configured tm :
  valid_tm tm ->
  let c := cmos_image hdd f0 g0 boot f1 g1 tm in
  configure_cmos hdd f0 g0 boot f1 g1 tm = imap (fun i b => (0xF400 + Z.of_nat i, b)) c /\
  length c = 128%nat /\ bytes c /\
  256 * cmos_at c 0x2E + cmos_at c 0x2F = foldr Z.add 0 (take 30 (drop 16 c)) /\
  shows (cmos_at c 0) (tm_sec tm) /\ shows (cmos_at c 2) (tm_min tm) /\ shows (cmos_at c 4) (tm_hour tm) /\
  cmos_at c 6 = tm_wday tm + 1 /\ shows (cmos_at c 7) (tm_mday tm) /\ shows (cmos_at c 8) (tm_mon tm + 1) /\
  shows (cmos_at c 9) (Z.max (1900 + tm_year tm) 2017 - 2000).
Proof.
  intros (Hs & Hmi & Hh & Hw & Hd & Hmo & Hy). cbv zeta.
  assert (Hp : bytes (replicate 128 0)) by (by apply bytes_replicate).
  set (m := cmos_memory (cmos_equipment hdd f0 g0 boot f1 g1 (cmos_clock tm (replicate 128 0)))).
  assert (Hb : bytes m) by (by apply cmos_parts_bytes).
  assert (Hl : length m = 128%nat) by (unfold m; by rewrite cmos_parts_length, length_replicate).
  assert (Hc : bytes (cmos_checksum m)).
  { destruct (cmos_sum_bytes m Hb ltac:(lia)) as [_ Hu]. unfold cmos_checksum. cbv zeta.
    apply bytes_insert; [width|]. apply bytes_insert; [apply u8_range|done]. }
  assert (Hcl : length (cmos_checksum m) = 128%nat) by (unfold cmos_checksum; by rewrite !length_insert).
  assert (Hat : forall i, (i < 16)%nat -> cmos_at (cmos_checksum m) i = cmos_at (cmos_clock tm (replicate 128 0)) i).
  { intros i Hi. unfold cmos_at, cmos_checksum, m, cmos_memory, cmos_equipment. cbv zeta.
    by rewrite !list_lookup_insert_ne by lia. }
  change (cmos_image hdd f0 g0 boot f1 g1 tm) with (cmos_checksum m).
  split.
  { unfold configure_cmos. change (cmos_image hdd f0 g0 boot f1 g1 tm) with (cmos_checksum m).
    apply imap_ext. intros i b Hi. unfold pulse_mgmt_write.
    apply lookup_lt_Some in Hi as Hlt. rewrite Hcl in Hlt.
    pose proof (Forall_lookup_1 _ _ _ _ Hc Hi) as Hb8. unfold is_u8 in Hb8.
    by rewrite !u16_id by (unfold is_u16; lia). }
  split; [done|]. split; [done|]. split; [apply cmos_checksum_holds; [done|lia]|].
  rewrite !Hat by lia. unfold cmos_at, cmos_clock. cbv zeta.
  repeat rewrite ?list_lookup_insert_ne, ?list_lookup_insert_eq by (rewrite ?length_insert, ?length_replicate; lia).
  cbn [default from_option id]. rewrite !u32_id by (unfold is_u32; try case_bool; lia).
  split_and!; try (apply shows_bin2bcd; lia); [unfold u8; divlia|].
  replace (Z.max (1900 + tm_year tm) 2017 - 2000) with (if tm_year tm <? 117 then 17 else tm_year tm - 100)
    by (case_bool; lia).
  apply shows_bin2bcd. case_bool; lia.
Qed.

(** From the year 2100 on the year register is not a BCD number. *)
Lemma cmos_year_overflows tm :
  200 <= tm_year tm < 260 -> ~ is_bcd (cmos_at (cmos_image hdd f0 g0 boot f1 g1 tm) 9).
Proof.
  intros Hy. unfold cmos_at, cmos_image, cmos_checksum, cmos_memory, cmos_equipment, cmos_clock. cbv zeta.
  repeat rewrite ?list_lookup_insert_ne, ?list_lookup_insert_eq by (rewrite ?length_insert, ?length_replicate; lia).
  cbn [default from_option id]. replace (tm_year tm <? 117) with false by lia.
  rewrite u32_id by (unfold is_u32; lia). apply bin2bcd_past. lia.
Qed.
End Image.

(** ** Status fields *)

Lemma testbit_u64' x i : 0 <= i < 64 -> Z.testbit (u64 x) i = Z.testbit x i.
Proof. intros Hi. unfold u64. change 18446744073709551616 with (2 ^ 64). by rewrite Z.mod_pow2_bits_low by lia. Qed.

Lemma testbit_ones_shift k at_bit i :
  0 <= k -> 0 <= at_bit -> 0 <= i -> Z.testbit (Z.shiftl (Z.ones k) at_bit) i = (at_bit <=? i) && (i <? at_bit + k).
Proof.
  intros Hk Ha Hi. rewrite Z.shiftl_spec by lia. rewrite Z.testbit_ones by lia.
  destruct (Z.leb_spec at_bit i), (Z.ltb_spec i (at_bit + k)), (Z.leb_spec 0 (i - at_bit)), (Z.ltb_spec (i - at_bit) k);
    try lia; done.
Qed.

(** A field update changes the field's bits only. *)
Lemma set_status_field_bits status k at_bit value i :
  0 <= k -> 0 <= at_bit -> 0 <= value < 2 ^ k -> 0 <= i < 64 ->
  Z.testbit (set_status_field status (Z.ones k) at_bit value) i =
    if (at_bit <=? i) && (i <? at_bit + k) then Z.testbit value (i - at_bit) else Z.testbit status i.
Proof.
  intros Hk Ha Hv Hi. unfold set_status_field.
  rewrite Z.lor_spec, Z.land_spec, !testbit_u64', Z.lnot_spec, testbit_ones_shift, Z.shiftl_spec by lia.
  destruct (Z.leb_spec at_bit i); cbn [andb negb].
  - destruct (Z.ltb_spec i (at_bit + k)); cbn [negb]; [by rewrite andb_false_r|].
    rewrite andb_true_r. replace (Z.testbit value (i - at_bit)) with false; [by rewrite orb_false_r|].
    symmetry. rewrite <- (Z.mod_small value (2 ^ k)) by lia. apply Z.mod_pow2_bits_high. lia.
  - rewrite andb_true_r, (Z.testbit_neg_r value) by lia. by rewrite orb_false_r.
Qed.

Lemma ram_size_code_range ram_mb : 0 <= ram_size_code ram_mb < 4.
Proof. unfold ram_size_code. repeat case_bool; lia. Qed.

(** Selections given on the command line override exactly their own fields of
    the restored status word: the memory size, the OPL mode, the variable sync
    and the border; every other bit keeps the checkpoint's value, and a speed
    change touches only the three speed bits. *)
Lemma status_overrides ram_x opl_x vv border_x ram_mb opl3 border status i :
  0 <= i < 64 ->
  Z.testbit (override_status ram_x opl_x vv border_x ram_mb opl3 border status) i =
    (if border_x && (i =? 54) then border
     else if vv && (i =? 4) then true
     else if opl_x && (i =? 57) then negb opl3
     else if ram_x && (61 <=? i) && (i <? 63) then Z.testbit (ram_size_code ram_mb) (i - 61)
     else Z.testbit status i) /\
  forall speed, 0 <= speed < 8 ->
    Z.testbit (set_cpu_speed status speed) i =
      if (8 <=? i) && (i <? 11) then Z.testbit speed (i - 8) else Z.testbit status i.
Proof.
  intros Hi.
  assert (Hbit : forall s at_bit (b : bool), 0 <= at_bit ->
    Z.testbit (set_status_field s 1 at_bit (b2z b)) i = if i =? at_bit then b else Z.testbit s i).
  { intros s at_bit b Ha. change 1 with (Z.ones 1) at 1.
    rewrite set_status_field_bits by (destruct b; cbn; lia).
    destruct (Z.eqb_spec i at_bit) as [->|].
    - rewrite Z.leb_refl, (proj2 (Z.ltb_lt _ _)), Z.sub_diag by lia. by destruct b.
    - destruct (Z.leb_spec at_bit i), (Z.ltb_spec i (at_bit + 1)); try lia; done. }
  split.
  - unfold override_status. cbv zeta.
    pose proof (ram_size_code_range ram_mb) as Hr.
    destruct border_x; cbn [andb]; rewrite ?Hbit by lia; [destruct (i =? 54); [done|]|];
      (destruct vv; cbn [andb]; [rewrite Z.lor_spec, Z.shiftl_spec by lia;
         destruct (Z.eqb_spec i 4) as [->|]; [by rewrite orb_true_r|];
         replace (Z.testbit 1 (i - 4)) with false by
           (symmetry; destruct (Z.lt_ge_cases i 4); [apply Z.testbit_neg_r; lia|by apply (Z.bits_above_log2 1); cbn; lia]);
         rewrite orb_false_r|]);
      (destruct opl_x; cbn [andb]; rewrite ?Hbit by lia; [destruct (i =? 57); [done|]|]);
      (destruct ram_x; cbn [andb]; [|done]); change 3 with (Z.ones 2) at 1;
      by rewrite set_status_field_bits by (cbn; lia).
  - intros speed Hs. unfold set_cpu_speed. change 7 with (Z.ones 3).
    by rewrite set_status_field_bits by (cbn; lia).
Qed.

(** ** Witnesses *)

Definition demo_tm : Tm := mkTm 59 7 23 4 31 11 124.

Lemma cmos_configured_witness :
  valid_tm demo_tm /\
  let c := cmos_image true true geo_default true false geo_default demo_tm in
  length c = 128%nat /\ shows (cmos_at c 9) 24.
Proof.
  assert (H : valid_tm demo_tm) by (unfold valid_tm; cbn; lia).
  split; [exact H|]. cbv zeta.
  destruct (cmos_configured true true geo_default true false geo_default demo_tm H)
    as (_ & Hl & _ & _ & _ & _ & _ & _ & _ & _ & Hy).
  split; [exact Hl|exact Hy].
Defined.

Lemma cmos_year_overflows_witness :
  ~ is_bcd (cmos_at (cmos_image true false geo_default false false geo_default (mkTm 0 0 0 5 1 0 200)) 9).
Proof. apply (cmos_year_overflows true false geo_default false false geo_default (mkTm 0 0 0 5 1 0 200)); cbn; lia. Defined.

Lemma status_overrides_witness :
  Z.testbit (override_status true false false false 128 true false 0x4000000000000010) 61 = true.
Proof. rewrite (proj1 (status_overrides true false false false 128 true false 0x4000000000000010 61 ltac:(lia))). reflexivity. Defined.
