(* ===== verification/Options.v ===== *)
(** * The command line

    The argument loop of [main] in verilator/main.cpp and the checks behind it:
    [parse_args] goes through the arguments with the tables [flags] and
    [valued]; [main_options] is what [main] runs with, or how it ends.

    Whatever is given, the settings [main] goes on with are in range
    ([options_valid]); the events given with their times are the ones that are
    scheduled ([events_read]).

    Opening files and parsing the date of --rtc are given from outside. *)
From S2P Require Import Prelude IdeTypes Text Keyboard Config.

(** ** Numbers *)

Inductive NumError := invalid_argument | out_of_range.

(** A value, a message and exit status 1, or an exception nothing catches. *)
Inductive Parse (A : Type) := Go (a : A) | Fail1 | Uncaught (e : NumError).
#[global] Arguments Go {A}.
#[global] Arguments Fail1 {A}.
#[global] Arguments Uncaught {A}.

#[export] Instance Parse_ret : MRet Parse := fun _ a => Go a.
#[export] Instance Parse_bind : MBind Parse := fun _ _ f p =>
  match p with Go a => f a | Fail1 => Fail1 | Uncaught e => Uncaught e end.

(** [try ... catch (const std::invalid_argument&)]. *)
Definition catch_invalid {A} (p : Parse A) : Parse A :=
  match p with Uncaught invalid_argument => Fail1 | p => p end.

Definition digit_of (c : Z) : option Z :=
  if isdigit c then Some (c - 48)
  else if (97 <=? c) && (c <=? 122) then Some (c - 87)
  else if (65 <=? c) && (c <=? 90) then Some (c - 55)
  else None.

(** The digits at the head of [l] in a base; [None] when there is none. *)
Fixpoint read_digits (base : Z) (acc : option Z) (l : list Z) : option Z :=
  match l with
  | [] => acc
  | c :: l =>
    match digit_of c with
    | Some d => if d <? base then read_digits base (Some (default 0 acc * base + d)) l else acc
    | None => acc
    end
  end.

(** A prefix 0x counts when a digit follows. *)
Definition hex_prefix (l : list Z) : bool :=
  match l with
  | 48 :: x :: c :: _ => ((x =? 120) || (x =? 88)) && match digit_of c with Some d => d <? 16 | None => false end
  | _ => false
  end.

(** The sign and magnitude strtol and its kin read; base 0 goes by the prefix. *)
Definition number (base : Z) (s : list Z) : option (bool * Z) :=
  let l := skip_space s in
  let neg := match l with c :: _ => c =? 45 | [] => false end in
  let l := match l with c :: l' => if (c =? 45) || (c =? 43) then l' else l | [] => l end in
  let hex := ((base =? 0) || (base =? 16)) && hex_prefix l in
  let octal := match l with 48 :: _ => true | _ => false end in
  let radix := if negb (base =? 0) then base else if hex then 16 else if octal then 8 else 10 in
  (fun v => (neg, v)) <$> read_digits radix None (if hex then drop 2 l else l).

(** [std::stoull] and [std::stoul], both of 64 bits, and [std::stoi]. *)
Definition stoull (base : Z) (s : list Z) : Parse Z :=
  match number base s with
  | None => Uncaught invalid_argument
  | Some (neg, v) => if 18446744073709551615 <? v then Uncaught out_of_range else Go (if (neg : bool) then u64 (- v) else v)
  end.

Definition stoi (base : Z) (s : list Z) : Parse Z :=
  match number base s with
  | None => Uncaught invalid_argument
  | Some (neg, v) =>
    let v := if (neg : bool) then - v else v in
    if (INT_MIN <=? v) && (v <=? INT_MAX) then Go v else Uncaught out_of_range
  end.

(** A time in half cycles, as a cycle. *)
Definition cycle_of (s : list Z) : Parse Z := t ← stoull 10 s; Go (t / 2).

(** ** The settings *)

Record EipMarker := mkEipMarker { em_cs : Z; em_eip : Z }.

Record Options := mkOptions {
  enable_trace : bool; trace_start_cycle : Z; trace_file_name : list Z; arm_trace_on_flatline : bool;
  flatline_trace_window : Z;
  cosim_on : bool; g_headless : bool; max_cycles : Z;
  ddr_busy_period : Z; ddr_busy_len : Z; ddr_busy_rand_pct : Z; ddr_busy_rand_state : Z;
  disk_path : list Z; cdrom_path : list Z; jitter_seed : option Z;
  floppy_path : list Z; floppy_b_path : list Z; floppy_writable : bool; boot_from_hdd : bool;
  boot0_path : list Z; boot1_path : list Z; load_ram_path : list Z; shared_directory : list Z;
  ram_mb : Z; ram_mb_explicit : bool;
  cpu_speed_status : Z; cpu_speed_events : list (Z * Z);
  opl3_mode : bool; opl_mode_explicit : bool; variable_vsync : bool; vga_border : bool; vga_border_explicit : bool;
  fb_bgr : bool; fb_1555 : bool;
  enter_cycles : list Z; key_events : list (Z * Z); key_edge_events : list (Z * Z * bool);
  text_key_events : list (list Z * Z); mouse_packet_events : list (Z * Z * Z * Z); ctrl_alt_del_cycles : list Z;
  control_port : Z; control_bind : list Z;
  screen_check_cycles : list Z; vga_plane_events : list (Z * list Z); log_eip_markers : list EipMarker;
  screenshot_dir : list Z; screenshot_interval_cycles : Z; next_screenshot_cycle : Z; stop_on_text : list Z;
  g_ide_debug : bool; g_zsst_debug : bool; zsst_write_trace_path : list Z;
  record_audio : bool; record_path : list Z; g_no_audio_clock : bool; rtc : option Tm;
  checkpoint_dir : list Z; checkpoint_interval_sec : Z; checkpoint_keep : Z; restore_path : list Z;
  snapshot_dir : list Z; snapshot_interval_sec : Z; snapshot_keep : Z; snapshot_restore_path : list Z
}.

#[export] Instance eta_Options : Eta Options := fun r => mkOptions
  (enable_trace r) (trace_start_cycle r) (trace_file_name r) (arm_trace_on_flatline r) (flatline_trace_window r)
  (cosim_on r) (g_headless r) (max_cycles r) (ddr_busy_period r) (ddr_busy_len r) (ddr_busy_rand_pct r)
  (ddr_busy_rand_state r) (disk_path r) (cdrom_path r) (jitter_seed r) (floppy_path r) (floppy_b_path r)
  (floppy_writable r) (boot_from_hdd r) (boot0_path r) (boot1_path r) (load_ram_path r) (shared_directory r)
  (ram_mb r) (ram_mb_explicit r) (cpu_speed_status r) (cpu_speed_events r) (opl3_mode r) (opl_mode_explicit r)
  (variable_vsync r) (vga_border r) (vga_border_explicit r) (fb_bgr r) (fb_1555 r) (enter_cycles r) (key_events r)
  (key_edge_events r) (text_key_events r) (mouse_packet_events r) (ctrl_alt_del_cycles r) (control_port r)
  (control_bind r) (screen_check_cycles r) (vga_plane_events r) (log_eip_markers r) (screenshot_dir r)
  (screenshot_interval_cycles r) (next_screenshot_cycle r) (stop_on_text r) (g_ide_debug r) (g_zsst_debug r)
  (zsst_write_trace_path r) (record_audio r) (record_path r) (g_no_audio_clock r) (rtc r) (checkpoint_dir r)
  (checkpoint_interval_sec r) (checkpoint_keep r) (restore_path r) (snapshot_dir r) (snapshot_interval_sec r)
  (snapshot_keep r) (snapshot_restore_path r).

Definition UINT64_MAX : Z := 18446744073709551615.
Definition GOLDEN : Z := 0x9E3779B97F4A7C15.

(** The initializers of the globals and locals. *)
Definition default_options : Options := {|
  enable_trace := false; trace_start_cycle := 0; trace_file_name := str "waveform.fst"; arm_trace_on_flatline := false;
  flatline_trace_window := 8000000;
  cosim_on := false; g_headless := false; max_cycles := UINT64_MAX;
  ddr_busy_period := 0; ddr_busy_len := 1; ddr_busy_rand_pct := 0; ddr_busy_rand_state := GOLDEN;
  disk_path := str "../../sdcard/freedos.img"; cdrom_path := []; jitter_seed := None;
  floppy_path := []; floppy_b_path := []; floppy_writable := false; boot_from_hdd := false;
  boot0_path := str "boot0.rom"; boot1_path := str "boot1.rom"; load_ram_path := []; shared_directory := [];
  ram_mb := 64; ram_mb_explicit := false;
  cpu_speed_status := 0; cpu_speed_events := [];
  opl3_mode := true; opl_mode_explicit := false; variable_vsync := false; vga_border := false; vga_border_explicit := false;
  fb_bgr := true; fb_1555 := true;
  enter_cycles := []; key_events := []; key_edge_events := [];
  text_key_events := []; mouse_packet_events := []; ctrl_alt_del_cycles := [];
  control_port := 0; control_bind := str "127.0.0.1";
  screen_check_cycles := []; vga_plane_events := []; log_eip_markers := [];
  screenshot_dir := []; screenshot_interval_cycles := 0; next_screenshot_cycle := 0; stop_on_text := [];
  g_ide_debug := true; g_zsst_debug := false; zsst_write_trace_path := [];
  record_audio := false; record_path := str "dsp.wav"; g_no_audio_clock := false; rtc := None;
  checkpoint_dir := []; checkpoint_interval_sec := 0; checkpoint_keep := 6; restore_path := [];
  snapshot_dir := []; snapshot_interval_sec := 0; snapshot_keep := 30; snapshot_restore_path := []
|}.

(** ** The arguments *)

(** Arguments without a value. *)
Definition flags : list (list Z * (Options -> Options)) := [
  (str "--trace", fun o => o <| enable_trace := true |>);
  (str "--cosim", fun o => o <| cosim_on := true |>);
  (str "--headless", fun o => o <| g_headless := true |>);
  (str "--floppy-writable", fun o => o <| floppy_writable := true |>);
  (str "--boot-hdd", fun o => o <| boot_from_hdd := true |>);
  (str "--opl2", fun o => o <| opl3_mode := false |> <| opl_mode_explicit := true |>);
  (str "--opl3", fun o => o <| opl3_mode := true |> <| opl_mode_explicit := true |>);
  (str "--variable-vsync", fun o => o <| variable_vsync := true |>);
  (str "--vga-border", fun o => o <| vga_border := true |> <| vga_border_explicit := true |>);
  (str "--no-vga-border", fun o => o <| vga_border := false |> <| vga_border_explicit := true |>);
  (str "--fb-bgr", fun o => o <| fb_bgr := true |>);
  (str "--fb-rgb", fun o => o <| fb_bgr := false |>);
  (str "--fb-1555", fun o => o <| fb_1555 := true |>);
  (str "--fb-565", fun o => o <| fb_1555 := false |>);
  (str "--ide", fun o => o <| g_ide_debug := true |>);
  (str "--no-ide", fun o => o <| g_ide_debug := false |>);
  (str "--zsst-debug", fun o => o <| g_zsst_debug := true |>);
  (str "--record", fun o => o <| record_audio := true |>);
  (str "--trace-on-flatline", fun o =>
    o <| arm_trace_on_flatline := true |> <| enable_trace := true |> <| trace_start_cycle := UINT64_MAX |>);
  (str "--no-audio-clock", fun o => o <| g_no_audio_clock := true |>)
].

Definition colon : list Z := [58].

(** The text before and behind the first colon. *)
Definition cut_colon (s : list Z) : option (list Z * list Z) :=
  (fun i => (take i s, drop (S i) s)) <$> find colon s.

Definition cut_comma (s : list Z) : list Z * option (list Z) :=
  match find [44] s with
  | None => (s, None)
  | Some i => (take i s, Some (drop (S i) s))
  end.

(** [event.substr(start, separator - start)] for every colon. *)
Fixpoint split_colons (w l : list Z) : list (list Z) :=
  match l with
  | [] => [w]
  | c :: l => if c =? 58 then w :: split_colons [] l else split_colons (w ++ [c]) l
  end.

Definition required {A} (o : option A) : Parse A := match o with Some a => Go a | None => Fail1 end.

(** The guard of a message with exit status 1. *)
Definition check (b : bool) : Parse unit := if b then Go tt else Fail1.

Definition speeds : list (list Z * Z) :=
  [(str "full", 0); (str "56", 1); (str "30", 2); (str "15", 3); (str "6", 4); (str "5", 5); (str "4", 6); (str "3", 7)].

Definition parse_cpu_speed (speed : list Z) : Parse Z :=
  match list_find (fun e => e.1 = speed) speeds with
  | Some (_, (_, status)) => Go status
  | None => Uncaught invalid_argument
  end.

Section Args.
Context `{Sdl}.
(** Whether the profile's file can be opened, and the date of --rtc. *)
Context (profile_opens : list Z -> bool) (parse_rtc : list Z -> option Tm).

Definition set_ddr_busy (spec : list Z) (o : Options) : Parse Options :=
  let '(p, l) := cut_comma spec in
  period ← stoi 10 p;
  len ← match l with None => Go 1 | Some l => stoi 10 l end;
  let period := if period <? 0 then 0 else period in
  let len := if len <? 0 then 0 else len in
  check (negb ((0 <? period) && (period <=? len)));;
  Go (o <| ddr_busy_period := period |> <| ddr_busy_len := len |>).

Definition set_ddr_busy_rand (spec : list Z) (o : Options) : Parse Options :=
  let '(n, seed) := cut_comma spec in
  pct ← stoi 10 n;
  o ← match seed with
      | None => Go o
      | Some seed => v ← stoull 10 seed; Go (o <| ddr_busy_rand_state := u64 (GOLDEN + v * 0xA0761D6478BD642F) |>)
      end;
  let pct := if pct <? 0 then 0 else pct in
  check (pct <=? 95);;
  Go (o <| ddr_busy_rand_pct := pct |>).

Definition set_ram_mb (s : list Z) (o : Options) : Parse Options :=
  v ← stoull 10 s;
  let mb := u32 v in
  check ((mb =? 16) || (mb =? 32) || (mb =? 64) || (mb =? 128));;
  Go (o <| ram_mb := mb |> <| ram_mb_explicit := true |>).

Definition add_cpu_speed (event : list Z) (o : Options) : Parse Options :=
  '(t, speed) ← required (cut_colon event);
  e ← catch_invalid (cycle ← cycle_of t; status ← parse_cpu_speed speed; Go (cycle, status));
  Go (o <| cpu_speed_events := cpu_speed_events o ++ [e] |>).

Definition add_key (event : list Z) (o : Options) : Parse Options :=
  '(t, name) ← required (cut_colon event);
  key ← required (parse_named_key name);
  cycle ← cycle_of t;
  Go (o <| key_events := key_events o ++ [(cycle, key)] |>).

Definition add_key_edge (pressed : bool) (event : list Z) (o : Options) : Parse Options :=
  '(t, name) ← required (cut_colon event);
  key ← required (parse_named_key name);
  cycle ← cycle_of t;
  Go (o <| key_edge_events := key_edge_events o ++ [(cycle, key, pressed)] |>).

Definition add_text_key (event : list Z) (o : Options) : Parse Options :=
  match last_index 58 event with
  | None | Some O => Fail1
  | Some i =>
    key ← required (parse_named_key (drop (S i) event));
    Go (o <| text_key_events := text_key_events o ++ [(take i event, key)] |>)
  end.

Definition add_mouse (event : list Z) (o : Options) : Parse Options :=
  '(t, x, y, b) ← match split_colons [] event with
                  | [t; x; y] => Go (t, x, y, None)
                  | [t; x; y; b] => Go (t, x, y, Some b)
                  | _ => Fail1
                  end;
  dx ← stoi 0 x;
  dy ← stoi 0 y;
  buttons ← match b with Some b => v ← stoull 0 b; Go (u32 v) | None => Go 0 end;
  check (negb (7 <? buttons));;
  cycle ← cycle_of t;
  Go (o <| mouse_packet_events := mouse_packet_events o ++ [(cycle, dx, dy, u8 buttons)] |>).

Definition set_control_port (s : list Z) (o : Options) : Parse Options :=
  v ← stoull 10 s;
  let port := u32 v in
  check (negb ((port =? 0) || (65535 <? port)));;
  Go (o <| control_port := port |>).

Definition add_vga_plane (event : list Z) (o : Options) : Parse Options :=
  '(t, path) ← required (cut_colon event);
  check (negb (is_nil path));;
  cycle ← cycle_of t;
  Go (o <| vga_plane_events := vga_plane_events o ++ [(cycle, path)] |>).

Definition add_marker (marker : list Z) (o : Options) : Parse Options :=
  '(cs, eip) ← required (cut_colon marker);
  cs ← stoull 16 cs;
  eip ← stoull 16 eip;
  Go (o <| log_eip_markers := log_eip_markers o ++ [mkEipMarker (u16 cs) (u32 eip)] |>).

Definition set_rtc (s : list Z) (o : Options) : Parse Options :=
  tm ← required (parse_rtc s);
  Go (o <| rtc := Some tm |>).

(** Arguments with a value. *)
Definition valued : list (list Z * (list Z -> Options -> Parse Options)) := [
  (str "--trace-start", fun s o => c ← cycle_of s; Go (o <| trace_start_cycle := c |> <| enable_trace := true |>));
  (str "--trace-file", fun s o => Go (o <| trace_file_name := s |> <| enable_trace := true |>));
  (str "--ddr-busy", set_ddr_busy);
  (str "--ddr-busy-rand", set_ddr_busy_rand);
  (str "--end", fun s o => c ← cycle_of s; Go (o <| max_cycles := c |>));
  (str "--disk", fun s o => Go (o <| disk_path := s |>));
  (str "--cdrom", fun s o => Go (o <| cdrom_path := s |>));
  (str "--jitter", fun s o => v ← stoull 10 s; Go (o <| jitter_seed := Some (u32 v) |>));
  (str "--floppy", fun s o => Go (o <| floppy_path := s |>));
  (str "--floppy-b", fun s o => Go (o <| floppy_b_path := s |>));
  (str "--boot0", fun s o => Go (o <| boot0_path := s |>));
  (str "--boot1", fun s o => Go (o <| boot1_path := s |>));
  (str "--ram-mb", set_ram_mb);
  (str "--shared-dir", fun s o => Go (o <| shared_directory := s |>));
  (str "--cpu-speed", fun s o => v ← catch_invalid (parse_cpu_speed s); Go (o <| cpu_speed_status := v |>));
  (str "--cpu-speed-at", add_cpu_speed);
  (str "--enter-at", fun s o => c ← cycle_of s; Go (o <| enter_cycles := enter_cycles o ++ [c] |>));
  (str "--key-at", add_key);
  (str "--key-down-at", add_key_edge true);
  (str "--key-up-at", add_key_edge false);
  (str "--key-on-text", add_text_key);
  (str "--mouse-at", add_mouse);
  (str "--control-port", set_control_port);
  (str "--control-bind", fun s o => Go (o <| control_bind := s |>));
  (str "--ctrl-alt-del-at", fun s o => c ← cycle_of s; Go (o <| ctrl_alt_del_cycles := ctrl_alt_del_cycles o ++ [c] |>));
  (str "--screen-at", fun s o => c ← cycle_of s; Go (o <| screen_check_cycles := screen_check_cycles o ++ [c] |>));
  (str "--vga-plane-at", add_vga_plane);
  (str "--log-eip", add_marker);
  (str "--screenshot-dir", fun s o => Go (o <| screenshot_dir := s |>));
  (str "--screenshot-interval", fun s o => c ← cycle_of s; Go (o <| screenshot_interval_cycles := c |>));
  (str "--stop-on-text", fun s o => Go (o <| stop_on_text := s |>));
  (str "--zsst-profile", fun s o => check (profile_opens s);; Go o);
  (str "--zsst-write-trace", fun s o => Go (o <| zsst_write_trace_path := s |>));
  (str "--record-file", fun s o => Go (o <| record_audio := true |> <| record_path := s |>));
  (str "--load-ram", fun s o => Go (o <| load_ram_path := s |>));
  (str "--flatline-window", fun s o => c ← cycle_of s; Go (o <| flatline_trace_window := c |>));
  (str "--checkpoint-dir", fun s o => Go (o <| checkpoint_dir := s |>));
  (str "--checkpoint-interval-sec", fun s o => v ← stoull 10 s; Go (o <| checkpoint_interval_sec := v |>));
  (str "--checkpoint-keep", fun s o => v ← stoull 10 s; Go (o <| checkpoint_keep := v |>));
  (str "--restore", fun s o => Go (o <| restore_path := s |>));
  (str "--rtc", set_rtc);
  (str "--rtc-utc", set_rtc);
  (str "--snapshot-dir", fun s o => Go (o <| snapshot_dir := s |>));
  (str "--snapshot-interval-sec", fun s o => v ← stoull 10 s; Go (o <| snapshot_interval_sec := v |>));
  (str "--snapshot-keep", fun s o => v ← stoull 10 s; Go (o <| snapshot_keep := v |>));
  (str "--restore-snapshot", fun s o => Go (o <| snapshot_restore_path := s |>))
].

Definition table_entry {A} (table : list (list Z * A)) (arg : list Z) : option A :=
  snd ∘ snd <$> list_find (fun e => e.1 = arg) table.

(** Verilator's arguments begin with a plus; anything else is the usage. *)
Definition plus_arg (arg : list Z) : bool := match arg with c :: _ => c =? 43 | [] => false end.

(** The loop over argv: a value is only taken when there is one. *)
Fixpoint parse_args (args : list (list Z)) (o : Options) : Parse Options :=
  match args with
  | [] => Go o
  | arg :: args =>
    match table_entry flags arg with
    | Some set => parse_args args (set o)
    | None =>
      match args, table_entry valued arg with
      | value :: args', Some set => o ← set value o; parse_args args' o
      | _, _ => if plus_arg arg then parse_args args o else Fail1
      end
    end
  end.

(** [if (!dir.empty() && v == 0) v = d;] *)
Definition or_default (dir : list Z) (v d : Z) : Z := if negb (is_nil dir) && (v =? 0) then d else v.

(** The checks and defaults behind the loop. *)
Definition finish_options (o : Options) : Parse Options :=
  let o := o <| checkpoint_interval_sec := or_default (checkpoint_dir o) (checkpoint_interval_sec o) 600 |> in
  let o := o <| snapshot_interval_sec := or_default (snapshot_dir o) (snapshot_interval_sec o) 60 |> in
  check (negb ((negb (is_nil (snapshot_dir o)) || negb (is_nil (snapshot_restore_path o))) && negb (cosim_on o)));;
  check (negb (negb (is_nil (snapshot_restore_path o)) && negb (is_nil (restore_path o))));;
  let o := o <| screenshot_interval_cycles := or_default (screenshot_dir o) (screenshot_interval_cycles o) 12500000 |> in
  Go (o <| next_screenshot_cycle := if is_nil (screenshot_dir o) then next_screenshot_cycle o else screenshot_interval_cycles o |>).

Definition restoring (o : Options) : bool := negb (is_nil (restore_path o)) || negb (is_nil (snapshot_restore_path o)).

Definition main_options (args : list (list Z)) : Parse Options :=
  o ← parse_args args default_options; finish_options o.
End Args.

(** ** What is accepted *)

Definition is_cycle (c : Z) : Prop := 0 <= c < 9223372036854775808.
Definition is_int (v : Z) : Prop := INT_MIN <= v <= INT_MAX.

(** The settings in range. *)
Record options_ok (o : Options) : Prop := mkOptionsOk {
  ok_trace_start : is_u64 (trace_start_cycle o);
  ok_window : is_u64 (flatline_trace_window o);
  ok_max_cycles : is_u64 (max_cycles o);
  ok_period : 0 <= ddr_busy_period o <= INT_MAX;
  ok_len : 0 <= ddr_busy_len o <= INT_MAX;
  ok_busy : 0 < ddr_busy_period o -> ddr_busy_len o < ddr_busy_period o;
  ok_pct : 0 <= ddr_busy_rand_pct o <= 95;
  ok_rand : is_u64 (ddr_busy_rand_state o);
  ok_ram : ram_mb o = 16 \/ ram_mb o = 32 \/ ram_mb o = 64 \/ ram_mb o = 128;
  ok_speed : 0 <= cpu_speed_status o < 8;
  ok_speeds : Forall (fun e => is_cycle e.1 /\ 0 <= e.2 < 8) (cpu_speed_events o);
  ok_enter : Forall is_cycle (enter_cycles o);
  ok_keys : Forall (fun e => is_cycle e.1) (key_events o);
  ok_edges : Forall (fun e => is_cycle e.1.1) (key_edge_events o);
  ok_text : Forall (fun e => e.1 <> []) (text_key_events o);
  ok_mouse : Forall (fun e => is_cycle e.1.1.1 /\ is_int e.1.1.2 /\ is_int e.1.2 /\ 0 <= e.2 < 8) (mouse_packet_events o);
  ok_cad : Forall is_cycle (ctrl_alt_del_cycles o);
  ok_port : 0 <= control_port o < 65536;
  ok_screen : Forall is_cycle (screen_check_cycles o);
  ok_planes : Forall (fun e => is_cycle e.1 /\ e.2 <> []) (vga_plane_events o);
  ok_markers : Forall (fun m => is_u16 (em_cs m) /\ is_u32 (em_eip m)) (log_eip_markers o);
  ok_shots : is_cycle (screenshot_interval_cycles o);
  ok_interval : is_u64 (checkpoint_interval_sec o);
  ok_snap_interval : is_u64 (snapshot_interval_sec o);
}.

Lemma bind_Go {A B} (p : Parse A) (f : A -> Parse B) b : p ≫= f = Go b -> exists a, p = Go a /\ f a = Go b.
Proof. destruct p; [|done..]. by exists a. Qed.

Lemma check_Go b u : check b = Go u -> b = true.
Proof. by destruct b. Qed.

Lemma catch_Go {A} (p : Parse A) a : catch_invalid p = Go a -> p = Go a.
Proof. by destruct p as [| |[]]. Qed.

Lemma required_Go {A} (o : option A) a : required o = Go a -> o = Some a.
Proof. destruct o; [by intros [= ->]|done]. Qed.

Lemma read_digits_pos base l : forall acc v, 0 < base -> from_option (fun a => 0 <= a) True acc ->
  read_digits base acc l = Some v -> 0 <= v.
Proof.
  induction l as [|c l IH]; intros acc v Hb Ha E; cbn in E; [by subst acc|].
  destruct (digit_of c) as [d|] eqn:Ed; [|by subst acc]. destruct (d <? base); [|by subst acc].
  refine (IH _ v Hb _ E). cbn. assert (0 <= d); [|destruct acc; cbn in *; nia].
  unfold digit_of, isdigit in Ed. repeat case_bool; simplify_eq; lia.
Qed.

Lemma number_pos base s neg v : base = 0 \/ base = 8 \/ base = 10 \/ base = 16 -> number base s = Some (neg, v) -> 0 <= v.
Proof.
  intros Hb. unfold number. cbv zeta. intros (w & E & [= _ <-])%fmap_Some. refine (read_digits_pos _ _ None v _ I E).
  repeat case_bool; lia.
Qed.

Lemma stoull_Go base s v : base = 0 \/ base = 8 \/ base = 10 \/ base = 16 -> stoull base s = Go v -> is_u64 v.
Proof.
  intros Hb. unfold stoull. destruct (number base s) as [[neg w]|] eqn:E; [|done]. apply number_pos in E; [|done].
  case_bool; [done|]. intros [= <-]. destruct neg; [apply u64_range|unfold is_u64; lia].
Qed.

Lemma stoi_Go base s v : stoi base s = Go v -> is_int v.
Proof.
  unfold stoi, is_int. destruct (number base s) as [[neg w]|]; [|done]. cbv zeta. case_bool; [|done]. intros [= <-]. lia.
Qed.

Lemma cycle_Go s v : cycle_of s = Go v -> is_cycle v.
Proof.
  unfold cycle_of. intros (t & E & [= <-])%bind_Go. apply stoull_Go in E; [|lia]. unfold is_u64, is_cycle in *. divlia.
Qed.

Lemma speed_Go s v : parse_cpu_speed s = Go v -> 0 <= v < 8.
Proof.
  unfold parse_cpu_speed. destruct (list_find _ _) as [[i [n k]]|] eqn:E; [|done]. intros [= <-].
  apply list_find_Some in E as (E & _). cbn in E. assert (Forall (fun e => 0 <= e.2 < 8) speeds) as H
    by (unfold speeds; rewrite !Forall_cons, Forall_nil; split_and!; done).
  exact (Forall_lookup_1 _ _ _ _ H E).
Qed.

(** Takes a successful parse apart, with what each part guarantees. *)
Ltac parse_inv :=
  repeat match goal with
  | H : _ ≫= _ = Go _ |- _ => let a := fresh "a" in let E := fresh "E" in apply bind_Go in H as (a & E & H)
  | H : Go _ = Go _ |- _ => injection H as H
  | H : (_, _) = (_, _) |- _ => injection H as H ?
  | H : check _ = Go _ |- _ => apply check_Go in H
  | H : catch_invalid _ = Go _ |- _ => apply catch_Go in H
  | H : required _ = Go _ |- _ => apply required_Go in H
  | H : stoull _ _ = Go _ |- _ => apply stoull_Go in H; [|lia]
  | H : stoi _ _ = Go _ |- _ => apply stoi_Go in H
  | H : cycle_of _ = Go _ |- _ => apply cycle_Go in H
  | H : parse_cpu_speed _ = Go _ |- _ => apply speed_Go in H
  | H : (let '(_, _) := ?x in _) = Go _ |- _ => destruct x eqn:?
  | H : match ?x with _ => _ end = Go _ |- _ => destruct x eqn:?; try discriminate H
  | a : (_ * _)%type |- _ => destruct a
  end; subst; cbn [fst snd] in *.

Ltac keep_ok := constructor; cbn;
  first [assumption | apply Forall_app; split; [assumption|apply Forall_singleton; cbn] | idtac];
  try assumption.

Section Ok.
Context `{Sdl} (profile_opens : list Z -> bool) (parse_rtc : list Z -> option Tm).

Lemma flags_ok : Forall (fun e => forall o, options_ok o -> options_ok (e.2 o)) flags.
Proof.
  unfold flags. repeat (apply Forall_cons_2; [by intros o []; constructor|]). by apply Forall_nil_2.
Qed.

(** What every setter keeps, as far as the fields it sets are in range. *)
Ltac set_ok Ho E := parse_inv; destruct Ho; keep_ok; unfold is_int, is_u64, is_cycle, INT_MIN, INT_MAX in *.

Lemma busy_ok s o o' : options_ok o -> set_ddr_busy s o = Go o' -> options_ok o'.
Proof. intros Ho E. unfold set_ddr_busy in E. set_ok Ho E; repeat case_bool; lia. Qed.

Lemma busy_rand_ok s o o' : options_ok o -> set_ddr_busy_rand s o = Go o' -> options_ok o'.
Proof. intros Ho E. unfold set_ddr_busy_rand in E. set_ok Ho E; try apply u64_range; repeat case_bool; lia. Qed.

Lemma ram_mb_ok s o o' : options_ok o -> set_ram_mb s o = Go o' -> options_ok o'.
Proof. intros Ho E. unfold set_ram_mb in E. set_ok Ho E. lia. Qed.

Lemma cpu_speed_ok s o o' : options_ok o -> add_cpu_speed s o = Go o' -> options_ok o'.
Proof. intros Ho E. unfold add_cpu_speed in E. set_ok Ho E; by split. Qed.

Lemma key_ok s o o' : options_ok o -> add_key s o = Go o' -> options_ok o'.
Proof. intros Ho E. unfold add_key in E. set_ok Ho E. Qed.

Lemma key_edge_ok pressed s o o' : options_ok o -> add_key_edge pressed s o = Go o' -> options_ok o'.
Proof. intros Ho E. unfold add_key_edge in E. set_ok Ho E. Qed.

Lemma text_key_ok s o o' : options_ok o -> add_text_key s o = Go o' -> options_ok o'.
Proof.
  intros Ho E. unfold add_text_key in E. destruct (last_index 58 s) as [[|i]|] eqn:El; [done| |done].
  set_ok Ho E. by destruct s.
Qed.

Lemma mouse_ok s o o' : options_ok o -> add_mouse s o = Go o' -> options_ok o'.
Proof.
  intros Ho E. unfold add_mouse in E. set_ok Ho E; split_and!; try lia; try done.
  all: pose proof (u32_range a5); unfold is_u32 in *; rewrite u8_id by (unfold is_u8; lia); lia.
Qed.

Lemma control_port_ok s o o' : options_ok o -> set_control_port s o = Go o' -> options_ok o'.
Proof. intros Ho E. unfold set_control_port in E. set_ok Ho E. pose proof (u32_range a). unfold is_u32 in *. lia. Qed.

Lemma vga_plane_ok s o o' : options_ok o -> add_vga_plane s o = Go o' -> options_ok o'.
Proof. intros Ho E. unfold add_vga_plane in E. set_ok Ho E. split; [done|]. by intros ->. Qed.

Lemma marker_ok s o o' : options_ok o -> add_marker s o = Go o' -> options_ok o'.
Proof. intros Ho E. unfold add_marker in E. set_ok Ho E. split; [apply u16_range|apply u32_range]. Qed.

Lemma valued_ok : Forall (fun e => forall s o o', options_ok o -> e.2 s o = Go o' -> options_ok o') (valued profile_opens parse_rtc).
Proof.
  unfold valued.
  repeat (apply Forall_cons_2; [cbn [snd]; first
    [exact busy_ok | exact busy_rand_ok | exact ram_mb_ok | exact cpu_speed_ok | exact key_ok | exact (key_edge_ok true)
    | exact (key_edge_ok false) | exact text_key_ok | exact mouse_ok | exact control_port_ok | exact vga_plane_ok
    | exact marker_ok | intros s o o' Ho E; try unfold set_rtc in E; set_ok Ho E; lia]|]).
  by apply Forall_nil_2.
Qed.

Lemma table_entry_Forall {A} (P : list Z * A -> Prop) table arg a :
  Forall P table -> table_entry table arg = Some a -> exists n, P (n, a).
Proof.
  unfold table_entry. intros Hp. destruct (list_find _ table) as [[i [n b]]|] eqn:E; [|done]. intros [= <-].
  apply list_find_Some in E as (E & _). exists n. exact (Forall_lookup_1 _ _ _ _ Hp E).
Qed.

Lemma parse_ok args : forall o o', options_ok o -> parse_args profile_opens parse_rtc args o = Go o' -> options_ok o'.
Proof.
  induction args as [args IH] using (induction_ltof1 _ length); unfold ltof in IH. intros o o' Ho E.
  destruct args as [|arg args]; cbn [parse_args] in E; [by injection E as <-|].
  destruct (table_entry flags arg) as [set|] eqn:Ef.
  - destruct (table_entry_Forall _ _ _ _ flags_ok Ef) as [n Hset]. refine (IH args _ _ _ (Hset o Ho) E). cbn. lia.
  - assert ((if plus_arg arg then parse_args profile_opens parse_rtc args o else Fail1) = Go o' -> options_ok o') as Hplus.
    { case_bool; [|done]. apply IH; [cbn; lia|done]. }
    destruct args as [|value args']; [by apply Hplus|].
    destruct (table_entry (valued profile_opens parse_rtc) arg) as [set|] eqn:Ev; [|by apply Hplus].
    destruct (table_entry_Forall _ _ _ _ valued_ok Ev) as [n Hset]. apply bind_Go in E as (o1 & E1 & E).
    refine (IH args' _ o1 _ (Hset value o o1 Ho E1) E). cbn. lia.
Qed.

Lemma default_ok : options_ok default_options.
Proof. constructor; cbn; try done; try apply Forall_nil_2; try (right; right; left; done). Qed.

Lemma or_default_ok (P : Z -> Prop) dir v d : P v -> P d -> d <> 0 -> P (or_default dir v d) /\ (dir <> [] -> or_default dir v d <> 0).
Proof. intros. unfold or_default. destruct dir, (Z.eqb_spec v 0); done. Qed.

Lemma is_nil_false {A} (l : list A) : l <> [] -> is_nil l = false.
Proof. by destruct l. Qed.

(** C17: whatever the arguments, the settings [main] goes on with are in range:
    a RAM size and CPU speeds the hardware has, wait requests that leave a free
    cycle in every period, at most 95 % of random ones, three mouse buttons, a
    port number, times whose cycles fit, an interval for every kind of file
    that is written on a schedule; portable snapshots only with the
    co-simulation, and one kind of restore at most. *)
Theorem options_valid args o :
  main_options profile_opens parse_rtc args = Go o ->
  options_ok o /\
  (checkpoint_dir o <> [] -> 0 < checkpoint_interval_sec o) /\ (snapshot_dir o <> [] -> 0 < snapshot_interval_sec o) /\
  (screenshot_dir o <> [] -> 0 < screenshot_interval_cycles o /\ next_screenshot_cycle o = screenshot_interval_cycles o) /\
  (snapshot_dir o <> [] \/ snapshot_restore_path o <> [] -> cosim_on o = true) /\
  (snapshot_restore_path o = [] \/ restore_path o = []).
Proof.
  unfold main_options. intros (o1 & E1 & E)%bind_Go. apply parse_ok in E1; [|apply default_ok].
  unfold finish_options in E. cbv zeta in E. parse_inv.
  destruct (or_default_ok is_u64 (checkpoint_dir o1) (checkpoint_interval_sec o1) 600) as [H1 H1']; [apply E1|done..|].
  destruct (or_default_ok is_u64 (snapshot_dir o1) (snapshot_interval_sec o1) 60) as [H2 H2']; [apply E1|done..|].
  destruct (or_default_ok is_cycle (screenshot_dir o1) (screenshot_interval_cycles o1) 12500000) as [H3 H3']; [apply E1|done..|].
  split.
  - destruct E1. constructor; assumption.
  - unfold is_u64, is_cycle in H1, H2, H3. cbn in *. split_and!.
    + intros Hd. specialize (H1' Hd). lia.
    + intros Hd. specialize (H2' Hd). lia.
    + intros Hd. specialize (H3' Hd). rewrite is_nil_false by done. lia.
    + intros [Hd|Hd]; rewrite (is_nil_false _ Hd), ?orb_true_r in E0; by destruct (cosim_on o1).
    + destruct (snapshot_restore_path o1), (restore_path o1); auto; done.
Qed.
End Ok.

(** ** Reading back what was printed *)

Lemma digit_of_digit c : isdigit c = true -> digit_of c = Some (c - 48).
Proof. intros E. unfold digit_of. by rewrite E. Qed.

Lemma read_digits_acc ds : forall acc,
  Forall (fun c => isdigit c = true) ds -> read_digits 10 (Some acc) ds = Some (digit_val acc ds).
Proof.
  induction ds as [|c ds IH]; intros acc Hd; [done|]. inversion Hd as [|? ? Hc Hd']; subst. cbn [read_digits].
  rewrite digit_of_digit by done. unfold isdigit in Hc. rewrite (proj2 (Z.ltb_lt (c - 48) 10)) by lia. cbn [default from_option].
  rewrite IH by done. unfold digit_val. done.
Qed.

Lemma read_digits_dec n : 0 <= n < 10 ^ 20 -> read_digits 10 None (dec n) = Some n.
Proof.
  intros Hn. pose proof (dec_digits n) as Hd. pose proof (digit_val_dec n Hn) as Hv. destruct (dec_word n) as [Hw _].
  destruct (dec n) as [|c ds]; [done|]. inversion Hd as [|? ? Hc Hd']; subst. cbn [read_digits].
  rewrite digit_of_digit by done. unfold isdigit in Hc. rewrite (proj2 (Z.ltb_lt (c - 48) 10)) by lia. cbn [default from_option].
  rewrite read_digits_acc by done. done.
Qed.

Lemma dec_sign n : exists c l, dec n = c :: l /\ isdigit c = true.
Proof.
  pose proof (dec_digits n) as Hd. destruct (dec_word n) as [Hw _]. destruct (dec n) as [|c l]; [done|].
  exists c, l. split; [done|]. by inversion Hd.
Qed.

Lemma hex_prefix_dec n : hex_prefix (dec n) = false.
Proof.
  pose proof (dec_digits n) as Hd. unfold hex_prefix. destruct (dec n) as [|c [|x [|d l]]]; try (by repeat case_match).
  inversion Hd as [|? ? _ Hd']; subst. inversion Hd' as [|? ? Hx _]; subst. unfold isdigit in Hx.
  rewrite (proj2 (Z.eqb_neq x 120)), (proj2 (Z.eqb_neq x 88)) by lia. by repeat case_match.
Qed.

(** Base 0 reads a printed number in base 10, and 0 in base 8. *)
Definition octal (l : list Z) : bool := match l with 48 :: _ => true | _ => false end.

Lemma auto_dec n : 0 <= n < 10 ^ 20 -> read_digits (if octal (dec n) then 8 else 10) None (dec n) = Some n.
Proof.
  intros Hn. pose proof (read_digits_dec n Hn) as E. destruct (dec_head n) as [E0|E0].
  - rewrite E0 in *. exact E.
  - assert (octal (dec n) = false) as ->; [|done]. destruct (dec n) as [|c l]; [done|]. cbn in *. by repeat case_match.
Qed.

(** A printed number is read with its sign. *)
Lemma number_dec (neg : bool) base n : base = 0 \/ base = 10 -> 0 <= n < 10 ^ 20 ->
  number base ((if neg then [45] else []) ++ dec n) = Some (neg, n).
Proof.
  intros Hb Hn. destruct (dec_sign n) as (c & l & El & Hc). pose proof (hex_prefix_dec n) as Hh.
  pose proof (auto_dec n Hn) as Ha. pose proof (read_digits_dec n Hn) as Hd. rewrite El in *. unfold isdigit in Hc.
  assert (read_digits (if negb (base =? 0) then base else if octal (c :: l) then 8 else 10) None (c :: l) = Some n) as Hr.
  { by destruct Hb as [-> | ->]. }
  unfold number. destruct neg; cbn [app].
  - change (skip_space (45 :: c :: l)) with (45 :: c :: l). cbv zeta. cbn [Z.eqb Pos.eqb orb].
    rewrite Hh, andb_false_r. fold (octal (c :: l)). by rewrite Hr.
  - pose proof (skip_word (dec n) []) as Hs. rewrite app_nil_r, El in Hs. specialize (Hs ltac:(rewrite <- El; apply dec_word)).
    rewrite Hs. cbv zeta. rewrite (proj2 (Z.eqb_neq c 45)), (proj2 (Z.eqb_neq c 43)) by lia. cbn [orb].
    rewrite Hh, andb_false_r. fold (octal (c :: l)). by rewrite Hr.
Qed.

Lemma stoull_dec base n : base = 0 \/ base = 10 -> is_u64 n -> stoull base (dec n) = Go n.
Proof.
  intros Hb Hn. unfold is_u64 in Hn. unfold stoull. pose proof (number_dec false base n Hb ltac:(lia)) as E. cbn [app] in E. rewrite E. clear E.
  by rewrite (proj2 (Z.ltb_ge _ _)) by lia.
Qed.

Lemma stoi_print base n : base = 0 \/ base = 10 -> is_int n -> stoi base (print_int n) = Go n.
Proof.
  intros Hb Hn. unfold is_int, INT_MIN, INT_MAX in Hn. unfold stoi, print_int. destruct (Z.ltb_spec n 0) as [Hneg|Hpos].
  - pose proof (number_dec true base (- n) Hb ltac:(lia)) as E. cbn [app] in E. rewrite E. clear E. cbv zeta. rewrite Z.opp_involutive.
    unfold INT_MIN, INT_MAX. by rewrite !(proj2 (Z.leb_le _ _)) by lia.
  - pose proof (number_dec false base n Hb ltac:(lia)) as E. cbn [app] in E. rewrite E. clear E. cbv zeta. unfold INT_MIN, INT_MAX. by rewrite !(proj2 (Z.leb_le _ _)) by lia.
Qed.

Lemma cycle_of_dec t : is_u64 t -> cycle_of (dec t) = Go (t / 2).
Proof. intros Ht. unfold cycle_of. by rewrite stoull_dec by (try done; by right). Qed.

(** No sign, letter or colon in what is printed. *)
Lemma dec_plain c n : isdigit c = false -> c ∉ dec n.
Proof. intros Hc Hin. by rewrite (proj1 (Forall_forall _ _) (dec_digits n) c Hin) in Hc. Qed.

Lemma print_plain c n : isdigit c = false -> c <> 45 -> c ∉ print_int n.
Proof. intros Hc Hs. unfold print_int. case_bool; [rewrite not_elem_of_cons; split; [done|]|]; by apply dec_plain. Qed.

Lemma drop_behind (w : list Z) c r : drop (S (length w)) (w ++ c :: r) = r.
Proof. rewrite drop_app_ge by lia. by replace (S _ - _)%nat with 1%nat by lia. Qed.

Lemma cut_colon_app w r : 58 ∉ w -> cut_colon (w ++ 58 :: r) = Some (w, r).
Proof.
  intros Hw. unfold cut_colon, colon. rewrite find_char by done. cbn [fmap option_fmap option_map].
  by rewrite take_app_length, drop_behind.
Qed.

Lemma split_colons_app l : forall w r, 58 ∉ l -> split_colons w (l ++ 58 :: r) = (w ++ l) :: split_colons [] r.
Proof.
  induction l as [|c l IH]; intros w r Hl; cbn [app split_colons].
  - by rewrite Z.eqb_refl, app_nil_r.
  - apply not_elem_of_cons in Hl as [Hc Hl]. rewrite (proj2 (Z.eqb_neq c 58)) by done. rewrite IH by done. by rewrite <- app_assoc.
Qed.

Lemma split_colons_last l : forall w, 58 ∉ l -> split_colons w l = [w ++ l].
Proof.
  induction l as [|c l IH]; intros w Hl; cbn [split_colons]; [by rewrite app_nil_r|].
  apply not_elem_of_cons in Hl as [Hc Hl]. rewrite (proj2 (Z.eqb_neq c 58)) by done. rewrite IH by done. by rewrite <- app_assoc.
Qed.

(** ** Events on the command line *)

(** What can be scheduled, at a time in half cycles. *)
Inductive Timed :=
| EnterAt (t : Z)
| KeyAt (t : Z) (name : list Z) (code : Z)
| KeyEdgeAt (t : Z) (name : list Z) (code : Z) (pressed : bool)
| KeyOnText (text name : list Z) (code : Z)
| MouseAt (t dx dy : Z) (buttons : option Z)
| CtrlAltDelAt (t : Z)
| ScreenAt (t : Z)
| VgaPlaneAt (t : Z) (path : list Z)
| CpuSpeedAt (t : Z) (name : list Z) (status : Z).

Definition at_time (t : Z) (r : list Z) : list Z := dec t ++ 58 :: r.

(** An event as it is written. *)
Definition render (e : Timed) : list (list Z) :=
  match e with
  | EnterAt t => [str "--enter-at"; dec t]
  | KeyAt t name _ => [str "--key-at"; at_time t name]
  | KeyEdgeAt t name _ pressed => [if pressed then str "--key-down-at" else str "--key-up-at"; at_time t name]
  | KeyOnText text name _ => [str "--key-on-text"; text ++ 58 :: name]
  | MouseAt t dx dy b =>
    [str "--mouse-at"; at_time t (print_int dx ++ 58 :: match b with Some b => print_int dy ++ 58 :: dec b | None => print_int dy end)]
  | CtrlAltDelAt t => [str "--ctrl-alt-del-at"; dec t]
  | ScreenAt t => [str "--screen-at"; dec t]
  | VgaPlaneAt t path => [str "--vga-plane-at"; at_time t path]
  | CpuSpeedAt t name _ => [str "--cpu-speed-at"; at_time t name]
  end.

(** The event scheduled for the cycle of its time, behind those before it. *)
Definition schedule (o : Options) (e : Timed) : Options :=
  match e with
  | EnterAt t => o <| enter_cycles := enter_cycles o ++ [t / 2] |>
  | KeyAt t _ code => o <| key_events := key_events o ++ [(t / 2, code)] |>
  | KeyEdgeAt t _ code pressed => o <| key_edge_events := key_edge_events o ++ [(t / 2, code, pressed)] |>
  | KeyOnText text _ code => o <| text_key_events := text_key_events o ++ [(text, code)] |>
  | MouseAt t dx dy b => o <| mouse_packet_events := mouse_packet_events o ++ [(t / 2, dx, dy, default 0 b)] |>
  | CtrlAltDelAt t => o <| ctrl_alt_del_cycles := ctrl_alt_del_cycles o ++ [t / 2] |>
  | ScreenAt t => o <| screen_check_cycles := screen_check_cycles o ++ [t / 2] |>
  | VgaPlaneAt t path => o <| vga_plane_events := vga_plane_events o ++ [(t / 2, path)] |>
  | CpuSpeedAt t _ status => o <| cpu_speed_events := cpu_speed_events o ++ [(t / 2, status)] |>
  end.

Section Events.
Context `{Sdl} (profile_opens : list Z -> bool) (parse_rtc : list Z -> option Tm).

#[local] Arguments cycle_of : simpl never.
#[local] Arguments stoull : simpl never.
#[local] Arguments stoi : simpl never.
#[local] Arguments dec : simpl never.
#[local] Arguments print_int : simpl never.

(** Times of 64 bits; keys, speeds and texts that can be named. *)
Definition fits (e : Timed) : Prop :=
  match e with
  | EnterAt t | CtrlAltDelAt t | ScreenAt t => is_u64 t
  | KeyAt t name code | KeyEdgeAt t name code _ => is_u64 t /\ parse_named_key name = Some code
  | KeyOnText text name code => text <> [] /\ parse_named_key name = Some code
  | MouseAt t dx dy b => is_u64 t /\ is_int dx /\ is_int dy /\ from_option (fun b => 0 <= b < 8) True b
  | VgaPlaneAt t path => is_u64 t /\ path <> []
  | CpuSpeedAt t name status => is_u64 t /\ parse_cpu_speed name = Go status
  end.

Lemma tolower_colon name : 58 ∈ name -> 58 ∈ map tolower name.
Proof. intros Hin. change 58 with (tolower 58). by apply list_elem_of_fmap_2. Qed.

(** No key's name has a colon. *)
Lemma name_plain name code : parse_named_key name = Some code -> 58 ∉ name.
Proof.
  unfold parse_named_key. intros E Hin%tolower_colon. destruct (list_find _ named_keys) as [[i [n k]]|] eqn:El.
  - apply list_find_Some in El as (Hi & Hn & _). cbn in Hn. subst n.
    assert (Forall (fun e => bool_decide (58 ∈ e.1) = false) named_keys) as Hp by (apply (bool_decide_unpack _); by vm_compute).
    pose proof (Forall_lookup_1 _ _ _ _ Hp Hi) as Hb. by apply bool_decide_eq_false in Hb.
  - destruct (map tolower name) as [|c [|]]; [done| |done]. apply list_elem_of_singleton in Hin as <-. done.
Qed.

Lemma cut_time t r : cut_colon (at_time t r) = Some (dec t, r).
Proof. apply cut_colon_app. by apply dec_plain. Qed.

Lemma add_key_at t name code o : is_u64 t -> parse_named_key name = Some code ->
  add_key (at_time t name) o = Go (schedule o (KeyAt t name code)).
Proof. intros Ht Hn. unfold add_key. rewrite cut_time. cbn. rewrite Hn. cbn. by rewrite cycle_of_dec. Qed.

Lemma add_key_edge_at t name code pressed o : is_u64 t -> parse_named_key name = Some code ->
  add_key_edge pressed (at_time t name) o = Go (schedule o (KeyEdgeAt t name code pressed)).
Proof. intros Ht Hn. unfold add_key_edge. rewrite cut_time. cbn. rewrite Hn. cbn. by rewrite cycle_of_dec. Qed.

Lemma add_text_key_on text name code o : text <> [] -> parse_named_key name = Some code ->
  add_text_key (text ++ 58 :: name) o = Go (schedule o (KeyOnText text name code)).
Proof.
  intros Ht Hn. unfold add_text_key. rewrite last_index_app by (by eapply name_plain). destruct text as [|c text]; [done|].
  cbn [length]. cbv zeta. change (S (length text)) with (length (c :: text)). rewrite drop_behind, take_app_length, Hn.
  done.
Qed.

Lemma add_mouse_at t dx dy b o : fits (MouseAt t dx dy b) ->
  add_mouse (at_time t (print_int dx ++ 58 :: match b with Some b => print_int dy ++ 58 :: dec b | None => print_int dy end)) o =
  Go (schedule o (MouseAt t dx dy b)).
Proof.
  intros (Ht & Hx & Hy & Hb). unfold add_mouse, at_time. rewrite !split_colons_app by (by (apply dec_plain || apply print_plain)).
  destruct b as [b|]; cbn in Hb.
  - rewrite split_colons_app, split_colons_last by (by (apply dec_plain || apply print_plain)). cbn [app mbind Parse_bind].
    rewrite !stoi_print by (by try left). cbn. rewrite stoull_dec by (try (by left); unfold is_u64; lia). cbn.
    rewrite !u32_id by (unfold is_u32; lia). rewrite (proj2 (Z.ltb_ge 7 b)) by lia. cbn. rewrite cycle_of_dec by done. cbn.
    by rewrite u8_id by (unfold is_u8; lia).
  - rewrite split_colons_last by (by apply print_plain). cbn [app mbind Parse_bind].
    rewrite !stoi_print by (by try left). cbn. by rewrite cycle_of_dec.
Qed.

Lemma add_plane_at t path o : is_u64 t -> path <> [] ->
  add_vga_plane (at_time t path) o = Go (schedule o (VgaPlaneAt t path)).
Proof. intros Ht Hp. unfold add_vga_plane. rewrite cut_time. cbn. rewrite is_nil_false by done. cbn. by rewrite cycle_of_dec. Qed.

Lemma add_speed_at t name status o : is_u64 t -> parse_cpu_speed name = Go status ->
  add_cpu_speed (at_time t name) o = Go (schedule o (CpuSpeedAt t name status)).
Proof. intros Ht Hn. unfold add_cpu_speed. rewrite cut_time. cbn. rewrite cycle_of_dec by done. cbn. by rewrite Hn. Qed.

(** An argument of the second table takes the next one. *)
Lemma parse_valued arg set value args o :
  table_entry flags arg = None -> table_entry (valued profile_opens parse_rtc) arg = Some set ->
  parse_args profile_opens parse_rtc (arg :: value :: args) o =
  (o' ← set value o; parse_args profile_opens parse_rtc args o').
Proof. intros Ef Ev. cbn [parse_args]. by rewrite Ef, Ev. Qed.

Lemma parse_render e args o : fits e ->
  parse_args profile_opens parse_rtc (render e ++ args) o = parse_args profile_opens parse_rtc args (schedule o e).
Proof.
  intros Hf. destruct e as [t|t name code|t name code [] |text name code|t dx dy b|t|t|t path|t name status]; cbn [render app];
    (erewrite parse_valued; [|reflexivity|reflexivity]); cbn [compose prod_map id fst snd].
  1,7,8: by rewrite (cycle_of_dec t Hf).
  - rewrite (add_key_at t name code) by apply Hf. done.
  - rewrite (add_key_edge_at t name code) by apply Hf. done.
  - rewrite (add_key_edge_at t name code) by apply Hf. done.
  - rewrite (add_text_key_on text name code) by apply Hf. done.
  - rewrite add_mouse_at by apply Hf. done.
  - rewrite add_plane_at by apply Hf. done.
  - rewrite (add_speed_at t name status) by apply Hf. done.
Qed.

(** C18: events written on the command line with their times in half cycles -
    keys by name, presses and releases, keys that wait for a text, mouse
    packets of any movement, CPU speeds, dumps - are each scheduled once, for
    the cycle of the time, with the values written and in the order given;
    nothing else changes. *)
Theorem events_read es o : Forall fits es ->
  parse_args profile_opens parse_rtc (concat (map render es)) o = Go (fold_left schedule es o).
Proof.
  intros Hf. revert o. induction Hf as [|e es He Hes IH]; intros o; [done|]. cbn [map concat fold_left].
  by rewrite parse_render by done.
Qed.
End Events.

(** ** What is refused, and how *)

(** std::stoul is of 64 bits and the settings are of 32: a number that is
    truncated to an accepted one is accepted. *)
Lemma truncated_accepted `{Sdl} o :
  set_ram_mb (dec 4294967360) o = Go (o <| ram_mb := 64 |> <| ram_mb_explicit := true |>) /\
  set_control_port (dec 4294967376) o = Go (o <| control_port := 80 |>) /\
  add_mouse (at_time 0 (str "1:1:4294967297")) o =
    Go (o <| mouse_packet_events := mouse_packet_events o ++ [(0, 1, 1, 1)] |>).
Proof. by split_and!. Qed.

(** The time of --cpu-speed-at is read under a handler for text that is no
    number; the time of --key-at is not, and no handler is for numbers of more
    than 64 bits. *)
Lemma time_uncaught `{Sdl} o :
  add_cpu_speed (str "soon:full") o = Fail1 /\
  add_key (str "soon:enter") o = Uncaught invalid_argument /\
  add_cpu_speed (str "18446744073709551616:full") o = Uncaught out_of_range.
Proof. by split_and!. Qed.

(** ** Examples *)

Definition demo_args : list (list Z) :=
  [str "--cosim"; str "--ram-mb"; str "32"; str "--ddr-busy"; str "16,4"; str "--snapshot-dir"; str "s"; str "+x";
   str "--end"; str "1001"; str "--mouse-at"; str "20:-5:0x1f:1"; str "--log-eip"; str "f000:FFF0"; str "--cpu-speed-at"; str "8:15"].

Lemma options_valid_witness :
  exists o, @main_options demo_sdl (fun _ => false) (fun _ => None) demo_args = Go o /\
  max_cycles o = 500 /\ mouse_packet_events o = [(10, -5, 31, 1)] /\ cpu_speed_events o = [(4, 3)] /\
  log_eip_markers o = [mkEipMarker 61440 65520] /\ snapshot_interval_sec o = 60 /\
  options_ok o /\ (snapshot_dir o <> [] \/ snapshot_restore_path o <> [] -> cosim_on o = true).
Proof.
  eexists. split; [by vm_compute|]. do 5 (split; [done|]).
  destruct (@options_valid demo_sdl (fun _ => false) (fun _ => None) demo_args _ ltac:(by vm_compute)) as (Hok & _ & _ & _ & Hc & _).
  by split.
Defined.

Definition demo_events : list Timed :=
  [EnterAt 7; MouseAt 20 (-5) 31 (Some 1); VgaPlaneAt 40 (str "plane"); CpuSpeedAt 8 (str "15") 3; KeyOnText (str "A:") (str "a") 97].

Lemma events_read_witness :
  @parse_args demo_sdl (fun _ => false) (fun _ => None) (concat (map render demo_events)) default_options =
  Go (fold_left schedule demo_events default_options).
Proof.
  apply events_read. repeat (apply Forall_cons_2; [cbn; unfold is_u64, is_int, INT_MIN, INT_MAX; split_and?; (lia || done)|]).
  by apply Forall_nil_2.
Defined.
