(* ===== verification/Monitor.v ===== *)
(** * What the run has shown

    The checks at the end of every iteration of the main loop of
    verilator/main.cpp: the CS:EIP markers of --log-eip, the boot sector's
    execution and what follows it, the pages executed, the POST codes, the first
    instruction; and the exit status [main] makes of them.

    The reports of a run are those of its history ([milestones]): each page once,
    the first thirty-two of them, each POST code when it changes. *)
From S2P Require Import Prelude IdeTypes Text Keyboard Config Options.

(** The debug ports of the wrapper. *)
Record Debug := mkDebug {
  dbg_cs : Z;          (* uint16_t *)
  dbg_eip : Z;         (* uint32_t *)
  dbg_cs_base : Z;     (* uint32_t *)
  dbg_post_code : Z;   (* uint8_t *)
  active : bool
}.

(** What is printed. *)
Inductive Report :=
| EIP_MARKER (cs eip : Z)
| boot_sector_execution
| post_boot_execution
| exec_page (page : Z)
| POST (code : Z)
| core_active.

Record Monitor := mkMonitor {
  log_eip : list (EipMarker * bool);   (* a marker and its [prev] *)
  saw_boot_sector : bool;
  saw_post_boot_exec : bool;
  boot_pages_seen : list bool;
  boot_page_logs : Z;                  (* unsigned *)
  last_post : Z;                       (* uint8_t *)
  have_post : bool;
  saw_post : bool;
  saw_first_instruction : bool;
  reports : list Report
}.

#[export] Instance eta_Monitor : Eta Monitor := fun r =>
  mkMonitor (log_eip r) (saw_boot_sector r) (saw_post_boot_exec r) (boot_pages_seen r) (boot_page_logs r) (last_post r)
    (have_post r) (saw_post r) (saw_first_instruction r) (reports r).

(** The start of a run: the markers of the command line. *)
Definition monitor_init (l : list EipMarker) : Monitor :=
  mkMonitor (map (fun k => (k, false)) l) false false (replicate 256 false) 0 0 false false false [].

Definition report (r : Report) (m : Monitor) : Monitor := m <| reports := reports m ++ [r] |>.

Definition linear_ip (d : Debug) : Z := u32 (dbg_cs_base d + dbg_eip d).
Definition in_boot_sector (ip : Z) : bool := (0x7C00 <=? ip) && (ip <? 0x7E00).

Definition at_marker (d : Debug) (k : EipMarker) : bool := (dbg_cs d =? em_cs k) && (dbg_eip d =? em_eip k).

(** The loop over the markers. *)
Definition check_marker (d : Debug) (m : Monitor) (k : EipMarker * bool) : Monitor :=
  let now := at_marker d k.1 in
  let m := if now && negb k.2 then report (EIP_MARKER (dbg_cs d) (dbg_eip d)) m else m in
  m <| log_eip := log_eip m ++ [(k.1, now)] |>.

Definition check_markers (d : Debug) (m : Monitor) : Monitor :=
  fold_left (check_marker d) (log_eip m) (m <| log_eip := [] |>).

Definition check_boot_sector (d : Debug) (m : Monitor) : Monitor :=
  if negb (saw_boot_sector m) && in_boot_sector (linear_ip d) then
    report boot_sector_execution (m <| saw_boot_sector := true |>)
  else m.

Definition check_post_boot (d : Debug) (m : Monitor) : Monitor :=
  if saw_boot_sector m && negb (saw_post_boot_exec m) && (linear_ip d <? 0xA0000) && negb (in_boot_sector (linear_ip d)) then
    report post_boot_execution (m <| saw_post_boot_exec := true |>)
  else m.

Definition check_page (d : Debug) (m : Monitor) : Monitor :=
  if saw_boot_sector m && (linear_ip d <? 0x100000) then
    let page := Z.shiftr (linear_ip d) 12 in
    if (page <? Z.of_nat (length (boot_pages_seen m))) && negb (nth (Z.to_nat page) (boot_pages_seen m) false) then
      let m := m <| boot_pages_seen := <[Z.to_nat page := true]> (boot_pages_seen m) |> in
      if boot_page_logs m <? 32 then report (exec_page page) (m <| boot_page_logs := boot_page_logs m + 1 |>) else m
    else m
  else m.

Definition check_post (d : Debug) (m : Monitor) : Monitor :=
  if negb (have_post m) || negb (dbg_post_code d =? last_post m) then
    if negb (dbg_post_code d =? 0) then
      report (POST (dbg_post_code d)) (m <| last_post := dbg_post_code d |> <| have_post := true |> <| saw_post := true |>)
    else m
  else m.

Definition check_active (d : Debug) (m : Monitor) : Monitor :=
  if active d && negb (saw_first_instruction m) then report core_active (m <| saw_first_instruction := true |>) else m.

(** The end of an iteration. *)
Definition observe (m : Monitor) (d : Debug) : Monitor :=
  check_active d (check_post d (check_page d (check_post_boot d (check_boot_sector d (check_markers d m))))).

(** What [main] returns when the loop is over. *)
Definition exit_status (load_ram_path : list Z) (saw_video_sync : bool) (m : Monitor) : Z :=
  if negb (is_nil load_ram_path) then if saw_first_instruction m then 0 else 2
  else if negb (saw_first_instruction m) || negb (saw_post m) || negb saw_video_sync then 2
  else 0.

(** ** The history *)

Definition pages_of (l : list Report) : list Z := omap (fun r => match r with exec_page p => Some p | _ => None end) l.
Definition posts_of (l : list Report) : list Z := omap (fun r => match r with POST c => Some c | _ => None end) l.
Definition markers_of (l : list Report) : list (Z * Z) :=
  omap (fun r => match r with EIP_MARKER cs eip => Some (cs, eip) | _ => None end) l.

(** The samples from the first in the boot sector on. *)
Fixpoint from_boot (ds : list Debug) : list Debug :=
  match ds with
  | [] => []
  | d :: ds' => if in_boot_sector (linear_ip d) then ds else from_boot ds'
  end.

Definition left_sector (d : Debug) : bool := (linear_ip d <? 0xA0000) && negb (in_boot_sector (linear_ip d)).

Definition low_pages (ds : list Debug) : list Z :=
  omap (fun d => if linear_ip d <? 0x100000 then Some (linear_ip d / 4096) else None) ds.

(** The first occurrences. *)
Definition distinct (l : list Z) : list Z := fold_left (fun acc x => if bool_decide (x ∈ acc) then acc else acc ++ [x]) l [].

(** Equal neighbours counted once. *)
Fixpoint changes (prev : option Z) (l : list Z) : list Z :=
  match l with
  | [] => []
  | x :: l => if bool_decide (prev = Some x) then changes prev l else x :: changes (Some x) l
  end.

Definition codes (ds : list Debug) : list Z := filter (fun c => c <> 0) (map dbg_post_code ds).

(** The number of times a condition begins to hold. *)
Fixpoint begins (prev : bool) (l : list bool) : nat :=
  match l with
  | [] => O
  | b :: l => ((if b && negb prev then 1 else 0) + begins b l)%nat
  end.

Definition reached (k : EipMarker) (ds : list Debug) : nat := begins false (map (fun d => at_marker d k) ds).

(** ** One sample *)

(** The markers' reports of a sample. *)
Definition hits (d : Debug) (l : list (EipMarker * bool)) : list Report :=
  omap (fun k => if at_marker d k.1 && negb k.2 then Some (EIP_MARKER (dbg_cs d) (dbg_eip d)) else None) l.

Lemma check_marker_fold d l : forall m,
  fold_left (check_marker d) l m =
  m <| log_eip := log_eip m ++ map (fun k => (k.1, at_marker d k.1)) l |> <| reports := reports m ++ hits d l |>.
Proof.
  induction l as [|k l IH]; intros m; cbn [fold_left map omap list_omap].
  - destruct m. cbn. by rewrite !app_nil_r.
  - rewrite IH. unfold check_marker, hits. destruct m. cbn. destruct (at_marker d k.1 && negb k.2); cbn; by rewrite <- !app_assoc.
Qed.

(** What a check of a run looks at, in independent parts. *)
Record View := mkView {
  v_markers : list (EipMarker * bool) * nat;     (* with the number of reports *)
  v_boot : bool;
  v_after : bool;
  v_pages : list bool * Z * list Z;              (* with the pages reported *)
  v_post : bool * Z * bool * list Z;             (* with the codes reported *)
  v_first : bool
}.
#[export] Instance eta_View : Eta View := fun r => mkView (v_markers r) (v_boot r) (v_after r) (v_pages r) (v_post r) (v_first r).

Definition view (m : Monitor) : View := {|
  v_markers := (log_eip m, length (markers_of (reports m)));
  v_boot := saw_boot_sector m;
  v_after := saw_post_boot_exec m;
  v_pages := (boot_pages_seen m, boot_page_logs m, pages_of (reports m));
  v_post := (have_post m, last_post m, saw_post m, posts_of (reports m));
  v_first := saw_first_instruction m
|}.

Lemma pages_of_app l l' : pages_of (l ++ l') = pages_of l ++ pages_of l'.
Proof. apply omap_app. Qed.
Lemma posts_of_app l l' : posts_of (l ++ l') = posts_of l ++ posts_of l'.
Proof. apply omap_app. Qed.
Lemma markers_of_app l l' : markers_of (l ++ l') = markers_of l ++ markers_of l'.
Proof. apply omap_app. Qed.

Lemma hits_only d l : pages_of (hits d l) = [] /\ posts_of (hits d l) = [] /\ length (markers_of (hits d l)) = length (hits d l).
Proof.
  induction l as [|k l IH]; [done|]. unfold hits. cbn. destruct (at_marker d k.1 && negb k.2); cbn; [|exact IH].
  destruct IH as (A & B & C). split_and!; [exact A|exact B|]. f_equal. exact C.
Qed.

Ltac view_step :=
  unfold view, report; cbn;
  repeat (match goal with |- context [if ?b then _ else _] => destruct b eqn:? end; cbn);
  rewrite ?pages_of_app, ?posts_of_app, ?markers_of_app; cbn; rewrite ?app_nil_r; try done.

#[local] Arguments hits : simpl never.

Lemma view_markers d m :
  view (check_markers d m) =
  view m <| v_markers := (map (fun k => (k.1, at_marker d k.1)) (log_eip m),
                          (length (markers_of (reports m)) + length (hits d (log_eip m)))%nat) |>.
Proof.
  unfold check_markers. rewrite check_marker_fold. destruct (hits_only d (log_eip m)) as (Hp & Hc & Hm).
  destruct m. cbn [log_eip reports] in *. unfold view. cbn. by rewrite pages_of_app, posts_of_app, markers_of_app, length_app, Hp, Hc, Hm, !app_nil_r.
Qed.

Lemma view_boot d m : view (check_boot_sector d m) = view m <| v_boot := v_boot (view m) || in_boot_sector (linear_ip d) |>.
Proof. unfold check_boot_sector. destruct (in_boot_sector (linear_ip d)), m as [? []]; view_step. Qed.

Lemma view_after d m :
  view (check_post_boot d m) = view m <| v_after := v_after (view m) || (v_boot (view m) && left_sector d) |>.
Proof.
  unfold check_post_boot, left_sector.
  destruct (linear_ip d <? 0xA0000), (in_boot_sector (linear_ip d)), m as [? [] []]; view_step.
Qed.

Definition page_step (boot : bool) (d : Debug) (v : list bool * Z * list Z) : list bool * Z * list Z :=
  let '(seen, n, out) := v in
  let page := linear_ip d / 4096 in
  if boot && (linear_ip d <? 0x100000) && (page <? Z.of_nat (length seen)) && negb (nth (Z.to_nat page) seen false) then
    if n <? 32 then (<[Z.to_nat page := true]> seen, n + 1, out ++ [page]) else (<[Z.to_nat page := true]> seen, n, out)
  else v.

Lemma view_page d m : view (check_page d m) = view m <| v_pages := page_step (v_boot (view m)) d (v_pages (view m)) |>.
Proof.
  unfold check_page, page_step. rewrite Z.shiftr_div_pow2 by lia. change (2 ^ 12) with 4096. cbv zeta.
  destruct m as [? b ? seen n]. cbn. destruct (b && (linear_ip d <? 0x100000)); [|done]. cbn [andb].
  destruct ((linear_ip d / 4096 <? Z.of_nat (length seen)) && negb (nth (Z.to_nat (linear_ip d / 4096)) seen false)); [|done].
  unfold view, report. cbn. destruct (n <? 32); cbn; [|done]. by rewrite pages_of_app, posts_of_app, markers_of_app, !app_nil_r.
Qed.

Definition post_step (code : Z) (v : bool * Z * bool * list Z) : bool * Z * bool * list Z :=
  let '(have, l, saw, out) := v in
  if negb (code =? 0) && (negb have || negb (code =? l)) then (true, code, true, out ++ [code]) else v.

Lemma view_post d m : view (check_post d m) = view m <| v_post := post_step (dbg_post_code d) (v_post (view m)) |>.
Proof.
  unfold check_post, post_step. destruct m as [? ? ? ? ? l have]. cbn.
  destruct (negb have || negb (dbg_post_code d =? l)); rewrite ?andb_true_r, ?andb_false_r; [|done].
  destruct (negb (dbg_post_code d =? 0)); [|done]. unfold view, report. cbn.
  by rewrite pages_of_app, posts_of_app, markers_of_app, !app_nil_r.
Qed.

Lemma view_active d m : view (check_active d m) = view m <| v_first := v_first (view m) || active d |>.
Proof. unfold check_active. destruct (active d), m as [? ? ? ? ? ? ? ? []]; view_step. Qed.

(** A sample's effect: each part for itself. *)
Lemma view_observe d m :
  let boot := saw_boot_sector m || in_boot_sector (linear_ip d) in
  view (observe m d) = {|
    v_markers := (map (fun k => (k.1, at_marker d k.1)) (log_eip m),
                  (length (markers_of (reports m)) + length (hits d (log_eip m)))%nat);
    v_boot := boot;
    v_after := saw_post_boot_exec m || (boot && left_sector d);
    v_pages := page_step boot d (v_pages (view m));
    v_post := post_step (dbg_post_code d) (v_post (view m));
    v_first := saw_first_instruction m || active d
  |}.
Proof. cbv zeta. unfold observe. by rewrite view_active, view_post, view_page, view_after, view_boot, view_markers. Qed.

(** ** One more sample *)

Definition booted (ds : list Debug) : bool := existsb (fun d => in_boot_sector (linear_ip d)) ds.

Lemma existsb_snoc {A} (f : A -> bool) l x : existsb f (l ++ [x]) = existsb f l || f x.
Proof. rewrite existsb_app. cbn. by rewrite orb_false_r. Qed.

Lemma from_boot_snoc ds d :
  from_boot (ds ++ [d]) = from_boot ds ++ (if booted (ds ++ [d]) then [d] else []).
Proof.
  unfold booted. rewrite existsb_snoc. induction ds as [|e ds IH]; cbn; [by destruct (in_boot_sector _)|].
  destruct (in_boot_sector (linear_ip e)); [done|exact IH].
Qed.

Lemma distinct_snoc l x : distinct (l ++ [x]) = if bool_decide (x ∈ distinct l) then distinct l else distinct l ++ [x].
Proof. unfold distinct. by rewrite fold_left_app. Qed.

Lemma last_snoc_or {A} (prev : option A) l x : match last (l ++ [x]) with Some y => Some y | None => prev end = Some x.
Proof. by rewrite last_snoc. Qed.

Lemma changes_snoc l x : forall prev,
  changes prev (l ++ [x]) =
  changes prev l ++ (if bool_decide (match last l with Some y => Some y | None => prev end = Some x) then [] else [x]).
Proof.
  induction l as [|y l IH]; intros prev; cbn [app changes]; [cbn; by destruct (bool_decide _)|].
  assert (match last (y :: l) with Some z => Some z | None => prev end = match last l with Some z => Some z | None => Some y end) as ->.
  { rewrite last_cons. by destruct (last l). }
  case_bool_decide as E; [rewrite IH; by destruct (last l); [|rewrite E]|]. cbn. by rewrite IH.
Qed.

Lemma begins_snoc l b : forall prev, begins prev (l ++ [b]) = (begins prev l + (if b && negb (default prev (last l)) then 1 else 0))%nat.
Proof.
  induction l as [|c l IH]; intros prev; cbn [app begins]; [cbn; lia|]. rewrite IH.
  assert (default c (last l) = default prev (last (c :: l))) as -> by (rewrite last_cons; by destruct (last l)). lia.
Qed.

(** Whether the marker's condition held at the last sample. *)
Definition was (ds : list Debug) (k : EipMarker) : bool := match last ds with Some d => at_marker d k | None => false end.

Lemma reached_snoc k ds d : reached k (ds ++ [d]) = (reached k ds + (if at_marker d k && negb (was ds k) then 1 else 0))%nat.
Proof.
  unfold reached, was. rewrite map_app. cbn [map]. rewrite begins_snoc. change (map ?f ds) with (f <$> ds).
  rewrite fmap_last. by destruct (last ds).
Qed.

Lemma hits_reached l ds d :
  (list_sum (map (fun k => reached k ds) l) + length (hits d (map (fun k => (k, was ds k)) l)))%nat =
  list_sum (map (fun k => reached k (ds ++ [d])) l).
Proof.
  unfold hits. induction l as [|k l IH]; [done|]. cbn [map list_sum omap list_omap fst snd]. rewrite reached_snoc.
  unfold list_sum in *. cbn [foldr]. destruct (at_marker d k && negb (was ds k)); cbn [length]; lia.
Qed.

Lemma codes_snoc ds d : codes (ds ++ [d]) = codes ds ++ (if negb (dbg_post_code d =? 0) then [dbg_post_code d] else []).
Proof.
  unfold codes. rewrite map_app, filter_app. f_equal. cbn [map]. rewrite filter_cons.
  destruct (Z.eqb_spec (dbg_post_code d) 0); case_decide; done.
Qed.

Lemma low_pages_snoc ds d :
  low_pages (ds ++ [d]) = low_pages ds ++ (if linear_ip d <? 0x100000 then [linear_ip d / 4096] else []).
Proof. unfold low_pages. rewrite omap_app. cbn. by destruct (linear_ip d <? 1048576). Qed.

(** The pages seen, counted and reported for those executed. *)
Record pages_ok (D : list Z) (v : list bool * Z * list Z) : Prop := mkPagesOk {
  po_size : length v.1.1 = 256%nat;
  po_seen p : (p < 256)%nat -> nth p v.1.1 false = bool_decide (Z.of_nat p ∈ D);
  po_count : v.1.2 = Z.min 32 (Z.of_nat (length D));
  po_out : v.2 = take 32 D
}.

Lemma page_range d : linear_ip d <? 0x100000 = true -> 0 <= linear_ip d / 4096 < 256.
Proof. intros E. pose proof (u32_range (dbg_cs_base d + dbg_eip d)) as Hr. fold (linear_ip d) in Hr. unfold is_u32 in Hr. divlia. Qed.

Lemma page_step_ok boot d ds v : pages_ok (distinct (low_pages ds)) v ->
  pages_ok (distinct (low_pages (ds ++ (if boot : bool then [d] else [])))) (page_step boot d v).
Proof.
  intros [H1 H2 H3 H4]. destruct v as [[seen n] out]. cbn [fst snd] in *. unfold page_step. cbv zeta.
  destruct boot; cbn [andb]; [|rewrite app_nil_r; by constructor]. rewrite low_pages_snoc.
  destruct (linear_ip d <? 1048576) eqn:El; cbn [andb]; [|rewrite app_nil_r; by constructor].
  apply page_range in El. rewrite distinct_snoc, H1, H2 by lia. rewrite Z2Nat.id by lia.
  rewrite (proj2 (Z.ltb_lt _ _)) by lia. cbn [andb]. case_bool_decide as Hin; cbn [negb]; [by constructor|].
  assert (forall p, (p < 256)%nat ->
    nth p (<[Z.to_nat (linear_ip d / 4096) := true]> seen) false =
    bool_decide (Z.of_nat p ∈ distinct (low_pages ds) ++ [linear_ip d / 4096])) as Hn.
  { intros p Hp. rewrite nth_lookup. destruct (decide (Z.to_nat (linear_ip d / 4096) = p)) as [<-|Hne].
    - rewrite list_lookup_insert_eq by lia. cbn. rewrite bool_decide_true; [done|]. apply elem_of_app. right.
      rewrite Z2Nat.id by lia. by left.
    - rewrite list_lookup_insert_ne, <- nth_lookup, H2 by done. apply bool_decide_ext. rewrite elem_of_app, list_elem_of_singleton. split; [by left|]. intros [Hi|Hi]; [done|]. lia. }
  destruct (Z.ltb_spec n 32) as [Hlt|Hge]; constructor; cbn [fst snd]; rewrite ?length_insert, ?length_app; cbn [length]; try done; try lia.
  - rewrite H4, !take_ge; rewrite ?length_app; cbn [length]; [done|lia|lia].
  - rewrite H4, take_app_le by lia. done.
Qed.

(** The code last reported, for the codes shown. *)
Record posts_ok (C : list Z) (v : bool * Z * bool * list Z) : Prop := mkPostsOk {
  so_have : v.1.1.1 = negb (is_nil C);
  so_last : (if v.1.1.1 then Some v.1.1.2 else None) = last C;
  so_saw : v.1.2 = negb (is_nil C);
  so_out : v.2 = changes None C
}.

Lemma is_nil_snoc {A} (l : list A) x : is_nil (l ++ [x]) = false.
Proof. by destruct l. Qed.

Lemma post_step_ok d ds v : posts_ok (codes ds) v -> posts_ok (codes (ds ++ [d])) (post_step (dbg_post_code d) v).
Proof.
  intros [H1 H2 H3 H4]. destruct v as [[[have c] saw] out]. cbn [fst snd] in *. rewrite codes_snoc. unfold post_step.
  destruct (negb (dbg_post_code d =? 0)); cbn [andb]; [|rewrite app_nil_r; by constructor].
  assert (changes None (codes ds ++ [dbg_post_code d]) =
          out ++ (if have && (dbg_post_code d =? c) then [] else [dbg_post_code d])) as E.
  { rewrite changes_snoc, H4, <- H2. f_equal. destruct have; cbn; [|done].
    destruct (Z.eqb_spec (dbg_post_code d) c) as [->|Hne]; [by rewrite bool_decide_true|]. rewrite bool_decide_false; [done|].
    intros [= ?]. congruence. }
  destruct have; cbn [negb orb andb] in *.
  - destruct (Z.eqb_spec (dbg_post_code d) c) as [->|Hne]; cbn [negb] in *;
      constructor; cbn [fst snd]; rewrite ?is_nil_snoc, ?last_snoc, ?E, ?app_nil_r; try done. by rewrite H3, <- H1.
  - constructor; cbn [fst snd]; rewrite ?is_nil_snoc, ?last_snoc, ?E; done.
Qed.

Lemma distinct_elem l x : x ∈ distinct l <-> x ∈ l.
Proof.
  induction l as [|y l IH] using rev_ind; [done|]. rewrite distinct_snoc, elem_of_app, list_elem_of_singleton.
  case_bool_decide as Hy; [|by rewrite elem_of_app, list_elem_of_singleton, IH]. rewrite IH. split; [by left|].
  intros [H| ->]; [done|by apply IH].
Qed.

Lemma distinct_NoDup l : NoDup (distinct l).
Proof.
  induction l as [|y l IH] using rev_ind; [by constructor|]. rewrite distinct_snoc. case_bool_decide as Hy; [done|].
  apply NoDup_app. split_and!; [done| |apply NoDup_singleton]. intros x Hx ->%list_elem_of_singleton. done.
Qed.

(** ** The run *)

(** Everything seen after the samples [ds]. *)
Record told (l : list EipMarker) (ds : list Debug) (v : View) : Prop := mkTold {
  td_markers : v_markers v = (map (fun k => (k, was ds k)) l, list_sum (map (fun k => reached k ds) l));
  td_boot : v_boot v = booted ds;
  td_after : v_after v = existsb left_sector (from_boot ds);
  td_pages : pages_ok (distinct (low_pages (from_boot ds))) (v_pages v);
  td_post : posts_ok (codes ds) (v_post v);
  td_first : v_first v = existsb active ds
}.

Lemma told_init l : told l [] (view (monitor_init l)).
Proof.
  constructor; try done.
  - cbn. f_equal. unfold list_sum. induction l; cbn; [done|]. by rewrite <- IHl.
  - constructor; cbn [fst snd v_pages view monitor_init boot_pages_seen]; try done. intros p Hp.
    rewrite nth_lookup, lookup_replicate_2 by lia. done.
Qed.

Lemma told_sample l ds d m : told l ds (view m) -> told l (ds ++ [d]) (view (observe m d)).
Proof.
  intros [H1 H2 H3 H4 H5 H6]. rewrite view_observe. cbn in H1, H2, H3, H6. injection H1 as H1 H1'. rewrite H2.
  assert (booted ds || in_boot_sector (linear_ip d) = booted (ds ++ [d])) as Hb by (unfold booted; by rewrite existsb_snoc).
  rewrite Hb. constructor; cbn [v_markers v_boot v_after v_pages v_post v_first].
  - rewrite H1, H1', hits_reached. f_equal. rewrite map_map. cbn. apply map_ext. intros k. unfold was. by rewrite last_snoc.
  - done.
  - rewrite H3, from_boot_snoc, existsb_app. destruct (booted (ds ++ [d])); cbn; by rewrite ?orb_false_r, ?andb_true_r.
  - rewrite from_boot_snoc. by apply page_step_ok.
  - by apply post_step_ok.
  - by rewrite H6, existsb_snoc.
Qed.

Lemma told_run l ds : told l ds (view (fold_left observe ds (monitor_init l))).
Proof.
  induction ds as [|d ds IH] using rev_ind; [apply told_init|]. rewrite fold_left_app. by apply told_sample.
Qed.

Lemma codes_shown ds : negb (is_nil (codes ds)) = existsb (fun d => negb (dbg_post_code d =? 0)) ds.
Proof.
  unfold codes. induction ds as [|d ds IH]; [done|]. cbn [map existsb]. rewrite filter_cons.
  destruct (Z.eqb_spec (dbg_post_code d) 0); case_decide; done.
Qed.

(** C20: what is reported of a run is its history: the boot sector's execution
    and, after it, execution elsewhere in conventional memory; the pages below
    1 MB executed from the boot sector on, the first thirty-two of them in the
    order of their first execution and each once; the POST codes that are not
    zero, whenever they change; every marker each time execution reaches it;
    and the exit status is 0 exactly when the core was active and, unless a
    RAM image was loaded, a POST code and the video's sync were seen. *)
Theorem milestones l ds load_ram_path sync :
  let m := fold_left observe ds (monitor_init l) in
  saw_boot_sector m = existsb (fun d => in_boot_sector (linear_ip d)) ds /\
  saw_post_boot_exec m = existsb left_sector (from_boot ds) /\
  pages_of (reports m) = take 32 (distinct (low_pages (from_boot ds))) /\ NoDup (pages_of (reports m)) /\
  posts_of (reports m) = changes None (codes ds) /\
  length (markers_of (reports m)) = list_sum (map (fun k => reached k ds) l) /\
  exit_status load_ram_path sync m =
    if existsb active ds && (negb (is_nil load_ram_path) || (existsb (fun d => negb (dbg_post_code d =? 0)) ds && sync)) then 0 else 2.
Proof.
  cbv zeta. destruct (told_run l ds) as [H1 H2 H3 [_ _ _ H4] [_ _ Hs H5] H6]. cbn [v_markers v_boot v_after v_pages v_post v_first view] in *.
  cbn [fst snd] in *. injection H1 as _ H1. split_and!; try done.
  - rewrite H4. eapply sublist_NoDup; [apply distinct_NoDup|apply sublist_take].
  - unfold exit_status. rewrite Hs, H6. rewrite codes_shown.
    by destruct (existsb active ds), (existsb (fun d => negb (dbg_post_code d =? 0)) ds), (is_nil load_ram_path), sync.
Qed.

(** A run that boots and comes up. *)
Example demo_boot :
  let ds := [mkDebug 0xf000 0xfff0 0xffff0000 0 true; mkDebug 0 0x7c00 0 1 true; mkDebug 0 0x7c00 0 1 true;
             mkDebug 0x60 0x100 0x600 2 true; mkDebug 0 0x7c00 0 0 true; mkDebug 0x60 0x100 0x600 2 true] in
  reports (fold_left observe ds (monitor_init [mkEipMarker 0 0x7c00])) =
  [core_active; EIP_MARKER 0 0x7c00; boot_sector_execution; exec_page 7; POST 1; post_boot_execution; exec_page 0; POST 2;
   EIP_MARKER 0 0x7c00].
Proof. by vm_compute. Qed.
