(* ===== verification/Console.v ===== *)
(** * At every frame shown

    The part of [consume_video] of verilator/main.cpp behind the frame itself:
    the screenshots of --screenshot-dir and of the control socket, and the
    checks of the text screen - its print-out, --stop-on-text, the keys of
    --key-on-text and the boot menu of --screen-at.

    A script of keys follows the screens as far as any reader of them could
    ([keys_follow_text]); one screenshot is taken in every interval in which a
    frame is shown ([shots_spaced]). *)
From S2P Require Import Prelude IdeTypes Text Screen Input Keyboard Control.

Record Console := mkConsole {
  ctl : Control;
  last_console_text : list Z;
  next_console_text_check : Z;         (* uint64_t *)
  next_text_key_event : nat;
  next_screen_check : nat;
  saw_boot_menu_text : bool;
  next_screenshot_cycle : Z;           (* uint64_t *)
  traced_console_markers : list (list Z);   (* also the lines of the trace *)
  shots : list (list Z);               (* calls of dump_screen_png *)
  dumped : list (list (Z * list Z))    (* screens printed *)
}.
#[export] Instance eta_Console : Eta Console := fun r =>
  mkConsole (ctl r) (last_console_text r) (next_console_text_check r) (next_text_key_event r) (next_screen_check r)
    (saw_boot_menu_text r) (next_screenshot_cycle r) (traced_console_markers r) (shots r) (dumped r).

(** A frame shown: when, on what screen, and how far the boot has come. *)
Record Frame := mkFrame {
  f_cycle : Z;
  f_time : Z;
  f_text : TextMode;
  f_boot_sector : bool;      (* saw_boot_sector *)
  f_post_boot : bool         (* saw_post_boot_exec *)
}.

Section Console.
Context `{Sdl}.
(** Settings of the command line. *)
Context (screenshot_dir : list Z) (screenshot_interval_cycles : Z) (stop_on_text : list Z)
  (text_key_events : list (list Z * Z)) (screen_check_cycles : list Z) (zsst_trace : bool).

(** [while (next <= cycle) next += interval;] *)
Fixpoint next_shot (fuel : nat) (cycle next : Z) : option Z :=
  if next <=? cycle then
    match fuel with
    | O => None
    | S fuel => next_shot fuel cycle (u64 (next + screenshot_interval_cycles))
    end
  else Some next.

Definition screenshot (f : Frame) (c : Console) : option Console :=
  if negb (is_nil screenshot_dir) && (next_screenshot_cycle c <=? f_cycle f) then
    let name := str "screen_" ++ dec (f_time f) ++ str ".png" in
    next ← next_shot (S (Z.to_nat (f_cycle f / screenshot_interval_cycles))) (f_cycle f) (next_screenshot_cycle c);
    Some (c <| shots := shots c ++ [path_join screenshot_dir name] |> <| next_screenshot_cycle := next |>)
  else Some c.

(** The loop over [control_screenshot_requests]. *)
Definition requested_shots (c : Console) : Console :=
  c <| shots := shots c ++ requests (ctl c) |> <| ctl := ctl c <| requests := [] |> |>.

(** A row printed into the trace of the accelerator's writes. *)
Definition trace_row (seen : list (list Z)) (line : list Z) : list (list Z) :=
  if starts_with (str "VOODOO_TEST") line && negb (bool_decide (line ∈ seen)) then seen ++ [line] else seen.

Definition text_update (screen : list Z) (c : Console) : Console :=
  if bool_decide (screen = last_console_text c) then c
  else
    let rows := dump_nonempty_rows screen in
    let c := c <| dumped := dumped c ++ [rows] |> in
    let c := if zsst_trace then
               c <| traced_console_markers := fold_left trace_row (map snd rows) (traced_console_markers c) |>
             else c in
    c <| last_console_text := screen |>.

Definition stop_check (screen : list Z) (c : Console) : Console :=
  if negb (is_nil stop_on_text) && found stop_on_text screen then c <| ctl := ctl c <| running := false |> |> else c.

Definition text_key (screen : list Z) (c : Console) : Console :=
  match text_key_events !! next_text_key_event c with
  | Some (needle, key) =>
    if found needle screen then
      c <| ctl := ctl c <| ps2 := queue_sdl_key (queue_sdl_key (ps2 (ctl c)) key true) key false |> |>
        <| next_text_key_event := S (next_text_key_event c) |>
    else c
  | None => c
  end.

Definition text_check (f : Frame) (c : Console) : Console :=
  if f_post_boot f && (next_console_text_check c <=? f_cycle f) then
    let screen := current_text_screen (f_text f) in
    let c := text_key screen (stop_check screen (text_update screen c)) in
    c <| next_console_text_check := u64 (f_cycle f + 1000000) |>
  else c.

Definition boot_menu : list Z := str "Press ESC for boot menu".

Definition menu_check (f : Frame) (c : Console) : Console :=
  if negb (saw_boot_menu_text c) && f_boot_sector f then
    match screen_check_cycles !! next_screen_check c with
    | Some at_cycle =>
      if at_cycle <=? f_cycle f then
        let screen := current_text_screen (f_text f) in
        let c := if negb (is_nil (row_for_match screen boot_menu)) then c <| saw_boot_menu_text := true |>
                 else c <| dumped := dumped c ++ [dump_nonempty_rows screen] |> in
        c <| next_screen_check := S (next_screen_check c) |>
      else c
    | None => c
    end
  else c.

(** A frame shown.  [None]: the loop of the screenshots does not end. *)
Definition frame (f : Frame) (c : Console) : option Console :=
  c ← screenshot f c; Some (menu_check f (text_check f (requested_shots c))).

Fixpoint frames (fs : list Frame) (c : Console) : option Console :=
  match fs with
  | [] => Some c
  | f :: fs => c ← frame f c; frames fs c
  end.

(** ** What a script of keys should do *)

(** The screens looked at: a million cycles apart at least. *)
Fixpoint checked (next : Z) (fs : list Frame) : list (list Z) :=
  match fs with
  | [] => []
  | f :: fs =>
    if f_post_boot f && (next <=? f_cycle f) then current_text_screen (f_text f) :: checked (f_cycle f + 1000000) fs
    else checked next fs
  end.

(** The texts are shown in order, each on a screen of its own. *)
Inductive in_order : list (list Z) -> list (list Z) -> Prop :=
| in_order_none ss : in_order [] ss
| in_order_later ns s ss : in_order ns ss -> in_order ns (s :: ss)
| in_order_here n ns s ss : found n s = true -> in_order ns ss -> in_order (n :: ns) (s :: ss).

Definition typed (l : list (list Z * Z)) : list Z := concat (map (fun e => bytes_of e.2 true ++ bytes_of e.2 false) l).

(** Frames in time, the screenshots' interval such that their loop ends. *)
Definition frames_ok (fs : list Frame) : Prop :=
  Forall (fun f => 0 <= f_cycle f < 9223372036854775808 - screenshot_interval_cycles) fs /\ 0 < screenshot_interval_cycles.
End Console.

(** ** Reading in order *)

(** The number of texts found when each is looked for behind the last. *)
Fixpoint greedy (ns ss : list (list Z)) : nat :=
  match ss with
  | [] => O
  | s :: ss =>
    match ns with
    | [] => O
    | n :: ns' => if found n s then S (greedy ns' ss) else greedy ns ss
    end
  end.

Lemma in_order_tail n ns ss : in_order (n :: ns) ss -> in_order ns ss.
Proof.
  remember (n :: ns) as l eqn:El. induction 1 as [|ns' s ss _ IH|n' ns' s ss Hf Hs _]; [done|apply in_order_later; auto|].
  injection El as -> ->. by apply in_order_later.
Qed.

(** No way of reading the screens finds more. *)
Lemma greedy_best ss : forall ns j, (j <= length ns)%nat -> in_order (take j ns) ss <-> (j <= greedy ns ss)%nat.
Proof.
  induction ss as [|s ss IH]; intros ns j Hj; cbn [greedy].
  - destruct j as [|j]; [split; [lia|constructor]|]. destruct ns as [|n ns]; [cbn in Hj; lia|]. cbn [take].
    split; [intros Hi; inversion Hi|lia].
  - destruct ns as [|n ns]; [cbn in Hj; replace j with 0%nat by lia; split; [lia|constructor]|].
    destruct j as [|j]; [split; [lia|constructor]|]. cbn [take]. cbn in Hj. destruct (found n s) eqn:Ef.
    + rewrite <- Nat.succ_le_mono, <- IH by lia. split; [|by apply in_order_here].
      intros Hi. inversion Hi; subst; [by apply in_order_tail in H1|done].
    + rewrite <- IH by (cbn; lia). cbn [take]. split; [|by apply in_order_later].
      intros Hi. inversion Hi; subst; [done|congruence].
Qed.

Lemma greedy_length ss : forall ns, (greedy ns ss <= length ns)%nat.
Proof.
  induction ss as [|s ss IH]; intros [|n ns]; cbn [greedy length]; try lia.
  destruct (found n s); [specialize (IH ns); lia|apply IH].
Qed.

(** ** One frame *)

Section Frames.
Context `{Sdl} (screenshot_dir : list Z) (interval : Z) (stop_on_text : list Z) (text_key_events : list (list Z * Z))
  (screen_check_cycles : list Z) (zsst_trace : bool).

Notation one_frame := (frame screenshot_dir interval stop_on_text text_key_events screen_check_cycles zsst_trace).
Notation all_frames := (frames screenshot_dir interval stop_on_text text_key_events screen_check_cycles zsst_trace).

(** What the script of keys depends on. *)
Definition script (c : Console) : Ps2 * bool * Z * nat :=
  (ps2 (ctl c), running (ctl c), next_console_text_check c, next_text_key_event c).

Lemma menu_script f c : script (menu_check screen_check_cycles f c) = script c.
Proof.
  unfold menu_check. destruct (negb (saw_boot_menu_text c) && f_boot_sector f); [|done].
  destruct (screen_check_cycles !! next_screen_check c) as [at_cycle|]; [|done]. destruct (at_cycle <=? f_cycle f); [|done].
  cbv zeta. by destruct (negb _).
Qed.

Lemma update_script screen c : script (text_update zsst_trace screen c) = script c.
Proof. unfold text_update. case_bool_decide; [done|]. by destruct zsst_trace. Qed.

(** Whether the next text is on the screen. *)
Definition next_found (screen : list Z) (k : nat) : bool :=
  match text_key_events !! k with Some (needle, _) => found needle screen | None => false end.

Lemma check_script f c :
  script (text_check stop_on_text text_key_events zsst_trace f c) =
  if f_post_boot f && (next_console_text_check c <=? f_cycle f) then
    let screen := current_text_screen (f_text f) in
    let k := next_text_key_event c in
    let hit := next_found screen k in
    (if hit then queue_ps2_bytes (ps2 (ctl c)) (typed (take 1 (drop k text_key_events))) else ps2 (ctl c),
     running (ctl c) && (is_nil stop_on_text || negb (found stop_on_text screen)), u64 (f_cycle f + 1000000),
     if hit then S k else k)
  else script c.
Proof.
  unfold text_check. destruct (f_post_boot f && (next_console_text_check c <=? f_cycle f)); [|done]. cbv zeta.
  pose proof (update_script (current_text_screen (f_text f)) c) as Hu.
  remember (text_update zsst_trace (current_text_screen (f_text f)) c) as c1 eqn:E1. clear E1.
  remember (current_text_screen (f_text f)) as screen eqn:Es. clear Es.
  unfold script in *. injection Hu as Hp Hr Hn Hk. rewrite <- Hp, <- Hr, <- Hk. clear Hp Hr Hn Hk c.
  assert (stop_check stop_on_text screen c1 =
    c1 <| ctl := ctl c1 <| running := running (ctl c1) && (is_nil stop_on_text || negb (found stop_on_text screen)) |> |>) as ->.
  { unfold stop_check. destruct c1 as [[]]. cbn. destruct (is_nil stop_on_text), (found stop_on_text screen); cbn;
      by rewrite ?andb_true_r, ?andb_false_r. }
  unfold text_key, next_found. cbn.
  destruct (text_key_events !! next_text_key_event c1) as [[needle key]|] eqn:E; [|done].
  destruct (found needle screen); [|done]. cbn. rewrite (drop_S _ _ _ E). cbn [take]. unfold typed. cbn [map concat snd].
  by rewrite app_nil_r, !queue_sdl_key_bytes, queue_ps2_app.
Qed.

(** *** The screenshots *)

Lemma next_shot_multiple cycle : 0 < interval -> 0 <= cycle < 9223372036854775808 - interval -> forall fuel m,
  0 <= m -> cycle / interval + 1 - m <= Z.of_nat fuel ->
  next_shot interval fuel cycle (interval * m) = Some (interval * Z.max m (cycle / interval + 1)).
Proof.
  intros Hi Hc. pose proof (Z.div_mod cycle interval ltac:(lia)) as Hd. pose proof (Z.mod_pos_bound cycle interval Hi) as Hm.
  induction fuel as [|fuel IH]; intros m H0 Hf; cbn [next_shot]; destruct (Z.leb_spec (interval * m) cycle) as [Hle|Hgt].
  - nia.
  - do 2 f_equal. nia.
  - assert (m <= cycle / interval) by (apply Z.div_le_lower_bound; lia).
    rewrite u64_id by (unfold is_u64; lia). replace (interval * m + interval) with (interval * (m + 1)) by lia.
    rewrite IH by lia. do 2 f_equal. lia.
  - do 2 f_equal. assert (cycle / interval < m) by (apply Z.div_lt_upper_bound; lia). lia.
Qed.

(** The pictures taken: one in every interval in which a frame is shown, and
    those asked for at the first frame. *)
Fixpoint pictures (last : Z) (asked : list (list Z)) (fs : list Frame) : list (list Z) :=
  match fs with
  | [] => []
  | f :: fs =>
    let i := f_cycle f / interval in
    if negb (is_nil screenshot_dir) && (last <? i) then
      path_join screenshot_dir (str "screen_" ++ dec (f_time f) ++ str ".png") :: asked ++ pictures i [] fs
    else asked ++ pictures last [] fs
  end.

Definition album (c : Console) : list (list Z) * list (list Z) * Z := (shots c, requests (ctl c), next_screenshot_cycle c).

Lemma text_album f c : album (text_check stop_on_text text_key_events zsst_trace f c) = album c.
Proof.
  unfold text_check. destruct (f_post_boot f && (next_console_text_check c <=? f_cycle f)); [|done]. cbv zeta.
  set (screen := current_text_screen (f_text f)).
  assert (forall c, album (text_key text_key_events screen c) = album c) as H1.
  { intros x. unfold text_key. destruct (text_key_events !! next_text_key_event x) as [[needle key]|]; [|done]. by destruct (found needle screen). }
  assert (forall c, album (stop_check stop_on_text screen c) = album c) as H2.
  { intros x. unfold stop_check. by destruct (negb (is_nil stop_on_text) && found stop_on_text screen). }
  assert (forall c, album (text_update zsst_trace screen c) = album c) as H3.
  { intros x. unfold text_update. case_bool_decide; [done|]. by destruct zsst_trace. }
  rewrite <- (H3 c), <- (H2 (text_update zsst_trace screen c)), <- (H1 (stop_check _ _ _)). done.
Qed.

Lemma menu_album f c : album (menu_check screen_check_cycles f c) = album c.
Proof.
  unfold menu_check. destruct (negb (saw_boot_menu_text c) && f_boot_sector f); [|done].
  destruct (screen_check_cycles !! next_screen_check c) as [at_cycle|]; [|done]. destruct (at_cycle <=? f_cycle f); [|done].
  cbv zeta. by destruct (negb _).
Qed.

(** A frame: its pictures, and what it means for the script. *)
Lemma frame_step f c m : 0 < interval -> 0 <= f_cycle f < 9223372036854775808 - interval ->
  0 <= m -> next_screenshot_cycle c = interval * m ->
  let i := f_cycle f / interval in
  let taken := negb (is_nil screenshot_dir) && (m - 1 <? i) in
  exists c', one_frame f c = Some c' /\
  album c' = (shots c ++ (if taken then [path_join screenshot_dir (str "screen_" ++ dec (f_time f) ++ str ".png")] else []) ++ requests (ctl c),
              [], interval * (if taken then i + 1 else m)) /\
  script c' = script (text_check stop_on_text text_key_events zsst_trace f c).
Proof.
  intros Hi Hc H0 Hm i taken. unfold frame.
  assert (exists c1, screenshot screenshot_dir interval f c = Some c1 /\ script c1 = script c /\ requests (ctl c1) = requests (ctl c) /\
    shots c1 = shots c ++ (if taken then [path_join screenshot_dir (str "screen_" ++ dec (f_time f) ++ str ".png")] else []) /\
    next_screenshot_cycle c1 = interval * (if taken then i + 1 else m)) as (c1 & -> & Hs & Hr & Hsh & Hn).
  { unfold screenshot. rewrite Hm. assert ((interval * m <=? f_cycle f) = (m - 1 <? i)) as ->.
    { pose proof (Z.div_mod (f_cycle f) interval ltac:(lia)) as Hd. pose proof (Z.mod_pos_bound (f_cycle f) interval Hi).
      subst i. apply eq_true_iff_eq. rewrite Z.leb_le, Z.ltb_lt. nia. }
    fold taken. destruct taken eqn:Et.
    - cbv zeta. rewrite next_shot_multiple; try done; [|pose proof (Z.div_pos (f_cycle f) interval); lia]. cbn [mbind option_bind].
      eexists. split; [done|]. split_and!; try done. cbn. f_equal. subst taken i. apply andb_true_iff in Et as [_ Et]. lia.
    - exists c. by rewrite app_nil_r. }
  cbn [mbind option_bind]. eexists. split; [done|]. split.
  - rewrite menu_album, text_album. unfold album, requested_shots. cbn. by rewrite Hsh, Hr, Hn, <- app_assoc.
  - rewrite menu_script, !check_script. unfold script, requested_shots in *. injection Hs as Hp Hrun Hnc Hk. cbn.
    by rewrite Hp, Hrun, Hnc, Hk.
Qed.

Lemma greedy_step s ss k :
  let hit := next_found s k in
  let k' := if hit then S k else k in
  let n := greedy (map fst (drop k' text_key_events)) ss in
  greedy (map fst (drop k text_key_events)) (s :: ss) = (if hit then S n else n) /\
  typed (take (if hit then S n else n) (drop k text_key_events)) =
    (if hit then typed (take 1 (drop k text_key_events)) else []) ++ typed (take n (drop k' text_key_events)).
Proof.
  unfold next_found. cbv zeta. destruct (text_key_events !! k) as [[needle key]|] eqn:Ek.
  - rewrite (drop_S _ _ _ Ek). cbn [map fst greedy]. destruct (found needle s).
    + split; [done|]. cbn [take]. unfold typed. cbn [map concat]. by rewrite app_nil_r.
    + by rewrite (drop_S _ _ _ Ek).
  - rewrite (drop_ge text_key_events k) by (by apply lookup_ge_None). cbn [map greedy take]. by destruct ss.
Qed.

Lemma frames_run fs : forall c m k, frames_ok interval fs -> 0 <= m -> next_screenshot_cycle c = interval * m ->
  next_text_key_event c = k ->
  let ss := checked (next_console_text_check c) fs in
  let n := greedy (map fst (drop k text_key_events)) ss in
  exists c', all_frames fs c = Some c' /\
  next_text_key_event c' = (k + n)%nat /\
  ps2 (ctl c') = queue_ps2_bytes (ps2 (ctl c)) (typed (take n (drop k text_key_events))) /\
  running (ctl c') = running (ctl c) && (is_nil stop_on_text || forallb (fun s => negb (found stop_on_text s)) ss) /\
  shots c' = shots c ++ pictures (m - 1) (requests (ctl c)) fs.
Proof.
  induction fs as [|f fs IH]; intros c m k [Hf Hi] H0 Hm Hk ss n.
  { exists c. subst n ss. cbn. rewrite queue_ps2_nil, orb_true_r, andb_true_r, app_nil_r. by rewrite Nat.add_0_r. }
  inversion Hf as [|? ? Hc Hf']; subst x l. destruct (frame_step f c m Hi Hc H0 Hm) as (c1 & E & Ha & Hs).
  cbv zeta in Ha. rewrite check_script in Hs. unfold album in Ha. apply pair_eq in Ha as [[Hsh Hreq]%pair_eq Hnext].
  set (taken := negb (is_nil screenshot_dir) && (m - 1 <? f_cycle f / interval)) in *.
  assert (0 <= (if taken then f_cycle f / interval + 1 else m)) as Hm' by (destruct taken; [pose proof (Z.div_pos (f_cycle f) interval)|]; lia).
  assert (forall asked, pictures (m - 1) asked (f :: fs) =
    (if taken then [path_join screenshot_dir (str "screen_" ++ dec (f_time f) ++ str ".png")] else []) ++ asked ++
    pictures ((if taken then f_cycle f / interval + 1 else m) - 1) [] fs) as Hp.
  { intros asked. cbn [pictures]. fold taken. destruct taken; [|done]. cbn [app]. do 2 f_equal. f_equal. lia. }
  destruct (IH c1 _ (next_text_key_event c1) (conj Hf' Hi) Hm' Hnext eq_refl) as (c' & E' & R1 & R2 & R3 & R4).
  exists c'. cbn [frames]. rewrite E. cbn [mbind option_bind]. split; [exact E'|].
  rewrite R4, Hsh, Hreq, Hp, <- !app_assoc. subst ss n. cbn [checked].
  destruct (f_post_boot f && (next_console_text_check c <=? f_cycle f)).
  - assert (u64 (f_cycle f + 1000000) = f_cycle f + 1000000) as Hu by (apply u64_id; clear - Hc Hi; unfold is_u64; lia).
    cbv zeta in Hs. unfold script in Hs. rewrite Hk, Hu in *. apply pair_eq in Hs as [[[S1 S2]%pair_eq S3]%pair_eq S4].
    destruct (greedy_step (current_text_screen (f_text f)) (checked (f_cycle f + 1000000) fs) k) as [G1 G2]. cbv zeta in G1, G2.
    rewrite R1, R2, R3, S1, S2, S3, S4, G1, G2. cbn [forallb].
    split_and!; [by destruct (next_found _ k); rewrite ?Nat.add_succ_r| |by destruct (is_nil stop_on_text), (running (ctl c))|done].
    destruct (next_found _ k); [by rewrite queue_ps2_app|done].
  - unfold script in Hs. rewrite Hk in *. apply pair_eq in Hs as [[[S1 S2]%pair_eq S3]%pair_eq S4]. by rewrite R1, R2, R3, S1, S2, S3, S4.
Qed.

(** C19: frames shown in any order of screens: the keys of --key-on-text that
    are typed are the longest beginning of the script whose texts appear in
    order, each on a screen of its own among those looked at - no other reading
    gets further - each key pressed and released once; the run stops exactly
    when one of these screens shows the text of --stop-on-text; and one
    screenshot is taken in every interval in which a frame is shown, behind
    the last one, with those asked for over the control socket. *)
Theorem keys_follow_text fs c m :
  frames_ok interval fs -> 0 <= m -> next_screenshot_cycle c = interval * m -> next_text_key_event c = 0%nat ->
  let ss := checked (next_console_text_check c) fs in
  exists c', all_frames fs c = Some c' /\
  (forall j, (j <= length text_key_events)%nat ->
     in_order (take j (map fst text_key_events)) ss <-> (j <= next_text_key_event c')%nat) /\
  ps2 (ctl c') = queue_ps2_bytes (ps2 (ctl c)) (typed (take (next_text_key_event c') text_key_events)) /\
  running (ctl c') = running (ctl c) && (is_nil stop_on_text || forallb (fun s => negb (found stop_on_text s)) ss) /\
  shots c' = shots c ++ pictures (m - 1) (requests (ctl c)) fs.
Proof.
  intros Hf H0 Hm Hk ss. destruct (frames_run fs c m 0 Hf H0 Hm Hk) as (c' & E & H1 & H2 & H3 & H4).
  exists c'. split; [done|]. rewrite drop_0 in *. cbn [Nat.add] in H1. rewrite <- H1 in H2. split_and!; try done.
  intros j Hj. rewrite H1. apply greedy_best. by rewrite length_map.
Qed.
End Frames.

(** ** An example *)

Definition demo_console : Console := mkConsole demo_control [] 0 0 0 false 500 [] [] [].
Definition demo_shown : list Frame := [mkFrame 700 1400 demo_text true true; mkFrame 900 1800 demo_text true true; mkFrame 1600 3200 demo_text true true].

Lemma keys_follow_text_witness :
  exists c', @frames demo_sdl (str "d") 500 [] [(str "ver", 13); (str "C:", 97)] [] false demo_shown demo_console = Some c' /\
  (in_order [str "ver"] (checked 0 demo_shown) <-> (1 <= next_text_key_event c')%nat) /\
  shots c' = [str "d/screen_1400.png"; str "d/screen_3200.png"].
Proof.
  assert (frames_ok 500 demo_shown) as Hf.
  { split; [|done]. unfold demo_shown. repeat apply Forall_cons_2; cbn [f_cycle]; try lia. by apply Forall_nil_2. }
  destruct (@keys_follow_text demo_sdl (str "d") 500 [] [(str "ver", 13); (str "C:", 97)] [] false demo_shown demo_console 1
    Hf ltac:(lia) eq_refl eq_refl) as (c' & E & H1 & _ & _ & H4).
  exists c'. split; [exact E|]. split; [exact (H1 1%nat ltac:(cbn; lia))|]. exact H4.
Defined.
