(* ===== verification/Harness.v ===== *)
(** * The harness's checkpoint

    The lambdas [write_harness] and [read_harness] of [main] in
    verilator/main.cpp, which save and load the simulator's own state around the
    Verilated model: the clock and memories ([Clock], [Ddr]), the keyboard and
    mouse ([Input]), the video capture ([Video]), the boot milestones and the two
    IDE devices ([IdeCheckpoint]).  Streams are those of [Codec].  Loading what
    was saved restores all of it but the members of [restored] that the format
    does not hold. *)
From S2P Require Import Prelude Codec IdeTypes IdeGeometry IdeTick IdeInvariant IdeSafety IdeCheckpoint.
From S2P Require Import Input Ddr Clock Video.

(** ** The stream helpers of main.cpp *)

Definition write_vector_u64 (value : list Z) : list Z :=
  write_pod u64c (u64 (Z.of_nat (length value))) ++ write_pods u64c value.

Definition read_vector_u64 (old : list Z) (i : Istream) : Result (list Z * Istream) :=
  '(size, i) ← read_pod u64c 0 i;
  read_pods u64c (resize (Z.to_nat size) 0 old) i.

Definition write_deque_u8 (value : list Z) : list Z :=
  write_pod u64c (u64 (Z.of_nat (length value))) ++ write_pods u8c value.

Definition read_deque_u8 (i : Istream) : Result (list Z * Istream) :=
  '(size, i) ← read_pod u64c 0 i;
  read_pods u8c (replicate (Z.to_nat size) 0) i.

Definition write_event (e : ScheduledPs2Bytes) : list Z :=
  write_pod u64c (ev_cycle e) ++ write_vector_u8 (ev_bytes e).

Definition read_event (old : ScheduledPs2Bytes) (i : Istream) : Result (ScheduledPs2Bytes * Istream) :=
  '(cycle, i) ← read_pod u64c (ev_cycle old) i;
  '(bytes, i) ← read_vector_u8 (ev_bytes old) i;
  Ok (mkEvent cycle bytes, i).

Fixpoint read_events (old : list ScheduledPs2Bytes) (i : Istream) : Result (list ScheduledPs2Bytes * Istream) :=
  match old with
  | [] => Ok ([], i)
  | e :: old =>
    '(e, i) ← read_event e i;
    '(l, i) ← read_events old i;
    Ok (e :: l, i)
  end.

Definition write_scheduled_events (value : list ScheduledPs2Bytes) : list Z :=
  write_pod u64c (u64 (Z.of_nat (length value))) ++ concat (map write_event value).

Definition read_scheduled_events (old : list ScheduledPs2Bytes) (i : Istream)
    : Result (list ScheduledPs2Bytes * Istream) :=
  '(size, i) ← read_pod u64c 0 i;
  read_events (resize (Z.to_nat size) (mkEvent 0 []) old) i.

(** [size_t] members that index a vector. *)
Definition index : Codec nat := {|
  c_size := 8;
  c_enc n := le_bytes 8 (Z.of_nat n);
  c_dec l := Some (Z.to_nat (le_val l));
  c_valid n := Z.of_nat n < 18446744073709551616
|}.

(** A pixel in memory order. *)
Definition pixel : Codec Pixel := {|
  c_size := 4;
  c_enc p := le_bytes 1 (px_a p) ++ le_bytes 1 (px_b p) ++ le_bytes 1 (px_g p) ++ le_bytes 1 (px_r p);
  c_dec l := match l with [a; b; g; r] => Some (mkPixel a b g r) | _ => None end;
  c_valid p := is_u8 (px_a p) /\ is_u8 (px_b p) /\ is_u8 (px_g p) /\ is_u8 (px_r p)
|}.

(** The flags of [boot_pages_seen], a byte each; any byte but 0 reads as set. *)
Definition write_flags (l : list bool) : list Z := concat (map (fun seen => write_pod u8c (b2z seen)) l).

Fixpoint read_flags (n : nat) (i : Istream) : Result (list bool * Istream) :=
  match n with
  | O => Ok ([], i)
  | S n =>
    '(value, i) ← read_pod u8c 0 i;
    '(l, i) ← read_flags n i;
    Ok (negb (value =? 0) :: l, i)
  end.

(** ** The state *)

(** The globals of main.cpp and the locals of [main] that a checkpoint covers. *)
Record Harness (Core : Type) := mkHarness {
  sim : Sim Core;
  ps2 : Ps2;
  screen_check_cycles : list Z;
  next_screen_check : nat;
  boot_pages_seen : list bool;
  video : Video;
  saw_first_instruction : bool;
  saw_post : bool;
  saw_boot_sector : bool;
  saw_post_boot_exec : bool;
  saw_boot_menu_text : bool;
  boot_page_logs : Z;           (* unsigned *)
  bios_dbg_wr_prev : bool;
  last_post : Z;                (* uint8_t *)
  have_post : bool;
  mouse_captured : bool;
  last_title_sim_time : Z;      (* uint64_t *)
  next_console_text_check : Z;  (* uint64_t *)
  last_console_text : list Z;
  ide0 : HpsIde;
  ide1 : HpsIde
}.
#[global] Arguments mkHarness {Core}.
#[global] Arguments sim {Core}.
#[global] Arguments ps2 {Core}.
#[global] Arguments screen_check_cycles {Core}.
#[global] Arguments next_screen_check {Core}.
#[global] Arguments boot_pages_seen {Core}.
#[global] Arguments video {Core}.
#[global] Arguments saw_first_instruction {Core}.
#[global] Arguments saw_post {Core}.
#[global] Arguments saw_boot_sector {Core}.
#[global] Arguments saw_post_boot_exec {Core}.
#[global] Arguments saw_boot_menu_text {Core}.
#[global] Arguments boot_page_logs {Core}.
#[global] Arguments bios_dbg_wr_prev {Core}.
#[global] Arguments last_post {Core}.
#[global] Arguments have_post {Core}.
#[global] Arguments mouse_captured {Core}.
#[global] Arguments last_title_sim_time {Core}.
#[global] Arguments next_console_text_check {Core}.
#[global] Arguments last_console_text {Core}.
#[global] Arguments ide0 {Core}.
#[global] Arguments ide1 {Core}.

#[export] Instance eta_Harness Core : Eta (Harness Core) :=
  fun r => mkHarness (sim r) (ps2 r) (screen_check_cycles r) (next_screen_check r) (boot_pages_seen r)
    (video r) (saw_first_instruction r) (saw_post r) (saw_boot_sector r) (saw_post_boot_exec r)
    (saw_boot_menu_text r) (boot_page_logs r) (bios_dbg_wr_prev r) (last_post r) (have_post r)
    (mouse_captured r) (last_title_sim_time r) (next_console_text_check r) (last_console_text r)
    (ide0 r) (ide1 r).

(** ** Loaders of the new member types *)

Definition load_vector_u64 {S} (proj : S -> list Z) {St : Setter (E := list Z) proj} : Loader S :=
  fun s i => '(v, i) ← read_vector_u64 (proj s) i; Ok (set_field (proj := proj) (fun _ => v) s, i).

Definition load_deque_u8 {S} (proj : S -> list Z) {St : Setter (E := list Z) proj} : Loader S :=
  fun s i => '(v, i) ← read_deque_u8 i; Ok (set_field (proj := proj) (fun _ => v) s, i).

Definition load_events {S} (proj : S -> list ScheduledPs2Bytes)
    {St : Setter (E := list ScheduledPs2Bytes) proj} : Loader S :=
  fun s i => '(v, i) ← read_scheduled_events (proj s) i; Ok (set_field (proj := proj) (fun _ => v) s, i).

Definition load_flags {S} (proj : S -> list bool) {St : Setter (E := list bool) proj} : Loader S :=
  fun s i => '(v, i) ← read_flags (length (proj s)) i; Ok (set_field (proj := proj) (fun _ => v) s, i).

(** An assignment, and an [if] of a loader. *)
Definition assign {S} (f : S -> S) : Loader S := fun s i => Ok (f s, i).
Definition load_if {S} (b : bool) (l : Loader S) : Loader S := if b then l else assign (fun s => s).

(** ** [write_harness] *)

Section Core.
Context {Core : Type}.

Definition sim_bytes (s : Sim Core) : list Z :=
  write_pod u64c (sim_time s) ++ write_pod u64c (current_cycle s) ++ write_pod boolean (posedge s) ++
  write_pod u32c (audio_clock_accum s) ++ write_pod u32c (audio_sample_accum s) ++
  write_vector_u8 (ddram_mem (ddr s)) ++ write_pod boolean (ddram_resp_valid (ddr s)) ++
  write_pod u64c (ddram_resp_data (ddr s)) ++ write_vector_u8 (fb_mem (ddr s)) ++
  write_pods pixel (fb_palette s) ++ write_vector_u8 (zsst_mem s).

Definition ps2_bytes (p : Ps2) : list Z :=
  write_scheduled_events (ps2_events p) ++ write_pod index (next_ps2_event p) ++
  write_scheduled_events (mouse_events p) ++ write_pod index (next_mouse_event p) ++
  write_deque_u8 (kbd_scancode_queue p) ++ write_deque_u8 (mouse_byte_queue p) ++
  write_pod u64c (last_kbd_byte_time p) ++ write_pod u64c (last_mouse_byte_time p) ++
  write_pod u8c (ps2_kbd_scan_set p) ++ write_pod u8c (ps2_mouse_buttons p) ++
  write_pod u8c (pending_kbd_cmd p) ++ write_pod boolean (pending_kbd_arg p) ++
  write_pod boolean (kbd_host_busy p) ++ write_pod boolean (kbd_host_clear_pending p).

Definition milestone_bytes (h : Harness Core) : list Z :=
  write_vector_u64 (screen_check_cycles h) ++ write_pod index (next_screen_check h) ++
  write_flags (boot_pages_seen h) ++
  write_pod boolean (saw_first_instruction h) ++ write_pod boolean (saw_post h) ++
  write_pod boolean (saw_video_sync (video h)) ++ write_pod boolean (saw_boot_sector h) ++
  write_pod boolean (saw_post_boot_exec h) ++ write_pod boolean (saw_boot_menu_text h) ++
  write_pod boolean (saw_nonblack_pixel (video h)) ++ write_pod u32c (boot_page_logs h).

Definition monitor_bytes (h : Harness Core) : list Z :=
  write_pod boolean (prev_vs (video h)) ++ write_pod boolean (prev_hs (video h)) ++
  write_pod boolean (prev_de (video h)) ++ write_pod boolean (bios_dbg_wr_prev h) ++
  write_pod u8c (last_post h) ++ write_pod boolean (have_post h) ++
  write_pod boolean (mouse_captured h) ++ write_pod u64c (last_title_sim_time h) ++
  write_pod (signed 4) (resolution_x (video h)) ++ write_pod (signed 4) (resolution_y (video h)) ++
  write_pod u64c (next_console_text_check h) ++ write_string (last_console_text h).

Context (fs_read : list Z -> option (list Z)) (fs_stat : list Z -> option (Z * Z)).

Definition write_harness (h : Harness Core) : list Z :=
  write_pod u32c 0x5A434B50 ++ write_pod u32c 6 ++
  sim_bytes (sim h) ++ ps2_bytes (ps2 h) ++ milestone_bytes h ++ monitor_bytes h ++
  save fs_read fs_stat (ide0 h) ++ save fs_read fs_stat (ide1 h).

(** ** [read_harness], for each of the versions it accepts *)

Definition load_ddr : Loader Ddr :=
  load_vector_u8 ddram_mem ;;; load_pod boolean ddram_resp_valid ;;; load_pod u64c ddram_resp_data.

Definition load_sim (version : Z) : Loader (Sim Core) :=
  load_pod u64c sim_time ;;; load_pod u64c current_cycle ;;; load_pod boolean posedge ;;;
  (if 4 <=? version then load_pod u32c audio_clock_accum ;;; load_pod u32c audio_sample_accum
   else assign (fun s => s <| audio_clock_accum := 0 |> <| audio_sample_accum := 0 |>)) ;;;
  load_sub ddr load_ddr ;;;
  load_if (5 <=? version) (load_sub ddr (load_vector_u8 fb_mem) ;;; load_pods pixel fb_palette) ;;;
  (if 6 <=? version then load_vector_u8 zsst_mem
   else assign (fun s => s <| zsst_mem := replicate (length (zsst_mem s)) 0 |>)).

Definition load_ps2 (version : Z) : Loader Ps2 :=
  load_events ps2_events ;;; load_pod index next_ps2_event ;;;
  load_if (3 <=? version) (load_events mouse_events ;;; load_pod index next_mouse_event) ;;;
  load_deque_u8 kbd_scancode_queue ;;;
  load_if (2 <=? version) (load_deque_u8 mouse_byte_queue) ;;;
  load_pod u64c last_kbd_byte_time ;;;
  load_if (2 <=? version) (load_pod u64c last_mouse_byte_time) ;;;
  load_pod u8c ps2_kbd_scan_set ;;;
  load_if (2 <=? version) (load_pod u8c ps2_mouse_buttons) ;;;
  load_pod u8c pending_kbd_cmd ;;; load_pod boolean pending_kbd_arg ;;;
  load_pod boolean kbd_host_busy ;;; load_pod boolean kbd_host_clear_pending.

Definition load_milestones : Loader (Harness Core) :=
  load_vector_u64 screen_check_cycles ;;; load_pod index next_screen_check ;;;
  load_flags boot_pages_seen ;;;
  load_pod boolean saw_first_instruction ;;; load_pod boolean saw_post ;;;
  load_sub video (load_pod boolean saw_video_sync) ;;; load_pod boolean saw_boot_sector ;;;
  load_pod boolean saw_post_boot_exec ;;; load_pod boolean saw_boot_menu_text ;;;
  load_sub video (load_pod boolean saw_nonblack_pixel) ;;; load_pod u32c boot_page_logs.

Definition load_monitor (version : Z) : Loader (Harness Core) :=
  load_sub video (load_pod boolean prev_vs ;;; load_pod boolean prev_hs ;;; load_pod boolean prev_de) ;;;
  load_pod boolean bios_dbg_wr_prev ;;; load_pod u8c last_post ;;; load_pod boolean have_post ;;;
  load_if (2 <=? version) (load_pod boolean mouse_captured) ;;;
  load_pod u64c last_title_sim_time ;;;
  load_sub video (load_pod (signed 4) resolution_x ;;; load_pod (signed 4) resolution_y) ;;;
  load_pod u64c next_console_text_check ;;; load_string last_console_text.

Definition read_harness : Loader (Harness Core) := fun h i =>
  '(magic, i) ← read_pod u32c 0 i;
  '(version, i) ← read_pod u32c 0 i;
  if negb (magic =? 0x5A434B50) || ((version <? 1) || (6 <? version)) then Throw
  else
    (load_sub sim (load_sim version) ;;; load_sub ps2 (load_ps2 version) ;;;
     load_milestones ;;; load_monitor version ;;;
     load_sub ide0 (load fs_read fs_stat) ;;; load_sub ide1 (load fs_read fs_stat)) h i.
End Core.

(** ** Round trips of the parts *)

#[export] Instance index_ok : CodecOk index.
Proof.
  constructor; cbn -[le_bytes le_val]; intros.
  - apply length_le_bytes.
  - apply le_bytes_bytes.
  - rewrite le_val_bytes, Z.mod_small by lia. by rewrite Nat2Z.id.
Qed.

#[export] Instance pixel_ok : CodecOk pixel.
Proof.
  constructor.
  - intros p. cbn -[le_bytes]. by rewrite !length_app, !length_le_bytes.
  - intros p. cbn -[le_bytes]. repeat apply bytes_app; apply le_bytes_bytes.
  - intros [a b g r]. unfold c_valid, pixel, is_u8. cbn -[le_bytes]. intros (Ha & Hb & Hg & Hr).
    cbn. by rewrite !u8_id.
Qed.

Lemma size_u64 {A} (l : list A) :
  Z.of_nat (length l) < 18446744073709551616 ->
  c_valid u64c (u64 (Z.of_nat (length l))) /\ Z.to_nat (u64 (Z.of_nat (length l))) = length l.
Proof. intros. split; [apply valid_u64, u64_range|]. rewrite u64_id by (unfold is_u64; lia). apply Nat2Z.id. Qed.

Lemma read_vector_u64_write old l rest :
  Z.of_nat (length l) < 18446744073709551616 -> Forall is_u64 l ->
  read_vector_u64 old (stream (write_vector_u64 l ++ rest)) = Ok (l, stream rest).
Proof.
  intros Hn Hl. destruct (size_u64 l Hn) as [Hv Hs]. unfold read_vector_u64, write_vector_u64.
  rewrite <- app_assoc, (read_pod_write u64c) by done. cbn [mbind Result_bind]. rewrite Hs.
  apply (read_pods_write u64c); [|by rewrite length_resize].
  eapply Forall_impl; [exact Hl|]. intros; by apply valid_u64.
Qed.

Lemma read_deque_u8_write l rest :
  Z.of_nat (length l) < 18446744073709551616 -> bytes l ->
  read_deque_u8 (stream (write_deque_u8 l ++ rest)) = Ok (l, stream rest).
Proof.
  intros Hn Hl. destruct (size_u64 l Hn) as [Hv Hs]. unfold read_deque_u8, write_deque_u8.
  rewrite <- app_assoc, (read_pod_write u64c) by done. cbn [mbind Result_bind]. rewrite Hs.
  apply (read_pods_write u8c); [|by rewrite length_replicate].
  eapply Forall_impl; [exact Hl|]. intros; by apply valid_u8.
Qed.

(** Events a checkpoint can represent. *)
Definition event_fits (e : ScheduledPs2Bytes) : Prop :=
  is_u64 (ev_cycle e) /\ Z.of_nat (length (ev_bytes e)) < 18446744073709551616.

Lemma read_event_write old e rest :
  event_fits e -> read_event old (stream (write_event e ++ rest)) = Ok (e, stream rest).
Proof.
  intros [Hc Hb]. unfold read_event, write_event. rewrite <- app_assoc.
  rewrite (read_pod_write u64c) by by apply valid_u64. cbn [mbind Result_bind].
  rewrite read_vector_u8_write by done. by destruct e.
Qed.

Lemma read_events_write l : forall old rest,
  Forall event_fits l -> length old = length l ->
  read_events old (stream (concat (map write_event l) ++ rest)) = Ok (l, stream rest).
Proof.
  induction l as [|e l IH]; intros [|o old] rest Hl Ho; try done.
  inversion_clear Hl. cbn [read_events map concat]. rewrite <- app_assoc, read_event_write by done.
  cbn [mbind Result_bind]. rewrite IH; [done|done|]. cbn in Ho. lia.
Qed.

Lemma read_scheduled_events_write old l rest :
  Z.of_nat (length l) < 18446744073709551616 -> Forall event_fits l ->
  read_scheduled_events old (stream (write_scheduled_events l ++ rest)) = Ok (l, stream rest).
Proof.
  intros Hn Hl. destruct (size_u64 l Hn) as [Hv Hs]. unfold read_scheduled_events, write_scheduled_events.
  rewrite <- app_assoc, (read_pod_write u64c) by done. cbn [mbind Result_bind]. rewrite Hs.
  apply read_events_write; [done|by rewrite length_resize].
Qed.

Lemma read_flags_write l rest :
  read_flags (length l) (stream (write_flags l ++ rest)) = Ok (l, stream rest).
Proof.
  induction l as [|b l IH]; [done|]. cbn [length read_flags]. unfold write_flags. cbn [map concat].
  rewrite <- app_assoc, (read_pod_write u8c) by (apply valid_u8; destruct b; cbn; width).
  cbn [mbind Result_bind]. fold (write_flags l). rewrite IH. by destruct b.
Qed.

Section Loads.
Context {S : Type}.

Lemma loads_vector_u64 (proj : S -> list Z) {St : Setter (E := list Z) proj} s v :
  Z.of_nat (length v) < 18446744073709551616 -> Forall is_u64 v ->
  loads (load_vector_u64 proj) s (write_vector_u64 v) (set_field (proj := proj) (fun _ => v) s).
Proof. intros Hn Hv rest. unfold load_vector_u64. by rewrite read_vector_u64_write. Qed.

Lemma loads_deque_u8 (proj : S -> list Z) {St : Setter (E := list Z) proj} s v :
  Z.of_nat (length v) < 18446744073709551616 -> bytes v ->
  loads (load_deque_u8 proj) s (write_deque_u8 v) (set_field (proj := proj) (fun _ => v) s).
Proof. intros Hn Hv rest. unfold load_deque_u8. by rewrite read_deque_u8_write. Qed.

Lemma loads_events (proj : S -> list ScheduledPs2Bytes) {St : Setter (E := list ScheduledPs2Bytes) proj} s v :
  Z.of_nat (length v) < 18446744073709551616 -> Forall event_fits v ->
  loads (load_events proj) s (write_scheduled_events v) (set_field (proj := proj) (fun _ => v) s).
Proof. intros Hn Hv rest. unfold load_events. by rewrite read_scheduled_events_write. Qed.

Lemma loads_flags (proj : S -> list bool) {St : Setter (E := list bool) proj} s v :
  length (proj s) = length v ->
  loads (load_flags proj) s (write_flags v) (set_field (proj := proj) (fun _ => v) s).
Proof. intros Hl rest. unfold load_flags. by rewrite Hl, read_flags_write. Qed.
End Loads.

(** Closes the side conditions of the lemmas above. *)
Ltac fits := first [assumption | apply valid_u64; assumption | apply valid_u32; assumption
  | apply valid_u8; assumption | apply valid_i32; assumption | exact I | apply _].

(** One member at a time; conditionals of the format are decided first. *)
Ltac load_member :=
  lazymatch goal with
  | |- loads (load_pod _ _) _ _ _ => apply loads_pod; [apply _|fits]
  | |- loads (load_pods _ _) _ _ _ => apply loads_pods; [apply _|fits|assumption]
  | |- loads (load_vector_u8 _) _ _ _ => apply loads_vector_u8; fits
  | |- loads (load_vector_u64 _) _ _ _ => apply loads_vector_u64; fits
  | |- loads (load_deque_u8 _) _ _ _ => apply loads_deque_u8; fits
  | |- loads (load_events _) _ _ _ => apply loads_events; fits
  | |- loads (load_string _) _ _ _ => apply loads_string; fits
  | |- loads (load_flags _) _ _ _ => apply loads_flags; assumption
  end.
Ltac load_members := repeat (eapply loads_seq; [load_member|]); try load_member.

(** ** The members of each part *)

(** What the widths of the C++ types guarantee of the saved state. *)
Record sim_fits {Core} (s : Sim Core) : Prop := mkSimFits {
  sf_time : is_u64 (sim_time s);
  sf_cycle : is_u64 (current_cycle s);
  sf_clock : is_u32 (audio_clock_accum s);
  sf_sample : is_u32 (audio_sample_accum s);
  sf_ddram : Z.of_nat (length (ddram_mem (ddr s))) < 18446744073709551616;
  sf_resp : is_u64 (ddram_resp_data (ddr s));
  sf_fb : Z.of_nat (length (fb_mem (ddr s))) < 18446744073709551616;
  sf_palette : length (fb_palette s) = 256%nat;
  sf_pixels : Forall (c_valid pixel) (fb_palette s);
  sf_zsst : Z.of_nat (length (zsst_mem s)) < 18446744073709551616
}.

Record ps2_fits (p : Ps2) : Prop := mkPs2Fits {
  pf_ps2_size : Z.of_nat (length (ps2_events p)) < 18446744073709551616;
  pf_ps2_events : Forall event_fits (ps2_events p);
  pf_next_ps2 : c_valid index (next_ps2_event p);
  pf_mouse_size : Z.of_nat (length (mouse_events p)) < 18446744073709551616;
  pf_mouse_events : Forall event_fits (mouse_events p);
  pf_next_mouse : c_valid index (next_mouse_event p);
  pf_kbd_size : Z.of_nat (length (kbd_scancode_queue p)) < 18446744073709551616;
  pf_kbd : bytes (kbd_scancode_queue p);
  pf_bytes_size : Z.of_nat (length (mouse_byte_queue p)) < 18446744073709551616;
  pf_bytes : bytes (mouse_byte_queue p);
  pf_kbd_time : is_u64 (last_kbd_byte_time p);
  pf_mouse_time : is_u64 (last_mouse_byte_time p);
  pf_scan_set : is_u8 (ps2_kbd_scan_set p);
  pf_buttons : is_u8 (ps2_mouse_buttons p);
  pf_cmd : is_u8 (pending_kbd_cmd p)
}.

Record harness_fits {Core} (h : Harness Core) : Prop := mkHarnessFits {
  hf_sim : sim_fits (sim h);
  hf_ps2 : ps2_fits (ps2 h);
  hf_checks_size : Z.of_nat (length (screen_check_cycles h)) < 18446744073709551616;
  hf_checks : Forall is_u64 (screen_check_cycles h);
  hf_next_check : c_valid index (next_screen_check h);
  hf_pages : length (boot_pages_seen h) = 256%nat;
  hf_page_logs : is_u32 (boot_page_logs h);
  hf_post : is_u8 (last_post h);
  hf_title : is_u64 (last_title_sim_time h);
  hf_res_x : -2147483648 <= resolution_x (video h) < 2147483648;
  hf_res_y : -2147483648 <= resolution_y (video h) < 2147483648;
  hf_text_check : is_u64 (next_console_text_check h);
  hf_text : Z.of_nat (length (last_console_text h)) < 4294967296;
  hf_ide0 : ide_ok (ide0 h);
  hf_ide1 : ide_ok (ide1 h);
  hf_image0 : checkpointable (ide0 h);
  hf_image1 : checkpointable (ide1 h)
}.

(** The saved members of [s] in [s0]. *)
Definition with_ddr (d d0 : Ddr) : Ddr :=
  d0 <| ddram_mem := ddram_mem d |> <| ddram_resp_valid := ddram_resp_valid d |>
     <| ddram_resp_data := ddram_resp_data d |> <| fb_mem := fb_mem d |>.

Definition with_sim {Core} (s s0 : Sim Core) : Sim Core :=
  s0 <| sim_time := sim_time s |> <| current_cycle := current_cycle s |> <| posedge := posedge s |>
     <| audio_clock_accum := audio_clock_accum s |> <| audio_sample_accum := audio_sample_accum s |>
     <| ddr := with_ddr (ddr s) (ddr s0) |> <| fb_palette := fb_palette s |> <| zsst_mem := zsst_mem s |>.

Lemma sim_round_trip {Core} (s s0 : Sim Core) :
  sim_fits s -> length (fb_palette s0) = 256%nat ->
  loads (load_sim 6) s0 (sim_bytes s) (with_sim s s0).
Proof.
  intros [] Hp0. assert (Hlen : length (fb_palette s0) = length (fb_palette s)) by congruence.
  unfold load_sim, load_if, sim_bytes. cbn [Z.leb Z.compare Pos.compare Pos.compare_cont].
  eapply loads_eq.
  { do 3 (eapply loads_seq; [load_member|]).
    rewrite (app_assoc (write_pod u32c _)). eapply loads_seq; [load_members|].
    rewrite (app_assoc (write_pod boolean _)), (app_assoc (write_vector_u8 (ddram_mem _))).
    eapply loads_seq; [apply loads_sub; unfold load_ddr; load_members|].
    rewrite (app_assoc (write_vector_u8 (fb_mem _))).
    eapply loads_seq; [eapply loads_seq; [apply loads_sub; load_member|load_member]|load_member]. }
  by destruct s as [??? []], s0 as [??? []].
Qed.

Lemma ps2_round_trip p p0 : ps2_fits p -> loads (load_ps2 6) p0 (ps2_bytes p) p.
Proof.
  intros []. unfold load_ps2, load_if, ps2_bytes. cbn [Z.leb Z.compare Pos.compare Pos.compare_cont].
  eapply loads_eq.
  { do 2 (eapply loads_seq; [load_member|]).
    rewrite (app_assoc (write_scheduled_events _) (write_pod index _)).
    eapply loads_seq; [load_members|]. load_members. }
  by destruct p, p0.
Qed.

Section Members.
Context {Core : Type}.

Definition with_milestones (h h0 : Harness Core) : Harness Core :=
  h0 <| screen_check_cycles := screen_check_cycles h |> <| next_screen_check := next_screen_check h |>
     <| boot_pages_seen := boot_pages_seen h |> <| saw_first_instruction := saw_first_instruction h |>
     <| saw_post := saw_post h |> <| saw_boot_sector := saw_boot_sector h |>
     <| saw_post_boot_exec := saw_post_boot_exec h |> <| saw_boot_menu_text := saw_boot_menu_text h |>
     <| boot_page_logs := boot_page_logs h |>
     <| video := video h0 <| saw_video_sync := saw_video_sync (video h) |>
                          <| saw_nonblack_pixel := saw_nonblack_pixel (video h) |> |>.

Definition with_monitor (h h0 : Harness Core) : Harness Core :=
  h0 <| bios_dbg_wr_prev := bios_dbg_wr_prev h |> <| last_post := last_post h |>
     <| have_post := have_post h |> <| mouse_captured := mouse_captured h |>
     <| last_title_sim_time := last_title_sim_time h |>
     <| next_console_text_check := next_console_text_check h |>
     <| last_console_text := last_console_text h |>
     <| video := video h0 <| prev_vs := prev_vs (video h) |> <| prev_hs := prev_hs (video h) |>
                          <| prev_de := prev_de (video h) |> <| resolution_x := resolution_x (video h) |>
                          <| resolution_y := resolution_y (video h) |> |>.

Lemma milestones_round_trip (h h0 : Harness Core) :
  harness_fits h -> length (boot_pages_seen h0) = 256%nat ->
  loads load_milestones h0 (milestone_bytes h) (with_milestones h h0).
Proof.
  intros [] Hp0. assert (Hlen : length (boot_pages_seen h0) = length (boot_pages_seen h)) by congruence.
  unfold load_milestones, milestone_bytes. eapply loads_eq.
  { do 5 (eapply loads_seq; [load_member|]).
    eapply loads_seq; [apply loads_sub; load_member|].
    do 3 (eapply loads_seq; [load_member|]).
    eapply loads_seq; [apply loads_sub; load_member|load_member]. }
  destruct h as [????? []], h0 as [????? []]. reflexivity.
Qed.

Lemma monitor_round_trip (h h0 : Harness Core) :
  harness_fits h -> loads (load_monitor 6) h0 (monitor_bytes h) (with_monitor h h0).
Proof.
  intros []. unfold load_monitor, load_if, monitor_bytes. cbn [Z.leb Z.compare Pos.compare Pos.compare_cont].
  eapply loads_eq.
  { rewrite (app_assoc (write_pod boolean (prev_hs _))), (app_assoc (write_pod boolean (prev_vs _))).
    eapply loads_seq; [apply loads_sub; load_members|].
    do 5 (eapply loads_seq; [load_member|]).
    rewrite (app_assoc (write_pod (signed 4) _)).
    eapply loads_seq; [apply loads_sub; load_members|load_members]. }
  destruct h as [????? []], h0 as [????? []]. reflexivity.
Qed.

(** What a restored harness is: the saved one, but for the members that the
    format does not hold and that stay as they are in the restoring program:
    the model with its ports (restored by Verilator from its own file), the
    recording, the dropout detector, the wait-request injection, the picture
    buffers and counters, and each device's jitter delay. *)
Definition restored (h h0 : Harness Core) : Harness Core :=
  h <| sim := with_sim (sim h) (sim h0) |>
    <| video := video (with_monitor h (with_milestones h h0)) |>
    <| ide0 := ide0 h <| jitter_delay_ := jitter_delay_ (ide0 h0) |> |>
    <| ide1 := ide1 h <| jitter_delay_ := jitter_delay_ (ide1 h0) |> |>.

(** The restoring program: its arrays have their declared sizes and its devices
    are well formed. *)
Definition harness_ready (h0 : Harness Core) : Prop :=
  length (fb_palette (sim h0)) = 256%nat /\ length (boot_pages_seen h0) = 256%nat /\
  ide_ok (ide0 h0) /\ ide_ok (ide1 h0).

Context (fs_read : list Z -> option (list Z)) (fs_stat : list Z -> option (Z * Z)).
Context (Hstat : forall p size mtime, fs_stat p = Some (size, mtime) ->
  0 <= size < 9223372036854775808 /\ -9223372036854775808 <= mtime < 9223372036854775808).

Lemma loads_device s s0 :
  ide_ok s -> ide_ok s0 -> checkpointable s ->
  loads (load fs_read fs_stat) s0 (save fs_read fs_stat s) (s <| jitter_delay_ := jitter_delay_ s0 |>).
Proof. intros Hs Hs0 Hc rest. by apply load_save. Qed.

Lemma parts_round_trip (h h0 : Harness Core) :
  harness_fits h -> harness_ready h0 ->
  loads (load_sub sim (load_sim 6) ;;; load_sub ps2 (load_ps2 6) ;;;
         load_milestones ;;; load_monitor 6 ;;;
         load_sub ide0 (load fs_read fs_stat) ;;; load_sub ide1 (load fs_read fs_stat)) h0
    (sim_bytes (sim h) ++ ps2_bytes (ps2 h) ++ milestone_bytes h ++ monitor_bytes h ++
     save fs_read fs_stat (ide0 h) ++ save fs_read fs_stat (ide1 h))
    (restored h h0).
Proof.
  intros Hf (Hpal & Hpages & Hi0 & Hi1). eapply loads_eq.
  { eapply loads_seq; [apply loads_sub, sim_round_trip; [apply Hf|exact Hpal]|].
    eapply loads_seq; [apply loads_sub, ps2_round_trip, Hf|].
    eapply loads_seq; [by apply milestones_round_trip|].
    eapply loads_seq; [by apply monitor_round_trip|].
    eapply loads_seq.
    - apply loads_sub, loads_device; [apply Hf|exact Hi0|apply Hf].
    - apply loads_sub, loads_device; [apply Hf|exact Hi1|apply Hf]. }
  unfold restored. destruct h, h0. reflexivity.
Qed.

(** Reading back what was written. *)
Lemma read_write_harness (h h0 : Harness Core) rest :
  harness_fits h -> harness_ready h0 ->
  read_harness fs_read fs_stat h0 (stream (write_harness fs_read fs_stat h ++ rest)) =
    Ok (restored h h0, stream rest).
Proof.
  intros Hf Hr. unfold read_harness, write_harness. rewrite <- !(app_assoc (write_pod _ _)).
  rewrite (read_pod_write u32c) by (apply valid_u32; width). cbn [mbind Result_bind].
  rewrite (read_pod_write u32c) by (apply valid_u32; width). cbn [mbind Result_bind].
  cbn [Z.eqb Z.ltb Z.compare Pos.eqb Pos.compare Pos.compare_cont negb orb].
  by apply parts_round_trip.
Qed.

(** C5: a checkpoint of the harness restores it.  Reading back what
    [write_harness] wrote gives every saved member its value - clock, memories,
    palette, scheduled events and their cursors, queues, milestones, console
    text, both IDE devices with their media - leaves the members outside the
    format as they were, and consumes exactly what was written. *)
Theorem harness_round_trip (h h0 : Harness Core) rest :
  harness_fits h -> harness_ready h0 ->
  read_harness fs_read fs_stat h0 (stream (write_harness fs_read fs_stat h ++ rest)) =
    Ok (restored h h0, stream rest).
Proof. apply read_write_harness. Qed.
End Members.

(** ** A run with pending input and a changed disk *)

Definition small_sim (mem : list Z) (cycle : Z) : Sim unit :=
  mkSim tt (mkCoreIn false false false false 0) idle_out
    (mkDdr mem mem true 0x1122334455667788 0 1 0 0 0x9E3779B97F4A7C15 false 0 false false false false 0 0 0)
    mem (replicate 256 black) 1200 77 [] flatline_init cycle true (2 * cycle).

Definition demo_video (n : Z) : Video := mkVideo [] [] 3 4 5 6 7 n 400 true true true 0 0 false true false.

Definition saved_harness : Harness unit :=
  mkHarness (small_sim [1; 2; 3; 4; 5; 6; 7; 8] 5000000)
    (mkPs2 [mkEvent 6000000 [0x1C; 0xF0; 0x1C]] 0 [] 0 [0xAA] [] 4900000 0 2 1 0xED true false true)
    [7000000; 8000000] 1 (replicate 256 true) (demo_video 640) true true true false false 32 false 0x55 true
    false 123456 9000000 [0x43; 0x3A; 0x5C] changed_disk (HpsIde_new 1 0xF100).

Definition fresh_harness : Harness unit :=
  mkHarness (small_sim [0; 0] 0) ps2_init [] 0 (replicate 256 false) (demo_video 720) false false false false
    false 0 false 0 false false 0 0 [] (HpsIde_new 0 0xF000) (HpsIde_new 1 0xF100).

Ltac plain_fits := first [reflexivity | unfold is_u64, is_u32, is_u8; cbn; lia].

Lemma saved_sim_fits : sim_fits (small_sim [1; 2; 3; 4; 5; 6; 7; 8] 5000000).
Proof.
  constructor; try plain_fits.
  apply Forall_replicate. unfold c_valid, pixel, black, is_u8. cbn. lia.
Qed.

Lemma saved_harness_fits : harness_fits saved_harness.
Proof.
  constructor; try plain_fits.
  - exact saved_sim_fits.
  - constructor; try plain_fits;
      repeat first [apply Forall_nil; exact I | apply Forall_cons; split; [split; plain_fits|]
                   | apply bytes_cons; [width|] | apply bytes_nil].
  - repeat (apply Forall_cons; split; [plain_fits|]). by apply Forall_nil.
  - exact changed_disk_ok.
  - exact (new_ok 1 0xF100).
  - exact changed_disk_checkpointable.
  - unfold checkpointable. split_and?; vm_compute; reflexivity.
Qed.

Lemma harness_round_trip_witness :
  read_harness base_files base_stat fresh_harness
    (stream (write_harness base_files base_stat saved_harness ++ [7])) =
    Ok (restored saved_harness fresh_harness, stream [7]).
Proof.
  apply (harness_round_trip base_files base_stat base_stat_ok saved_harness fresh_harness [7]).
  - exact saved_harness_fits.
  - split; [reflexivity|]. split; [reflexivity|]. split; [exact (new_ok 0 0xF000)|exact (new_ok 1 0xF100)].
Defined.
