(* ===== verification/CosimMem.v ===== *)
(** * The reference's physical memory and paging

    The co-simulation reference's RAM and address map of
    verilator/cosim/cosim86.c: [platform_phys], [ram32], the two-level page walk
    [walk], [iss_probe], [peek_lin], [in_ram], and the writes z486's other
    masters make ([cosim_dma_write], [cosim_walker_write]). *)
From S2P Require Import Prelude.

Definition DEV_LO : Z := 0x000A0000.
Definition DEV_HI : Z := 0x000C0000.
Definition BIOS_ALIAS : Z := 0xFFFC0000.
Definition BIOS_MIRROR : Z := 0x00FC0000.

(** ** RAM *)

Record Ram := mkRam {
  ram : list Z;          (* calloc(pow2) *)
  ram_bytes : Z;         (* uint32_t *)
  rammask : Z            (* uint32_t *)
}.

(** The doubling loop of [cosim_init]: the least power of two that is not less;
    [fuel] bounds the doublings. *)
Fixpoint next_pow2 (fuel : nat) (pow2 bytes : Z) : Z :=
  match fuel with
  | O => pow2
  | S fuel => if pow2 <? bytes then next_pow2 fuel (u32 (Z.shiftl pow2 1)) bytes else pow2
  end.

Definition cosim_init_ram (bytes : Z) : Ram :=
  let pow2 := next_pow2 32 1 bytes in
  mkRam (replicate (Z.to_nat pow2) 0) bytes (u32 (pow2 - 1)).

Definition ram_get (m : Ram) (a : Z) : Z := znth 0 (ram m) (Z.land a (rammask m)).

Definition ram_set (m : Ram) (a v : Z) : Ram :=
  mkRam (<[Z.to_nat (Z.land a (rammask m)) := v]> (ram m)) (ram_bytes m) (rammask m).

Definition ram32 (m : Ram) (a : Z) : Z :=
  Z.lor (Z.lor (Z.lor (ram_get m a) (Z.shiftl (ram_get m (u32 (a + 1))) 8))
    (Z.shiftl (ram_get m (u32 (a + 2))) 16)) (Z.shiftl (ram_get m (u32 (a + 3))) 24).

(** ** The physical map *)

Definition platform_phys (a20_on : bool) (phys : Z) : Z :=
  let phys := if a20_on then phys else Z.land phys 0xFFEFFFFF in
  if BIOS_ALIAS <=? phys then BIOS_MIRROR + Z.land phys 0x3FFFF else phys.

Definition in_ram (m : Ram) (phys : Z) : bool :=
  (phys <? ram_bytes m) && negb ((DEV_LO <=? phys) && (phys <? DEV_HI)) && negb (Z.shiftr phys 18 =? 3).

Definition cosim_dma_write (m : Ram) (phys val : Z) : Ram :=
  if phys <? ram_bytes m then ram_set m phys val else m.

Definition cosim_walker_write (a20_on : bool) (m : Ram) (phys val : Z) : Ram :=
  let phys := platform_phys a20_on phys in
  if phys <? ram_bytes m then ram_set m phys val else m.

(** ** Paging *)

(** The CPU state a page walk reads and writes. *)
Record Cpu := mkCpu {
  cr0 : Z; cr2 : Z; cr3 : Z;
  cpl : Z;
  cpl_override : bool;
  a20_on : bool;
  code_fetch : bool;     (* [iss_code_fetch || read_type == 1] *)
  abrt : option Z;       (* [cpu_state.abrt]: a pending exception *)
  abrt_error : Z
}.

#[export] Instance eta_Cpu : Eta Cpu :=
  fun r => mkCpu (cr0 r) (cr2 r) (cr3 r) (cpl r) (cpl_override r) (a20_on r) (code_fetch r) (abrt r)
    (abrt_error r).

Definition ABRT_PF : Z := 14.

(** The walk proper: the physical address, or the error code of a page fault. *)
Definition walk_entry (c : Cpu) (m : Ram) (lin : Z) (write : bool) : Z + Z :=
  if Z.land (cr0 c) 0x80000000 =? 0 then inl (platform_phys (a20_on c) lin)
  else
    let user := (cpl c =? 3) && negb (cpl_override c) in
    let err_code := Z.lor (if write then 2 else 0) (if user then 4 else 0) in
    let pde := ram32 m (u32 (Z.land (cr3 c) 0xFFFFF000 + Z.shiftl (Z.shiftr lin 22) 2)) in
    if Z.land pde 1 =? 0 then inr err_code
    else
      let pte := ram32 m (u32 (Z.land pde 0xFFFFF000 + Z.shiftl (Z.land (Z.shiftr lin 12) 0x3FF) 2)) in
      if Z.land pte 1 =? 0 then inr err_code
      else
        let err_code := Z.lor err_code 1 in
        if user && (Z.land (Z.land pde pte) 4 =? 0) then inr err_code
        else if write && (user || negb (Z.land (cr0 c) 0x10000 =? 0)) && (Z.land (Z.land pde pte) 2 =? 0)
        then inr err_code
        else inl (platform_phys (a20_on c) (Z.lor (Z.land pte 0xFFFFF000) (Z.land lin 0xFFF))).

(** [walk(lin, write, 0)] and [walk(lin, write, 1)]. *)
Definition walk (c : Cpu) (m : Ram) (lin : Z) (write : bool) : Z * Cpu :=
  match walk_entry c m lin write with
  | inl phys => (phys, c)
  | inr err_code =>
    (0, c <| cr2 := if code_fetch c then Z.land lin 0xFFFFFFF0 else lin |>
          <| abrt_error := err_code |> <| abrt := Some ABRT_PF |>)
  end.

Definition walk_probe (c : Cpu) (m : Ram) (lin : Z) (write : bool) : Z :=
  match walk_entry c m lin write with inl phys => phys | inr _ => 0xFFFFFFFF end.

Definition peek_lin (c : Cpu) (m : Ram) (lin : Z) : Z :=
  let p := walk_probe c m lin false in
  if (p =? 0xFFFFFFFF) || (ram_bytes m <=? p) then 0xFF else ram_get m p.

(** [iss_probe]: the [for] loop from byte [i] of [n]; the last component is the
    split probe it records ([split_probe_lin], [split_probe_n]). *)
Fixpoint probe_loop (n : nat) (i : Z) (m : Ram) (lin : Z) (write : bool) (c : Cpu) (split : Z * Z) : Cpu * (Z * Z) :=
  match n with
  | O => (c, split)
  | S n =>
    match abrt c with
    | Some _ => (c, split)
    | None =>
      let c := (walk c m (u32 (lin + i)) write).2 in
      let faulted := match abrt c with Some _ => true | None => false end in
      let split := if faulted && write && (0 <? i) && (Z.land (u32 (lin + i)) 0xFFF =? 0) then (lin, i) else split in
      probe_loop n (i + 1) m lin write c split
    end
  end.

Definition iss_probe (m : Ram) (lin : Z) (n : nat) (write : bool) (c : Cpu) (split : Z * Z) : Cpu * (Z * Z) :=
  probe_loop n 0 m lin write c split.

(** ** Lemmas *)

(** A RAM as [cosim_init] makes it. *)
Record ram_ok (m : Ram) : Prop := mkRamOk {
  rok_mask : exists k, 0 <= k <= 31 /\ rammask m = Z.ones k;
  rok_len : Z.of_nat (length (ram m)) = rammask m + 1;
  rok_bytes : 0 < ram_bytes m <= rammask m + 1
}.

Lemma masked m a : ram_ok m -> 0 <= Z.land a (rammask m) < Z.of_nat (length (ram m)).
Proof.
  intros []. destruct rok_mask0 as (k & Hk & E). rewrite rok_len0, E, Z.land_ones, Z.ones_equiv by lia.
  pose proof (Z.mod_pos_bound a (2 ^ k)). assert (0 < 2 ^ k) by (apply Z.pow_pos_nonneg; lia). lia.
Qed.

Lemma mask_id m a : ram_ok m -> 0 <= a < ram_bytes m -> Z.land a (rammask m) = a.
Proof.
  intros [] Ha. destruct rok_mask0 as (k & Hk & E). rewrite E, Z.ones_equiv in rok_bytes0.
  rewrite E, Z.land_ones by lia. apply Z.mod_small. lia.
Qed.

Lemma ram_set_ok m a v : ram_ok m -> ram_ok (ram_set m a v).
Proof. intros []. constructor; cbn; [done|by rewrite length_insert|done]. Qed.

Lemma ram_get_set m a b v :
  ram_ok m -> 0 <= a < ram_bytes m -> 0 <= b < ram_bytes m ->
  ram_get (ram_set m a v) b = if a =? b then v else ram_get m b.
Proof.
  intros Hm Ha Hb. pose proof (masked m a Hm). unfold ram_get, ram_set. cbn [ram rammask].
  rewrite !mask_id in * by done. unfold znth. case_bool.
  - assert (a = b) as -> by lia. unfold zlookup. rewrite (proj2 (Z.leb_le 0 b)) by lia.
    rewrite list_lookup_insert_eq by lia. done.
  - unfold zlookup. destruct (0 <=? b) eqn:E0; [|done]. rewrite list_lookup_insert_ne by lia. done.
Qed.

Lemma in_ram_bound m a : in_ram m a = true -> a < ram_bytes m.
Proof. unfold in_ram. lia. Qed.

Lemma in_ram_set m a v b : in_ram (ram_set m a v) b = in_ram m b.
Proof. done. Qed.
