(* ===== verification/CosimMatch.v ===== *)
(** * Comparing the writes of z486 with the reference's

    The event queues of verilator/cosim/cosim86.c and the comparison of memory
    and I/O writes: [q_push_ev], [wr_hook], [store_byte] (stubs.c), [match_write],
    [match_io], [commit_writes], [drop_step], and the API that feeds them.  When
    no divergence is reported and nothing is outstanding, the two memories are
    equal; order is enforced less strictly than the comments say
    ([order_not_enforced]). *)
From S2P Require Import Prelude CosimMem.

(** ** Queues *)

Record ev_t := mkEv {
  e_addr : Z; e_val : Z; e_done : bool; e_silent : bool; e_fpu : bool; e_grp : Z
}.

#[export] Instance eta_ev : Eta ev_t :=
  fun r => mkEv (e_addr r) (e_val r) (e_done r) (e_silent r) (e_fpu r) (e_grp r).

Definition ev_zero : ev_t := mkEv 0 0 false false false 0.

(** The array of [q_t]; its capacity is the length of [q_v]. *)
Record q_t := mkQ { q_v : list ev_t; q_head : nat; q_tail : nat }.

(** The first allocation of a queue. *)
Definition Q_CAP : nat := Z.to_nat 4096.

(** [memmove], [realloc] (new elements are unspecified; zero here), the store.
    [None] is a store outside the array. *)
Definition q_push_ev (q : q_t) (e : ev_t) : option q_t :=
  let cap := length (q_v q) in
  let q := if (q_tail q =? cap)%nat && (0 <? q_head q)%nat then
             mkQ (take (q_tail q - q_head q) (drop (q_head q) (q_v q)) ++
                  drop (q_tail q - q_head q) (q_v q)) 0 (q_tail q - q_head q)
           else q in
  let q := if (q_tail q =? cap)%nat then
             mkQ (q_v q ++ replicate ((if (cap =? 0)%nat then Q_CAP else cap * 2) - cap) ev_zero) (q_head q) (q_tail q)
           else q in
  if (q_tail q <? length (q_v q))%nat then Some (mkQ (<[q_tail q := e]> (q_v q)) (q_head q) (S (q_tail q)))
  else None.

Definition q_empty (q : q_t) : bool := (q_head q =? q_tail q)%nat.

(** The events of a queue, oldest first: the view that the rest of the model
    keeps of it. *)
Definition q_list (q : q_t) : list ev_t := take (q_tail q - q_head q) (drop (q_head q) (q_v q)).
Definition q_ok (q : q_t) : Prop := (q_head q <= q_tail q <= length (q_v q))%nat.

(** ** The state *)

Inductive Status := COSIM_OK | COSIM_STALL | COSIM_ERROR.

(** The messages of [fail]. *)
Inductive CosimErr :=
| EDevRead (phys next : Z)
| EIoRead (port next : Z)
| EWriteValue (phys val reference grp : Z)
| EWriteOrder (phys val next_addr next_val grp : Z)
| EOut (port val next_port next_val grp : Z)
| EDelivery (vec : Z)
| ETripleFault (vec : Z).

(** stubs.c's log of changed bytes. *)
Record mem_write_t := mkMemWrite { w_addr : Z; w_old : Z; w_new : Z }.
Definition MAX_MEM_LOG : nat := Z.to_nat 4096.

Record Cosim := mkCosim {
  mem : Ram;
  cpu : Cpu;
  err : option CosimErr;
  ninsn : Z;                  (* uint64_t *)
  stall : bool;
  cur_fpu : bool;
  x87_lenient : bool;
  x87_adopted : Z;
  x87_summary : bool;         (* [fpu_state.swd & FPU_SW_Summary] *)
  ignne : bool;
  io_rd : list ev_t; dev_rd : list ev_t;
  io_cur : nat; dev_cur : nat;
  dev_last : Z;
  exp_w : list ev_t; dut_w : list ev_t;
  exp_io : list ev_t; dut_io : list ev_t;
  stage_w : list ev_t; stage_io : list ev_t;
  mem_log : list mem_write_t
}.

#[export] Instance eta_Cosim : Eta Cosim :=
  fun r => mkCosim (mem r) (cpu r) (err r) (ninsn r) (stall r) (cur_fpu r) (x87_lenient r) (x87_adopted r)
    (x87_summary r) (ignne r) (io_rd r) (dev_rd r) (io_cur r) (dev_cur r) (dev_last r) (exp_w r) (dut_w r)
    (exp_io r) (dut_io r) (stage_w r) (stage_io r) (mem_log r).

(** The first error is kept. *)
Definition fail (e : CosimErr) (s : Cosim) : Cosim :=
  match err s with Some _ => s | None => s <| err := Some e |> end.

Definition event (s : Cosim) (addr val grp : Z) : ev_t := mkEv addr val false false (cur_fpu s) grp.

(** ** The reference's writes *)

(** [wr_hook]: stages the write; true when the byte is not stored in RAM. *)
Definition wr_hook (phys v : Z) (s : Cosim) : bool * Cosim :=
  let silent := in_ram (mem s) phys && (ram_get (mem s) phys =? v) in
  let s := s <| stage_w := stage_w s ++ [mkEv phys v false silent (cur_fpu s) 0] |> in
  (((DEV_LO <=? phys) && (phys <? DEV_HI)) || (Z.shiftr phys 18 =? 3) || (ram_bytes (mem s) <=? phys), s).

Definition mem_log_write (addr old_val new_val : Z) (log : list mem_write_t) : list mem_write_t :=
  if old_val =? new_val then log
  else if (length log <? MAX_MEM_LOG)%nat then log ++ [mkMemWrite addr old_val new_val] else log.

Definition store_byte (pa b : Z) (s : Cosim) : Cosim :=
  let '(handled, s) := wr_hook pa b s in
  if handled then s
  else
    let r := Z.land pa (rammask (mem s)) in
    s <| mem_log := mem_log_write r (ram_get (mem s) pa) b (mem_log s) |> <| mem := ram_set (mem s) pa b |>.

(** [io_out]: the bytes of an OUT. *)
Fixpoint io_out_loop (n : nat) (b port val : Z) (s : Cosim) : Cosim :=
  match n with
  | O => s
  | S n =>
    io_out_loop n (b + 1) port val
      (s <| stage_io := stage_io s ++ [event s (u16 (port + b)) (Z.land (Z.shiftr val (8 * b)) 0xFF) 0] |>)
  end.

Definition io_out (port : Z) (size : nat) (val : Z) (s : Cosim) : Cosim :=
  let s := if port =? 0xF0 then s <| ignne := x87_summary s |> else s in
  io_out_loop size 0 port val s.

(** ** Matching *)

Fixpoint drop_done (l : list ev_t) : list ev_t :=
  match l with
  | e :: l' => if e_done e then drop_done l' else l
  | [] => []
  end.

Definition advance_exp (s : Cosim) : Cosim := s <| exp_w := drop_done (exp_w s) |>.

(** The search of the oldest instruction's writes for one at [phys]: the event,
    and the queue with it done. *)
Fixpoint find_write (grp phys : Z) (l : list ev_t) : option (ev_t * list ev_t) :=
  match l with
  | e :: l =>
    if e_grp e =? grp then
      if negb (e_done e) && (e_addr e =? phys) then Some (e, e <| e_done := true |> :: l)
      else '(m, l) ← find_write grp phys l; Some (m, e :: l)
    else None
  | [] => None
  end.

(** The events up to the end of the instruction. *)
Fixpoint group (grp : Z) (l : list ev_t) : list ev_t :=
  match l with
  | e :: l => if e_grp e =? grp then e :: group grp l else []
  | [] => []
  end.

Definition finish_group (grp : Z) (l : list ev_t) : list ev_t :=
  map (fun e => e <| e_done := true |>) (group grp l) ++ drop (length (group grp l)) l.

(** The write reported as the reference's next one. *)
Definition next_write (l : list ev_t) : ev_t :=
  default (default ev_zero (head l)) (head (filter (fun e => e_done e = false /\ e_silent e = false) l)).

Fixpoint match_write (fuel : nat) (phys val : Z) (s : Cosim) : option (Status * Cosim) :=
  let s := advance_exp s in
  match exp_w s with
  | [] => Some (COSIM_OK, s <| dut_w := dut_w s ++ [event s phys val 0] |>)
  | h :: _ =>
    let grp := e_grp h in
    match find_write grp phys (exp_w s) with
    | Some (e, marked) =>
      if negb (e_val e =? val) && negb (x87_lenient s && e_fpu e) then
        Some (COSIM_ERROR, fail (EWriteValue phys val (e_val e) grp) s)
      else
        let s := if e_val e =? val then s
                 else
                   let s := s <| x87_adopted := u64 (x87_adopted s + 1) |> in
                   if in_ram (mem s) phys then s <| mem := ram_set (mem s) phys val |> else s in
        Some (COSIM_OK, advance_exp (s <| exp_w := marked |>))
    | None =>
      if in_ram (mem s) phys && (ram_get (mem s) phys =? val) then Some (COSIM_OK, s)
      else if forallb (fun e => e_done e || e_silent e) (group grp (exp_w s)) then
        match fuel with
        | O => None
        | S fuel => match_write fuel phys val (s <| exp_w := finish_group grp (exp_w s) |>)
        end
      else
        let e := next_write (group grp (exp_w s)) in
        Some (COSIM_ERROR, fail (EWriteOrder phys val (e_addr e) (e_val e) grp) s)
    end
  end.

(** Each round of the loop completes at least one outstanding write. *)
Definition match_write_fuel (s : Cosim) : nat := length (exp_w s).

Definition match_io (port val : Z) (s : Cosim) : Status * Cosim :=
  match exp_io s with
  | [] => (COSIM_OK, s <| dut_io := dut_io s ++ [event s port val 0] |>)
  | e :: l =>
    if negb (e_addr e =? port) || negb (e_val e =? val) then
      (COSIM_ERROR, fail (EOut port val (e_addr e) (e_val e) (e_grp e)) s)
    else (COSIM_OK, s <| exp_io := l |>)
  end.

(** The loops of [commit_writes] over z486's early writes; an error ends them. *)
Fixpoint rematch_writes (pend : list ev_t) (s : Cosim) : option Cosim :=
  match pend with
  | [] => Some s
  | e :: pend =>
    '(r, s) ← match_write (match_write_fuel s) (e_addr e) (e_val e) s;
    match r with COSIM_OK => rematch_writes pend s | _ => Some s end
  end.

Fixpoint rematch_io (pend : list ev_t) (s : Cosim) : Cosim :=
  match pend with
  | [] => s
  | e :: pend =>
    let '(r, s) := match_io (e_addr e) (e_val e) s in
    match r with COSIM_OK => rematch_io pend s | _ => s end
  end.

(** The first part: the step's writes join the expected streams, and the reads
    it consumed leave theirs. *)
Definition committed (s : Cosim) : Cosim :=
  let s := s <| exp_w := exp_w s ++ map (fun e => e <| e_grp := ninsn s |>) (stage_w s) |>
             <| exp_io := exp_io s ++ map (fun e => event s (e_addr e) (e_val e) (ninsn s)) (stage_io s) |> in
  s <| stage_w := [] |> <| stage_io := [] |>
    <| io_rd := drop (io_cur s) (io_rd s) |> <| io_cur := 0%nat |>
    <| dev_rd := drop (dev_cur s) (dev_rd s) |> <| dev_cur := 0%nat |>.

Definition commit_writes (s : Cosim) : option (Status * Cosim) :=
  let s := committed s in
  s ← rematch_writes (dut_w s) (s <| dut_w := [] |>);
  let s := rematch_io (dut_io s) (s <| dut_io := [] |>) in
  Some (match err s with Some _ => COSIM_ERROR | None => COSIM_OK end, s).

Definition drop_step (s : Cosim) : Cosim :=
  s <| stage_w := [] |> <| stage_io := [] |> <| io_cur := 0%nat |> <| dev_cur := 0%nat |>.

(** ** z486's events *)

Definition cosim_dut_write (phys val : Z) (s : Cosim) : option (Status * Cosim) :=
  match_write (match_write_fuel s) (platform_phys (a20_on (cpu s)) phys) val s.

Definition cosim_dut_io_write (port val : Z) (s : Cosim) : Status * Cosim := match_io port val s.

Definition cosim_dut_io_read (port val : Z) (s : Cosim) : Cosim :=
  s <| io_rd := io_rd s ++ [event s port val 0] |>.

Definition cosim_dut_dev_read (phys val : Z) (s : Cosim) : Cosim :=
  s <| dev_rd := dev_rd s ++ [event s phys val 0] |>.

Definition cosim_writes_pending (s : Cosim) : bool * Cosim :=
  let s := advance_exp s in
  (negb (match exp_w s with [] => true | _ => false end) || negb (match exp_io s with [] => true | _ => false end), s).

(** The queues at a CPU reset. *)
Definition reset_queues (s : Cosim) : Cosim :=
  s <| io_rd := [] |> <| dev_rd := [] |> <| exp_w := [] |> <| dut_w := [] |> <| exp_io := [] |>
    <| dut_io := [] |> <| stage_w := [] |> <| stage_io := [] |> <| io_cur := 0%nat |> <| dev_cur := 0%nat |>.

(** ** The array implements a queue *)

Lemma q_push_ev_list q e :
  q_ok q -> exists q', q_push_ev q e = Some q' /\ q_ok q' /\ q_list q' = q_list q ++ [e].
Proof.
  destruct q as [v h t]. unfold q_ok, q_push_ev, q_list. cbn [q_v q_head q_tail]. intros [Hh Ht].
  assert (Hpush : forall v h t, (h <= t < length v)%nat ->
    (h <= S t <= length (<[t := e]> v))%nat /\
    take (S t - h) (drop h (<[t := e]> v)) = take (t - h) (drop h v) ++ [e]).
  { clear. intros v h t H. rewrite length_insert. split; [lia|].
    rewrite drop_insert_ge by lia. replace (S t - h)%nat with (S (t - h)) by lia.
    rewrite (take_S_r _ _ e); [|apply list_lookup_insert_eq; rewrite length_drop; lia].
    by rewrite take_insert_ge by lia. }
  assert (Hfit : forall v h t, (h <= t < length v)%nat ->
    exists q', (if (t <? length v)%nat then Some (mkQ (<[t := e]> v) h (S t)) else None) = Some q' /\
      (q_head q' <= q_tail q' <= length (q_v q'))%nat /\
      take (q_tail q' - q_head q') (drop (q_head q') (q_v q')) = take (t - h) (drop h v) ++ [e]).
  { intros v' h' t' H. rewrite (proj2 (Nat.ltb_lt _ _)) by lia.
    eexists. split; [reflexivity|]. cbn. apply Hpush. lia. }
  destruct (Nat.eqb_spec t (length v)) as [->|Hne]; cbn [andb].
  2: { rewrite (proj2 (Nat.eqb_neq _ _)) by done. apply Hfit. lia. }
  destruct (Nat.ltb_spec 0 h) as [Hpos|Hz].
  - set (v' := take (length v - h) (drop h v) ++ drop (length v - h) v).
    assert (Hlen : length v' = length v).
    { unfold v'. rewrite length_app, length_take, !length_drop. lia. }
    cbn [q_v q_head q_tail]. rewrite (proj2 (Nat.eqb_neq (length v - h) (length v))) by lia.
    replace (take (length v - h) (drop h v)) with (take (length v - h - 0) (drop 0 v')).
    + apply Hfit. lia.
    + rewrite drop_0, Nat.sub_0_r. unfold v'. rewrite take_app_length'; [done|].
      rewrite length_take, length_drop. lia.
  - assert (h = 0%nat) as -> by lia. cbn [q_v q_head q_tail]. rewrite Nat.eqb_refl.
    set (w := v ++ _). assert (Hw : (length v < length w)%nat).
    { unfold w. rewrite length_app, length_replicate. assert (0 < Q_CAP)%nat by (unfold Q_CAP; lia).
      destruct (length v =? 0)%nat eqn:E; lia. }
    replace (take (length v - 0) (drop 0 v)) with (take (length v - 0) (drop 0 w)).
    + apply Hfit. lia.
    + rewrite !drop_0, Nat.sub_0_r. unfold w. by rewrite take_app_length', take_ge by lia.
Qed.

(** ** Outstanding writes *)

(** The writes of a queue at an address that z486 has not matched, with their
    silent marks. *)
Definition undone_at (a : Z) (l : list ev_t) : list (bool * Z) :=
  map (fun e => (e_silent e, e_val e)) (filter (fun e => e_done e = false /\ e_addr e = a) l).

Lemma undone_app a l1 l2 : undone_at a (l1 ++ l2) = undone_at a l1 ++ undone_at a l2.
Proof. unfold undone_at. by rewrite filter_app, map_app. Qed.

Lemma undone_cons a e l :
  undone_at a (e :: l) = (if decide (e_done e = false /\ e_addr e = a) then [(e_silent e, e_val e)] else []) ++ undone_at a l.
Proof. unfold undone_at. rewrite filter_cons. by destruct (decide _). Qed.

Lemma undone_drop_done a l : undone_at a (drop_done l) = undone_at a l.
Proof.
  induction l as [|e l IH]; [done|]. cbn [drop_done]. rewrite undone_cons.
  destruct (e_done e) eqn:E; [|by rewrite undone_cons, E].
  rewrite decide_False by (intros [? _]; congruence). done.
Qed.

Lemma undone_grp a g l : undone_at a (map (fun e => e <| e_grp := g |>) l) = undone_at a l.
Proof.
  induction l as [|e l IH]; [done|]. cbn [map]. rewrite !undone_cons, IH. done.
Qed.

Lemma undone_finished a l : undone_at a (map (fun e => e <| e_done := true |>) l) = [].
Proof. induction l as [|e l IH]; [done|]. cbn [map]. by rewrite undone_cons, IH, decide_False by (intros [? _]; done). Qed.

Lemma group_prefix g l : group g l ++ drop (length (group g l)) l = l.
Proof.
  induction l as [|e l IH]; [done|]. cbn [group]. case_bool; [|done]. cbn. by rewrite IH.
Qed.

(** A match takes the address's oldest outstanding write and nothing else. *)
Lemma find_write_undone g phys l e l' :
  find_write g phys l = Some (e, l') ->
  undone_at phys l = (e_silent e, e_val e) :: undone_at phys l' /\
  (forall a, a <> phys -> undone_at a l' = undone_at a l) /\ length l' = length l.
Proof.
  revert l'. induction l as [|x l IH]; intros l'; [done|]. cbn [find_write].
  destruct (e_grp x =? g); [|done].
  destruct (negb (e_done x) && (e_addr x =? phys)) eqn:E.
  - intros [= <- <-]. apply andb_true_iff in E as [Ed Ea]. apply negb_true_iff in Ed. apply Z.eqb_eq in Ea.
    rewrite !undone_cons, decide_True by done. rewrite decide_False by (intros [? _]; done).
    split; [done|]. split; [|done]. intros a Ha. rewrite !undone_cons.
    rewrite !decide_False; [done|intros [_ ?]; congruence|intros [? _]; done].
  - destruct (find_write g phys l) as [[m k]|]; [|done]. cbn [mbind option_bind].
    intros [= <- <-]. destruct (IH k eq_refl) as (H1 & H2 & H3). cbn [length]. rewrite !undone_cons, H1, H3.
    rewrite decide_False by (intros [Hd Ha]; rewrite Hd, Ha, Z.eqb_refl in E; done).
    split; [done|]. split; [|done]. intros a Ha. by rewrite !undone_cons, (H2 a Ha).
Qed.

(** Completing an instruction whose writes left are silent. *)
Lemma finish_group_undone g l a :
  forallb (fun e => e_done e || e_silent e) (group g l) = true ->
  exists ss, undone_at a l = ss ++ undone_at a (finish_group g l) /\ Forall (fun p => p.1 = true) ss.
Proof.
  intros Hs. exists (undone_at a (group g l)). split.
  - unfold finish_group. rewrite undone_app, undone_finished. cbn [app].
    rewrite <- undone_app. by rewrite group_prefix.
  - unfold undone_at. apply Forall_map, Forall_forall. intros e He.
    apply list_elem_of_filter in He as [[Hd _] He].
    rewrite forallb_forall in Hs. specialize (Hs e). rewrite <- list_elem_of_In, Hd in Hs. by apply Hs.
Qed.

(** ** What the comparison maintains *)

(** z486's memory after writes [ws]; the values written at an address. *)
Definition dut_after (D : Z -> Z) (ws : list (Z * Z)) : Z -> Z :=
  foldl (fun D w a => if a =? w.1 then w.2 else D a) D ws.

Definition vals_at (a : Z) (ws : list (Z * Z)) : list Z := map snd (filter (fun w => w.1 = a) ws).

(** z486's writes waiting for the reference. *)
Definition early (s : Cosim) : list (Z * Z) := map (fun e => (e_addr e, e_val e)) (dut_w s).

Definition outstanding (a : Z) (s : Cosim) : list (bool * Z) := undone_at a (exp_w s ++ stage_w s).

(** [done]: z486's writes taken so far; [refs]: the reference's. *)
Record compared (D : Z -> Z) (refs done : list (Z * Z)) (s : Cosim) : Prop := mkCompared {
  c_ram : ram_ok (mem s);
  c_err : err s = None;
  c_strict : x87_lenient s = false;
  c_early : dut_w s <> [] -> drop_done (exp_w s) = [];
  (* a byte with no changing write outstanding is the same on both sides *)
  c_equal : forall a, 0 <= a -> in_ram (mem s) a = true ->
    Forall (fun p => p.1 = true) (outstanding a s) -> dut_after D done a = ram_get (mem s) a;
  (* a write that only silent ones follow has the byte's final value *)
  c_last : forall a ps p ps', 0 <= a -> in_ram (mem s) a = true -> outstanding a s = ps ++ p :: ps' ->
    Forall (fun p => p.1 = true) ps' -> p.2 = ram_get (mem s) a;
  (* elsewhere every write is compared *)
  c_device : forall a, in_ram (mem s) a = false ->
    vals_at a done ++ map snd (outstanding a s) = vals_at a refs;
  c_silent : forall a, in_ram (mem s) a = false -> Forall (fun p => p.1 = false) (outstanding a s)
}.

Lemma dut_after_snoc D ws w a :
  dut_after D (ws ++ [w]) a = if a =? w.1 then w.2 else dut_after D ws a.
Proof. unfold dut_after. by rewrite foldl_app. Qed.

Lemma vals_at_snoc a ws w : vals_at a (ws ++ [w]) = vals_at a ws ++ (if decide (w.1 = a) then [w.2] else []).
Proof.
  unfold vals_at. rewrite filter_app, map_app, filter_cons. by destruct (decide (w.1 = a)).
Qed.

Lemma undone_snoc a l e :
  undone_at a (l ++ [e]) = undone_at a l ++ (if decide (e_done e = false /\ e_addr e = a) then [(e_silent e, e_val e)] else []).
Proof. rewrite undone_app, (undone_cons a e []). by rewrite app_nil_r. Qed.

(** [wr_hook] keeps from RAM exactly what is not RAM. *)
Lemma wr_hook_eq phys v s :
  wr_hook phys v s = (negb (in_ram (mem s) phys),
    s <| stage_w := stage_w s ++ [mkEv phys v false (in_ram (mem s) phys && (ram_get (mem s) phys =? v)) (cur_fpu s) 0] |>).
Proof. unfold wr_hook. f_equal. unfold in_ram. cbn. lia. Qed.

(** A write of the reference: the RAM after it, and its event staged. *)
Definition ref_write (pa b : Z) (s : Cosim) : Ram :=
  if in_ram (mem s) pa then ram_set (mem s) pa b else mem s.

Lemma store_byte_eq pa b s :
  exists log, store_byte pa b s =
    s <| stage_w := stage_w s ++
           [mkEv pa b false (in_ram (mem s) pa && (ram_get (mem s) pa =? b)) (cur_fpu s) 0] |>
      <| mem := ref_write pa b s |> <| mem_log := log |>.
Proof.
  unfold store_byte, ref_write. rewrite wr_hook_eq. destruct (in_ram (mem s) pa); cbn [negb].
  - eexists. reflexivity.
  - exists (mem_log s). by destruct s.
Qed.

Lemma outstanding_store a pa b s :
  outstanding a (store_byte pa b s) =
    outstanding a s ++
    (if decide (pa = a) then [(in_ram (mem s) pa && (ram_get (mem s) pa =? b), b)] else []).
Proof.
  destruct (store_byte_eq pa b s) as [log E]. unfold outstanding.
  assert (exp_w (store_byte pa b s) = exp_w s) as -> by (by rewrite E).
  assert (stage_w (store_byte pa b s) = stage_w s ++
    [mkEv pa b false (in_ram (mem s) pa && (ram_get (mem s) pa =? b)) (cur_fpu s) 0]) as -> by (by rewrite E).
  rewrite app_assoc, undone_snoc. f_equal. apply decide_ext. cbn. tauto.
Qed.

Lemma ref_write_ok pa b s : ram_ok (mem s) -> ram_ok (ref_write pa b s).
Proof. intros H. unfold ref_write. destruct (in_ram _ _); [by apply ram_set_ok|done]. Qed.

Lemma ref_write_in_ram pa b s a : in_ram (ref_write pa b s) a = in_ram (mem s) a.
Proof. unfold ref_write. by destruct (in_ram (mem s) pa). Qed.

Lemma ref_write_get pa b s a :
  ram_ok (mem s) -> 0 <= pa -> 0 <= a -> in_ram (mem s) a = true ->
  ram_get (ref_write pa b s) a = if decide (pa = a) then b else ram_get (mem s) a.
Proof.
  intros Hm Hpa Ha Hin. unfold ref_write. destruct (in_ram (mem s) pa) eqn:E.
  - rewrite ram_get_set by (try done; split; try lia; by apply in_ram_bound).
    destruct (decide (pa = a)) as [->|]; [by rewrite Z.eqb_refl|]. by rewrite (proj2 (Z.eqb_neq _ _)).
  - destruct (decide (pa = a)) as [->|]; [congruence|done].
Qed.

Lemma snoc_split {A} (l ps ps' : list A) (x p : A) :
  l ++ [x] = ps ++ p :: ps' -> (ps' = [] /\ p = x /\ ps = l) \/ exists t, ps' = t ++ [x] /\ l = ps ++ p :: t.
Proof.
  destruct ps' as [|y t _] using rev_ind.
  - intros H. left. apply app_inj_tail in H as [-> ->]. done.
  - intros H. right. exists t. rewrite app_comm_cons, app_assoc in H. apply app_inj_tail in H as [-> ->].
    done.
Qed.

Lemma store_byte_compared D refs done pa b s :
  compared D refs done s -> 0 <= pa -> compared D (refs ++ [(pa, b)]) done (store_byte pa b s).
Proof.
  intros [] Hpa. pose proof (outstanding_store) as Ho. destruct (store_byte_eq pa b s) as [log E].
  assert (Hm : mem (store_byte pa b s) = ref_write pa b s) by (by rewrite E).
  split; rewrite ?Hm.
  - by apply ref_write_ok.
  - by rewrite E.
  - by rewrite E.
  - by rewrite E.
  - intros a Ha Hin Hs. rewrite ref_write_in_ram in Hin. rewrite Ho in Hs.
    rewrite ref_write_get by done. apply Forall_app in Hs as [Hs1 Hs2].
    rewrite (c_equal0 a Ha Hin Hs1). destruct (decide (pa = a)) as [->|]; [|done].
    inversion_clear Hs2 as [|?? Hb _]. cbn in Hb. lia.
  - intros a ps p ps' Ha Hin Hsplit Hs. rewrite ref_write_in_ram in Hin. rewrite Ho in Hsplit.
    rewrite ref_write_get by done. destruct (decide (pa = a)) as [->|].
    + apply snoc_split in Hsplit as [(-> & -> & _)|(t & -> & Hsplit)]; [done|].
      apply Forall_app in Hs as [Hs Hb]. inversion_clear Hb as [|?? Hb' _]. cbn in Hb'.
      rewrite (c_last0 a ps p t Ha Hin Hsplit Hs). lia.
    + rewrite app_nil_r in Hsplit. by eapply c_last0.
  - intros a Hin. rewrite ref_write_in_ram in Hin. rewrite Ho, vals_at_snoc, <- c_device0 by done.
    rewrite map_app, app_assoc. by destruct (decide (pa = a)); rewrite ?decide_True, ?decide_False by done.
  - intros a Hin. rewrite ref_write_in_ram in Hin. rewrite Ho. apply Forall_app. split; [by apply c_silent0|].
    destruct (decide (pa = a)) as [->|]; [|done]. rewrite Hin. by apply Forall_singleton.
Qed.

(** ** One write of z486 *)

(** Only the two write queues change. *)
Definition same_but_writes (s s' : Cosim) : Prop :=
  exists e d, s' = s <| exp_w := e |> <| dut_w := d |>.

Lemma same_but_writes_trans s1 s2 s3 : same_but_writes s1 s2 -> same_but_writes s2 s3 -> same_but_writes s1 s3.
Proof. intros (e & d & ->) (e' & d' & ->). by exists e', d'. Qed.

(** [compared] sees the write queue through its outstanding writes. *)
Lemma compared_frame D refs done s e :
  compared D refs done s -> (dut_w s <> [] -> drop_done e = []) ->
  (forall a, undone_at a (e ++ stage_w s) = outstanding a s) ->
  compared D refs done (s <| exp_w := e |>).
Proof.
  intros [] Hd He. split; try done; change (mem (s <| exp_w := e |>)) with (mem s);
    change (outstanding ?a (s <| exp_w := e |>)) with (undone_at a (e ++ stage_w s)); intros a; rewrite He; eauto.
Qed.

Lemma compared_advance D refs done s : compared D refs done s -> compared D refs done (advance_exp s).
Proof.
  intros Hc. unfold advance_exp. apply compared_frame; [done| |].
  - intros Hd. rewrite (c_early _ _ _ _ Hc Hd). done.
  - intros a. unfold outstanding. by rewrite !undone_app, undone_drop_done.
Qed.

(** Taking the oldest outstanding write of an address. *)
Lemma compared_match D refs done s phys b val e :
  compared D refs done s -> 0 <= phys -> dut_w s = [] ->
  outstanding phys s = (b, val) :: undone_at phys (e ++ stage_w s) ->
  (forall a, a <> phys -> undone_at a (e ++ stage_w s) = outstanding a s) ->
  compared D refs (done ++ [(phys, val)]) (s <| exp_w := e |>).
Proof.
  intros [] Hp Hd Ho He. split; try done.
  - change (mem (s <| exp_w := e |>)) with (mem s).
    change (outstanding ?a (s <| exp_w := e |>)) with (undone_at a (e ++ stage_w s)).
    intros a Ha Hin Hs. rewrite dut_after_snoc. cbn [fst snd].
    destruct (Z.eqb_spec a phys) as [->|Hne]; [|by apply c_equal0; rewrite <- ?He].
    by apply (c_last0 phys [] (b, val) (undone_at phys (e ++ stage_w s))).
  - change (mem (s <| exp_w := e |>)) with (mem s).
    change (outstanding ?a (s <| exp_w := e |>)) with (undone_at a (e ++ stage_w s)).
    intros a ps p ps' Ha Hin Hsplit Hs. destruct (Z.eq_dec a phys) as [->|Hne].
    + apply (c_last0 phys ((b, val) :: ps) p ps'); try done. by rewrite Ho, Hsplit.
    + apply (c_last0 a ps p ps'); try done. by rewrite <- He.
  - change (mem (s <| exp_w := e |>)) with (mem s).
    change (outstanding ?a (s <| exp_w := e |>)) with (undone_at a (e ++ stage_w s)).
    intros a Hin. rewrite vals_at_snoc. cbn [fst snd]. rewrite <- c_device0 by done.
    destruct (decide (phys = a)) as [<-|Hne].
    + rewrite Ho. cbn [map snd]. by rewrite <- app_assoc.
    + by rewrite He, app_nil_r by done.
  - change (mem (s <| exp_w := e |>)) with (mem s).
    change (outstanding ?a (s <| exp_w := e |>)) with (undone_at a (e ++ stage_w s)).
    intros a Hin. specialize (c_silent0 a Hin). destruct (Z.eq_dec a phys) as [->|Hne].
    + rewrite Ho in c_silent0. by inversion_clear c_silent0.
    + by rewrite He.
Qed.

(** A write of the value the reference has. *)
Lemma compared_silent D refs done s phys val :
  compared D refs done s -> in_ram (mem s) phys = true -> ram_get (mem s) phys = val -> 0 <= phys ->
  compared D refs (done ++ [(phys, val)]) s.
Proof.
  intros [] Hin Hv Hp. split; try done.
  - intros a Ha Hina Hs. rewrite dut_after_snoc. cbn [fst snd].
    destruct (Z.eqb_spec a phys) as [->|]; [done|]. by apply c_equal0.
  - intros a Hina. rewrite vals_at_snoc. cbn [fst snd].
    rewrite decide_False by congruence. rewrite app_nil_r. by apply c_device0.
Qed.

(** Completing an instruction that has only silent writes left. *)
Lemma compared_finish D refs done s grp :
  compared D refs done s -> dut_w s = [] ->
  forallb (fun e => e_done e || e_silent e) (group grp (exp_w s)) = true ->
  compared D refs done (s <| exp_w := finish_group grp (exp_w s) |>).
Proof.
  intros [] Hd Hsil.
  assert (Ho : forall a, exists ss, outstanding a s = ss ++ undone_at a (finish_group grp (exp_w s) ++ stage_w s) /\
    Forall (fun p => p.1 = true) ss).
  { intros a. destruct (finish_group_undone grp (exp_w s) a Hsil) as (ss & E & Hs).
    exists ss. split; [|done]. unfold outstanding. by rewrite !undone_app, E, app_assoc. }
  split; try done; change (mem (s <| exp_w := _ |>)) with (mem s);
    change (outstanding ?a (s <| exp_w := ?e |>)) with (undone_at a (e ++ stage_w s)).
  - intros a Ha Hin Hs. destruct (Ho a) as (ss & E & Hss). apply c_equal0; try done.
    rewrite E. by apply Forall_app.
  - intros a ps p ps' Ha Hin Hsplit Hs. destruct (Ho a) as (ss & E & _).
    apply (c_last0 a (ss ++ ps) p ps'); try done. by rewrite E, Hsplit, app_assoc.
  - intros a Hin. rewrite <- c_device0 by done. destruct (Ho a) as (ss & E & Hss).
    specialize (c_silent0 a Hin). rewrite E in *. apply Forall_app in c_silent0 as [Hns _].
    destruct ss as [|p ss]; [done|]. inversion_clear Hss. inversion_clear Hns. congruence.
  - intros a Hin. destruct (Ho a) as (ss & E & _). specialize (c_silent0 a Hin). rewrite E in c_silent0.
    by apply Forall_app in c_silent0 as [_ ?].
Qed.

(** An accepted write is taken, or waits behind the earlier ones. *)
Definition accepts (D : Z -> Z) (refs done : list (Z * Z)) (w : Z * Z) (s s' : Cosim) : Prop :=
  same_but_writes s s' /\
  ((dut_w s = [] /\ dut_w s' = [] /\ compared D refs (done ++ [w]) s') \/
   (early s' = early s ++ [w] /\ compared D refs done s')).

Lemma same_but_advance s : same_but_writes s (advance_exp s).
Proof. exists (drop_done (exp_w s)), (dut_w s). by destruct s. Qed.

Lemma same_but_exp s e : same_but_writes s (s <| exp_w := e |>).
Proof. exists e, (dut_w s). by destruct s. Qed.

Lemma drop_done_head l h t : drop_done l = h :: t -> e_done h = false.
Proof.
  induction l as [|e l IH]; [done|]. cbn [drop_done]. destruct (e_done e) eqn:E; [done|].
  intros [= <- <-]. done.
Qed.

Lemma drop_done_idem l : drop_done (drop_done l) = drop_done l.
Proof. induction l as [|e l IH]; [done|]. cbn. destruct (e_done e) eqn:E; [done|]. cbn. by rewrite E. Qed.

Lemma found_accepts D refs done grp phys s e marked :
  compared D refs done s -> 0 <= phys -> dut_w s = [] ->
  find_write grp phys (exp_w s) = Some (e, marked) ->
  accepts D refs done (phys, e_val e) s (advance_exp (s <| exp_w := marked |>)).
Proof.
  intros Hc Hp Hd Hf. destruct (find_write_undone _ _ _ _ _ Hf) as (H1 & H2 & _). split.
  - eapply same_but_writes_trans; [apply same_but_exp|apply same_but_advance].
  - left. split; [done|]. split; [done|]. apply compared_advance.
    apply (compared_match D refs done s phys (e_silent e)); try done; unfold outstanding.
    + by rewrite !undone_app, H1.
    + intros a Ha. by rewrite !undone_app, H2.
Qed.

Lemma accepts_from D refs done w s1 s2 s3 :
  same_but_writes s1 s2 -> dut_w s2 = dut_w s1 -> accepts D refs done w s2 s3 -> accepts D refs done w s1 s3.
Proof.
  intros H1 Hd [H2 H3]. split; [by eapply same_but_writes_trans|]. unfold early in *. by rewrite Hd in H3.
Qed.

(** An instruction's first outstanding write means that z486 is not ahead. *)
Lemma not_ahead D refs done s h t : compared D refs done s -> drop_done (exp_w s) = h :: t -> dut_w s = [].
Proof.
  intros Hc E. destruct (dut_w s) eqn:Ed; [done|]. exfalso.
  assert (E2 : drop_done (exp_w s) = []) by (apply (c_early _ _ _ _ Hc); by rewrite Ed). congruence.
Qed.

Lemma queued_accepts D refs done s phys val :
  compared D refs done s -> exp_w s = [] ->
  accepts D refs done (phys, val) s (s <| dut_w := dut_w s ++ [event s phys val 0] |>).
Proof.
  intros Hc Ex. split.
  - exists (exp_w s), (dut_w s ++ [event s phys val 0]). by destruct s.
  - right. split; [unfold early; cbn; by rewrite map_app|]. destruct Hc. split; try done. cbn. by rewrite Ex.
Qed.

Lemma match_write_accepts D refs done phys val : forall fuel s s',
  compared D refs done s -> 0 <= phys ->
  match_write fuel phys val s = Some (COSIM_OK, s') -> accepts D refs done (phys, val) s s'.
Proof.
  induction fuel as [fuel IH] using lt_wf_ind. intros s s' Hc Hp Hm.
  apply (accepts_from _ _ _ _ s (advance_exp s) s'); [apply same_but_advance|done|].
  apply compared_advance in Hc as Ha. pose proof (not_ahead D refs done s) as Hd.
  change (dut_w s) with (dut_w (advance_exp s)) in Hd.
  change (drop_done (exp_w s)) with (exp_w (advance_exp s)) in Hd.
  destruct fuel as [|fuel]; cbn [match_write] in Hm; revert Hm Ha Hd; generalize (advance_exp s) as s1;
    intros s1 Hm Ha Hd; destruct (exp_w s1) as [|h t] eqn:Ex.
  1, 3: injection Hm as <-; by apply queued_accepts.
  all: specialize (Hd h t Hc eq_refl); rewrite <- Ex in Hm;
    destruct (find_write (e_grp h) phys (exp_w s1)) as [[e marked]|] eqn:Ef.
  1, 3: rewrite (c_strict _ _ _ _ Ha) in Hm; destruct (Z.eqb_spec (e_val e) val) as [<-|]; [|done];
    injection Hm as <-; by eapply found_accepts.
  all: destruct (in_ram (mem s1) phys && (ram_get (mem s1) phys =? val)) eqn:Es.
  1, 3: injection Hm as <-; apply andb_true_iff in Es as [Ei Ev]; apply Z.eqb_eq in Ev;
    split; [exists (exp_w s1), (dut_w s1); by destruct s1|]; left; split; [done|]; split; [done|];
    by apply compared_silent.
  all: destruct (forallb _ _) eqn:Eg; [|done].
  - done.
  - apply (accepts_from _ _ _ _ s1 (s1 <| exp_w := finish_group (e_grp h) (exp_w s1) |>) s');
      [apply same_but_exp|done|].
    apply (IH fuel); [lia| |done|done]. by apply compared_finish.
Qed.

(** The loop needs no more rounds than there are outstanding writes. *)
Lemma length_drop_done l : (length (drop_done l) <= length l)%nat.
Proof. induction l as [|e l IH]; [done|]. cbn. destruct (e_done e); cbn; lia. Qed.

Lemma finish_group_shorter h t :
  e_done h = false -> (length (drop_done (finish_group (e_grp h) (h :: t))) <= length t)%nat.
Proof.
  intros Hd. unfold finish_group. cbn [group]. rewrite Z.eqb_refl. cbn [map app length drop_done].
  change (e_done (h <| e_done := true |>)) with true. cbn iota.
  etransitivity; [apply length_drop_done|]. rewrite length_app, length_map, length_drop.
  pose proof (f_equal length (group_prefix (e_grp h) t)) as E. rewrite length_app, length_drop in E. cbn. lia.
Qed.

Lemma match_write_total phys val : forall fuel s,
  (length (drop_done (exp_w s)) <= fuel)%nat -> is_Some (match_write fuel phys val s).
Proof.
  induction fuel as [fuel IH] using lt_wf_ind. intros s Hf.
  pose proof (drop_done_head (exp_w s)) as Hh. change (drop_done (exp_w s)) with (exp_w (advance_exp s)) in Hh, Hf.
  destruct fuel as [|fuel]; cbn [match_write]; revert Hf Hh; generalize (advance_exp s) as s1;
    intros s1 Hf Hh; destruct (exp_w s1) as [|h t] eqn:Ex; try done; try (cbn in Hf; lia).
  specialize (Hh h t eq_refl). destruct (find_write _ _ _) as [[e marked]|]; [by case_bool|].
  case_bool; [done|]. case_bool; [|done]. apply IH; [lia|].
  change (exp_w (s1 <| exp_w := ?l |>)) with l.
  pose proof (finish_group_shorter h t Hh). cbn in Hf. lia.
Qed.

(** A rejected write leaves the error set. *)
Lemma fail_err e s : err (fail e s) <> None.
Proof. unfold fail. destruct (err s) eqn:E; [congruence|done]. Qed.

Lemma match_write_error phys val : forall fuel s r s',
  match_write fuel phys val s = Some (r, s') -> r = COSIM_OK \/ (r = COSIM_ERROR /\ err s' <> None).
Proof.
  induction fuel as [fuel IH] using lt_wf_ind. intros s r s' Hm.
  destruct fuel as [|fuel]; cbn [match_write] in Hm; revert Hm; generalize (advance_exp s) as s1; intros s1 Hm;
    destruct (exp_w s1) as [|h t] eqn:Ex; rewrite <- Ex in Hm.
  1, 3: injection Hm as <- _; by left.
  all: destruct (find_write _ _ _) as [[e marked]|].
  1, 3: case_bool; injection Hm as <- <-; [right; split; [done|apply fail_err]|by left].
  all: case_bool; [injection Hm as <- _; by left|].
  all: case_bool; [|injection Hm as <- <-; right; split; [done|apply fail_err]].
  - done.
  - by apply (IH fuel) in Hm; [|lia].
Qed.

(** ** Operations *)

Lemma rematch_compared D refs : forall pend done s s',
  compared D refs done s -> Forall (fun e => 0 <= e_addr e) pend ->
  rematch_writes pend s = Some s' -> err s' = None ->
  same_but_writes s s' /\ exists done', compared D refs done' s' /\
    done ++ early s ++ map (fun e => (e_addr e, e_val e)) pend = done' ++ early s'.
Proof.
  induction pend as [|e pend IH]; intros done s s' Hc Hp Hr He.
  - injection Hr as <-. split; [exists (exp_w s), (dut_w s); by destruct s|]. exists done. by rewrite app_nil_r.
  - inversion_clear Hp. cbn [rematch_writes] in Hr.
    destruct (match_write _ _ _ s) as [[r s1]|] eqn:Em; [|done]. cbn [mbind option_bind] in Hr.
    destruct (match_write_error _ _ _ _ _ _ Em) as [->|[-> Hn]]; [|injection Hr as ->; congruence].
    apply (match_write_accepts D refs done) in Em as [Hs Ha]; [|done|done].
    assert (exists done1, compared D refs done1 s1 /\ done ++ early s ++ [(e_addr e, e_val e)] = done1 ++ early s1)
      as (done1 & Hc1 & E1).
    { destruct Ha as [(Hd & Hd1 & Hc1)|(E1 & Hc1)].
      - exists (done ++ [(e_addr e, e_val e)]). split; [done|]. unfold early. by rewrite Hd, Hd1, app_nil_r.
      - exists done. split; [done|]. by rewrite E1. }
    destruct (IH done1 s1 s' Hc1 H0 Hr He) as (Hs2 & done2 & Hc2 & E2).
    split; [by eapply same_but_writes_trans|]. exists done2. split; [done|].
    rewrite <- E2, (app_assoc done1), <- E1. cbn [map]. by rewrite <- !app_assoc.
Qed.

Lemma rematch_writes_total : forall pend s, is_Some (rematch_writes pend s).
Proof.
  induction pend as [|e pend IH]; intros s; [done|]. cbn [rematch_writes].
  destruct (match_write_total (e_addr e) (e_val e) (match_write_fuel s) s (length_drop_done _)) as [[r s1] ->].
  cbn [mbind option_bind]. destruct r; [apply IH|done|done].
Qed.

(** Only the I/O queues and the error change. *)
Definition same_but_io (s s' : Cosim) : Prop :=
  exists e d f, s' = s <| exp_io := e |> <| dut_io := d |> <| err := f |>.

(** The I/O writes matched so far are the same on both sides, and at most one
    side is ahead. *)
Definition pairs_of (l : list ev_t) : list (Z * Z) := map (fun e => (e_addr e, e_val e)) l.

Definition io_compared (routs douts : list (Z * Z)) (s : Cosim) : Prop :=
  exists m, routs = m ++ pairs_of (exp_io s ++ stage_io s) /\ douts = m ++ pairs_of (dut_io s) /\
    (exp_io s = [] \/ dut_io s = []).

Lemma match_io_compared routs douts port val s r s' :
  io_compared routs douts s -> match_io port val s = (r, s') ->
  same_but_io s s' /\ ((r = COSIM_OK /\ err s' = err s /\ io_compared routs (douts ++ [(port, val)]) s') \/
    (r = COSIM_ERROR /\ err s' <> None)).
Proof.
  intros (m & Er & Ed & Hone) Hm. unfold match_io in Hm. destruct (exp_io s) as [|e l] eqn:Ex.
  - injection Hm as <- <-. split; [exists [], (dut_io s ++ [event s port val 0]), (err s); rewrite <- Ex; by destruct s|].
    left. split; [done|]. split; [done|]. exists m. split; [cbn; by rewrite Ex|]. split; [|cbn; by left].
    rewrite Ed. unfold pairs_of. cbn. by rewrite map_app, app_assoc.
  - destruct Hone as [?|Hd]; [done|]. destruct (_ || _) eqn:E.
    + injection Hm as <- <-. split; [|right; split; [done|apply fail_err]].
      exists (exp_io s), (dut_io s), (err (fail (EOut port val (e_addr e) (e_val e) (e_grp e)) s)).
      unfold fail. destruct s as [?? [?|]]; reflexivity.
    + injection Hm as <- <-. split; [exists l, (dut_io s), (err s); by destruct s|].
      left. split; [done|]. split; [done|]. apply orb_false_iff in E as [E1 E2].
      apply negb_false_iff, Z.eqb_eq in E1, E2. exists (m ++ [(port, val)]).
      split; [rewrite Er; cbn; by rewrite E1, E2, <- app_assoc|]. split; [|by right].
      rewrite Ed. cbn. by rewrite Hd, !app_nil_r.
Qed.

Lemma same_but_io_trans s1 s2 s3 : same_but_io s1 s2 -> same_but_io s2 s3 -> same_but_io s1 s3.
Proof. intros (e & d & f & ->) (e' & d' & f' & ->). by exists e', d', f'. Qed.

Lemma rematch_io_compared routs : forall pend douts s,
  io_compared routs douts s ->
  same_but_io s (rematch_io pend s) /\
  (err (rematch_io pend s) = None -> err s = None /\ io_compared routs (douts ++ pairs_of pend) (rematch_io pend s)).
Proof.
  induction pend as [|e pend IH]; intros douts s Hc.
  - split; [exists (exp_io s), (dut_io s), (err s); by destruct s|]. intros He. by rewrite app_nil_r.
  - cbn [rematch_io]. destruct (match_io _ _ s) as [r s1] eqn:Em.
    destruct (match_io_compared _ _ _ _ _ _ _ Hc Em) as [Hs [(-> & He1 & Hc1)|(-> & Hn)]].
    + destruct (IH _ _ Hc1) as [Hs2 H2]. split; [by eapply same_but_io_trans|]. intros He.
      destruct (H2 He) as [He2 Hc2]. split; [congruence|]. unfold pairs_of in *. cbn [map].
      by rewrite <- app_assoc in Hc2.
    + split; [done|]. intros He. congruence.
Qed.

(** What the two sides do: an instruction of the reference that completes with
    the given writes and OUTs, and z486's write cycles. *)
Inductive Op :=
| RefInsn (ws : list (Z * Z)) (outs : list (Z * nat * Z))
| DutWrite (phys val : Z)
| DutOut (port val : Z).

Definition ref_insn (ws : list (Z * Z)) (outs : list (Z * nat * Z)) (s : Cosim) : option (Status * Cosim) :=
  let s := drop_step s <| mem_log := [] |> in
  let s := foldl (fun s w => store_byte w.1 w.2 s) s ws in
  let s := foldl (fun s o => io_out o.1.1 o.1.2 o.2 s) s outs in
  commit_writes (s <| ninsn := u64 (ninsn s + 1) |>).

Definition do_op (o : Op) (s : Cosim) : option (Status * Cosim) :=
  match o with
  | RefInsn ws outs => ref_insn ws outs s
  | DutWrite phys val => cosim_dut_write phys val s
  | DutOut port val => Some (cosim_dut_io_write port val s)
  end.

(** A divergence ends the run. *)
Fixpoint run_ops (ops : list Op) (s : Cosim) : option (Status * Cosim) :=
  match ops with
  | [] => Some (COSIM_OK, s)
  | o :: ops =>
    '(r, s) ← do_op o s;
    match r with COSIM_OK => run_ops ops s | _ => Some (r, s) end
  end.

Definition out_bytes (o : Z * nat * Z) : list (Z * Z) :=
  map (fun b => (u16 (o.1.1 + Z.of_nat b), Z.land (Z.shiftr o.2 (8 * Z.of_nat b)) 0xFF)) (seq 0 o.1.2).

Definition op_refs (o : Op) : list (Z * Z) := match o with RefInsn ws _ => ws | _ => [] end.
Definition op_routs (o : Op) : list (Z * Z) := match o with RefInsn _ outs => concat (map out_bytes outs) | _ => [] end.
Definition op_writes (a20 : bool) (o : Op) : list (Z * Z) :=
  match o with DutWrite phys val => [(platform_phys a20 phys, val)] | _ => [] end.
Definition op_douts (o : Op) : list (Z * Z) := match o with DutOut port val => [(port, val)] | _ => [] end.

Definition op_ok (o : Op) : Prop :=
  match o with RefInsn ws _ => Forall (fun w => 0 <= w.1) ws | DutWrite phys _ => is_u32 phys | DutOut _ _ => True end.

(** Between operations nothing is staged. *)
Record synced (D : Z -> Z) (refs routs writes douts : list (Z * Z)) (s : Cosim) : Prop := mkSynced {
  y_writes : exists done, compared D refs done s /\ writes = done ++ early s;
  y_io : io_compared routs douts s;
  y_stage : stage_w s = [] /\ stage_io s = [];
  y_addr : Forall (fun w => 0 <= w.1) writes
}.

Lemma platform_phys_range a20 phys : is_u32 phys -> 0 <= platform_phys a20 phys.
Proof.
  unfold is_u32. intros Hp. unfold platform_phys.
  assert (0 <= (if a20 then phys else Z.land phys 0xFFEFFFFF)).
  { destruct a20; [lia|]. apply Z.land_nonneg. lia. }
  case_bool; [|done]. assert (0 <= Z.land (if a20 then phys else Z.land phys 4293918719) 0x3FFFF)
    by (apply Z.land_nonneg; lia). unfold BIOS_MIRROR. lia.
Qed.

Lemma io_out_loop_stage n : forall b port val s,
  exists l, io_out_loop n b port val s = s <| stage_io := stage_io s ++ l |> /\
    pairs_of l = map (fun k => (u16 (port + b + Z.of_nat k), Z.land (Z.shiftr val (8 * (b + Z.of_nat k))) 0xFF)) (seq 0 n).
Proof.
  induction n as [|n IH]; intros b port val s.
  - exists []. split; [cbn; rewrite app_nil_r; by destruct s|done].
  - cbn [io_out_loop]. destruct (IH (b + 1) port val (s <| stage_io := stage_io s ++
      [event s (u16 (port + b)) (Z.land (Z.shiftr val (8 * b)) 0xFF) 0] |>)) as (l & -> & El).
    exists (event s (u16 (port + b)) (Z.land (Z.shiftr val (8 * b)) 0xFF) 0 :: l).
    split; [cbn; by rewrite <- app_assoc|]. unfold pairs_of in *. cbn [map e_addr e_val event seq]. rewrite El.
    rewrite !Z.add_0_r. f_equal. rewrite <- (seq_shift n 0), map_map. apply map_ext. intros k.
    replace (port + (b + 1) + Z.of_nat k) with (port + b + Z.of_nat (S k)) by lia.
    by replace (b + 1 + Z.of_nat k) with (b + Z.of_nat (S k)) by lia.
Qed.

(** The stores of an instruction. *)
Lemma stores_compared D done : forall ws refs s,
  compared D refs done s -> Forall (fun w => 0 <= w.1) ws ->
  let s' := foldl (fun s w => store_byte w.1 w.2 s) s ws in
  compared D (refs ++ ws) done s' /\
  exists st log m, s' = s <| stage_w := st |> <| mem := m |> <| mem_log := log |>.
Proof.
  induction ws as [|w ws IH]; intros refs s Hc Hw; cbn zeta; cbn [foldl].
  - rewrite app_nil_r. split; [done|]. exists (stage_w s), (mem_log s), (mem s). by destruct s.
  - inversion_clear Hw. destruct w as [pa b]. cbn [fst snd] in *.
    destruct (IH (refs ++ [(pa, b)]) (store_byte pa b s)) as [Hc2 (st & log & m & E2)];
      [by apply store_byte_compared|done|].
    split; [by rewrite <- app_assoc in Hc2|]. rewrite E2. destruct (store_byte_eq pa b s) as [log' ->].
    exists st, log, m. by destruct s.
Qed.

Lemma outs_staged : forall outs s,
  exists l i, foldl (fun s o => io_out o.1.1 o.1.2 o.2 s) s outs =
    s <| stage_io := stage_io s ++ l |> <| ignne := i |> /\ pairs_of l = concat (map out_bytes outs).
Proof.
  induction outs as [|[[port size] val] outs IH]; intros s; cbn [foldl].
  - exists [], (ignne s). split; [rewrite app_nil_r; by destruct s|done].
  - cbn [fst snd]. assert (exists l i, io_out port size val s = s <| stage_io := stage_io s ++ l |> <| ignne := i |> /\
      pairs_of l = out_bytes (port, size, val)) as (l1 & i1 & E1 & P1).
    { unfold io_out. destruct (port =? 240).
      - destruct (io_out_loop_stage size 0 port val (s <| ignne := x87_summary s |>)) as (l & E & P).
        exists l, (x87_summary s). split; [rewrite E; by destruct s|]. rewrite P. apply map_ext. intros k.
        cbn. by rewrite Z.add_0_r.
      - destruct (io_out_loop_stage size 0 port val s) as (l & E & P).
        exists l, (ignne s). split; [rewrite E; by destruct s|]. rewrite P. apply map_ext. intros k.
        cbn. by rewrite Z.add_0_r. }
    rewrite E1. destruct (IH (s <| stage_io := stage_io s ++ l1 |> <| ignne := i1 |>)) as (l2 & i2 & E2 & P2).
    exists (l1 ++ l2), i2. split; [rewrite E2; destruct s; cbn; by rewrite app_assoc|].
    unfold pairs_of in *. by rewrite map_app, P1, P2.
Qed.

Lemma compared_ext D refs done s s' :
  mem s' = mem s -> err s' = err s -> x87_lenient s' = x87_lenient s ->
  (forall a, outstanding a s' = outstanding a s) -> (dut_w s' <> [] -> drop_done (exp_w s') = []) ->
  compared D refs done s -> compared D refs done s'.
Proof.
  intros Hm He Hl Ho Hd []. split; rewrite ?Hm, ?He, ?Hl; try done; intros a; rewrite Ho; eauto.
Qed.

(** The parts of the state that the comparison never changes. *)
Definition same_map (s s' : Cosim) : Prop := cpu s' = cpu s /\ forall a, in_ram (mem s') a = in_ram (mem s) a.

Lemma same_map_trans s1 s2 s3 : same_map s1 s2 -> same_map s2 s3 -> same_map s1 s3.
Proof. intros [H1 H2] [H3 H4]. split; [congruence|]. intros a. by rewrite H4. Qed.

Lemma early_addr ws done s :
  Forall (fun w => 0 <= w.1) ws -> ws = done ++ early s -> Forall (fun e => 0 <= e_addr e) (dut_w s).
Proof. intros Hw ->. apply Forall_app in Hw as [_ Hw]. exact (proj1 (Forall_map (fun e => (e_addr e, e_val e)) (fun w => 0 <= w.1) (dut_w s)) Hw). Qed.

Lemma committed_compared D refs done s :
  compared D refs done s -> compared D refs done (committed s <| dut_w := [] |>).
Proof.
  apply compared_ext; try done. intros a. unfold outstanding.
  change (exp_w (committed s <| dut_w := [] |>)) with (exp_w s ++ map (fun e => e <| e_grp := ninsn s |>) (stage_w s)).
  change (stage_w (committed s <| dut_w := [] |>)) with (@nil ev_t).
  by rewrite app_nil_r, !undone_app, undone_grp.
Qed.

Lemma committed_io routs douts s :
  io_compared routs douts s -> exists d1 : list (Z * Z), douts = d1 ++ pairs_of (dut_io s) /\ io_compared routs d1 (committed s <| dut_io := [] |>).
Proof.
  intros (m & Er & Ed & _). exists m. split; [done|]. exists m. split; [|split; [|by right]].
  - rewrite Er. unfold pairs_of, committed. cbn. rewrite app_nil_r, !map_app, map_map. done.
  - cbn. by rewrite app_nil_r.
Qed.



Lemma compared_io D refs done s s' : same_but_io s s' -> err s' = None -> compared D refs done s -> compared D refs done s'.
Proof.
  intros (e & d & f & ->) He Hc. apply (compared_ext _ _ _ s); try done.
  - rewrite He. symmetry. apply (c_err _ _ _ _ Hc).
  - apply (c_early _ _ _ _ Hc).
Qed.

Lemma io_compared_writes routs douts s s' : same_but_writes s s' -> io_compared routs douts s -> io_compared routs douts s'.
Proof. intros (e & d & ->) (m & H1 & H2 & H3). by exists m. Qed.

Lemma rematch_io_err : forall pend s, err s <> None -> err (rematch_io pend s) <> None.
Proof.
  induction pend as [|e pend IH]; intros s Hs; [done|]. cbn [rematch_io]. unfold match_io.
  destruct (exp_io s) as [|x l]; [by apply IH|]. case_bool; [apply fail_err|by apply IH].
Qed.

Lemma commit_parts s r s' :
  commit_writes s = Some (r, s') ->
  exists s1, rematch_writes (dut_w s) (committed s <| dut_w := [] |>) = Some s1 /\
    s' = rematch_io (dut_io s1) (s1 <| dut_io := [] |>) /\
    ((r = COSIM_OK /\ err s' = None) \/ (r = COSIM_ERROR /\ err s' <> None)).
Proof.
  unfold commit_writes. assert (dut_w (committed s) = dut_w s) as -> by done.
  destruct (rematch_writes _ _) as [s1|]; [|done]. cbn [mbind option_bind].
  intros [= <- <-]. exists s1. split; [done|]. split; [done|].
  destruct (err (rematch_io (dut_io s1) (s1 <| dut_io := [] |>))) eqn:E; [right|left]; split; congruence.
Qed.

(** The I/O writes that came early, after the memory writes. *)
Lemma commit_io routs douts s s1 s2 s' :
  io_compared routs douts s -> same_but_writes (committed s <| dut_w := [] |>) s1 -> dut_w s2 = dut_w s1 ->
  s' = rematch_io (dut_io s1) (s1 <| dut_io := [] |>) -> err s' = None ->
  same_but_io s1 s' /\ io_compared routs douts s' /\ stage_w s1 = [] /\ stage_io s1 = [].
Proof.
  intros Hio Hs1 _ -> He. destruct (committed_io _ _ _ Hio) as (d1 & Ed & Hio1).
  assert (Hd : dut_io s1 = dut_io s) by (by destruct Hs1 as (e & d & ->)).
  assert (Hst : stage_w s1 = []) by (by destruct Hs1 as (e & d & ->)).
  assert (Hsi : stage_io s1 = []) by (by destruct Hs1 as (e & d & ->)).
  assert (Hio2 : io_compared routs d1 (s1 <| dut_io := [] |>)) by (by destruct Hs1 as (e & d & ->)).
  destruct (rematch_io_compared routs (dut_io s1) d1 _ Hio2) as [Hs2 H2].
  destruct (H2 He) as [_ Hio3]. rewrite Hd, <- Ed in Hio3. split; [|by rewrite Hd].
  eapply same_but_io_trans; [|exact Hs2]. exists (exp_io s1), [], (err s1). by destruct s1.
Qed.

Lemma same_but_io_writes s s' :
  same_but_io s s' -> stage_w s' = stage_w s /\ stage_io s' = stage_io s /\ early s' = early s.
Proof. by intros (e & d & f & ->). Qed.

Lemma commit_synced D refs routs done douts s r s' :
  compared D refs done s -> io_compared routs douts s -> Forall (fun w => 0 <= w.1) (done ++ early s) ->
  commit_writes s = Some (r, s') ->
  (r = COSIM_OK /\ synced D refs routs (done ++ early s) douts s') \/ (r = COSIM_ERROR /\ err s' <> None).
Proof.
  intros Hc Hio Ha Hr. pose proof (early_addr _ _ _ Ha eq_refl) as Hp.
  destruct (commit_parts _ _ _ Hr) as (s1 & Ew & Es & [[-> Ee]|[-> Hn]]); [left|by right]. split; [done|].
  destruct (err s1) eqn:E1.
  { exfalso. refine (rematch_io_err (dut_io s1) (s1 <| dut_io := [] |>) _ _); [cbn; congruence|by rewrite <- Es]. }
  destruct (rematch_compared D refs (dut_w s) done _ s1 (committed_compared _ _ _ _ Hc) Hp Ew E1)
    as (Hs1 & done1 & Hc1 & Eq).
  destruct (commit_io routs douts s s1 s1 s' Hio Hs1 eq_refl Es Ee) as (Hs2 & Hio2 & Hst & Hsi).
  destruct (same_but_io_writes _ _ Hs2) as (H1 & H2 & H3). rewrite Hst in H1. rewrite Hsi in H2.
  assert (Eq' : done ++ early s = done1 ++ early s') by (rewrite H3; exact Eq).
  split; [|done|done|done]. exists done1. split; [by apply (compared_io _ _ _ s1)|done].
Qed.

(** ** Runs *)

Lemma ref_insn_synced D refs routs writes douts ws outs s r s' :
  synced D refs routs writes douts s -> Forall (fun w => 0 <= w.1) ws ->
  ref_insn ws outs s = Some (r, s') ->
  (r = COSIM_OK /\ synced D (refs ++ ws) (routs ++ concat (map out_bytes outs)) writes douts s') \/
  (r = COSIM_ERROR /\ err s' <> None).
Proof.
  intros [(done & Hc & Ew) Hio [Hst Hsi] Ha] Hws. unfold ref_insn.
  set (s0 := drop_step s <| mem_log := [] |>).
  assert (H0 : compared D refs done s0).
  { apply (compared_ext _ _ _ s); try done; [|apply (c_early _ _ _ _ Hc)].
    intros a. unfold outstanding. by rewrite Hst. }
  assert (Hio0 : io_compared routs douts s0).
  { destruct Hio as (m & E1 & E2 & E3). exists m. by rewrite Hsi in E1. }
  assert (Hear : early s0 = early s) by done. assert (Hsi0 : stage_io s0 = []) by done. clearbody s0.
  destruct (stores_compared D done ws refs s0 H0 Hws) as (H1 & st & log & m & E1).
  set (s1 := foldl _ s0 ws) in *.
  assert (Hio1 : io_compared routs douts s1 /\ stage_io s1 = [] /\ early s1 = early s) by (rewrite E1; done).
  clearbody s1. clear E1 st log m. destruct Hio1 as (Hio1 & Hsi1 & Hear1).
  destruct (outs_staged outs s1) as (l & i & -> & El).
  intros Hr. apply (commit_synced D (refs ++ ws) (routs ++ concat (map out_bytes outs)) done douts) in Hr.
  - rewrite Ew, <- Hear1. exact Hr.
  - apply (compared_ext _ _ _ s1); try done. apply (c_early _ _ _ _ H1).
  - destruct Hio1 as (mm & E1 & E2 & E3). exists mm. split; [|done].
    rewrite E1, <- El, Hsi1. cbn. rewrite app_nil_r. unfold pairs_of. by rewrite map_app, app_assoc.
  - rewrite Ew, <- Hear1 in Ha. exact Ha.
Qed.

Lemma dut_write_synced D refs routs writes douts phys val s r s' :
  synced D refs routs writes douts s -> is_u32 phys -> cosim_dut_write phys val s = Some (r, s') ->
  (r = COSIM_OK /\ synced D refs routs (writes ++ [(platform_phys (a20_on (cpu s)) phys, val)]) douts s') \/
  (r = COSIM_ERROR /\ err s' <> None).
Proof.
  unfold cosim_dut_write. intros [(done & Hc & Ew) Hio Hst Ha] Ho. generalize (match_write_fuel s). intros fuel Hr.
  pose proof (platform_phys_range (a20_on (cpu s)) phys Ho) as Hp. revert Hp Hr.
  generalize (platform_phys (a20_on (cpu s)) phys). intros p Hp Hr.
  destruct (match_write_error p val fuel s r s' Hr) as [->|Hn]; [left|by right]. split; [done|].
  destruct (match_write_accepts D refs done p val fuel s s' Hc Hp Hr) as [Hsame Hacc].
  split; [|by eapply io_compared_writes|by destruct Hsame as (e & d & ->)
          |apply Forall_app; split; [done|by apply Forall_singleton]].
  destruct Hacc as [(Hd & Hd' & Hc')|(Ee & Hc')].
  - eexists. split; [exact Hc'|]. rewrite Ew. unfold early. by rewrite Hd, Hd', !app_nil_r.
  - exists done. split; [done|]. by rewrite Ew, Ee, app_assoc.
Qed.

Lemma dut_out_synced D refs routs writes douts port val s r s' :
  synced D refs routs writes douts s -> match_io port val s = (r, s') ->
  (r = COSIM_OK /\ synced D refs routs writes (douts ++ [(port, val)]) s') \/ (r = COSIM_ERROR /\ err s' <> None).
Proof.
  intros [(done & Hc & Ew) Hio Hst Ha] Hr.
  destruct (match_io_compared _ _ _ _ _ _ _ Hio Hr) as [Hs [(-> & He & Hio')|Hn]]; [left|by right].
  split; [done|]. destruct (same_but_io_writes _ _ Hs) as (H1 & H2 & H3).
  split; [|done|by rewrite H1, H2|done]. exists done. rewrite H3. split; [|done].
  apply (compared_io _ _ _ s); [done|rewrite He; apply (c_err _ _ _ _ Hc)|done].
Qed.

(** [do_op], one equation a case. *)
Lemma do_op_ref ws outs s : do_op (RefInsn ws outs) s = ref_insn ws outs s.
Proof. reflexivity. Qed.
Lemma do_op_write p v s : do_op (DutWrite p v) s = cosim_dut_write p v s.
Proof. reflexivity. Qed.
Lemma do_op_out p v s : do_op (DutOut p v) s = Some (match_io p v s).
Proof. reflexivity. Qed.
Lemma do_op_synced D refs routs writes douts o s r s' a20 :
  synced D refs routs writes douts s -> op_ok o -> a20_on (cpu s) = a20 -> do_op o s = Some (r, s') ->
  (r = COSIM_OK /\ synced D (refs ++ op_refs o) (routs ++ op_routs o) (writes ++ op_writes a20 o)
    (douts ++ op_douts o) s') \/ (r = COSIM_ERROR /\ err s' <> None).
Proof.
  intros Hy Ho <- Hr. destruct o as [ws outs|phys val|port val]; [rewrite do_op_ref in Hr|rewrite do_op_write in Hr|rewrite do_op_out in Hr];
    cbn [op_ok op_refs op_routs op_writes op_douts] in *; rewrite ?app_nil_r.
  - exact (ref_insn_synced D refs routs writes douts ws outs s r s' Hy Ho Hr).
  - exact (dut_write_synced D refs routs writes douts phys val s r s' Hy Ho Hr).
  - apply Some_inj in Hr. exact (dut_out_synced D refs routs writes douts port val s r s' Hy Hr).
Qed.

Lemma commit_writes_total s : is_Some (commit_writes s).
Proof.
  unfold commit_writes. generalize (committed s). intros s1.
  destruct (rematch_writes_total (dut_w s1) (s1 <| dut_w := [] |>)) as [s2 ->]. done.
Qed.

Lemma ref_insn_total ws outs s : is_Some (ref_insn ws outs s).
Proof. unfold ref_insn. apply commit_writes_total. Qed.

Lemma do_op_total o s : is_Some (do_op o s).
Proof.
  destruct o as [ws outs|phys val|port val]; rewrite ?do_op_ref, ?do_op_write, ?do_op_out;
    [apply ref_insn_total|apply match_write_total, length_drop_done|done].
Qed.

(** Nothing here touches the CPU. *)
Lemma fail_cpu e s : cpu (fail e s) = cpu s.
Proof. unfold fail. by destruct (err s). Qed.

Lemma match_write_cpu phys val : forall fuel s r s', match_write fuel phys val s = Some (r, s') -> cpu s' = cpu s.
Proof.
  induction fuel as [fuel IH] using lt_wf_ind. intros s r s' Hm.
  change (cpu s) with (cpu (advance_exp s)).
  destruct fuel as [|fuel]; cbn [match_write] in Hm; revert Hm; generalize (advance_exp s) as s1; intros s1 Hm;
    destruct (exp_w s1) as [|h t]; try (apply Some_inj, (f_equal snd) in Hm; cbn [snd] in Hm; by subst).
  all: destruct (find_write _ _ _) as [[e marked]|];
    [case_bool; apply Some_inj, (f_equal snd) in Hm; cbn [snd] in Hm; subst; [apply fail_cpu|by repeat case_bool]|].
  all: case_bool; [apply Some_inj, (f_equal snd) in Hm; cbn [snd] in Hm; by subst|].
  all: case_bool; [|apply Some_inj, (f_equal snd) in Hm; cbn [snd] in Hm; subst; apply fail_cpu].
  - done.
  - apply (IH fuel) in Hm; [|lia]. by rewrite Hm.
Qed.

Lemma rematch_writes_cpu : forall pend s s', rematch_writes pend s = Some s' -> cpu s' = cpu s.
Proof.
  induction pend as [|e pend IH]; intros s s' H; [by injection H as ->|]. cbn [rematch_writes] in H.
  destruct (match_write _ _ _ s) as [[r s1]|] eqn:E; [|done]. cbn [mbind option_bind] in H.
  apply match_write_cpu in E. rewrite <- E. destruct r; [by apply IH|injection H as ->; done..].
Qed.

Lemma match_io_cpu port val s : cpu (match_io port val s).2 = cpu s.
Proof. unfold match_io. destruct (exp_io s); [done|]. case_bool; [apply fail_cpu|done]. Qed.

Lemma rematch_io_cpu : forall pend s, cpu (rematch_io pend s) = cpu s.
Proof.
  induction pend as [|e pend IH]; intros s; [done|]. cbn [rematch_io].
  pose proof (match_io_cpu (e_addr e) (e_val e) s) as H. destruct (match_io _ _ s) as [r s1]. cbn in H.
  destruct r; [by rewrite IH|done..].
Qed.

Lemma stores_cpu : forall ws s, cpu (foldl (fun s w => store_byte w.1 w.2 s) s ws) = cpu s.
Proof.
  induction ws as [|w ws IH]; intros s; [done|]. cbn [foldl]. rewrite IH.
  by destruct (store_byte_eq w.1 w.2 s) as [log ->].
Qed.

Lemma commit_cpu s r s' : commit_writes s = Some (r, s') -> cpu s' = cpu s.
Proof.
  intros H. destruct (commit_parts _ _ _ H) as (s1 & E & -> & _). rewrite rematch_io_cpu.
  apply rematch_writes_cpu in E. exact E.
Qed.

Lemma ref_insn_cpu ws outs s r s' : ref_insn ws outs s = Some (r, s') -> cpu s' = cpu s.
Proof.
  unfold ref_insn. intros H. apply commit_cpu in H. rewrite H. clear H.
  change (cpu (foldl (fun s o => io_out o.1.1 o.1.2 o.2 s)
    (foldl (fun s w => store_byte w.1 w.2 s) (drop_step s <| mem_log := [] |>) ws) outs) = cpu s).
  pose proof (stores_cpu ws (drop_step s <| mem_log := [] |>)) as Hs.
  change (cpu (drop_step s <| mem_log := [] |>)) with (cpu s) in Hs. rewrite <- Hs.
  destruct (outs_staged outs (foldl (fun s w => store_byte w.1 w.2 s) (drop_step s <| mem_log := [] |>) ws))
    as (l & i & -> & _). done.
Qed.

Lemma do_op_cpu o s r s' : do_op o s = Some (r, s') -> cpu s' = cpu s.
Proof.
  destruct o; rewrite ?do_op_ref, ?do_op_write, ?do_op_out; intros H.
  - by apply ref_insn_cpu in H.
  - by apply match_write_cpu in H.
  - apply Some_inj in H. by rewrite <- (match_io_cpu port val s), H.
Qed.

(** A comparison that starts in agreement: nothing outstanding on either side. *)
Definition in_agreement (D : Z -> Z) (s : Cosim) : Prop :=
  ram_ok (mem s) /\ err s = None /\ x87_lenient s = false /\
  exp_w s = [] /\ dut_w s = [] /\ exp_io s = [] /\ dut_io s = [] /\ stage_w s = [] /\ stage_io s = [] /\
  (forall a, 0 <= a -> in_ram (mem s) a = true -> D a = ram_get (mem s) a).

Lemma agreement_synced D s : in_agreement D s -> synced D [] [] [] [] s.
Proof.
  intros (Hm & He & Hl & Hw & Hd & Hi & Hj & Hs & Ht & Ha). split; [|exists []|done|done].
  - exists []. split; [|unfold early; by rewrite Hd].
    assert (Ho : forall a, outstanding a s = []) by (intros a; unfold outstanding; by rewrite Hw, Hs).
    split; try done; intros a; rewrite ?Ho; try done.
    + intros ?? _. by apply Ha.
    + intros ps p ps' _ _ H. by destruct ps.
  - rewrite Hi, Hj, Ht. repeat split; try done. by left.
Qed.

Lemma run_ops_synced D a20 : forall ops refs routs writes douts s,
  synced D refs routs writes douts s -> Forall op_ok ops -> a20_on (cpu s) = a20 ->
  exists r s', run_ops ops s = Some (r, s') /\
    ((r = COSIM_OK /\ synced D (refs ++ concat (map op_refs ops)) (routs ++ concat (map op_routs ops))
        (writes ++ concat (map (op_writes a20) ops)) (douts ++ concat (map op_douts ops)) s') \/
     (r = COSIM_ERROR /\ err s' <> None)).
Proof.
  induction ops as [|o ops IH]; intros refs routs writes douts s Hy Hok Ha.
  - exists COSIM_OK, s. split; [done|]. left. cbn. by rewrite !app_nil_r.
  - inversion_clear Hok. cbn [run_ops]. destruct (do_op_total o s) as [[r s1] E]. rewrite E.
    cbn [mbind option_bind]. pose proof (do_op_cpu _ _ _ _ E) as Hcpu.
    destruct (do_op_synced _ _ _ _ _ _ _ _ _ _ Hy H Ha E) as [[-> Hy1]|[-> Hn]].
    + destruct (IH _ _ _ _ _ Hy1 H0) as (r & s' & E' & Hr); [congruence|]. exists r, s'. split; [done|].
      cbn [map concat]. by rewrite !app_assoc.
    + exists COSIM_ERROR, s1. split; [done|]. by right.
Qed.

(** Nothing is outstanding once the queues have drained. *)
Lemma drained_outstanding s a : fst (cosim_writes_pending s) = false -> stage_w s = [] -> outstanding a s = [].
Proof.
  unfold cosim_writes_pending. cbn [fst]. intros H Hs. apply orb_false_iff in H as [H _].
  change (exp_w (advance_exp s)) with (drop_done (exp_w s)) in H.
  unfold outstanding. rewrite Hs, app_nil_r, <- undone_drop_done. by destruct (drop_done (exp_w s)).
Qed.

(** C6: the comparison is sound.  Let the reference run instructions and z486
    perform write cycles in any interleaving, from agreeing memories.  The
    comparison always decides, and an error it reports is kept.  While it
    reports none: z486's writes are the ones it has taken and those that wait
    for the reference; a RAM byte with no changing write outstanding is the
    same in z486's memory as in the reference's; at every address outside RAM
    (devices, ROM) z486 has made exactly the reference's writes, in order, up to
    those outstanding; and the OUT bytes of one side are a prefix of the
    other's.  Once both sides have drained, the memories are equal. *)
Theorem comparison_sound D ops s :
  in_agreement D s -> Forall op_ok ops ->
  exists r s', run_ops ops s = Some (r, s') /\
    ((r = COSIM_ERROR /\ err s' <> None) \/
     (r = COSIM_OK /\ exists taken matched,
       concat (map (op_writes (a20_on (cpu s))) ops) = taken ++ early s' /\
       (forall a, 0 <= a -> in_ram (mem s') a = true ->
         (forall p, p ∈ outstanding a s' -> p.1 = true) -> dut_after D taken a = ram_get (mem s') a) /\
       (forall a, in_ram (mem s') a = false ->
         vals_at a taken ++ map snd (outstanding a s') = vals_at a (concat (map op_refs ops))) /\
       concat (map op_routs ops) = matched ++ pairs_of (exp_io s') /\
       concat (map op_douts ops) = matched ++ pairs_of (dut_io s') /\ (exp_io s' = [] \/ dut_io s' = []) /\
       (fst (cosim_writes_pending s') = false -> dut_w s' = [] -> forall a, 0 <= a -> in_ram (mem s') a = true ->
         dut_after D (concat (map (op_writes (a20_on (cpu s))) ops)) a = ram_get (mem s') a))).
Proof.
  intros Ha Hops. apply agreement_synced in Ha.
  destruct (run_ops_synced D _ ops _ _ _ _ s Ha Hops eq_refl) as (r & s' & E & [[-> Hy]|Hn]);
    exists r || exists COSIM_OK; exists s'; (split; [done|]); [right|by left].
  split; [done|]. destruct Hy as [(taken & Hc & Ew) (m & E1 & E2 & E3) [Hs Hsi] _]. cbn [app] in *.
  assert (Heq : forall a, 0 <= a -> in_ram (mem s') a = true ->
    (forall p, p ∈ outstanding a s' -> p.1 = true) -> dut_after D taken a = ram_get (mem s') a).
  { intros a H0 Hin Hp. apply (c_equal _ _ _ _ Hc); [done|done|]. by apply Forall_forall. }
  exists taken, m. rewrite Hsi, app_nil_r in E1. split; [done|]. split; [done|]. split.
  { intros a Hin. by apply (c_device _ _ _ _ Hc). }
  split; [done|]. split; [done|]. split; [done|].
  intros Hp Hd a H0 Hin. rewrite Ew. unfold early. rewrite Hd. cbn [map]. rewrite app_nil_r.
  apply Heq; [done|done|]. rewrite (drained_outstanding s' a Hp Hs). intros p Hpin. by apply not_elem_of_nil in Hpin.
Qed.

(** ** Concrete runs *)

Definition demo_cpu : Cpu := mkCpu 0 0 0 0 false true false None 0.

(** Sixteen bytes of RAM, zero on both sides. *)
Definition demo_cosim : Cosim :=
  mkCosim (mkRam (replicate 16 0) 16 15) demo_cpu None 0 false false false 0 false false [] [] 0 0 0
    [] [] [] [] [] [] [].

Lemma demo_agreement : in_agreement (fun _ => 0) demo_cosim.
Proof.
  unfold in_agreement. split; [|split_and!; try reflexivity].
  - constructor; [exists 4; split; [lia|reflexivity]|reflexivity|cbn; lia].
  - intros a Ha Hin. unfold ram_get, znth, zlookup. case_bool; [|done].
    destruct (ram (mem demo_cosim) !! Z.to_nat (Z.land a (rammask (mem demo_cosim)))) as [x|] eqn:Ex; [|done].
    cbn [ram mem demo_cosim] in Ex. apply lookup_replicate in Ex as [-> _]. done.
Qed.

(** z486 ahead of the reference, a silent write on one side only, a device
    write and an OUT. *)
Definition demo_ops : list Op :=
  [DutWrite 4 0x11; RefInsn [(4, 0x11); (5, 0)] []; DutOut 0x70 5; RefInsn [(0xB8000, 0x41)] [(0x70, 1%nat, 5)];
   DutWrite 0xB8000 0x41].

Lemma comparison_sound_witness :
  exists s', run_ops demo_ops demo_cosim = Some (COSIM_OK, s') /\
    forall a, 0 <= a -> in_ram (mem s') a = true ->
      dut_after (fun _ => 0) [(4, 0x11); (0xB8000, 0x41)] a = ram_get (mem s') a.
Proof.
  destruct (comparison_sound (fun _ => 0) demo_ops demo_cosim demo_agreement) as (r & s' & E & H).
  - unfold demo_ops. repeat apply Forall_cons_2; try apply Forall_nil_2; unfold op_ok;
      repeat apply Forall_cons_2; try apply Forall_nil_2; try exact I; first [width | cbn; lia].
  - assert (Er : (fun x => match x with Some (COSIM_OK, s) => negb (fst (cosim_writes_pending s)) &&
        match dut_w s with [] => true | _ => false end | _ => false end) (run_ops demo_ops demo_cosim) = true)
      by (vm_compute; reflexivity).
    rewrite E in Er. exists s'. destruct H as [[-> _]|[-> (taken & m & _ & _ & _ & _ & _ & _ & H)]]; [done|].
    split; [exact E|]. cbv beta iota in Er. apply andb_true_iff in Er as [E1 E2].
    apply H; [by apply negb_true_iff in E1|by destruct (dut_w s')].
Defined.

(** Program order between instructions is not enforced.  A write of z486 of
    a value that the reference's RAM already holds passes as silent even when an
    older instruction's write is outstanding: z486 may perform the writes of two
    instructions in the wrong order, or leave out the older write while younger
    ones go on being accepted. *)
Lemma order_not_enforced :
  (exists s', run_ops [RefInsn [(4, 0x11)] []; RefInsn [(8, 0x22)] []; DutWrite 8 0x22; DutWrite 4 0x11] demo_cosim =
    Some (COSIM_OK, s')) /\
  (exists s', run_ops [RefInsn [(4, 0x11)] []; RefInsn [(8, 0x22)] []; DutWrite 8 0x22;
                       RefInsn [(9, 0x33)] []; DutWrite 9 0x33] demo_cosim = Some (COSIM_OK, s') /\
    outstanding 4 s' = [(false, 0x11)]).
Proof.
  split.
  - eexists. vm_compute. reflexivity.
  - eexists. split; vm_compute; reflexivity.
Qed.

(** A silent write that z486 leaves out stands in the way of the next change of
    its byte. *)
Lemma silent_write_blocks :
  exists s', run_ops [RefInsn [(4, 0)] []; RefInsn [(4, 0x11)] []; DutWrite 4 0x11] demo_cosim =
    Some (COSIM_ERROR, s') /\ err s' = Some (EWriteValue 4 0x11 0 1).
Proof. eexists. split; vm_compute; reflexivity. Qed.
