(* ===== verification/CosimDecode.v ===== *)
(** * Instruction decoding and undefined flags

    The decoder of verilator/cosim/iss_glue.h ([decode_with], [flag_effect]), the
    instruction classes of cosim86.c ([is_string_op], [is_logic_op],
    [x87_waits]), and the adoption of the arithmetic flags an instruction leaves
    undefined ([cosim_adopt_flags]): a flag is taken from z486 exactly when the
    last instruction left it undefined, or the one before did and the last did
    not write it. *)
From S2P Require Import Prelude.

Definition F_C : Z := 0x001.
Definition F_P : Z := 0x004.
Definition F_A : Z := 0x010.
Definition F_Z : Z := 0x040.
Definition F_S : Z := 0x080.
Definition F_O : Z := 0x800.

(** The union of flags. *)
Definition flags (l : list Z) : Z := foldr Z.lor 0 l.
Definition F_ARITH : Z := flags [F_C; F_P; F_A; F_Z; F_S; F_O].

(** Membership of an opcode in a range, and in a list. *)
Definition within (lo hi b : Z) : bool := (lo <=? b) && (b <=? hi).
Definition one_of (l : list Z) (b : Z) : bool := existsb (Z.eqb b) l.

(** ** Decoding *)

Record insn_t := mkInsn {
  op32 : bool; a32 : bool;
  rep : Z;               (* the prefix byte, or 0 *)
  nprefix : Z;
  op : Z; op2 : Z;
  has_modrm : bool;
  m_mod : Z; m_reg : Z; m_rm : Z
}.

#[export] Instance eta_insn : Eta insn_t :=
  fun r => mkInsn (op32 r) (a32 r) (rep r) (nprefix r) (op r) (op2 r) (has_modrm r) (m_mod r) (m_reg r) (m_rm r).

Definition modrm_1byte (op : Z) : bool :=
  if op <? 0x40 then Z.land op 7 <? 4
  else one_of [0x62; 0x63; 0x69; 0x6B] op || within 0x80 0x8F op ||
       ((op =? 0xC0) || (op =? 0xC1) || within 0xC4 0xC7 op) || within 0xD0 0xD3 op || within 0xD8 0xDF op ||
       one_of [0xF6; 0xF7; 0xFE; 0xFF] op.

Definition modrm_0f (op : Z) : bool :=
  (op <=? 0x03) || within 0x20 0x23 op || within 0x90 0x9F op ||
  one_of [0xA3; 0xA4; 0xA5; 0xAB; 0xAC; 0xAD; 0xAF;
          0xB0; 0xB1; 0xB2; 0xB3; 0xB4; 0xB5; 0xB6; 0xB7;
          0xBA; 0xBB; 0xBC; 0xBD; 0xBE; 0xBF; 0xC0; 0xC1] op.

(** The prefix loop; [None] when no other byte is found within [fuel]. *)
Fixpoint decode_prefixes (fuel : nat) (rd : Z -> Z) (lin : Z) (d : insn_t) : option insn_t :=
  let b := rd (u32 (lin + nprefix d)) in
  let next d :=
    match fuel with
    | O => None
    | S fuel => decode_prefixes fuel rd lin (d <| nprefix := nprefix d + 1 |>)
    end in
  if b =? 0x66 then next (d <| op32 := negb (op32 d) |>)
  else if b =? 0x67 then next (d <| a32 := negb (a32 d) |>)
  else if (b =? 0xF2) || (b =? 0xF3) then next (d <| rep := b |>)
  else if one_of [0xF0; 0x26; 0x2E; 0x36; 0x3E; 0x64; 0x65] b then next d
  else Some d.

Definition decode_with (fuel : nat) (rd : Z -> Z) (lin : Z) (def32 : bool) : option insn_t :=
  d ← decode_prefixes fuel rd lin (mkInsn def32 def32 0 0 0 0 false 0 0 0);
  let p := u32 (lin + nprefix d) in
  let d := d <| op := rd p |> in
  let p := u32 (p + 1) in
  let '(d, p) :=
    if op d =? 0x0F then
      let d := d <| op2 := rd p |> in (d <| has_modrm := modrm_0f (op2 d) |>, u32 (p + 1))
    else (d <| has_modrm := modrm_1byte (op d) |>, p) in
  Some (if has_modrm d then
          let m := rd p in
          d <| m_mod := Z.shiftr m 6 |> <| m_reg := Z.land (Z.shiftr m 3) 7 |> <| m_rm := Z.land m 7 |>
        else d).

(** [peek_opcode]: the opcode at [pc] after at most 15 bytes, and whether REP is
    present; [rd] reads the code byte at an offset of the code segment. *)
Fixpoint peek_loop (n : nat) (i : Z) (rd : Z -> Z) (rep : bool) : Z * bool :=
  match n with
  | O => (0x90, rep)
  | S n =>
    let b := rd i in
    if (b =? 0xF2) || (b =? 0xF3) then peek_loop n (i + 1) rd true
    else if one_of [0x26; 0x2E; 0x36; 0x3E; 0x64; 0x65; 0x66; 0x67; 0xF0] b then peek_loop n (i + 1) rd rep
    else (b, rep)
  end.

(** A code byte, with the wrap of the instruction pointer. *)
Definition code_byte (rd : Z -> Z) (cs pc : Z) (use32 : bool) (i : Z) : Z :=
  rd (u32 (cs + Z.land (u32 (pc + i)) (if use32 then 0xFFFFFFFF else 0xFFFF))).

Definition peek_opcode (rd : Z -> Z) (cs pc : Z) (use32 : bool) : Z * bool :=
  peek_loop 15 0 (code_byte rd cs pc use32) false.

Definition is_string_op (op : Z) : bool := within 0xA4 0xA7 op || within 0xAA 0xAF op || within 0x6C 0x6F op.

(** [cosim_at_rep_string]. *)
Definition cosim_at_rep_string (rd : Z -> Z) (cs pc : Z) (use32 : bool) : bool :=
  let '(op, rep) := peek_opcode rd cs pc use32 in rep && is_string_op op.

Definition is_logic_op (d : insn_t) : bool :=
  let o := op d in
  if (o <? 0x40) && (Z.land o 7 <? 6) then one_of [1; 4; 6] (Z.land (Z.shiftr o 3) 7)
  else if within 0x80 0x83 o then one_of [1; 4; 6] (m_reg d)
  else if one_of [0x84; 0x85; 0xA8; 0xA9] o then true
  else if (o =? 0xF6) || (o =? 0xF7) then (m_reg d =? 0) || (m_reg d =? 1)
  else false.

Definition x87_waits (d : insn_t) : bool :=
  if op d =? 0x9B then true
  else if negb (Z.land (op d) 0xF8 =? 0xD8) then false
  else
    let esc := Z.land (op d) 7 in
    let modrm := Z.lor (Z.lor (Z.shiftl (m_mod d) 6) (Z.shiftl (m_reg d) 3)) (m_rm d) in
    if ((esc =? 1) || (esc =? 5)) && negb (m_mod d =? 3) && (6 <=? m_reg d) then false
    else if (esc =? 7) && (modrm =? 0xE0) then false
    else if (esc =? 3) && within 0xE0 0xE4 modrm then false
    else true.

(** ** Flag effects *)

Definition cc_flags (cc : Z) : Z :=
  znth 0 [F_O; F_C; F_Z; flags [F_C; F_Z]; F_S; F_P; flags [F_S; F_O]; flags [F_Z; F_S; F_O]]
    (Z.land (Z.shiftr cc 1) 7).

Record fx_t := mkFx { wr : Z; ud : Z; rd : Z; dest_undef : bool; branch : bool }.

Definition fx_none : fx_t := mkFx 0 0 0 false false.
Definition fx (wr ud rd : Z) : fx_t := mkFx wr ud rd false false.

(** The arithmetic group: ADD OR ADC SBB AND SUB XOR CMP. *)
Definition fx_alu (k : Z) : fx_t :=
  fx F_ARITH (if one_of [1; 4; 6] k then F_A else 0) (if (k =? 2) || (k =? 3) then F_C else 0).

(** Shifts and rotates by [cnt] of a [w]-bit operand. *)
Definition fx_shift (reg cnt w : Z) : fx_t :=
  let cnt := Z.land cnt 31 in
  if cnt =? 0 then fx_none
  else if reg <=? 3 then
    fx (flags [F_C; F_O]) (if negb (cnt =? 1) then F_O else 0) (if 2 <=? reg then F_C else 0)
  else fx F_ARITH (flags [F_A; if negb (cnt =? 1) then F_O else 0; if w <=? cnt then F_C else 0]) 0.

Definition shift_count (op pre_ecx imm_last : Z) : Z :=
  if (op =? 0xD0) || (op =? 0xD1) then 1
  else if (op =? 0xD2) || (op =? 0xD3) then Z.land pre_ecx 0xFF else imm_last.

Definition fx_group3 (reg : Z) : fx_t :=
  if (reg =? 0) || (reg =? 1) then fx F_ARITH F_A 0
  else if reg =? 3 then fx F_ARITH 0 0
  else if (reg =? 4) || (reg =? 5) then fx F_ARITH (flags [F_S; F_Z; F_A; F_P]) 0
  else if (reg =? 6) || (reg =? 7) then fx F_ARITH F_ARITH 0
  else fx_none.

(** One-byte opcodes. *)
Definition fx_1byte (d : insn_t) (pre_ecx imm_last : Z) : fx_t :=
  let o := op d in
  let width := if op32 d then 32 else 16 in
  if (o <? 0x40) && (Z.land o 7 <? 6) then fx_alu (Z.land (Z.shiftr o 3) 7)
  else if (o =? 0x27) || (o =? 0x2F) then fx F_ARITH F_O (flags [F_C; F_A])
  else if (o =? 0x37) || (o =? 0x3F) then fx F_ARITH (flags [F_O; F_S; F_Z; F_P]) F_A
  else if within 0x40 0x4F o then fx (flags [F_O; F_S; F_Z; F_A; F_P]) 0 0
  else if (o =? 0x69) || (o =? 0x6B) then fx F_ARITH (flags [F_S; F_Z; F_A; F_P]) 0
  else if within 0x70 0x7F o then mkFx 0 0 (cc_flags (Z.land o 0xF)) false true
  else if within 0x80 0x83 o then fx_alu (m_reg d)
  else if one_of [0x84; 0x85; 0xA8; 0xA9] o then fx F_ARITH F_A 0
  else if o =? 0x9D then fx F_ARITH 0 0
  else if o =? 0x9E then fx (flags [F_S; F_Z; F_A; F_P; F_C]) 0 0
  else if o =? 0x9F then fx 0 0 (flags [F_S; F_Z; F_A; F_P; F_C])
  else if one_of [0xA6; 0xA7; 0xAE; 0xAF] o then
    (if negb (negb (rep d =? 0) && (pre_ecx =? 0)) then fx F_ARITH 0 0 else fx_none)
  else if (o =? 0xC0) || (o =? 0xC1) || within 0xD0 0xD3 o then
    fx_shift (m_reg d) (shift_count o pre_ecx imm_last) (if negb (Z.land o 1 =? 0) then width else 8)
  else if (o =? 0xD4) || (o =? 0xD5) then fx F_ARITH (flags [F_O; F_A; F_C]) 0
  else if (o =? 0xE0) || (o =? 0xE1) then mkFx 0 0 F_Z false true
  else if o =? 0xF5 then fx F_C 0 F_C
  else if (o =? 0xF8) || (o =? 0xF9) then fx F_C 0 0
  else if (o =? 0xF6) || (o =? 0xF7) then fx_group3 (m_reg d)
  else if ((o =? 0xFE) || (o =? 0xFF)) && (m_reg d <=? 1) then fx (flags [F_O; F_S; F_Z; F_A; F_P]) 0 0
  else fx_none.

(** SHLD and SHRD. *)
Definition fx_double_shift (width cnt : Z) : fx_t :=
  let cnt := Z.land cnt 31 in
  if cnt =? 0 then fx_none
  else if width <? cnt then mkFx F_ARITH F_ARITH 0 true false
  else fx F_ARITH (flags [F_A; if negb (cnt =? 1) then F_O else 0]) 0.

(** Two-byte opcodes. *)
Definition fx_0f (d : insn_t) (pre_ecx imm_last : Z) (zf_after : bool) : fx_t :=
  let o := op2 d in
  let width := if op32 d then 32 else 16 in
  if within 0x80 0x8F o then mkFx 0 0 (cc_flags (Z.land o 0xF)) false true
  else if within 0x90 0x9F o then fx 0 0 (cc_flags (Z.land o 0xF))
  else if one_of [0xA3; 0xAB; 0xB3; 0xBB] o || ((o =? 0xBA) && (4 <=? m_reg d)) then
    fx (flags [F_C; F_O; F_S; F_A; F_P]) (flags [F_O; F_S; F_A; F_P]) 0
  else if one_of [0xA4; 0xA5; 0xAC; 0xAD] o then
    fx_double_shift width (if (o =? 0xA4) || (o =? 0xAC) then imm_last else Z.land pre_ecx 0xFF)
  else if o =? 0xAF then fx F_ARITH (flags [F_S; F_Z; F_A; F_P]) 0
  else if one_of [0xB0; 0xB1; 0xC0; 0xC1] o then fx F_ARITH 0 0
  else if (o =? 0xBC) || (o =? 0xBD) then mkFx F_ARITH (flags [F_C; F_O; F_S; F_A; F_P]) 0 zf_after false
  else if (o =? 0x02) || (o =? 0x03) || ((o =? 0x00) && ((m_reg d =? 4) || (m_reg d =? 5))) then fx F_Z 0 0
  else fx_none.

Definition flag_effect (d : insn_t) (pre_ecx imm_last : Z) (zf_after : bool) : fx_t :=
  if negb (op d =? 0x0F) then fx_1byte d pre_ecx imm_last else fx_0f d pre_ecx imm_last zf_after.

(** ** Undefined flags *)

(** What [run] does with the effect of a completed instruction: AF of a logic
    operation is cleared, not left undefined. *)
Definition effect_of (d : insn_t) (pre_ecx imm_last : Z) (zf_after : bool) : fx_t :=
  let f := flag_effect d pre_ecx imm_last zf_after in
  if is_logic_op d then mkFx (wr f) (Z.land (ud f) (Z.lnot F_A)) (rd f) (dest_undef f) (branch f) else f.

Definition update_udf (udf : Z) (f : fx_t) : Z :=
  Z.lor (Z.land udf (u32 (Z.lnot (Z.lor (wr f) (u32 (Z.shiftl (wr f) 16)))))) (ud f).

(** [cosim_adopt_flags] on [udf] and [cpu_state.flags]. *)
Definition adopt_mask (udf : Z) : Z := Z.land (Z.lor udf (Z.shiftr udf 16)) F_ARITH.

Definition cosim_adopt_flags (dut_eflags udf fl : Z) : Z * Z :=
  let m := adopt_mask udf in
  let udf := u32 (Z.shiftl (Z.land udf 0xFFFF) 16) in
  (udf, if m =? 0 then fl else Z.lor (Z.land fl (Z.lnot m)) (Z.land dut_eflags m)).

(** ** Which flags an instruction affects *)

(** [a] holds only bits of [b]. *)
Definition sub_flags (a b : Z) : bool := Z.land a b =? a.

(** The flags an effect names are arithmetic flags, and it leaves undefined
    only flags it writes. *)
Definition fx_wf (f : fx_t) : bool :=
  sub_flags (ud f) (wr f) && sub_flags (wr f) F_ARITH && sub_flags (rd f) F_ARITH.

(** Split every condition of an effect, and evaluate what is left. *)
Ltac split_effect :=
  repeat match goal with
  | |- context [if ?b then _ else _] => destruct b
  end; vm_compute; reflexivity.

Lemma fx_wf_alu k : fx_wf (fx_alu k) = true.
Proof. unfold fx_alu. split_effect. Qed.

Lemma fx_wf_shift reg cnt w : fx_wf (fx_shift reg cnt w) = true.
Proof. unfold fx_shift. split_effect. Qed.

Lemma fx_wf_group3 reg : fx_wf (fx_group3 reg) = true.
Proof. unfold fx_group3. split_effect. Qed.

Lemma fx_wf_double w cnt : fx_wf (fx_double_shift w cnt) = true.
Proof. unfold fx_double_shift. split_effect. Qed.

Lemma fx_wf_cc cc b : fx_wf (mkFx 0 0 (cc_flags cc) false b) = true.
Proof.
  unfold cc_flags. apply (znth_Forall (fun v => fx_wf (mkFx 0 0 v false b) = true)).
  - by destruct b.
  - repeat apply Forall_cons_2; try apply Forall_nil_2; by destruct b.
Qed.

Lemma fx_wf_1byte d ecx imm : fx_wf (fx_1byte d ecx imm) = true.
Proof.
  unfold fx_1byte.
  repeat match goal with
  | |- context [if ?b then _ else _] =>
    lazymatch b with
    | context [if _ then _ else _] => fail
    | _ => destruct b
    end
  end; first [apply fx_wf_alu | apply fx_wf_shift | apply fx_wf_group3 | apply fx_wf_cc | reflexivity].
Qed.

Lemma fx_wf_0f d ecx imm zf : fx_wf (fx_0f d ecx imm zf) = true.
Proof.
  unfold fx_0f.
  repeat match goal with
  | |- context [if ?b then _ else _] => destruct b
  end; first [apply fx_wf_cc | apply fx_wf_double | by destruct zf].
Qed.

Lemma fx_wf_effect d ecx imm zf : fx_wf (flag_effect d ecx imm zf) = true.
Proof. unfold flag_effect. destruct (negb _); [apply fx_wf_1byte | apply fx_wf_0f]. Qed.

Lemma sub_flags_spec a b : sub_flags a b = true <-> (forall i, Z.testbit a i = true -> Z.testbit b i = true).
Proof.
  unfold sub_flags. rewrite Z.eqb_eq. split.
  - intros H i Hi. rewrite <- H, Z.land_spec in Hi. by apply andb_prop in Hi as [_ Hi].
  - intros H. apply Z.bits_inj'. intros i _. rewrite Z.land_spec.
    destruct (Z.testbit a i) eqn:E; [|done]. by rewrite (H i E).
Qed.

(** The effect [run] takes from an instruction is well formed. *)
Lemma fx_wf_effect_of d ecx imm zf : fx_wf (effect_of d ecx imm zf) = true.
Proof.
  pose proof (fx_wf_effect d ecx imm zf) as H. unfold effect_of. case_match; [|done].
  unfold fx_wf in *. rewrite !andb_true_iff in *. destruct H as [[Hu Hw] Hr]. simpl. split_and!; [|done|done].
  apply sub_flags_spec. intros i Hi. rewrite Z.land_spec in Hi. apply andb_prop in Hi as [Hi _].
  by apply (proj1 (sub_flags_spec _ _) Hu).
Qed.

(** ** Adoption of undefined flags *)

(** One retired instruction as the bench compares it: the effect of the
    instruction ([None] when it faulted or was held back, and [udf] is restored),
    the flags 86Box computed and the flags z486 reports. *)
Record retired := mkRetired { r_effect : option fx_t; r_box : Z; r_dut : Z }.

Definition step_udf (udf : Z) (e : option fx_t) : Z :=
  match e with Some f => update_udf udf f | None => udf end.

(** The flags of the reference after each instruction and its adoption. *)
Fixpoint adopt_run (udf : Z) (l : list retired) : list Z :=
  match l with
  | [] => []
  | r :: l =>
    let '(udf, fl) := cosim_adopt_flags (r_dut r) (step_udf udf (r_effect r)) (r_box r) in
    fl :: adopt_run udf l
  end.

(** The flags an instruction leaves undefined, and those it writes. *)
Definition undefines (r : retired) (i : Z) : bool := from_option (fun f => Z.testbit (ud f) i) false (r_effect r).
Definition writes (r : retired) (i : Z) : bool := from_option (fun f => Z.testbit (wr f) i) false (r_effect r).

Definition retired_wf (r : retired) : Prop := from_option (fun f => fx_wf f = true) True (r_effect r).

Lemma retired_wf_effect d ecx imm zf box dut : retired_wf (mkRetired (Some (effect_of d ecx imm zf)) box dut).
Proof. apply fx_wf_effect_of. Qed.

Lemma retired_parts r :
  retired_wf r -> sub_flags (from_option ud 0 (r_effect r)) F_ARITH = true /\
  sub_flags (from_option wr 0 (r_effect r)) F_ARITH = true.
Proof.
  unfold retired_wf. destruct (r_effect r) as [f|]; [|done]. simpl. intros H.
  unfold fx_wf in H. rewrite !andb_true_iff in H. destruct H as [[Hu Hw] _].
  split; [|done]. rewrite !sub_flags_spec in *. intros i Hi. by apply Hw, Hu.
Qed.

Lemma arith_bits i : Z.testbit F_ARITH i = true -> 0 <= i < 12.
Proof.
  intros H. destruct (Z.ltb_spec i 0); [by rewrite Z.testbit_neg_r in H|].
  destruct (Z.ltb_spec i 12); [done|]. rewrite Z.bits_above_log2 in H; [done|by vm_compute|].
  assert (Z.log2 F_ARITH = 11) by reflexivity. lia.
Qed.

Lemma sub_arith_bits a i : sub_flags a F_ARITH = true -> ~ 0 <= i < 12 -> Z.testbit a i = false.
Proof.
  rewrite sub_flags_spec. intros H Hi. destruct (Z.testbit a i) eqn:E; [|done].
  by destruct Hi; apply arith_bits, H.
Qed.

Lemma u32_testbit x i : 0 <= i -> Z.testbit (u32 x) i = Z.testbit x i && (i <? 32).
Proof.
  intros Hi. unfold u32. change 4294967296 with (2 ^ 32).
  destruct (Z.ltb_spec i 32).
  - by rewrite Z.mod_pow2_bits_low, andb_true_r by lia.
  - by rewrite Z.mod_pow2_bits_high, andb_false_r by lia.
Qed.

(** [udf] after an instruction, when the one before left [u] undefined. *)
Lemma step_udf_bits u r i :
  sub_flags u F_ARITH = true -> retired_wf r -> 0 <= i < 32 ->
  Z.testbit (step_udf (Z.shiftl u 16) (r_effect r)) i =
  (if 16 <=? i then Z.testbit u (i - 16) && negb (writes r (i - 16)) else undefines r i).
Proof.
  intros Hu Hr Hi. destruct (retired_parts r Hr) as [Hud Hwr]. unfold writes, undefines.
  destruct (r_effect r) as [f|]; simpl in *.
  - unfold update_udf. rewrite Z.lor_spec, Z.land_spec, Z.shiftl_spec, u32_testbit, Z.lnot_spec, Z.lor_spec,
      u32_testbit, Z.shiftl_spec by lia.
    assert (i <? 32 = true) as -> by lia. rewrite !andb_true_r.
    destruct (Z.leb_spec 16 i).
    + rewrite (sub_arith_bits (ud f) i), (sub_arith_bits (wr f) i) by (done || lia). by rewrite orb_false_r.
    + rewrite (Z.testbit_neg_r u) by lia. done.
  - rewrite Z.shiftl_spec by lia. destruct (Z.leb_spec 16 i); [by rewrite andb_true_r|].
    by rewrite Z.testbit_neg_r by lia.
Qed.

Lemma step_mask u r i :
  sub_flags u F_ARITH = true -> retired_wf r ->
  Z.testbit (adopt_mask (step_udf (Z.shiftl u 16) (r_effect r))) i =
  undefines r i || (Z.testbit u i && negb (writes r i)).
Proof.
  intros Hu Hr. destruct (retired_parts r Hr) as [Hud Hwr]. unfold adopt_mask.
  rewrite Z.land_spec. destruct (Z.testbit F_ARITH i) eqn:Ha.
  - apply arith_bits in Ha. rewrite Z.lor_spec, Z.shiftr_spec, !step_udf_bits by (done || lia).
    assert (16 <=? i = false) as -> by lia. assert (16 <=? i + 16 = true) as -> by lia.
    rewrite (eq_refl : i + 16 - 16 = i) || replace (i + 16 - 16) with i by lia. by rewrite andb_true_r.
  - rewrite andb_false_r. symmetry. unfold undefines.
    assert (Z.testbit u i = false) as ->.
    { destruct (Z.testbit u i) eqn:E; [|done]. rewrite (proj1 (sub_flags_spec _ _) Hu i E) in Ha. done. }
    destruct (r_effect r) as [f|]; [|done]. simpl in *. rewrite orb_false_r.
    destruct (Z.testbit (ud f) i) eqn:E; [|done]. by rewrite (proj1 (sub_flags_spec _ _) Hud i E) in Ha.
Qed.

Lemma step_next u r :
  sub_flags u F_ARITH = true -> retired_wf r ->
  u32 (Z.shiftl (Z.land (step_udf (Z.shiftl u 16) (r_effect r)) 0xFFFF) 16) =
  Z.shiftl (from_option ud 0 (r_effect r)) 16.
Proof.
  intros Hu Hr. destruct (retired_parts r Hr) as [Hud Hwr]. apply Z.bits_inj'. intros i Hi.
  rewrite u32_testbit, !Z.shiftl_spec, Z.land_spec by lia. change 0xFFFF with (Z.ones 16).
  destruct (Z.ltb_spec i 16); [by rewrite !Z.testbit_neg_r by lia|].
  destruct (Z.ltb_spec i 32).
  - rewrite step_udf_bits by (done || lia). assert (16 <=? i - 16 = false) as -> by lia.
    rewrite Z.ones_spec_low by lia. rewrite !andb_true_r. unfold undefines.
    destruct (r_effect r); simpl; by rewrite ?Z.bits_0.
  - rewrite andb_false_r. symmetry. apply sub_arith_bits; [done|lia].
Qed.

Lemma adopt_bits udf fl dut i :
  Z.testbit (snd (cosim_adopt_flags dut udf fl)) i =
  if Z.testbit (adopt_mask udf) i then Z.testbit dut i else Z.testbit fl i.
Proof.
  unfold cosim_adopt_flags. cbn [snd]. destruct (Z.eqb_spec (adopt_mask udf) 0) as [->|]; [by rewrite Z.bits_0|].
  destruct (Z.ltb_spec i 0); [by rewrite !Z.testbit_neg_r by done|].
  rewrite Z.lor_spec, !Z.land_spec, Z.lnot_spec by done.
  destruct (Z.testbit (adopt_mask udf) i); simpl; rewrite ?andb_true_r, ?andb_false_r, ?orb_false_r; done.
Qed.

(** The flags left undefined by the instruction before the [k]-th. *)
Definition undefined_before (u : Z) (l : list retired) (k : nat) (i : Z) : bool :=
  match k with
  | O => Z.testbit u i
  | S k => from_option (fun r => undefines r i) false (l !! k)
  end.

Lemma adopt_run_bits l : forall u k fl r i,
  sub_flags u F_ARITH = true -> Forall retired_wf l ->
  adopt_run (Z.shiftl u 16) l !! k = Some fl -> l !! k = Some r ->
  Z.testbit fl i =
  if undefines r i || (undefined_before u l k i && negb (writes r i))
  then Z.testbit (r_dut r) i else Z.testbit (r_box r) i.
Proof.
  induction l as [|x l IH]; intros u k fl r i Hu Hl Hk Hr; [done|].
  apply Forall_cons in Hl as [Hx Hl]. cbn [adopt_run] in Hk.
  rewrite (surjective_pairing (cosim_adopt_flags _ _ _)) in Hk.
  change (fst (cosim_adopt_flags (r_dut x) (step_udf (Z.shiftl u 16) (r_effect x)) (r_box x)))
    with (u32 (Z.shiftl (Z.land (step_udf (Z.shiftl u 16) (r_effect x)) 0xFFFF) 16)) in Hk.
  rewrite step_next in Hk by done. destruct k as [|k].
  - apply Some_inj in Hk. apply Some_inj in Hr. subst x. rewrite <- Hk, adopt_bits. by rewrite step_mask.
  - simpl in Hk, Hr. assert (sub_flags (from_option ud 0 (r_effect x)) F_ARITH = true) as Hu' by apply retired_parts, Hx.
    rewrite (IH _ _ _ _ i Hu' Hl Hk Hr). destruct k; simpl; [|done].
    unfold undefines. by destruct (r_effect x); simpl; rewrite ?Z.bits_0.
Qed.

(** C30: In every run of instructions compared with z486, from no undefined flag
    pending, the reference's flags after an instruction and its adoption are
    z486's on the flags that the instruction left undefined and on those the
    instruction before left undefined that this one did not write; every other
    flag is the one 86Box computed. *)
Theorem flags_adopted l k fl r i
  (Hl : Forall retired_wf l) (Hk : adopt_run 0 l !! k = Some fl) (Hr : l !! k = Some r) :
  Z.testbit fl i =
  if undefines r i || (undefined_before 0 l k i && negb (writes r i))
  then Z.testbit (r_dut r) i else Z.testbit (r_box r) i.
Proof. by apply (adopt_run_bits l 0 k fl r i). Qed.

(** ADD, MUL, an increment: MUL leaves SF, ZF, AF and PF undefined. *)
Definition demo_retired : list retired :=
  [mkRetired (Some (effect_of (mkInsn false false 0 0 0x01 0 true 3 0 0) 0 0 false)) 0x91 0x91;
   mkRetired (Some (effect_of (mkInsn false false 0 0 0xF7 0 true 3 4 0) 0 0 false)) 0x04 0xD1;
   mkRetired None 0x01 0x01].

Lemma flags_adopted_witness :
  adopt_run 0 demo_retired = [0x91; 0xD0; 0x01] /\
  Z.testbit 0xD0 6 =
  if undefines (mkRetired (Some (fx F_ARITH (flags [F_S; F_Z; F_A; F_P]) 0)) 0x04 0xD1) 6 ||
     (undefined_before 0 demo_retired 1 6 && negb (writes (mkRetired (Some (fx F_ARITH (flags [F_S; F_Z; F_A; F_P]) 0)) 0x04 0xD1) 6))
  then Z.testbit 0xD1 6 else Z.testbit 0x04 6.
Proof.
  split; [by vm_compute|].
  apply (flags_adopted demo_retired 1 0xD0 (mkRetired (Some (fx F_ARITH (flags [F_S; F_Z; F_A; F_P]) 0)) 0x04 0xD1) 6).
  - unfold demo_retired; repeat apply Forall_cons_2; try apply Forall_nil_2; by vm_compute.
  - by vm_compute.
  - by vm_compute.
Defined.

(** ** Decoding *)

Definition is_prefix (b : Z) : bool :=
  one_of [0x66; 0x67; 0xF2; 0xF3; 0xF0; 0x26; 0x2E; 0x36; 0x3E; 0x64; 0x65] b.

(** The state of the decoder after one prefix byte, and after a list of them. *)
Definition after_prefix (d : insn_t) (b : Z) : insn_t :=
  (if b =? 0x66 then d <| op32 := negb (op32 d) |>
   else if b =? 0x67 then d <| a32 := negb (a32 d) |>
   else if (b =? 0xF2) || (b =? 0xF3) then d <| rep := b |> else d) <| nprefix := nprefix d + 1 |>.

(** One round of the decoder's loop, and of [peek_opcode]'s. *)
Lemma decode_prefixes_eq fuel rd lin d b :
  rd (u32 (lin + nprefix d)) = b ->
  decode_prefixes fuel rd lin d =
  if is_prefix b then
    match fuel with O => None | S fuel => decode_prefixes fuel rd lin (after_prefix d b) end
  else Some d.
Proof.
  intros Hb. unfold is_prefix, after_prefix, one_of. simpl.
  destruct fuel; cbn [decode_prefixes]; rewrite Hb; unfold one_of; simpl;
    destruct (b =? 0x66), (b =? 0x67), (b =? 0xF2), (b =? 0xF3); try done; simpl; by case_match.
Qed.

Lemma peek_loop_eq n i rd r b :
  rd i = b ->
  peek_loop (S n) i rd r = if is_prefix b then peek_loop n (i + 1) rd (r || (b =? 0xF2) || (b =? 0xF3)) else (b, r).
Proof.
  intros Hb. cbn [peek_loop]. rewrite Hb. unfold is_prefix, one_of. simpl.
  destruct (Z.eqb_spec b 0xF2) as [->|]; [by destruct r|].
  destruct (Z.eqb_spec b 0xF3) as [->|]; [by destruct r|].
  simpl. rewrite !orb_false_r.
  by destruct (b =? 0x26), (b =? 0x2E), (b =? 0x36), (b =? 0x3E), (b =? 0x64), (b =? 0x65), (b =? 0x66), (b =? 0x67), (b =? 0xF0).
Qed.

Lemma prefix_run rd lin b l : forall fuel d,
  (forall k x, l !! k = Some x -> rd (u32 (lin + nprefix d + Z.of_nat k)) = x) ->
  Forall (fun x => is_prefix x = true) l -> is_prefix b = false ->
  rd (u32 (lin + nprefix d + Z.of_nat (length l))) = b -> (length l <= fuel)%nat ->
  decode_prefixes fuel rd lin d = Some (fold_left after_prefix l d).
Proof.
  induction l as [|x l IH]; intros fuel d Hl Hp Hb Hend Hf.
  - simpl in *. rewrite Z.add_0_r in Hend. by rewrite (decode_prefixes_eq _ _ _ _ _ Hend), Hb.
  - apply Forall_cons in Hp as [Hx Hp]. simpl in Hf. destruct fuel as [|fuel]; [lia|].
    assert (nprefix (after_prefix d x) = nprefix d + 1) as Hn by (unfold after_prefix; repeat case_match; done).
    assert (rd (u32 (lin + nprefix d)) = x) as E by (rewrite <- (Hl 0%nat x eq_refl); f_equal; f_equal; lia).
    rewrite (decode_prefixes_eq _ _ _ _ _ E), Hx. rewrite IH; [done| |done|done| |lia].
    + intros k y Hk. rewrite <- (Hl (S k) y Hk), Hn. f_equal. f_equal. lia.
    + rewrite <- Hend, Hn. simpl length. f_equal. f_equal. lia.
Qed.

Lemma last_cons_default (x d : Z) l : List.last (x :: l) d = List.last l x.
Proof.
  revert x d. induction l as [|y l IH]; intros x d; [done|].
  change (List.last (y :: l) d = List.last (y :: l) x). by rewrite !(IH y).
Qed.

(** Whether [x] occurs an odd number of times: each size prefix toggles. *)
Definition parity (x : Z) (l : list Z) : bool := foldr (fun y b => xorb (y =? x) b) false l.

Lemma after_prefixes_fields l : forall d,
  nprefix (fold_left after_prefix l d) = nprefix d + Z.of_nat (length l) /\
  op32 (fold_left after_prefix l d) = xorb (op32 d) (parity 0x66 l) /\
  a32 (fold_left after_prefix l d) = xorb (a32 d) (parity 0x67 l) /\
  rep (fold_left after_prefix l d) =
    List.last (List.filter (fun x => (x =? 0xF2) || (x =? 0xF3)) l) (rep d).
Proof.
  induction l as [|x l IH]; intros d.
  - simpl. by rewrite Z.add_0_r, !xorb_false_r.
  - cbn [fold_left parity foldr List.filter]. fold (parity 0x66 l). fold (parity 0x67 l).
    destruct (IH (after_prefix d x)) as (->&->&->&->). unfold after_prefix. clear IH.
    assert (nprefix d + 1 + Z.of_nat (length l) = nprefix d + Z.of_nat (length (x :: l))) as Hn by (simpl; lia).
    destruct (Z.eqb_spec x 0x66) as [->|]; [|destruct (Z.eqb_spec x 0x67) as [->|]].
    + split_and!; [done|simpl; by destruct (op32 d), (parity 0x66 l)|done|done].
    + split_and!; [done|done|simpl; by destruct (a32 d), (parity 0x67 l)|done].
    + destruct ((x =? 0xF2) || (x =? 0xF3)); (split_and!; [done|done|done|]); [|done].
      simpl rep. by rewrite last_cons_default.
Qed.

Lemma after_prefix_fields d b :
  nprefix (after_prefix d b) = nprefix d + 1 /\
  (rep (after_prefix d b) = if (b =? 0xF2) || (b =? 0xF3) then b else rep d).
Proof.
  unfold after_prefix. destruct (Z.eqb_spec b 0x66) as [->|]; [done|].
  destruct (Z.eqb_spec b 0x67) as [->|]; [done|]. by case_match.
Qed.

Lemma decode_prefixes_le fuel rd lin : forall d d', decode_prefixes fuel rd lin d = Some d' -> nprefix d <= nprefix d'.
Proof.
  induction fuel as [|fuel IH]; intros d d'; rewrite (decode_prefixes_eq _ _ _ _ _ eq_refl);
    destruct (is_prefix _) eqn:E; intros H; try (injection H as <-; lia); [done|].
  apply IH in H. destruct (after_prefix_fields d (rd (u32 (lin + nprefix d)))) as [Hn _]. lia.
Qed.

(** [peek_opcode] takes the decoder's path through the prefixes. *)
Lemma peek_prefixes rd rdc lin : forall fuel n d d',
  decode_prefixes fuel rd lin d = Some d' -> 0 <= nprefix d -> nprefix d' < nprefix d + Z.of_nat n ->
  (forall i, 0 <= i <= nprefix d' -> rdc i = rd (u32 (lin + i))) ->
  peek_loop n (nprefix d) rdc (negb (rep d =? 0)) = (rd (u32 (lin + nprefix d')), negb (rep d' =? 0)).
Proof.
  intros fuel. induction fuel as [|fuel IH]; intros n d d' H H0 Hn Hrd;
    pose proof (decode_prefixes_le _ _ _ _ _ H) as Hle;
    (destruct n as [|n]; [lia|]);
    rewrite (decode_prefixes_eq _ _ _ _ _ (eq_sym (Hrd (nprefix d) ltac:(lia)))) in H;
    rewrite (peek_loop_eq _ _ _ _ _ eq_refl); destruct (is_prefix (rdc (nprefix d))) eqn:E.
  - done.
  - injection H as <-. by rewrite Hrd by lia.
  - set (b := rdc (nprefix d)) in *. destruct (after_prefix_fields d b) as [Hf Hr].
    rewrite <- Hf. rewrite <- (IH n _ _ H); [|lia|lia|done]. f_equal. rewrite Hr.
    destruct (Z.eqb_spec b 0xF2) as [->|]; [simpl; by rewrite orb_true_r|].
    destruct (Z.eqb_spec b 0xF3) as [->|]; simpl; by rewrite ?orb_true_r, ?orb_false_r.
  - injection H as <-. by rewrite Hrd by lia.
Qed.

Lemma decode_with_split fuel rd lin def32 d :
  decode_with fuel rd lin def32 = Some d ->
  exists d0, decode_prefixes fuel rd lin (mkInsn def32 def32 0 0 0 0 false 0 0 0) = Some d0 /\
    nprefix d = nprefix d0 /\ rep d = rep d0 /\ op32 d = op32 d0 /\ a32 d = a32 d0 /\
    op d = rd (u32 (lin + nprefix d0)).
Proof.
  unfold decode_with. destruct (decode_prefixes _ _ _ _) as [d0|]; [|done]. simpl.
  intros H. exists d0. split; [done|].
  destruct (_ =? 15); simpl in H; apply Some_inj in H; subst d; by case_match.
Qed.

Lemma code_byte_linear rd cs pc use32 i :
  is_u32 pc -> 0 <= i -> use32 = true \/ pc + i < 0x10000 ->
  code_byte rd cs pc use32 i = rd (u32 (u32 (cs + pc) + i)).
Proof.
  intros Hpc Hi H. unfold code_byte. f_equal. destruct use32.
  - change 0xFFFFFFFF with (Z.ones 32). rewrite Z.land_ones by lia. urange.
  - destruct H as [H|H]; [done|]. rewrite land_65535. urange.
Qed.

(** Where the instruction pointer does not wrap and fewer than fifteen
    prefixes precede the opcode, the two decoders of the reference agree: the
    opcode and the REP flag [peek_opcode] finds are those of [decode_with]. *)
Lemma decoders_agree fuel rd cs pc use32 d
  (Hd : decode_with fuel rd (u32 (cs + pc)) use32 = Some d) (Hp : nprefix d < 15) (Hpc : is_u32 pc)
  (Hw : use32 = true \/ pc + nprefix d < 0x10000) :
  peek_opcode rd cs pc use32 = (op d, negb (rep d =? 0)).
Proof.
  apply decode_with_split in Hd as (d0 & Hd & Hn & Hr & _ & _ & Ho).
  rewrite Ho, Hr. rewrite Hn in Hp, Hw. unfold peek_opcode.
  rewrite <- (peek_prefixes rd (code_byte rd cs pc use32) (u32 (cs + pc)) fuel 15 _ d0 Hd); [done|done|simpl; lia|].
  intros i Hi. apply code_byte_linear; [done|lia|]. destruct Hw; [by left|right; lia].
Qed.

(** REP MOVSW with a 32-bit address size, in a 16-bit segment. *)
Definition demo_code (a : Z) : Z := znth 0x90 [0xF3; 0x67; 0xA5; 0x90] (a - 0x12350).

Lemma decoders_agree_witness : peek_opcode demo_code 0x12340 0x10 false = (0xA5, true).
Proof.
  apply (decoders_agree 15 demo_code 0x12340 0x10 false (mkInsn false true 0xF3 2 0xA5 0 false 0 0 0)).
  - by vm_compute.
  - by vm_compute.
  - by vm_compute.
  - right. by vm_compute.
Defined.

(** At the end of a 64 KB segment the decoders do part: [peek_opcode] wraps the
    offset, [decode_with] reads the byte after the segment. *)
Example decoders_part :
  let rd a := if a =? 0x1FFFF then 0x66 else if a =? 0x10000 then 0x40 else 0xF4 in
  peek_opcode rd 0x10000 0xFFFF false = (0x40, false) /\
  option_map op (decode_with 15 rd 0x1FFFF false) = Some 0xF4.
Proof. by vm_compute. Qed.

Lemma modrm_split m :
  8 * (8 * Z.shiftr m 6 + Z.land (Z.shiftr m 3) 7) + Z.land m 7 = m /\
  0 <= Z.land (Z.shiftr m 3) 7 < 8 /\ 0 <= Z.land m 7 < 8.
Proof. rewrite !shiftr_div, !land_7 by lia. divlia. Qed.

(** The decoder on a list of prefixes followed by an opcode: it always
    stops, counts the prefixes, toggles the operand and address sizes once per
    size prefix, keeps the last REP prefix, and splits the ModR/M byte exactly
    for the opcodes that have one. *)
Lemma decode_fields fuel rd lin def32 l b
  (Hl : forall k x, l !! k = Some x -> rd (u32 (lin + Z.of_nat k)) = x)
  (Hp : Forall (fun x => is_prefix x = true) l) (Hb : is_prefix b = false)
  (Hend : rd (u32 (lin + Z.of_nat (length l))) = b) (Hf : (length l <= fuel)%nat) :
  exists d, decode_with fuel rd lin def32 = Some d /\ op d = b /\ nprefix d = Z.of_nat (length l) /\
    op32 d = xorb def32 (parity 0x66 l) /\ a32 d = xorb def32 (parity 0x67 l) /\
    rep d = List.last (List.filter (fun x => (x =? 0xF2) || (x =? 0xF3)) l) 0 /\
    (has_modrm d = if b =? 0x0F then modrm_0f (op2 d) else modrm_1byte b) /\
    (has_modrm d = true ->
     8 * (8 * m_mod d + m_reg d) + m_rm d =
       rd (u32 (lin + Z.of_nat (length l) + (if b =? 0x0F then 2 else 1))) /\
     0 <= m_reg d < 8 /\ 0 <= m_rm d < 8).
Proof.
  pose proof (prefix_run rd lin b l fuel (mkInsn def32 def32 0 0 0 0 false 0 0 0)) as H.
  simpl nprefix in H. rewrite !Z.add_0_r in H.
  specialize (H Hl Hp Hb Hend Hf).
  destruct (after_prefixes_fields l (mkInsn def32 def32 0 0 0 0 false 0 0 0)) as (Hn&H32&Ha&Hr).
  simpl in Hn, H32, Ha, Hr. unfold decode_with. rewrite H. simpl mbind. clear H.
  revert Hn H32 Ha Hr. generalize (fold_left after_prefix l (mkInsn def32 def32 0 0 0 0 false 0 0 0)).
  intros d0 Hn H32 Ha Hr. rewrite Z.add_0_l in Hn. rewrite Hn, Hend.
  destruct (b =? 15) eqn:E15; (eexists; split; [reflexivity|]).
  - destruct (modrm_0f (rd _)) eqn:E0; simpl; split_and!; try done. intros _.
    destruct (modrm_split (rd (u32 (u32 (u32 (lin + Z.of_nat (length l)) + 1) + 1)))) as (->&?&?).
    split; [|done]. f_equal. urange.
  - destruct (modrm_1byte b) eqn:E0; simpl; split_and!; try done. intros _.
    destruct (modrm_split (rd (u32 (u32 (lin + Z.of_nat (length l)) + 1)))) as (->&?&?).
    split; [|done]. f_equal. urange.
Qed.

Lemma decode_fields_witness :
  exists d, decode_with 15 demo_code 0x12350 false = Some d /\ op d = 0xA5 /\ nprefix d = 2 /\
    op32 d = xorb false false /\ a32 d = xorb false true /\ rep d = 0xF3 /\
    has_modrm d = modrm_1byte 0xA5 /\
    (has_modrm d = true ->
     8 * (8 * m_mod d + m_reg d) + m_rm d = demo_code (u32 (0x12350 + 2 + 1)) /\
     0 <= m_reg d < 8 /\ 0 <= m_rm d < 8).
Proof.
  apply (decode_fields 15 demo_code 0x12350 false [0xF3; 0x67] 0xA5).
  - intros [|[|k]] x H; [injection H as <-; by vm_compute | injection H as <-; by vm_compute | done].
  - repeat apply Forall_cons_2; try apply Forall_nil_2; by vm_compute.
  - by vm_compute.
  - by vm_compute.
  - simpl; lia.
Defined.
