(* ===== verification/CosimAccess.v ===== *)
(** * Memory and I/O accesses of the reference CPU

    The accesses an instruction of the 86Box core makes, as
    verilator/cosim/stubs.c and cosim86.c serve them: translation byte by byte
    ([xl], [read_n], [write_n]), device reads answered from z486's ([rd_hook]),
    port reads ([io_in]), code fetches ([getpccache]) and the probes of string
    instructions.  An instruction is a program of these accesses ([Prog]); what
    it computes in between is 86Box's.

    A write that faults leaves memory alone, except the first page's part of a
    split one ([write_faults]); what was written is read back
    ([read_after_write]); and the log of a step undoes all of its stores as long
    as it is not full ([exec_undo]). *)
From S2P Require Import Prelude CosimMem CosimMatch.

Record Iss := mkIss {
  co : Cosim;
  iss_partial : list (Z * Z);     (* iss_partial_pa, iss_partial_val *)
  split_probe : Z * Z             (* split_probe_lin, split_probe_n *)
}.

#[export] Instance eta_Iss : Eta Iss := fun r => mkIss (co r) (iss_partial r) (split_probe r).

Definition pending (s : Iss) : bool := match abrt (cpu (co s)) with Some _ => true | None => false end.

(** [xl]: the physical address, unless a fault is pending or raised. *)
Definition xl (addr : Z) (write : bool) (s : Iss) : option Z * Iss :=
  if pending s then (None, s)
  else
    let '(p, c) := walk (cpu (co s)) (mem (co s)) addr write in
    let s := s <| co := co s <| cpu := c |> |> in
    (if pending s then None else Some p, s).

(** ** Reads *)

(** z486's repeats of the device read before this one. *)
Fixpoint replays (phys last : Z) (l : list ev_t) : nat :=
  match l with
  | e :: l => if negb (e_addr e =? phys) && (e_addr e =? last) then S (replays phys last l) else O
  | [] => O
  end.

(** [rd_hook]: [None] leaves the byte to RAM. *)
Definition rd_hook (phys : Z) (s : Cosim) : option Z * Cosim :=
  if (DEV_LO <=? phys) && (phys <? DEV_HI) then
    let s := s <| dev_cur := (dev_cur s + replays phys (dev_last s) (drop (dev_cur s) (dev_rd s)))%nat |> in
    match drop (dev_cur s) (dev_rd s) with
    | [] => (Some 0xFF, s <| stall := true |>)
    | e :: _ =>
      let s := s <| dev_last := phys |> in
      let s := if e_addr e =? phys then s else fail (EDevRead phys (e_addr e)) s in
      (Some (e_val e), s <| dev_cur := S (dev_cur s) |>)
    end
  else if ram_bytes (mem s) <=? phys then (Some 0xFF, s) else (None, s).

(** The loop of [read_n] from byte [i]; [v] holds the bytes read. *)
Fixpoint read_loop (n : nat) (i addr v : Z) (s : Iss) : Z * Iss :=
  match n with
  | O => (v, s)
  | S n =>
    let '(a, s) := xl (u32 (addr + i)) false s in
    match a with
    | None => (0xFFFFFFFF, s)
    | Some a =>
      let '(b, c) := rd_hook a (co s) in
      let b := default (ram_get (mem c) a) b in
      read_loop n (i + 1) addr (Z.lor v (Z.shiftl b (8 * i))) (s <| co := c |>)
    end
  end.

Definition read_n (addr : Z) (n : nat) (s : Iss) : Z * Iss := read_loop n 0 addr 0 s.

Fixpoint io_in_loop (n : nat) (b port val : Z) (s : Cosim) : Z * Cosim :=
  match n with
  | O => (val, s)
  | S n =>
    match drop (io_cur s) (io_rd s) with
    | [] => (0xFFFFFFFF, s <| stall := true |>)
    | e :: _ =>
      let s := if e_addr e =? u16 (port + b) then s else fail (EIoRead (u16 (port + b)) (e_addr e)) s in
      io_in_loop n (b + 1) port (Z.lor val (Z.shiftl (e_val e) (8 * b))) (s <| io_cur := S (io_cur s) |>)
    end
  end.

Definition io_in (port : Z) (size : nat) (s : Cosim) : Z * Cosim := io_in_loop size 0 port 0 s.

(** [getpccache]: where the page's code is in RAM. *)
Definition getpccache (a : Z) (s : Iss) : option Z * Iss :=
  let read_type := code_fetch (cpu (co s)) in
  let s := s <| co := co s <| cpu := cpu (co s) <| code_fetch := true |> |> |> in
  let '(p, s) := xl (Z.land a 0xFFFFF000) false s in
  let s := s <| co := co s <| cpu := cpu (co s) <| code_fetch := read_type |> |> |> in
  (option_map (fun p => Z.land p (rammask (mem (co s)))) p, s).

(** ** Writes *)

(** The translations of the bytes from [i]: all of them, or those before the
    byte that faults. *)
Fixpoint xl_all (n : nat) (i addr : Z) (s : Iss) : (list Z * bool) * Iss :=
  match n with
  | O => (([], true), s)
  | S n =>
    let '(p, s) := xl (u32 (addr + i)) true s in
    match p with
    | None => (([], false), s)
    | Some p => let '((l, all), s) := xl_all n (i + 1) addr s in ((p :: l, all), s)
    end
  end.

Definition byte_of (val : Z) (j : nat) : Z := Z.land (Z.shiftr val (8 * Z.of_nat j)) 0xFF.

(** The bytes of the first page of a split write, kept in [iss_partial]. *)
Fixpoint store_partial (j : nat) (val : Z) (pas : list Z) (s : Iss) : Iss :=
  match pas with
  | [] => s
  | pa :: pas =>
    if (length (iss_partial s) <? 4)%nat then
      store_partial (S j) val pas
        (s <| co := store_byte pa (byte_of val j) (co s) |> <| iss_partial := iss_partial s ++ [(pa, byte_of val j)] |>)
    else s
  end.

Fixpoint store_all (j : nat) (val : Z) (pas : list Z) (s : Cosim) : Cosim :=
  match pas with
  | [] => s
  | pa :: pas => store_all (S j) val pas (store_byte pa (byte_of val j) s)
  end.

(** [write_n] with [iss_split_write_first], which [cosim_init] sets. *)
Definition write_n (addr val : Z) (n : nat) (s : Iss) : Iss :=
  let '((pas, all), s) := xl_all n 0 addr s in
  if all then s <| co := store_all 0 val pas (co s) |>
  else if (0 <? length pas)%nat && (Z.land (u32 (addr + Z.of_nat (length pas))) 0xFFF =? 0) then store_partial 0 val pas s
  else s.

(** ** Instructions *)

(** The accesses of an instruction and what it does with their results. *)
Inductive Prog (A : Type) : Type :=
| Ret (a : A)
| ReadMem (addr : Z) (n : nat) (k : Z -> Prog A)
| WriteMem (addr val : Z) (n : nat) (k : Prog A)
| ProbeMem (addr : Z) (n : nat) (write : bool) (k : Prog A)
| FetchPage (addr : Z) (k : option Z -> Prog A)
| CodeByte (index : Z) (k : Z -> Prog A)
| InPort (port : Z) (size : nat) (k : Z -> Prog A)
| OutPort (port : Z) (size : nat) (val : Z) (k : Prog A)
| GetCpu (k : Cpu -> Prog A)
| SetCpu (c : Cpu) (k : Prog A)
| GetX87 (k : bool -> Prog A)
| SetX87 (summary : bool) (k : Prog A)
| Report (e : CosimErr) (k : Prog A).
Arguments Ret {A} a.
Arguments ReadMem {A} addr n k.
Arguments WriteMem {A} addr val n k.
Arguments ProbeMem {A} addr n write k.
Arguments FetchPage {A} addr k.
Arguments CodeByte {A} index k.
Arguments InPort {A} port size k.
Arguments OutPort {A} port size val k.
Arguments GetCpu {A} k.
Arguments SetCpu {A} c k.
Arguments GetX87 {A} k.
Arguments SetX87 {A} summary k.
Arguments Report {A} e k.

Fixpoint bind {A B} (p : Prog A) (f : A -> Prog B) : Prog B :=
  match p with
  | Ret a => f a
  | ReadMem addr n k => ReadMem addr n (fun v => bind (k v) f)
  | WriteMem addr val n k => WriteMem addr val n (bind k f)
  | ProbeMem addr n write k => ProbeMem addr n write (bind k f)
  | FetchPage addr k => FetchPage addr (fun p => bind (k p) f)
  | CodeByte index k => CodeByte index (fun b => bind (k b) f)
  | InPort port size k => InPort port size (fun v => bind (k v) f)
  | OutPort port size val k => OutPort port size val (bind k f)
  | GetCpu k => GetCpu (fun c => bind (k c) f)
  | SetCpu c k => SetCpu c (bind k f)
  | GetX87 k => GetX87 (fun b => bind (k b) f)
  | SetX87 summary k => SetX87 summary (bind k f)
  | Report e k => Report e (bind k f)
  end.

(** A20 is the chipset's, not the CPU's. *)
Definition set_cpu (c : Cpu) (s : Iss) : Iss :=
  s <| co := co s <| cpu := c <| a20_on := a20_on (cpu (co s)) |> |> |>.

Definition probe (addr : Z) (n : nat) (write : bool) (s : Iss) : Iss :=
  let '(c, sp) := iss_probe (mem (co s)) addr n write (cpu (co s)) (split_probe s) in
  s <| co := co s <| cpu := c |> |> <| split_probe := sp |>.

Fixpoint exec {A} (p : Prog A) (s : Iss) : A * Iss :=
  match p with
  | Ret a => (a, s)
  | ReadMem addr n k => let '(v, s) := read_n addr n s in exec (k v) s
  | WriteMem addr val n k => exec k (write_n addr val n s)
  | ProbeMem addr n write k => exec k (probe addr n write s)
  | FetchPage addr k => let '(p, s) := getpccache addr s in exec (k p) s
  | CodeByte index k => exec (k (znth 0 (ram (mem (co s))) index)) s
  | InPort port size k => let '(v, c) := io_in port size (co s) in exec (k v) (s <| co := c |>)
  | OutPort port size val k => exec k (s <| co := io_out port size val (co s) |>)
  | GetCpu k => exec (k (cpu (co s))) s
  | SetCpu c k => exec k (set_cpu c s)
  | GetX87 k => exec (k (x87_summary (co s))) s
  | SetX87 summary k => exec k (s <| co := co s <| x87_summary := summary |> |>)
  | Report e k => exec k (s <| co := fail e (co s) |>)
  end.

Lemma exec_bind {A B} (p : Prog A) (f : A -> Prog B) : forall s,
  exec (bind p f) s = let '(a, s) := exec p s in exec (f a) s.
Proof.
  induction p as [a|? ? k IH|? ? ? k IH|? ? ? k IH|? k IH|? k IH|? ? k IH|? ? ? k IH|k IH|? k IH|k IH|? k IH|? k IH];
    intros s; cbn [bind exec]; try done.
  - destruct (read_n _ _ s). apply IH.
  - destruct (getpccache _ s). apply IH.
  - destruct (io_in _ _ (co s)). apply IH.
Qed.

(** [undo_ram]: the logged bytes, last first. *)
Definition undo_ram (s : Cosim) : Cosim :=
  s <| mem := foldr (fun w m => ram_set m (w_addr w) (w_old w)) (mem s) (mem_log s) |>.

(** ** Invariants of an instruction *)

(** A predicate that every access keeps. *)
Record access_closed (P : Cosim -> Prop) : Prop := mkClosed {
  ac_cpu s c : a20_on c = a20_on (cpu s) -> P s -> P (s <| cpu := c |>);
  ac_x87 s b : P s -> P (s <| x87_summary := b |>);
  ac_fail s e : P s -> P (fail e s);
  ac_rd phys s : P s -> P (rd_hook phys s).2;
  ac_in port n s : P s -> P (io_in port n s).2;
  ac_out port n val s : P s -> P (io_out port n val s);
  ac_store pa b s : 0 <= pa -> P s -> P (store_byte pa b s)
}.

Lemma access_closed_and P Q : access_closed P -> access_closed Q -> access_closed (fun s => P s /\ Q s).
Proof. intros [] []. constructor; naive_solver. Qed.

Lemma walk_a20 c m lin write : a20_on (walk c m lin write).2 = a20_on c.
Proof. unfold walk. by destruct (walk_entry c m lin write). Qed.

Lemma probe_loop_a20 n : forall i m lin write c split, a20_on (probe_loop n i m lin write c split).1 = a20_on c.
Proof.
  induction n as [|n IH]; intros i m lin write c split; [done|]. cbn [probe_loop].
  destruct (abrt c); [done|]. rewrite IH. apply walk_a20.
Qed.

Lemma platform_phys_nonneg a20 phys : 0 <= phys -> 0 <= platform_phys a20 phys.
Proof.
  intros Hp. unfold platform_phys.
  assert (forall x, 0 <= x -> 0 <= (if BIOS_ALIAS <=? x then BIOS_MIRROR + Z.land x 0x3FFFF else x)) as H.
  { intros x Hx. case_bool; [|done]. pose proof (land_le x 0x3FFFF). unfold BIOS_MIRROR. lia. }
  apply H. destruct a20; [done|]. by apply land_le.
Qed.

Lemma walk_entry_nonneg c m lin write p : 0 <= lin -> walk_entry c m lin write = inl p -> 0 <= p.
Proof.
  intros Hlin. unfold walk_entry. intros E. repeat case_match; try done; injection E as <-; apply platform_phys_nonneg; [done|].
  apply Z.lor_nonneg. split; by apply land_le.
Qed.

Lemma xl_nonneg addr write s p : 0 <= addr -> (xl addr write s).1 = Some p -> 0 <= p.
Proof.
  intros Ha. unfold xl, walk. destruct (pending s); [done|].
  destruct (walk_entry _ _ _ _) as [q|e] eqn:E; cbn [fst]; [|done].
  destruct (pending _); [done|]. intros [= <-]. by eapply walk_entry_nonneg.
Qed.

Lemma xl_all_nonneg n : forall i addr s, Forall (fun p => 0 <= p) (xl_all n i addr s).1.1.
Proof.
  induction n as [|n IH]; intros i addr s; [constructor|]. cbn [xl_all].
  pose proof (xl_nonneg (u32 (addr + i)) true s) as Hx. destruct (xl _ _ s) as [[p|] s1]; [|constructor].
  specialize (IH (i + 1) addr s1). destruct (xl_all n (i + 1) addr s1) as [[l all] s2]. constructor; [|done].
  apply Hx; [|done]. apply u32_range.
Qed.

Section Closed.
Context (P : Cosim -> Prop) (HP : access_closed P).

Lemma xl_closed addr write s : P (co s) -> P (co (xl addr write s).2).
Proof using HP.
  intros H. unfold xl. destruct (pending s); [done|]. pose proof (walk_a20 (cpu (co s)) (mem (co s)) addr write) as Ha.
  destruct (walk _ _ _ _) as [p c]. exact (ac_cpu P HP (co s) c Ha H).
Qed.

Lemma read_loop_closed n : forall i addr v s, P (co s) -> P (co (read_loop n i addr v s).2).
Proof using HP.
  induction n as [|n IH]; intros i addr v s H; [done|]. cbn [read_loop].
  pose proof (xl_closed (u32 (addr + i)) false s H) as Hx. destruct (xl _ _ s) as [[a|] s1]; [|done].
  cbn [snd] in Hx. pose proof (ac_rd P HP a (co s1) Hx) as Hr. destruct (rd_hook a (co s1)) as [b c].
  apply IH, Hr.
Qed.

Lemma xl_all_closed n : forall i addr s, P (co s) -> P (co (xl_all n i addr s).2).
Proof using HP.
  induction n as [|n IH]; intros i addr s H; [done|]. cbn [xl_all].
  pose proof (xl_closed (u32 (addr + i)) true s H) as Hx. destruct (xl _ _ s) as [[a|] s1]; [|done].
  specialize (IH (i + 1) addr s1 Hx). by destruct (xl_all n (i + 1) addr s1) as [[l all] s2].
Qed.

Lemma store_all_closed val pas : Forall (fun p => 0 <= p) pas -> forall j s, P s -> P (store_all j val pas s).
Proof using HP. induction 1 as [|pa pas Hpa _ IH]; intros j s H; [done|]. by apply IH, ac_store. Qed.

Lemma store_partial_closed val pas :
  Forall (fun p => 0 <= p) pas -> forall j s, P (co s) -> P (co (store_partial j val pas s)).
Proof using HP.
  induction 1 as [|pa pas Hpa _ IH]; intros j s H; [done|]. cbn [store_partial].
  destruct (_ <? 4)%nat; [|done]. by apply IH, ac_store.
Qed.

Lemma write_n_closed addr val n s : P (co s) -> P (co (write_n addr val n s)).
Proof using HP.
  intros H. unfold write_n. pose proof (xl_all_closed n 0 addr s H) as Hx. pose proof (xl_all_nonneg n 0 addr s) as Hn.
  destruct (xl_all n 0 addr s) as [[pas all] s1]. cbn [fst snd] in *.
  destruct all; [by apply store_all_closed|]. destruct (_ && _); [by apply store_partial_closed|done].
Qed.

Lemma fetch_closed s b : P s -> P (s <| cpu := cpu s <| code_fetch := b |> |>).
Proof using HP. intros H. by apply (ac_cpu P HP s). Qed.

Lemma set_cpu_closed c s : P (co s) -> P (co (set_cpu c s)).
Proof using HP. intros H. by apply (ac_cpu P HP (co s)). Qed.

Lemma exec_closed {A} (p : Prog A) : forall s, P (co s) -> P (co (exec p s).2).
Proof using HP.
  induction p as [a|addr n k IH|addr val n k IH|addr n w k IH|addr k IH|i k IH|port n k IH|port n val k IH|k IH|c k IH|k IH|b k IH|e k IH];
    intros s H; cbn [exec].
  - done.
  - pose proof (read_loop_closed n 0 addr 0 s H) as Hr. unfold read_n. destruct (read_loop _ _ _ _ s) as [v s1]. by apply IH.
  - by apply IH, write_n_closed.
  - apply IH. unfold probe, iss_probe. pose proof (probe_loop_a20 n 0 (mem (co s)) addr w (cpu (co s)) (split_probe s)) as Ha.
    destruct (probe_loop _ _ _ _ _ _ _) as [c sp]. exact (ac_cpu P HP (co s) c Ha H).
  - unfold getpccache. set (s0 := s <| co := _ |>).
    assert (P (co (xl (Z.land addr 0xFFFFF000) false s0).2)) as Hx by exact (xl_closed _ false s0 (fetch_closed (co s) true H)).
    destruct (xl _ _ s0) as [p s1]. apply IH. exact (fetch_closed (co s1) _ Hx).
  - by apply IH.
  - pose proof (ac_in P HP port n (co s) H) as Hi. destruct (io_in port n (co s)) as [v c]. by apply IH.
  - apply IH. exact (ac_out P HP port n val (co s) H).
  - by apply IH.
  - apply IH. by apply (set_cpu_closed c s).
  - by apply IH.
  - apply IH. exact (ac_x87 P HP (co s) b H).
  - apply IH. exact (ac_fail P HP (co s) e H).
Qed.
End Closed.

(** ** The log of the stores *)

Lemma ram_set_same m a : ram_ok m -> ram_set m a (ram_get m a) = m.
Proof.
  intros Hm. pose proof (masked m a Hm) as Ha. unfold ram_set, ram_get, znth, zlookup.
  rewrite (proj2 (Z.leb_le 0 _)) by lia. destruct (lookup_lt_is_Some_2 (ram m) (Z.to_nat (Z.land a (rammask m)))) as [x Hx]; [lia|].
  rewrite Hx. simpl. rewrite list_insert_id by done. by destruct m.
Qed.

Lemma land_mask_idem m a : Z.land (Z.land a (rammask m)) (rammask m) = Z.land a (rammask m).
Proof. by rewrite <- Z.land_assoc, Z.land_diag. Qed.

Lemma ram_set_undo m a b : ram_ok m -> ram_set (ram_set m a b) (Z.land a (rammask m)) (ram_get m a) = m.
Proof.
  intros Hm. rewrite <- (ram_set_same m a Hm) at 4. unfold ram_set. cbn [ram rammask ram_bytes].
  by rewrite land_mask_idem, list_insert_insert_eq.
Qed.

(** [m0] comes back from the log, unless the log is full. *)
Definition logged (m0 : Ram) (s : Cosim) : Prop :=
  ram_ok (mem s) /\ ((length (mem_log s) < MAX_MEM_LOG)%nat -> mem (undo_ram s) = m0).

Lemma wr_hook_frame phys v s : mem (wr_hook phys v s).2 = mem s /\ mem_log (wr_hook phys v s).2 = mem_log s.
Proof. done. Qed.

Lemma logged_store m0 pa b s : logged m0 s -> logged m0 (store_byte pa b s).
Proof.
  intros [Hok Hu]. unfold store_byte. destruct (wr_hook pa b s) as [h s1] eqn:E.
  assert (mem s1 = mem s /\ mem_log s1 = mem_log s) as [Em El] by (unfold wr_hook in E; by apply (f_equal snd) in E; cbn [snd] in E; subst s1). clear E.
  destruct h; [unfold logged, undo_ram in *; cbn; by rewrite Em, El|].
  unfold logged, undo_ram in *. cbn [mem mem_log set_field] in *. rewrite Em, El. split; [by apply ram_set_ok|].
  unfold mem_log_write. destruct (Z.eqb_spec (ram_get (mem s) pa) b) as [<-|Hne].
  - intros Hlen. rewrite ram_set_same by done. by apply Hu.
  - destruct (Nat.ltb_spec (length (mem_log s)) MAX_MEM_LOG) as [Hlt|Hge]; [|lia].
    intros _. rewrite foldr_app. cbn [foldr w_addr w_old]. rewrite ram_set_undo by done. by apply Hu.
Qed.

(** A predicate on the parts of the state that reads, port accesses and the
    paging state do not touch. *)
Lemma rd_hook_mem phys s : mem (rd_hook phys s).2 = mem s /\ mem_log (rd_hook phys s).2 = mem_log s /\
  stage_w (rd_hook phys s).2 = stage_w s.
Proof.
  unfold rd_hook. repeat first [case_match | progress unfold fail]; done.
Qed.

Lemma io_in_loop_mem n : forall b port val s, mem (io_in_loop n b port val s).2 = mem s /\
  mem_log (io_in_loop n b port val s).2 = mem_log s /\ stage_w (io_in_loop n b port val s).2 = stage_w s.
Proof.
  induction n as [|n IH]; intros b port val s; [done|]. cbn [io_in_loop]. case_match; [done|].
  match goal with |- context [io_in_loop n ?b ?p ?v ?s] => destruct (IH b p v s) as (-> & -> & ->) end.
  unfold fail. repeat case_match; done.
Qed.

Lemma io_out_loop_mem n : forall b port val s, mem (io_out_loop n b port val s) = mem s /\
  mem_log (io_out_loop n b port val s) = mem_log s /\ stage_w (io_out_loop n b port val s) = stage_w s.
Proof.
  induction n as [|n IH]; intros b port val s; [done|]. cbn [io_out_loop].
  match goal with |- context [io_out_loop n ?b ?p ?v ?s] => destruct (IH b p v s) as (-> & -> & ->) end. done.
Qed.

Lemma logged_closed m0 : access_closed (logged m0).
Proof.
  assert (Hsame : forall s s', mem s' = mem s -> mem_log s' = mem_log s -> logged m0 s -> logged m0 s').
  { intros s s' Em El [H1 H2]. unfold logged, undo_ram in *. cbn [mem set_field] in *. by rewrite Em, El. }
  constructor.
  - intros s c _. by apply Hsame.
  - intros s b. by apply Hsame.
  - intros s e. apply Hsame; unfold fail; by case_match.
  - intros phys s. destruct (rd_hook_mem phys s) as (? & ? & _). by apply Hsame.
  - intros port n s. destruct (io_in_loop_mem n 0 port 0 s) as (? & ? & _). by apply Hsame.
  - intros port n val s. unfold io_out. destruct (io_out_loop_mem n 0 port val (if port =? 0xF0 then s <| ignne := x87_summary s |> else s))
      as (E1 & E2 & _). apply Hsame; [rewrite E1|rewrite E2]; by case_bool.
  - intros pa b s _. apply logged_store.
Qed.

(** The stores of an instruction are undone by its log. *)
Lemma exec_undo {A} (p : Prog A) s :
  ram_ok (mem (co s)) -> mem_log (co s) = [] -> (length (mem_log (co (exec p s).2)) < MAX_MEM_LOG)%nat ->
  mem (undo_ram (co (exec p s).2)) = mem (co s).
Proof.
  intros Hok Hl. apply (exec_closed (logged (mem (co s))) (logged_closed _) p s).
  split; [done|]. intros _. unfold undo_ram. by rewrite Hl.
Qed.

(** The queues and counters that only [commit_writes] and z486's events change. *)
Record same_queues (s0 s : Cosim) : Prop := mkSameQueues {
  sq_io_rd : io_rd s = io_rd s0; sq_dev_rd : dev_rd s = dev_rd s0;
  sq_exp_w : exp_w s = exp_w s0; sq_dut_w : dut_w s = dut_w s0;
  sq_exp_io : exp_io s = exp_io s0; sq_dut_io : dut_io s = dut_io s0;
  sq_ninsn : ninsn s = ninsn s0; sq_lenient : x87_lenient s = x87_lenient s0;
  sq_adopted : x87_adopted s = x87_adopted s0;
  sq_a20 : a20_on (cpu s) = a20_on (cpu s0);
  sq_size : ram_bytes (mem s) = ram_bytes (mem s0) /\ rammask (mem s) = rammask (mem s0);
  sq_err : err s0 <> None -> err s = err s0
}.

Lemma same_queues_refl s : same_queues s s.
Proof. by constructor. Qed.

Lemma same_queues_fail s0 e s : same_queues s0 s -> same_queues s0 (fail e s).
Proof.
  intros []. unfold fail. destruct (err s) eqn:E; [by constructor; rewrite ?E|].
  constructor; try done. intros H. specialize (sq_err0 H). congruence.
Qed.

Lemma same_queues_store s0 pa b s : same_queues s0 s -> same_queues s0 (store_byte pa b s).
Proof. intros []. unfold store_byte, wr_hook. case_match; by constructor. Qed.

Lemma same_queues_closed s0 : access_closed (same_queues s0).
Proof.
  assert (Hin : forall n b port val s, same_queues s0 s -> same_queues s0 (io_in_loop n b port val s).2).
  { induction n as [|n IH]; intros b port val s H; [done|]. cbn [io_in_loop].
    case_match; [by destruct H; constructor|]. apply IH.
    assert (H' : same_queues s0 (if e_addr e =? u16 (port + b) then s else fail (EIoRead (u16 (port + b)) (e_addr e)) s))
      by (case_match; [done|by apply same_queues_fail]).
    by destruct H'; constructor. }
  assert (Hout : forall n b port val s, same_queues s0 s -> same_queues s0 (io_out_loop n b port val s)).
  { induction n as [|n IH]; intros b port val s H; [done|]. cbn [io_out_loop]. apply IH. by destruct H; constructor. }
  constructor.
  - intros s c Ha H. destruct H; constructor; try done. cbn. by rewrite Ha.
  - intros s b H. by destruct H; constructor.
  - intros s e. apply same_queues_fail.
  - intros phys s H. unfold rd_hook. case_match; [|by case_match].
    case_match; cbn [snd]; [by destruct H; constructor|].
    match goal with |- same_queues s0 (set_field _ ?t) => assert (H' : same_queues s0 t) end.
    { case_match; [|apply same_queues_fail]; by destruct H; constructor. }
    by destruct H'; constructor.
  - intros port n s. apply Hin.
  - intros port n val s H. apply Hout. case_match; [|done]. by destruct H; constructor.
  - intros pa b s _. apply same_queues_store.
Qed.

(** ** Translations *)

Lemma set_cpu_same s : s <| co := co s <| cpu := cpu (co s) |> |> = s.
Proof. by destruct s as [[] ? ?]. Qed.

Definition page_fault (c : Cpu) (lin err_code : Z) : Cpu :=
  c <| cr2 := if code_fetch c then Z.land lin 0xFFFFFFF0 else lin |> <| abrt_error := err_code |>
    <| abrt := Some ABRT_PF |>.

Definition translates (s : Iss) (write : bool) (a p : Z) : Prop :=
  walk_entry (cpu (co s)) (mem (co s)) a write = inl p.

Lemma xl_ok s write a p : pending s = false -> translates s write a p -> xl a write s = (Some p, s).
Proof.
  unfold xl, translates, walk. intros Hp ->. rewrite Hp, set_cpu_same. by rewrite Hp.
Qed.

Lemma xl_fault s write a e :
  pending s = false -> walk_entry (cpu (co s)) (mem (co s)) a write = inr e ->
  xl a write s = (None, s <| co := co s <| cpu := page_fault (cpu (co s)) a e |> |>).
Proof. unfold xl, walk. intros Hp ->. by rewrite Hp. Qed.

(** The bytes of an access of [n] bytes from byte [i]. *)
Definition lins (i addr : Z) (n : nat) : list Z := map (fun j => u32 (addr + i + Z.of_nat j)) (seq 0 n).

Lemma lins_S i addr n : lins i addr (S n) = u32 (addr + i) :: lins (i + 1) addr n.
Proof.
  unfold lins. cbn [seq map]. f_equal; [f_equal; lia|]. rewrite <- seq_shift, map_map.
  apply map_ext. intros j. f_equal. lia.
Qed.

Lemma xl_all_ok n : forall i addr s pas,
  pending s = false -> Forall2 (translates s true) (lins i addr n) pas -> xl_all n i addr s = ((pas, true), s).
Proof.
  induction n as [|n IH]; intros i addr s pas Hp Ht.
  - by apply Forall2_nil_inv_l in Ht as ->.
  - rewrite lins_S in Ht. apply Forall2_cons_inv_l in Ht as (p & pas' & Hx & Ht & ->).
    cbn [xl_all]. rewrite (xl_ok s true _ p) by done. by rewrite (IH (i + 1) addr s pas').
Qed.

Lemma xl_all_fault k n : forall i addr s pas e,
  (k < n)%nat -> pending s = false -> Forall2 (translates s true) (lins i addr k) pas ->
  walk_entry (cpu (co s)) (mem (co s)) (u32 (addr + i + Z.of_nat k)) true = inr e ->
  xl_all n i addr s =
    ((pas, false), s <| co := co s <| cpu := page_fault (cpu (co s)) (u32 (addr + i + Z.of_nat k)) e |> |>).
Proof.
  revert n. induction k as [|k IH]; intros n i addr s pas e Hk Hp Ht He; (destruct n as [|n]; [lia|]); cbn [xl_all].
  - apply Forall2_nil_inv_l in Ht as ->. rewrite Z.add_0_r in *. by rewrite (xl_fault s true _ e).
  - rewrite lins_S in Ht. apply Forall2_cons_inv_l in Ht as (p & pas' & Hx & Ht & ->).
    rewrite (xl_ok s true _ p) by done.
    replace (addr + i + Z.of_nat (S k)) with (addr + (i + 1) + Z.of_nat k) in * by lia.
    by rewrite (IH n (i + 1) addr s pas' e) by (done || lia).
Qed.

(** ** Stores *)

(** The RAM after the bytes of [val] from [j] are stored at [pas]. *)
Fixpoint stores (j : nat) (val : Z) (pas : list Z) (m : Ram) : Ram :=
  match pas with
  | [] => m
  | pa :: pas => stores (S j) val pas (if in_ram m pa then ram_set m pa (byte_of val j) else m)
  end.

Lemma store_byte_mem pa b s : mem (store_byte pa b s) = if in_ram (mem s) pa then ram_set (mem s) pa b else mem s.
Proof. destruct (store_byte_eq pa b s) as [log ->]. done. Qed.

Lemma store_byte_cpu pa b s : cpu (store_byte pa b s) = cpu s.
Proof. destruct (store_byte_eq pa b s) as [log ->]. done. Qed.

Lemma store_all_mem val pas : forall j s, mem (store_all j val pas s) = stores j val pas (mem s).
Proof. induction pas as [|pa pas IH]; intros j s; [done|]. cbn [store_all stores]. by rewrite IH, store_byte_mem. Qed.

Lemma store_all_cpu val pas : forall j s, cpu (store_all j val pas s) = cpu s.
Proof. induction pas as [|pa pas IH]; intros j s; [done|]. cbn [store_all]. by rewrite IH, store_byte_cpu. Qed.

Lemma store_partial_mem val pas : forall j s, (length (iss_partial s) + length pas <= 4)%nat ->
  mem (co (store_partial j val pas s)) = stores j val pas (mem (co s)) /\
  cpu (co (store_partial j val pas s)) = cpu (co s) /\
  iss_partial (store_partial j val pas s) =
    iss_partial s ++ zip pas (map (byte_of val) (seq j (length pas))).
Proof.
  induction pas as [|pa pas IH]; intros j s Hlen; [by rewrite app_nil_r|]. cbn [store_partial stores length] in *.
  rewrite (proj2 (Nat.ltb_lt _ 4)) by lia.
  match goal with |- context [store_partial (S j) val pas ?t] => destruct (IH (S j) t) as (-> & -> & ->) end.
  { cbn [iss_partial set_field]. rewrite length_app. simpl. lia. }
  cbn [co set_field iss_partial]. rewrite store_byte_mem, store_byte_cpu. cbn [seq map zip]. by rewrite <- app_assoc.
Qed.

(** What [val] leaves at an address, if anything. *)
Fixpoint stored_at (j : nat) (val : Z) (pas : list Z) (a : Z) : option Z :=
  match pas with
  | [] => None
  | pa :: pas =>
    match stored_at (S j) val pas a with
    | Some b => Some b
    | None => if pa =? a then Some (byte_of val j) else None
    end
  end.

Lemma stores_get val pas : forall j m a,
  ram_ok m -> Forall (fun pa => 0 <= pa) pas -> 0 <= a -> in_ram m a = true ->
  ram_get (stores j val pas m) a = default (ram_get m a) (stored_at j val pas a).
Proof.
  induction pas as [|pa pas IH]; intros j m a Hm Hpas Ha Hin; [done|]. cbn [stores stored_at].
  inversion Hpas; subst. destruct (in_ram m pa) eqn:E.
  - rewrite IH by (try done; by apply ram_set_ok). destruct (stored_at (S j) val pas a); [done|].
    rewrite ram_get_set by (try done; split; try done; by apply in_ram_bound).
    by destruct (pa =? a).
  - rewrite IH by done. destruct (stored_at (S j) val pas a); [done|].
    destruct (Z.eqb_spec pa a) as [->|]; [congruence|done].
Qed.

Lemma stored_at_nth val pas : forall j i pa,
  NoDup pas -> pas !! i = Some pa -> stored_at j val pas pa = Some (byte_of val (j + i)).
Proof.
  induction pas as [|p pas IH]; intros j i pa Hnd Hi; [done|]. apply NoDup_cons in Hnd as [Hp Hnd]. cbn [stored_at].
  destruct i as [|i].
  - injection Hi as ->. rewrite Nat.add_0_r, Z.eqb_refl.
    assert (stored_at (S j) val pas pa = None) as ->; [|done].
    generalize (S j). clear -Hp.
    induction pas as [|q pas IH]; intros k; [done|]. apply not_elem_of_cons in Hp as [Hne Hp]. cbn [stored_at].
    rewrite IH by done. by rewrite (proj2 (Z.eqb_neq q pa)) by congruence.
  - cbn in Hi. rewrite (IH (S j) i pa) by done. do 2 f_equal. lia.
Qed.

Lemma byte_of_le val n : forall j, map (byte_of val) (seq j n) = le_bytes n (val / 256 ^ Z.of_nat j).
Proof.
  induction n as [|n IH]; intros j; [done|]. cbn [seq map le_bytes]. f_equal.
  - unfold byte_of. rewrite land_255, shiftr_div by lia. by rewrite Z.pow_mul_r by lia.
  - rewrite IH. f_equal. rewrite Nat2Z.inj_succ, Z.pow_succ_r, Z.mul_comm by lia. by rewrite Z.div_div by lia.
Qed.

(** ** Reads of RAM *)

Lemma rd_hook_ram s a : in_ram (mem s) a = true -> rd_hook a s = (None, s).
Proof.
  unfold in_ram, rd_hook. intros H. rewrite !andb_true_iff, negb_true_iff in H. destruct H as [[H1 ->] _].
  by rewrite (proj2 (Z.leb_gt _ _)) by lia.
Qed.

Lemma read_loop_ram n : forall i addr v s pas, 0 <= i ->
  pending s = false -> Forall2 (translates s false) (lins i addr n) pas ->
  Forall (fun p => in_ram (mem (co s)) p = true) pas ->
  read_loop n i addr v s = (Z.lor v (or_bytes (8 * i) (map (ram_get (mem (co s))) pas)), s).
Proof.
  induction n as [|n IH]; intros i addr v s pas Hi Hp Ht Hin.
  - apply Forall2_nil_inv_l in Ht as ->. cbn. by rewrite Z.lor_0_r.
  - rewrite lins_S in Ht. apply Forall2_cons_inv_l in Ht as (p & pas' & Hx & Ht & ->). inversion Hin; subst.
    cbn [read_loop]. rewrite (xl_ok s false _ p), rd_hook_ram by done. cbn [default from_option].
    replace (s <| co := co s |>) with s by by destruct s.
    rewrite (IH (i + 1) addr _ s pas') by (done || lia). cbn [map or_bytes].
    rewrite <- Z.lor_assoc. do 2 f_equal. f_equal. by replace (8 * i + 8) with (8 * (i + 1)) by lia.
Qed.

Lemma write_n_ok addr val n s pas :
  pending s = false -> Forall2 (translates s true) (lins 0 addr n) pas ->
  write_n addr val n s = s <| co := store_all 0 val pas (co s) |>.
Proof. intros Hp Ht. unfold write_n. by rewrite (xl_all_ok n 0 addr s pas). Qed.

(** C35: A write of [n] bytes is read back: when no byte faults, the bytes are
    distinct bytes of RAM, and the write did not change the translation of its
    own bytes, a read of the same address gives the low [n] bytes of the
    value, across pages too. *)
Theorem read_after_write addr val n s pas
  (Hp : pending s = false) (Hm : ram_ok (mem (co s)))
  (Ht : Forall2 (translates s true) (lins 0 addr n) pas) (Hnd : NoDup pas)
  (Hin : Forall (fun p => 0 <= p /\ in_ram (mem (co s)) p = true) pas) :
  let s' := write_n addr val n s in
  Forall2 (translates s' false) (lins 0 addr n) pas ->
  read_n addr n s' = (val mod 256 ^ Z.of_nat n, s').
Proof.
  cbn zeta. rewrite (write_n_ok addr val n s pas) by done. set (s' := s <| co := _ |>). intros Ht'.
  assert (mem (co s') = stores 0 val pas (mem (co s))) as Em by apply store_all_mem.
  assert (forall a, in_ram (mem (co s')) a = in_ram (mem (co s)) a) as Hsame.
  { intros a. rewrite Em. generalize (mem (co s)), 0%nat. clear. induction pas as [|p pas IH]; intros m j; [done|].
    cbn [stores]. rewrite IH. by destruct (in_ram m p). }
  unfold read_n. rewrite (read_loop_ram n 0 addr 0 s' pas).
  - f_equal. rewrite Z.lor_0_l.
    assert (map (ram_get (mem (co s'))) pas = le_bytes n val) as ->.
    { rewrite <- (Z.div_1_r val). change 1 with (256 ^ Z.of_nat 0). rewrite <- byte_of_le.
      assert (length pas = n) as Hlen.
      { apply Forall2_length in Ht. unfold lins in Ht. by rewrite length_map, length_seq in Ht. }
      apply list_eq. intros i. rewrite !list_lookup_fmap. destruct (pas !! i) as [p|] eqn:Ei; simpl.
      - pose proof (lookup_lt_Some _ _ _ Ei). rewrite lookup_seq_lt by lia. simpl. f_equal.
        destruct (Forall_lookup_1 _ _ _ _ Hin Ei) as [Hp0 Hpin].
        rewrite store_all_mem, stores_get, (stored_at_nth val pas 0 i p) by (try done; by eapply Forall_impl; [apply Hin|intros ? []]). done.
      - rewrite lookup_ge_None in Ei. rewrite lookup_seq_ge by lia. done. }
    change (8 * 0) with 0. rewrite or_bytes_val by (try lia; apply le_bytes_bytes).
    rewrite Z.pow_0_r, Z.mul_1_r. apply le_val_bytes.
  - lia.
  - unfold pending. cbn [co s' set_field]. by rewrite store_all_cpu.
  - done.
  - eapply Forall_impl; [apply Hin|]. intros a [_ Ha]. by rewrite Hsame.
Qed.

(** Eight KB of RAM whose first page is the page directory and the page table:
    page 0 maps to itself, the others are absent. *)
Definition demo_mem : Ram := mkRam (<[0%nat := 0x07]> (replicate (Z.to_nat 8192) 0)) 8192 8191.

Definition demo_iss : Iss :=
  mkIss (demo_cosim <| mem := demo_mem |> <| cpu := demo_cpu <| cr0 := 0x80000000 |> |>) [] (0, 0).

Lemma demo_mem_ok : ram_ok demo_mem.
Proof.
  constructor; [exists 13; split; [lia|reflexivity]| |cbn; lia].
  cbn [ram rammask demo_mem]. rewrite length_insert, length_replicate. lia.
Qed.

Lemma read_after_write_witness :
  let s := write_n 0x804 0x12345678 4 demo_iss in read_n 0x804 4 s = (0x12345678, s).
Proof.
  apply (read_after_write 0x804 0x12345678 4 demo_iss [0x804; 0x805; 0x806; 0x807]).
  - reflexivity.
  - apply demo_mem_ok.
  - repeat constructor.
  - by apply (bool_decide_unpack _); vm_compute.
  - repeat constructor; by vm_compute.
  - repeat constructor.
Defined.

(** A write that faults changes memory only when the fault is on the first
    byte of its second page: then the bytes of the first page are stored and
    kept for the caller ([iss_partial]); CR2 and the error code are those of the
    byte that faulted. *)
Lemma write_faults addr val n k s pas e
  (Hp : pending s = false) (Hpart : iss_partial s = []) (Hn : (n <= 4)%nat) (Hk : (k < n)%nat)
  (Ht : Forall2 (translates s true) (lins 0 addr k) pas) :
  let a := u32 (addr + Z.of_nat k) in
  walk_entry (cpu (co s)) (mem (co s)) a true = inr e ->
  let s' := write_n addr val n s in
  let second := (0 <? k)%nat && (Z.land a 0xFFF =? 0) in
  cpu (co s') = page_fault (cpu (co s)) a e /\
  mem (co s') = (if second then stores 0 val pas (mem (co s)) else mem (co s)) /\
  iss_partial s' = (if second then zip pas (map (byte_of val) (seq 0 k)) else []).
Proof.
  cbn zeta. intros He.
  assert (length pas = k) as Hlen.
  { apply Forall2_length in Ht. unfold lins in Ht. by rewrite length_map, length_seq in Ht. }
  unfold write_n. rewrite (xl_all_fault k n 0 addr s pas e) by (done || by rewrite Z.add_0_r). rewrite Hlen.
  rewrite Z.add_0_r. destruct (_ && _); [|done].
  match goal with |- context [store_partial 0 val pas ?t] => destruct (store_partial_mem val pas 0 t) as (-> & -> & ->) end.
  { cbn [iss_partial set_field]. rewrite Hpart. simpl. lia. }
  cbn [iss_partial set_field co mem cpu]. by rewrite Hpart, Hlen.
Qed.

(** Four bytes from the last two of page 0. *)
Lemma write_faults_witness :
  let s' := write_n 0xFFE 0x12345678 4 demo_iss in
  cpu (co s') = page_fault (cpu (co demo_iss)) 0x1000 2 /\
  mem (co s') = stores 0 0x12345678 [0xFFE; 0xFFF] demo_mem /\
  iss_partial s' = [(0xFFE, 0x78); (0xFFF, 0x56)].
Proof.
  apply (write_faults 0xFFE 0x12345678 4 2 demo_iss [0xFFE; 0xFFF] 2); first [reflexivity | lia | by repeat constructor].
Defined.

(** ** What a split write leaves behind *)

(** The bytes of the first page of a write: those before the first that does not
    translate, which is the first of its page; [c] and [m] are the paging state
    and the page tables at the write. *)
Definition first_page (l : list (Z * Z)) : Prop :=
  exists addr val c m, l <> [] /\ Z.land (u32 (addr + Z.of_nat (length l))) 0xFFF = 0 /\
    Forall2 (fun a p => walk_entry c m a true = inl p) (lins 0 addr (length l)) (map fst l) /\
    map snd l = map (byte_of val) (seq 0 (length l)) /\
    exists e, walk_entry c m (u32 (addr + Z.of_nat (length l))) true = inr e.

(** [iss_partial] holds the first four of these bytes, and [iss_probe] the
    place of an access that it found split. *)
Definition kept_bytes (s : Iss) : Prop :=
  exists pages, Forall first_page pages /\ iss_partial s = take 4 (concat pages).

Definition split_edge (sp : Z * Z) : Prop := sp.2 = 0 \/ 0 < sp.2 /\ Z.land (u32 (sp.1 + sp.2)) 0xFFF = 0.

Definition kept_ok (s : Iss) : Prop := kept_bytes s /\ split_edge (split_probe s).

Lemma take_take_app {A} n (l k : list A) : take n (take n l ++ k) = take n (l ++ k).
Proof.
  destruct (decide (n <= length l)%nat).
  - rewrite !take_app_le by (rewrite ?length_take; lia). by rewrite take_take, Nat.min_id.
  - by rewrite (take_ge l) by lia.
Qed.

Lemma xl_same addr write s p s' : xl addr write s = (Some p, s') ->
  pending s = false /\ walk_entry (cpu (co s)) (mem (co s)) addr write = inl p /\ s' = s.
Proof.
  unfold xl, walk. destruct (pending s) eqn:Hp; [done|]. destruct (walk_entry _ _ _ _) as [q|e].
  - rewrite set_cpu_same, Hp. by intros [= -> <-].
  - by destruct (pending _).
Qed.

Lemma xl_none addr write s s' : xl addr write s = (None, s') -> pending s = false ->
  exists e, walk_entry (cpu (co s)) (mem (co s)) addr write = inr e.
Proof.
  unfold xl, walk. intros E Hp. rewrite Hp in E. destruct (walk_entry _ _ _ _) as [q|e]; [|by exists e].
  by rewrite set_cpu_same, Hp in E.
Qed.

Lemma xl_split addr write s : split_probe (xl addr write s).2 = split_probe s /\ iss_partial (xl addr write s).2 = iss_partial s.
Proof. unfold xl. destruct (pending s); [done|]. by destruct (walk _ _ _ _). Qed.

(** A write whose byte does not translate: those before it do. *)
Lemma xl_all_stops n : forall i addr s pas s', pending s = false -> xl_all n i addr s = ((pas, false), s') ->
  Forall2 (translates s true) (lins i addr (length pas)) pas /\
  exists e, walk_entry (cpu (co s)) (mem (co s)) (u32 (addr + i + Z.of_nat (length pas))) true = inr e.
Proof.
  induction n as [|n IH]; intros i addr s pas s' Hp; cbn [xl_all]; [done|].
  destruct (xl (u32 (addr + i)) true s) as [[p|] s1] eqn:E.
  - apply xl_same in E as (_ & Ep & ->). destruct (xl_all n (i + 1) addr s) as [[l all] s2] eqn:E2. intros [= <- -> <-].
    destruct (IH _ _ _ _ _ Hp E2) as [H1 [e H2]]. cbn [length]. rewrite lins_S. split; [by constructor|]. exists e.
    by replace (addr + i + Z.of_nat (S (length l))) with (addr + (i + 1) + Z.of_nat (length l)) by lia.
  - intros [= <- <-]. split; [constructor|]. cbn [length]. rewrite Z.add_0_r. by eapply xl_none.
Qed.

Lemma xl_all_split n : forall i addr s,
  split_probe (xl_all n i addr s).2 = split_probe s /\ iss_partial (xl_all n i addr s).2 = iss_partial s /\
  (pending s = true -> (xl_all n i addr s).1.1 = []).
Proof.
  induction n as [|n IH]; intros i addr s; [done|]. cbn [xl_all]. destruct (xl_split (u32 (addr + i)) true s) as [E1 E2].
  destruct (xl (u32 (addr + i)) true s) as [[p|] s1] eqn:E; [|done]. cbn [snd] in *.
  apply xl_same in E as (Hp & _ & _). destruct (IH (i + 1) addr s1) as (F1 & F2 & _).
  destruct (xl_all n (i + 1) addr s1) as [[l all] s2]. cbn [snd] in *. split_and!; congruence.
Qed.

Lemma store_partial_take val pas : forall j s, (length (iss_partial s) <= 4)%nat ->
  iss_partial (store_partial j val pas s) = take 4 (iss_partial s ++ zip pas (map (byte_of val) (seq j (length pas)))) /\
  split_probe (store_partial j val pas s) = split_probe s.
Proof.
  induction pas as [|pa pas IH]; intros j s Hlen; cbn [store_partial].
  { cbn [zip]. rewrite app_nil_r. by rewrite take_ge by lia. }
  cbn [length seq map zip zip_with]. destruct (Nat.ltb_spec (length (iss_partial s)) 4).
  - match goal with |- context [store_partial (S j) val pas ?t] => destruct (IH (S j) t) as [-> ->] end.
    { cbn [iss_partial set_field]. rewrite length_app. cbn. lia. }
    cbn [iss_partial set_field split_probe]. by rewrite <- app_assoc.
  - split; [|done]. rewrite take_app_le by lia. by rewrite take_ge by lia.
Qed.

Lemma kept_same s s' : iss_partial s' = iss_partial s -> split_probe s' = split_probe s -> kept_ok s -> kept_ok s'.
Proof. unfold kept_ok, kept_bytes. by intros -> ->. Qed.

Lemma write_n_kept addr val n s : kept_ok s -> kept_ok (write_n addr val n s).
Proof.
  intros Hs. unfold write_n. destruct (xl_all_split n 0 addr s) as (E1 & E2 & E3).
  destruct (xl_all n 0 addr s) as [[pas all] s1] eqn:E. cbn [fst snd] in *.
  assert (kept_ok s1) as Hs1 by (by apply (kept_same s)). destruct all; [by apply (kept_same s1)|].
  destruct (_ && _) eqn:Eb; [|done]. apply andb_true_iff in Eb as [Hpos Hedge].
  destruct (pending s) eqn:Hp; [by rewrite (E3 eq_refl) in Hpos|].
  destruct (xl_all_stops _ _ _ _ _ _ Hp E) as [Ht He]. rewrite Z.add_0_r in He.
  destruct Hs1 as [(pages & Hpg & Epg) Hsp].
  destruct (store_partial_take val pas 0 s1) as [F1 F2]; [rewrite Epg, length_take; lia|].
  split; [|by rewrite F2]. exists (pages ++ [zip pas (map (byte_of val) (seq 0 (length pas)))]). split.
  - apply Forall_app. split; [done|]. apply Forall_singleton. exists addr, val, (cpu (co s)), (mem (co s)).
    assert (length (zip pas (map (byte_of val) (seq 0 (length pas)))) = length pas) as El
      by (rewrite length_zip_with, length_map, length_seq; lia).
    rewrite El. split_and!; [|lia| | |done].
    + intros En. rewrite En in El. cbn in El. lia.
    + rewrite fst_zip by (rewrite length_map, length_seq; lia). exact Ht.
    + by rewrite snd_zip by (rewrite length_map, length_seq; lia).
  - rewrite F1, Epg, concat_app. cbn [concat]. by rewrite app_nil_r, take_take_app.
Qed.

Lemma probe_loop_edge n : forall i m lin write c sp, 0 <= i -> split_edge sp -> split_edge (probe_loop n i m lin write c sp).2.
Proof.
  induction n as [|n IH]; intros i m lin write c sp Hi Hs; [done|]. cbn [probe_loop]. destruct (abrt c); [done|].
  apply IH; [lia|]. destruct (_ && _ && _ && _) eqn:E; [|done]. right. cbn [fst snd].
  apply andb_true_iff in E as [E E1]. apply andb_true_iff in E as [_ E2]. lia.
Qed.

Lemma read_loop_kept n : forall i addr v s, kept_ok s -> kept_ok (read_loop n i addr v s).2.
Proof.
  induction n as [|n IH]; intros i addr v s Hs; [done|]. cbn [read_loop]. destruct (xl_split (u32 (addr + i)) false s) as [E1 E2].
  destruct (xl (u32 (addr + i)) false s) as [[p|] s1]; [|by apply (kept_same s)].
  destruct (rd_hook p (co s1)) as [b c]. apply IH. by apply (kept_same s).
Qed.

(** A program of accesses leaves nothing else. *)
Lemma exec_kept {A} (p : Prog A) : forall s, kept_ok s -> kept_ok (exec p s).2.
Proof.
  induction p as [a|addr n k IH|addr val n k IH|addr n w k IH|addr k IH|i k IH|port n k IH|port n val k IH|k IH|c k IH|k IH|b k IH|e k IH];
    intros s Hs; cbn [exec]; try (apply IH; by apply (kept_same s)).
  - done.
  - pose proof (read_loop_kept n 0 addr 0 s Hs) as Hr. unfold read_n. destruct (read_loop _ _ _ _ s) as [v s1]. by apply IH.
  - by apply IH, write_n_kept.
  - apply IH. unfold probe, iss_probe. destruct Hs as [H1 H2].
    pose proof (probe_loop_edge n 0 (mem (co s)) addr w (cpu (co s)) (split_probe s) (Z.le_refl 0) H2) as He.
    destruct (probe_loop _ _ _ _ _ _ _) as [c sp]. by split.
  - unfold getpccache. set (s0 := s <| co := _ |>). destruct (xl_split (Z.land addr 0xFFFFF000) false s0) as [E1 E2].
    destruct (xl _ _ s0) as [p s1]. apply IH. by apply (kept_same s).
  - destruct (io_in port n (co s)) as [v c]. apply IH. by apply (kept_same s).
Qed.
