(* ===== verification/CosimRun.v ===== *)
(** * Steps of the reference

    One instruction of the reference as verilator/cosim/cosim86.c runs it
    ([run], with [exec_one] of iss_glue.h): stalls on device data that z486 has
    not returned, which are rolled back and retried; faults, which leave no
    trace but the first page's part of a split write; REP strings that z486 cut
    short; interrupts ([cosim_interrupt]); and z486's undefined flags.

    The instructions themselves are 86Box's: the class [Box86] names the
    functions the code calls, and every theorem holds for any of them. *)
From S2P Require Import Prelude CosimMem CosimMatch CosimDecode CosimAccess.

(** ** The state *)

Notation EAX := 0%nat (only parsing).
Notation ECX := 1%nat (only parsing).
Notation EDX := 2%nat (only parsing).
Notation ESP := 4%nat (only parsing).
Notation ESI := 6%nat (only parsing).

(** The CPU state that [snap_save] keeps, apart from the paging registers
    ([Cpu]) and the x87's summary bit: the fields that cosim86.c uses, and the
    [rest], which is 86Box's. *)
Record Core (R : Type) := mkCore {
  regs : list Z;               (* cpu_state.regs[8] *)
  pc : Z; oldpc : Z;
  fl : Z;                      (* cpu_state.flags *)
  eflags : Z;                  (* the upper half *)
  flags_op : Z;
  cs_sel : Z; cs_base : Z; ss_base : Z; ds_base : Z;
  ea_base : Z;                 (* ea_seg->base *)
  eaaddr : Z;
  ssegs : Z;
  core_op32 : Z;               (* cpu_state.op32 *)
  oldcs : Z; oldcpl : Z;
  use32 : Z; stack32 : bool;
  trap : Z;
  idt_base : Z; idt_limit : Z;
  cwd : Z;                     (* fpu_state.cwd *)
  rest : R
}.
Arguments mkCore {R}.
Arguments regs {R}. Arguments pc {R}. Arguments oldpc {R}. Arguments fl {R}. Arguments eflags {R}.
Arguments flags_op {R}. Arguments cs_sel {R}. Arguments cs_base {R}. Arguments ss_base {R}. Arguments ds_base {R}.
Arguments ea_base {R}. Arguments eaaddr {R}. Arguments ssegs {R}. Arguments core_op32 {R}. Arguments oldcs {R}.
Arguments oldcpl {R}. Arguments use32 {R}. Arguments stack32 {R}. Arguments trap {R}. Arguments idt_base {R}.
Arguments idt_limit {R}. Arguments cwd {R}. Arguments rest {R}.

#[export] Instance eta_Core {R} : Eta (Core R) := fun c =>
  mkCore (regs c) (pc c) (oldpc c) (fl c) (eflags c) (flags_op c) (cs_sel c) (cs_base c) (ss_base c) (ds_base c)
    (ea_base c) (eaaddr c) (ssegs c) (core_op32 c) (oldcs c) (oldcpl c) (use32 c) (stack32 c) (trap c) (idt_base c)
    (idt_limit c) (cwd c) (rest c).

Definition reg {R} (c : Core R) (r : nat) : Z := default 0 (regs c !! r).
Definition set_reg {R} (r : nat) (v : Z) (c : Core R) : Core R := c <| regs := <[r := v]> (regs c) |>.

(** The 16-bit half of a register. *)
Definition set_reg16 {R} (r : nat) (v : Z) (c : Core R) : Core R :=
  set_reg r (Z.lor (Z.land (reg c r) 0xFFFF0000) (u16 v)) c.

(** 86Box's other globals, which no snapshot keeps. *)
Record Box (R T : Type) := mkBox {
  core : Core R;
  pccache : Z;
  cycles : Z;
  opcode : Z;
  rmdat : Z;
  scratch : T
}.
Arguments mkBox {R T}.
Arguments core {R T}. Arguments pccache {R T}. Arguments cycles {R T}. Arguments opcode {R T}. Arguments rmdat {R T}.
Arguments scratch {R T}.

#[export] Instance eta_Box {R T} : Eta (Box R T) := fun b =>
  mkBox (core b) (pccache b) (cycles b) (opcode b) (rmdat b) (scratch b).

Definition on_core {R T} (f : Core R -> Core R) (b : Box R T) : Box R T := b <| core := f (core b) |>.

(** The functions and constants of 86Box that cosim86.c uses. *)
Class Box86 (R T : Type) := {
  fastreadl_fetch : Z -> Box R T -> Prog (Z * Box R T);
  x86_2386_opcodes : Z -> Z -> Box R T -> Prog (Box R T);     (* the index, fetchdat *)
  x86_doabrt_2386 : Z -> Box R T -> Prog (Box R T);
  pmodeint_2386 : Z -> bool -> Box R T -> Prog (Box R T);
  loadcs_2386 : Z -> Box R T -> Prog (Box R T);
  flags_rebuild : Core R -> Core R;
  ABRT_MASK : Z;
  RF_FLAG : Z; I_FLAG : Z; T_FLAG : Z;
  FLAGS_UNKNOWN : Z
}.

(** [hist_t] with the EFLAGS of [hist_flags]. *)
Record hist_t := mkHist { h_n : Z; h_sel : Z; h_eip : Z; h_bytes : list Z; h_regs : list Z; h_flags : Z }.
Definition HIST : Z := 64.

Record Ref (R T : Type) := mkRef {
  iss : Iss;
  box : Box R T;
  udf : Z;
  last_fault : option Z;       (* -1 is [None] *)
  was_hlt : bool;
  fpu_present : bool;
  x87_pc53 : bool;
  hist : list hist_t
}.
Arguments mkRef {R T}.
Arguments iss {R T}. Arguments box {R T}. Arguments udf {R T}. Arguments last_fault {R T}. Arguments was_hlt {R T}.
Arguments fpu_present {R T}. Arguments x87_pc53 {R T}. Arguments hist {R T}.

#[export] Instance eta_Ref {R T} : Eta (Ref R T) := fun r =>
  mkRef (iss r) (box r) (udf r) (last_fault r) (was_hlt r) (fpu_present r) (x87_pc53 r) (hist r).

Section Steps.
Context {R T : Type} `{Box86 R T}.
Notation Ref := (Ref R T).
Notation Box := (Box R T).

Definition ccore (r : Ref) : Core R := core (box r).
Definition ccpu (r : Ref) : Cpu := cpu (co (iss r)).
Definition upd_core (f : Core R -> Core R) (r : Ref) : Ref := r <| box := on_core f (box r) |>.
Definition upd_co (f : Cosim -> Cosim) (r : Ref) : Ref := r <| iss := iss r <| co := f (co (iss r)) |> |>.
Definition upd_cpu (f : Cpu -> Cpu) (r : Ref) : Ref := upd_co (fun s => s <| cpu := f (cpu s) |>) r.

(** A call of 86Box. *)
Definition call (f : Box -> Prog Box) (r : Ref) : Ref :=
  let '(b, i) := exec (f (box r)) (iss r) in r <| box := b |> <| iss := i |>.

(** ** Interrupts *)

(** [readmemw] and [writememw], 86Box's macros, go through [read_n] and
    [write_n]. *)
Definition push_frame (num : Z) (b : Box) : Prog Box :=
  let c := core b in
  let addr := u32 (Z.shiftl num 2 + idt_base c) in
  let slot k := if stack32 c then u32 (ss_base c + reg c ESP - k)
                else u32 (ss_base c + Z.land (u16 (reg c ESP) - k) 0xFFFF) in
  WriteMem (slot 2) (fl c) 2 (WriteMem (slot 4) (cs_sel c) 2 (WriteMem (slot 6) (u16 (pc c)) 2
    (let c := if stack32 c then set_reg ESP (u32 (reg c ESP - 6)) c
              else set_reg16 ESP (u16 (reg c ESP) - 6) c in
     let c := c <| fl := Z.land (fl c) (Z.lnot (Z.lor I_FLAG T_FLAG)) |> in
     ReadMem addr 2 (fun ip =>
       ReadMem (u32 (addr + 2)) 2 (fun seg => loadcs_2386 (u16 seg) (b <| core := c <| pc := u16 ip |> |>)))))).

Definition real_mode_int (num : Z) (b : Box) : Prog Box := push_frame num b.

Definition rf_on (c : Core R) : Core R := c <| eflags := Z.lor (eflags c) RF_FLAG |>.
Definition rf_off (c : Core R) : Core R := c <| eflags := Z.land (eflags c) (Z.lnot RF_FLAG) |>.

(** The vector's entry is beyond the real-mode table. *)
Definition beyond_idt (num : Z) (c : Core R) : bool := idt_limit c <? Z.shiftl num 2 + 3.

(** [x86_int]; the inner call of [x86_int(8)] does not recurse, since 8's entry
    is in a table of 36 bytes. *)
Definition x86_int_with (inner : Box -> Prog Box) (num : Z) (b : Box) : Prog Box :=
  let b := on_core (fun c => rf_on (let c := flags_rebuild c in c <| pc := oldpc c |>)) b in
  GetCpu (fun p =>
    bind (if negb (Z.land (cr0 p) 1 =? 0) then pmodeint_2386 num false b
          else if beyond_idt num (core b) then
            if idt_limit (core b) <? 35 then Report (ETripleFault num) (Ret b) else inner b
          else real_mode_int num b)
      (fun b => Ret (on_core rf_off b))).

Definition x86_int (num : Z) : Box -> Prog Box := x86_int_with (x86_int_with Ret 8) num.

Definition x86_int_sw (num : Z) (b : Box) : Prog Box :=
  let b := on_core flags_rebuild b in
  GetCpu (fun p =>
    bind (if negb (Z.land (cr0 p) 1 =? 0) then pmodeint_2386 num true b
          else if beyond_idt num (core b) then x86_int 0x0d b
          else real_mode_int num b)
      (fun b => Ret (on_core (fun c => c <| trap := Z.land (trap c) (Z.lnot 1) |>) b))).

Definition x86illegal : Box -> Prog Box := x86_int 6.

(** ** Looking at the code *)

Definition peek (r : Ref) (lin : Z) : Z := peek_lin (ccpu r) (mem (co (iss r))) lin.
Definition is32 (c : Core R) : bool := negb (use32 c =? 0).
Definition lin_pc (c : Core R) : Z := u32 (cs_base c + pc c).

(** The code byte [i] after EIP. *)
Definition code (r : Ref) (i : Z) : Z := code_byte (peek r) (cs_base (ccore r)) (pc (ccore r)) (is32 (ccore r)) i.

(** The first byte that is no prefix is an ESC. *)
Fixpoint esc_first (l : list Z) : bool :=
  match l with
  | b :: l =>
    if one_of [0x26; 0x2E; 0x36; 0x3E; 0x64; 0x65; 0x66; 0x67; 0xF0; 0xF2; 0xF3] b then esc_first l
    else Z.land b 0xF8 =? 0xD8
  | [] => false
  end.

Definition hist_add (sel eip lin : Z) (r : Ref) : Ref :=
  let n := ninsn (co (iss r)) in
  let h_bytes := map (fun i => peek r (u32 (lin + i))) [0; 1; 2; 3; 4; 5; 6; 7] in
  let r := upd_co (fun s => s <| cur_fpu := esc_first h_bytes |>) r in
  let h_regs := regs (ccore r) in
  let r := upd_core flags_rebuild r in
  let h := mkHist n sel eip h_bytes h_regs (Z.lor (fl (ccore r)) (u32 (Z.shiftl (eflags (ccore r)) 16))) in
  r <| hist := <[Z.to_nat (n mod HIST) := h]> (hist r) |>.

(** The address size that selects CX or ECX. *)
Fixpoint rep_a32 (n : nat) (i : Z) (r : Ref) (a32 : bool) : bool :=
  match n with
  | O => a32
  | S n =>
    let b := code r i in
    if b =? 0x67 then rep_a32 n (i + 1) r true
    else if one_of [0xF2; 0xF3; 0x26; 0x2E; 0x36; 0x3E; 0x64; 0x65; 0x66; 0xF0] b then rep_a32 n (i + 1) r a32
    else a32
  end.

(** ** Snapshots for rollback *)

Record Snap := mkSnap { s_core : Core R; s_cpu : Cpu; s_summary : bool }.

Definition snap_save (r : Ref) : Snap := mkSnap (ccore r) (ccpu r) (x87_summary (co (iss r))).

(** A20 and the type of the access under way are not part of it. *)
Definition snap_restore (p : Snap) (r : Ref) : Ref :=
  upd_co (fun s => s <| x87_summary := s_summary p |>)
    (upd_cpu (fun c => s_cpu p <| a20_on := a20_on c |> <| code_fetch := code_fetch c |>)
      (upd_core (fun _ => s_core p) r)).

(** ** Executing *)

Definition exec_one (r : Ref) : bool * Ref :=
  let r := upd_core (fun c => c <| oldcs := cs_sel c |> <| oldcpl := cpl (ccpu r) |> <| oldpc := pc c |>
                                <| core_op32 := use32 c |> <| ea_base := ds_base c |> <| ssegs := 0 |>) r in
  let '((fetchdat, b), i) := exec (fastreadl_fetch (lin_pc (ccore r)) (box r)) (iss r) in
  let r := r <| box := b |> <| iss := i |> in
  if pending (iss r) then (true, r)
  else
    let op := Z.land fetchdat 0xFF in
    let fetchdat := Z.shiftr fetchdat 8 in
    let r := r <| box := box r <| opcode := op |> <| rmdat := fetchdat |> |> in
    let r := upd_core (fun c => c <| pc := u32 (pc c + 1) |>) r in
    let r := call (x86_2386_opcodes (Z.land (Z.lor op (core_op32 (ccore r))) 0x3ff) fetchdat) r in
    let r := if is32 (ccore r) then r else upd_core (fun c => c <| pc := Z.land (pc c) 0xFFFF |>) r in
    (pending (iss r), r).

(** With a fresh budget of cycles. *)
Definition exec_cycles (r : Ref) : bool * Ref := exec_one (r <| box := box r <| cycles := 1000000 |> |>).

Definition stalled (r : Ref) : bool := stall (co (iss r)).

Definition count_reg (ecx_count : bool) (r : Ref) : Z :=
  if ecx_count then reg (ccore r) ECX else u16 (reg (ccore r) ECX).

(** The elements of a REP string until [stop] are left. *)
Fixpoint cut_loop (fuel : nat) (ecx_count : bool) (stop pre_pc : Z) (faulted : bool) (r : Ref) : option (bool * Ref) :=
  if (count_reg ecx_count r <=? stop) || stalled r then Some (faulted, r)
  else
    match fuel with
    | O => None
    | S fuel =>
      let '(faulted, r) := exec_cycles (upd_core (fun c => c <| oldpc := pre_pc |>) r) in
      if negb (pc (ccore r) =? pre_pc) then Some (faulted, r) else cut_loop fuel ecx_count stop pre_pc faulted r
    end.

(** 86Box runs a REP string in chunks. *)
Fixpoint chunk_loop (fuel : nat) (rep_string : bool) (pre_pc : Z) (faulted : bool) (r : Ref) : option (bool * Ref) :=
  if negb faulted && negb (stalled r) && rep_string && (pc (ccore r) =? pre_pc) then
    match fuel with
    | O => None
    | S fuel => let '(faulted, r) := exec_cycles r in chunk_loop fuel rep_string pre_pc faulted r
    end
  else Some (faulted, r).

Definition enter_probe (op32 : bool) (r : Ref) : bool * Ref :=
  let c := ccore r in
  let sp := if stack32 c then reg c ESP else u16 (reg c ESP) in
  let r := r <| iss := probe (u32 (ss_base c + sp)) (if op32 then 4 else 2)%nat true (iss r) |> in
  (pending (iss r), r).

(** What [run] notes of the instruction before it executes it. *)
Record Insn := mkStep {
  i_op : Z; i_rep_string : bool; i_pc : Z; i_d : insn_t; i_ecx : Z; i_udf : Z; i_snap : Snap
}.

Definition basic_x87 (i : Insn) : bool :=
  let d := i_d i in
  (i_op i =? 0xD8) || (i_op i =? 0xDC) || (i_op i =? 0xDE) || ((i_op i =? 0xDA) && negb (m_mod d =? 3)) ||
  ((i_op i =? 0xD9) && (m_mod d =? 3) && (m_reg d =? 7) && (m_rm d =? 2)).

(** [rep_left] after the test for a string that z486 finished. *)
Definition cut_at (i : Insn) (ecx_count : bool) (rep_left : option Z) : option Z :=
  match rep_left with
  | Some n => if i_rep_string i && negb ((if ecx_count then n else Z.land n 0xFFFF) =? 0) then Some n else None
  | None => None
  end.

(** The result: whether it faulted, and whether in ENTER's probe. *)
Definition execute (fuel : nat) (i : Insn) (rep_left : option Z) (r : Ref) : option (bool * bool * Ref) :=
  let ecx_count := xorb (is32 (ccore r)) (i_rep_string i && rep_a32 15 0 r false) in
  let saved_x87_cw := cwd (ccore r) in
  let cap_x87 := x87_pc53 r && basic_x87 i && negb (Z.land saved_x87_cw 0x0300 =? 0) in
  let r := if cap_x87 then upd_core (fun c => c <| cwd := Z.lor (Z.land saved_x87_cw (Z.lnot 0x0300)) 0x0200 |>) r
           else r in
  '(faulted, enter_cw, r) ←
    match cut_at i ecx_count rep_left with
    | Some n =>
      let saved_trap := trap (ccore r) in
      '(faulted, r) ← cut_loop fuel ecx_count (if ecx_count then n else Z.land n 0xFFFF) (i_pc i) false
                        (upd_core (fun c => c <| trap := 1 |>) r);
      Some (faulted, false, upd_core (fun c => c <| trap := saved_trap |>) r)
    | None =>
      if i_op i =? 0xC8 then
        let '(faulted, r) := exec_cycles r in
        if faulted then Some (true, false, r)
        else let '(enter_cw, r) := enter_probe (op32 (i_d i)) r in Some (enter_cw, enter_cw, r)
      else
        let '(faulted, r) := exec_cycles r in
        '(faulted, r) ← chunk_loop fuel (i_rep_string i) (i_pc i) faulted r;
        Some (faulted, false, r)
    end;
  Some (faulted, enter_cw, if cap_x87 then upd_core (fun c => c <| cwd := saved_x87_cw |>) r else r).

(** ** Ends of a step *)

(** A store that the hooks see but the log does not. *)
Definition hook_store (pa b : Z) (s : Cosim) : Cosim :=
  let '(handled, s) := wr_hook pa b s in
  if handled then s else s <| mem := ram_set (mem s) pa b |>.

(** The bytes of [split_string_store]'s loop: until one does not translate. *)
Fixpoint split_stores (n : nat) (k : Z) (rep_string : bool) (data : list Z) (i : Iss) : Iss :=
  match n, data with
  | S n, b :: data =>
    let pa := walk_probe (cpu (co i)) (mem (co i)) (u32 ((split_probe i).1 + k)) true in
    if pa =? 0xFFFFFFFF then i
    else
      split_stores n (k + 1) rep_string data
        (if rep_string then i <| co := hook_store pa b (co i) |>
         else if (length (iss_partial i) <? 4)%nat then i <| iss_partial := iss_partial i ++ [(pa, b)] |> else i)
  | _, _ => i
  end.

(** The doubleword of a STOS or MOVS. *)
Definition string_data (op : Z) (a32 : bool) (r : Ref) : list Z :=
  let c := ccore r in
  if op =? 0xAB then map (fun i => byte_of (reg c EAX) i) (seq 0 4)
  else let src := u32 (ea_base c + (if a32 then reg c ESI else u16 (reg c ESI))) in
       map (fun i => peek r (u32 (src + i))) [0; 1; 2; 3].

Definition split_string_store (op : Z) (a32 rep_string : bool) (r : Ref) : Ref :=
  r <| iss := split_stores (Z.to_nat (split_probe (iss r)).2) 0 rep_string (string_data op a32 r) (iss r) |>.

(** A fault of an instruction that is not a REP string. *)
Definition undo_insn (i : Insn) (enter_cw : bool) (r : Ref) : Ref :=
  let fault_cr2 := cr2 (ccpu r) in
  let fault_err := abrt_error (ccpu r) in
  let r := if enter_cw then r else upd_co undo_ram r in
  let r := snap_restore (i_snap i) r in
  let r := upd_cpu (fun c => c <| cr2 := fault_cr2 |> <| abrt_error := fault_err |>) r in
  let r := upd_core (fun c => c <| oldpc := i_pc i |> <| oldcs := cs_sel c |> <| oldcpl := cpl (ccpu r) |>) r in
  let r := if enter_cw then r else upd_co (fun s => s <| stage_w := [] |>) r in
  let r := upd_co (fun s => s <| stage_io := [] |>) r in
  upd_co (fun s => foldl (fun s w => hook_store w.1 w.2 s) s (iss_partial (iss r))) r.

Definition commit (r : Ref) : option (Status * Ref) :=
  let r := upd_co (fun s => s <| ninsn := u64 (ninsn s + 1) |>) r in
  '(st, s) ← commit_writes (co (iss r));
  Some (st, upd_co (fun _ => s) r).

(** The reads z486 made for work that was squashed. *)
Definition drop_reads (r : Ref) : Ref := upd_co (fun s => s <| dev_rd := [] |> <| io_rd := [] |>) r.

Definition deliver (i : Insn) (vec : Z) (r : Ref) : option (Status * Ref) :=
  let r := upd_cpu (fun c => c <| abrt := None |>) r in
  let r := upd_core flags_rebuild r in
  let r := if vec =? 1 then r else upd_core rf_on r in
  let r := upd_core rf_off (call (x86_doabrt_2386 vec) r) in
  if pending (iss r) then Some (COSIM_ERROR, upd_co (fail (EDelivery vec)) r)
  else
    let r := upd_core flags_rebuild (r <| last_fault := Some vec |> <| udf := i_udf i |>) in
    '(st, r) ← commit r;
    Some (st, drop_reads r).

Definition fault_vector (r : Ref) : Z := Z.land (default 0 (abrt (ccpu r))) ABRT_MASK.

(** A page fault of a STOS or MOVS at the second page of its destination. *)
Definition string_split (i : Insn) (r : Ref) : bool :=
  (fault_vector r =? 14) && negb ((split_probe (iss r)).2 =? 0) && ((i_op i =? 0xA5) || (i_op i =? 0xAB)).

(** The state the fault is delivered from. *)
Definition fault_state (i : Insn) (enter_cw : bool) (r : Ref) : Ref :=
  let r := if string_split i r then split_string_store (i_op i) (a32 (i_d i)) (i_rep_string i) r else r in
  if i_rep_string i then r else undo_insn i enter_cw r.

Definition fault (i : Insn) (enter_cw : bool) (r : Ref) : option (Status * Ref) :=
  deliver i (fault_vector r) (fault_state i enter_cw r).

(** The silent writes of a shift of memory by 0. *)
Fixpoint silent_writes (n : nat) (k lin : Z) (s : Cosim) : Cosim :=
  match n with
  | O => s
  | S n =>
    let pa := walk_probe (cpu s) (mem s) (u32 (lin + k)) true in
    silent_writes n (k + 1) lin
      (if negb (pa =? 0xFFFFFFFF) && in_ram (mem s) pa then (wr_hook pa (ram_get (mem s) pa) s).2 else s)
  end.

Definition shift_by_0 (i : Insn) (imm_last : Z) : bool :=
  one_of [0xC0; 0xC1; 0xD2; 0xD3] (i_op i) && negb (m_mod (i_d i) =? 3) &&
  (Z.land (if i_op i <=? 0xC1 then imm_last else i_ecx i) 31 =? 0).

(** HLT, RF, the silent writes and the undefined flags. *)
Definition finish (i : Insn) (r : Ref) : Ref :=
  let r := if i_op i =? 0xF4 then upd_core (fun c => c <| pc := u32 (i_pc i + 1) |>) r <| was_hlt := true |> else r in
  let r := if (i_op i =? 0xCF) || (i_op i =? 0x9D) then r else upd_core rf_off r in
  let imm_last := peek r (u32 (lin_pc (ccore r) - 1)) in
  let f := effect_of (i_d i) (i_ecx i) imm_last (negb (Z.land (fl (ccore r)) F_Z =? 0)) in
  let r := if shift_by_0 i imm_last then
             let n := if Z.odd (i_op i) then (if op32 (i_d i) then 4%nat else 2%nat) else 1%nat in
             let lin := u32 (ea_base (ccore r) + eaaddr (ccore r)) in
             upd_co (silent_writes n 0 lin) r
           else r in
  let r := if is_logic_op (i_d i) then
             upd_core (fun c => let c := flags_rebuild c in
                                c <| fl := Z.land (fl c) (Z.lnot F_A) |> <| flags_op := FLAGS_UNKNOWN |>) r
           else r in
  r <| udf := update_udf (udf r) f |>.

Definition complete (i : Insn) (r : Ref) : option (Status * Ref) := commit (finish i r).

(** ** A step *)

Definition x87_frozen (d : insn_t) (r : Ref) : bool * Ref :=
  let summary := x87_summary (co (iss r)) in
  let r := if summary then r else upd_co (fun s => s <| ignne := false |>) r in
  (fpu_present r && summary && (Z.land (cr0 (ccpu r)) 0x20 =? 0) && negb (ignne (co (iss r))) &&
   (Z.land (cr0 (ccpu r)) 0x04 =? 0) && x87_waits d, r).

Definition begin_step (r : Ref) : Ref :=
  let r := upd_co (fun s => drop_step (s <| mem_log := [] |>) <| stall := false |>) r in
  r <| last_fault := None |> <| was_hlt := false |>
    <| iss := iss r <| iss_partial := [] |> <| split_probe := ((split_probe (iss r)).1, 0) |> |>.

(** The boundary of an instruction or interrupt. *)
Definition at_boundary (r : Ref) : Ref :=
  let r := upd_core flags_rebuild r in
  let r := r <| box := box r <| pccache := 0xFFFFFFFF |> |> in
  let r := upd_cpu (fun c => c <| abrt := None |>) r in
  upd_core (fun c => c <| oldcs := cs_sel c |> <| oldcpl := cpl (ccpu r) |> <| oldpc := pc c |>) r.

Definition rollback (p : Snap) (r : Ref) : Ref := upd_co drop_step (snap_restore p (upd_co undo_ram r)).

(** The instruction at CS:EIP and the state in which it is looked at. *)
Definition fetch_insn (fuel : nat) (r : Ref) : option (Insn * Ref) :=
  let snap := snap_save r in
  let r := begin_step r in
  let c := ccore r in
  let '(op, rep) := peek_opcode (peek r) (cs_base c) (pc c) (is32 c) in
  d ← decode_with fuel (peek r) (lin_pc c) (is32 c);
  Some (mkStep op (rep && is_string_op op) (pc c) d (reg c ECX) (udf r) snap,
        hist_add (cs_sel c) (pc c) (lin_pc c) r).

(** [run]; [rep_left] is [None] for -1. *)
Definition run (fuel : nat) (rep_left : option Z) (r : Ref) : option (Status * Ref) :=
  match err (co (iss r)) with
  | Some _ => Some (COSIM_ERROR, r)
  | None =>
    '(i, r) ← fetch_insn fuel r;
    let '(frozen, r) := x87_frozen (i_d i) r in
    if (frozen : bool) then commit r
    else
      '(faulted, enter_cw, r) ← execute fuel i rep_left (at_boundary r);
      if stalled r then Some (COSIM_STALL, rollback (i_snap i) r)
      else if (faulted : bool) then fault i enter_cw r
      else complete i r
  end.

Definition cosim_step (fuel : nat) (r : Ref) : option (Status * Ref) := run fuel None r.
Definition cosim_step_rep_to (fuel : nat) (count_left : Z) (r : Ref) : option (Status * Ref) :=
  run fuel (Some count_left) r.

Definition cosim_interrupt (vector : Z) (r : Ref) : option (Status * Ref) :=
  let r := upd_co (fun s => s <| cur_fpu := false |>) r in
  match err (co (iss r)) with
  | Some _ => Some (COSIM_ERROR, r)
  | None =>
    let r := upd_co (fun s => drop_step (s <| mem_log := [] |>)) r in
    let r := at_boundary (drop_reads r) in
    let r := if negb (Z.land (cr0 (ccpu r)) 1 =? 0) then call (pmodeint_2386 vector false) r
             else call (real_mode_int vector) r in
    if pending (iss r) then Some (COSIM_ERROR, upd_co (fail (EDelivery vector)) r)
    else commit (upd_core flags_rebuild r)
  end.

(** [cosim_adopt_flags] on the whole state. *)
Definition adopt_flags (dut_eflags : Z) (r : Ref) : Ref :=
  if adopt_mask (udf r) =? 0 then r <| udf := (cosim_adopt_flags dut_eflags (udf r) 0).1 |>
  else
    let c := flags_rebuild (ccore r) in
    let '(u, f) := cosim_adopt_flags dut_eflags (udf r) (fl c) in
    upd_core (fun _ => c <| fl := f |> <| flags_op := FLAGS_UNKNOWN |>) r <| udf := u |>.

(** ** Snapshots of the machine *)

(** The last history entry's instruction casts an interrupt shadow. *)
Fixpoint shadow_clear (l : list Z) : bool :=
  match l with
  | b :: l =>
    if one_of [0x26; 0x2E; 0x36; 0x3E; 0x64; 0x65; 0x66; 0x67; 0xF0; 0xF2; 0xF3] b then shadow_clear l
    else if (b =? 0xFB) || (b =? 0x17) then false
    else if b =? 0x8E then match l with m :: _ => negb (Z.land (Z.shiftr m 3) 7 =? 2) | [] => false end
    else true
  | [] => false
  end.

Definition cosim_snapshot_ok (r : Ref) : bool * Ref :=
  let r := upd_co advance_exp r in
  let s := co (iss r) in
  (match exp_w s, exp_io s, dut_w s, dut_io s, stage_w s, stage_io s with
   | [], [], [], [], [], [] =>
     negb (was_hlt r) && negb (ninsn s =? 0) &&
     shadow_clear (from_option h_bytes [] (hist r !! Z.to_nat ((ninsn s - 1) mod HIST)))
   | _, _, _, _, _, _ => false
   end, r).
End Steps.
