(* ===== verification/CosimStep.v ===== *)
(** * Stalls, faults, cut strings and interrupts of the reference

    What a step of [CosimRun] guarantees for any instruction 86Box may execute:
    a stalled step leaves no trace ([stalled_step_undone]), faults are precise
    ([precise_fault]), a REP string is cut exactly where z486 was
    ([rep_cut_exact]), a real-mode interrupt pushes its frame
    ([real_mode_frame]).  Two limits: a step that changed more than 4096 bytes
    is not undone completely ([full_log_not_undone]), and a retried step may
    report a divergence that does not exist ([retry_diverges]). *)
From S2P Require Import Prelude CosimMem CosimMatch CosimDecode CosimAccess CosimRun.

Section Steps.
Context {R T : Type} `{Box86 R T}.
Notation Ref := (Ref R T).
Notation Box := (Box R T).
Notation Insn := (@Insn R).
Implicit Types (r : Ref) (i : Insn).

(** ** What execution keeps *)

(** The parts of the state outside 86Box and memory. *)
Definition frame (r : Ref) : Z * option Z * bool * bool * bool * list hist_t :=
  (udf r, last_fault r, was_hlt r, fpu_present r, x87_pc53 r, hist r).

Section Executing.
(** A predicate that every program of accesses keeps. *)
Context (P : Iss -> Prop) (HP : forall A (p : Prog A) s, P s -> P (exec p s).2).

Definition kept (r r' : Ref) : Prop := frame r' = frame r /\ (P (iss r) -> P (iss r')).

Lemma kept_trans r1 r2 r3 : kept r1 r2 -> kept r2 r3 -> kept r1 r3.
Proof. intros [E1 H1] [E2 H2]. split; [congruence|auto]. Qed.

Lemma kept_upd_core f r : kept r (upd_core f r).
Proof. by split. Qed.

Lemma kept_exec {A} (p : Prog A) r (b : Box) : kept r (r <| box := b |> <| iss := (exec p (iss r)).2 |>).
Proof. split; [done|]. apply (HP A p (iss r)). Qed.

Lemma kept_call f r : kept r (call f r).
Proof.
  unfold call. pose proof (kept_exec (f (box r)) r (exec (f (box r)) (iss r)).1) as Hk.
  by destruct (exec (f (box r)) (iss r)) as [b i].
Qed.

Lemma kept_exec_one r : kept r (exec_one r).2.
Proof.
  unfold exec_one. set (r0 := upd_core _ r). apply (kept_trans r r0); [apply kept_upd_core|]. clearbody r0.
  pose proof (kept_exec (fastreadl_fetch (lin_pc (ccore r0)) (box r0)) r0) as Hk.
  destruct (exec (fastreadl_fetch _ _) _) as [[d b] i]. cbn [snd] in Hk. specialize (Hk b).
  set (r1 := r0 <| box := b |> <| iss := i |>) in *. clearbody r1. destruct (pending (iss r1)); [done|].
  apply (kept_trans r0 r1); [done|]. clear Hk r0 b i. cbn [snd].
  set (r2 := upd_core _ (r1 <| box := _ |>)). assert (kept r1 r2) as Hk by done. clearbody r2.
  set (r3 := call _ r2). assert (kept r2 r3) as Hk3 by apply kept_call. clearbody r3.
  apply (kept_trans r1 r2); [done|]. apply (kept_trans r2 r3); [done|]. by destruct (is32 (ccore r3)).
Qed.

Lemma kept_exec_cycles r : kept r (exec_cycles r).2.
Proof. unfold exec_cycles. eapply kept_trans; [|apply kept_exec_one]. by split. Qed.

Lemma kept_cut_loop ecx stop pre : forall fuel f r f' r',
  cut_loop fuel ecx stop pre f r = Some (f', r') -> kept r r'.
Proof.
  induction fuel as [|fuel IH]; intros f r f' r'; cbn [cut_loop]; destruct (_ || _).
  - by intros [= _ <-].
  - done.
  - by intros [= _ <-].
  - set (r0 := upd_core _ r). pose proof (kept_exec_cycles r0) as Hk. destruct (exec_cycles r0) as [f1 r1]. cbn [snd] in Hk.
    assert (kept r r1) as Hk' by (apply (kept_trans r r0); [apply kept_upd_core|done]).
    destruct (negb _); [by intros [= _ <-]|]. intros E. apply (kept_trans r r1); [done|by eapply IH].
Qed.

Lemma kept_chunk_loop rep pre : forall fuel f r f' r',
  chunk_loop fuel rep pre f r = Some (f', r') -> kept r r'.
Proof.
  induction fuel as [|fuel IH]; intros f r f' r'; cbn [chunk_loop]; destruct (_ && _).
  - done.
  - by intros [= _ <-].
  - pose proof (kept_exec_cycles r) as Hk. destruct (exec_cycles r) as [f1 r1]. cbn [snd] in Hk.
    intros E. apply (kept_trans r r1); [done|by eapply IH].
  - by intros [= _ <-].
Qed.

Lemma kept_enter_probe op32 r : kept r (enter_probe op32 r).2.
Proof.
  unfold enter_probe. cbn [snd]. set (a := u32 _). set (n := if op32 then _ else _).
  exact (kept_exec (ProbeMem a n true (Ret tt)) r (box r)).
Qed.

Lemma kept_execute fuel i rep_left r f e r' : execute fuel i rep_left r = Some (f, e, r') -> kept r r'.
Proof.
  unfold execute. set (cap := _ && _ && _). set (r0 := if cap then _ else r).
  assert (kept r r0) as Hk0 by (subst r0; destruct cap; apply kept_upd_core || done).
  set (saved := cwd _). set (ecx := xorb _ _). clearbody r0 saved ecx.
  destruct (match cut_at i ecx rep_left with Some _ => _ | None => _ end) as [[[f1 e1] r1]|] eqn:E; [simpl|done].
  intros [= <- <- <-]. apply (kept_trans r r0); [done|]. apply (kept_trans r0 r1); [|destruct cap; apply kept_upd_core || done].
  clear Hk0. destruct (cut_at i ecx rep_left) as [n|].
  - destruct (cut_loop _ _ _ _ _ _) as [[f2 r2]|] eqn:El; [simpl in E|done]. injection E as _ _ <-.
    apply (kept_cut_loop) in El. apply (kept_trans r0 r2); [|apply kept_upd_core].
    eapply kept_trans; [apply kept_upd_core|exact El].
  - destruct (i_op i =? 0xC8).
    + pose proof (kept_exec_cycles r0) as Hk. destruct (exec_cycles r0) as [f2 r2]. cbn [snd] in Hk.
      destruct f2; [by injection E as _ _ <-|]. pose proof (kept_enter_probe (op32 (i_d i)) r2) as Hp.
      destruct (enter_probe _ r2) as [e2 r3]. injection E as _ _ <-. by apply (kept_trans r0 r2).
    + pose proof (kept_exec_cycles r0) as Hk. destruct (exec_cycles r0) as [f2 r2]. cbn [snd] in Hk.
      destruct (chunk_loop _ _ _ _ _) as [[f3 r3]|] eqn:El; [simpl in E|done]. injection E as _ _ <-.
      apply kept_chunk_loop in El. by apply (kept_trans r0 r2).
Qed.
End Executing.

(** ** The state an instruction starts from *)

Record fetched (r : Ref) (i : Insn) (r1 : Ref) : Prop := mkFetched {
  fe_snap : i_snap i = snap_save r;
  fe_pc : i_pc i = pc (ccore r);
  fe_udf : i_udf i = udf r;
  fe_frame : udf r1 = udf r;
  fe_mem : mem (co (iss r1)) = mem (co (iss r));
  fe_cpu : ccpu r1 = ccpu r;
  fe_sum : x87_summary (co (iss r1)) = x87_summary (co (iss r));
  fe_log : mem_log (co (iss r1)) = [];
  fe_stage : stage_w (co (iss r1)) = [] /\ stage_io (co (iss r1)) = [];
  fe_partial : iss_partial (iss r1) = [];
  fe_queues : same_queues (co (iss r)) (co (iss r1));
  fe_split : (split_probe (iss r1)).2 = 0
}.

Lemma fetch_insn_spec fuel r i r1 : fetch_insn fuel r = Some (i, r1) -> fetched r i r1.
Proof.
  unfold fetch_insn. destruct (peek_opcode _ _ _ _) as [op rep]. destruct (decode_with _ _ _ _) as [d|]; [simpl|done].
  intros [= <- <-]. by constructor.
Qed.

Lemma frozen_fetched r i r1 d b r2 : fetched r i r1 -> x87_frozen d r1 = (b, r2) -> fetched r i r2.
Proof.
  intros Hf. unfold x87_frozen. intros E. apply (f_equal snd) in E. cbn [snd] in E. subst r2.
  destruct (x87_summary (co (iss r1))) eqn:Es; [done|]. destruct Hf as [? ? ? ? ? ? Hsum ? ? ? [] ?]. constructor; try done.
Qed.

(** What an instruction keeps: its stores are logged, and z486's events stay. *)
Definition in_step (r : Ref) (s : Cosim) : Prop := logged (mem (co (iss r))) s /\ same_queues (co (iss r)) s.

Lemma in_step_closed r : access_closed (in_step r).
Proof. apply access_closed_and; [apply logged_closed|apply same_queues_closed]. Qed.

Lemma boundary_in_step r i r1 :
  ram_ok (mem (co (iss r))) -> fetched r i r1 -> in_step r (co (iss (at_boundary r1))).
Proof.
  intros Hm [_ _ _ _ Hmem Hcpu _ Hlog _ _ Hq _]. split; [split|].
  - by change (ram_ok (mem (co (iss r1)))); rewrite Hmem.
  - intros _. unfold undo_ram. change (mem_log (co (iss (at_boundary r1)))) with (mem_log (co (iss r1))). rewrite Hlog. done.
  - destruct Hq. by constructor.
Qed.

(** The instruction when it has executed. *)
Lemma executed_kept fuel rep_left r i r1 r2 f e r3 :
  fetch_insn fuel r = Some (i, r1) -> x87_frozen (i_d i) r1 = (false, r2) ->
  execute fuel i rep_left (at_boundary r2) = Some (f, e, r3) -> kept_ok (iss r3).
Proof.
  intros Hf Hx He. apply fetch_insn_spec in Hf. pose proof (frozen_fetched _ _ _ _ _ _ Hf Hx) as Hf2.
  apply (kept_execute kept_ok (fun A p => exec_kept p)) in He as [_ Hk]. apply Hk.
  assert (iss_partial (iss (at_boundary r2)) = [] /\ (split_probe (iss (at_boundary r2))).2 = 0) as [E1 E2] by (split; apply Hf2).
  split; [exists []; by rewrite E1|by left].
Qed.

Lemma executed fuel rep_left r i r1 r2 f e r3 :
  ram_ok (mem (co (iss r))) -> fetch_insn fuel r = Some (i, r1) -> x87_frozen (i_d i) r1 = (false, r2) ->
  execute fuel i rep_left (at_boundary r2) = Some (f, e, r3) -> in_step r (co (iss r3)) /\ frame r3 = frame r2.
Proof.
  intros Hm Hf Hx He. apply fetch_insn_spec in Hf. pose proof (frozen_fetched _ _ _ _ _ _ Hf Hx) as Hf2.
  apply (kept_execute (fun s => in_step r (co s)) (fun A p => exec_closed _ (in_step_closed r) p)) in He as [Hfr Hk].
  split; [|by rewrite Hfr]. apply Hk. by eapply boundary_in_step.
Qed.

Lemma commit_status r st r' : commit r = Some (st, r') -> st <> COSIM_STALL.
Proof.
  unfold commit, commit_writes. set (s := committed _).
  destruct (rematch_writes _ _) as [s1|]; [simpl|done]. set (s2 := rematch_io _ _). intros [= <- _].
  by destruct (err s2).
Qed.

Lemma deliver_status i vec r st r' : deliver i vec r = Some (st, r') -> st <> COSIM_STALL.
Proof.
  unfold deliver. set (r1 := upd_core rf_off _). destruct (pending _); [by intros [= <- _]|].
  destruct (commit _) as [[st1 r2]|] eqn:E; [simpl|done]. intros [= <- _]. by eapply commit_status.
Qed.

Lemma fault_status i e r st r' : fault i e r = Some (st, r') -> st <> COSIM_STALL.
Proof. unfold fault. apply deliver_status. Qed.

Lemma complete_status i r st r' : complete i r = Some (st, r') -> st <> COSIM_STALL.
Proof. unfold complete. apply commit_status. Qed.

(** ** Stalls *)

Lemma rollback_spec p r :
  let r' := rollback p r in
  ccore r' = s_core p /\
  ccpu r' = s_cpu p <| a20_on := a20_on (cpu (co (iss r))) |> <| code_fetch := code_fetch (ccpu r) |> /\
  x87_summary (co (iss r')) = s_summary p /\ mem (co (iss r')) = mem (undo_ram (co (iss r))) /\
  mem_log (co (iss r')) = mem_log (co (iss r)) /\
  (forall s0, same_queues s0 (co (iss r)) -> a20_on (s_cpu p) = a20_on (cpu s0) ->
     mem (co (iss r')) = mem s0 -> same_queues s0 (co (iss r'))) /\
  (stage_w (co (iss r')) = [] /\ stage_io (co (iss r')) = [] /\ io_cur (co (iss r')) = 0%nat /\
   dev_cur (co (iss r')) = 0%nat) /\
  udf r' = udf r.
Proof.
  cbn zeta. split_and!; try done. intros s0 [] Ha Em. constructor; try done. by rewrite Em.
Qed.

Lemma run_stall fuel rep_left r r' :
  run fuel rep_left r = Some (COSIM_STALL, r') ->
  exists i r1 r2 f e r3, fetch_insn fuel r = Some (i, r1) /\ x87_frozen (i_d i) r1 = (false, r2) /\
    execute fuel i rep_left (at_boundary r2) = Some (f, e, r3) /\ r' = rollback (i_snap i) r3.
Proof.
  unfold run. destruct (err (co (iss r))); [done|].
  destruct (fetch_insn fuel r) as [[i r1]|] eqn:Ef; [|done]. cbn [mbind option_bind].
  destruct (x87_frozen (i_d i) r1) as [b r2] eqn:Ex. destruct b; [by intros Hc%commit_status|].
  destruct (execute fuel i rep_left (at_boundary r2)) as [[[f e] r3]|] eqn:Ee; [|done]. cbn [mbind option_bind].
  destruct (stalled r3).
  - intros [= <-]. by exists i, r1, r2, f, e, r3.
  - destruct f; intros Hc; exfalso; [by apply (fault_status _ _ _ _ _ Hc)|by apply (complete_status _ _ _ _ Hc)].
Qed.

Lemma stall_rolls_back fuel rep_left r r' :
  run fuel rep_left r = Some (COSIM_STALL, r') -> ram_ok (mem (co (iss r))) ->
  exists r3, r' = rollback (snap_save r) r3 /\ in_step r (co (iss r3)) /\ udf r3 = udf r.
Proof.
  intros (i & r1 & r2 & f & e & r3 & Ef & Ex & Ee & ->)%run_stall Hm.
  destruct (executed _ _ _ _ _ _ _ _ _ Hm Ef Ex Ee) as [Hin Hfr].
  pose proof (frozen_fetched _ _ _ _ _ _ (fetch_insn_spec _ _ _ _ Ef) Ex) as Hf.
  exists r3. split_and!; [by rewrite (fe_snap _ _ _ Hf)|done|].
  rewrite <- (fe_frame _ _ _ Hf). exact (f_equal (fun x => x.1.1.1.1.1) Hfr).
Qed.

(** C22: A step that needs device data z486 has not returned leaves the reference
    where it was: registers, paging and x87 state, memory, z486's events and the
    expected writes are those before the step, whatever the instruction did, as
    long as its changed bytes fitted the log of 4096. *)
Theorem stalled_step_undone fuel rep_left r r'
  (Hrun : run fuel rep_left r = Some (COSIM_STALL, r')) (Hm : ram_ok (mem (co (iss r))))
  (Hlog : (length (mem_log (co (iss r'))) < MAX_MEM_LOG)%nat) :
  ccore r' = ccore r /\ (exists b, ccpu r' = ccpu r <| code_fetch := b |>) /\
  x87_summary (co (iss r')) = x87_summary (co (iss r)) /\ mem (co (iss r')) = mem (co (iss r)) /\
  same_queues (co (iss r)) (co (iss r')) /\ udf r' = udf r /\
  stage_w (co (iss r')) = [] /\ stage_io (co (iss r')) = [] /\ io_cur (co (iss r')) = 0%nat /\ dev_cur (co (iss r')) = 0%nat.
Proof.
  destruct (stall_rolls_back _ _ _ _ Hrun Hm) as (r3 & -> & [[_ Hundo] Hq] & Hudf).
  destruct (rollback_spec (snap_save r) r3) as (Ecore & Ecpu & Esum & Emem & Elog & Eqs & (E1 & E2 & E3 & E4) & Eudf).
  rewrite Elog in Hlog. specialize (Hundo Hlog). rewrite Hundo in Emem.
  split_and!; [done| |done|done| |by rewrite Eudf|done..].
  - exists (code_fetch (ccpu r3)). rewrite Ecpu, (sq_a20 _ _ Hq). unfold snap_save, ccpu. cbn [s_cpu].
    by destruct (cpu (co (iss r))).
  - by apply Eqs.
Qed.

(** ** Faults *)

Definition store_bytes (parts : list (Z * Z)) (m : Ram) : Ram :=
  foldl (fun m w => if in_ram m w.1 then ram_set m w.1 w.2 else m) m parts.

Lemma hook_store_spec pa b s :
  let s' := hook_store pa b s in
  mem s' = (if in_ram (mem s) pa then ram_set (mem s) pa b else mem s) /\
  pairs_of (stage_w s') = pairs_of (stage_w s) ++ [(pa, b)] /\ stage_io s' = stage_io s /\ cpu s' = cpu s /\
  x87_summary s' = x87_summary s /\ (forall s0, same_queues s0 s -> same_queues s0 s').
Proof.
  cbn zeta. unfold hook_store. rewrite wr_hook_eq. unfold pairs_of.
  destruct (in_ram (mem s) pa); cbn [negb]; split_and!; try done;
    first [intros s0 []; by constructor | cbn [stage_w set_field]; by rewrite map_app].
Qed.

Lemma hook_stores_spec parts : forall s,
  let s' := foldl (fun s w => hook_store w.1 w.2 s) s parts in
  mem s' = store_bytes parts (mem s) /\
  pairs_of (stage_w s') = pairs_of (stage_w s) ++ parts /\ stage_io s' = stage_io s /\ cpu s' = cpu s /\
  x87_summary s' = x87_summary s /\ (forall s0, same_queues s0 s -> same_queues s0 s').
Proof.
  induction parts as [|[pa b] parts IH]; intros s; cbn zeta; [cbn; by rewrite app_nil_r|].
  cbn [foldl fst snd]. destruct (hook_store_spec pa b s) as (E1 & E2 & E3 & E4 & E5 & E6).
  destruct (IH (hook_store pa b s)) as (F1 & F2 & F3 & F4 & F5 & F6).
  rewrite F1, F2, F3, F4, F5, E1, E2, E3, E4, E5. split_and!; try done.
  - by rewrite <- app_assoc.
  - auto.
Qed.

(** A state [r4] a fault is delivered from: that of [r] but for what a page fault
    leaves, and the bytes [parts]. *)
Record precise (r r3 : Ref) (parts : list (Z * Z)) (r4 : Ref) : Prop := mkPrecise {
  pr_core : ccore r4 = ccore r <| oldpc := pc (ccore r) |> <| oldcs := cs_sel (ccore r) |>
                               <| oldcpl := cpl (ccpu r) |>;
  pr_cpu : exists b, ccpu r4 = ccpu r <| code_fetch := b |> <| cr2 := cr2 (ccpu r3) |>
                                      <| abrt_error := abrt_error (ccpu r3) |>;
  pr_x87 : x87_summary (co (iss r4)) = x87_summary (co (iss r));
  pr_mem : mem (co (iss r4)) = store_bytes parts (mem (co (iss r)));
  pr_stage : pairs_of (stage_w (co (iss r4))) = parts;
  pr_out : stage_io (co (iss r4)) = [];
  pr_queues : same_queues (co (iss r)) (co (iss r4))
}.

(** The state before the partial stores. *)
Definition undone (i : Insn) (r : Ref) : Ref :=
  upd_co (fun s => s <| stage_w := [] |> <| stage_io := [] |>)
    (upd_core (fun c => c <| oldpc := i_pc i |> <| oldcs := cs_sel c |> <| oldcpl := cpl (s_cpu (i_snap i)) |>)
      (upd_cpu (fun c => c <| cr2 := cr2 (ccpu r) |> <| abrt_error := abrt_error (ccpu r) |>)
        (snap_restore (i_snap i) (upd_co undo_ram r)))).

Lemma undo_insn_eq i r :
  undo_insn i false r = upd_co (fun s => foldl (fun s w => hook_store w.1 w.2 s) s (iss_partial (iss r))) (undone i r).
Proof. reflexivity. Qed.

Lemma undone_spec r i r3 :
  i_snap i = snap_save r -> i_pc i = pc (ccore r) -> in_step r (co (iss r3)) ->
  (length (mem_log (co (iss r3))) < MAX_MEM_LOG)%nat -> precise r r3 [] (undone i r3).
Proof.
  intros Hs Hp [[_ Hundo] Hq] Hlog. specialize (Hundo Hlog). pose proof (sq_a20 _ _ Hq) as Ha.
  assert (mem (co (iss (undone i r3))) = mem (co (iss r))) as Em by exact Hundo.
  constructor; try done.
  - change (ccore (undone i r3)) with (s_core (i_snap i) <| oldpc := i_pc i |> <| oldcs := cs_sel (s_core (i_snap i)) |>
      <| oldcpl := cpl (s_cpu (i_snap i)) |>). by rewrite Hs, Hp.
  - exists (code_fetch (ccpu r3)).
    change (ccpu (undone i r3)) with (s_cpu (i_snap i) <| a20_on := a20_on (cpu (co (iss r3))) |>
      <| code_fetch := code_fetch (ccpu r3) |> <| cr2 := cr2 (ccpu r3) |> <| abrt_error := abrt_error (ccpu r3) |>).
    rewrite Hs, Ha. unfold snap_save, ccpu. cbn [s_cpu]. by destruct (cpu (co (iss r))).
  - change (x87_summary (co (iss (undone i r3)))) with (s_summary (i_snap i)). by rewrite Hs.
  - destruct Hq. constructor; try done. by rewrite Em.
Qed.

Lemma precise_stores r r3 r4 parts :
  precise r r3 [] r4 -> precise r r3 parts (upd_co (fun s => foldl (fun s w => hook_store w.1 w.2 s) s parts) r4).
Proof.
  intros [Hc [b Hp] Hx Hm Hs Ho Hq].
  destruct (hook_stores_spec parts (co (iss r4))) as (E1 & E2 & E3 & E4 & E5 & E6).
  constructor.
  - exact Hc.
  - exists b. rewrite <- Hp. exact E4.
  - rewrite <- Hx. exact E5.
  - change (store_bytes [] (mem (co (iss r)))) with (mem (co (iss r))) in Hm. rewrite <- Hm. exact E1.
  - rewrite Hs in E2. exact E2.
  - rewrite <- Ho. exact E3.
  - exact (E6 _ Hq).
Qed.

(** What a split MOVS or STOS is to leave, which 86Box probes before it writes:
    the bytes of its data before the page's end, as far as they translate. *)
Record string_bytes (i : Insn) (r : Ref) (l : list (Z * Z)) : Prop := mkStringBytes {
  sb_edge : let sp := split_probe (iss r) in 0 < sp.2 /\ Z.land (u32 (sp.1 + sp.2)) 0xFFF = 0;
  sb_length : Z.of_nat (length l) <= Z.min 4 (split_probe (iss r)).2;
  sb_places : Forall2 (fun a p => walk_probe (ccpu r) (mem (co (iss r))) a true = p)
                (lins 0 (split_probe (iss r)).1 (length l)) (map fst l);
  sb_data : map snd l = take (length l) (string_data (i_op i) (a32 (i_d i)) r);
  sb_end : Z.of_nat (length l) < Z.min 4 (split_probe (iss r)).2 ->
    walk_probe (ccpu r) (mem (co (iss r))) (u32 ((split_probe (iss r)).1 + Z.of_nat (length l))) true = 0xFFFFFFFF
}.

(** The bytes that stay behind a fault: those of the first pages of split writes,
    and of a split string, up to four. *)
Definition fault_bytes (i : Insn) (r : Ref) (parts : list (Z * Z)) : Prop :=
  exists pages str, Forall first_page pages /\ iss_partial (iss r) = take 4 (concat pages) /\
    (if string_split i r then string_bytes i r str else str = []) /\ parts = take 4 (concat pages ++ str).

Lemma split_stores_partial n : forall (k : Z) (data : list Z) (s : Iss), 0 <= k -> (length (iss_partial s) <= 4)%nat ->
  exists l, let s' := split_stores n k false data s in
    co s' = co s /\ split_probe s' = split_probe s /\ iss_partial s' = take 4 (iss_partial s ++ l) /\
    (length l <= Nat.min n (length data))%nat /\
    Forall2 (fun a p => walk_probe (cpu (co s)) (mem (co s)) a true = p) (lins k (split_probe s).1 (length l)) (map fst l) /\
    map snd l = take (length l) data /\
    ((length l < Nat.min n (length data))%nat ->
      walk_probe (cpu (co s)) (mem (co s)) (u32 ((split_probe s).1 + k + Z.of_nat (length l))) true = 0xFFFFFFFF).
Proof.
  assert (forall s : Iss, (length (iss_partial s) <= 4)%nat -> iss_partial s = take 4 (iss_partial s ++ [])) as Hnil
    by (intros; rewrite app_nil_r, take_ge by lia; done).
  induction n as [|n IH]; intros k data s Hk Hlen; [exists []; cbn; split_and!; auto; lia|].
  destruct data as [|b data]; [exists []; cbn; split_and!; auto; lia|]. cbn [split_stores].
  destruct (Z.eqb_spec (walk_probe (cpu (co s)) (mem (co s)) (u32 ((split_probe s).1 + k)) true) 0xFFFFFFFF) as [Ew|Ew].
  { exists []. cbn. rewrite Z.add_0_r. split_and!; auto; lia. }
  set (pa := walk_probe _ _ _ _) in *.
  set (s1 := if (_ <? _)%nat then _ else s).
  assert (co s1 = co s /\ split_probe s1 = split_probe s /\ iss_partial s1 = take 4 (iss_partial s ++ [(pa, b)])) as (E1 & E2 & E3).
  { subst s1. destruct (Nat.ltb_spec (length (iss_partial s)) 4); cbn [co split_probe iss_partial set_field].
    - split_and!; [done..|]. rewrite take_ge; [done|rewrite length_app; cbn; lia].
    - split_and!; [done..|]. rewrite take_app_le by lia. by rewrite take_ge by lia. }
  clearbody s1. destruct (IH (k + 1) data s1) as (l & F1 & F2 & F3 & F4 & F5 & F6 & F7); [lia|rewrite E3, length_take; lia|].
  rewrite E1, E2 in *. rewrite E3, take_take_app, <- app_assoc in F3. exists ((pa, b) :: l). cbn [length map fst snd take app] in *.
  split_and!; [done|done|exact F3|lia| |by rewrite F6|].
  - rewrite lins_S. by constructor.
  - intros Hl. replace ((split_probe s).1 + k + Z.of_nat (S (length l))) with ((split_probe s).1 + (k + 1) + Z.of_nat (length l)) by lia.
    apply F7. lia.
Qed.

Lemma length_string_data op a32 r : length (string_data op a32 r) = 4%nat.
Proof. unfold string_data. by destruct (op =? 0xAB). Qed.

Lemma split_string_store_co op a32 r :
  co (iss (split_string_store op a32 false r)) = co (iss r) /\ box (split_string_store op a32 false r) = box r.
Proof.
  unfold split_string_store. cbn [iss box set_field]. split; [|done]. generalize (string_data op a32 r) (Z.to_nat (split_probe (iss r)).2) 0.
  intros data n. revert data. generalize (iss r). induction n as [|n IH]; intros s data k; [done|]. destruct data as [|b data]; [done|].
  cbn [split_stores]. destruct (_ =? _); [done|]. rewrite IH. by destruct (_ <? _)%nat.
Qed.

(** The bytes [undo_insn] stores again. *)
Lemma fault_bytes_kept (i : Insn) (r : Ref) : kept_ok (iss r) ->
  fault_bytes i r (iss_partial (iss (if string_split i r then split_string_store (i_op i) (a32 (i_d i)) false r else r))).
Proof.
  intros [(pages & Hp & Ep) He]. exists pages. destruct (string_split i r) eqn:Es.
  - apply andb_true_iff in Es as [[_ En]%andb_true_iff _].
    destruct He as [He|He]; [by rewrite He in En|].
    destruct (split_stores_partial (Z.to_nat (split_probe (iss r)).2) 0 (string_data (i_op i) (a32 (i_d i)) r) (iss r))
      as (l & _ & _ & F3 & F4 & F5 & F6 & F7); [lia|rewrite Ep, length_take; lia|].
    rewrite length_string_data in *. exists l. split_and!; [done|done| |].
    + constructor; [done|lia|exact F5|done|]. intros Hl. rewrite Z.add_0_r in F7. apply F7. lia.
    + unfold split_string_store. cbn [iss set_field]. by rewrite F3, Ep, take_take_app.
  - exists []. by rewrite app_nil_r.
Qed.

Lemma run_fault fuel rep_left r i r1 r2 e r3 :
  err (co (iss r)) = None -> fetch_insn fuel r = Some (i, r1) -> x87_frozen (i_d i) r1 = (false, r2) ->
  execute fuel i rep_left (at_boundary r2) = Some (true, e, r3) -> stalled r3 = false ->
  run fuel rep_left r = deliver i (fault_vector r3) (fault_state i e r3).
Proof.
  intros He Hf Hx Hex Hs. unfold run. rewrite He, Hf. cbn [mbind option_bind]. rewrite Hx, Hex.
  cbn [mbind option_bind]. rewrite Hs. reflexivity.
Qed.


(** ** REP strings cut short *)

(** What [cosim_step_rep_to] relies on of a string instruction with the trap
    flag set: one element per call, which leaves EIP on the instruction, counts
    it and needs no missing data.  [Inv] is whatever makes it so. *)
Definition one_element (Inv : Ref -> Prop) (ecx : bool) (stop pre_pc : Z) : Prop :=
  forall r, Inv r -> stop < count_reg ecx r ->
    let '(faulted, r') := exec_cycles (upd_core (fun c => c <| oldpc := pre_pc |>) r) in
    faulted = false /\ pc (ccore r') = pre_pc /\ count_reg ecx r' = count_reg ecx r - 1 /\ Inv r'.

Lemma cut_loop_stops Inv ecx stop pre_pc :
  one_element Inv ecx stop pre_pc -> (forall r, Inv r -> stalled r = false) ->
  forall fuel r, Inv r -> stop <= count_reg ecx r -> count_reg ecx r - stop <= Z.of_nat fuel ->
  exists r', cut_loop fuel ecx stop pre_pc false r = Some (false, r') /\ count_reg ecx r' = stop /\ Inv r'.
Proof.
  intros Hel Hst. induction fuel as [|fuel IH]; intros r Hr Hle Hfuel; cbn [cut_loop]; rewrite (Hst r Hr), orb_false_r;
    (destruct (Z.leb_spec (count_reg ecx r) stop); [exists r; split_and!; [done|lia|done]|]); [lia|].
  specialize (Hel r Hr ltac:(lia)). destruct (exec_cycles _) as [f r1]. destruct Hel as (-> & -> & Hc & Hi).
  rewrite Z.eqb_refl. cbn [negb]. apply IH; [done|lia|lia].
Qed.

(** C24: A REP string that z486 was interrupted in is run to exactly the element
    z486 reached: the loop ends after as many elements as lie between, with
    (E)CX at the given count and the trap flag as it was. *)
Theorem rep_cut_exact Inv fuel i n r
  (Hrep : i_rep_string i = true) (Hcap : x87_pc53 r && basic_x87 i = false)
  (ecx := xorb (is32 (ccore r)) (rep_a32 15 0 r false)) (stop := if ecx then n else Z.land n 0xFFFF)
  (Hn : stop <> 0) (Hel : one_element Inv ecx stop (i_pc i)) (Hst : forall r, Inv r -> stalled r = false)
  (Hinv : Inv (upd_core (fun c => c <| trap := 1 |>) r))
  (Hle : stop <= count_reg ecx r) (Hfuel : count_reg ecx r - stop <= Z.of_nat fuel) :
  exists r', execute fuel i (Some n) r = Some (false, false, r') /\
    count_reg ecx r' = stop /\ trap (ccore r') = trap (ccore r).
Proof.
  unfold execute. rewrite Hcap, Hrep. cbn [andb]. fold ecx. unfold cut_at. rewrite Hrep. fold stop.
  rewrite (proj2 (Z.eqb_neq stop 0) Hn). cbn [andb negb]. fold stop.
  destruct (cut_loop_stops Inv ecx stop (i_pc i) Hel Hst fuel _ Hinv Hle Hfuel) as (r1 & -> & Hc & _).
  cbn [mbind option_bind]. eexists. split; [reflexivity|]. split; [|done]. exact Hc.
Qed.

(** ** Interrupts in real mode *)

(** Without paging, the physical addresses of a word and its value. *)
Definition word_phys (a20 : bool) (addr : Z) : list Z := map (platform_phys a20) (lins 0 addr 2).
Definition word_at (a20 : bool) (m : Ram) (addr : Z) : Z := le_val (map (ram_get m) (word_phys a20 addr)).

Definition unpaged (s : Iss) : Prop := pending s = false /\ Z.land (cr0 (cpu (co s))) 0x80000000 = 0.

Definition in_ram_all (m : Ram) (l : list Z) : Prop := Forall (fun p => 0 <= p /\ in_ram m p = true) l.

Lemma in_ram_all_nonneg m l : in_ram_all m l -> Forall (fun p => 0 <= p) l.
Proof. intros Hl. eapply Forall_impl; [exact Hl|]. by intros p []. Qed.

Lemma unpaged_translates s write addr :
  unpaged s -> Forall2 (translates s write) (lins 0 addr 2) (word_phys (a20_on (cpu (co s))) addr).
Proof.
  intros [_ Hpg]. unfold word_phys, translates, walk_entry. rewrite Hpg. cbn [Z.eqb].
  induction (lins 0 addr 2); constructor; done.
Qed.

Lemma write_word addr v s : unpaged s ->
  write_n addr v 2 s = s <| co := store_all 0 v (word_phys (a20_on (cpu (co s))) addr) (co s) |>.
Proof. intros Hs. apply write_n_ok; [apply Hs|by apply unpaged_translates]. Qed.

Lemma read_word addr s : unpaged s -> ram_ok (mem (co s)) -> bytes (ram (mem (co s))) ->
  in_ram_all (mem (co s)) (word_phys (a20_on (cpu (co s))) addr) ->
  read_n addr 2 s = (word_at (a20_on (cpu (co s))) (mem (co s)) addr, s).
Proof.
  intros Hs Hm Hb Hin. unfold read_n. rewrite (read_loop_ram 2 0 addr 0 s (word_phys (a20_on (cpu (co s))) addr)).
  - f_equal. rewrite Z.lor_0_l. change (8 * 0) with 0. rewrite or_bytes_val; [by rewrite Z.pow_0_r, Z.mul_1_r|lia|].
    apply Forall_map, Forall_true. intros p. apply znth_u8, Hb.
  - lia.
  - apply Hs.
  - by apply unpaged_translates.
  - eapply Forall_impl; [apply Hin|]. by intros p [_ Hp].
Qed.

Lemma stores_ok v pas : forall j m, ram_ok m -> ram_ok (stores j v pas m).
Proof.
  induction pas as [|p pas IH]; intros j m Hm; [done|]. apply IH. destruct (in_ram m p); [by apply ram_set_ok|done].
Qed.

Lemma stores_in_ram v pas a : forall j m, in_ram (stores j v pas m) a = in_ram m a.
Proof. induction pas as [|p pas IH]; intros j m; [done|]. cbn [stores]. rewrite IH. by destruct (in_ram m p). Qed.

Lemma in_ram_all_stores v pas j m l : in_ram_all m l -> in_ram_all (stores j v pas m) l.
Proof. intros Hl. eapply Forall_impl; [apply Hl|]. intros p Hp. by rewrite stores_in_ram. Qed.

Lemma stores_bytes v pas : forall j m, bytes (ram m) -> bytes (ram (stores j v pas m)).
Proof.
  induction pas as [|p pas IH]; intros j m Hm; [done|]. apply IH. destruct (in_ram m p); [|done].
  apply bytes_insert; [|done]. unfold byte_of. rewrite land_255. apply u8_range.
Qed.

Lemma stored_at_none v pas a : a ∉ pas -> forall j, stored_at j v pas a = None.
Proof.
  induction pas as [|p pas IH]; intros Ha j; [done|]. apply not_elem_of_cons in Ha as [Hne Ha]. cbn [stored_at].
  rewrite IH by done. by rewrite (proj2 (Z.eqb_neq p a)) by congruence.
Qed.

Lemma word_stored a20 v addr m : ram_ok m -> in_ram_all m (word_phys a20 addr) -> NoDup (word_phys a20 addr) ->
  word_at a20 (stores 0 v (word_phys a20 addr) m) addr = u16 v.
Proof.
  intros Hm Hin Hnd. unfold word_at. change (u16 v) with (v mod 256 ^ Z.of_nat 2). rewrite <- le_val_bytes. f_equal.
  rewrite <- (Z.div_1_r v) at 2. change 1 with (256 ^ Z.of_nat 0). rewrite <- byte_of_le.
  assert (forall k p, word_phys a20 addr !! k = Some p ->
    ram_get (stores 0 v (word_phys a20 addr) m) p = byte_of v k) as Hget.
  { intros k p Hi. destruct (Forall_lookup_1 _ _ _ _ Hin Hi) as [Hp0 Hpin].
    rewrite stores_get, (stored_at_nth v _ 0 k p); try done. by eapply in_ram_all_nonneg. }
  revert Hget. unfold word_phys, lins. cbn [seq map]. intros Hget.
  by rewrite (Hget 0%nat _ eq_refl), (Hget 1%nat _ eq_refl).
Qed.

Lemma word_other a20 v pas addr m : ram_ok m -> in_ram_all m (word_phys a20 addr) -> in_ram_all m pas ->
  (forall a, a ∈ word_phys a20 addr -> a ∉ pas) ->
  word_at a20 (stores 0 v pas m) addr = word_at a20 m addr.
Proof.
  intros Hm Hin Hpas Hdis. unfold word_at. f_equal. apply map_ext_in. intros p Hp.
  apply list_elem_of_In in Hp. destruct (proj1 (Forall_forall _ _) Hin p Hp) as [Hp0 Hpin].
  rewrite stores_get; [|done|by eapply in_ram_all_nonneg|done|done].
  by rewrite (stored_at_none v pas p (Hdis p Hp)).
Qed.

(** The slot [k] below the top of the stack, and the vector's two words. *)
Definition slot (b : Box) (k : Z) : Z := u32 (ss_base (core b) + Z.land (u16 (reg (core b) ESP) - k) 0xFFFF).
Definition entry (b : Box) (num : Z) : Z := u32 (Z.shiftl num 2 + idt_base (core b)).

(** What the frame and the vector occupy. *)
Definition frame_bytes (a20 : bool) (b : Box) : list Z :=
  word_phys a20 (slot b 2) ++ word_phys a20 (slot b 4) ++ word_phys a20 (slot b 6).
Definition vector_bytes (a20 : bool) (b : Box) (num : Z) : list Z :=
  word_phys a20 (entry b num) ++ word_phys a20 (u32 (entry b num + 2)).

Lemma write_word_state addr v s : unpaged s ->
  let s' := write_n addr v 2 s in
  unpaged s' /\ a20_on (cpu (co s')) = a20_on (cpu (co s)) /\
  mem (co s') = stores 0 v (word_phys (a20_on (cpu (co s))) addr) (mem (co s)).
Proof.
  intros Hs. cbn zeta. rewrite write_word by done. unfold unpaged, pending in *. cbn [co set_field].
  by rewrite store_all_cpu, store_all_mem.
Qed.

(** Three pushes of disjoint words leave each other and the rest alone. *)
Lemma words_pushed a20 v2 v4 v6 a2 a4 a6 m :
  let W := word_phys a20 in
  let m' := stores 0 v6 (W a6) (stores 0 v4 (W a4) (stores 0 v2 (W a2) m)) in
  ram_ok m -> bytes (ram m) -> in_ram_all m (W a2 ++ W a4 ++ W a6) -> NoDup (W a2 ++ W a4 ++ W a6) ->
  (ram_ok m' /\ bytes (ram m') /\ (forall l, in_ram_all m l -> in_ram_all m' l)) /\
  (word_at a20 m' a2 = u16 v2 /\ word_at a20 m' a4 = u16 v4 /\ word_at a20 m' a6 = u16 v6) /\
  (forall a, in_ram_all m (W a) -> (forall x, x ∈ W a2 ++ W a4 ++ W a6 -> x ∉ W a) -> word_at a20 m' a = word_at a20 m a).
Proof.
  cbn zeta. intros Hm Hb Hin Hnd. unfold in_ram_all in Hin. rewrite !Forall_app in Hin.
  destruct Hin as (I2 & I4 & I6). rewrite !NoDup_app in Hnd. destruct Hnd as (N2 & D2 & N4 & D4 & N6).
  set (m1 := stores 0 v2 _ m). set (m2 := stores 0 v4 _ m1).
  assert (ram_ok m1) as O1 by by apply stores_ok. assert (ram_ok m2) as O2 by by apply stores_ok.
  assert (forall l, in_ram_all m l -> in_ram_all m1 l) as K1 by (intros l; apply in_ram_all_stores).
  assert (forall l, in_ram_all m l -> in_ram_all m2 l) as K2 by (intros l Hl; by apply in_ram_all_stores, K1).
  assert (forall a, in_ram_all m (word_phys a20 a) -> (forall x, x ∈ word_phys a20 a -> x ∉ word_phys a20 a4 ++ word_phys a20 a6) ->
    word_at a20 (stores 0 v6 (word_phys a20 a6) m2) a = word_at a20 m1 a) as Htop.
  { intros a Ha Hd. rewrite word_other; [|by auto..|intros x Hx Hx6; apply (Hd x Hx), elem_of_app; by right].
    subst m2. rewrite word_other; [done|by auto..|intros x Hx Hx4; apply (Hd x Hx), elem_of_app; by left]. }
  split_and!; [by apply stores_ok|by apply stores_bytes, stores_bytes, stores_bytes|intros l Hl; by apply in_ram_all_stores, K2| | | |].
  - rewrite Htop by done. by apply word_stored.
  - rewrite word_other; [|by auto..]. apply word_stored; auto.
  - apply word_stored; auto.
  - intros a Ha Hd. rewrite Htop; [|done|intros x Hx Hx'; apply (Hd x); [rewrite !elem_of_app in *; tauto|done]].
    subst m1. rewrite word_other; [done|by auto..|intros x Hx Hx'; apply (Hd x); [rewrite !elem_of_app; tauto|done]].
Qed.

Lemma guest_word_range a20 m addr : bytes (ram m) -> is_u16 (word_at a20 m addr).
Proof.
  intros Hb. unfold word_at, is_u16, word_phys, lins. cbn [seq map le_val].
  assert (forall a, is_u8 (ram_get m a)) as Hg by (intros a; apply znth_u8, Hb).
  match goal with |- context [ram_get m ?a + 256 * (ram_get m ?b + _)] => pose proof (Hg a); pose proof (Hg b) end.
  unfold is_u8 in *. lia.
Qed.

(** A real-mode interrupt with a 16-bit stack pushes FLAGS, CS and IP, in
    this order, and continues at the vector's CS:IP with IF and TF clear and SP
    six lower: the words read back from memory as pushed, wherever the stack
    and the vector are in RAM, when they do not overlap. *)
Lemma real_mode_frame num b s
  (Hs : unpaged s) (Hm : ram_ok (mem (co s))) (Hb : bytes (ram (mem (co s)))) (H16 : stack32 (core b) = false)
  (a20 := a20_on (cpu (co s)))
  (Hin : in_ram_all (mem (co s)) (frame_bytes a20 b ++ vector_bytes a20 b num))
  (Hnd : NoDup (frame_bytes a20 b ++ vector_bytes a20 b num)) :
  exists s' c', exec (real_mode_int num b) s =
      exec (loadcs_2386 (word_at a20 (mem (co s)) (u32 (entry b num + 2))) (b <| core := c' |>)) s' /\
    word_at a20 (mem (co s')) (slot b 2) = u16 (fl (core b)) /\
    word_at a20 (mem (co s')) (slot b 4) = u16 (cs_sel (core b)) /\
    word_at a20 (mem (co s')) (slot b 6) = u16 (pc (core b)) /\
    pc c' = word_at a20 (mem (co s)) (entry b num) /\
    fl c' = Z.land (fl (core b)) (Z.lnot (Z.lor I_FLAG T_FLAG)) /\
    regs c' = regs (set_reg16 ESP (u16 (reg (core b) ESP) - 6) (core b)).
Proof.
  unfold in_ram_all in Hin. rewrite Forall_app in Hin. destruct Hin as [HF HV]. apply NoDup_app in Hnd as (NF & DF & _).
  destruct (write_word_state (slot b 2) (fl (core b)) s Hs) as (U1 & A1 & E1).
  set (s1 := write_n (slot b 2) (fl (core b)) 2 s) in *.
  destruct (write_word_state (slot b 4) (cs_sel (core b)) s1 U1) as (U2 & A2 & E2).
  set (s2 := write_n (slot b 4) (cs_sel (core b)) 2 s1) in *.
  destruct (write_word_state (slot b 6) (u16 (pc (core b))) s2 U2) as (U3 & A3 & E3).
  set (s3 := write_n (slot b 6) (u16 (pc (core b))) 2 s2) in *.
  rewrite A2, A1 in E3. rewrite A1 in E2. rewrite A2, A1 in A3. fold a20 in A3, E1, E2, E3. rewrite E2, E1 in E3.
  destruct (words_pushed a20 (fl (core b)) (cs_sel (core b)) (u16 (pc (core b))) (slot b 2) (slot b 4) (slot b 6)
    (mem (co s)) Hm Hb HF NF) as ((O & B & K) & (W2 & W4 & W6) & Wo). rewrite <- E3 in *.
  unfold vector_bytes in HV, DF. rewrite Forall_app in HV. destruct HV as [V1 V2].
  assert (forall a, in_ram_all (mem (co s)) (word_phys a20 a) -> (forall x, x ∈ word_phys a20 a -> x ∈ word_phys a20 (entry b num) ++
    word_phys a20 (u32 (entry b num + 2))) -> read_n a 2 s3 = (word_at a20 (mem (co s)) a, s3)) as Hread.
  { intros a Ha Hsub. rewrite read_word; rewrite ?A3; [|done..|by apply K]. rewrite Wo; [done|done|].
    intros x Hx Hx'. by apply (DF x Hx), Hsub. }
  unfold real_mode_int, push_frame. rewrite H16. fold (slot b 2) (slot b 4) (slot b 6) (entry b num). cbn [exec].
  fold s1 s2 s3. rewrite Hread; [|done|intros x Hx; apply elem_of_app; by left].
  rewrite Hread; [|done|intros x Hx; apply elem_of_app; by right].
  eexists s3, _. rewrite !u16_id by by apply guest_word_range. split; [reflexivity|].
  split_and!; [done|done|by rewrite W6; unfold u16; rewrite Z.mod_mod|done..].
Qed.

End Steps.

(** ** A small machine *)

(** An instance of [Box86] with a few instructions: REP MOVSB from device memory
    and REP STOSB, one element per call (F3 A4, F3 AA); a store of EAX at ESI
    (89); reads of the device bytes A0000 and A0004 (8A); no operation
    otherwise. *)
Definition demo_fetch (a : Z) (b : Box unit unit) : Prog (Z * Box unit unit) :=
  FetchPage a (fun p =>
    match p with
    | Some p => CodeByte (p + Z.land a 0xFFF) (fun x => CodeByte (p + Z.land a 0xFFF + 1) (fun y =>
                  Ret (Z.lor x (Z.shiftl y 8), b)))
    | None => Ret (0, b)
    end).

Definition demo_next (c : Core unit) : Core unit :=
  let n := u32 (reg c ECX - 1) in
  let c := set_reg ECX n (set_reg ESI (u32 (reg c ESI + 1)) (set_reg 7 (u32 (reg c 7 + 1)) c)) in
  if n =? 0 then c <| pc := u32 (oldpc c + 2) |> else c <| pc := oldpc c |>.

Definition demo_insn (index fetchdat : Z) (b : Box unit unit) : Prog (Box unit unit) :=
  let c := core b in
  let op := Z.land index 0xFF in
  if op =? 0xF3 then
    if fetchdat =? 0xA4 then ReadMem (u32 (0xA0000 + reg c ESI)) 1 (fun v => WriteMem (reg c 7) v 1 (Ret (on_core demo_next b)))
    else WriteMem (reg c 7) (reg c EAX) 1 (Ret (on_core demo_next b))
  else if op =? 0x89 then WriteMem (reg c ESI) (reg c EAX) 4 (Ret b)
  else if op =? 0x8A then
    ReadMem 0xA0000 1 (fun v => ReadMem 0xA0004 1 (fun w => Ret (on_core (set_reg EAX (Z.lor v (Z.shiftl w 8))) b)))
  else Ret b.

#[local] Instance demo_box86 : Box86 unit unit := {
  fastreadl_fetch := demo_fetch;
  x86_2386_opcodes := demo_insn;
  x86_doabrt_2386 vec b := Ret (on_core (fun c => c <| pc := 0x20 |>) b);
  pmodeint_2386 num soft b := Ret b;
  loadcs_2386 seg b := Ret (on_core (fun c => c <| cs_sel := seg |> <| cs_base := u32 (Z.shiftl seg 4) |>) b);
  flags_rebuild c := c;
  ABRT_MASK := 0x3F; RF_FLAG := 1; I_FLAG := 0x200; T_FLAG := 0x100; FLAGS_UNKNOWN := 0
}.

(** Eight KB with the page table of [demo_mem], and code at 16. *)
Definition demo_code (code : list Z) : Ram := mkRam (splice 16 code (ram demo_mem)) 8192 8191.

Definition demo_core (eax ecx esi edi : Z) : Core unit :=
  mkCore [eax; ecx; 0; 0; 0; 0; esi; edi] 16 0 0x202 0 0 0 0 0 0 0 0 0 0 0 0 0x300 false 0 0 0x3FF 0x37F tt.

(** [devs] are z486's device reads. *)
Definition demo_ref (code : list Z) (c : Core unit) (paging : bool) (devs : list (Z * Z)) (last : Z) : Ref unit unit :=
  mkRef (mkIss (demo_cosim <| mem := demo_code code |>
      <| cpu := demo_cpu <| cr0 := if paging then 0x80000000 else 0 |> |>
      <| dev_rd := map (fun e => mkEv e.1 e.2 false false false 0) devs |> <| dev_last := last |>) [] (0, 0))
    (mkBox c 0 0 0 0 tt) 0 None false false false (replicate 64 (mkHist 0 0 0 [] [] 0)).

Lemma demo_code_ok code : (length code < 100)%nat -> ram_ok (demo_code code).
Proof.
  intros Hc. constructor; [exists 13; split; [lia|reflexivity]| |cbn; lia].
  unfold demo_code. cbn [ram rammask]. rewrite length_splice; [apply (rok_len _ demo_mem_ok)|].
  pose proof (rok_len _ demo_mem_ok). cbn [rammask demo_mem] in H. lia.
Qed.

(** The status of a step and the state after it. *)
Definition after (res : option (Status * Ref unit unit)) (r : Ref unit unit) : Ref unit unit :=
  match res with Some (_, r) => r | None => r end.

(** Two device bytes, of which z486 has returned one. *)
Definition demo_stall : Ref unit unit := demo_ref [0x8A; 0x90] (demo_core 0 0 0 0) false [(0xA0000, 0x11)] 0.

Lemma stalled_step_undone_witness :
  ccore (after (run 20 None demo_stall) demo_stall) = demo_core 0 0 0 0 /\
  mem (co (iss (after (run 20 None demo_stall) demo_stall))) = mem (co (iss demo_stall)).
Proof.
  destruct (stalled_step_undone 20 None demo_stall (after (run 20 None demo_stall) demo_stall)) as (H1 & _ & _ & H2 & _).
  - by vm_compute.
  - apply demo_code_ok. cbn. lia.
  - apply Nat.ltb_lt. by vm_compute.
  - by split.
Defined.

(** A split store of four bytes, of which the first two are in the page that is
    present. *)
Definition demo_fault : Ref unit unit := demo_ref [0x89; 0x90] (demo_core 0x12345678 0 0xFFE 0) true [] 0.
Definition demo_fault_insn : Insn * Ref unit unit :=
  default (mkStep 0 false 0 (mkInsn false false 0 0 0 0 false 0 0 0) 0 0 (snap_save demo_fault), demo_fault) (fetch_insn 20 demo_fault).
Definition demo_faulted : Ref unit unit :=
  from_option snd demo_fault (execute 20 demo_fault_insn.1 None (at_boundary (x87_frozen (i_d demo_fault_insn.1) demo_fault_insn.2).2)).


(** REP STOSB with ECX = 3, to be cut with one element left. *)
Definition demo_rep : Ref unit unit := demo_ref [0xF3; 0xAA; 0x90] (demo_core 0x41 3 0 0x800) false [] 0.
Definition demo_rep_insn : Insn := mkStep 0xAA true 16 (mkInsn true true 0xF3 1 0xAA 0 false 0 0 0) 3 0 (snap_save demo_rep).

(** The states in which the loop stands. *)
Definition demo_rep_at (k : nat) : Ref unit unit :=
  Nat.iter k (fun r => (exec_cycles (upd_core (fun c => c <| oldpc := 16 |>) r)).2) (upd_core (fun c => c <| trap := 1 |>) demo_rep).

Lemma rep_cut_exact_witness :
  exists r', execute 5 demo_rep_insn (Some 1) demo_rep = Some (false, false, r') /\
    reg (ccore r') ECX = 1 /\ trap (ccore r') = 0.
Proof.
  apply (rep_cut_exact (fun r => r = demo_rep_at 0 \/ r = demo_rep_at 1 \/ r = demo_rep_at 2) 5 demo_rep_insn 1 demo_rep).
  - done.
  - done.
  - done.
  - intros r [->|[->| ->]] Hlt.
    + by vm_compute; split_and!; auto.
    + vm_compute; split_and!; auto.
    + exfalso. apply Z.ltb_lt in Hlt. revert Hlt. by vm_compute.
  - by intros r [->|[->| ->]]; vm_compute.
  - by left.
  - by vm_compute.
  - by vm_compute.
Defined.

(** INT 8 with the stack at 0:900h; the vector's entry, in the table at 600h, is
    zero. *)
Definition demo_int : Box unit unit :=
  mkBox (set_reg ESP 0x900 (demo_core 0 0 0 0) <| use32 := 0 |> <| idt_base := 0x600 |>) 0 0 0 0 tt.
Definition demo_int_iss : Iss := iss (demo_ref [] (demo_core 0 0 0 0) false [] 0).

Lemma real_mode_frame_witness :
  let m := mem (co demo_int_iss) in
  exists s' c', exec (real_mode_int 8 demo_int) demo_int_iss =
      exec (loadcs_2386 (word_at true m (u32 (entry demo_int 8 + 2))) (demo_int <| core := c' |>)) s' /\
    word_at true (mem (co s')) (slot demo_int 2) = u16 (fl (core demo_int)) /\
    word_at true (mem (co s')) (slot demo_int 4) = u16 (cs_sel (core demo_int)) /\
    word_at true (mem (co s')) (slot demo_int 6) = u16 (pc (core demo_int)) /\
    pc c' = word_at true m (entry demo_int 8) /\
    fl c' = Z.land (fl (core demo_int)) (Z.lnot (Z.lor I_FLAG T_FLAG)) /\
    regs c' = regs (set_reg16 ESP (u16 (reg (core demo_int) ESP) - 6) (core demo_int)).
Proof.
  apply (real_mode_frame 8 demo_int demo_int_iss).
  - done.
  - apply demo_code_ok. cbn. lia.
  - apply bytes_splice; [apply bytes_nil|]. apply bytes_insert; [width|]. apply bytes_replicate. width.
  - done.
  - unfold in_ram_all. apply (bool_decide_unpack _). by vm_compute.
  - apply (bool_decide_unpack _). by vm_compute.
Defined.

(** ** Limits of the rollback *)

Lemma undo_other log m a :
  ram_ok m -> 0 <= a < ram_bytes m -> Forall (fun w => 0 <= w_addr w < ram_bytes m /\ w_addr w <> a) log ->
  let m' := foldr (fun w m => ram_set m (w_addr w) (w_old w)) m log in
  ram_ok m' /\ ram_bytes m' = ram_bytes m /\ ram_get m' a = ram_get m a.
Proof.
  intros Hm Ha. induction 1 as [|w log [Hw Hne] _ IH]; [done|]. cbn zeta in *. cbn [foldr].
  destruct IH as (Hok & Hb & Hg). split_and!; [by apply ram_set_ok|done|].
  rewrite ram_get_set by (done || by rewrite Hb). by rewrite (proj2 (Z.eqb_neq _ _)).
Qed.

(** The log of a step holds 4096 changed bytes and drops the others: with
    the log full, undoing the step leaves a byte changed that it stores after
    that. *)
Lemma full_log_not_undone s pa b
  (Hm : ram_ok (mem s)) (Hpa : 0 <= pa) (Hin : in_ram (mem s) pa = true)
  (Hfull : (MAX_MEM_LOG <= length (mem_log s))%nat)
  (Hlog : Forall (fun w => 0 <= w_addr w < ram_bytes (mem s) /\ w_addr w <> pa) (mem_log s)) :
  ram_get (mem (undo_ram (store_byte pa b s))) pa = b.
Proof.
  assert (mem_log (store_byte pa b s) = mem_log s) as El.
  { unfold store_byte. rewrite wr_hook_eq, Hin. cbn [negb mem_log set_field]. unfold mem_log_write.
    case_match; [done|]. by rewrite (proj2 (Nat.ltb_ge _ _) Hfull). }
  pose proof (in_ram_bound _ _ Hin) as Hb.
  unfold undo_ram. cbn [mem set_field]. rewrite El, store_byte_mem, Hin.
  destruct (undo_other (mem_log s) (ram_set (mem s) pa b) pa) as (_ & _ & ->); [by apply ram_set_ok|done|done|].
  rewrite ram_get_set by done. by rewrite Z.eqb_refl.
Qed.

Lemma full_log_not_undone_witness :
  let s := demo_cosim <| mem_log := replicate MAX_MEM_LOG (mkMemWrite 0 0 0) |> in
  ram_get (mem (undo_ram (store_byte 5 0x77 s))) 5 = 0x77.
Proof.
  apply (full_log_not_undone (demo_cosim <| mem_log := replicate MAX_MEM_LOG (mkMemWrite 0 0 0) |>) 5 0x77).
  - apply demo_agreement.
  - done.
  - done.
  - cbn [mem_log set_field]. rewrite length_replicate. reflexivity.
  - apply Forall_replicate. by split.
Defined.

(** The device byte read last is B8000; z486 repeats that read before the two of
    the instruction, the second of which it has not returned. *)
Definition demo_retry : Ref unit unit :=
  demo_ref [0x8A; 0x90] (demo_core 0 0 0 0) false [(0xB8000, 0x55); (0xA0000, 0x11)] 0xB8000.

(** The device address read last is not rolled back with a stalled step.  A
    repeated read that the first try skipped is taken for the instruction's own
    by the second, and a divergence is reported; with the same reads all there
    at the first try the step succeeds. *)
Lemma retry_diverges :
  let later r := upd_co (cosim_dut_dev_read 0xA0004 0x22) r in
  match run 20 None demo_retry with
  | Some (st, r1) => st = COSIM_STALL /\
      match run 20 None (later r1), run 20 None (later demo_retry) with
      | Some (st2, r2), Some (st3, r3) =>
        st2 = COSIM_ERROR /\ err (co (iss r2)) = Some (EDevRead 0xA0000 0xB8000) /\
        st3 = COSIM_OK /\ reg (ccore r3) EAX = 0x2211
      | _, _ => False
      end
  | None => False
  end.
Proof. by vm_compute. Qed.
