(* ===== verification/CosimLockstep.v ===== *)
(** * z486 and the reference in lockstep

    The comparison of [CosimMatch] under the real steps of [CosimRun]: stalled
    and retried instructions, faults, cut strings and interrupts, with z486's
    writes, reads and flags between them.  While no divergence is reported the
    two sides agree, and once the queues have drained the memories are equal
    ([lockstep_sound]), provided no step to be undone changed more bytes than
    the log holds. *)
From S2P Require Import Prelude CosimMem CosimMatch CosimDecode CosimAccess CosimRun CosimStep.

(** ** Bytes kept of split writes *)

Definition partial_ok (s : Iss) : Prop := Forall (fun w => 0 <= w.1) (iss_partial s).

Lemma xl_partial addr write s : iss_partial (xl addr write s).2 = iss_partial s.
Proof. unfold xl. destruct (pending s); [done|]. by destruct (walk _ _ _ _). Qed.

Lemma read_loop_partial n : forall i addr v s, iss_partial (read_loop n i addr v s).2 = iss_partial s.
Proof.
  induction n as [|n IH]; intros i addr v s; [done|]. cbn [read_loop].
  pose proof (xl_partial (u32 (addr + i)) false s) as Hx. destruct (xl _ _ s) as [[a|] s1]; [|done].
  destruct (rd_hook a (co s1)) as [b c]. by rewrite IH.
Qed.

Lemma xl_all_partial n : forall i addr s, iss_partial (xl_all n i addr s).2 = iss_partial s.
Proof.
  induction n as [|n IH]; intros i addr s; [done|]. cbn [xl_all].
  pose proof (xl_partial (u32 (addr + i)) true s) as Hx. destruct (xl _ _ s) as [[a|] s1]; [|done].
  specialize (IH (i + 1) addr s1). destruct (xl_all n (i + 1) addr s1) as [[l all] s2]. cbn [snd] in *. congruence.
Qed.

Lemma store_partial_ok val pas : Forall (fun p => 0 <= p) pas -> forall j s, partial_ok s -> partial_ok (store_partial j val pas s).
Proof.
  induction 1 as [|pa pas Hpa _ IH]; intros j s Hs; [done|]. cbn [store_partial]. destruct (_ <? 4)%nat; [|done].
  apply IH. unfold partial_ok in *. cbn [iss_partial set_field]. apply Forall_app. split; [done|by apply Forall_singleton].
Qed.

Lemma write_n_partial addr val n s : partial_ok s -> partial_ok (write_n addr val n s).
Proof.
  intros Hs. unfold write_n. pose proof (xl_all_partial n 0 addr s) as Hx. pose proof (xl_all_nonneg n 0 addr s) as Hn.
  destruct (xl_all n 0 addr s) as [[pas all] s1]. cbn [fst snd] in *.
  assert (partial_ok s1) by (unfold partial_ok; by rewrite Hx).
  destruct all; [done|]. destruct (_ && _); [by apply store_partial_ok|done].
Qed.

Lemma exec_partial A (p : Prog A) s : partial_ok s -> partial_ok (exec p s).2.
Proof.
  revert s. induction p as [a|addr n k IH|addr val n k IH|addr n w k IH|addr k IH|i k IH|port n k IH|port n val k IH|k IH|c k IH|k IH|b k IH|e k IH];
    intros s H; cbn [exec]; auto.
  - pose proof (read_loop_partial n 0 addr 0 s) as Hr. unfold read_n. destruct (read_loop _ _ _ _ s) as [v s1].
    apply IH. unfold partial_ok in *. cbn [snd] in Hr. by rewrite Hr.
  - by apply IH, write_n_partial.
  - apply IH. unfold probe. by destruct (iss_probe _ _ _ _ _ _).
  - unfold getpccache. set (s0 := s <| co := _ |>). pose proof (xl_partial (Z.land addr 0xFFFFF000) false s0) as Hx.
    destruct (xl _ _ s0) as [p s1]. apply IH. unfold partial_ok in *. cbn [snd] in Hx. cbn [iss_partial set_field]. by rewrite Hx.
  - destruct (io_in _ _ _). by apply IH.
Qed.

(** ** Agreement while an instruction runs *)

Lemma fail_keeps e s : err s <> None -> err (fail e s) <> None.
Proof. intros _. apply fail_err. Qed.

Lemma match_write_keeps phys val : forall fuel s r s',
  err s <> None -> match_write fuel phys val s = Some (r, s') -> err s' <> None.
Proof.
  induction fuel as [fuel IH] using lt_wf_ind. intros s r s' Hs Hm.
  assert (err (advance_exp s) <> None) as Hs1 by exact Hs. clear Hs.
  destruct fuel as [|fuel]; cbn [match_write] in Hm; revert Hs1 Hm; generalize (advance_exp s) as s1; intros s1 Hs Hm;
    destruct (exp_w s1) as [|h t] eqn:Ex; rewrite <- Ex in Hm.
  1, 3: by injection Hm as _ <-.
  all: destruct (find_write _ _ _) as [[e marked]|].
  1, 3: case_bool; injection Hm as _ <-; [apply fail_err|]; by repeat case_bool.
  all: case_bool; [by injection Hm as _ <-|].
  all: case_bool; [|injection Hm as _ <-; apply fail_err].
  - done.
  - by eapply (IH fuel); [lia| |exact Hm].
Qed.

Lemma commit_keeps_err s r s' : err s <> None -> commit_writes s = Some (r, s') -> err s' <> None.
Proof.
  intros He Hc. destruct (commit_parts _ _ _ Hc) as (s1 & Ew & -> & _). apply rematch_io_err. revert Ew.
  change (err (committed s <| dut_w := [] |>) <> None) in He. generalize (dut_w s), (committed s <| dut_w := [] |>), He.
  assert (forall pend s s', err s <> None -> rematch_writes pend s = Some s' -> err s' <> None) as Hr; [|intros ??? Hw; by apply Hr in Hw].
  clear. induction pend as [|e pend IH]; intros s s' He Hw; [by injection Hw as <-|]. cbn [rematch_writes] in Hw.
  destruct (match_write _ _ _ s) as [[r s1]|] eqn:E; [|done]. cbn [mbind option_bind] in Hw.
  apply match_write_keeps in E; [|done]. destruct r; [by eapply IH|by injection Hw as <-..].
Qed.

Ltac same := split; [first [by left | by right]|by split_and!].

Section Agreement.
Context (D : Z -> Z) (writes : list (Z * Z)) (Hwrites : Forall (fun w => 0 <= w.1) writes).

(** No divergence is reported, or z486's writes are those taken and those that
    wait for the reference, and those taken agree. *)
Definition tracking (s : Cosim) : Prop :=
  err s <> None \/
  exists refs done, compared D refs done s /\ writes = done ++ early s /\ (exp_io s = [] \/ dut_io s = []).

(** What tracking depends on; errors may be added. *)
Definition same_events (s s' : Cosim) : Prop :=
  (err s' = err s \/ err s' <> None) /\ mem s' = mem s /\ x87_lenient s' = x87_lenient s /\
  exp_w s' = exp_w s /\ stage_w s' = stage_w s /\ dut_w s' = dut_w s /\
  exp_io s' = exp_io s /\ dut_io s' = dut_io s.

Lemma same_events_trans s1 s2 s3 : same_events s1 s2 -> same_events s2 s3 -> same_events s1 s3.
Proof.
  intros (A1 & A2 & A3 & A4 & A5 & A6 & A7 & A8) (B1 & B2 & B3 & B4 & B5 & B6 & B7 & B8). split; [|split_and!; congruence].
  destruct B1 as [-> |]; [done|by right].
Qed.

Lemma tracking_ext s s' : same_events s s' -> tracking s -> tracking s'.
Proof.
  intros (He & Hm & Hl & Hw & Hs & Hd & Hi & Hk) [Hn|(refs & done & Hc & E & Hio)].
  - left. destruct He as [-> |]; done.
  - destruct (err s') eqn:Ee; [left; congruence|]. right. exists refs, done. split_and!.
    + apply (compared_ext _ _ _ s); try done.
      * rewrite Ee. symmetry. apply (c_err _ _ _ _ Hc).
      * intros a. unfold outstanding. by rewrite Hw, Hs.
      * rewrite Hd, Hw. apply (c_early _ _ _ _ Hc).
    + unfold early in *. by rewrite Hd.
    + by rewrite Hi, Hk.
Qed.

Lemma fail_events e s : same_events s (fail e s).
Proof. unfold same_events. pose proof (fail_err e s) as Hn. split; [by right|]. unfold fail. by destruct (err s). Qed.

Lemma rd_hook_events phys s : same_events s (rd_hook phys s).2.
Proof.
  unfold rd_hook. case_match; [|case_match; by same].
  case_match; cbn [snd]; [by same|].
  case_match; [by same|].
  match goal with |- same_events s (set_field _ (fail _ ?t)) => apply (same_events_trans s t); [by same|] end.
  eapply same_events_trans; [apply (fail_events (EDevRead phys (e_addr e)))|]. by same.
Qed.

Lemma io_in_loop_events n : forall b port val s, same_events s (io_in_loop n b port val s).2.
Proof.
  induction n as [|n IH]; intros b port val s; [by same|]. cbn [io_in_loop].
  case_match; [by same|]. eapply same_events_trans; [|apply IH].
  case_match; [by same|]. eapply same_events_trans; [apply (fail_events (EIoRead (u16 (port + b)) (e_addr e)))|].
  by same.
Qed.

Lemma io_out_events port n val s : same_events s (io_out port n val s).
Proof.
  destruct (outs_staged [(port, n, val)] s) as (l & g & Es & _). cbn [foldl fst snd] in Es. rewrite Es.
  by same.
Qed.

Lemma tracking_store pa b s : 0 <= pa -> tracking s -> tracking (store_byte pa b s).
Proof.
  intros Hpa [Hn|(refs & done & Hc & E & Hio)]; destruct (store_byte_eq pa b s) as [log Es].
  - left. by rewrite Es.
  - right. exists (refs ++ [(pa, b)]), done. split; [by apply store_byte_compared|]. by rewrite Es.
Qed.

Lemma tracking_closed : access_closed tracking.
Proof.
  constructor.
  - intros s c _. apply tracking_ext. by same.
  - intros s b. apply tracking_ext. by same.
  - intros s e. apply tracking_ext, fail_events.
  - intros phys s. apply tracking_ext, rd_hook_events.
  - intros port n s. apply tracking_ext, io_in_loop_events.
  - intros port n val s. apply tracking_ext, io_out_events.
  - apply tracking_store.
Qed.

Lemma tracking_ram s : tracking s -> err s = None -> ram_ok (mem s).
Proof. intros [Hn|(refs & ws & Hc & _)] He; [by destruct (Hn He)|]. apply Hc. Qed.

(** A byte stored outside the log, and one that keeps its value. *)
Lemma tracking_hook pa b s : 0 <= pa -> tracking s -> tracking (hook_store pa b s).
Proof.
  intros Hpa Ht. apply (tracking_store pa b s Hpa) in Ht. revert Ht. apply tracking_ext.
  unfold hook_store, store_byte. destruct (wr_hook pa b s) as [h s1]. destruct h; by same.
Qed.

Lemma tracking_hooks parts : forall s, Forall (fun w => 0 <= w.1) parts -> tracking s ->
  tracking (foldl (fun s w => hook_store w.1 w.2 s) s parts).
Proof.
  induction parts as [|w parts IH]; intros s Hp Ht; [done|]. inversion_clear Hp. cbn [foldl]. by apply IH, tracking_hook.
Qed.

Lemma tracking_silent pa s : 0 <= pa -> in_ram (mem s) pa = true -> tracking s -> tracking (wr_hook pa (ram_get (mem s) pa) s).2.
Proof.
  intros Hpa Hin Ht. destruct (err s) eqn:He; [left; unfold wr_hook; cbn; congruence|].
  pose proof (tracking_ram s Ht He) as Hm. apply (tracking_store pa (ram_get (mem s) pa) s Hpa) in Ht.
  revert Ht. apply tracking_ext. unfold store_byte. rewrite wr_hook_eq, Hin. cbn [negb].
  split; [by left|split_and!; try done]. cbn [mem set_field snd]. by rewrite ram_set_same.
Qed.

(** ** Agreement between steps *)

Definition agreeing (s : Cosim) : Prop := err s <> None \/ (stage_w s = [] /\ tracking s).

Lemma tracking_commit s r s' : tracking s -> commit_writes s = Some (r, s') -> agreeing s'.
Proof using Hwrites.
  intros [Hn|(refs & done & Hc & E & Hio)] Hcm; [left; by eapply commit_keeps_err|].
  assert (io_compared (pairs_of (exp_io s ++ stage_io s)) (pairs_of (dut_io s)) s) as Hio' by (by exists []).
  rewrite E in Hwrites.
  destruct (commit_synced D refs _ done _ s r s' Hc Hio' Hwrites Hcm) as [[-> [(d & Hc' & Ew) (m & _ & _ & H3) [Hs _] _]]|[_ Hn]];
    [|by left].
  right. split; [done|]. right. exists refs, d. split; [done|]. split; [by rewrite E|done].
Qed.

(** Everything staged is dropped and the memory is the one before. *)
Lemma agreeing_back s0 s :
  agreeing s0 -> same_queues s0 s -> mem s = mem s0 -> stage_w s = [] -> agreeing s.
Proof.
  intros Ha Hq Hm Hs. destruct (err s) eqn:He; [left; congruence|]. right. split; [done|].
  destruct Ha as [Hn|[Hs0 [Hn|(refs & done & Hc & E & Hio)]]].
  1, 2: by rewrite <- (sq_err _ _ Hq), He in Hn.
  right. exists refs, done. destruct Hq. split_and!.
  - apply (compared_ext _ _ _ s0); try done; [by rewrite He, (c_err _ _ _ _ Hc)|..].
    + intros a. unfold outstanding. by rewrite Hs, Hs0, sq_exp_w.
    + rewrite sq_dut_w, sq_exp_w. apply (c_early _ _ _ _ Hc).
  - unfold early in *. by rewrite sq_dut_w.
  - by rewrite sq_exp_io, sq_dut_io.
Qed.
End Agreement.

Section Steps.
Context {R T : Type} `{Box86 R T}.
Notation Ref := (Ref R T).
Notation Insn := (@Insn R).
Implicit Types (r : Ref) (i : Insn).
Context (D : Z -> Z) (writes : list (Z * Z)) (Hwrites : Forall (fun w => 0 <= w.1) writes).
Notation tracks r := (tracking D writes (co (iss r))).
Notation agrees r := (agreeing D writes (co (iss r))).

Lemma call_tracks f r : tracks r -> tracks (call f r).
Proof.
  intros Ht. unfold call. pose proof (exec_closed _ (tracking_closed D writes) (f (box r)) (iss r) Ht) as Hk.
  by destruct (exec (f (box r)) (iss r)) as [b i].
Qed.

Lemma commit_agrees r st r' : tracks r -> commit r = Some (st, r') -> agrees r'.
Proof using Hwrites.
  intros Ht. unfold commit. set (r0 := upd_co _ r). assert (tracks r0) as Ht0.
  { revert Ht. apply tracking_ext. by same. }
  clearbody r0. destruct (commit_writes (co (iss r0))) as [[st1 s]|] eqn:E; [|done]. cbn [mbind option_bind].
  intros [= _ <-]. by eapply tracking_commit.
Qed.

Lemma drop_reads_agrees r : agrees r -> agrees (drop_reads r).
Proof. intros [Hn|[Hs Ht]]; [by left|right]. split; [done|]. revert Ht. apply tracking_ext. by same. Qed.

Lemma failed_agrees e r : agrees (upd_co (fail e) r).
Proof. left. apply fail_err. Qed.

Lemma deliver_agrees i vec r st r' : tracks r -> deliver i vec r = Some (st, r') -> agrees r'.
Proof using Hwrites.
  intros Ht. unfold deliver. set (r1 := if vec =? 1 then _ else _).
  assert (tracks r1) as H1.
  { revert Ht. apply tracking_ext. subst r1. destruct (vec =? 1); by same. }
  clearbody r1. set (r2 := upd_core rf_off _).
  assert (tracks r2) as H2 by exact (call_tracks (x86_doabrt_2386 vec) r1 H1).
  clearbody r2. destruct (pending (iss r2)); [intros [= _ <-]; apply failed_agrees|].
  set (r3 := upd_core flags_rebuild _). assert (tracks r3) as H3 by exact H2. clearbody r3.
  destruct (commit r3) as [[st3 r4]|] eqn:Ec; [|done]. cbn [mbind option_bind]. intros [= _ <-].
  by eapply drop_reads_agrees, commit_agrees.
Qed.

(** ** The ends of a step *)

Lemma walk_probe_nonneg c m lin write pa : 0 <= lin -> walk_probe c m lin write = pa -> 0 <= pa.
Proof.
  intros Hl <-. unfold walk_probe. destruct (walk_entry c m lin write) as [p|e] eqn:E; [|done]. by eapply walk_entry_nonneg.
Qed.

Lemma split_stores_tracks n rep : forall k data (s : Iss),
  tracking D writes (co s) -> partial_ok s ->
  tracking D writes (co (split_stores n k rep data s)) /\ partial_ok (split_stores n k rep data s).
Proof.
  induction n as [|n IH]; intros k data s Ht Hp; [done|]. destruct data as [|b data]; [done|]. cbn [split_stores].
  destruct (_ =? _) eqn:E; [done|].
  pose proof (walk_probe_nonneg (cpu (co s)) (mem (co s)) (u32 ((split_probe s).1 + k)) true _ (proj1 (u32_range _)) eq_refl) as Hpa.
  apply IH; destruct rep; try done.
  - by apply tracking_hook.
  - by destruct (_ <? 4)%nat.
  - destruct (_ <? 4)%nat; [|done]. apply Forall_app. split; [done|by apply Forall_singleton].
Qed.

Lemma silent_writes_tracks n : forall k lin s, tracking D writes s -> tracking D writes (silent_writes n k lin s).
Proof.
  induction n as [|n IH]; intros k lin s Ht; [done|]. cbn [silent_writes]. apply IH.
  destruct (_ && _) eqn:E; [|done]. apply andb_true_iff in E as [_ Hin]. apply tracking_silent; [|done|done].
  eapply walk_probe_nonneg; [|reflexivity]. apply u32_range.
Qed.

Lemma finish_tracks i r : tracks r -> tracks (finish i r).
Proof.
  intros Ht. unfold finish. set (r1 := if i_op i =? 0xF4 then _ else _).
  assert (tracks r1) as H1 by (subst r1; by destruct (i_op i =? 0xF4)). clearbody r1.
  set (r2 := if (_ || _) then r1 else _). assert (tracks r2) as H2 by (subst r2; by destruct (_ || _)). clearbody r2.
  set (imm := peek r2 _). clearbody imm. cbv zeta. set (f := effect_of _ _ _ _). clearbody f.
  set (r3 := if shift_by_0 i imm then _ else _).
  assert (tracks r3) as H3 by (subst r3; destruct (shift_by_0 i imm); [apply silent_writes_tracks|]; done). clearbody r3.
  by destruct (is_logic_op (i_d i)).
Qed.

(** ** A whole step *)

(** The changed bytes of a step that is undone fit the log. *)
Definition step_fits (fuel : nat) (rep_left : option Z) (r : Ref) : Prop :=
  forall i r1 r2 f e r3,
    fetch_insn fuel r = Some (i, r1) -> x87_frozen (i_d i) r1 = (false, r2) ->
    execute fuel i rep_left (at_boundary r2) = Some (f, e, r3) ->
    stalled r3 = true \/ (f = true /\ i_rep_string i = false /\ e = false) ->
    (length (mem_log (co (iss r3))) < MAX_MEM_LOG)%nat.

Lemma hist_add_tracks sel eip lin r : tracks r -> tracks (hist_add sel eip lin r).
Proof. apply tracking_ext. unfold hist_add. set (h := mkHist _ _ _ _ _ _). clearbody h. by same. Qed.

Lemma begin_tracks r : agrees r -> tracks (begin_step r).
Proof.
  intros [Hn|[Hs Ht]]; [by left|]. revert Ht. apply tracking_ext. unfold begin_step.
  split; [by left|]. by split_and!.
Qed.

Lemma fetched_tracks fuel r i r1 : agrees r -> fetch_insn fuel r = Some (i, r1) -> tracks r1.
Proof.
  intros Ha%begin_tracks. unfold fetch_insn. revert Ha. generalize (begin_step r) as rb. intros rb Ha.
  destruct (peek_opcode _ _ _ _) as [op rep]. destruct (decode_with _ _ _ _) as [d|]; [|done].
  cbn [mbind option_bind]. generalize (mkStep op (rep && is_string_op op) (pc (ccore rb)) d (reg (ccore rb) ECX) (udf rb) (snap_save r)).
  intros i' E. injection E as _ <-. by apply hist_add_tracks.
Qed.

Lemma frozen_tracks d r b r' : x87_frozen d r = (b, r') -> tracks r -> tracks r' /\ iss_partial (iss r') = iss_partial (iss r).
Proof.
  unfold x87_frozen. intros E Ht. injection E as _ <-. destruct (x87_summary (co (iss r))); [done|]. split; [|done].
  revert Ht. apply tracking_ext. by same.
Qed.

Lemma fetch_tracks fuel r i r1 d b r2 :
  agrees r -> fetch_insn fuel r = Some (i, r1) -> x87_frozen d r1 = (b, r2) -> tracks r2 /\ iss_partial (iss r2) = [].
Proof.
  intros Ha Hf Hx. destruct (frozen_tracks _ _ _ _ Hx (fetched_tracks _ _ _ _ Ha Hf)) as [Ht E].
  split; [done|]. rewrite E. by apply fetch_insn_spec, fe_partial in Hf.
Qed.

(** The instruction when it has executed. *)
Lemma execute_tracks fuel rep_left r i r1 r2 f e r3 :
  agrees r -> ram_ok (mem (co (iss r))) -> fetch_insn fuel r = Some (i, r1) -> x87_frozen (i_d i) r1 = (false, r2) ->
  execute fuel i rep_left (at_boundary r2) = Some (f, e, r3) ->
  in_step r (co (iss r3)) /\ tracks r3 /\ partial_ok (iss r3).
Proof.
  intros Ha Hm Hf Hx He. destruct (fetch_tracks _ _ _ _ _ _ _ Ha Hf Hx) as [Ht Hp].
  split; [by eapply executed|].
  apply (kept_execute (fun s => tracking D writes (co s) /\ partial_ok s)) in He.
  - destruct He as [_ Hk]. apply Hk. split; [|change (partial_ok (iss r2)); unfold partial_ok; rewrite Hp; constructor].
    revert Ht. apply tracking_ext. by same.
  - intros A p s [Hs1 Hs2]. split; [by apply exec_closed, Hs1; apply tracking_closed|by apply exec_partial].
Qed.

Lemma agrees_tracks r : agrees r -> tracks r.
Proof. intros [Hn|[_ Ht]]; [by left|done]. Qed.

Lemma undo_insn_tracks r i e r3 :
  agrees r -> i_snap i = snap_save r -> i_pc i = pc (ccore r) -> in_step r (co (iss r3)) -> tracks r3 ->
  partial_ok (iss r3) -> (e = false -> (length (mem_log (co (iss r3))) < MAX_MEM_LOG)%nat) ->
  tracks (undo_insn i e r3).
Proof.
  intros Ha Hs Hp Hin Ht Hpo Hlog. destruct e.
  - apply (tracking_hooks D writes (iss_partial (iss r3))); [done|].
    revert Ht. apply tracking_ext. by same.
  - rewrite undo_insn_eq. apply (tracking_hooks D writes (iss_partial (iss r3))); [done|]. apply agrees_tracks.
    destruct (undone_spec r i r3 Hs Hp Hin (Hlog eq_refl)) as [_ _ _ Hm Hst _ Hq].
    apply (agreeing_back D writes (co (iss r))); try done.
Qed.

Lemma fault_tracks r i e r3 :
  agrees r -> i_snap i = snap_save r -> i_pc i = pc (ccore r) -> in_step r (co (iss r3)) -> tracks r3 ->
  partial_ok (iss r3) -> (i_rep_string i = false -> e = false -> (length (mem_log (co (iss r3))) < MAX_MEM_LOG)%nat) ->
  tracks (fault_state i e r3).
Proof.
  intros Ha Hs Hp Hin Ht Hpo Hlog. unfold fault_state. set (c := string_split i r3). clearbody c.
  assert (forall rep, i_rep_string i = rep -> let r' := if c then split_string_store (i_op i) (a32 (i_d i)) rep r3 else r3 in
    tracks r' /\ partial_ok (iss r') /\ (rep = false -> co (iss r') = co (iss r3))) as Hc.
  { intros rep _. cbv zeta. destruct c; [|done].
    destruct (split_stores_tracks (Z.to_nat (split_probe (iss r3)).2) rep 0 (string_data (i_op i) (a32 (i_d i)) r3)
      (iss r3) Ht Hpo) as [H1 H2].
    split_and!; [exact H1|exact H2|]. intros ->. apply split_string_store_co. }
  destruct (i_rep_string i) eqn:Er; destruct (Hc _ eq_refl) as (H1 & H2 & H3); [exact H1|].
  specialize (H3 eq_refl). set (r' := if c then _ else r3) in *. clearbody r'.
  apply (undo_insn_tracks r); [done..|by rewrite H3|done|done|rewrite H3; auto].
Qed.

Lemma complete_agrees i r st r' : tracks r -> complete i r = Some (st, r') -> agrees r'.
Proof using Hwrites. intros Ht. unfold complete. by apply commit_agrees, finish_tracks. Qed.

Lemma fault_agrees i e r st r' : tracks (fault_state i e r) -> fault i e r = Some (st, r') -> agrees r'.
Proof using Hwrites. intros Ht. unfold fault. by apply deliver_agrees. Qed.

Lemma rollback_agrees r p r3 :
  agrees r -> p = snap_save r -> in_step r (co (iss r3)) -> (length (mem_log (co (iss r3))) < MAX_MEM_LOG)%nat ->
  agrees (rollback p r3).
Proof.
  intros Ha Hp [[_ Hu] Hq] Hlog. specialize (Hu Hlog).
  destruct (rollback_spec p r3) as (_ & _ & _ & Em & _ & Eqs & (E1 & _) & _). rewrite Hu in Em.
  apply (agreeing_back D writes (co (iss r))); [done|apply Eqs; [done| |done]|done|done]. by rewrite Hp.
Qed.

(** One step keeps the two sides in agreement. *)
Lemma run_agrees fuel rep_left r st r' :
  agrees r -> step_fits fuel rep_left r -> run fuel rep_left r = Some (st, r') -> agrees r'.
Proof using Hwrites.
  intros Ha Hfit. unfold run. destruct (err (co (iss r))) eqn:He; [by intros [= _ <-]|].
  assert (ram_ok (mem (co (iss r)))) as Hm by (by apply (tracking_ram D writes); [apply agrees_tracks|]).
  destruct (fetch_insn fuel r) as [[i r1]|] eqn:Hf; [|done]. cbn [mbind option_bind].
  destruct (x87_frozen (i_d i) r1) as [b r2] eqn:Hx. destruct (fetch_tracks _ _ _ _ _ _ _ Ha Hf Hx) as [Ht _].
  destruct b; [by apply commit_agrees|].
  destruct (execute fuel i rep_left (at_boundary r2)) as [[[f e] r3]|] eqn:Hex; [|done]. cbn [mbind option_bind].
  destruct (execute_tracks _ _ _ _ _ _ _ _ _ Ha Hm Hf Hx Hex) as (Hin & Ht3 & Hp3).
  pose proof (fetch_insn_spec _ _ _ _ Hf) as Hfe. specialize (Hfit i r1 r2 f e r3 Hf Hx Hex). clear Hex Hx Ht Hf.
  destruct Hfe as [Hsnap Hpc _ _ _ _ _ _ _ _ _]. destruct (stalled r3).
  - intros E. apply Some_inj, (f_equal snd) in E. cbn [snd] in E. subst r'.
    exact (rollback_agrees r (i_snap i) r3 Ha Hsnap Hin (Hfit (or_introl eq_refl))).
  - destruct f; [|exact (complete_agrees i r3 st r' Ht3)]. apply fault_agrees.
    apply (fault_tracks r); try done. intros Hr Hee. apply Hfit. by right.
Qed.

Lemma interrupt_agrees vector r st r' : agrees r -> cosim_interrupt vector r = Some (st, r') -> agrees r'.
Proof using Hwrites.
  intros Ha. unfold cosim_interrupt. set (r0 := upd_co _ r).
  assert (agrees r0) as H0.
  { destruct Ha as [Hn|[Hs Ht]]; [by left|right]. split; [done|]. revert Ht. apply tracking_ext. by same. }
  clearbody r0. destruct (err (co (iss r0))) eqn:He; [by intros [= _ <-]|].
  set (r1 := at_boundary _). assert (tracks r1) as H1.
  { destruct H0 as [Hn|[Hs Ht]]; [by left|]. revert Ht. apply tracking_ext. split; [by left|]. by split_and!. }
  clearbody r1. set (r2 := if negb _ then _ else _).
  assert (tracks r2) as H2 by (subst r2; case_match; by apply call_tracks). clearbody r2.
  destruct (pending (iss r2)); [intros [= _ <-]; apply failed_agrees|].
  apply commit_agrees. exact H2.
Qed.
End Steps.

(** ** z486's side *)

Section Dut.
Context (D : Z -> Z) (writes : list (Z * Z)).

Lemma dut_write_agreeing phys val s r s' :
  agreeing D writes s -> is_u32 phys -> cosim_dut_write phys val s = Some (r, s') ->
  agreeing D (writes ++ [(platform_phys (a20_on (cpu s)) phys, val)]) s'.
Proof.
  unfold cosim_dut_write. intros Ha Hu. generalize (match_write_fuel s) as fuel. intros fuel Hr.
  pose proof (platform_phys_range (a20_on (cpu s)) phys Hu) as Hp. revert Hp Hr.
  generalize (platform_phys (a20_on (cpu s)) phys) as p. intros p Hp Hr.
  destruct Ha as [Hn|[Hs [Hn|(refs & dn & Hc & Ew & Hio)]]].
  1, 2: left; by eapply match_write_keeps.
  destruct (match_write_error p val fuel s r s' Hr) as [->|[_ Hn]]; [right|by left].
  destruct (match_write_accepts D refs dn p val fuel s s' Hc Hp Hr) as [(e & d & Hsame) Hacc].
  split; [by rewrite Hsame|]. right. exists refs. destruct Hacc as [(Hd & Hd' & Hc')|(Ee & Hc')].
  - eexists. split; [exact Hc'|]. split; [|by rewrite Hsame]. rewrite Ew. unfold early. by rewrite Hd, Hd', !app_nil_r.
  - exists dn. split; [done|]. split; [by rewrite Ew, Ee, app_assoc|by rewrite Hsame].
Qed.

Lemma match_io_keeps port val s : err s <> None -> err (match_io port val s).2 <> None.
Proof. unfold match_io. intros Hn. destruct (exp_io s) as [|e l]; [done|]. case_bool; [apply fail_err|done]. Qed.

Lemma dut_out_agreeing port val s : agreeing D writes s -> agreeing D writes (match_io port val s).2.
Proof.
  intros Ha. pose proof (match_io_keeps port val s) as Hk. destruct Ha as [Hn|[Hs [Hn|(refs & dn & Hc & Ew & Hio)]]].
  1, 2: left; auto.
  destruct (match_io port val s) as [r s'] eqn:E. cbn [snd] in *.
  assert (io_compared (pairs_of (exp_io s ++ stage_io s)) (pairs_of (dut_io s)) s) as Hio' by (by exists []).
  destruct (match_io_compared _ _ _ _ _ _ _ Hio' E) as [Hsame [(_ & He & (m & _ & _ & H3))|[_ Hn]]]; [right|by left].
  destruct (same_but_io_writes _ _ Hsame) as (H1 & _ & H2). split; [by rewrite H1|]. right. exists refs, dn.
  split; [|by rewrite H2]. apply (compared_io _ _ _ s); [done|by rewrite He, (c_err _ _ _ _ Hc)|done].
Qed.

Lemma agreeing_ext s s' : same_events s s' -> agreeing D writes s -> agreeing D writes s'.
Proof.
  intros He [Hn|[Hs Ht]].
  - left. destruct He as [[-> |] _]; done.
  - right. split; [|by eapply tracking_ext]. destruct He as (_ & _ & _ & _ & -> & _). done.
Qed.
End Dut.

(** ** Runs of both sides *)

Section Runs.
Context {R T : Type} `{Box86 R T}.
Notation Ref := (Ref R T).
Implicit Types (r : Ref).

(** What the host does with the reference, in any order: steps, interrupts and
    flags as z486 issues its instructions, and z486's bus cycles; [writes] are
    z486's, at their platform addresses. *)
Inductive lockstep (fuel : nat) (r0 : Ref) : list (Z * Z) -> Ref -> Prop :=
| ls_start : lockstep fuel r0 [] r0
| ls_step writes r rep_left st r' :
    lockstep fuel r0 writes r -> step_fits fuel rep_left r -> run fuel rep_left r = Some (st, r') ->
    lockstep fuel r0 writes r'
| ls_interrupt writes r vector st r' :
    lockstep fuel r0 writes r -> cosim_interrupt vector r = Some (st, r') -> lockstep fuel r0 writes r'
| ls_flags writes r dut_eflags :
    lockstep fuel r0 writes r -> lockstep fuel r0 writes (adopt_flags dut_eflags r)
| ls_a20 writes r on :
    lockstep fuel r0 writes r -> lockstep fuel r0 writes (upd_cpu (fun c => c <| a20_on := on |>) r)
| ls_write writes r phys val st s :
    lockstep fuel r0 writes r -> is_u32 phys -> cosim_dut_write phys val (co (iss r)) = Some (st, s) ->
    lockstep fuel r0 (writes ++ [(platform_phys (a20_on (ccpu r)) phys, val)]) (upd_co (fun _ => s) r)
| ls_out writes r port val :
    lockstep fuel r0 writes r -> lockstep fuel r0 writes (upd_co (fun s => (cosim_dut_io_write port val s).2) r)
| ls_in writes r port val :
    lockstep fuel r0 writes r -> lockstep fuel r0 writes (upd_co (cosim_dut_io_read port val) r)
| ls_read writes r phys val :
    lockstep fuel r0 writes r -> lockstep fuel r0 writes (upd_co (cosim_dut_dev_read phys val) r).

Lemma lockstep_addresses fuel r0 writes r : lockstep fuel r0 writes r -> Forall (fun w => 0 <= w.1) writes.
Proof.
  induction 1; try done. apply Forall_app. split; [done|]. apply Forall_singleton. by apply platform_phys_range.
Qed.

Lemma adopt_flags_iss dut_eflags r : iss (adopt_flags dut_eflags r) = iss r.
Proof. unfold adopt_flags. destruct (_ =? 0); [done|]. by destruct (cosim_adopt_flags _ _ _). Qed.

Lemma lockstep_agrees D fuel r0 writes r :
  in_agreement D (co (iss r0)) -> lockstep fuel r0 writes r -> agreeing D writes (co (iss r)).
Proof.
  intros Ha. induction 1 as [|writes r rep_left st r' Hl IH Hf Hr|writes r vector st r' Hl IH Hr|writes r fl Hl IH
    |writes r on Hl IH|writes r phys val st s Hl IH Hu Hr|writes r port val Hl IH|writes r port val Hl IH|writes r phys val Hl IH].
  - apply agreement_synced in Ha as [(dn & Hc & Ew) (m & _ & _ & H3) [Hs _] _]. right. split; [done|].
    right. by exists [], dn.
  - apply lockstep_addresses in Hl. by eapply run_agrees.
  - apply lockstep_addresses in Hl. by eapply interrupt_agrees.
  - by rewrite adopt_flags_iss.
  - revert IH. apply agreeing_ext. by same.
  - by eapply dut_write_agreeing.
  - by apply dut_out_agreeing.
  - revert IH. apply agreeing_ext. by same.
  - revert IH. apply agreeing_ext. by same.
Qed.

(** What agreement means once no error is recorded. *)
Lemma agreeing_sound D writes s :
  agreeing D writes s -> err s = None ->
  exists taken, writes = taken ++ early s /\
    (forall a, 0 <= a -> in_ram (mem s) a = true -> (forall p, p ∈ outstanding a s -> p.1 = true) ->
       dut_after D taken a = ram_get (mem s) a) /\
    (fst (cosim_writes_pending s) = false -> dut_w s = [] ->
       forall a, 0 <= a -> in_ram (mem s) a = true -> dut_after D writes a = ram_get (mem s) a).
Proof.
  intros Hl He. destruct Hl as [Hn|[Hs [Hn|(refs & taken & Hc & Ew & _)]]]; [by rewrite He in Hn..|].
  assert (forall a, 0 <= a -> in_ram (mem s) a = true -> (forall p, p ∈ outstanding a s -> p.1 = true) ->
    dut_after D taken a = ram_get (mem s) a) as Heq.
  { intros a H0 Hin Hp. apply (c_equal _ _ _ _ Hc); [done|done|]. by apply Forall_forall. }
  exists taken. split_and!; [done|done|]. intros Hp Hd a H0 Hin. rewrite Ew. unfold early.
  rewrite Hd. cbn [map]. rewrite app_nil_r. apply Heq; [done|done|].
  rewrite (drained_outstanding s a Hp Hs). intros p Hin'. by apply not_elem_of_nil in Hin'.
Qed.
(** C7: lockstep co-simulation is sound for any instructions 86Box may execute.
    From agreeing memories, let the reference be stepped, stalled and retried,
    cut inside a REP string, interrupted and faulted, and z486 perform its bus
    cycles, in any interleaving, every step to be undone within the log.  While
    no divergence is reported, z486's writes are those taken and those waiting,
    a RAM byte with no changing write outstanding is the same on both sides,
    and once both have drained the memories are equal. *)
Theorem lockstep_sound D fuel r0 writes r
  (Ha : in_agreement D (co (iss r0))) (Hl : lockstep fuel r0 writes r) (He : err (co (iss r)) = None) :
  exists taken, writes = taken ++ early (co (iss r)) /\
    (forall a, 0 <= a -> in_ram (mem (co (iss r))) a = true ->
       (forall p, p ∈ outstanding a (co (iss r)) -> p.1 = true) ->
       dut_after D taken a = ram_get (mem (co (iss r))) a) /\
    (fst (cosim_writes_pending (co (iss r))) = false -> dut_w (co (iss r)) = [] ->
       forall a, 0 <= a -> in_ram (mem (co (iss r))) a = true -> dut_after D writes a = ram_get (mem (co (iss r))) a).
Proof. apply agreeing_sound; [by eapply lockstep_agrees|done]. Qed.
End Runs.

(** ** A run *)

#[local] Existing Instance demo_box86.

(** The REP STOSB of [demo_rep], cut with one element left, and z486's two
    writes. *)
Definition demo_dut (phys val : Z) (r : Ref unit unit) : Ref unit unit :=
  match cosim_dut_write phys val (co (iss r)) with Some (_, s) => upd_co (fun _ => s) r | None => r end.

Definition demo_cut : Ref unit unit := after (run 20 (Some 1) demo_rep) demo_rep.

Lemma demo_rep_fits : step_fits 20 (Some 1) demo_rep.
Proof.
  intros i r1 r2 f e r3 Hf Hx Hex _.
  assert (match fetch_insn 20 demo_rep with
          | Some (i, r1) =>
            match execute 20 i (Some 1) (at_boundary (x87_frozen (i_d i) r1).2) with
            | Some (_, _, r3) => (length (mem_log (co (iss r3))) <? MAX_MEM_LOG)%nat
            | None => false
            end
          | None => false
          end = true) as E by (by vm_compute).
  rewrite Hf, Hx in E. cbn [snd] in E. rewrite Hex in E. by apply Nat.ltb_lt.
Qed.

Lemma demo_rep_agreement : in_agreement (ram_get (mem (co (iss demo_rep)))) (co (iss demo_rep)).
Proof. unfold in_agreement. split; [apply demo_code_ok; cbn; lia|]. by split_and!. Qed.

Lemma demo_dut_lockstep writes r phys val :
  lockstep 20 demo_rep writes r -> is_u32 phys -> a20_on (ccpu r) = true -> platform_phys true phys = phys ->
  lockstep 20 demo_rep (writes ++ [(phys, val)]) (demo_dut phys val r).
Proof.
  intros Hl Hu Ha Hp. unfold demo_dut.
  destruct (cosim_dut_write phys val (co (iss r))) as [[st s]|] eqn:E.
  - rewrite <- Hp at 1. rewrite <- Ha. by eapply ls_write.
  - exfalso. unfold cosim_dut_write in E. destruct (match_write_total (platform_phys (a20_on (cpu (co (iss r)))) phys) val
      (match_write_fuel (co (iss r))) (co (iss r)) (length_drop_done _)) as [x Ex]. congruence.
Qed.

Lemma demo_cut_lockstep : lockstep 20 demo_rep [] demo_cut.
Proof.
  destruct (run 20 (Some 1) demo_rep) as [[st r]|] eqn:E.
  - apply (ls_step _ _ _ demo_rep (Some 1) st); [apply ls_start|apply demo_rep_fits|].
    unfold demo_cut. by rewrite E.
  - exfalso. assert (match run 20 (Some 1) demo_rep with Some _ => true | None => false end = true) as E' by (by vm_compute).
    by rewrite E in E'.
Qed.

Definition demo_drained : Ref unit unit := demo_dut 0x801 0x41 (demo_dut 0x800 0x41 demo_cut).

Lemma lockstep_sound_witness :
  err (co (iss demo_drained)) = None /\
  (forall a, 0 <= a -> in_ram (mem (co (iss demo_drained))) a = true ->
     dut_after (ram_get (mem (co (iss demo_rep)))) [(0x800, 0x41); (0x801, 0x41)] a = ram_get (mem (co (iss demo_drained))) a).
Proof.
  split; [by vm_compute|].
  destruct (lockstep_sound (ram_get (mem (co (iss demo_rep)))) 20 demo_rep [(0x800, 0x41); (0x801, 0x41)] demo_drained)
    as (taken & _ & _ & Heq).
  - apply demo_rep_agreement.
  - apply (demo_dut_lockstep [(0x800, 0x41)]); [|by split|by vm_compute|done].
    apply (demo_dut_lockstep []); [apply demo_cut_lockstep|by split|by vm_compute|done].
  - by vm_compute.
  - apply Heq; by vm_compute.
Defined.
