(* ===== verification/CosimHost.v ===== *)
(** * The co-simulation host

    verilator/cosim_host.cpp: every clock the host reads z486's taps, feeds its
    bus cycles to the reference and runs the reference one instruction behind
    z486's issues ([cosim_host_cycle], [process_issue]).  The reference is an
    interface here, [Reference], the functions of cosim/cosim86.h the host
    calls; CosimSystem.v instantiates it with the one of CosimRun.v.

    Theorems: the issues accepted are the instructions the reference stands at,
    reached by its own steps and interrupts ([issues_followed], CosimFollow.v); a register is
    reported exactly when it has differed at 64 issues in a row
    ([registers_exact]); a reset can lose the first instruction after it
    ([restart_survives_reset]). *)
From S2P Require Import Prelude CosimMatch.

(** ** The reference *)

Class Reference (X : Type) := {
  ref_step : X -> option (Status * X);                 (* cosim_step *)
  ref_step_rep_to : Z -> X -> option (Status * X);
  ref_interrupt : Z -> X -> option (Status * X);
  ref_adopt_flags : Z -> X -> X;
  ref_eip : X -> Z; ref_cs : X -> Z; ref_reg : nat -> X -> Z;
  ref_at_rep_string : X -> bool;
  ref_last_fault : X -> option Z;                      (* -1 is [None] *)
  ref_instructions : X -> Z;
  ref_error : X -> option CosimErr;
  ref_x87 : X -> list Z;                               (* cosim_arch from COSIM_ARCH_X87 *)
  ref_reset : X -> X;
  ref_set_fpu : bool -> X -> X;
  ref_set_a20 : bool -> X -> X;
  ref_dut_write : Z -> Z -> X -> option (Status * X);
  ref_dut_io_write : Z -> Z -> X -> Status * X;
  ref_dut_io_read : Z -> Z -> X -> X;
  ref_dut_dev_read : Z -> Z -> X -> X;
  ref_dma_write : Z -> Z -> X -> X;
  ref_walker_write : Z -> Z -> X -> X;
  ref_store : nat -> Z -> X -> X;                      (* cosim_ram()[a] = b *)
  ref_load : nat -> X -> Z;
  ref_snapshot_ok : X -> bool * X
}.

(** ** z486's taps *)

(** The signals of the model that the host reads in a clock, the x87's words
    and the SDRAM's. *)
Record Taps := mkTaps {
  cosim_cpu_reset_n : bool; cosim_x87_on : bool; cosim_a20 : bool;
  cosim_dma_wr : bool; cosim_dma_be : Z; cosim_dma_addr : Z; cosim_dma_wdata : Z;
  cosim_dreq_acc : bool; cosim_dreq_kind : Z; cosim_dreq_addr : Z; cosim_dreq_write : bool;
  cosim_dreq_wdata_direct : Z; cosim_dreq_wdata : Z; cosim_dreq_be : Z;
  cosim_drd_done : bool; cosim_drd_data : Z;
  cosim_fst_acc : bool; cosim_fst_addr : Z; cosim_fst_be : Z; cosim_fst_wdata : Z;
  cosim_rpti : bool;
  cosim_issue : bool; cosim_issue_eip : Z; cosim_issue_cs : Z; cosim_ecx : Z; cosim_eflags : Z;
  cosim_gprs : list Z;
  cosim_bus_quiet : bool;
  cosim_x87_idle : bool; cosim_x87_word : list Z;
  sdram : list Z
}.

(** ** The state *)

Record IssueEv := mkIssue { i_eip : Z; i_ecx : Z; i_eflags : Z; i_cs : Z; i_t : Z; i_gpr : list Z }.
Record ReadReq := mkRead { r_addr : Z; r_be : Z; r_kind : Z }.
Record WriteLog := mkLog { l_t : Z; l_addr : Z; l_val : Z; l_port : Z }.

(** The messages of [diverge]. *)
Inductive Divergence :=
| DReference (e : option CosimErr)
| DRegister (r : nat) (dut ref first : Z)
| DX87
| DIssue (cs eip ref_cs ref_eip : Z)
| DNoRead.

(** What [cosim_host_enable] sets: SIM_ENABLE_X87, whether the x87's scopes
    exist, COSIM_X87_VALUES, COSIM_X87_PRECISION, the RAM size. *)
Record Config := mkConfig {
  sim_enable_x87 : bool; x87_scopes : bool; g_x87_values : bool; g_x87_precision : bool; g_ram_mb : Z
}.

Record Host (X : Type) := mkHost {
  ref : X;
  g_running : bool;
  g_failed : option Divergence;      (* [false] is [None] *)
  g_have_cur : bool;
  g_squash_ok : bool;
  g_ram_copied : bool;
  g_snap_candidate : bool;
  g_x87_on : bool;
  g_rpti_prev : bool;
  g_cur_restarted : bool;
  g_issues : list IssueEv;
  g_reads : list ReadReq;
  g_vectors : list Z;
  g_wlog : list WriteLog; g_wlog_n : Z;
  g_issued : Z; g_irqs : Z; g_stalls : Z; g_squashed : Z; g_resets : Z;
  g_cycles : Z; g_reset_cycles : Z; g_issue_raw : Z;
  g_reg_miss : list Z; g_reg_first : list Z;
  g_now : Z;
  g_x87_ref_last : list Z;
  g_x87_dirty : bool; g_x87_miss : Z; g_x87_period : Z; g_x87_checks : Z
}.
Arguments mkHost {X}. Arguments ref {X}. Arguments g_running {X}. Arguments g_failed {X}. Arguments g_have_cur {X}.
Arguments g_squash_ok {X}. Arguments g_ram_copied {X}. Arguments g_snap_candidate {X}. Arguments g_x87_on {X}.
Arguments g_rpti_prev {X}. Arguments g_cur_restarted {X}. Arguments g_issues {X}. Arguments g_reads {X}.
Arguments g_vectors {X}. Arguments g_wlog {X}. Arguments g_wlog_n {X}. Arguments g_issued {X}. Arguments g_irqs {X}.
Arguments g_stalls {X}. Arguments g_squashed {X}. Arguments g_resets {X}. Arguments g_cycles {X}.
Arguments g_reset_cycles {X}. Arguments g_issue_raw {X}. Arguments g_reg_miss {X}. Arguments g_reg_first {X}.
Arguments g_now {X}. Arguments g_x87_ref_last {X}. Arguments g_x87_dirty {X}. Arguments g_x87_miss {X}.
Arguments g_x87_period {X}. Arguments g_x87_checks {X}.

#[export] Instance eta_Host {X} : Eta (Host X) := fun h =>
  mkHost (ref h) (g_running h) (g_failed h) (g_have_cur h) (g_squash_ok h) (g_ram_copied h) (g_snap_candidate h)
    (g_x87_on h) (g_rpti_prev h) (g_cur_restarted h) (g_issues h) (g_reads h) (g_vectors h) (g_wlog h) (g_wlog_n h)
    (g_issued h) (g_irqs h) (g_stalls h) (g_squashed h) (g_resets h) (g_cycles h) (g_reset_cycles h) (g_issue_raw h)
    (g_reg_miss h) (g_reg_first h) (g_now h) (g_x87_ref_last h) (g_x87_dirty h) (g_x87_miss h) (g_x87_period h)
    (g_x87_checks h).

Definition kRegPersist : Z := 64.
Definition kX87Persist : Z := 4.
Definition kX87Period : Z := 4096.

Definition K_IO : Z := 1.
Definition K_INTA : Z := 2.
Definition K_X87 : Z := 4.
Definition K_DEV : Z := 8.
Definition K_WALK : Z := 16.
Definition is_kind (kind k : Z) : bool := negb (Z.land kind k =? 0).

Section HostOps.
Context {X : Type} `{Reference X} (cfg : Config).
Notation Host := (Host X).

Definition upd_ref (f : X -> X) (h : Host) : Host := h <| ref := f (ref h) |>.

Definition log_write (t addr val port : Z) (h : Host) : Host :=
  h <| g_wlog := <[Z.to_nat (g_wlog_n h mod 16) := mkLog t addr val port]> (g_wlog h) |>
    <| g_wlog_n := u32 (g_wlog_n h + 1) |>.

(** The report is not modelled, the cause is kept. *)
Definition diverge (what : Divergence) (h : Host) : Host := h <| g_failed := Some what |>.

(** The SDRAM's words into the reference's RAM. *)
Fixpoint copy_words (words : list Z) (a : nat) (x : X) : X :=
  match words with
  | w :: words => copy_words words (a + 2) (ref_store (a + 1) (Z.shiftr w 8) (ref_store a (Z.land w 0xFF) x))
  | [] => x
  end.

Definition copy_ram (tb : Taps) (h : Host) : Host :=
  upd_ref (copy_words (take (Z.to_nat (Z.shiftl (g_ram_mb cfg) 20 / 2)) (sdram tb)) 0) h.

(** ** Checks at an issue *)

(** The registers from [r] on; the flag is false after a divergence. *)
Fixpoint check_loop (n r : nat) (ev : IssueEv) (h : Host) : bool * Host :=
  match n with
  | O => (true, h)
  | S n =>
    let x := ref_reg r (ref h) in
    if default 0 (i_gpr ev !! r) =? x then check_loop n (S r) ev (h <| g_reg_miss := <[r := 0]> (g_reg_miss h) |>)
    else
      let miss := default 0 (g_reg_miss h !! r) in
      let h := h <| g_reg_miss := <[r := u32 (miss + 1)]> (g_reg_miss h) |> in
      let h := if miss =? 0 then h <| g_reg_first := <[r := ref_instructions (ref h)]> (g_reg_first h) |> else h in
      if kRegPersist <=? default 0 (g_reg_miss h !! r) then
        (false, diverge (DRegister r (default 0 (i_gpr ev !! r)) x (default 0 (g_reg_first h !! r))) h)
      else check_loop n (S r) ev h
  end.

Definition check_registers (ev : IssueEv) (h : Host) : bool * Host := check_loop 8 0 ev h.

Definition same_word (mask : Z) (k : nat) (dut ref : list Z) : bool :=
  Z.land (default 0 (dut !! k)) mask =? Z.land (default 0 (ref !! k)) mask.

(** The comparison of the control, status and tag words and of the registers
    that are not empty. *)
Definition same_x87 (dut ref : list Z) : bool :=
  let sw_mask := Z.land (if g_x87_values cfg then 0xFFFF else 0xFDFF) (if g_x87_precision cfg then 0xFFFF else 0xFFDF) in
  same_word 0xFFFF 0 dut ref && same_word sw_mask 1 dut ref && same_word 0xFFFF 2 dut ref &&
  (negb (g_x87_values cfg) ||
   forallb (fun i => (Z.land (Z.shiftr (default 0 (ref !! 2%nat)) (2 * Z.of_nat i)) 3 =? 3) ||
              (default 0 (dut !! (3 + 3 * i)%nat) =? default 0 (ref !! (3 + 3 * i)%nat)) &&
              (default 0 (dut !! (4 + 3 * i)%nat) =? default 0 (ref !! (4 + 3 * i)%nat)) &&
              same_word 0xFFFF (5 + 3 * i) dut ref) (seq 0 8)).

Definition check_x87 (tb : Taps) (ev : IssueEv) (h : Host) : bool * Host :=
  if negb (sim_enable_x87 cfg) || negb (g_x87_on h) then (true, h)
  else
    let words := ref_x87 (ref h) in
    let h := if bool_decide (words = g_x87_ref_last h) then h
             else h <| g_x87_ref_last := words |> <| g_x87_dirty := true |> in
    let h := if g_x87_dirty h then h else h <| g_x87_period := u32 (g_x87_period h + 1) |> in
    if negb (g_x87_dirty h) && (g_x87_period h <? kX87Period) then (true, h)
    else
      let h := h <| g_x87_period := 0 |> in
      if negb (i_t ev =? g_now h) || negb (x87_scopes cfg) || negb (cosim_x87_idle tb) then (true, h)
      else
        let h := h <| g_x87_checks := u64 (g_x87_checks h + 1) |> in
        if same_x87 (cosim_x87_word tb) words then (true, h <| g_x87_dirty := false |> <| g_x87_miss := 0 |>)
        else
          let h := h <| g_x87_miss := u32 (g_x87_miss h + 1) |> in
          if g_x87_miss h <? kX87Persist then (true, h) else (false, diverge DX87 h).

(** ** Issues *)

(** How the loop of [process_issues] goes on from one issue. *)
Inductive Outcome := Accepted | Squashed | Waiting | Diverged.

Definition same_pc (ev : IssueEv) (h : Host) : bool := (ref_eip (ref h) =? i_eip ev) && (ref_cs (ref h) =? i_cs ev).

(** [RPTI]: the instruction z486 restarts is not run. *)
Definition drop_restarted (h : Host) : Host :=
  if g_have_cur h && g_cur_restarted h && negb (ref_at_rep_string (ref h)) then
    h <| g_have_cur := false |> <| g_cur_restarted := false |> <| g_squash_ok := false |>
  else h.

(** The instruction z486 issued before this one. *)
Definition run_current (ev : IssueEv) (h : Host) : option (Status * Host) :=
  if g_have_cur h then
    '(r, x) ← if negb (match g_vectors h with [] => true | _ => false end) && ref_at_rep_string (ref h)
              then ref_step_rep_to (i_ecx ev) (ref h) else ref_step (ref h);
    let h := h <| ref := x |> in
    Some (r, match r with
             | COSIM_STALL => h <| g_stalls := u64 (g_stalls h + 1) |>
             | COSIM_ERROR => diverge (DReference (ref_error x)) h
             | COSIM_OK =>
               upd_ref (ref_adopt_flags (i_eflags ev))
                 (h <| g_have_cur := false |> <| g_cur_restarted := false |>
                    <| g_squash_ok := match ref_last_fault x with Some _ => true | None => false end |>)
             end)
  else Some (COSIM_OK, h).

(** An interrupt that z486 acknowledged is taken where the PCs part. *)
Definition take_interrupt (ev : IssueEv) (h : Host) : option (Status * Host) :=
  match g_vectors h with
  | v :: vectors =>
    if same_pc ev h then Some (COSIM_OK, h)
    else
      let h := h <| g_vectors := vectors |> <| g_irqs := u64 (g_irqs h + 1) |> in
      '(r, x) ← ref_interrupt v (ref h);
      let h := h <| ref := x |> in
      Some (match r with COSIM_OK => (COSIM_OK, h) | _ => (COSIM_ERROR, diverge (DReference (ref_error x)) h) end)
  | [] => Some (COSIM_OK, h)
  end.

(** An instruction fetch fault, which z486 does not issue. *)
Definition fetch_fault (ev : IssueEv) (h : Host) : option (bool * Host) :=
  if same_pc ev h then Some (true, h)
  else
    '(r, x) ← ref_step (ref h);
    let h := h <| ref := x |> in
    let error := match r with COSIM_ERROR => true | _ => false end in
    if error || negb (match ref_last_fault x with Some _ => true | None => false end) || negb (same_pc ev h) then
      Some (false, diverge (if error then DReference (ref_error x)
                            else DIssue (i_cs ev) (i_eip ev) (ref_cs x) (ref_eip x)) h)
    else Some (true, h).

(** The body of the loop of [process_issues]. *)
Definition process_issue (tb : Taps) (ev : IssueEv) (h : Host) : option (Outcome * Host) :=
  '(r, h) ← run_current ev (drop_restarted h);
  match r with
  | COSIM_STALL => Some (Waiting, h)
  | COSIM_ERROR => Some (Diverged, h)
  | COSIM_OK =>
    '(r, h) ← take_interrupt ev h;
    match r with
    | COSIM_OK =>
      if negb (same_pc ev h) && g_squash_ok h then
        Some (Squashed, h <| g_squash_ok := false |> <| g_squashed := u64 (g_squashed h + 1) |>)
      else
        '(ok, h) ← fetch_fault ev h;
        if negb ok then Some (Diverged, h)
        else
          let h := h <| g_squash_ok := false |> <| g_have_cur := true |> in
          let '(ok, h) := check_registers ev h in
          if negb ok then Some (Diverged, h)
          else
            let '(ok, h) := check_x87 tb ev h in
            Some (if ok then Accepted else Diverged, h)
    | _ => Some (Diverged, h)
    end
  end.

(** [process_issues] on the queue [l]; it keeps the issues it has not popped. *)
Fixpoint process_issues (tb : Taps) (l : list IssueEv) (h : Host) : option (bool * Host) :=
  match l with
  | [] => Some (true, h <| g_issues := [] |>)
  | ev :: l' =>
    '(o, h) ← process_issue tb ev h;
    match o with
    | Accepted | Squashed => process_issues tb l' h
    | Waiting => Some (true, h <| g_issues := l |>)
    | Diverged => Some (false, h <| g_issues := l |>)
    end
  end.
End HostOps.

(** ** A clock *)

Section Cycle.
Context {X : Type} `{Reference X} (cfg : Config).
Notation Host := (Host X).

Definition lane (be : Z) (i : nat) : bool := negb (Z.land be (Z.shiftl 1 (Z.of_nat i)) =? 0).
Definition lane_byte (data : Z) (i : nat) : Z := Z.land (Z.shiftr data (8 * Z.of_nat i)) 0xFF.
Definition dword (addr : Z) : Z := Z.land addr 0xFFFFFFFC.
Definition lane_addr (addr : Z) (i : nat) : Z := u32 (dword addr + Z.of_nat i).

(** The bytes of a transfer, lane by lane; a lane that fails ends it. *)
Fixpoint each_lane (n i : nat) (be : Z) (f : nat -> Host -> option (bool * Host)) (h : Host) : option (bool * Host) :=
  match n with
  | O => Some (true, h)
  | S n =>
    if lane be i then
      '(ok, h) ← f i h;
      if (ok : bool) then each_lane n (S i) be f h else Some (false, h)
    else each_lane n (S i) be f h
  end.

(** A write byte of z486's bus or of a direct store. *)
Definition dut_byte (t addr b port : Z) (h : Host) : option (bool * Host) :=
  let h := log_write t addr b port h in
  '(r, x) ← ref_dut_write addr b (ref h);
  let h := h <| ref := x |> in
  Some (match r with COSIM_OK => (true, h) | _ => (false, diverge (DReference (ref_error x)) h) end).

Definition io_byte (t addr b : Z) (h : Host) : option (bool * Host) :=
  let h := log_write t addr b 105 h in
  let '(r, x) := ref_dut_io_write (u16 addr) b (ref h) in
  let h := h <| ref := x |> in
  Some (match r with COSIM_OK => (true, h) | _ => (false, diverge (DReference (ref_error x)) h) end).

Definition always (f : X -> X) (h : Host) : option (bool * Host) := Some (true, upd_ref f h).

(** The CPU's reset ends: the reference restarts. *)
Definition start (h : Host) : Host :=
  if g_running h then h
  else
    upd_ref ref_reset (h <| g_ram_copied := false |>)
      <| g_issues := [] |> <| g_reads := [] |> <| g_vectors := [] |> <| g_have_cur := false |>
      <| g_squash_ok := false |> <| g_running := true |>.

Definition dma (tb : Taps) (h : Host) : option (bool * Host) :=
  if cosim_dma_wr tb then
    each_lane 4 0 (cosim_dma_be tb)
      (fun i => always (ref_dma_write (lane_addr (cosim_dma_addr tb) i) (lane_byte (cosim_dma_wdata tb) i))) h
  else Some (true, h).

(** The data-request port. *)
Definition dreq (t : Z) (tb : Taps) (h : Host) : option (bool * Host) :=
  let kind := cosim_dreq_kind tb in
  if cosim_dreq_acc tb then
    if cosim_dreq_write tb then
      let data := if is_kind kind K_IO then cosim_dreq_wdata_direct tb else cosim_dreq_wdata tb in
      each_lane 4 0 (cosim_dreq_be tb)
        (fun i h =>
           let a := lane_addr (cosim_dreq_addr tb) i in
           let b := lane_byte data i in
           if is_kind kind K_WALK then always (ref_walker_write a b) h
           else if is_kind kind K_X87 then Some (true, h)
           else if is_kind kind K_IO then io_byte t a b h
           else dut_byte t a b 100 h) h
    else Some (true, h <| g_reads := g_reads h ++ [mkRead (cosim_dreq_addr tb) (cosim_dreq_be tb) kind] |>)
  else Some (true, h).

(** A read completes. *)
Definition drd (tb : Taps) (h : Host) : option (bool * Host) :=
  if cosim_drd_done tb then
    match g_reads h with
    | [] => Some (false, diverge DNoRead h)
    | rq :: reads =>
      let h := h <| g_reads := reads |> in
      let data := cosim_drd_data tb in
      if is_kind (r_kind rq) K_INTA then
        Some (true, if Z.land (r_addr rq) 4 =? 0 then h <| g_vectors := g_vectors h ++ [Z.land data 0xFF] |> else h)
      else if is_kind (r_kind rq) (Z.lor K_WALK K_X87) then Some (true, h)
      else
        each_lane 4 0 (r_be rq)
          (fun i =>
             let a := lane_addr (r_addr rq) i in
             let b := lane_byte data i in
             always (fun x => if is_kind (r_kind rq) K_IO then ref_dut_io_read (u16 a) b x
                              else if is_kind (r_kind rq) K_DEV then ref_dut_dev_read a b x else x)) h
    end
  else Some (true, h).

(** Direct stores. *)
Definition fst_store (t : Z) (tb : Taps) (h : Host) : option (bool * Host) :=
  if cosim_fst_acc tb then
    each_lane 4 0 (cosim_fst_be tb)
      (fun i => dut_byte t (lane_addr (cosim_fst_addr tb) i) (lane_byte (cosim_fst_wdata tb) i) 102) h
  else Some (true, h).

Definition rpti (tb : Taps) (h : Host) : Host :=
  let h := if cosim_rpti tb && negb (g_rpti_prev h) && g_have_cur h then h <| g_cur_restarted := true |> else h in
  h <| g_rpti_prev := cosim_rpti tb |>.

(** z486 issues an instruction. *)
Definition issue (t : Z) (tb : Taps) (h : Host) : Host :=
  if cosim_issue tb then
    let h := if g_ram_copied h then h else copy_ram cfg tb h <| g_ram_copied := true |> in
    let ev := mkIssue (cosim_issue_eip tb) (cosim_ecx tb) (cosim_eflags tb) (cosim_issue_cs tb) t (cosim_gprs tb) in
    h <| g_issues := g_issues h ++ [ev] |> <| g_issued := u64 (g_issued h + 1) |>
  else h.

Definition snap_candidate (tb : Taps) (h : Host) : bool :=
  cosim_issue tb && negb (cosim_dreq_acc tb) && negb (cosim_fst_acc tb) && negb (cosim_drd_done tb) &&
  negb (cosim_dma_wr tb) && g_have_cur h && match g_issues h, g_reads h, g_vectors h with [], [], [] => true | _, _, _ => false end.

Definition count_clock (t : Z) (tb : Taps) (h : Host) : Host :=
  let h := h <| g_cycles := u64 (g_cycles h + 1) |> <| g_now := t |> in
  let h := if cosim_issue tb then h <| g_issue_raw := u64 (g_issue_raw h + 1) |> else h in
  let h := if cosim_cpu_reset_n tb then h else h <| g_reset_cycles := u64 (g_reset_cycles h + 1) |> in
  if eqb (cosim_x87_on tb) (g_x87_on h) then h
  else upd_ref (ref_set_fpu (cosim_x87_on tb)) (h <| g_x87_on := cosim_x87_on tb |>).

(** A clock out of reset. *)
Definition bus_cycle (t : Z) (tb : Taps) (h : Host) : option (bool * Host) :=
  let h := upd_ref (ref_set_a20 (cosim_a20 tb)) (start h) in
  '(ok, h) ← dma tb h;
  if negb ok then Some (false, h)
  else
    '(ok, h) ← dreq t tb h;
    if negb ok then Some (false, h)
    else
      '(ok, h) ← drd tb h;
      if negb ok then Some (false, h)
      else
        '(ok, h) ← fst_store t tb h;
        if negb ok then Some (false, h)
        else
          let h := issue t tb (rpti tb h) in
          '(ok, h) ← process_issues cfg tb (g_issues h) h;
          if negb ok then Some (false, h) else Some (true, h <| g_snap_candidate := snap_candidate tb h |>).

(** [cosim_host_cycle], the host enabled. *)
Definition cosim_host_cycle (t : Z) (tb : Taps) (h : Host) : option (bool * Host) :=
  match g_failed h with
  | Some _ => Some (false, h)
  | None =>
    let h := count_clock t tb h in
    if cosim_cpu_reset_n tb then bus_cycle t tb h
    else Some (true, h <| g_resets := if g_running h then u64 (g_resets h + 1) else g_resets h |> <| g_running := false |>)
  end.

(** Snapshots are taken between clocks. *)
Definition cosim_host_snapshot_ready (tb : Taps) (h : Host) : bool * Host :=
  if negb (g_running h) || match g_failed h with Some _ => true | None => false end || negb (g_snap_candidate h) then (false, h)
  else if negb (cosim_cpu_reset_n tb) || negb (cosim_bus_quiet tb) then (false, h)
  else if cosim_issue tb || cosim_dreq_acc tb || cosim_fst_acc tb || cosim_drd_done tb || cosim_dma_wr tb then (false, h)
  else let '(ok, x) := ref_snapshot_ok (ref h) in (ok, h <| ref := x |>).

(** The number of bytes that differ outside the MiSTer window. *)
Fixpoint compare_words (words : list Z) (a : nat) (x : X) : Z :=
  match words with
  | w :: words =>
    let rest := compare_words words (a + 2) x in
    if (0xA0000 <=? Z.of_nat a) && (Z.of_nat a <? 0xC0000) then rest
    else b2z (negb (Z.land w 0xFF =? ref_load a x)) + b2z (negb (Z.land (Z.shiftr w 8) 0xFF =? ref_load (a + 1) x)) + rest
  | [] => 0
  end.

Definition cosim_host_compare_ram (tb : Taps) (h : Host) : Z :=
  compare_words (take (Z.to_nat (Z.shiftl (g_ram_mb cfg) 20 / 2)) (sdram tb)) 0 (ref h).
End Cycle.

(** ** The registers *)

Section Registers.
Context {X : Type} `{Reference X}.
Notation Host := (Host X).

(** At an issue with the reference at [x], the views of register [r] differ. *)
Definition differs (r : nat) (p : IssueEv * X) : bool := negb (default 0 (i_gpr p.1 !! r) =? ref_reg r p.2).

Definition miss (h : Host) (r : nat) : Z := default 0 (g_reg_miss h !! r).
Definition miss_after (ev : IssueEv) (h : Host) (r : nat) : Z := if differs r (ev, ref h) then miss h r + 1 else 0.

(** The register comparisons of successive issues, the reference at [x] at each. *)
Fixpoint checks (l : list (IssueEv * X)) (h : Host) : bool * Host :=
  match l with
  | [] => (true, h)
  | (ev, x) :: l =>
    let '(ok, h) := check_registers ev (h <| ref := x |>) in
    if (ok : bool) then checks l h else (false, h)
  end.

(** The issues in a row, up to the last, at which a register differed. *)
Definition streak (r : nat) (l : list (IssueEv * X)) : Z := foldl (fun k p => if differs r p then k + 1 else 0) 0 l.

Lemma streak_snoc r l p : streak r (l ++ [p]) = if differs r p then streak r l + 1 else 0.
Proof. unfold streak. by rewrite foldl_app. Qed.

Lemma streak_nonneg r l : 0 <= streak r l.
Proof. induction l as [|p l IH] using rev_ind; [done|]. rewrite streak_snoc. destruct (differs r p); lia. Qed.

Lemma streak_run r l k :
  Z.of_nat k <= streak r l <-> exists pre run, l = pre ++ run /\ length run = k /\ Forall (fun p => differs r p = true) run.
Proof.
  revert k. induction l as [|p l IH] using rev_ind; intros k.
  - split.
    + intros Hk. change (streak r []) with 0 in Hk. exists [], []. split_and!; [done|cbn; lia|constructor].
    + intros (pre & run & E & <- & _). symmetry in E. apply app_nil in E as [_ ->]. done.
  - rewrite streak_snoc. destruct k as [|k].
    { split; [|intros _; pose proof (streak_nonneg r l); destruct (differs r p); lia].
      intros _. exists (l ++ [p]), []. by rewrite app_nil_r. }
    split.
    + destruct (differs r p) eqn:Ed; [|lia]. intros Hk. destruct (proj1 (IH k)) as (pre & run & -> & Hl & Hr); [lia|].
      exists pre, (run ++ [p]). rewrite length_app, app_assoc. cbn. split_and!; [done|lia|].
      apply Forall_app. split; [done|by apply Forall_singleton].
    + intros (pre & run & E & Hl & Hr). destruct run as [|q run _] using rev_ind; [done|].
      rewrite app_assoc in E. apply app_inj_tail in E as [E ->]. apply Forall_app in Hr as [Hr ->%Forall_singleton].
      rewrite length_app in Hl. cbn in Hl. assert (Z.of_nat k <= streak r l); [|lia]. apply IH. exists pre, run.
      split_and!; [done|lia|done].
Qed.

Lemma check_loop_spec ev : forall n r (h : Host),
  (r + n = 8)%nat -> length (g_reg_miss h) = 8%nat -> (forall j, (r <= j < 8)%nat -> 0 <= miss h j < 64) ->
  let '(ok, h') := check_loop n r ev h in
  if (ok : bool) then
    (forall j, (r <= j < 8)%nat -> miss h' j = miss_after ev h j /\ miss h' j < 64) /\
    (forall j, (j < r)%nat -> miss h' j = miss h j) /\ length (g_reg_miss h') = 8%nat
  else exists j, (r <= j < 8)%nat /\ miss_after ev h j = 64.
Proof.
  induction n as [|n IH]; intros r h Hn Hl Hm; cbn [check_loop].
  { split_and!; [intros; lia|done|done]. }
  cbv zeta. pose proof (Hm r ltac:(lia)) as Hr.
  assert (default 0 (i_gpr ev !! r) =? ref_reg r (ref h) = negb (differs r (ev, ref h))) as -> by (unfold differs; by rewrite negb_involutive).
  assert (forall v h1, g_reg_miss h1 = <[r := v]> (g_reg_miss h) -> ref h1 = ref h -> miss h1 r = v /\
    (forall j, j <> r -> miss h1 j = miss h j /\ miss_after ev h1 j = miss_after ev h j)) as Hup.
  { intros v h1 E Ex. unfold miss_after, miss. rewrite E, Ex. split; [rewrite list_lookup_insert_eq by lia; done|].
    intros j Hj. by rewrite list_lookup_insert_ne by done. }
  assert (forall h1 v, g_reg_miss h1 = <[r := v]> (g_reg_miss h) -> ref h1 = ref h -> v = miss_after ev h r -> v < 64 ->
    let '(ok, h') := check_loop n (S r) ev h1 in
    if (ok : bool) then
      (forall j, (r <= j < 8)%nat -> miss h' j = miss_after ev h j /\ miss h' j < 64) /\
      (forall j, (j < r)%nat -> miss h' j = miss h j) /\ length (g_reg_miss h') = 8%nat
    else exists j, (r <= j < 8)%nat /\ miss_after ev h j = 64) as Hgo.
  { intros h1 v E Ex Ev Hv. destruct (Hup v h1 E Ex) as [H1 H2]. specialize (IH (S r) h1 ltac:(lia)).
    rewrite E, length_insert in IH. specialize (IH Hl ltac:(intros j Hj; rewrite (proj1 (H2 j ltac:(lia))); apply Hm; lia)).
    destruct (check_loop n (S r) ev h1) as [[|] h'].
    - destruct IH as (A1 & A2 & A3). split_and!; [|intros j Hj; rewrite A2 by lia; by apply H2; lia|done].
      intros j Hj. destruct (decide (j = r)) as [->|Hne].
      + rewrite A2 by lia. by rewrite H1, Ev in *.
      + destruct (A1 j ltac:(lia)) as [B1 B2]. split; [|done]. rewrite B1. by apply H2.
    - destruct IH as (j & Hj & E'). exists j. split; [lia|]. rewrite <- E'. symmetry. by apply H2; lia. }
  unfold miss_after at 1 in Hgo. destruct (differs r (ev, ref h)) eqn:Ed; cbn [negb].
  - change (default 0 (g_reg_miss h !! r)) with (miss h r). rewrite (u32_id (miss h r + 1)) by (unfold is_u32; lia).
    set (h1 := if miss h r =? 0 then _ else _).
    assert (g_reg_miss h1 = <[r := miss h r + 1]> (g_reg_miss h) /\ ref h1 = ref h) as [E Ex] by (subst h1; by destruct (_ =? 0)).
    clearbody h1. destruct (Hup _ h1 E Ex) as [H1 _]. change (default 0 (g_reg_miss h1 !! r)) with (miss h1 r).
    rewrite H1. unfold kRegPersist. destruct (Z.leb_spec 64 (miss h r + 1)) as [Hge|Hlt].
    + exists r. split; [lia|]. unfold miss_after. rewrite Ed. lia.
    + by apply (Hgo h1 (miss h r + 1)).
  - by apply (Hgo _ 0).
Qed.

(** The counters hold the streaks. *)
Definition counting (l0 : list (IssueEv * X)) (h : Host) : Prop :=
  length (g_reg_miss h) = 8%nat /\ forall r, (r < 8)%nat -> miss h r = streak r l0 /\ streak r l0 < 64.

Lemma checks_streak : forall l l0 h, counting l0 h ->
  (checks l h).1 = false <->
  exists r pre suf, (r < 8)%nat /\ l = pre ++ suf /\ 64 <= streak r (l0 ++ pre).
Proof.
  induction l as [|[ev x] l IH]; intros l0 h [Hl Hc]; cbn [checks].
  - split; [done|]. intros (r & pre & suf & Hr & E & Hs). symmetry in E. apply app_nil in E as [-> _].
    rewrite app_nil_r in Hs. destruct (Hc r Hr). lia.
  - pose proof (check_loop_spec ev 8 0 (h <| ref := x |>)) as Hcl. unfold check_registers.
    specialize (Hcl eq_refl Hl). destruct (check_loop 8 0 ev (h <| ref := x |>)) as [ok h'].
    assert (forall r, (r < 8)%nat -> miss_after ev (h <| ref := x |>) r = streak r (l0 ++ [(ev, x)])) as Hafter.
    { intros r Hr. rewrite streak_snoc, <- (proj1 (Hc r Hr)). reflexivity. }
    specialize (Hcl ltac:(intros j Hj; change (miss (h <| ref := x |>) j) with (miss h j); destruct (Hc j ltac:(lia)) as [-> ?];
      pose proof (streak_nonneg j l0); lia)).
    destruct ok.
    + destruct Hcl as (A1 & _ & A3). assert (counting (l0 ++ [(ev, x)]) h') as Hc'.
      { split; [done|]. intros r Hr. destruct (A1 r ltac:(lia)) as [B1 B2]. rewrite B1, Hafter in * by done. done. }
      rewrite (IH _ _ Hc'). split.
      * intros (r & pre & suf & Hr & -> & Hs). exists r, ((ev, x) :: pre), suf. split_and!; [done|done|].
        by rewrite <- app_assoc in Hs.
      * intros (r & pre & suf & Hr & E & Hs). destruct pre as [|p pre].
        { rewrite app_nil_r in Hs. destruct (Hc r Hr). lia. }
        injection E as <- ->. exists r, pre, suf. split_and!; [done|done|]. by rewrite <- app_assoc.
    + split; [intros _|done]. destruct Hcl as (j & Hj & E). exists j, [(ev, x)], l. split_and!; [lia|done|].
      rewrite <- Hafter by lia. lia.
Qed.

(** C10: a register is reported exactly when z486's view of it has differed from
    the reference at 64 issues in a row: over any sequence of issues, each
    compared with the reference's state then, the comparison ends in a
    divergence if and only if the sequence has 64 consecutive issues at which
    the same register differs. *)
Theorem registers_exact (l : list (IssueEv * X)) (h : Host) (Hz : g_reg_miss h = replicate 8 0) :
  (checks l h).1 = false <->
  exists r pre run suf, (r < 8)%nat /\ l = pre ++ run ++ suf /\ length run = 64%nat /\
    Forall (fun p => default 0 (i_gpr p.1 !! r) <> ref_reg r p.2) run.
Proof.
  assert (counting [] h) as Hc.
  { split; [by rewrite Hz|]. intros r Hr. unfold miss. rewrite Hz, lookup_replicate_2 by done. done. }
  assert (forall r run, Forall (fun p => differs r p = true) run <-> Forall (fun p => default 0 (i_gpr p.1 !! r) <> ref_reg r p.2) run) as Hd.
  { intros r run. apply Forall_iff. intros p. unfold differs. rewrite negb_true_iff. apply Z.eqb_neq. }
  rewrite (checks_streak l [] h Hc). split.
  - intros (r & pre & suf & Hr & -> & Hs). apply (streak_run r pre 64) in Hs as (pre1 & run & -> & Hl & Hf).
    exists r, pre1, run, suf. rewrite <- app_assoc. split_and!; [done..|by apply Hd].
  - intros (r & pre & run & suf & Hr & -> & Hl & Hf). exists r, (pre ++ run), suf. rewrite <- app_assoc. split_and!; [done..|].
    apply (streak_run r (pre ++ run) 64). exists pre, run. split_and!; [done..|by apply Hd].
Qed.
End Registers.

(** ** A reference that counts *)

(** The state is EIP and the A20 gate; every instruction is one byte. *)
Definition go {A} (n : Z) (x : Z * A) : option (Status * (Z * A)) := Some (COSIM_OK, (n, x.2)).

#[export] Instance counter : Reference (Z * bool) := {
  ref_step x := go (x.1 + 1) x; ref_step_rep_to n x := go (x.1 + 1) x; ref_interrupt v x := go v x;
  ref_adopt_flags f x := x; ref_eip x := x.1; ref_cs x := 0; ref_reg r x := 0; ref_at_rep_string x := false;
  ref_last_fault x := None; ref_instructions x := x.1; ref_error x := None; ref_x87 x := []; ref_reset x := (0, x.2);
  ref_set_fpu on x := x; ref_set_a20 on x := (x.1, on); ref_dut_write a b x := Some (COSIM_OK, x);
  ref_dut_io_write a b x := (COSIM_OK, x); ref_dut_io_read a b x := x; ref_dut_dev_read a b x := x;
  ref_dma_write a b x := x; ref_walker_write a b x := x; ref_store a b x := x; ref_load a x := 0; ref_snapshot_ok x := (true, x)
}.

Definition demo_config : Config := mkConfig false false true true 1.

Definition demo_host {X} (x : X) : Host X :=
  mkHost x true None false false true false true false false [] [] [] (replicate 16 (mkLog 0 0 0 0)) 0 0 0 0 0 0 0 0 0
    (replicate 8 0) (replicate 8 0) 0 [] false 0 0 0.

(** A clock with the CPU in or out of reset, RPTI, and an issue. *)
Definition demo_taps (reset_n rpti : bool) (eip : option Z) (gprs : list Z) : Taps :=
  mkTaps reset_n true true false 0 0 0 false 0 0 false 0 0 0 false 0 false 0 0 0 rpti
    (match eip with Some _ => true | None => false end) (default 0 eip) 0 0 0 gprs true false [] [].

Definition demo_issue (eip : Z) : Taps := demo_taps true false (Some eip) (replicate 8 0).

Fixpoint run_clocks {X} `{Reference X} (cfg : Config) (t : Z) (l : list Taps) (h : Host X) : option (bool * Host X) :=
  match l with
  | [] => Some (true, h)
  | tb :: l => '(ok, h) ← cosim_host_cycle cfg t tb h; if (ok : bool) then run_clocks cfg (t + 1) l h else Some (false, h)
  end.

Lemma registers_exact_witness :
  (checks (replicate 64 (mkIssue 0 0 0 0 0 (replicate 8 1), (5, true))) (demo_host (5, true))).1 = false <->
  exists r pre run suf, (r < 8)%nat /\ replicate 64 (mkIssue 0 0 0 0 0 (replicate 8 1), (5, true)) = pre ++ run ++ suf /\
    length run = 64%nat /\ Forall (fun p => default 0 (i_gpr p.1 !! r) <> ref_reg r p.2) run.
Proof. apply (registers_exact (replicate 64 (mkIssue 0 0 0 0 0 (replicate 8 1), (5, true))) (demo_host (5, true))). reflexivity. Defined.

(** The mark of an instruction z486 restarts (RPTI) survives a CPU reset.
    With the mark set when the reset comes, the first instruction after it is
    taken for the restarted one, the reference does not run it, and the second
    issue is reported as a divergence; without the mark the same issues pass. *)
Lemma restart_survives_reset :
  let reset := [demo_taps false false None []; demo_issue 0; demo_issue 1; demo_issue 2] in
  (exists h, run_clocks demo_config 0 (demo_issue 0 :: demo_taps true false None [] :: reset) (demo_host (0, true)) = Some (true, h) /\
     ref h = (2, true)) /\
  (exists h, run_clocks demo_config 0 (demo_issue 0 :: demo_taps true true None [] :: reset) (demo_host (0, true)) = Some (false, h) /\
     ref h = (1, true) /\ g_failed h = Some (DIssue 0 1 0 1)).
Proof. split; eexists; split_and!; vm_compute; reflexivity. Qed.
