(* ===== verification/MainLoop.v ===== *)
(** * The main loop

    The loop of [main] in verilator/main.cpp, one iteration per clock of the
    system: what happens before the clock (snapshots, CPU speeds, the control
    socket, the soft reset, the drives), the two half cycles with the keyboard,
    the mouse, the co-simulation and the picture, and what follows them (plane
    dumps, the BIOS's port, checkpoints, the window, the reports).  The parts
    are those of the other files; the simulated model is a class, [Model].

    Every iteration is one clock: the devices, the co-simulation and the picture
    are served once, around the rising edge ([loop_synchronous]).  The CPU
    speeds of the command line follow their schedule when it is in order
    ([speeds_scheduled]), and only then ([speed_blocked]). *)
From S2P Require Import Prelude IdeTypes IdeCommand IdeTick IdeSafety Floppy SharedBus Text Screen Input Keyboard Control Window Ddr Clock.
From S2P Require Import Video Config Options Monitor Console CosimHost.

(** What the harness drives, and its view of the model. *)
Record Driven := mkDriven {
  d_ps2 : Ps2Ports;
  d_soft_reset : bool;
  d_status : Z;              (* uint64_t *)
  d_bus : Bus
}.

Class Model (Core : Type) := {
  eval : Driven -> Core -> CoreIn -> Core * CoreOut;
  management : Core -> IdeSafety.Inputs;
  sim_kbd_host_data : Core -> Z;
  video_out : Core -> VideoOut;
  text_mode : Core -> TextMode;
  debug : Core -> Debug;
  dbg_uart : Core -> bool * Z;         (* the write strobe and the byte *)
  model_taps : Core -> Taps
}.

(** What an iteration meets outside: the host's clocks, the files, the lines of
    the control socket, the window's events. *)
Record Turn := mkTurn {
  snapshot_due : bool; snapshot_written : bool;
  commands : list (list Z);
  checkpoint_due : bool; checkpoint_written : bool;
  window_events : list SdlEvent; render_due : bool
}.

Record Loop (Core X : Type) := mkLoop {
  sim : Sim Core;
  ports : Ps2Ports;
  soft_reset : bool;
  status : Z;
  drives : Drives;
  bus : Bus;
  host : Host X;
  video : Video;
  gui : Gui;
  console : Console;
  monitor : Monitor;
  next_cpu_speed_event : nat;
  next_control_poll_cycle : Z;
  next_gui_poll_cycle : Z;
  next_vga_plane_event : nat;
  bios_dbg_wr_prev : bool;
  uart : list Z;                (* the bytes printed *)
  planes : list (list Z);       (* calls of dump_vga_planes *)
  snapshots : list Z            (* cycles of the calls of save_snapshot *)
}.
#[global] Arguments mkLoop {Core X}.
#[global] Arguments sim {Core X}.
#[global] Arguments ports {Core X}.
#[global] Arguments soft_reset {Core X}.
#[global] Arguments status {Core X}.
#[global] Arguments drives {Core X}.
#[global] Arguments bus {Core X}.
#[global] Arguments host {Core X}.
#[global] Arguments video {Core X}.
#[global] Arguments gui {Core X}.
#[global] Arguments console {Core X}.
#[global] Arguments monitor {Core X}.
#[global] Arguments next_cpu_speed_event {Core X}.
#[global] Arguments next_control_poll_cycle {Core X}.
#[global] Arguments next_gui_poll_cycle {Core X}.
#[global] Arguments next_vga_plane_event {Core X}.
#[global] Arguments bios_dbg_wr_prev {Core X}.
#[global] Arguments uart {Core X}.
#[global] Arguments planes {Core X}.
#[global] Arguments snapshots {Core X}.

#[export] Instance eta_Loop Core X : Eta (Loop Core X) := fun r =>
  mkLoop (sim r) (ports r) (soft_reset r) (status r) (drives r) (bus r) (host r) (video r) (gui r) (console r) (monitor r)
    (next_cpu_speed_event r) (next_control_poll_cycle r) (next_gui_poll_cycle r) (next_vga_plane_event r)
    (bios_dbg_wr_prev r) (uart r) (planes r) (snapshots r).

(** An iteration goes through, or leaves the loop. *)
Inductive Iterated (L : Type) := Next (l : L) | Broken (l : L).
#[global] Arguments Next {L}.
#[global] Arguments Broken {L}.

(** The run behind some iterations: [cycle] is the next one. *)
Inductive Run (L : Type) := Over (cycle : Z) (l : L) | Running (cycle : Z) (l : L).
#[global] Arguments Over {L}.
#[global] Arguments Running {L}.

Definition POLL_CYCLES : Z := 2048.

Section MainLoop.
Context `{Sdl} {Core X : Type} `{Model Core} `{Reference X}.
Context (o : Options) (cosim_config : CosimHost.Config).

Notation Loop := (Loop Core X).

Definition on_control (f : Control -> Control) (l : Loop) : Loop := l <| gui := gui l <| control := f (control (gui l)) |> |>.
Definition is_running (l : Loop) : bool := running (control (gui l)).
Definition stop_running (l : Loop) : Loop := on_control (fun c => c <| running := false |>) l.
Definition driven (l : Loop) : Driven := mkDriven (ports l) (soft_reset l) (status l) (bus l).
Definition with_ps2 (x : Ps2 * Ps2Ports) (l : Loop) : Loop :=
  on_control (fun c => c <| ps2 := x.1 |>) l <| ports := x.2 |>.
Definition the_ps2 (l : Loop) : Ps2 := ps2 (control (gui l)).

(** ** Before the clock *)

Definition snapshot_step (t : Turn) (cycle : Z) (l : Loop) : Iterated Loop :=
  if negb (is_nil (snapshot_dir o)) && snapshot_due t then
    let '(ready, h) := cosim_host_snapshot_ready (model_taps (core (sim l))) (host l) in
    let l := l <| host := h |> in
    if ready then
      if snapshot_written t then Next (l <| snapshots := snapshots l ++ [cycle] |>) else Broken (stop_running l)
    else Next l
  else Next l.

(** The loop over the events of this very cycle: how many, and the status. *)
Fixpoint due_speeds (cycle : Z) (events : list (Z * Z)) (s : Z) : nat * Z :=
  match events with
  | (at_cycle, speed) :: events =>
    if at_cycle =? cycle then let '(n, s) := due_speeds cycle events (set_cpu_speed s speed) in (S n, s) else (0%nat, s)
  | [] => (0%nat, s)
  end.

Definition speed_step (cycle : Z) (l : Loop) : Loop :=
  let '(n, s) := due_speeds cycle (drop (next_cpu_speed_event l) (cpu_speed_events o)) (status l) in
  l <| next_cpu_speed_event := (next_cpu_speed_event l + n)%nat |> <| status := s |>.

Definition control_step (t : Turn) (cycle : Z) (l : Loop) : option (Iterated Loop) :=
  if negb (control_port o =? 0) && (next_control_poll_cycle l <=? cycle) then
    let l := l <| next_control_poll_cycle := u64 (cycle + POLL_CYCLES) |> in
    c ← process_commands (screenshot_dir o) (sim_time (sim l)) cycle (commands t) (control (gui l));
    let l := on_control (fun _ => c) l in
    Some (if running c then Next l else Broken l)
  else Some (Next l).

Definition soft_reset_step (l : Loop) : Loop :=
  let n := sim_soft_reset_cycles (gui l) in
  l <| soft_reset := 0 <? n |> <| gui := gui l <| sim_soft_reset_cycles := if 0 <? n then n - 1 else n |> |>.

Definition manage_step (l : Loop) : option Loop :=
  '(d, tb) ← manage (floppy_writable o) (drives l) (IdeSafety.sample (management (core (sim l))) (bus l));
  Some (l <| drives := d |> <| bus := tb |>).

(** ** A half cycle *)

Definition cosim_step (l : Loop) : option Loop :=
  if cosim_on o then
    '(ok, h) ← cosim_host_cycle cosim_config (sim_time (sim l)) (model_taps (core (sim l))) (host l);
    let l := l <| host := h |> in
    Some (if (ok : bool) then l else stop_running l)
  else Some l.

(** The bytes of the keyboard and the mouse, then the co-simulation. *)
Definition serve (cycle : Z) (l : Loop) : option Loop :=
  let l := with_ps2 (keyboard_send_pre cycle (the_ps2 l) (ports l)) l in
  let l := with_ps2 (mouse_send_pre cycle (the_ps2 l) (ports l)) l in
  cosim_step l.

Definition step_settings : Settings :=
  mkSettings (Options.g_no_audio_clock o) (record_audio o) (Options.arm_trace_on_flatline o) (Options.flatline_trace_window o).

Definition clock_step (l : Loop) : option Loop :=
  s ← Clock.step (eval (driven l)) step_settings (sim l);
  Some (l <| sim := s |>).

(** Whether [consume_video] shows a frame. *)
Definition frame_shown (cycle : Z) (out : VideoOut) (v : Video) : bool :=
  video_vs out && negb (prev_vs v) &&
  negb (negb (last_full_frame_cycle v =? 0) && (u64 (cycle - last_full_frame_cycle v) <? MIN_FRAME_CYCLES)).

Definition frame_sources (l : Loop) : Frames :=
  mkFrames (fb_mem (ddr (sim l))) (fb_palette (sim l)) (zsst_mem (sim l)) (Options.fb_1555 o) (Options.fb_bgr o).

(** The checks at a frame; the control part is the loop's. *)
Definition frame_step (cycle : Z) (l : Loop) : option Loop :=
  let f := mkFrame cycle (sim_time (sim l)) (text_mode (core (sim l))) (saw_boot_sector (monitor l)) (saw_post_boot_exec (monitor l)) in
  c ← frame (screenshot_dir o) (screenshot_interval_cycles o) (stop_on_text o) (text_key_events o) (screen_check_cycles o)
        (negb (is_nil (zsst_write_trace_path o))) f (console l <| ctl := control (gui l) |>);
  Some (on_control (fun _ => ctl c) (l <| console := c |>)).

Definition picture_step (cycle : Z) (l : Loop) : option Loop :=
  let out := video_out (core (sim l)) in
  let shown := frame_shown cycle out (video l) in
  v ← consume_video cycle out (frame_sources l) (video l);
  let l := l <| video := v |> in
  if shown then frame_step cycle l else Some l.

Definition observe_step (l : Loop) : Loop :=
  with_ps2 (keyboard_observe_post (posedge (sim l)) (sim_kbd_host_data (core (sim l))) (the_ps2 l) (ports l)) l.

(** [if (!tb.clk_sys) ...; step(); keyboard_observe_post(); consume_video();] *)
Definition half (cycle : Z) (l : Loop) : option Loop :=
  l ← (if negb (clk_sys (cin (sim l))) then serve cycle l else Some l);
  l ← clock_step l;
  let l := observe_step l in
  if posedge (sim l) then picture_step cycle l else Some l.

(** ** Behind the clock *)

(** The number of events that are due. *)
Fixpoint due_planes (cycle : Z) (events : list (Z * list Z)) : list (list Z) :=
  match events with
  | (at_cycle, path) :: events => if at_cycle <=? cycle then path :: due_planes cycle events else []
  | [] => []
  end.

Definition planes_step (cycle : Z) (l : Loop) : Loop :=
  let paths := due_planes cycle (drop (next_vga_plane_event l) (vga_plane_events o)) in
  l <| planes := planes l ++ paths |> <| next_vga_plane_event := (next_vga_plane_event l + length paths)%nat |>.

Definition uart_step (l : Loop) : Loop :=
  let '(we, byte) := dbg_uart (core (sim l)) in
  let l := if we && negb (bios_dbg_wr_prev l) then l <| uart := uart l ++ [byte] |> else l in
  l <| bios_dbg_wr_prev := we |>.

Definition checkpoint_step (t : Turn) (cycle : Z) (l : Loop) : Loop :=
  if negb (is_nil (Control.checkpoint_dir (control (gui l)))) && negb (checkpoint_interval_sec o =? 0) && checkpoint_due t then
    let l := on_control (fun c => c <| checkpoints := checkpoints c ++ [cycle] |>) l in
    if checkpoint_written t then l else stop_running l
  else l.

(** The window's events, then the picture, when there is one. *)
Definition window_step (t : Turn) (cycle : Z) (l : Loop) : option Loop :=
  if negb (g_headless o) && (next_gui_poll_cycle l <=? cycle) then
    let l := l <| next_gui_poll_cycle := u64 (cycle + POLL_CYCLES) |> in
    g ← handle_events cycle (window_events t) (gui l <| Window.present_dirty := Video.present_dirty (video l) |>);
    let dirty := Window.present_dirty g && negb (render_due t) in
    Some (l <| gui := g |> <| video := video l <| Video.present_dirty := dirty |> |>)
  else Some l.

Definition report_step (l : Loop) : Loop := l <| monitor := observe (monitor l) (debug (core (sim l))) |>.

(** ** The loop *)

Definition before (t : Turn) (cycle : Z) (l : Loop) : option (Iterated Loop) :=
  let l := l <| sim := sim l <| current_cycle := cycle |> |> in
  match snapshot_step t cycle l with
  | Broken l => Some (Broken l)
  | Next l => control_step t cycle (speed_step cycle l)
  end.

Definition behind (t : Turn) (cycle : Z) (l : Loop) : option Loop :=
  l ← window_step t cycle (checkpoint_step t cycle (uart_step l)); Some (report_step l).

Definition iterate (t : Turn) (cycle : Z) (l : Loop) : option (Iterated Loop) :=
  r ← before t cycle l;
  match r with
  | Broken l => Some (Broken l)
  | Next l =>
    l ← manage_step (soft_reset_step l);
    l ← half cycle l;
    l ← half cycle (planes_step cycle l);
    l ← behind t cycle l;
    Some (Next l)
  end.

Definition goes_on (cycle : Z) (l : Loop) : bool :=
  (cycle <? max_cycles o) && is_running l &&
  ((force_stop_cycle (flatline (sim l)) =? 0) || (cycle <? force_stop_cycle (flatline (sim l)))).

(** Where the schedule of the CPU speeds is entered. *)
Fixpoint past_speeds (start : Z) (events : list (Z * Z)) : nat :=
  match events with
  | (at_cycle, _) :: events => if at_cycle <? start then S (past_speeds start events) else 0%nat
  | [] => 0%nat
  end.

Definition enter_loop (start : Z) (l : Loop) : Loop :=
  l <| next_control_poll_cycle := start |> <| next_gui_poll_cycle := start |> <| next_vga_plane_event := 0%nat |>
    <| next_cpu_speed_event := past_speeds start (cpu_speed_events o) |>.

(** As many iterations as there are turns. *)
Fixpoint main_loop (ts : list Turn) (cycle : Z) (l : Loop) : option (Run Loop) :=
  if goes_on cycle l then
    match ts with
    | [] => Some (Running cycle l)
    | t :: ts =>
      r ← iterate t cycle l;
      match r with Next l => main_loop ts (cycle + 1) l | Broken l => Some (Over cycle l) end
    end
  else Some (Over cycle l).
(** ** One clock an iteration *)

(** What an iteration amounts to: the devices are served and the co-simulation
    sees the coming edge once; the model rises, is observed, and falls. *)
Definition rising (cycle : Z) (l : Loop) : option Loop :=
  l ← serve cycle l;
  l ← clock_step l;
  picture_step cycle (observe_step l).

Definition one_clock (t : Turn) (cycle : Z) (l : Loop) : option (Iterated Loop) :=
  r ← before t cycle l;
  match r with
  | Broken l => Some (Broken l)
  | Next l =>
    l ← manage_step (soft_reset_step l);
    l ← rising cycle l;
    l ← clock_step (planes_step cycle l);
    l ← behind t cycle l;
    Some (Next l)
  end.

Fixpoint clocks (ts : list Turn) (cycle : Z) (l : Loop) : option (Run Loop) :=
  if goes_on cycle l then
    match ts with
    | [] => Some (Running cycle l)
    | t :: ts =>
      r ← one_clock t cycle l;
      match r with Next l => clocks ts (cycle + 1) l | Broken l => Some (Over cycle l) end
    end
  else Some (Over cycle l).

(** The clock's level and the time. *)
Definition phase (l : Loop) : bool * Z := (clk_sys (cin (sim l)), sim_time (sim l)).

Definition sim_phase (s : Sim Core) : bool * bool * Z := (clk_sys (cin s), posedge s, sim_time s).

Lemma audio_loop_phase e cfg fuel : forall (s s' : Sim Core), audio_loop e cfg fuel s = Some s' -> sim_phase s' = sim_phase s.
Proof.
  induction fuel as [|fuel IH]; intros s s' E; cbn [audio_loop] in E; destruct (2 * SIM_SYS_CLOCK_HZ <=? audio_clock_accum s).
  1,2,4: congruence.
  rewrite (IH _ _ E). unfold audio_edge, audio_sample, do_eval. cbv zeta. destruct (e _ _) as [c out].
  destruct (_ && _); [|done]. cbv zeta. by destruct (_ <=? _).
Qed.

Lemma step_phase e cfg (s s' : Sim Core) : Clock.step e cfg s = Some s' ->
  sim_phase s' = (negb (clk_sys (cin s)), negb (clk_sys (cin s)), u64 (sim_time s + 1)).
Proof.
  unfold Clock.step. cbv zeta. intros E. apply bind_Some in E as (s1 & E1 & E). apply bind_Some in E as (s2 & E2 & [= <-]).
  unfold audio_advance in E1. cbv zeta in E1. apply audio_loop_phase in E1.
  assert (sim_phase s2 = sim_phase s1) as P2.
  { destruct (posedge s1); [|congruence]. unfold on_posedge in E2. cbv zeta in E2.
    apply bind_Some in E2 as (d & _ & E2). apply bind_Some in E2 as (p & _ & [= <-]). done. }
  unfold sim_phase in *. cbn. apply pair_eq in P2 as [[P1 P3]%pair_eq P2]. cbn in P1, P2, P3. rewrite P1, P2, P3. clear P1 P2 P3 E2.
  destruct (Clock.g_no_audio_clock cfg); unfold do_eval in E1; destruct (e _ _) in E1; cbn in E1; by injection E1 as -> -> ->.
Qed.

(** What the other steps leave alone. *)
Definition part (l : Loop) : Sim Core * (Z * nat) := (sim l, (status l, next_cpu_speed_event l)).

Lemma part_sim (l l' : Loop) : part l' = part l -> sim l' = sim l.
Proof. by intros [E _]%pair_eq. Qed.

Lemma cosim_part l l' : cosim_step l = Some l' -> part l' = part l.
Proof.
  unfold cosim_step. destruct (cosim_on o); [|congruence]. intros ([ok h] & _ & [= <-])%bind_Some. by destruct ok.
Qed.

Lemma serve_part cycle l l' : serve cycle l = Some l' -> part l' = part l.
Proof. unfold serve. cbv zeta. by intros ->%cosim_part. Qed.

Lemma frame_part cycle l l' : frame_step cycle l = Some l' -> part l' = part l.
Proof. unfold frame_step. cbv zeta. by intros (c & _ & [= <-])%bind_Some. Qed.

Lemma picture_part cycle l l' : picture_step cycle l = Some l' -> part l' = part l.
Proof.
  unfold picture_step. cbv zeta. intros (v & _ & E)%bind_Some. destruct (frame_shown _ _ _); [by apply frame_part in E|by injection E as <-].
Qed.

Lemma clock_part l l' : clock_step l = Some l' ->
  sim_phase (sim l') = (negb (clk_sys (cin (sim l))), negb (clk_sys (cin (sim l))), u64 (sim_time (sim l) + 1)) /\
  (part l').2 = (part l).2.
Proof. unfold clock_step. by intros (s & E%step_phase & [= <-])%bind_Some. Qed.

Lemma manage_part l l' : manage_step l = Some l' -> part l' = part l.
Proof. unfold manage_step. by intros ([d tb] & _ & [= <-])%bind_Some. Qed.

Lemma window_part t cycle l l' : window_step t cycle l = Some l' -> part l' = part l.
Proof.
  unfold window_step. destruct (_ && _); [|congruence]. cbv zeta. by intros (g & _ & [= <-])%bind_Some.
Qed.

Lemma behind_part t cycle l l' : behind t cycle l = Some l' -> part l' = part l.
Proof.
  unfold behind. intros (l1 & E%window_part & [= <-])%bind_Some. change (part (report_step l1)) with (part l1). rewrite E.
  unfold checkpoint_step, uart_step. destruct (dbg_uart (core (sim l))) as [we byte]. cbv zeta.
  destruct (we && negb (bios_dbg_wr_prev l)); destruct (_ && checkpoint_due t); try done; by destruct (checkpoint_written t).
Qed.

Definition loop_of (r : Iterated Loop) : Loop := match r with Next l | Broken l => l end.

(** The status and the place in the schedule behind the events of a cycle. *)
Definition speeds_after (cycle : Z) (v : Z * nat) : Z * nat :=
  let '(n, s) := due_speeds cycle (drop v.2 (cpu_speed_events o)) v.1 in (s, (v.2 + n)%nat).

Lemma speed_part cycle l : part (speed_step cycle l) = (sim l, speeds_after cycle (part l).2).
Proof. unfold speed_step, speeds_after. cbn [part fst snd]. by destruct (due_speeds _ _ _). Qed.

Lemma snapshot_part t cycle l : part (loop_of (snapshot_step t cycle l)) = part l.
Proof.
  unfold snapshot_step. destruct (_ && _); [|done]. destruct (cosim_host_snapshot_ready _ _) as [[] h]; cbv zeta; [|done].
  by destruct (snapshot_written t).
Qed.

Lemma control_part t cycle l r : control_step t cycle l = Some r -> part (loop_of r) = part l.
Proof.
  unfold control_step. destruct (_ && _); [|by intros [= <-]]. cbv zeta. intros (c & _ & [= <-])%bind_Some. by destruct (running c).
Qed.

Lemma before_part t cycle l r : before t cycle l = Some r ->
  phase (loop_of r) = phase l /\
  match r with Next l' => (part l').2 = speeds_after cycle (part l).2 | Broken _ => True end.
Proof.
  unfold before. cbv zeta. pose proof (snapshot_part t cycle (l <| sim := sim l <| current_cycle := cycle |> |>)) as Es.
  destruct (snapshot_step _ _ _) as [l1|l1]; cbn [loop_of] in Es; apply pair_eq in Es as [Es1 Es2].
  - intros E%control_part. rewrite speed_part in E. apply pair_eq in E as [E1 E2]. split.
    + unfold phase. by rewrite E1, Es1.
    + destruct r; [|done]. cbn [loop_of part fst snd] in *. by rewrite E2, Es2.
  - intros [= <-]. split; [|done]. unfold phase. cbn [loop_of]. by rewrite Es1.
Qed.

Lemma with_same l : with_ps2 (the_ps2 l, ports l) l = l.
Proof. destruct l as [s p sr st d b h v g c m]. by destruct g as [[]]. Qed.

Lemma falling_observed l : posedge (sim l) = false -> observe_step l = l.
Proof. intros Hp. unfold observe_step, keyboard_observe_post. rewrite Hp. apply with_same. Qed.

(** The halves of an iteration that begins with the clock low. *)
Lemma half_low cycle l : clk_sys (cin (sim l)) = false -> half cycle l = rising cycle l.
Proof.
  intros Hc. unfold half, rising. rewrite Hc. cbn [negb].
  destruct (serve cycle l) as [l1|] eqn:E1; [|done]. cbn [mbind option_bind]. apply serve_part, part_sim in E1.
  destruct (clock_step l1) as [l2|] eqn:E2; [|done]. cbn [mbind option_bind]. cbv zeta. apply clock_part in E2 as [E2 _].
  rewrite E1, Hc in E2. apply pair_eq in E2 as [[_ E2]%pair_eq _]. cbn [negb] in E2.
  change (sim (observe_step l2)) with (sim l2). by rewrite E2.
Qed.

Lemma half_high cycle l : clk_sys (cin (sim l)) = true -> half cycle l = clock_step l.
Proof.
  intros Hc. unfold half. rewrite Hc. cbn [negb mbind option_bind].
  destruct (clock_step l) as [l2|] eqn:E2; [|done]. cbn [mbind option_bind]. cbv zeta. apply clock_part in E2 as [E2 _].
  rewrite Hc in E2. apply pair_eq in E2 as [[_ E2]%pair_eq _]. cbn [negb] in E2. rewrite falling_observed by done. by rewrite E2.
Qed.

Lemma rising_phase cycle l l' : rising cycle l = Some l' ->
  phase l' = (negb (clk_sys (cin (sim l))), u64 (sim_time (sim l) + 1)).
Proof.
  unfold rising. intros (l1 & E1%serve_part%part_sim & (l2 & [E2 _]%clock_part & E3%picture_part%part_sim)%bind_Some)%bind_Some.
  unfold phase. rewrite E3. change (sim (observe_step l2)) with (sim l2). rewrite E1 in E2.
  by apply pair_eq in E2 as [[-> _]%pair_eq ->].
Qed.

(** An iteration is one clock, and takes two half cycles of the time. *)
Lemma iterate_clock t cycle l : clk_sys (cin (sim l)) = false ->
  iterate t cycle l = one_clock t cycle l /\
  forall r, one_clock t cycle l = Some r -> match r with
    | Next l' => phase l' = (false, u64 (u64 (sim_time (sim l) + 1) + 1))
    | Broken l' => phase l' = phase l
    end.
Proof.
  intros Hc. unfold iterate, one_clock. destruct (before t cycle l) as [r|] eqn:E0; [|done]. apply before_part in E0 as [E0 _].
  cbn [mbind option_bind]. destruct r as [l0|l0]; cbn [loop_of] in E0; [|split; [done|by intros r [= <-]]].
  destruct (manage_step (soft_reset_step l0)) as [l1|] eqn:E1; [|done]. apply manage_part, part_sim in E1. cbn [mbind option_bind].
  change (sim (soft_reset_step l0)) with (sim l0) in E1.
  assert (phase l1 = (false, sim_time (sim l))) as P1.
  { unfold phase. rewrite E1. change (phase l0 = (false, sim_time (sim l))). rewrite E0. unfold phase. by rewrite Hc. }
  apply pair_eq in P1 as [P1 T1]. rewrite (half_low cycle l1 P1). destruct (rising cycle l1) as [l2|] eqn:E2; [|done].
  apply rising_phase in E2. rewrite P1, T1 in E2. cbn [mbind option_bind negb] in *.
  change (phase (planes_step cycle l2) = (true, u64 (sim_time (sim l) + 1))) in E2. apply pair_eq in E2 as [P2 T2].
  rewrite (half_high cycle _ P2). destruct (clock_step (planes_step cycle l2)) as [l3|] eqn:E3; [|done].
  apply clock_part in E3 as [E3 _]. rewrite P2, T2 in E3. apply pair_eq in E3 as [[P3 _]%pair_eq T3]. cbn [mbind option_bind negb] in *.
  destruct (behind t cycle l3) as [l4|] eqn:E4; [|done]. apply behind_part, part_sim in E4. split; [done|]. intros r [= <-].
  unfold phase. by rewrite E4, P3, T3.
Qed.

(** The next cycle of a run, and its state. *)
Definition arrived (r : Run Loop) : Z * Loop := match r with Over c l | Running c l => (c, l) end.

Lemma stay cycle n l : clk_sys (cin (sim l)) = false ->
  cycle <= cycle <= cycle + Z.of_nat n /\ phase l = (false, sim_time (sim l) + 2 * (cycle - cycle)).
Proof. intros Hc. unfold phase. rewrite Hc, Z.sub_diag, Z.add_0_r. split; [lia|done]. Qed.

Lemma clocks_run ts : forall cycle l,
  clk_sys (cin (sim l)) = false -> 0 <= sim_time (sim l) -> sim_time (sim l) + 2 * Z.of_nat (length ts) < 18446744073709551616 ->
  main_loop ts cycle l = clocks ts cycle l /\
  forall r, main_loop ts cycle l = Some r ->
    cycle <= (arrived r).1 <= cycle + Z.of_nat (length ts) /\
    phase (arrived r).2 = (false, sim_time (sim l) + 2 * ((arrived r).1 - cycle)) /\
    match r with Running c _ => c = cycle + Z.of_nat (length ts) /\ c < max_cycles o | Over _ _ => True end.
Proof.
  induction ts as [|t ts IH]; intros cycle l Hc Hpos Ht; cbn [main_loop clocks].
  - split; [done|]. destruct (stay cycle 0 l Hc) as [B P]. intros r E. destruct (goes_on cycle l) eqn:Eg; injection E as <-;
      (split; [exact B|split; [exact P|]]); [|done]. cbn [length]. unfold goes_on in Eg.
    apply andb_true_iff in Eg as [[Eg _]%andb_true_iff _]. lia.
  - destruct (goes_on cycle l); [|split; [done|]; intros r [= <-]; by destruct (stay cycle (length (t :: ts)) l Hc)].
    destruct (iterate_clock t cycle l Hc) as [-> Hi]. destruct (one_clock t cycle l) as [r|] eqn:E1; [|done].
    cbn [mbind option_bind]. specialize (Hi r eq_refl). destruct r as [l1|l1].
    + cbn [length] in Ht. rewrite Nat2Z.inj_succ in Ht. rewrite !u64_id in Hi by (unfold is_u64; rewrite ?u64_id; unfold is_u64; lia).
      apply pair_eq in Hi as [Hi1 Hi2]. destruct (IH (cycle + 1) l1 Hi1) as [IH1 IH2]; [lia..|]. split; [done|].
      intros r Er. destruct (IH2 r Er) as (B & P & R). cbn [length]. rewrite Nat2Z.inj_succ. rewrite Hi2 in P.
      split_and!; [lia|lia| |destruct r; [done|]; split; lia]. rewrite P. f_equal. lia.
    + split; [done|]. intros r [= <-]. cbn [arrived fst snd]. rewrite Hi. by destruct (stay cycle (length (t :: ts)) l Hc).
Qed.

(** C12: the main loop from a low clock is the loop of [one_clock]: in every
    iteration the keyboard, the mouse and the co-simulation are served exactly
    once, before the one rising edge, and the picture and the commands of the
    keyboard are taken at that edge only.  The time advances by two half cycles
    an iteration, and a run with turns up to the last cycle given is over. *)
Theorem loop_synchronous ts cycle l :
  clk_sys (cin (sim l)) = false -> 0 <= sim_time (sim l) -> sim_time (sim l) + 2 * Z.of_nat (length ts) < 2 ^ 64 ->
  main_loop ts cycle l = clocks ts cycle l /\
  forall r, main_loop ts cycle l = Some r ->
    cycle <= (arrived r).1 <= cycle + Z.of_nat (length ts) /\
    phase (arrived r).2 = (false, sim_time (sim l) + 2 * ((arrived r).1 - cycle)) /\
    (max_cycles o <= cycle + Z.of_nat (length ts) -> exists c l', r = Over c l').
Proof.
  change (2 ^ 64) with 18446744073709551616. intros Hc Hpos Ht. destruct (clocks_run ts cycle l Hc Hpos Ht) as [E Hr]. split; [done|].
  intros r Er. destruct (Hr r Er) as (B & P & R). split_and!; [lia|lia|done|]. intros Hm. destruct r as [c l'|c l']; [by exists c, l'|lia].
Qed.

(** ** The CPU speeds *)

Lemma half_part cycle l l' : half cycle l = Some l' -> (part l').2 = (part l).2.
Proof.
  unfold half. intros (l1 & E1 & (l2 & [_ E2]%clock_part & E3)%bind_Some)%bind_Some. cbv zeta in E3.
  assert (part l1 = part l) as P1 by (destruct (negb _); [by apply serve_part in E1|congruence]).
  assert ((part l').2 = (part l2).2) as ->; [|by rewrite E2, P1].
  change (part l2) with (part (observe_step l2)). destruct (posedge _); [by apply picture_part in E3 as ->|congruence].
Qed.

Lemma iterate_speeds t cycle l l' : iterate t cycle l = Some (Next l') -> (part l').2 = speeds_after cycle (part l).2.
Proof.
  unfold iterate. intros (r & [_ E0]%before_part & E)%bind_Some. destruct r as [l0|l0]; [|done].
  apply bind_Some in E as (l1 & E1%manage_part & E). apply bind_Some in E as (l2 & E2%half_part & E).
  apply bind_Some in E as (l3 & E3%half_part & E). apply bind_Some in E as (l4 & E4%behind_part & [= <-]).
  rewrite E4, E3. change (part (planes_step cycle l2)).2 with (part l2).2. rewrite E2, E1. exact E0.
Qed.

Lemma filter_none a b (events : list (Z * Z)) : Forall (fun e => ~ (a <= e.1 < b)) events -> filter (fun e => a <= e.1 < b) events = [].
Proof. induction 1 as [|e events He _ IH]; [done|]. by rewrite filter_cons, decide_False. Qed.

(** Schedules in order of time. *)
Definition in_time : list (Z * Z) -> Prop := Sorted.StronglySorted (fun e f => e.1 <= f.1).

Lemma past_none c events : Forall (fun e => c <= e.1) events -> past_speeds c events = 0%nat.
Proof. destruct events as [|[x v] events]; [done|]. inversion 1; subst. cbn in *. by rewrite (proj2 (Z.ltb_ge _ _)). Qed.

(** The events due at a cycle are those between two places in the schedule. *)
Lemma due_past c events s : in_time events ->
  due_speeds c (drop (past_speeds c events) events) s =
  ((past_speeds (c + 1) events - past_speeds c events)%nat,
   fold_left set_cpu_speed (map snd (filter (fun e => c <= e.1 < c + 1) events)) s).
Proof.
  intros Hs. revert s. induction Hs as [|[x v] events Hs IH Hx]; intros s; [done|]. cbn [past_speeds]. rewrite filter_cons. cbn [fst].
  destruct (Z.ltb_spec x c) as [Hlt|Hge].
  - rewrite (proj2 (Z.ltb_lt x (c + 1))) by lia. rewrite decide_False by lia. cbn [drop Nat.sub]. apply IH.
  - cbn [drop due_speeds]. assert (Forall (fun e => c <= e.1) events) as Hc by (eapply Forall_impl; [exact Hx|cbn; lia]).
    rewrite (past_none c events Hc) in IH. rewrite drop_0 in IH. destruct (Z.eqb_spec x c) as [->|Hne].
    + rewrite (proj2 (Z.ltb_lt c (c + 1))) by lia. rewrite decide_True by lia. cbn [map snd fold_left]. rewrite IH. f_equal. lia.
    + rewrite (proj2 (Z.ltb_ge x (c + 1))) by lia. rewrite decide_False by lia. f_equal.
      rewrite filter_none; [done|]. eapply Forall_impl; [exact Hx|]. cbn. lia.
Qed.

Lemma past_mono c events : in_time events -> (past_speeds c events <= past_speeds (c + 1) events)%nat.
Proof.
  induction 1 as [|[x v] events Hs IH Hx]; [done|]. cbn [past_speeds]. destruct (Z.ltb_spec x c), (Z.ltb_spec x (c + 1)); lia.
Qed.

(** Two spans of a schedule, one behind the other. *)
Lemma filter_spans a b c (events : list (Z * Z)) : in_time events -> a <= b <= c ->
  filter (fun e => a <= e.1 < c) events = filter (fun e => a <= e.1 < b) events ++ filter (fun e => b <= e.1 < c) events.
Proof.
  intros Hs Hb. induction Hs as [|[x v] events Hs IH Hx]; [done|]. rewrite !filter_cons. cbn [fst].
  destruct (decide (a <= x < b)).
  - rewrite !decide_True by lia. rewrite decide_False by lia. by rewrite IH.
  - destruct (decide (b <= x < c)).
    + rewrite !decide_True by lia. rewrite IH, (filter_none a b); [done|].
      eapply Forall_impl; [exact Hx|]. cbn. lia.
    + rewrite !decide_False by lia. exact IH.
Qed.

Lemma speeds_run ts : in_time (cpu_speed_events o) -> forall cycle l c' l',
  next_cpu_speed_event l = past_speeds cycle (cpu_speed_events o) ->
  main_loop ts cycle l = Some (Running c' l') ->
  cycle <= c' /\
  (part l').2 = (fold_left set_cpu_speed (map snd (filter (fun e => cycle <= e.1 < c') (cpu_speed_events o))) (status l),
                past_speeds c' (cpu_speed_events o)).
Proof.
  intros Hs. induction ts as [|t ts IH]; intros cycle l c' l' Hn E; cbn [main_loop] in E; destruct (goes_on cycle l); try done.
  - injection E as <- <-. split; [lia|]. cbn [part snd]. rewrite Hn. f_equal.
    rewrite filter_none; [done|]. apply Forall_forall. lia.
  - apply bind_Some in E as (r & E1 & E). destruct r as [l1|l1]; [|done]. apply iterate_speeds in E1.
    unfold speeds_after in E1. cbn [part fst snd] in E1. rewrite Hn, due_past in E1 by done. apply pair_eq in E1 as [E1 E2].
    pose proof (past_mono cycle _ Hs) as Hm.
    destruct (IH (cycle + 1) l1 c' l') as [H2 H3]; [rewrite E2; lia|done|]. split; [lia|]. rewrite H3, E1.
    rewrite (filter_spans cycle (cycle + 1) c') by (done || lia). by rewrite map_app, fold_left_app.
Qed.

(** With the events of --cpu-speed-at in order of time, the model's speed
    selection behind the iterations of the cycles from [cycle] to before [c']
    is that of the last event among these cycles, the earlier ones being taken
    as passed, and every other bit of the status is as it was. *)
Lemma speeds_scheduled ts cycle l c' l' :
  in_time (cpu_speed_events o) -> Forall (fun e => 0 <= e.2 < 8) (cpu_speed_events o) ->
  main_loop ts cycle (enter_loop cycle l) = Some (Running c' l') ->
  forall i, 0 <= i < 64 ->
  Z.testbit (status l') i =
    match last (filter (fun e => cycle <= e.1 < c') (cpu_speed_events o)) with
    | Some e => if (8 <=? i) && (i <? 11) then Z.testbit e.2 (i - 8) else Z.testbit (status l) i
    | None => Z.testbit (status l) i
    end.
Proof.
  intros Hs Hv E i Hi. destruct (speeds_run ts Hs cycle (enter_loop cycle l) c' l' eq_refl E) as [_ E']. apply pair_eq in E' as [-> _].
  change (status (enter_loop cycle l)) with (status l). set (es := filter _ _).
  assert (Forall (fun e : Z * Z => 0 <= e.2 < 8) es) as He.
  { apply Forall_forall. intros e [_ Hin]%list_elem_of_filter. by eapply Forall_forall in Hin; [|exact Hv]. }
  clearbody es. clear - Hi He. induction es as [|e es IH] using rev_ind; [done|]. apply Forall_app in He as [He Hl]. inversion Hl; subst.
  rewrite map_app, fold_left_app, last_snoc. cbn [map fold_left snd]. unfold set_cpu_speed at 1. change 7 with (Z.ones 3).
  rewrite set_status_field_bits by (cbn; lia). change (8 + 3) with 11.
  destruct ((8 <=? i) && (i <? 11)) eqn:Eb; [done|]. rewrite (IH He). by destruct (last es).
Qed.

(** An event whose cycle has passed holds up every event behind it. *)
Lemma speed_blocked ts e rest : forall cycle l c' l',
  drop (next_cpu_speed_event l) (cpu_speed_events o) = e :: rest -> e.1 < cycle ->
  main_loop ts cycle l = Some (Running c' l') -> status l' = status l.
Proof.
  induction ts as [|t ts IH]; intros cycle l c' l' Hd He E; cbn [main_loop] in E; destruct (goes_on cycle l); try done.
  - by injection E as _ <-.
  - apply bind_Some in E as (r & E1 & E). destruct r as [l1|l1]; [|done]. apply iterate_speeds in E1.
    unfold speeds_after in E1. cbn [part fst snd] in E1. rewrite Hd in E1. destruct e as [x v]. cbn [due_speeds fst] in *.
    rewrite (proj2 (Z.eqb_neq _ _)) in E1 by lia. apply pair_eq in E1 as [E1 E2].
    rewrite <- E1. apply (IH (cycle + 1) l1 c' l'); [by rewrite E2, Nat.add_0_r|lia|done].
Qed.
End MainLoop.

(** ** Examples *)

#[local] Existing Instance demo_sdl.

(** A model that shows nothing and asks for nothing. *)
#[local] Instance idle_model : Model unit := {
  eval _ := idle_eval;
  management _ := IdeSafety.mkInputs 0 0 0 0;
  sim_kbd_host_data _ := 0;
  video_out _ := demo_sample false false 0 0 0;
  text_mode _ := mkTextMode 0 0 0 0 [];
  debug _ := mkDebug 0 0 0 0 false;
  dbg_uart _ := (false, 0);
  model_taps _ := demo_taps false false None []
}.

Definition demo_loop : Loop unit (Z * bool) := {|
  sim := mkSim tt (mkCoreIn false false false false 0) idle_out
    (mkDdr [] [] false 0 0 1 0 0 0 false 0 false false false false 0 0 0) [] [] 0 0 [] flatline_init 0 false 4;
  ports := mkPorts 0 false false 0 false; soft_reset := false; status := 0x700;
  drives := mkDrives no_jitter (HpsIde_new 0 0xF000) (HpsIde_new 1 0xF100) HpsFloppy.new;
  bus := idle_bus;
  host := demo_host (0, true);
  video := mkVideo [] [] 0 0 0 0 0 720 400 true false false 0 0 false false false;
  gui := demo_gui; console := demo_console; monitor := monitor_init [];
  next_cpu_speed_event := 0; next_control_poll_cycle := 0; next_gui_poll_cycle := 0; next_vga_plane_event := 0;
  bios_dbg_wr_prev := false; uart := []; planes := []; snapshots := []
|}.

Definition demo_settings (speeds : list (Z * Z)) : Options :=
  default_options <| g_headless := true |> <| cosim_on := true |> <| max_cycles := 5 |> <| cpu_speed_events := speeds |>.

Definition quiet_turn : Turn := mkTurn false true [] false true [] false.

Definition demo_run (speeds : list (Z * Z)) (n : nat) : option (Run (Loop unit (Z * bool))) :=
  main_loop (demo_settings speeds) demo_config (replicate n quiet_turn) 0 (enter_loop (demo_settings speeds) 0 demo_loop).

Lemma loop_synchronous_witness :
  let l := enter_loop (demo_settings []) 0 demo_loop in
  let run := main_loop (demo_settings []) demo_config (replicate 5 quiet_turn) 0 l in
  run = clocks (demo_settings []) demo_config (replicate 5 quiet_turn) 0 l /\
  (fun r => (arrived r).1) <$> run = Some 5 /\ (fun r => phase (arrived r).2) <$> run = Some (false, 4 + 2 * 5).
Proof.
  intros l run.
  destruct (loop_synchronous (demo_settings []) demo_config (replicate 5 quiet_turn) 0 l) as [E Hr]; [done|done|done|].
  split; [exact E|]. assert ((fun r => (arrived r).1) <$> run = Some 5) as Ec by (by vm_compute). split; [exact Ec|].
  fold run in Hr. clearbody run. destruct run as [r|]; [|done]. injection Ec as Ec. cbn [fmap option_fmap option_map].
  destruct (Hr r eq_refl) as (_ & P & _). by rewrite P, Ec.
Defined.

Lemma speeds_scheduled_witness :
  let o := demo_settings [(1, 5); (3, 2); (4, 1)] in
  let run := main_loop o demo_config (replicate 4 quiet_turn) 0 (enter_loop o 0 demo_loop) in
  in_time (cpu_speed_events o) /\
  (fun r => match r with Running c _ => c | _ => 0 end) <$> run = Some 4 /\
  (fun r => Z.testbit (status (arrived r).2) 9) <$> run = Some true.
Proof.
  intros o run.
  assert (in_time (cpu_speed_events o)) as Hs by (repeat constructor; cbn; lia).
  assert (Forall (fun e : Z * Z => 0 <= e.2 < 8) (cpu_speed_events o)) as Hv by (repeat constructor; cbn; lia).
  pose proof (speeds_scheduled o demo_config (replicate 4 quiet_turn) 0 demo_loop 4) as Hb. fold run in Hb.
  assert ((fun r => match r with Running c _ => c | _ => 0 end) <$> run = Some 4) as Er by (by vm_compute).
  split; [exact Hs|]. split; [exact Er|]. clearbody run. destruct run as [[c l'|c l']|]; [done| |done]. injection Er as ->.
  cbn [fmap option_fmap option_map arrived fst snd]. by rewrite (Hb l' Hs Hv eq_refl 9).
Defined.

(** An event out of order is lost, and holds up those behind it. *)
Example speed_lost : (fun r => status (arrived r).2) <$> demo_run [(2, 5); (1, 3); (4, 2)] 5 = Some 0x500.
Proof. by vm_compute. Qed.
