(* ===== verification/Startup.v ===== *)
(** * The start of a run

    What [main] in verilator/main.cpp does between the command line and its
    loop: the drives are opened, the ROMs or an image of the memory are staged,
    the model is clocked through its reset, and the floppy controller and the
    CMOS memory are written over the management port.

    A fresh run starts whatever the model does, with the clock low; the model
    has seen one clock in reset, one out of it, and each register written for
    one clock.  The time is then 572 half cycles ahead of the cycles that the
    times of the command line are turned into ([fresh_start]).  An image of the
    memory reaches the guest's memory but for the window that the boot code
    copies ([guest_words_spec]).

    The model's memory is reached through [write_guest] and
    [uma_rom_writable]. *)
From S2P Require Import Prelude Codec IdeTypes IdeGeometry IdeTick IdeSafety Floppy SharedBus Text Input Keyboard Control Window Ddr Clock.
From S2P Require Import Video Config Options Monitor Console CosimHost MainLoop.

Section Startup.
Context `{Sdl} {Core X : Type} `{Model Core} `{Reference X}.
Context (o : Options).

Notation Loop := (Loop Core X).

(** The settings the loop runs with: [std::sort] on the screen checks. *)
Definition sorted_checks (sort : list Z -> list Z) : Options :=
  o <| screen_check_cycles := sort (screen_check_cycles o) |>.

(** ** The drives *)

Section Drives.
Context (fs_read : list Z -> option (list Z)) (fs_absolute : list Z -> list Z).

Definition open_hdd (d : Drives) : option (Parse Drives) :=
  if restoring o then Some (Go d)
  else
    '(ok, i) ← IdeGeometry.open fs_read fs_absolute (ide0 d) (disk_path o);
    Some (if (ok : bool) then Go (d <| ide0 := i |>) else Fail1).

Definition open_cd (d : Drives) : Parse Drives :=
  if negb (restoring o) && negb (is_nil (cdrom_path o)) then
    let '(ok, i) := open_cdrom fs_read fs_absolute (ide1 d) (cdrom_path o) in
    if (ok : bool) then Go (d <| ide1 := i |>) else Fail1
  else Go d.

Definition open_floppy (path : list Z) (drive : Z) (d : Drives) : Parse Drives :=
  if is_nil path then Go d
  else match HpsFloppy.open fs_read (floppy0 d) path drive with Ok f => Go (d <| floppy0 := f |>) | _ => Fail1 end.

Definition new_drives : Drives :=
  mkDrives (match jitter_seed o with Some seed => hps_ide_set_jitter true seed | None => mkJitter false 1 end)
    (HpsIde_new 0 0xF000 <| debug_ := Options.g_ide_debug o |>) (HpsIde_new 1 0xF100 <| debug_ := Options.g_ide_debug o |>)
    HpsFloppy.new.

(** [None] is undefined behaviour. *)
Definition open_drives : option (Parse Drives) :=
  p ← open_hdd new_drives;
  Some (d ← p; d ← open_cd d; d ← open_floppy (floppy_path o) 0 d; open_floppy (floppy_b_path o) 1 d).

(** The ROMs, when the run is not a restore. *)
Definition read_roms : Parse (list Z * list Z) :=
  if restoring o then Go ([], [])
  else match fs_read (boot0_path o), fs_read (boot1_path o) with
       | Some boot0, Some boot1 => Go (boot0, boot1)
       | _, _ => Fail1
       end.
End Drives.

(** A disk image that cannot be read ends the program, unless it restores. *)
Lemma no_disk fs_read fs_absolute : restoring o = false -> fs_read (disk_path o) = None -> open_drives fs_read fs_absolute = Some Fail1.
Proof. intros Hr Hd. unfold open_drives, open_hdd, IdeGeometry.open, new_drives. by rewrite Hr, Hd. Qed.

(** ** The machine, switched on *)

Definition dark : Pixel := mkPixel 0 0 0 0.
Definition dark_screen : list Pixel := replicate (Z.to_nat (H_RES * V_RES)) dark.

Definition no_bus : Bus := mkBus true 0 false false 0 0 0 0 0.

Definition start_sim (c : Core) (out : CoreOut) : Sim Core :=
  mkSim c (mkCoreIn false false false false 0) out
    (ddr_init <| Ddr.ddr_busy_period := ddr_busy_period o |> <| Ddr.ddr_busy_len := ddr_busy_len o |>
      <| Ddr.ddr_busy_rand_pct := ddr_busy_rand_pct o |> <| Ddr.ddr_busy_rand_state := ddr_busy_rand_state o |>)
    (replicate (Z.to_nat ZSST_MEM_SIZE) 0) (replicate 256 black) 0 0 []
    (flatline_init <| Clock.trace_start_cycle := trace_start_cycle o |>) 0 false 0.

Definition start_gui (sort : list ScheduledPs2Bytes -> list ScheduledPs2Bytes) (mouse : list ScheduledPs2Bytes) : Gui :=
  mkGui (mkControl (ps2_init <| ps2_events := schedule_keys sort (enter_cycles o) (key_events o) (key_edge_events o) (ctrl_alt_del_cycles o) |>
                             <| mouse_events := sort mouse |>) true (checkpoint_dir o) [] [])
    false false false 0 (enable_trace o) true.

Definition start_video : Video :=
  mkVideo dark_screen dark_screen 0 0 0 0 0 720 400 true false false 0 0 false false false.

Definition power_on (c : Core) (out : CoreOut) (h : Host X) (d : Drives)
    (sort : list ScheduledPs2Bytes -> list ScheduledPs2Bytes) (mouse : list ScheduledPs2Bytes) : Loop :=
  let g := start_gui sort mouse in {|
  sim := start_sim c out; ports := mkPorts 0 false false 0 false; soft_reset := false;
  status := initial_status (cpu_speed_status o) (ram_mb o) (variable_vsync o) (vga_border o) (opl3_mode o);
  drives := d; bus := no_bus; host := h; video := start_video; gui := g;
  console := mkConsole (control g) [] 0 0 0 false (Options.next_screenshot_cycle o) [] [] [];
  monitor := monitor_init (log_eip_markers o);
  next_cpu_speed_event := 0; next_control_poll_cycle := 0; next_gui_poll_cycle := 0; next_vga_plane_event := 0;
  bios_dbg_wr_prev := false; uart := []; planes := []; snapshots := []
|}.

(** ** Clocking the model before the loop *)

Definition system_step (l : Loop) : option Loop := l ← clock_step o l; clock_step o l.

Fixpoint system_steps (n : nat) (l : Loop) : option Loop :=
  match n with O => Some l | S n => l ← system_step l; system_steps n l end.

Definition pulse (w : MgmtWrite) (l : Loop) : option Loop :=
  l ← system_step (l <| bus := bus l <| mgmt_address := w.1 |> <| mgmt_writedata := w.2 |>
                               <| mgmt_write := true |> <| mgmt_read := false |> |>);
  system_step (l <| bus := bus l <| mgmt_write := false |> |>).

Fixpoint pulses (ws : list MgmtWrite) (l : Loop) : option Loop :=
  match ws with [] => Some l | w :: ws => l ← pulse w l; pulses ws l end.

Definition set_reset (b : bool) (l : Loop) : Loop := l <| bus := bus l <| reset := b |> |>.

(** ** Memory *)

Context (write_guest : Z -> Z -> Core -> Core) (uma_rom_writable : Core -> Core).

(** The words of an image outside 0C0000-0FFFFF, and below the mirror. *)
Definition guest_words (image : list Z) : list (Z * Z) :=
  let limit := Z.min (Z.of_nat (length image)) 0xFC0000 in
  omap (fun k => let a := 2 * Z.of_nat k in
    if (0xC0000 <=? a) && (a <? 0x100000) then None
    else Some (Z.shiftr a 1, u16 (Z.lor (znth 0 image a) (Z.shiftl (znth 0 image (a + 1)) 8))))
    (seq 0 (Z.to_nat (limit / 2))).

Definition in_core (f : Core -> Core) (l : Loop) : Loop := l <| sim := sim l <| core := f (core (sim l)) |> |>.
Definition in_ddram (f : list Z -> list Z) (l : Loop) : Loop :=
  l <| sim := sim l <| ddr := ddr (sim l) <| ddram_mem := f (ddram_mem (ddr (sim l))) |> |> |>.

Definition load_ram_image (image : list Z) (l : Loop) : Loop :=
  in_core (fun c => fold_left (fun c w => write_guest w.1 w.2 c) (guest_words image) c) (in_ddram (ddr_write 0 image) l).

Definition stage (boot0 boot1 : list Z) (image : option (list Z)) (l : Loop) : Loop :=
  let l := in_ddram (stage_roms_to_ddr boot0 boot1) l in
  match image with Some image => load_ram_image image l | None => l end.

(** ** The start *)

(** The management writes of [configure_x86_management]. *)
Definition settings_written (tm : Tm) (d : Drives) : list MgmtWrite :=
  configure_x86_management (floppy_writable o) (d_present (drive_ (ide0 d))) (floppy0 d)
    (HpsFloppy.present (floppy0 d) 0 && negb (boot_from_hdd o)) tm.

(** [image]: the contents of --load-ram; [tm]: the clock's time. *)
Definition boot (tm : Tm) (boot0 boot1 : list Z) (image : option (list Z)) (l : Loop) : option Loop :=
  l ← system_step (stage boot0 boot1 image l);
  let l := match image with Some _ => in_core uma_rom_writable l | None => l end in
  l ← system_step (set_reset false l);
  pulses (settings_written tm (drives l)) l.

(** The words loaded are those of the image, with the upper memory left out. *)
Lemma guest_words_spec image a v :
  (a, v) ∈ guest_words image <->
  0 <= a /\ 2 * a + 1 < Z.min (Z.of_nat (length image)) 0xFC0000 /\ ~ (0xC0000 <= 2 * a < 0x100000) /\
  v = u16 (Z.lor (znth 0 image (2 * a)) (Z.shiftl (znth 0 image (2 * a + 1)) 8)).
Proof.
  unfold guest_words. cbv zeta. rewrite list_elem_of_omap. set (limit := Z.min _ _).
  assert (forall k, Z.shiftr (2 * Z.of_nat k) 1 = Z.of_nat k) as Hs by (intros k; rewrite Z.shiftr_div_pow2 by lia; change (2 ^ 1) with 2; divlia).
  split.
  - intros (k & Hk & E). rewrite elem_of_seq in Hk. case_bool; [done|]. injection E as <- <-. rewrite !Hs. split_and!; try lia; divlia.
  - intros (Ha & Hl & Hw & ->). exists (Z.to_nat a). rewrite elem_of_seq. split; [divlia|].
    rewrite !Hs, Z2Nat.id by lia. case_bool; [lia|done].
Qed.

(** What precedes a restore of a portable snapshot. *)
Definition hold_in_reset (l : Loop) : option Loop := system_steps 8 l.
End Startup.

(** ** The model's view: a probe on its ports

    Any model with a record beside it of what it is driven with at each rising
    edge of its clock. *)

(** Reset, and the register written. *)
Notation Seen := (bool * option MgmtWrite)%type.
Definition seen_of (d : Driven) : Seen :=
  (reset (d_bus d), if mgmt_write (d_bus d) then Some (mgmt_address (d_bus d), mgmt_writedata (d_bus d)) else None).

(** The clock's last level, and the edges seen. *)
Notation Probe := (bool * list Seen)%type.

Definition probe_eval {Core} `{Model Core} (d : Driven) (c : Core * Probe) (i : CoreIn) : (Core * Probe) * CoreOut :=
  let '(k, out) := eval d c.1 i in
  ((k, (clk_sys i, if clk_sys i && negb c.2.1 then c.2.2 ++ [seen_of d] else c.2.2)), out).

#[local] Instance probed {Core} `{Model Core} : Model (Core * Probe) := {
  eval := probe_eval;
  management c := management c.1;
  sim_kbd_host_data c := sim_kbd_host_data c.1;
  video_out c := video_out c.1;
  text_mode c := text_mode c.1;
  debug c := debug c.1;
  dbg_uart c := dbg_uart c.1;
  model_taps c := model_taps c.1
}.

Definition on_first {A B} (f : A -> A) (c : A * B) : A * B := (f c.1, c.2).

Section Probe.
Context `{Sdl} {Core X : Type} `{Model Core} `{Reference X}.
Context (o : Options).
Context (fits : forall d, requests_fit (eval (Core := Core) d)).

Notation Loop := (Loop (Core * Probe) X).

Lemma probe_fits d : requests_fit (probe_eval (Core := Core) d).
Proof. intros c i. unfold probe_eval. pose proof (fits d c.1 i) as Hf. by destruct (eval d c.1 i). Qed.

(** The probe between two evaluations at the same level of the clock. *)
Definition probe_at (s : Sim (Core * Probe)) (seen : list Seen) : Prop := (core s).2 = (clk_sys (cin s), seen).

Lemma probe_same d c i seen : c.2 = (clk_sys i, seen) -> (probe_eval (Core := Core) d c i).1.2 = (clk_sys i, seen).
Proof. intros E. unfold probe_eval. rewrite E. destruct (eval d c.1 i). cbn. by destruct (clk_sys i). Qed.

Lemma edge_probe d cfg s seen : probe_at s seen -> probe_at (audio_edge (probe_eval d) cfg s) seen.
Proof.
  unfold probe_at. intros E. unfold audio_edge, audio_sample, do_eval. cbv zeta. cbn [core cin set_field].
  match goal with |- context [probe_eval d ?c ?i] => pose proof (probe_same d c i seen) as Hp; destruct (probe_eval d c i) as [c' out] end.
  cbn in Hp. specialize (Hp E). destruct (_ && _); cbn; [case_match; cbn; exact Hp|exact Hp].
Qed.

Lemma audio_loop_probe d cfg fuel : forall s s' seen,
  probe_at s seen -> audio_loop (probe_eval d) cfg fuel s = Some s' -> probe_at s' seen.
Proof.
  induction fuel as [|fuel IH]; intros s s' seen Hs E; cbn [audio_loop] in E; destruct (2 * SIM_SYS_CLOCK_HZ <=? audio_clock_accum s).
  1: done.
  1,3: by injection E as <-.
  eapply IH; [|exact E]. by apply edge_probe.
Qed.

Lemma step_probe d cfg s s' seen : probe_at s seen -> Clock.step (probe_eval d) cfg s = Some s' ->
  probe_at s' (if clk_sys (cin s) then seen else seen ++ [seen_of d]).
Proof.
  intros Hs E. pose proof (step_phase _ _ _ _ E) as P. apply pair_eq in P as [[P _]%pair_eq _].
  unfold probe_at. rewrite P. clear P.
  rewrite step_driven in E. apply bind_Some in E as (s1 & E1 & E). apply bind_Some in E as (s2 & E2 & [= <-]).
  set (s0 := do_eval _ _) in E1.
  assert (probe_at s0 (if clk_sys (cin s) then seen else seen ++ [seen_of d]) /\ clk_sys (cin s0) = negb (clk_sys (cin s))) as [P0 C0].
  { unfold probe_at, s0, do_eval. unfold probe_at in Hs. unfold Clock.driven. cbv zeta. cbn [core cin set_field]. cbn.
    unfold probe_eval. rewrite Hs. destruct (eval d (core s).1 _) as [k out]. cbn. by destruct (clk_sys (cin s)). }
  clearbody s0. unfold audio_advance in E1. cbv zeta in E1.
  assert (clk_sys (cin s1) = clk_sys (cin s0)) as C1.
  { apply audio_loop_phase in E1. apply pair_eq in E1 as [[E1 _]%pair_eq _]. rewrite E1. by destruct (Clock.g_no_audio_clock cfg). }
  assert (probe_at s1 (if clk_sys (cin s) then seen else seen ++ [seen_of d])) as P1.
  { eapply audio_loop_probe; [|exact E1]. by destruct (Clock.g_no_audio_clock cfg). }
  assert (core s2 = core s1) as Ec.
  { destruct (posedge s1); [|congruence]. unfold on_posedge in E2. cbv zeta in E2.
    apply bind_Some in E2 as (x & _ & E2). by apply bind_Some in E2 as (p & _ & [= <-]). }
  cbn. rewrite Ec. unfold probe_at in P1. by rewrite P1, C1, C0.
Qed.

(** *** Clocking *)

(** A loop whose model can be clocked, with the clock low. *)
Record clocked (seen : list Seen) (time : Z) (l : Loop) : Prop := mkClocked {
  ck_ok : sim_ok (sim l);
  ck_probe : core (sim l) = ((core (sim l)).1, (false, seen));
  ck_phase : phase l = (false, u64 time)
}.

(** Nothing but the simulator is changed. *)
Definition only_sim (l l' : Loop) : Prop := exists s, l' = l <| sim := s |>.

Lemma only_sim_trans l1 l2 l3 : only_sim l1 l2 -> only_sim l2 l3 -> only_sim l1 l3.
Proof. intros [s ->] [t ->]. by exists t. Qed.

Lemma clock_stepped (l : Loop) : sim_ok (sim l) ->
  exists s, clock_step o l = Some (l <| sim := s |>) /\ step_rel (step_settings o) (sim l) s /\
    Clock.step (probe_eval (driven l)) (step_settings o) (sim l) = Some s.
Proof.
  intros Hok. destruct (step_spec (probe_eval (driven l)) (probe_fits _) (step_settings o) (sim l) Hok) as (s & E & R).
  exists s. split_and!; [|done|done]. unfold clock_step. change (eval (driven l)) with (probe_eval (Core := Core) (driven l)).
  by rewrite E.
Qed.

Lemma system_step_clocked seen time l : clocked seen time l ->
  exists l', system_step o l = Some l' /\ clocked (seen ++ [seen_of (driven l)]) (time + 2) l' /\ only_sim l l'.
Proof.
  intros [Hok Hp Hph]. unfold phase in Hph. apply pair_eq in Hph as [Hc Ht].
  destruct (clock_stepped l Hok) as (s1 & E1 & R1 & F1).
  assert (sim_ok (sim (l <| sim := s1 |>))) as Hok1 by (destruct R1; done).
  destruct (clock_stepped (l <| sim := s1 |>) Hok1) as (s2 & E2 & R2 & F2).
  change (driven (l <| sim := s1 |>)) with (driven l) in *. change (sim (l <| sim := s1 |>)) with s1 in *.
  exists (l <| sim := s2 |>). unfold system_step. rewrite E1. cbn [mbind option_bind]. split; [exact E2|]. split; [|by exists s2].
  assert (probe_at (sim l) seen) as P0 by (unfold probe_at; by rewrite Hp, Hc).
  pose proof (step_probe _ _ _ _ _ P0 F1) as P1. pose proof (step_probe _ _ _ _ _ P1 F2) as P2.
  pose proof (st_clk _ _ _ R1) as K1. pose proof (st_clk _ _ _ R2) as K2.
  pose proof (st_time _ _ _ R1) as T1. pose proof (st_time _ _ _ R2) as T2.
  rewrite Hc in K1, P2. cbn [negb] in K1. rewrite K1 in K2, P2. cbn [negb] in K2. rewrite T1, Ht in T2.
  constructor.
  - exact (st_ok _ _ _ R2).
  - unfold probe_at in P2. rewrite K2 in P2. change (core s2 = ((core s2).1, (false, seen ++ [seen_of (driven l)]))).
    rewrite <- P2. by destruct (core s2).
  - change ((clk_sys (cin s2), sim_time s2) = (false, u64 (time + 2))). rewrite K2, T2. f_equal.
    replace (time + 2) with (time + 1 + 1) by lia. clear. unfold u64.
    by rewrite <- (Zplus_mod_idemp_l (time + 1)), <- (Zplus_mod_idemp_l time).
Qed.

(** Nothing but the simulator and the management bus is changed. *)
Definition sim_and_bus (l l' : Loop) : Prop := exists s b, l' = l <| sim := s |> <| bus := b |>.

Lemma sim_and_bus_trans l1 l2 l3 : sim_and_bus l1 l2 -> sim_and_bus l2 l3 -> sim_and_bus l1 l3.
Proof. intros (s & b & ->) (t & c & ->). by exists t, c. Qed.

Lemma only_sim_bus l l' : only_sim l l' -> sim_and_bus l l'.
Proof. intros [s ->]. exists s, (bus l). by destruct l. Qed.

Lemma on_bus l b : sim_and_bus l (l <| bus := b |>).
Proof. exists (sim l), b. by destruct l. Qed.

Lemma clocked_bus seen time l b : clocked seen time l -> clocked seen time (l <| bus := b |>).
Proof. by intros []. Qed.

Lemma only_sim_same l l' : only_sim l l' -> bus l' = bus l /\ drives l' = drives l.
Proof. by intros [s ->]. Qed.

Lemma pulse_clocked seen time w l : clocked seen time l ->
  exists l', pulse o w l = Some l' /\
    clocked (seen ++ [(reset (bus l), Some w); (reset (bus l), None)]) (time + 4) l' /\ sim_and_bus l l' /\
    reset (bus l') = reset (bus l) /\ mgmt_write (bus l') = false.
Proof.
  intros Hc. unfold pulse. set (b1 := bus l <| mgmt_address := w.1 |> <| mgmt_writedata := w.2 |> <| mgmt_write := true |> <| mgmt_read := false |>).
  destruct (system_step_clocked seen time (l <| bus := b1 |>) (clocked_bus _ _ _ _ Hc)) as (l1 & -> & C1 & O1).
  cbn [mbind option_bind]. destruct (only_sim_same _ _ O1) as [B1 _]. set (b2 := bus l1 <| mgmt_write := false |>).
  destruct (system_step_clocked _ _ (l1 <| bus := b2 |>) (clocked_bus _ _ _ _ C1)) as (l2 & E2 & C2 & O2).
  exists l2. split; [done|]. destruct (only_sim_same _ _ O2) as [B2 _].
  assert (bus l2 = b2) as Eb by exact B2. assert (bus l1 = b1) as Eb1 by exact B1. split_and!.
  - rewrite <- app_assoc in C2. replace (time + 2 + 2) with (time + 4) in C2 by lia.
    assert (seen_of (driven (l <| bus := b1 |>)) = (reset (bus l), Some w)) as S1 by (by destruct w).
    assert (seen_of (driven (l1 <| bus := b2 |>)) = (reset (bus l), None)) as S2.
    { unfold seen_of, driven. cbn. unfold b2. by rewrite Eb1. }
    by rewrite S1, S2 in C2.
  - eapply sim_and_bus_trans; [apply (on_bus l b1)|]. eapply sim_and_bus_trans; [by apply only_sim_bus|].
    eapply sim_and_bus_trans; [apply (on_bus l1 b2)|]. by apply only_sim_bus.
  - rewrite Eb. unfold b2. by rewrite Eb1.
  - by rewrite Eb.
Qed.

(** What a model sees of a list of register writes. *)
Definition written_each (ws : list MgmtWrite) : list Seen := flat_map (fun w => [(false, Some w); (false, None)]) ws.

Lemma pulses_clocked ws : forall seen time l, clocked seen time l -> reset (bus l) = false -> mgmt_write (bus l) = false ->
  exists l', pulses o ws l = Some l' /\ clocked (seen ++ written_each ws) (time + 4 * Z.of_nat (length ws)) l' /\
    sim_and_bus l l' /\ reset (bus l') = false /\ mgmt_write (bus l') = false.
Proof.
  induction ws as [|w ws IH]; intros seen time l Hc Hr Hw.
  - exists l. split; [done|]. cbn [written_each flat_map length]. rewrite app_nil_r, Z.add_0_r.
    split_and!; try done. exists (sim l), (bus l). by destruct l.
  - destruct (pulse_clocked seen time w l Hc) as (l1 & E1 & C1 & S1 & R1 & W1). rewrite Hr in C1, R1.
    destruct (IH _ _ l1 C1 R1 W1) as (l2 & E2 & C2 & S2 & R2 & W2). exists l2. cbn [pulses]. rewrite E1. split; [done|].
    cbn [written_each flat_map length]. fold (written_each ws). rewrite <- app_assoc in C2.
    replace (time + 4 * Z.of_nat (S (length ws))) with (time + 4 + 4 * Z.of_nat (length ws)) by lia.
    split_and!; try done. by eapply sim_and_bus_trans.
Qed.

(** *** Memory *)

Lemma ddr_write_bytes off data m : bytes data -> bytes m -> bytes (ddr_write off data m).
Proof. intros Hd Hm. unfold ddr_write. case_bool; [done|]. apply bytes_splice; [by apply bytes_take|done]. Qed.

Lemma fill_bytes lo hi b m : is_u8 b -> bytes m -> bytes (fill lo hi b m).
Proof. intros Hb Hm. apply bytes_splice; [by apply bytes_replicate|done]. Qed.

Lemma roms_bytes boot0 boot1 m : bytes boot0 -> bytes boot1 -> bytes (stage_roms_to_ddr boot0 boot1 m).
Proof.
  intros H0' H1'. unfold stage_roms_to_ddr. cbv zeta. repeat apply ddr_write_bytes; try done.
  repeat (apply fill_bytes; [unfold is_u8; lia|]). apply bytes_replicate. unfold is_u8. lia.
Qed.

Lemma sim_ok_memory (s : Sim (Core * Probe)) c m :
  sim_ok s -> bytes m -> msize m = msize (ddram_mem (ddr s)) -> sim_ok (s <| ddr := ddr s <| ddram_mem := m |> |> <| core := c |>).
Proof.
  intros [[? ? ? ?] ? ? ? ? ?] Hb Hm. constructor; cbn; try done. constructor; cbn; try done. by rewrite Hm.
Qed.

Context (write_guest : Z -> Z -> Core -> Core) (uma_rom_writable : Core -> Core).

Lemma in_core_clocked seen time f l : (forall c, (f c).2 = c.2) -> clocked seen time l -> clocked seen time (in_core f l).
Proof.
  intros Hf [Hok Hp Hph]. constructor.
  - by destruct Hok.
  - cbn. rewrite (surjective_pairing (f _)), Hf. cbn. by rewrite Hp.
  - exact Hph.
Qed.

Lemma in_ddram_clocked seen time f l :
  bytes (f (ddram_mem (ddr (sim l)))) -> msize (f (ddram_mem (ddr (sim l)))) = msize (ddram_mem (ddr (sim l))) ->
  clocked seen time l -> clocked seen time (in_ddram f l).
Proof.
  intros Hb Hm [Hok Hp Hph]. constructor; [|exact Hp|exact Hph].
  pose proof (sim_ok_memory (sim l) (core (sim l)) _ Hok Hb Hm) as Hs. by destruct Hs.
Qed.

Lemma stage_clocked seen time boot0 boot1 image (l : Loop) :
  bytes boot0 -> bytes boot1 -> (forall i, image = Some i -> bytes i) -> clocked seen time l ->
  0x100000 <= msize (ddram_mem (ddr (sim l))) ->
  clocked seen time (stage (fun a v => on_first (write_guest a v)) boot0 boot1 image l) /\
  sim_and_bus l (stage (fun a v => on_first (write_guest a v)) boot0 boot1 image l) /\
  bus (stage (fun a v => on_first (write_guest a v)) boot0 boot1 image l) = bus l.
Proof.
  intros B0 B1 Bi Hc Hm. unfold stage. cbv zeta. set (l1 := in_ddram _ l).
  assert (clocked seen time l1 /\ sim_and_bus l l1 /\ bus l1 = bus l) as (C1 & S1 & E1).
  { split_and!; [|apply only_sim_bus; by eexists|done]. apply in_ddram_clocked; [by apply roms_bytes| |done].
    by apply (roms_staged boot0 boot1 _ 0); lia. }
  clearbody l1. destruct image as [i|]; [|done]. unfold load_ram_image.
  assert (msize (ddr_write 0 i (ddram_mem (ddr (sim l1)))) = msize (ddram_mem (ddr (sim l1)))) as Hs by (apply msize_ddr_write; lia).
  split_and!.
  - apply in_core_clocked.
    + intros c. generalize (guest_words i). intros ws. revert c. induction ws as [|w ws IH]; intros c; [done|]. cbn [fold_left]. by rewrite IH.
    + apply in_ddram_clocked; [|done|done]. apply ddr_write_bytes; [by apply Bi|apply C1].
  - eapply sim_and_bus_trans; [exact S1|]. apply only_sim_bus. eapply only_sim_trans; by eexists.
  - exact E1.
Qed.

Lemma start_clocked c out h d sort mouse : request_ok (request out) ->
  clocked [] 0 (power_on (X := X) o (c, (false, [])) out h d sort mouse).
Proof.
  intros Hr. constructor; [|done|done]. unfold power_on. cbn [sim]. constructor.
  - apply (ddr_ok_frame ddr_init); [done|done|exact ddr_init_ok].
  - exact Hr.
  - apply bytes_replicate. unfold is_u8. lia.
  - exact (length_replicate 256 black).
  - done.
  - done.
Qed.

Lemma settings_count tm (d : Drives) : length (settings_written o tm d) = 142%nat.
Proof.
  unfold settings_written, configure_x86_management, configure_cmos, cmos_image, cmos_checksum. cbv zeta.
  by rewrite !length_app, length_imap, !length_insert, cmos_parts_length, length_replicate.
Qed.

(** The machine that is started: nothing but the model and the memory, and
    the management bus, is other than when it was switched on. *)
Lemma boot_clocked tm boot0 boot1 image (l : Loop) :
  bytes boot0 -> bytes boot1 -> (forall i, image = Some i -> bytes i) -> clocked [] 0 l -> bus l = no_bus ->
  0x100000 <= msize (ddram_mem (ddr (sim l))) ->
  exists l', boot o (fun a v => on_first (write_guest a v)) (on_first uma_rom_writable) tm boot0 boot1 image l = Some l' /\
    clocked ((true, None) :: (false, None) :: written_each (settings_written o tm (drives l))) 572 l' /\
    sim_and_bus l l' /\ reset (bus l') = false /\ mgmt_write (bus l') = false.
Proof.
  intros B0 B1 Bi Hc Hb Hm. destruct (stage_clocked [] 0 boot0 boot1 image l B0 B1 Bi Hc Hm) as (C1 & S1 & E1).
  unfold boot. revert C1 S1 E1. generalize (stage (fun a v => on_first (write_guest a v)) boot0 boot1 image l). intros l1 C1 S1 E1.
  destruct (system_step_clocked [] 0 l1 C1) as (l2 & -> & C2 & O2). cbn [mbind option_bind]. cbv zeta.
  destruct (only_sim_same _ _ O2) as [B2 _]. rewrite E1, Hb in B2.
  assert (seen_of (driven l1) = (true, None)) as V1 by (unfold seen_of, driven; cbn; by rewrite E1, Hb).
  rewrite V1 in C2. apply only_sim_bus in O2. pose proof (sim_and_bus_trans _ _ _ S1 O2) as S2.
  set (l3 := match image with Some _ => _ | None => l2 end).
  assert (clocked [(true, None)] 2 l3 /\ sim_and_bus l l3 /\ bus l3 = no_bus) as (C3 & S3 & B3).
  { unfold l3. destruct image; [|done]. split_and!; [by apply in_core_clocked| |done].
    eapply sim_and_bus_trans; [exact S2|]. apply only_sim_bus. by eexists. }
  clearbody l3. unfold set_reset. set (b := bus l3 <| reset := false |>).
  destruct (system_step_clocked _ _ _ (clocked_bus _ _ _ b C3)) as (l4 & -> & C4 & O4). cbn [mbind option_bind].
  destruct (only_sim_same _ _ O4) as [B4 D4]. assert (bus l4 = b) as B5 by exact B4. unfold b in B5. rewrite B3 in B5.
  assert (seen_of (driven (l3 <| bus := b |>)) = (false, None)) as V2 by (unfold seen_of, driven, b; cbn; by rewrite B3).
  rewrite V2 in C4.
  assert (sim_and_bus l l4) as S4.
  { eapply sim_and_bus_trans; [exact S3|]. eapply sim_and_bus_trans; [apply (on_bus l3 b)|]. by apply only_sim_bus. }
  assert (drives l4 = drives l) as D5 by (destruct S4 as (s & bb & ->); done). rewrite D5.
  destruct (pulses_clocked (settings_written o tm (drives l)) _ _ l4 C4) as (l5 & E5 & C5 & S5 & R5 & W5); [by rewrite B5..|].
  exists l5. split; [exact E5|]. rewrite settings_count in C5. split_and!; [exact C5| |done|done]. by eapply sim_and_bus_trans.
Qed.

(** C13: a fresh run starts, whatever the model does: it has seen one clock in
    reset and one out of it, then every register of the floppy controller and
    the CMOS memory written for one clock, in order, and none in between; the
    rest of the machine is as it was switched on, and from then on the time is
    572 half cycles ahead of twice the cycle, as long as the loop runs. *)
Theorem fresh_start tm boot0 boot1 image c out h d sort mouse :
  request_ok (request out) -> bytes boot0 -> bytes boot1 -> (forall i, image = Some i -> bytes i) ->
  let l0 := power_on o (c, (false, [])) out h d sort mouse in
  exists l, boot o (fun a v => on_first (write_guest a v)) (on_first uma_rom_writable) tm boot0 boot1 image l0 = Some l /\
    (core (sim l)).2.2 = (true, None) :: (false, None) :: written_each (settings_written o tm d) /\
    sim_and_bus l0 l /\ reset (bus l) = false /\ mgmt_write (bus l) = false /\ sim_ok (sim l) /\
    forall cosim_config ts r, 572 + 2 * Z.of_nat (length ts) < 2 ^ 64 ->
      main_loop o cosim_config ts 0 (enter_loop o 0 l) = Some r ->
      phase (arrived r).2 = (false, 2 * (arrived r).1 + 572).
Proof.
  intros Hr B0 B1 Bi l0.
  destruct (boot_clocked tm boot0 boot1 image l0 B0 B1 Bi) as (l & E & [Ho Hp Hph] & S & R & W).
  - by apply start_clocked.
  - done.
  - unfold l0, power_on, start_sim, msize. cbn [sim ddr]. change (0x100000 <= Z.of_nat (length (replicate (Z.to_nat DDR_SIZE) 0))).
    rewrite length_replicate, Z2Nat.id; done.
  - exists l. split; [exact E|]. rewrite Hp. split_and!; try done.
    intros cc ts r Ht Er. unfold phase in Hph. apply pair_eq in Hph as [Hc Hs]. change (u64 572) with 572 in Hs.
    change (sim l) with (sim (enter_loop o 0 l)) in Hc, Hs.
    destruct (clocks_run o cc ts 0 (enter_loop o 0 l)) as [_ Hrun]; [done|rewrite Hs; lia|rewrite Hs; lia|].
    destruct (Hrun r Er) as (_ & P & _). rewrite P, Hs. f_equal. lia.
Qed.

End Probe.

(** ** The idle model, started *)

#[local] Existing Instance demo_sdl.
#[local] Existing Instance idle_model.

Lemma fresh_start_witness :
  let d := mkDrives no_jitter (HpsIde_new 0 0xF000) (HpsIde_new 1 0xF100) HpsFloppy.new in
  let l0 := power_on default_options (tt, (false, [])) idle_out (demo_host (0, true)) d sort_events [] in
  exists l, boot default_options (fun _ _ => on_first (fun c => c)) (on_first (fun c => c)) demo_tm [0x55] [0xAA] None l0 = Some l /\
    length (core (sim l)).2.2 = 286%nat /\ sim_and_bus l0 l.
Proof.
  intros d l0.
  assert (forall d, requests_fit (eval (Core := unit) d)) as Hf by (intros ?; exact idle_fits).
  destruct (fresh_start default_options Hf (fun _ _ c => c) (fun c => c) demo_tm [0x55] [0xAA] None tt idle_out
    (demo_host (0, true)) d sort_events []) as (l & E & Hs & S & _); [exact (idle_fits tt (cin idle_sim))|by repeat constructor..|done|].
  exists l. split; [exact E|]. split; [|exact S]. rewrite Hs. vm_compute. reflexivity.
Defined.
