(* ===== verification/CosimFollow.v ===== *)
(** * The host follows the reference

    An abstract run of the reference beside z486's bus and issues ([follows])
    and the proof that [cosim_host_cycle] refines it, for any reference behind
    the interface ([issues_followed]).

    The abstract run is a transition system over [Track]: [input] takes in what
    z486 does on its pins, in the order of the clock, and [turn] is a move of
    the reference by itself, each with the condition under which it may be
    made. *)
From S2P Require Import Prelude CosimMatch CosimHost.

(** ** What the host checks: an abstract run *)

(** The A20 gate of the reference, which only the host's tap moves between
    instructions; [other] stands for what changes the reference besides its
    steps and z486's own cycles. *)
Class A20 (X : Type) `{Reference X} (other : X -> X -> Prop) := {
  a20 : X -> bool;
  a20_set on x : a20 (ref_set_a20 on x) = on;
  a20_write a b x x' : ref_dut_write a b x = Some (COSIM_OK, x') -> a20 x' = a20 x;
  a20_out port b x x' : ref_dut_io_write port b x = (COSIM_OK, x') -> a20 x' = a20 x;
  a20_in port b x : a20 (ref_dut_io_read port b x) = a20 x;
  a20_read a b x : a20 (ref_dut_dev_read a b x) = a20 x;
  a20_other x x' : other x x' -> a20 x' = a20 x
}.

(** What z486 does: a byte it writes, with A20; a byte of an OUT; a read it
    requests; the data of the oldest read; the level of RPTI in a clock; an
    instruction it issues. *)
Inductive Input :=
| IWrite (w : bool * Z * Z)
| IOut (port b : Z)
| IRequest (rq : ReadReq)
| IDone (data : Z)
| IRpti (level : bool)
| IIssue (ev : IssueEv).

(** Where the reference stands: [t_pending], the last issue accepted has not
    been run; [t_restarted], and z486 restarts it; [t_faulted], the last step
    delivered a fault, so that one younger issue may be squashed; the reads
    that are under way, the vectors acknowledged and not taken, and the issues
    not decided. *)
Record Track (X : Type) := mkTrack {
  t_ref : X; t_pending : bool; t_faulted : bool; t_restarted : bool; t_rpti : bool;
  t_reads : list ReadReq; t_vectors : list Z; t_queue : list IssueEv
}.
Arguments mkTrack {X}. Arguments t_ref {X}. Arguments t_pending {X}. Arguments t_faulted {X}. Arguments t_restarted {X}.
Arguments t_rpti {X}. Arguments t_reads {X}. Arguments t_vectors {X}. Arguments t_queue {X}.
#[export] Instance eta_Track {X} : Eta (Track X) := fun t =>
  mkTrack (t_ref t) (t_pending t) (t_faulted t) (t_restarted t) (t_rpti t) (t_reads t) (t_vectors t) (t_queue t).

(** The lanes that a transfer enables. *)
Definition lanes (be : Z) (i n : nat) : list nat := filter (fun k => lane be k = true) (seq i n).

Section Follows.
Context {X : Type} `{Reference X} (other : X -> X -> Prop) `{!A20 X other}.
Notation Host := (Host X).
Notation Track := (Track X).

(** The second cycle of an interrupt acknowledge gives its vector. *)
Definition acknowledged (rq : ReadReq) (data : Z) : list Z :=
  if is_kind (r_kind rq) K_INTA && (Z.land (r_addr rq) 4 =? 0) then [Z.land data 0xFF] else [].

(** A port or device read gives the reference its bytes. *)
Definition answered (rq : ReadReq) (data : Z) (x : X) : X :=
  if is_kind (r_kind rq) K_INTA || is_kind (r_kind rq) (Z.lor K_WALK K_X87) then x
  else foldl (fun x i =>
    let a := lane_addr (r_addr rq) i in
    let b := lane_byte data i in
    if is_kind (r_kind rq) K_IO then ref_dut_io_read (u16 a) b x
    else if is_kind (r_kind rq) K_DEV then ref_dut_dev_read a b x else x) x (lanes (r_be rq) 0 4).

Inductive input (t : Track) : Input -> Track -> Prop :=
| in_write a b x' : ref_dut_write a b (t_ref t) = Some (COSIM_OK, x') ->
    input t (IWrite (a20 (t_ref t), a, b)) (t <| t_ref := x' |>)
| in_out port b x' : ref_dut_io_write port b (t_ref t) = (COSIM_OK, x') -> input t (IOut port b) (t <| t_ref := x' |>)
| in_request rq : input t (IRequest rq) (t <| t_reads := t_reads t ++ [rq] |>)
| in_done data rq reads : t_reads t = rq :: reads ->
    input t (IDone data) (t <| t_reads := reads |> <| t_vectors := t_vectors t ++ acknowledged rq data |>
                            <| t_ref := answered rq data (t_ref t) |>)
| in_rpti level :
    input t (IRpti level) (t <| t_restarted := level && negb (t_rpti t) && t_pending t || t_restarted t |> <| t_rpti := level |>)
| in_issue ev : input t (IIssue ev) (t <| t_queue := t_queue t ++ [ev] |>).

Definition stands_at (ev : IssueEv) (x : X) : Prop := ref_eip x = i_eip ev /\ ref_cs x = i_cs ev.

(** RPTI restarts the pending instruction, but a REP string goes on. *)
Definition dropped (t : Track) : bool := t_pending t && t_restarted t && negb (ref_at_rep_string (t_ref t)).

(** The pending instruction runs; a REP string that an interrupt waits for as
    far as z486's count at the next issue. *)
Definition run_pending (ev : IssueEv) (t : Track) : option (Status * X) :=
  match t_vectors t with
  | _ :: _ => if ref_at_rep_string (t_ref t) then ref_step_rep_to (i_ecx ev) (t_ref t) else ref_step (t_ref t)
  | [] => ref_step (t_ref t)
  end.

(** How the reference may come to an issue: it stands there, or takes the
    oldest vector acknowledged, or stays where it is when there is none. *)
Inductive arrives (t : Track) (ev : IssueEv) : list Z -> X -> Prop :=
| ar_there : stands_at ev (t_ref t) -> arrives t ev (t_vectors t) (t_ref t)
| ar_none : t_vectors t = [] -> arrives t ev [] (t_ref t)
| ar_interrupt v vectors x : t_vectors t = v :: vectors -> ~ stands_at ev (t_ref t) ->
    ref_interrupt v (t_ref t) = Some (COSIM_OK, x) -> arrives t ev vectors x.

Definition accepted (ev : IssueEv) (queue : list IssueEv) (vectors : list Z) (x : X) (t : Track) : Track :=
  t <| t_ref := x |> <| t_vectors := vectors |> <| t_queue := queue |> <| t_pending := true |> <| t_faulted := false |>.

(** A move for the oldest undecided issue; the list says what became of it. *)
Inductive turn (t : Track) : list (IssueEv * bool) -> Track -> Prop :=
| tn_drop ev q : t_queue t = ev :: q -> dropped t = true ->
    turn t [] (t <| t_pending := false |> <| t_restarted := false |> <| t_faulted := false |>)
| tn_stall ev q x : t_queue t = ev :: q -> t_pending t = true -> dropped t = false ->
    run_pending ev t = Some (COSIM_STALL, x) -> turn t [] (t <| t_ref := x |>)
| tn_run ev q x : t_queue t = ev :: q -> t_pending t = true -> dropped t = false ->
    run_pending ev t = Some (COSIM_OK, x) ->
    turn t [] (t <| t_ref := ref_adopt_flags (i_eflags ev) x |> <| t_pending := false |> <| t_restarted := false |>
                 <| t_faulted := match ref_last_fault x with Some _ => true | None => false end |>)
| tn_accept ev q vectors x : t_queue t = ev :: q -> t_pending t = false -> arrives t ev vectors x ->
    stands_at ev x -> turn t [(ev, true)] (accepted ev q vectors x t)
| tn_squash ev q vectors x : t_queue t = ev :: q -> t_pending t = false -> arrives t ev vectors x ->
    ~ stands_at ev x -> t_faulted t = true ->
    turn t [(ev, false)] (t <| t_ref := x |> <| t_vectors := vectors |> <| t_queue := q |> <| t_faulted := false |>)
| tn_fetch_fault ev q vectors x st x' : t_queue t = ev :: q -> t_pending t = false -> arrives t ev vectors x ->
    ~ stands_at ev x -> t_faulted t = false -> ref_step x = Some (st, x') -> st <> COSIM_ERROR ->
    ref_last_fault x' <> None -> stands_at ev x' -> turn t [(ev, true)] (accepted ev q vectors x' t).

Inductive follows (t0 : Track) : list Input -> list (IssueEv * bool) -> Track -> Prop :=
| f_start : follows t0 [] [] t0
| f_input ins l t i t' : follows t0 ins l t -> input t i t' -> follows t0 (ins ++ [i]) l t'
| f_turn ins l t d t' : follows t0 ins l t -> turn t d t' -> follows t0 ins (l ++ d) t'
| f_a20 ins l t on : follows t0 ins l t -> follows t0 ins l (t <| t_ref := ref_set_a20 on (t_ref t) |>)
| f_other ins l t x' : follows t0 ins l t -> other (t_ref t) x' -> follows t0 ins l (t <| t_ref := x' |>).

(** Every issue is decided, unless the reference has tried and waits for data. *)
Definition settled (t : Track) : Prop :=
  t_queue t = [] \/
  exists ev q x, t_queue t = ev :: q /\ t_pending t = true /\
    run_pending ev (t <| t_ref := x |>) = Some (COSIM_STALL, t_ref t).

(** ** The host's state *)

(** [q] are the issues the host has not decided. *)
Definition track_with (q : list IssueEv) (h : Host) : Track :=
  mkTrack (ref h) (g_have_cur h) (g_squash_ok h) (g_cur_restarted h) (g_rpti_prev h) (g_reads h) (g_vectors h) q.
Definition track (h : Host) : Track := track_with (g_issues h) h.

(** The part of a track the host may change without being seen. *)
Definition seen (h : Host) : X * bool * bool * bool * bool * list ReadReq * list Z :=
  (ref h, g_have_cur h, g_squash_ok h, g_cur_restarted h, g_rpti_prev h, g_reads h, g_vectors h).

Lemma track_seen q h h' : seen h' = seen h -> track_with q h' = track_with q h.
Proof. unfold seen, track_with. by intros [= -> -> -> -> -> -> ->]. Qed.

(** ** An issue *)

Lemma same_pc_spec ev h : same_pc ev h = true <-> stands_at ev (ref h).
Proof. unfold same_pc, stands_at. lia. Qed.

Lemma same_pc_false ev h : same_pc ev h = false <-> ~ stands_at ev (ref h).
Proof. rewrite <- same_pc_spec. by destruct (same_pc ev h). Qed.

(** The host has turned for the issues before [q]. *)
Definition at_queue (t0 : Track) (ins : list Input) (l : list (IssueEv * bool)) (q : list IssueEv) (h : Host) : Prop :=
  follows t0 ins l (track_with q h).

Lemma at_queue_turn t0 ins l q h d q' h' :
  at_queue t0 ins l q h -> turn (track_with q h) d (track_with q' h') -> at_queue t0 ins (l ++ d) q' h'.
Proof. apply f_turn. Qed.

Lemma at_queue_silent t0 ins l q h h' :
  at_queue t0 ins l q h -> turn (track_with q h) [] (track_with q h') -> at_queue t0 ins l q h'.
Proof. intros Hf Ht. rewrite <- (app_nil_r l). by eapply at_queue_turn. Qed.

Lemma drop_restarted_follows t0 ins l ev q h :
  at_queue t0 ins l (ev :: q) h ->
  at_queue t0 ins l (ev :: q) (drop_restarted h) /\ dropped (track_with (ev :: q) (drop_restarted h)) = false.
Proof.
  intros Hf. unfold drop_restarted. destruct (_ && _ && _) eqn:E; [|by split].
  split; [|done]. apply (at_queue_silent _ _ _ _ h); [done|]. by apply (tn_drop (track_with (ev :: q) h) ev q).
Qed.

Lemma run_pending_host ev q h :
  (if negb (match g_vectors h with [] => true | _ => false end) && ref_at_rep_string (ref h)
   then ref_step_rep_to (i_ecx ev) (ref h) else ref_step (ref h)) = run_pending ev (track_with q h).
Proof. unfold run_pending. cbn [t_vectors track_with t_ref]. by destruct (g_vectors h). Qed.

Lemma run_current_follows t0 ins l ev q h r h' :
  at_queue t0 ins l (ev :: q) h -> dropped (track_with (ev :: q) h) = false -> run_current ev h = Some (r, h') ->
  match r with
  | COSIM_OK => at_queue t0 ins l (ev :: q) h' /\ g_have_cur h' = false
  | COSIM_STALL => at_queue t0 ins l (ev :: q) h' /\ settled (track_with (ev :: q) h')
  | COSIM_ERROR => True
  end.
Proof.
  unfold run_current. intros Hf Hd. destruct (g_have_cur h) eqn:Ec; [|by intros [= <- <-]].
  rewrite (run_pending_host ev (ev :: q)).
  destruct (run_pending ev (track_with (ev :: q) h)) as [[r1 x]|] eqn:E; [|done]. cbn [mbind option_bind].
  intros E'. injection E' as <- <-. destruct r1; [split; [|done]|split|done].
  - eapply at_queue_silent; [done|]. by apply (tn_run (track_with (ev :: q) h) ev q).
  - eapply at_queue_silent; [done|]. by apply (tn_stall (track_with (ev :: q) h) ev q).
  - right. exists ev, q, (ref h). split_and!; [done|done|exact E].
Qed.

(** Behind [take_interrupt]. *)
Lemma take_interrupt_arrives ev q h h' :
  take_interrupt ev h = Some (COSIM_OK, h') ->
  arrives (track_with q h) ev (g_vectors h') (ref h') /\
  track_with q h' = track_with q h <| t_ref := ref h' |> <| t_vectors := g_vectors h' |>.
Proof.
  unfold take_interrupt. destruct (g_vectors h) as [|v vs] eqn:Ev.
  { intros [= <-]. rewrite Ev. split; [by apply (ar_none (track_with q h))|]. unfold track_with. by rewrite Ev. }
  destruct (same_pc ev h) eqn:Ep.
  { intros [= <-]. apply same_pc_spec in Ep. split; [by apply (ar_there (track_with q h))|done]. }
  apply same_pc_false in Ep. set (h1 := h <| g_vectors := vs |> <| g_irqs := u64 (g_irqs h + 1) |>).
  destruct (ref_interrupt v (ref h1)) as [[r x]|] eqn:E; [|done]. cbn [mbind option_bind]. intros E'.
  assert (r = COSIM_OK /\ h' = h1 <| ref := x |>) as [-> ->] by (destruct r; [by injection E' as <-|done|done]).
  split; [|done]. by apply (ar_interrupt (track_with q h) ev v vs).
Qed.

(** The checks behind an accepted issue leave the track alone. *)
Lemma check_loop_seen ev : forall n r h, seen (check_loop n r ev h).2 = seen h.
Proof.
  induction n as [|n IH]; intros r h; [done|]. cbn [check_loop]. cbv zeta.
  repeat case_bool; try done; by rewrite IH.
Qed.

Lemma check_x87_seen cfg tb ev h : seen (check_x87 cfg tb ev h).2 = seen h.
Proof.
  unfold check_x87. destruct (_ || _); [done|]. cbv zeta. generalize (ref_x87 (ref h)) as words. intros words.
  set (h1 := if bool_decide _ then h else _). assert (seen h1 = seen h) as <- by (subst h1; by destruct (bool_decide _)).
  clearbody h1. set (h2 := if g_x87_dirty h1 then h1 else _).
  assert (seen h2 = seen h1) as <- by (subst h2; by destruct (g_x87_dirty h1)). clearbody h2.
  repeat case_bool; done.
Qed.

(** The end of an issue accepted where the reference stands. *)
Lemma checked_follows cfg t0 ins l q tb ev h o h' :
  at_queue t0 ins l q h ->
  (let '(ok, h) := check_registers ev h in
   if negb ok then Some (Diverged, h)
   else let '(ok, h) := check_x87 cfg tb ev h in Some (if ok then Accepted else Diverged, h)) = Some (o, h') ->
  o = Diverged \/ (o = Accepted /\ at_queue t0 ins l q h').
Proof.
  intros Hf. pose proof (check_loop_seen ev 8 0 h) as H1. unfold check_registers.
  destruct (check_loop 8 0 ev h) as [ok h1]. cbn [snd] in H1. destruct ok; cbn [negb]; [|intros [= <- _]; by left].
  pose proof (check_x87_seen cfg tb ev h1) as H2. destruct (check_x87 cfg tb ev h1) as [ok h2]. cbn [snd] in H2.
  intros E. injection E as <- <-. destruct ok; [right|by left]. split; [done|].
  unfold at_queue. by rewrite (track_seen q h h2) by congruence.
Qed.

(** What the host does when the reference has arrived. *)
Lemma arrived_follows cfg t0 ins l ev q tb h h2 o h' :
  at_queue t0 ins l (ev :: q) h -> g_have_cur h = false ->
  arrives (track_with (ev :: q) h) ev (g_vectors h2) (ref h2) ->
  track_with q h2 = track_with q h <| t_ref := ref h2 |> <| t_vectors := g_vectors h2 |> ->
  (if negb (same_pc ev h2) && g_squash_ok h2 then
     Some (Squashed, h2 <| g_squash_ok := false |> <| g_squashed := u64 (g_squashed h2 + 1) |>)
   else
     '(ok, h) ← fetch_fault ev h2;
     if negb ok then Some (Diverged, h)
     else
       let h := h <| g_squash_ok := false |> <| g_have_cur := true |> in
       let '(ok, h) := check_registers ev h in
       if negb ok then Some (Diverged, h)
       else let '(ok, h) := check_x87 cfg tb ev h in Some (if ok then Accepted else Diverged, h)) = Some (o, h') ->
  match o with
  | Accepted => at_queue t0 ins (l ++ [(ev, true)]) q h'
  | Squashed => at_queue t0 ins (l ++ [(ev, false)]) q h'
  | Waiting => False
  | Diverged => True
  end.
Proof.
  intros Hf Ec Har Et. unfold track_with in Et. cbn in Et. injection Et as E1 E2 E3 E4 E5.
  destruct (negb (same_pc ev h2) && g_squash_ok h2) eqn:Es.
  - apply andb_true_iff in Es as [Ep%negb_true_iff%same_pc_false Es]. intros E. injection E as <- <-.
    eapply at_queue_turn; [exact Hf|].
    assert (track_with q (h2 <| g_squash_ok := false |> <| g_squashed := u64 (g_squashed h2 + 1) |>) =
      track_with (ev :: q) h <| t_ref := ref h2 |> <| t_vectors := g_vectors h2 |> <| t_queue := q |> <| t_faulted := false |>) as ->
      by (unfold track_with; cbn; rewrite E1, E3, E4, E5; reflexivity).
    apply (tn_squash (track_with (ev :: q) h) ev q (g_vectors h2) (ref h2)); try done. cbn. congruence.
  - destruct (fetch_fault ev h2) as [[ok h3]|] eqn:E; [|done]. cbn [mbind option_bind].
    destruct ok; cbn [negb]; [|by intros [= <- _]]. set (h4 := h3 <| g_squash_ok := false |> <| g_have_cur := true |>).
    assert (at_queue t0 ins (l ++ [(ev, true)]) q h4) as Hf4.
    { eapply at_queue_turn; [exact Hf|]. revert E. unfold fetch_fault. destruct (same_pc ev h2) eqn:Ep.
      - intros [= <-]. apply same_pc_spec in Ep.
        assert (track_with q h4 = accepted ev q (g_vectors h2) (ref h2) (track_with (ev :: q) h)) as ->
          by (unfold h4, accepted, track_with; cbn; rewrite E3, E4, E5; reflexivity).
        by apply (tn_accept (track_with (ev :: q) h) ev q (g_vectors h2) (ref h2)).
      - apply same_pc_false in Ep. destruct (ref_step (ref h2)) as [[r x]|] eqn:Ex; [|done]. cbn [mbind option_bind].
        destruct (_ || _) eqn:Eb; [done|]. intros E'. injection E' as <-.
        apply orb_false_iff in Eb as [Eb Ep']. apply orb_false_iff in Eb as [Er Efl]. apply negb_false_iff in Ep', Efl.
        apply same_pc_spec in Ep'.
        assert (track_with q h4 = accepted ev q (g_vectors h2) x (track_with (ev :: q) h)) as ->
          by (unfold h4, accepted, track_with; cbn; rewrite E3, E4, E5; reflexivity).
        apply (tn_fetch_fault (track_with (ev :: q) h) ev q (g_vectors h2) (ref h2) r x); try done.
        + cbn. rewrite <- E2. cbn in Es. by destruct (g_squash_ok h2).
        + by destruct r.
        + by destruct (ref_last_fault x). }
    intros E'. apply (checked_follows cfg t0 ins (l ++ [(ev, true)]) q) in E' as [->|[-> ?]]; done.
Qed.

Lemma process_issue_follows cfg t0 ins l ev q tb h o h' :
  at_queue t0 ins l (ev :: q) h -> process_issue cfg tb ev h = Some (o, h') ->
  match o with
  | Accepted => at_queue t0 ins (l ++ [(ev, true)]) q h'
  | Squashed => at_queue t0 ins (l ++ [(ev, false)]) q h'
  | Waiting => at_queue t0 ins l (ev :: q) h' /\ settled (track_with (ev :: q) h')
  | Diverged => True
  end.
Proof.
  intros [Hf Hd]%drop_restarted_follows. unfold process_issue. revert Hf Hd. generalize (drop_restarted h). clear h.
  intros h Hf Hd. destruct (run_current ev h) as [[r h1]|] eqn:E1; [|done]. cbn [mbind option_bind].
  apply (run_current_follows t0 ins l ev q) in E1; [|done..]. destruct r; [|by intros [= <- <-]|by intros [= <- _]].
  destruct E1 as [Hf1 Ec1]. destruct (take_interrupt ev h1) as [[r h2]|] eqn:E2; [|done]. cbn [mbind option_bind].
  destruct r; [|by intros [= <- _]..].
  pose proof (take_interrupt_arrives ev (ev :: q) h1 h2 E2) as [Har _].
  pose proof (take_interrupt_arrives ev q h1 h2 E2) as [_ Et].
  intros E. pose proof (arrived_follows cfg t0 ins l ev q tb h1 h2 o h' Hf1 Ec1 Har Et E) as Ho. by destruct o.
Qed.

Lemma process_issues_follows cfg t0 ins tb : forall q l h h',
  at_queue t0 ins l q h -> process_issues cfg tb q h = Some (true, h') ->
  exists done, map fst done ++ g_issues h' = q /\ follows t0 ins (l ++ done) (track h') /\ settled (track h').
Proof.
  induction q as [|ev q IH]; intros l h h' Hf; cbn [process_issues].
  - intros [= <-]. exists []. rewrite (app_nil_r l). split_and!; [done|exact Hf|by left].
  - destruct (process_issue cfg tb ev h) as [[o h1]|] eqn:E; [|done]. cbn [mbind option_bind].
    apply (process_issue_follows cfg t0 ins l ev q) in E; [|done]. destruct o; [| | |done].
    + intros E1. destruct (IH _ _ _ E E1) as (dn & Eq & Hf' & Hs). exists ((ev, true) :: dn). cbn. rewrite Eq.
      by rewrite <- app_assoc in Hf'.
    + intros E1. destruct (IH _ _ _ E E1) as (dn & Eq & Hf' & Hs). exists ((ev, false) :: dn). cbn. rewrite Eq.
      by rewrite <- app_assoc in Hf'.
    + intros [= <-]. exists []. rewrite (app_nil_r l). by destruct E.
Qed.

(** ** The bus cycles of a clock *)

(** The bytes of a transfer that z486 writes. *)
Definition lane_writes (on : bool) (addr be data : Z) : list (bool * Z * Z) :=
  map (fun i => (on, lane_addr addr i, lane_byte data i)) (lanes be 0 4).

(** z486's writes in a clock, and the instruction it issues. *)
Definition clock_writes (tb : Taps) : list (bool * Z * Z) :=
  (if cosim_dreq_acc tb && cosim_dreq_write tb && negb (is_kind (cosim_dreq_kind tb) (Z.lor K_WALK (Z.lor K_X87 K_IO)))
   then lane_writes (cosim_a20 tb) (cosim_dreq_addr tb) (cosim_dreq_be tb) (cosim_dreq_wdata tb) else []) ++
  (if cosim_fst_acc tb then lane_writes (cosim_a20 tb) (cosim_fst_addr tb) (cosim_fst_be tb) (cosim_fst_wdata tb) else []).

Definition clock_issue (t : Z) (tb : Taps) : list IssueEv :=
  if cosim_issue tb then [mkIssue (cosim_issue_eip tb) (cosim_ecx tb) (cosim_eflags tb) (cosim_issue_cs tb) t (cosim_gprs tb)]
  else [].

(** What the taps say in a clock, in the order in which it counts. *)
Definition request_inputs (tb : Taps) : list Input :=
  let kind := cosim_dreq_kind tb in
  if cosim_dreq_acc tb then
    if cosim_dreq_write tb then
      if is_kind kind K_WALK || is_kind kind K_X87 then []
      else if is_kind kind K_IO then
        map (fun i => IOut (u16 (lane_addr (cosim_dreq_addr tb) i)) (lane_byte (cosim_dreq_wdata_direct tb) i)) (lanes (cosim_dreq_be tb) 0 4)
      else map IWrite (lane_writes (cosim_a20 tb) (cosim_dreq_addr tb) (cosim_dreq_be tb) (cosim_dreq_wdata tb))
    else [IRequest (mkRead (cosim_dreq_addr tb) (cosim_dreq_be tb) kind)]
  else [].

Definition store_inputs (tb : Taps) : list Input :=
  if cosim_fst_acc tb
  then map IWrite (lane_writes (cosim_a20 tb) (cosim_fst_addr tb) (cosim_fst_be tb) (cosim_fst_wdata tb)) else [].

Definition clock_inputs (t : Z) (tb : Taps) : list Input :=
  request_inputs tb ++ (if cosim_drd_done tb then [IDone (cosim_drd_data tb)] else []) ++ store_inputs tb ++
  [IRpti (cosim_rpti tb)] ++ map IIssue (clock_issue t tb).

(** What a clock may do to the reference otherwise. *)
Record covered (cfg : Config) (tb : Taps) (h : Host) : Prop := mkCovered {
  cov_dma : cosim_dma_wr tb = true -> forall a b x, other x (ref_dma_write a b x);
  cov_walk : cosim_dreq_acc tb && cosim_dreq_write tb && is_kind (cosim_dreq_kind tb) K_WALK = true ->
    forall a b x, other x (ref_walker_write a b x);
  cov_fpu : eqb (cosim_x87_on tb) (g_x87_on h) = false -> forall x, other x (ref_set_fpu (cosim_x87_on tb) x);
  cov_ram : cosim_issue tb && negb (g_ram_copied h) = true ->
    forall x, other x (copy_words (take (Z.to_nat (Z.shiftl (g_ram_mb cfg) 20 / 2)) (sdram tb)) 0 x)
}.

(** A part of a clock, in which [ins] come in. *)
Record moved (on : bool) (ins : list Input) (h h' : Host) : Prop := mkMoved {
  mv_follows : a20 (ref h) = on -> forall t0 ins0 l, follows t0 ins0 l (track h) -> follows t0 (ins0 ++ ins) l (track h');
  mv_a20 : a20 (ref h) = on -> a20 (ref h') = on;
  mv_issues : g_issues h' = g_issues h;
  mv_fields : g_ram_copied h' = g_ram_copied h /\ g_running h' = g_running h
}.

Lemma moved_refl on h h' :
  seen h' = seen h -> g_issues h' = g_issues h ->
  g_ram_copied h' = g_ram_copied h /\ g_running h' = g_running h -> moved on [] h h'.
Proof.
  intros E E' E2. assert (track h' = track h) as Et by (unfold track; rewrite E'; by apply track_seen).
  constructor; [|unfold seen in E; by injection E as ->|done|done].
  intros _ t0 ins0 l. by rewrite app_nil_r, Et.
Qed.

Lemma moved_trans on i1 i2 h1 h2 h3 : moved on i1 h1 h2 -> moved on i2 h2 h3 -> moved on (i1 ++ i2) h1 h3.
Proof.
  intros [A1 A2 A3 [A4 A5]] [B1 B2 B3 [B4 B5]]. constructor; [|auto|congruence|split; congruence].
  intros Ha t0 ins0 l Hf. rewrite app_assoc. auto.
Qed.

(** An input, and a change by others. *)
Lemma moved_input on i h h' :
  (a20 (ref h) = on -> input (track h) i (track h')) -> (a20 (ref h) = on -> a20 (ref h') = on) ->
  g_issues h' = g_issues h -> g_ram_copied h' = g_ram_copied h /\ g_running h' = g_running h -> moved on [i] h h'.
Proof. intros Hi Ha E1 E2. constructor; [|done..]. intros Eo t0 ins0 l Hf. eapply f_input; [exact Hf|auto]. Qed.

Lemma moved_other on f h : other (ref h) (f (ref h)) -> moved on [] h (upd_ref f h).
Proof.
  intros Ho. constructor; [|by intros <-; apply a20_other|done|done].
  intros _ t0 ins0 l Hf. rewrite app_nil_r. exact (f_other _ _ _ _ _ Hf Ho).
Qed.

(** The lanes of a transfer, one after the other. *)
Lemma each_lane_moved on be (f : nat -> Host -> option (bool * Host)) w :
  (forall i h h', f i h = Some (true, h') -> moved on (w i) h h') ->
  forall n i h h', each_lane n i be f h = Some (true, h') -> moved on (concat (map w (lanes be i n))) h h'.
Proof.
  intros Hf. induction n as [|n IH]; intros i h h'; cbn [each_lane].
  - intros [= <-]. by apply moved_refl.
  - unfold lanes. cbn [seq]. rewrite filter_cons. destruct (lane be i) eqn:El.
    + rewrite decide_True by done. destruct (f i h) as [[ok h1]|] eqn:E; [|done]. cbn [mbind option_bind].
      destruct ok; [|done]. intros E1. apply (moved_trans on (w i)) with h1; [by apply Hf|]. by apply IH.
    + rewrite decide_False by done. apply IH.
Qed.

Lemma each_lane_silent on be f h h' :
  (forall i h h', f i h = Some (true, h') -> moved on [] h h') -> each_lane 4 0 be f h = Some (true, h') -> moved on [] h h'.
Proof.
  intros Hf E. apply (each_lane_moved on be f (fun _ => []) Hf) in E. revert E.
  assert (forall l : list nat, concat (map (fun _ => []) l) = [] :> list Input) as ->; [|done]. by induction l.
Qed.

Lemma each_lane_inputs on be f (w : nat -> Input) h h' :
  (forall i h h', f i h = Some (true, h') -> moved on [w i] h h') ->
  each_lane 4 0 be f h = Some (true, h') -> moved on (map w (lanes be 0 4)) h h'.
Proof.
  intros Hf E. apply (each_lane_moved on be f (fun i => [w i]) Hf) in E. revert E.
  assert (forall l : list nat, concat (map (fun i => [w i]) l) = map w l) as ->; [|done].
  induction l as [|i l IH]; [done|]. cbn. by rewrite IH.
Qed.

(** Lanes that cannot fail. *)
Lemma each_lane_always be (f : nat -> X -> X) : forall n i h,
  each_lane n i be (fun i => always (f i)) h = Some (true, h <| ref := foldl (fun x i => f i x) (ref h) (lanes be i n) |>).
Proof.
  induction n as [|n IH]; intros i h; cbn [each_lane]; [by destruct h|]. unfold lanes. cbn [seq]. rewrite filter_cons.
  destruct (lane be i) eqn:El; [|rewrite decide_False by congruence; apply IH].
  rewrite decide_True by done. change (always (f i) h) with (Some (true, upd_ref (f i) h)). cbn [mbind option_bind]. by rewrite IH.
Qed.

Lemma dut_byte_moved on t a b port h h' : dut_byte t a b port h = Some (true, h') -> moved on [IWrite (on, a, b)] h h'.
Proof.
  unfold dut_byte. intros E. apply (moved_trans on [] _ _ (log_write t a b port h)); [by apply moved_refl|].
  revert E. generalize (log_write t a b port h). intros h1.
  destruct (ref_dut_write a b (ref h1)) as [[r x]|] eqn:E; [|done]. cbn [mbind option_bind].
  destruct r; [|done..]. intros E'. injection E' as <-. apply moved_input; [| |done|done].
  - intros <-. by apply (in_write (track h1)).
  - intros <-. by eapply a20_write.
Qed.

Lemma io_byte_moved on t a b h h' : io_byte t a b h = Some (true, h') -> moved on [IOut (u16 a) b] h h'.
Proof.
  unfold io_byte. intros E. apply (moved_trans on [] _ _ (log_write t a b 105 h)); [by apply moved_refl|].
  revert E. generalize (log_write t a b 105 h). intros h1.
  destruct (ref_dut_io_write (u16 a) b (ref h1)) as [r x] eqn:E.
  destruct r; [|done..]. intros E'. injection E' as <-. apply moved_input; [| |done|done].
  - intros _. by apply (in_out (track h1)).
  - intros <-. by eapply a20_out.
Qed.

Lemma always_other on (f : X -> X) h h' : other (ref h) (f (ref h)) -> always f h = Some (true, h') -> moved on [] h h'.
Proof. unfold always. intros Ho E. injection E as <-. by apply moved_other. Qed.

Lemma dma_moved cfg on tb h0 h h' : covered cfg tb h0 -> dma tb h = Some (true, h') -> moved on [] h h'.
Proof.
  intros Hc. unfold dma. destruct (cosim_dma_wr tb) eqn:E; [|intros [= <-]; by apply moved_refl].
  apply each_lane_silent. intros i h1 h2. apply always_other. by apply (cov_dma _ _ _ Hc).
Qed.

Lemma walk_kind kind : is_kind kind (Z.lor K_WALK (Z.lor K_X87 K_IO)) = is_kind kind K_WALK || is_kind kind K_X87 || is_kind kind K_IO.
Proof.
  unfold is_kind.
  rewrite !Z.land_lor_distr_r.
  destruct (Z.eqb_spec (Z.land kind K_WALK) 0) as [->|Hw]; destruct (Z.eqb_spec (Z.land kind K_X87) 0) as [->|Hx];
    destruct (Z.eqb_spec (Z.land kind K_IO) 0) as [->|Hi]; rewrite ?Z.lor_0_l, ?Z.lor_0_r; cbn [negb orb]; try done;
    apply negb_true_iff, Z.eqb_neq; try done; intros Hz;
    repeat match type of Hz with Z.lor _ _ = 0 => apply Z.lor_eq_0_iff in Hz as [Hz ?] end; try congruence;
    repeat match goal with Hz : Z.lor _ _ = 0 |- _ => apply Z.lor_eq_0_iff in Hz as [Hz ?] end; congruence.
Qed.

Lemma dreq_moved cfg t tb h0 h h' :
  covered cfg tb h0 -> dreq t tb h = Some (true, h') -> moved (cosim_a20 tb) (request_inputs tb) h h'.
Proof.
  intros Hc. pose proof (cov_walk _ _ _ Hc) as Hw. unfold dreq, request_inputs. cbv zeta.
  destruct (cosim_dreq_acc tb); [|intros [= <-]; by apply moved_refl].
  destruct (cosim_dreq_write tb); cbn [andb] in Hw.
  2: { intros [= <-]. apply moved_input; [|done..]. intros _. apply (in_request (track h)). }
  destruct (is_kind (cosim_dreq_kind tb) K_WALK) eqn:Ew; cbn [orb].
  { apply each_lane_silent. intros i h1 h2. apply always_other. by apply Hw. }
  destruct (is_kind (cosim_dreq_kind tb) K_X87) eqn:Ex; cbn [orb].
  { apply each_lane_silent. intros i h1 h2 [= <-]. by apply moved_refl. }
  destruct (is_kind (cosim_dreq_kind tb) K_IO) eqn:Ei.
  - intros E. eapply each_lane_inputs; [|exact E]. intros i h1 h2. apply io_byte_moved.
  - intros E. unfold lane_writes. rewrite map_map. eapply each_lane_inputs; [|exact E]. intros i h1 h2. apply dut_byte_moved.
Qed.

Lemma answered_a20 rq data x : a20 (answered rq data x) = a20 x.
Proof.
  unfold answered. destruct (_ || _); [done|]. revert x. induction (lanes (r_be rq) 0 4) as [|i l IH]; intros x; [done|].
  cbn [foldl]. rewrite IH. repeat case_bool; [apply a20_in|apply a20_read|done].
Qed.

Lemma drd_spec tb h h' rq reads :
  cosim_drd_done tb = true -> g_reads h = rq :: reads -> drd tb h = Some (true, h') ->
  h' = h <| g_reads := reads |> <| g_vectors := g_vectors h ++ acknowledged rq (cosim_drd_data tb) |>
         <| ref := answered rq (cosim_drd_data tb) (ref h) |>.
Proof.
  intros Hd Hr. unfold drd, answered, acknowledged. rewrite Hd, Hr. cbv zeta.
  destruct (is_kind (r_kind rq) K_INTA); cbn [andb orb].
  { intros [= <-]. destruct (Z.land (r_addr rq) 4 =? 0); [done|]. rewrite app_nil_r. by destruct h. }
  rewrite app_nil_r. destruct (is_kind (r_kind rq) _); [intros [= <-]; by destruct h|].
  rewrite (each_lane_always (r_be rq) (fun i x =>
    if is_kind (r_kind rq) K_IO then ref_dut_io_read (u16 (lane_addr (r_addr rq) i)) (lane_byte (cosim_drd_data tb) i) x
    else if is_kind (r_kind rq) K_DEV then ref_dut_dev_read (lane_addr (r_addr rq) i) (lane_byte (cosim_drd_data tb) i) x else x)).
  intros [= <-]. by destruct h.
Qed.

Lemma drd_moved on tb h h' :
  drd tb h = Some (true, h') -> moved on (if cosim_drd_done tb then [IDone (cosim_drd_data tb)] else []) h h'.
Proof.
  destruct (cosim_drd_done tb) eqn:Ed.
  2: { unfold drd. rewrite Ed. intros [= <-]. by apply moved_refl. }
  destruct (g_reads h) as [|rq reads] eqn:Er; [unfold drd; by rewrite Ed, Er|].
  intros E. rewrite (drd_spec tb h h' rq reads Ed Er E). apply moved_input; [| |done|done].
  - intros _. by apply (in_done (track h)).
  - intros <-. apply answered_a20.
Qed.

Lemma fst_moved t tb h h' : fst_store t tb h = Some (true, h') -> moved (cosim_a20 tb) (store_inputs tb) h h'.
Proof.
  unfold fst_store, store_inputs. destruct (cosim_fst_acc tb); [|intros [= <-]; by apply moved_refl].
  intros E. unfold lane_writes. rewrite map_map. eapply each_lane_inputs; [|exact E]. intros i h1 h2. apply dut_byte_moved.
Qed.

Lemma rpti_moved on tb h : moved on [IRpti (cosim_rpti tb)] h (rpti tb h).
Proof.
  apply moved_input; unfold rpti; try (by destruct (_ && _ && _)). intros _.
  assert (track (rpti tb h) = track h <| t_restarted := cosim_rpti tb && negb (g_rpti_prev h) && g_have_cur h || g_cur_restarted h |>
    <| t_rpti := cosim_rpti tb |>) as E by (unfold rpti; by destruct (_ && _ && _)).
  unfold rpti in E. rewrite E. apply (in_rpti (track h)).
Qed.

(** The transfers of a clock. *)
Lemma bus_moved cfg t tb h0 h h1 h2 h3 h4 :
  covered cfg tb h0 -> dma tb h = Some (true, h1) -> dreq t tb h1 = Some (true, h2) -> drd tb h2 = Some (true, h3) ->
  fst_store t tb h3 = Some (true, h4) ->
  moved (cosim_a20 tb) (request_inputs tb ++ (if cosim_drd_done tb then [IDone (cosim_drd_data tb)] else []) ++
    store_inputs tb ++ [IRpti (cosim_rpti tb)]) h (rpti tb h4).
Proof.
  intros Hc E1 E2 E3 E4. apply (moved_trans _ [] _ _ h1); [by eapply dma_moved|].
  apply (moved_trans _ _ _ _ h2); [by eapply dreq_moved|]. apply (moved_trans _ _ _ _ h3); [by eapply drd_moved|].
  apply (moved_trans _ _ _ _ h4); [by eapply fst_moved|apply rpti_moved].
Qed.

(** An issue is queued; the first after a reset brings z486's RAM. *)
Lemma issue_spec cfg t tb h0 h t0 ins l :
  covered cfg tb h0 -> g_ram_copied h = g_ram_copied h0 -> follows t0 ins l (track h) ->
  let h' := issue cfg t tb h in
  follows t0 (ins ++ map IIssue (clock_issue t tb)) l (track h') /\ g_issues h' = g_issues h ++ clock_issue t tb /\
  g_running h' = g_running h.
Proof.
  intros Hc Er Hf. pose proof (cov_ram _ _ _ Hc) as Hr. rewrite <- Er in Hr. cbv zeta. unfold issue, clock_issue.
  destruct (cosim_issue tb); [|by rewrite !app_nil_r].
  set (h1 := if g_ram_copied h then h else _).
  assert (follows t0 ins l (track h1) /\ g_issues h1 = g_issues h /\ g_running h1 = g_running h) as (A1 & <- & <-).
  { subst h1. destruct (g_ram_copied h); [done|]. split; [|done]. exact (f_other _ _ _ _ _ Hf (Hr eq_refl _)). }
  clearbody h1. split; [|done]. eapply f_input; [exact A1|]. apply (in_issue (track h1)).
Qed.

(** ** A run of clocks *)

Lemma count_clock_spec cfg t tb h t0 ins l :
  covered cfg tb h -> follows t0 ins l (track h) ->
  let h' := count_clock t tb h in
  follows t0 ins l (track h') /\ g_issues h' = g_issues h /\ g_running h' = g_running h /\ g_ram_copied h' = g_ram_copied h.
Proof.
  intros Hc Hf. pose proof (cov_fpu _ _ _ Hc) as Hx. cbv zeta. unfold count_clock. set (h1 := if cosim_cpu_reset_n tb then _ else _).
  assert (track h1 = track h /\ g_issues h1 = g_issues h /\ g_running h1 = g_running h /\
    g_ram_copied h1 = g_ram_copied h /\ g_x87_on h1 = g_x87_on h) as (A1 & <- & <- & <- & A5).
  { subst h1. cbv zeta. destruct (cosim_issue tb), (cosim_cpu_reset_n tb); split_and!; done. }
  clearbody h1. rewrite <- A5 in Hx. rewrite <- A1 in Hf. destruct (eqb (cosim_x87_on tb) (g_x87_on h1)); [done|].
  split; [|done]. exact (f_other _ _ _ _ _ Hf (Hx eq_refl _)).
Qed.

Lemma run_current_running ev h r h' : run_current ev h = Some (r, h') -> g_running h' = g_running h.
Proof.
  unfold run_current. destruct (g_have_cur h); [|by intros [= _ <-]].
  destruct (if negb _ && _ then _ else _) as [[r1 x]|]; [|done]. cbn [mbind option_bind]. intros E. injection E as _ <-.
  by destruct r1.
Qed.

Lemma take_interrupt_running ev h r h' : take_interrupt ev h = Some (r, h') -> g_running h' = g_running h.
Proof.
  unfold take_interrupt. destruct (g_vectors h) as [|v vs]; [by intros [= _ <-]|].
  destruct (same_pc ev h); [by intros [= _ <-]|]. set (x := ref _). clearbody x.
  destruct (ref_interrupt v x) as [[r1 x']|]; [|done]. cbn [mbind option_bind].
  destruct r1; intros E; injection E as _ <-; done.
Qed.

Lemma fetch_fault_running ev h r h' : fetch_fault ev h = Some (r, h') -> g_running h' = g_running h.
Proof.
  unfold fetch_fault. destruct (same_pc ev h); [by intros [= _ <-]|].
  destruct (ref_step (ref h)) as [[r1 x]|]; [|done]. cbn [mbind option_bind].
  destruct (_ || _); intros E; injection E as _ <-; done.
Qed.

Lemma check_loop_running ev : forall n r h, g_running (check_loop n r ev h).2 = g_running h.
Proof.
  induction n as [|n IH]; intros r h; [done|]. cbn [check_loop]. cbv zeta. repeat case_bool; by rewrite ?IH.
Qed.

Lemma check_x87_running cfg tb ev h : g_running (check_x87 cfg tb ev h).2 = g_running h.
Proof.
  unfold check_x87. destruct (_ || _); [done|]. cbv zeta. set (h1 := if bool_decide _ then h else _).
  assert (g_running h1 = g_running h) as <- by (subst h1; by destruct (bool_decide _)). clearbody h1.
  set (h2 := if g_x87_dirty h1 then h1 else _).
  assert (g_running h2 = g_running h1) as <- by (subst h2; by destruct (g_x87_dirty h1)). clearbody h2.
  repeat case_bool; done.
Qed.

Lemma process_issue_running cfg tb ev h o h' : process_issue cfg tb ev h = Some (o, h') -> g_running h' = g_running h.
Proof.
  unfold process_issue. assert (g_running (drop_restarted h) = g_running h) as <-.
  { unfold drop_restarted. by destruct (_ && _ && _). }
  generalize (drop_restarted h). clear h. intros h.
  destruct (run_current ev h) as [[r h1]|] eqn:E1; [|done]. cbn [mbind option_bind].
  apply run_current_running in E1. rewrite <- E1. clear E1. destruct r; [|by intros [= _ <-]..].
  destruct (take_interrupt ev h1) as [[r h2]|] eqn:E2; [|done]. cbn [mbind option_bind].
  apply take_interrupt_running in E2. rewrite <- E2. clear E2. destruct r; [|by intros [= _ <-]..].
  destruct (_ && _); [intros E; by injection E as _ <-|].
  destruct (fetch_fault ev h2) as [[ok h3]|] eqn:E3; [|done]. cbn [mbind option_bind].
  apply fetch_fault_running in E3. rewrite <- E3. clear E3. destruct ok; cbn [negb]; [|by intros [= _ <-]].
  set (h4 := h3 <| g_squash_ok := false |> <| g_have_cur := true |>). change (g_running h3) with (g_running h4). clearbody h4.
  pose proof (check_loop_running ev 8 0 h4) as H4. unfold check_registers. destruct (check_loop 8 0 ev h4) as [ok h5].
  cbn [snd] in H4. rewrite <- H4. destruct ok; cbn [negb]; [|by intros [= _ <-]].
  pose proof (check_x87_running cfg tb ev h5) as H5. destruct (check_x87 cfg tb ev h5) as [ok h6]. cbn [snd] in H5.
  intros E. by injection E as _ <-.
Qed.

Lemma process_issues_running cfg tb : forall q h b h', process_issues cfg tb q h = Some (b, h') -> g_running h' = g_running h.
Proof.
  induction q as [|ev q IH]; intros h b h'; cbn [process_issues]; [by intros [= _ <-]|].
  destruct (process_issue cfg tb ev h) as [[o h1]|] eqn:E; [|done]. cbn [mbind option_bind].
  apply process_issue_running in E. rewrite <- E. destruct o; [apply IH..|by intros [= _ <-]|by intros [= _ <-]].
Qed.

(** A clock with the CPU out of reset and the reference running. *)
Lemma bus_cycle_follows cfg t tb h0 h h' t0 ins l :
  covered cfg tb h0 -> g_running h = true -> g_ram_copied h = g_ram_copied h0 -> follows t0 ins l (track h) ->
  bus_cycle cfg t tb h = Some (true, h') ->
  exists done, follows t0 (ins ++ clock_inputs t tb) (l ++ done) (track h') /\
    map fst done ++ g_issues h' = g_issues h ++ clock_issue t tb /\ g_running h' = true /\ settled (track h').
Proof.
  intros Hc Hr Er Hf. unfold bus_cycle, start. rewrite Hr. set (ha := upd_ref _ h).
  pose proof (f_a20 t0 ins l _ (cosim_a20 tb) Hf : follows t0 ins l (track ha)) as Hfa.
  assert (a20 (ref ha) = cosim_a20 tb) as Ha by apply a20_set.
  assert (g_issues ha = g_issues h /\ g_running ha = true /\ g_ram_copied ha = g_ram_copied h0) as (Ei & Erun & Eram) by done.
  rewrite <- Ei. clearbody ha. clear Hf Hr Er Ei h.
  destruct (dma tb ha) as [[ok h1]|] eqn:E1; [|done]. cbn [mbind option_bind]. destruct ok; [|done]. cbn [negb].
  destruct (dreq t tb h1) as [[ok h2]|] eqn:E2; [|done]. cbn [mbind option_bind]. destruct ok; [|done]. cbn [negb].
  destruct (drd tb h2) as [[ok h3]|] eqn:E3; [|done]. cbn [mbind option_bind]. destruct ok; [|done]. cbn [negb].
  destruct (fst_store t tb h3) as [[ok h4]|] eqn:E4; [|done]. cbn [mbind option_bind]. destruct ok; [|done]. cbn [negb].
  destruct (bus_moved _ _ _ _ _ _ _ _ _ Hc E1 E2 E3 E4) as [B1 _ B3 [B4 B5]]. specialize (B1 Ha t0 ins l Hfa).
  revert B1 B3 B4 B5. generalize (rpti tb h4). clear E1 E2 E3 E4 h1 h2 h3 h4. intros hb B1 B3 B4 B5.
  destruct (issue_spec cfg t tb h0 hb t0 _ l Hc ltac:(congruence) B1) as (C1 & C2 & C3).
  revert C1 C2 C3. generalize (issue cfg t tb hb). intros hc C1 C2 C3.
  destruct (process_issues cfg tb (g_issues hc) hc) as [[ok hd]|] eqn:E; [|done]. cbn [mbind option_bind].
  destruct ok; [|done]. cbn [negb]. intros E'. injection E' as <-.
  pose proof (process_issues_running _ _ _ _ _ _ E) as D1.
  destruct (process_issues_follows cfg t0 _ tb _ l hc hd C1 E) as (dn & D2 & D3 & D4).
  exists dn. unfold clock_inputs. rewrite <- !app_assoc in D3. split_and!; [exact D3| | |exact D4].
  - change (map fst dn ++ g_issues hd = g_issues ha ++ clock_issue t tb). by rewrite D2, C2, B3.
  - change (g_running hd = true). congruence.
Qed.

(** The clocks of a run, with the CPU out of reset and no divergence. *)
Inductive clocks (cfg : Config) : Host -> list (Z * Taps) -> Host -> Prop :=
| c_nil h : clocks cfg h [] h
| c_cons h t tb h1 l h' :
    cosim_cpu_reset_n tb = true -> covered cfg tb h -> cosim_host_cycle cfg t tb h = Some (true, h1) ->
    clocks cfg h1 l h' -> clocks cfg h ((t, tb) :: l) h'.

Definition run_inputs (l : list (Z * Taps)) : list Input := concat (map (fun p => clock_inputs p.1 p.2) l).
Definition run_writes (l : list (Z * Taps)) : list (bool * Z * Z) := concat (map (fun p => clock_writes p.2) l).
Definition run_issues (l : list (Z * Taps)) : list IssueEv := concat (map (fun p => clock_issue p.1 p.2) l).

Lemma clocks_follow cfg h taps h' : clocks cfg h taps h' -> forall t0 ins l,
  g_running h = true -> follows t0 ins l (track h) ->
  exists done, follows t0 (ins ++ run_inputs taps) (l ++ done) (track h') /\
    map fst done ++ g_issues h' = g_issues h ++ run_issues taps /\ (taps <> [] \/ settled (track h) -> settled (track h')).
Proof.
  induction 1 as [h|h t tb h1 taps h' Hn Hc E Hl IH]; intros t0 ins l Hr Hf.
  - exists []. unfold run_inputs, run_issues. cbn. rewrite !app_nil_r. by split_and!; [..|intros []].
  - unfold cosim_host_cycle in E. destruct (g_failed h); [done|]. rewrite Hn in E.
    destruct (count_clock_spec cfg t tb h t0 ins l Hc Hf) as (A1 & A2 & A3 & A4).
    revert E A1 A2 A3 A4. generalize (count_clock t tb h). intros ha E A1 A2 A3 A4.
    apply (bus_cycle_follows cfg t tb h ha h1 t0 ins l) in E as (d1 & B1 & B2 & B3 & B4); [|done|congruence|done|done].
    destruct (IH t0 _ _ B3 B1) as (d2 & C1 & C2 & C3). exists (d1 ++ d2). unfold run_inputs, run_issues in *. cbn.
    rewrite !app_assoc in *. split_and!; [done| |auto]. rewrite map_app, <- app_assoc, C2, app_assoc, B2, A2. done.
Qed.

(** C9: the host is a refinement of [follows].  Over any clocks with the CPU
    out of reset and no divergence, whatever the reference is and wherever the
    host stands: every instruction z486 issues is, in order, accepted where the
    reference stands at its CS:EIP and then run once - not run only when RPTI
    rose while it was pending and it is no REP string, in which case it is never
    run - or squashed as the one younger issue after a fault, or still queued;
    between issues the reference takes only the oldest vector that z486 has
    acknowledged and not seen taken, where its PC and z486's part, and faulting
    fetches; it is given z486's writes, port and device transfers in the order
    of the bus; and at the end of a clock nothing is queued unless the reference
    has tried and waits for data. *)
Theorem issues_followed cfg (h : Host) taps h' (Hl : clocks cfg h taps h') (Hr : g_running h = true) :
  exists l, follows (track h) (run_inputs taps) l (track h') /\
    map fst l ++ g_issues h' = g_issues h ++ run_issues taps /\ (taps <> [] -> settled (track h')).
Proof.
  destruct (clocks_follow cfg h taps h' Hl (track h) [] [] Hr (f_start _)) as (l & Hf & E & Hs).
  exists l. split_and!; [done..|auto].
Qed.
End Follows.

(** ** An example *)

#[local] Instance counter_a20 : A20 (Z * bool) (fun x x' => x' = x).
Proof. refine {| a20 := snd |}; try done; intros * E; [by injection E as <-..|by subst]. Defined.

Lemma demo_covered tb (h : Host (Z * bool)) : g_ram_copied h = true -> covered (fun x x' => x' = x) demo_config tb h.
Proof. intros E. constructor; [done|done|done|]. rewrite E, andb_false_r. done. Qed.

(** Two instructions, the first of which z486 restarts. *)
Definition demo_issues : list (Z * Taps) :=
  [(0, demo_issue 0); (1, demo_taps true true None []); (2, demo_issue 0); (3, demo_issue 1)].

Definition demo_followed : Host (Z * bool) :=
  from_option snd (demo_host (0, true)) (run_clocks demo_config 0 (map snd demo_issues) (demo_host (0, true))).

Lemma issues_followed_witness :
  exists l, follows (fun x x' => x' = x) (track (demo_host (0, true))) (run_inputs demo_issues) l (track demo_followed) /\
    map fst l = run_issues demo_issues /\ settled (track demo_followed) /\ ref demo_followed = (1, true).
Proof.
  destruct (issues_followed (fun x x' => x' = x) demo_config (demo_host (0, true)) demo_issues demo_followed) as (l & Hf & E & Hs).
  - do 4 (eapply c_cons; [done|by apply demo_covered|vm_compute; reflexivity|]). apply c_nil.
  - done.
  - exists l. split_and!; [done| |by apply Hs|by vm_compute].
    rewrite <- (app_nil_r (map fst l)). exact E.
Defined.
