(* ===== verification/CosimSystem.v ===== *)
(** * The co-simulation: host and reference together

    The reference of CosimRun.v behind the host of CosimHost.v: the functions of
    cosim86.h that CosimRun.v does not hold ([cosim_reset], [cosim_set_fpu]) and
    the instance of [Reference].  Together the host's refinement
    ([follows], CosimFollow.v) and the soundness of lockstep runs
    (CosimLockstep.v) say that a co-simulation that reports no divergence has
    compared z486's memory with the reference's ([host_sound]). *)
From S2P Require Import Prelude CosimMem CosimMatch CosimDecode CosimAccess CosimRun CosimStep CosimLockstep CosimHost CosimFollow.

(** What 86Box's part of the state is to the functions below: the tables that
    [iss_select_fpu] switches, the x87's words, and the zeroed structures. *)
Class BoxHost (R T : Type) := {
  select_ops : bool -> T -> T;
  x87_arch : Core R -> list Z;                          (* in cosim_arch *)
  reset_rest : R
}.

Section System.
Context {R T : Type} `{Box86 R T} `{BoxHost R T} (fuel : nat).
Notation Ref := (Ref R T).

(** ** The rest of cosim86.h *)

Definition cosim_set_fpu (present : bool) (r : Ref) : Ref :=
  r <| fpu_present := present |> <| box := box r <| scratch := select_ops present (scratch (box r)) |> |>.

Definition reset_core (c : Core R) : Core R :=
  mkCore [0; 0; 0x0303; 0; 0; 0; 0; 0] 0xFFF0 0 0x0002 0 FLAGS_UNKNOWN 0xF000 0xFFFF0000 0 0 0 0 0 0
    (oldcs c) (oldcpl c) 0 false 0 0 0x3FF 0x037F reset_rest.

Definition reset_cpu (c : Cpu) : Cpu :=
  c <| cr0 := 0x10 |> <| cr2 := 0 |> <| cr3 := 0 |> <| cpl := 0 |> <| abrt := None |>.

(** Memory, the error, the counters and the access state are kept. *)
Definition cosim_reset (r : Ref) : Ref :=
  let r := upd_co (fun s => reset_queues s <| x87_summary := false |> <| ignne := false |>) r in
  let r := upd_core reset_core (upd_cpu reset_cpu r) in
  r <| last_fault := None |> <| udf := 0 |> <| was_hlt := false |>.

Definition ram_store (a : nat) (b : Z) (m : Ram) : Ram := mkRam (<[a := b]> (ram m)) (ram_bytes m) (rammask m).

Definition on_mem (f : Ram -> Ram) (r : Ref) : Ref := upd_co (fun s => s <| mem := f (mem s) |>) r.

#[export] Instance iss_reference : Reference Ref := {
  ref_step := cosim_step fuel;
  ref_step_rep_to := cosim_step_rep_to fuel;
  ref_interrupt := cosim_interrupt;
  ref_adopt_flags := adopt_flags;
  ref_eip r := pc (ccore r); ref_cs r := cs_sel (ccore r); ref_reg k r := reg (ccore r) k;
  ref_at_rep_string r := cosim_at_rep_string (peek r) (cs_base (ccore r)) (pc (ccore r)) (is32 (ccore r));
  ref_last_fault := last_fault;
  ref_instructions r := ninsn (co (iss r));
  ref_error r := err (co (iss r));
  ref_x87 r := x87_arch (ccore r);
  ref_reset := cosim_reset;
  ref_set_fpu := cosim_set_fpu;
  ref_set_a20 on := upd_cpu (fun c => c <| a20_on := on |>);
  ref_dut_write a b r := '(st, s) ← cosim_dut_write a b (co (iss r)); Some (st, upd_co (fun _ => s) r);
  ref_dut_io_write port b r := let '(st, s) := cosim_dut_io_write port b (co (iss r)) in (st, upd_co (fun _ => s) r);
  ref_dut_io_read port b := upd_co (cosim_dut_io_read port b);
  ref_dut_dev_read a b := upd_co (cosim_dut_dev_read a b);
  ref_dma_write a b := on_mem (fun m => cosim_dma_write m a b);
  ref_walker_write a b r := on_mem (fun m => cosim_walker_write (a20_on (ccpu r)) m a b) r;
  ref_store a b := on_mem (ram_store a b);
  ref_load a r := default 0 (ram (mem (co (iss r))) !! a);
  ref_snapshot_ok := cosim_snapshot_ok
}.

(** ** Composition *)

(** Nothing but steps and z486's own cycles. *)
Definition nothing_else : Ref -> Ref -> Prop := fun _ _ => False.

#[export] Instance iss_a20 : A20 Ref nothing_else.
Proof.
  refine {| a20 := fun r => a20_on (ccpu r) |}; try done.
  - intros a b x x' E. cbn [ref_dut_write iss_reference] in E.
    destruct (cosim_dut_write a b (co (iss x))) as [[st s]|] eqn:E1; [|done]. injection E as _ <-.
    unfold cosim_dut_write in E1. apply match_write_cpu in E1. unfold ccpu. cbn. by rewrite E1.
  - intros port b x x' E. cbn [ref_dut_io_write iss_reference] in E. unfold cosim_dut_io_write in E.
    pose proof (match_io_cpu port b (co (iss x))) as Hc. destruct (match_io port b (co (iss x))) as [st s].
    injection E as _ <-. unfold ccpu. cbn in *. by rewrite Hc.
Defined.

(** A write of the bus at its platform address. *)
Definition place (w : bool * Z * Z) : Z * Z := (platform_phys w.1.1 w.1.2, w.2).

Definition u32_writes : list (bool * Z * Z) -> Prop := Forall (fun w => is_u32 w.1.2).

(** The writes among z486's inputs. *)
Definition writes_of (ins : list Input) : list (bool * Z * Z) :=
  omap (fun i => match i with IWrite w => Some w | _ => None end) ins.

Lemma answered_lockstep r0 ws rq data r : lockstep fuel r0 ws r -> lockstep fuel r0 ws (answered rq data r).
Proof.
  unfold answered. destruct (_ || _); [done|]. revert r. induction (lanes (r_be rq) 0 4) as [|i l IH]; intros r Hl; [done|].
  cbn [foldl]. apply IH. cbv zeta. case_bool; [by apply ls_in|]. case_bool; [by apply ls_read|done].
Qed.

Lemma input_lockstep r0 ws t i t' :
  lockstep fuel r0 (map place ws) (t_ref t) -> u32_writes (writes_of [i]) -> input nothing_else t i t' ->
  lockstep fuel r0 (map place (ws ++ writes_of [i])) (t_ref t').
Proof.
  intros Hl Hu Hi. rewrite map_app.
  destruct Hi as [a b x' E|port b x' E|rq|data rq reads E|level|ev]; cbn [writes_of omap list_omap map];
    rewrite ?app_nil_r; try done.
  - apply Forall_inv in Hu. cbn in Hu. cbn [ref_dut_write iss_reference] in E.
    destruct (cosim_dut_write a b (co (iss (t_ref t)))) as [[st s]|] eqn:E1; [|done]. injection E as -> <-.
    by eapply ls_write.
  - cbn [ref_dut_io_write iss_reference] in E.
    assert (x' = upd_co (fun s => (cosim_dut_io_write port b s).2) (t_ref t)) as ->.
    { unfold upd_co. destruct (cosim_dut_io_write port b (co (iss (t_ref t)))) as [st s]. by injection E as _ <-. }
    by apply ls_out.
  - by apply answered_lockstep.
Qed.

Lemma run_pending_lockstep r0 ws ev t st x :
  (forall ws rep r, lockstep fuel r0 ws r -> step_fits fuel rep r) ->
  lockstep fuel r0 ws (t_ref t) -> run_pending ev t = Some (st, x) -> lockstep fuel r0 ws x.
Proof.
  intros Hfit Hl. unfold run_pending. destruct (t_vectors t); [|destruct (ref_at_rep_string (t_ref t))]; intros E.
  - by eapply (ls_step _ _ _ _ None); [exact Hl|exact (Hfit _ _ _ Hl)|exact E].
  - by eapply (ls_step _ _ _ _ (Some (i_ecx ev))); [exact Hl|exact (Hfit _ _ _ Hl)|exact E].
  - by eapply (ls_step _ _ _ _ None); [exact Hl|exact (Hfit _ _ _ Hl)|exact E].
Qed.

Lemma arrives_lockstep r0 ws t ev vectors x :
  lockstep fuel r0 ws (t_ref t) -> arrives t ev vectors x -> lockstep fuel r0 ws x.
Proof. intros Hl [_|_|v vs y _ _ E]; [exact Hl..|]. exact (ls_interrupt _ _ _ _ v _ _ Hl E). Qed.

Lemma turn_lockstep r0 ws t d t' :
  (forall ws rep r, lockstep fuel r0 ws r -> step_fits fuel rep r) ->
  lockstep fuel r0 ws (t_ref t) -> turn t d t' -> lockstep fuel r0 ws (t_ref t').
Proof.
  intros Hfit Hl [ev q _ _|ev q x _ _ _ E|ev q x _ _ _ E|ev q vs x _ _ Ha _|ev q vs x _ _ Ha _ _|ev q vs x st x' _ _ Ha _ _ E _ _ _].
  - done.
  - by eapply run_pending_lockstep.
  - apply ls_flags. by eapply run_pending_lockstep.
  - by eapply arrives_lockstep.
  - by eapply arrives_lockstep.
  - apply (arrives_lockstep r0 ws) in Ha; [|done]. by eapply (ls_step _ _ _ _ None); [exact Ha|exact (Hfit _ _ _ Ha)|exact E].
Qed.

Lemma follows_lockstep t0 ins l t :
  (forall ws rep r, lockstep fuel (t_ref t0) ws r -> step_fits fuel rep r) ->
  follows nothing_else t0 ins l t -> u32_writes (writes_of ins) -> lockstep fuel (t_ref t0) (map place (writes_of ins)) (t_ref t).
Proof.
  intros Hfit. induction 1 as [|ins l t i t' Hf IH Hi|ins l t d t' Hf IH Ht|ins l t on Hf IH|ins l t x' Hf IH []]; intros Hu.
  - apply ls_start.
  - unfold writes_of in *. rewrite omap_app in *. apply Forall_app in Hu as [Hu1 Hu2].
    by apply (input_lockstep _ (writes_of ins) t i); [apply IH|..].
  - eapply turn_lockstep; [done|by apply IH|done].
  - by apply ls_a20, IH.
Qed.

Lemma writes_of_writes ws : writes_of (map IWrite ws) = ws.
Proof. induction ws as [|w ws IH]; [done|]. unfold writes_of in *. cbn. by rewrite IH. Qed.

Lemma no_writes {A} (f : A -> Input) l : (forall a, writes_of [f a] = []) -> writes_of (map f l) = [].
Proof.
  intros Hf. induction l as [|a l IH]; [done|]. change (map f (a :: l)) with ([f a] ++ map f l).
  unfold writes_of in *. by rewrite omap_app, Hf, IH.
Qed.

Lemma clock_inputs_writes t tb : writes_of (clock_inputs t tb) = clock_writes tb.
Proof.
  unfold clock_inputs, clock_writes, request_inputs, store_inputs, clock_issue. rewrite walk_kind.
  assert (forall i j, writes_of (i ++ j) = writes_of i ++ writes_of j) as Happ by (intros; apply omap_app).
  rewrite !Happ. f_equal.
  - destruct (cosim_dreq_acc tb), (cosim_dreq_write tb), (is_kind (cosim_dreq_kind tb) K_WALK), (is_kind (cosim_dreq_kind tb) K_X87),
      (is_kind (cosim_dreq_kind tb) K_IO); cbn [andb orb negb]; try done; first [by apply no_writes|apply writes_of_writes].
  - destruct (cosim_drd_done tb), (cosim_issue tb); cbn [writes_of omap list_omap app map];
      (destruct (cosim_fst_acc tb); [rewrite writes_of_writes; apply app_nil_r|done]).
Qed.

Lemma run_inputs_writes taps : writes_of (run_inputs taps) = run_writes taps.
Proof.
  unfold run_inputs, run_writes. induction taps as [|[t tb] taps IH]; [done|]. cbn [map concat fst snd].
  rewrite <- IH, <- (clock_inputs_writes t tb). apply omap_app.
Qed.

Lemma lane_writes_u32 on addr be data : u32_writes (lane_writes on addr be data).
Proof. unfold u32_writes, lane_writes. apply Forall_map, Forall_forall. intros i _. apply u32_range. Qed.

Lemma run_writes_u32 taps : u32_writes (run_writes taps).
Proof.
  unfold run_writes. induction taps as [|[t tb] taps IH]; [constructor|]. cbn [map concat]. apply Forall_app. split; [|done].
  unfold clock_writes. apply Forall_app. split; case_match; by first [apply lane_writes_u32|constructor].
Qed.

(** C8: the co-simulation is sound from the taps to the memories.  Let host and
    reference run any number of clocks from agreeing memories, whatever 86Box's
    instructions are, with the CPU out of reset and no other master writing,
    every step to be undone within the log.  If no divergence and no error is
    reported then a RAM byte that no changing write is outstanding for holds
    what z486's bus cycles have left there, and once both sides have drained
    that is so for all of RAM. *)
Theorem host_sound D cfg (h : Host Ref) taps h'
  (Hl : clocks nothing_else cfg h taps h') (Hr : g_running h = true)
  (Ha : in_agreement D (co (iss (ref h))))
  (Hfit : forall ws rep r, lockstep fuel (ref h) ws r -> step_fits fuel rep r)
  (He : err (co (iss (ref h'))) = None) :
  exists taken, map place (run_writes taps) = taken ++ early (co (iss (ref h'))) /\
    (forall a, 0 <= a -> in_ram (mem (co (iss (ref h')))) a = true ->
       (forall p, p ∈ outstanding a (co (iss (ref h'))) -> p.1 = true) ->
       dut_after D taken a = ram_get (mem (co (iss (ref h')))) a) /\
    (fst (cosim_writes_pending (co (iss (ref h')))) = false -> dut_w (co (iss (ref h'))) = [] ->
       forall a, 0 <= a -> in_ram (mem (co (iss (ref h')))) a = true ->
         dut_after D (map place (run_writes taps)) a = ram_get (mem (co (iss (ref h')))) a).
Proof.
  destruct (clocks_follow nothing_else cfg h taps h' Hl (track h) [] [] Hr) as (l & Hf & _); [apply f_start|].
  cbn [app] in Hf. apply follows_lockstep in Hf; [|done|rewrite (run_inputs_writes taps); apply run_writes_u32].
  change (lockstep fuel (ref h) (map place (writes_of (run_inputs taps))) (ref h')) in Hf. rewrite run_inputs_writes in Hf.
  apply (lockstep_agrees D) in Hf; [|done]. by apply agreeing_sound.
Qed.
End System.

(** ** Steps that fit the log *)

Section Fits.
Context {R T : Type} `{Box86 R T}.
Notation Ref := (Ref R T).

Definition log_length (i : Iss) : nat := length (mem_log (co i)).

(** A program of accesses that changes at most [k] bytes. *)
Definition grows {A} (k : nat) (p : Prog A) : Prop := forall s, (log_length (exec p s).2 <= log_length s + k)%nat.

Lemma store_byte_log pa b s : (length (mem_log (store_byte pa b s)) <= S (length (mem_log s)))%nat.
Proof.
  unfold store_byte. rewrite wr_hook_eq. destruct (in_ram (mem s) pa); cbn [negb]; [|cbn; lia].
  cbn [mem_log set_field mem]. unfold mem_log_write. repeat case_bool; rewrite ?length_app; cbn; lia.
Qed.

Lemma store_all_log val : forall pas j s, (length (mem_log (store_all j val pas s)) <= length (mem_log s) + length pas)%nat.
Proof.
  induction pas as [|pa pas IH]; intros j s; cbn [store_all length]; [lia|].
  pose proof (IH (S j) (store_byte pa (byte_of val j) s)). pose proof (store_byte_log pa (byte_of val j) s). lia.
Qed.

Lemma store_partial_log val : forall pas j s, (log_length (store_partial j val pas s) <= log_length s + length pas)%nat.
Proof.
  unfold log_length. induction pas as [|pa pas IH]; intros j s; cbn [store_partial length]; [lia|].
  destruct (_ <? 4)%nat; [|lia]. etrans; [apply IH|]. cbn [co set_field].
  pose proof (store_byte_log pa (byte_of val j) (co s)). lia.
Qed.

Lemma xl_log addr write s : log_length (xl addr write s).2 = log_length s.
Proof. unfold xl. destruct (pending s); [done|]. by destruct (walk _ _ _ _). Qed.

Lemma xl_all_log n : forall i addr s,
  log_length (xl_all n i addr s).2 = log_length s /\ (length (xl_all n i addr s).1.1 <= n)%nat.
Proof.
  induction n as [|n IH]; intros i addr s; [by split|]. cbn [xl_all].
  pose proof (xl_log (u32 (addr + i)) true s) as Hx. destruct (xl _ _ s) as [[a|] s1]; [|cbn; split; [done|lia]].
  destruct (IH (i + 1) addr s1) as [I1 I2]. destruct (xl_all n (i + 1) addr s1) as [[l all] s2]. cbn in *.
  split; [congruence|lia].
Qed.

Lemma write_n_log addr val n s : (log_length (write_n addr val n s) <= log_length s + n)%nat.
Proof.
  unfold write_n. destruct (xl_all_log n 0 addr s) as [H1 H2]. destruct (xl_all n 0 addr s) as [[pas all] s1].
  cbn [fst snd] in *. rewrite <- H1. destruct all.
  - unfold log_length. cbn [co set_field]. pose proof (store_all_log val pas 0 (co s1)). lia.
  - destruct (_ && _); [|lia]. pose proof (store_partial_log val pas 0 s1). lia.
Qed.

Lemma read_loop_log n : forall i addr v s, log_length (read_loop n i addr v s).2 = log_length s.
Proof.
  induction n as [|n IH]; intros i addr v s; [done|]. cbn [read_loop].
  pose proof (xl_log (u32 (addr + i)) false s) as Hx. destruct (xl _ _ s) as [[a|] s1]; [|done].
  destruct (rd_hook_mem a (co s1)) as (_ & Hl & _). destruct (rd_hook a (co s1)) as [b c]. rewrite IH.
  unfold log_length in *. cbn in *. congruence.
Qed.

Lemma grows_ret {A} (a : A) k : grows k (Ret a).
Proof. intros s. cbn. lia. Qed.

Lemma grows_read {A} addr n (p : Z -> Prog A) k : (forall v, grows k (p v)) -> grows k (ReadMem addr n p).
Proof.
  intros Hp s. cbn [exec]. unfold read_n. pose proof (read_loop_log n 0 addr 0 s) as Hr.
  destruct (read_loop n 0 addr 0 s) as [v s1]. cbn [snd] in Hr. rewrite <- Hr. apply Hp.
Qed.

Lemma grows_write {A} addr val n (p : Prog A) k : grows k p -> grows (n + k) (WriteMem addr val n p).
Proof. intros Hp s. cbn [exec]. pose proof (Hp (write_n addr val n s)). pose proof (write_n_log addr val n s). lia. Qed.

Lemma grows_fetch {A} a (p : option Z -> Prog A) k : (forall v, grows k (p v)) -> grows k (FetchPage a p).
Proof.
  intros Hp s. cbn [exec]. unfold getpccache. set (s0 := s <| co := _ |>).
  pose proof (xl_log (Z.land a 0xFFFFF000) false s0) as Hx. destruct (xl _ _ s0) as [v s1]. cbn [snd] in Hx.
  etrans; [apply Hp|]. unfold log_length in *. cbn in *. lia.
Qed.

Lemma grows_code {A} i (p : Z -> Prog A) k : (forall v, grows k (p v)) -> grows k (CodeByte i p).
Proof. intros Hp s. cbn [exec]. apply Hp. Qed.

Lemma grows_le {A} j k (p : Prog A) : (j <= k)%nat -> grows j p -> grows k p.
Proof. intros Hle Hp s. specialize (Hp s). lia. Qed.

(** Every instruction, and every element of a string, changes at most [k]
    bytes. *)
Context (k : nat)
  (Hfetch : forall a b, grows 0 (fastreadl_fetch a b)) (Hops : forall index d b, grows k (x86_2386_opcodes index d b)).

Lemma exec_one_log r : (log_length (iss (exec_one r).2) <= log_length (iss r) + k)%nat.
Proof using Hfetch Hops.
  unfold exec_one. set (r0 := upd_core _ r). change (log_length (iss r)) with (log_length (iss r0)). clearbody r0.
  pose proof (Hfetch (lin_pc (ccore r0)) (box r0) (iss r0)) as Hf. destruct (exec (fastreadl_fetch _ _) _) as [[d b] i].
  cbn [snd] in Hf. set (r1 := r0 <| box := b |> <| iss := i |>).
  assert (log_length (iss r1) <= log_length (iss r0))%nat as H1 by (change (log_length (iss r1)) with (log_length i); lia).
  clearbody r1. destruct (pending (iss r1)); [cbn [snd]; lia|]. cbn [snd]. set (r2 := upd_core _ (r1 <| box := _ |>)).
  change (log_length (iss r1)) with (log_length (iss r2)) in H1. clearbody r2. clear Hf i b r.
  set (idx := Z.land (Z.lor _ _) _). clearbody idx. set (r3 := call _ r2).
  assert (log_length (iss r3) <= log_length (iss r2) + k)%nat as H3.
  { subst r3. unfold call. pose proof (Hops idx (Z.shiftr d 8) (box r2) (iss r2)) as Ho.
    destruct (exec _ (iss r2)) as [b i]. exact Ho. }
  clearbody r3. assert (log_length (iss (if is32 (ccore r3) then r3 else upd_core (fun c => c <| pc := Z.land (pc c) 0xFFFF |>) r3)) = log_length (iss r3)) as ->
    by (by destruct (is32 (ccore r3))). lia.
Qed.

Lemma exec_cycles_log r : (log_length (iss (exec_cycles r).2) <= log_length (iss r) + k)%nat.
Proof using Hfetch Hops. unfold exec_cycles. etrans; [apply exec_one_log|]. done. Qed.

Lemma cut_loop_log ecx stop pre : forall fuel f r f' r', cut_loop fuel ecx stop pre f r = Some (f', r') ->
  (log_length (iss r') <= log_length (iss r) + fuel * k)%nat.
Proof using Hfetch Hops.
  induction fuel as [|fuel IH]; intros f r f' r'; cbn [cut_loop]; destruct (_ || _).
  - intros [= _ <-]. lia.
  - done.
  - intros [= _ <-]. lia.
  - set (r0 := upd_core _ r). pose proof (exec_cycles_log r0) as Hk. change (log_length (iss r0)) with (log_length (iss r)) in Hk.
    destruct (exec_cycles r0) as [f1 r1]. cbn [snd] in Hk. destruct (negb _); [intros [= _ <-]; lia|].
    intros E%IH. lia.
Qed.

Lemma chunk_loop_log rep pre : forall fuel f r f' r', chunk_loop fuel rep pre f r = Some (f', r') ->
  (log_length (iss r') <= log_length (iss r) + fuel * k)%nat.
Proof using Hfetch Hops.
  induction fuel as [|fuel IH]; intros f r f' r'; cbn [chunk_loop]; destruct (_ && _).
  - done.
  - intros [= _ <-]. lia.
  - pose proof (exec_cycles_log r) as Hk. destruct (exec_cycles r) as [f1 r1]. cbn [snd] in Hk. intros E%IH. lia.
  - intros [= _ <-]. lia.
Qed.

Lemma execute_log fuel i rep_left r f e r' : execute fuel i rep_left r = Some (f, e, r') ->
  (log_length (iss r') <= log_length (iss r) + S fuel * k)%nat.
Proof using Hfetch Hops.
  unfold execute. set (cap := _ && _ && _). set (r0 := if cap then _ else r).
  assert (log_length (iss r0) = log_length (iss r)) as <- by (subst r0; by destruct cap).
  set (saved := cwd _). set (ecx := xorb _ _). clearbody r0 saved ecx.
  destruct (match cut_at i ecx rep_left with Some _ => _ | None => _ end) as [[[f1 e1] r1]|] eqn:E; [|done]. cbn [mbind option_bind].
  intros E1. injection E1 as _ _ <-.
  assert (log_length (iss (if cap then upd_core (fun c => c <| cwd := saved |>) r1 else r1)) = log_length (iss r1)) as -> by (by destruct cap).
  destruct (cut_at i ecx rep_left) as [n|].
  - destruct (cut_loop _ _ _ _ _ _) as [[f2 r2]|] eqn:El; [|done]. cbn [mbind option_bind] in E. injection E as _ _ <-.
    apply cut_loop_log in El. change (log_length (iss (upd_core (fun c => c <| trap := 1 |>) r0))) with (log_length (iss r0)) in El.
    change (log_length (iss (upd_core (fun c => c <| trap := trap (ccore r0) |>) r2))) with (log_length (iss r2)). lia.
  - destruct (i_op i =? 0xC8).
    + pose proof (exec_cycles_log r0) as Hk. destruct (exec_cycles r0) as [f2 r2]. cbn [snd] in Hk.
      destruct f2; [injection E as _ _ <-; lia|].
      assert (log_length (iss (enter_probe (op32 (i_d i)) r2).2) = log_length (iss r2)) as Hp.
      { unfold enter_probe, probe. cbn [snd iss set_field]. by destruct (iss_probe _ _ _ _ _ _). }
      destruct (enter_probe _ r2) as [e2 r3]. cbn [snd] in Hp. injection E as _ _ <-. lia.
    + pose proof (exec_cycles_log r0) as Hk. destruct (exec_cycles r0) as [f2 r2]. cbn [snd] in Hk.
      destruct (chunk_loop _ _ _ _ _) as [[f3 r3]|] eqn:El; [|done]. cbn [mbind option_bind] in E. injection E as _ _ <-.
      apply chunk_loop_log in El. lia.
Qed.

(** The fuel bounds the elements of a string that a step may run. *)
Lemma small_steps_fit fuel rep_left r : (S fuel * k < MAX_MEM_LOG)%nat -> step_fits fuel rep_left r.
Proof using Hfetch Hops.
  intros Hlt i r1 r2 f e r3 Hf Hx He _.
  apply execute_log in He. apply fetch_insn_spec in Hf.
  assert (log_length (iss (at_boundary r2)) = 0%nat) as E; [|unfold log_length in *; lia].
  change (log_length (iss (at_boundary r2))) with (log_length (iss r2)). unfold log_length.
  by rewrite (fe_log _ _ _ (frozen_fetched _ _ _ _ _ _ Hf Hx)).
Qed.
End Fits.

(** ** An example: the machine of CosimStep.v behind the host *)

#[local] Existing Instance demo_box86.

#[local] Instance demo_boxhost : BoxHost unit unit := { select_ops _ t := t; x87_arch _ := []; reset_rest := tt }.

Lemma demo_insn_grows index d b : grows 4 (demo_insn index d b).
Proof.
  unfold demo_insn. repeat case_bool; try apply grows_ret.
  - apply grows_read. intros v. apply (grows_le (1 + 0)); [lia|]. by apply grows_write, grows_ret.
  - apply (grows_le (1 + 0)); [lia|]. by apply grows_write, grows_ret.
  - apply (grows_write _ _ 4 _ 0). apply grows_ret.
  - do 2 (apply grows_read; intros). apply grows_ret.
Qed.

Lemma demo_fetch_grows a b : grows 0 (demo_fetch a b).
Proof. apply grows_fetch. intros [p|]; [|apply grows_ret]. do 2 (apply grows_code; intros). apply grows_ret. Qed.

Lemma demo_fits rep_left r : step_fits 20 rep_left r.
Proof.
  eapply (small_steps_fit (H := demo_box86) 4); [exact demo_fetch_grows|exact demo_insn_grows|].
  apply Nat.ltb_lt. by vm_compute.
Qed.

#[local] Instance demo_reference : Reference (Ref unit unit) := iss_reference 20.

(** A store of four bytes at 800h, the instruction after it, and z486's store. *)
Definition demo_machine : Host (Ref unit unit) := demo_host (demo_ref [0x89; 0x90] (demo_core 0x12345678 0 0x800 0) false [] 0).

Definition demo_store : Taps :=
  mkTaps true true true false 0 0 0 false 0 0 false 0 0 0 false 0 true 0x800 15 0x12345678 false false 0 0 0 0 [] true false [] [].

Definition demo_gprs : list Z := [0x12345678; 0; 0; 0; 0; 0; 0x800; 0].

Definition demo_clocks : list (Z * Taps) :=
  [(0, demo_taps true false (Some 16) demo_gprs); (1, demo_taps true false (Some 17) demo_gprs); (2, demo_store)].

Fixpoint run_demo (l : list (Z * Taps)) (h : Host (Ref unit unit)) : option (Host (Ref unit unit)) :=
  match l with
  | [] => Some h
  | (t, tb) :: l =>
    match cosim_host_cycle demo_config t tb h with
    | Some (true, h1) => if g_ram_copied h && g_x87_on h then run_demo l h1 else None
    | _ => None
    end
  end.

Lemma run_demo_clocks l : forall h h',
  Forall (fun p => cosim_cpu_reset_n p.2 = true /\ cosim_dma_wr p.2 = false /\ cosim_dreq_acc p.2 = false /\ cosim_x87_on p.2 = true) l ->
  run_demo l h = Some h' -> clocks nothing_else demo_config h l h'.
Proof.
  induction l as [|[t tb] l IH]; intros h h' Hp E; cbn [run_demo] in E; [injection E as <-; apply c_nil|].
  apply Forall_cons in Hp as [(H1 & H2 & H3 & H4) Hp']. cbn [snd] in *.
  revert E. destruct (cosim_host_cycle demo_config t tb h) as [[[|] h1]|] eqn:Ec; [|done|done].
  destruct (g_ram_copied h && g_x87_on h) eqn:Ef; [|done]. intros E. apply andb_true_iff in Ef as [Er Ex].
  apply (c_cons _ _ _ _ _ h1); [done| |done|by apply IH]. constructor.
  - by rewrite H2.
  - by rewrite H3.
  - by rewrite H4, Ex.
  - by rewrite Er, andb_false_r.
Qed.

Definition demo_end : Host (Ref unit unit) := default demo_machine (run_demo demo_clocks demo_machine).

Lemma demo_run : run_demo demo_clocks demo_machine = Some demo_end.
Proof.
  unfold demo_end. destruct (run_demo demo_clocks demo_machine) as [h|] eqn:E; [done|]. exfalso.
  assert (match run_demo demo_clocks demo_machine with Some _ => true | None => false end = true) as E' by (by vm_compute).
  by rewrite E in E'.
Qed.

Lemma host_sound_witness :
  err (co (iss (ref demo_end))) = None /\
  (forall a, 0 <= a -> in_ram (mem (co (iss (ref demo_end)))) a = true ->
     dut_after (ram_get (mem (co (iss (ref demo_machine))))) (map place (run_writes demo_clocks)) a =
     ram_get (mem (co (iss (ref demo_end)))) a).
Proof.
  split; [by vm_compute|].
  destruct (host_sound 20 (ram_get (mem (co (iss (ref demo_machine))))) demo_config demo_machine demo_clocks demo_end)
    as (taken & _ & _ & Heq).
  - apply run_demo_clocks; [repeat constructor|apply demo_run].
  - done.
  - unfold in_agreement. split; [apply demo_code_ok; cbn; lia|]. by split_and!.
  - intros ws rep r _. apply demo_fits.
  - by vm_compute.
  - apply Heq; by vm_compute.
Defined.
