(* ===== verification/Outputs.v ===== *)
(** * Recordings and compressed files

    verilator/wav_writer.h, the recording of the sound output, and the shell
    commands of verilator/zfile.h, through which compressed RAM snapshots
    are written and read.

    A closed recording is a WAV file of the samples written ([wav_reads_back]);
    its sizes are 32 bits wide and wrap ([wav_size_wraps]).  The shell splits
    the commands of zfile.h into zstd's arguments, the path being the last,
    whatever characters it has ([zstd_arguments]). *)
From S2P Require Import Prelude Codec IdeTypes Text.

(** ** [FILE], opened for writing *)

Record File := mkFile { contents : list Z; pos : nat }.

Definition fopen_wb : File := mkFile [] 0.
Definition fwrite (b : list Z) (f : File) : File :=
  mkFile (take (pos f) (contents f) ++ b ++ drop (pos f + length b) (contents f)) (pos f + length b).
Definition fseek_set (p : nat) (f : File) : File := mkFile (contents f) p.

(** ** [WAVWriter] *)

Record WAVWriter := mkWAV {
  wav_file : option File;
  wav_data_size : Z;
  sample_rate : Z;
  channels : Z;
  bits_per_sample : Z
}.

Definition wav_header (w : WAVWriter) : list Z :=
  str "RIFF" ++ le_bytes 4 (u32 (36 + wav_data_size w)) ++ str "WAVE" ++ str "fmt " ++
  le_bytes 4 16 ++ le_bytes 2 1 ++ le_bytes 2 (channels w) ++ le_bytes 4 (sample_rate w) ++
  le_bytes 4 (u32 (u32 (sample_rate w * channels w) * bits_per_sample w) / 8) ++
  le_bytes 2 (u16 (channels w * bits_per_sample w / 8)) ++ le_bytes 2 (bits_per_sample w) ++
  str "data" ++ le_bytes 4 (wav_data_size w).

Definition write_header (w : WAVWriter) : WAVWriter :=
  match wav_file w with
  | Some f => mkWAV (Some (fwrite (wav_header w) f)) (wav_data_size w) (sample_rate w) (channels w) (bits_per_sample w)
  | None => w
  end.

(** The constructor; [opened] tells whether the file could be opened. *)
Definition wav_open (opened : bool) (rate channel_count bits : Z) : WAVWriter :=
  let w := mkWAV None 0 rate channel_count bits in
  if opened then write_header (mkWAV (Some fopen_wb) 0 rate channel_count bits) else w.

(** The destructor: the file left behind. *)
Definition wav_close (w : WAVWriter) : option (list Z) :=
  match wav_file w with
  | Some f =>
    contents <$> wav_file (write_header (mkWAV (Some (fseek_set 0 f)) (wav_data_size w) (sample_rate w) (channels w) (bits_per_sample w)))
  | None => None
  end.

Definition write_sample (left right : Z) (w : WAVWriter) : WAVWriter :=
  match wav_file w with
  | Some f =>
    mkWAV (Some (fwrite (le_bytes 2 right) (fwrite (le_bytes 2 left) f))) (u32 (wav_data_size w + 4))
      (sample_rate w) (channels w) (bits_per_sample w)
  | None => w
  end.

(** A recording of main: opened for stereo, 16 bits, written, closed. *)
Definition write_samples (l : list (Z * Z)) (w : WAVWriter) : WAVWriter :=
  fold_left (fun w s => write_sample s.1 s.2 w) l w.
Definition recording (rate : Z) (l : list (Z * Z)) : option (list Z) :=
  wav_close (write_samples l (wav_open true rate 2 16)).

(** *** The format: a reader of 16-bit stereo files *)

Definition field (n : nat) (l : list Z) : Z := le_val (take n l).

Fixpoint read_samples (fuel : nat) (l : list Z) : option (list (Z * Z)) :=
  match l, fuel with
  | [], _ => Some []
  | a :: b :: c :: d :: l, S fuel =>
    x ← c_dec (signed 2) [a; b]; y ← c_dec (signed 2) [c; d]; r ← read_samples fuel l; Some ((x, y) :: r)
  | _, _ => None
  end.

(** The rate and the samples, if every length in the header is right. *)
Definition read_wav (l : list Z) : option (Z * list (Z * Z)) :=
  let n := Z.of_nat (length l) in
  let rate := field 4 (drop 24 l) in
  if decide (take 4 l = str "RIFF" /\ field 4 (drop 4 l) = n - 8 /\ take 4 (drop 8 l) = str "WAVE" /\
             take 4 (drop 12 l) = str "fmt " /\ field 4 (drop 16 l) = 16 /\ field 2 (drop 20 l) = 1 /\
             field 2 (drop 22 l) = 2 /\ field 4 (drop 28 l) = 4 * rate /\ field 2 (drop 32 l) = 4 /\
             field 2 (drop 34 l) = 16 /\ take 4 (drop 36 l) = str "data" /\ field 4 (drop 40 l) = n - 44)
  then s ← read_samples (length l) (drop 44 l); Some (rate, s)
  else None.

Definition sample_bytes (s : Z * Z) : list Z := le_bytes 2 s.1 ++ le_bytes 2 s.2.
Definition is_s16 (x : Z) : Prop := -32768 <= x < 32768.

(** *** Lemmas *)

Lemma fwrite_end b f : pos f = length (contents f) -> fwrite b f = mkFile (contents f ++ b) (length (contents f ++ b)).
Proof.
  intros E. unfold fwrite. rewrite E, firstn_all, drop_ge by lia. by rewrite app_nil_r, length_app.
Qed.

Lemma wav_header_length w : length (wav_header w) = 44%nat.
Proof. unfold wav_header. rewrite !length_app, !length_le_bytes. reflexivity. Qed.

(** The file behind [l]: the first header, and the samples. *)
Lemma write_samples_file l f n rate :
  pos f = length (contents f) ->
  write_samples l (mkWAV (Some f) (u32 n) rate 2 16) =
  mkWAV (Some (mkFile (contents f ++ concat (map sample_bytes l)) (length (contents f ++ concat (map sample_bytes l)))))
    (u32 (n + 4 * Z.of_nat (length l))) rate 2 16.
Proof.
  revert f n. induction l as [|[x y] l IH]; intros f n Hp.
  - cbn. rewrite app_nil_r, Z.add_0_r, <- Hp. by destruct f.
  - change (write_samples ((x, y) :: l)) with (fun w => write_samples l (write_sample x y w)). cbv beta.
    unfold write_sample at 1. cbn [wav_file wav_data_size sample_rate channels bits_per_sample].
    rewrite (fwrite_end _ f) by done. rewrite fwrite_end by done. cbn [contents].
    replace (u32 (u32 n + 4)) with (u32 (n + 4)) by (unfold u32; by rewrite Zplus_mod_idemp_l).
    rewrite IH by done. cbn [contents length map concat]. unfold sample_bytes at 3 4. cbn [fst snd].
    rewrite <- !app_assoc. do 2 f_equal. lia.
Qed.

Lemma recording_bytes rate l :
  recording rate l = Some (wav_header (mkWAV None (u32 (4 * Z.of_nat (length l))) rate 2 16) ++ concat (map sample_bytes l)).
Proof.
  unfold recording, wav_open, write_header at 1. cbn [wav_file wav_data_size sample_rate channels bits_per_sample].
  rewrite fwrite_end by done. change (contents fopen_wb) with (@nil Z). cbn [app]. rewrite wav_header_length.
  set (h := wav_header _). assert (length h = 44%nat) as Hh by apply wav_header_length. clearbody h.
  replace (mkWAV (Some (mkFile h 44)) 0 rate 2 16) with (mkWAV (Some (mkFile h 44)) (u32 0) rate 2 16) by done.
  rewrite write_samples_file by done. rewrite Z.add_0_l. unfold wav_close, write_header.
  cbn [wav_file wav_data_size sample_rate channels bits_per_sample fmap option_fmap option_map contents].
  set (w := mkWAV (Some _) _ _ _ _). set (v := mkWAV None _ _ _ _). change (wav_header w) with (wav_header v).
  assert (length (wav_header v) = 44%nat) as Hv by apply wav_header_length. generalize dependent (wav_header v). intros b Hb.
  unfold fwrite, fseek_set. cbn [contents pos take app]. rewrite Nat.add_0_l, Hb, <- Hh. by rewrite drop_app_length.
Qed.

Lemma read_sample_bytes l fuel :
  Forall (fun s => is_s16 s.1 /\ is_s16 s.2) l -> (4 * length l <= fuel)%nat ->
  read_samples fuel (concat (map sample_bytes l)) = Some l.
Proof.
  revert fuel. induction l as [|[x y] l IH]; intros fuel Hl Hf; [by destruct fuel|].
  apply Forall_cons in Hl as [[Hx Hy] Hl]. cbn [fst snd length] in *. destruct fuel as [|fuel]; [lia|].
  unfold is_s16 in *.
  assert (forall v, -32768 <= v < 32768 -> c_dec (signed 2) (le_bytes 2 v) = Some v) as Hd
    by (intros v Hv; apply (dec_enc (c := signed 2)); cbn; lia).
  pose proof (Hd x Hx) as Ex. pose proof (Hd y Hy) as Ey. cbn [le_bytes] in Ex, Ey.
  cbn [map concat sample_bytes fst snd le_bytes app read_samples]. rewrite Ex, Ey. cbn [mbind option_bind].
  rewrite IH by (done || lia). done.
Qed.

Lemma length_samples l : Z.of_nat (length (concat (map sample_bytes l))) = 4 * Z.of_nat (length l).
Proof. induction l as [|s l IH]; [done|]. cbn [map concat length]. rewrite length_app. cbn. lia. Qed.

Lemma field_le_bytes n v rest : 0 <= v < 256 ^ Z.of_nat n -> field n (le_bytes n v ++ rest) = v.
Proof.
  intros Hv. unfold field. rewrite take_app_le by (by rewrite length_le_bytes).
  rewrite take_ge by (by rewrite length_le_bytes). rewrite le_val_bytes. by apply Z.mod_small.
Qed.

Lemma field_is n l v rest w : l = le_bytes n v ++ rest -> 0 <= v < 256 ^ Z.of_nat n -> v = w -> field n l = w.
Proof. intros -> Hv <-. by apply field_le_bytes. Qed.

Lemma u32_small x : 0 <= x < 2 ^ 32 -> u32 x = x.
Proof. intros H. apply u32_id. unfold is_u32. lia. Qed.

(** A recording, closed, is a WAV file with the rate and the samples
    written, as long as its sizes fit in 32 bits. *)
Lemma wav_reads_back rate l :
  0 <= 32 * rate < 2 ^ 32 -> Forall (fun s => is_s16 s.1 /\ is_s16 s.2) l -> 36 + 4 * Z.of_nat (length l) < 2 ^ 32 ->
  exists file, recording rate l = Some file /\ read_wav file = Some (rate, l).
Proof.
  intros Hr Hl Hn. rewrite recording_bytes. eexists. split; [done|].
  set (n := Z.of_nat (length l)) in *. set (data := concat (map sample_bytes l)).
  assert (Z.of_nat (length data) = 4 * n) as Hd by apply length_samples.
  assert (read_samples (44 + length data) data = Some l) as Hs by (apply read_sample_bytes; [done|lia]).
  clearbody data. unfold read_wav. rewrite length_app, wav_header_length. cbv zeta.
  unfold wav_header. cbn [wav_data_size sample_rate channels bits_per_sample].
  rewrite (u32_small (4 * n)), (u32_small (36 + 4 * n)), (u32_small (rate * 2)), (u32_small (rate * 2 * 16)) by lia.
  replace (rate * 2 * 16 / 8) with (4 * rate) by divlia. change (u16 (2 * 16 / 8)) with 4.
  rewrite <- !app_assoc.
  match goal with |- context [field 4 (drop 24 ?x)] => assert (field 4 (drop 24 x) = rate) as -> end.
  { eapply field_is; [reflexivity|cbn; lia|done]. }
  rewrite decide_True.
  - replace (drop 44 _) with data by reflexivity. by rewrite Hs.
  - split_and!; try reflexivity; (eapply field_is; [reflexivity|cbn; lia|]); lia.
Qed.

Lemma wav_reads_back_witness : exists file,
  recording 48000 [(1, -1); (32767, -32768)] = Some file /\ read_wav file = Some (48000, [(1, -1); (32767, -32768)]).
Proof. apply wav_reads_back; [lia|repeat constructor; cbn; lia|cbn; lia]. Defined.

(** Past 2^30 samples the header's sizes wrap. *)
Lemma wav_size_wraps l : Z.of_nat (length l) = 2 ^ 30 -> wav_data_size (write_samples l (wav_open true 48000 2 16)) = 0.
Proof.
  intros Hl. unfold wav_open, write_header. cbn [wav_file wav_data_size sample_rate channels bits_per_sample].
  rewrite (fwrite_end _ fopen_wb) by done. change (contents fopen_wb) with (@nil Z).
  rewrite (write_samples_file l _ 0) by done. cbn [wav_data_size]. rewrite Hl. reflexivity.
Qed.

(** ** zfile.h *)

Definition zfile_is_zst (path : list Z) : bool :=
  (4 <? length path)%nat && bool_decide (drop (length path - 4) path = str ".zst").

Definition quote_char : Z := 39.
Definition backslash : Z := 92.

Definition zfile_quote (s : list Z) : list Z :=
  [quote_char] ++ concat (map (fun c => if c =? quote_char then [quote_char; backslash; quote_char; quote_char] else [c]) s) ++ [quote_char].

(** The command given to popen, or none for a plain file; a path has no zero
    character. *)
Definition zfile_open_write (path : list Z) : option (list Z) :=
  if zfile_is_zst path then Some (str "zstd -q -1 -T0 -f -o " ++ zfile_quote path) else None.
Definition zfile_open_read (path : list Z) : option (list Z) :=
  if zfile_is_zst path then Some (str "zstd -q -dc " ++ zfile_quote path) else None.

(** *** The shell: token recognition and quote removal

    [cur] is the word that is read; [None] for a command with an operator, an
    expansion or an open quote, which zfile.h does not make. *)
Definition plain (c : Z) : bool :=
  (48 <=? c) && (c <=? 57) || (65 <=? c) && (c <=? 90) || (97 <=? c) && (c <=? 122) || existsb (Z.eqb c) (str "-_./").

Fixpoint shell (quoted : bool) (cur : option (list Z)) (l : list Z) : option (list (list Z)) :=
  match l with
  | [] => if quoted then None else Some (option_list cur)
  | c :: l =>
    if quoted then
      if c =? quote_char then shell false cur l else shell true (Some (default [] cur ++ [c])) l
    else if c =? quote_char then shell true (Some (default [] cur)) l
    else if c =? backslash then
      match l with
      | d :: l => if d =? newline then shell false cur l else shell false (Some (default [] cur ++ [d])) l
      | [] => None
      end
    else if c =? 32 then r ← shell false None l; Some (option_list cur ++ r)
    else if plain c then shell false (Some (default [] cur ++ [c])) l
    else None
  end.

Lemma shell_quoted s : forall w,
  shell true (Some w) (concat (map (fun c => if c =? quote_char then [quote_char; backslash; quote_char; quote_char] else [c]) s) ++ [quote_char])
  = Some [w ++ s].
Proof.
  induction s as [|c s IH]; intros w; [cbn; by rewrite app_nil_r|]. cbn [map concat]. rewrite <- app_assoc.
  destruct (Z.eqb_spec c quote_char) as [->|Hc].
  - cbn [app shell]. rewrite !Z.eqb_refl. change (quote_char =? newline) with false. change (backslash =? quote_char) with false.
    cbn iota. cbn [default from_option id]. rewrite IH. by rewrite <- app_assoc.
  - cbn [app shell]. rewrite (proj2 (Z.eqb_neq _ _) Hc). cbn [default from_option id]. rewrite IH. by rewrite <- app_assoc.
Qed.

Lemma plain_not c : plain c = true -> (c =? quote_char) = false /\ (c =? backslash) = false /\ (c =? 32) = false.
Proof. intros Hp. repeat split; apply Z.eqb_neq; intros ->; vm_compute in Hp; done. Qed.

Lemma shell_plain w l : forall cur, w <> [] -> forallb plain w = true ->
  shell false cur (w ++ l) = shell false (Some (default [] cur ++ w)) l.
Proof.
  induction w as [|c w IH]; intros cur Hne Hw; [done|]. cbn [forallb] in Hw. apply andb_true_iff in Hw as [Hc Hw].
  destruct (plain_not c Hc) as (E1 & E2 & E3). cbn [app shell]. rewrite E1, E2, E3, Hc.
  destruct w as [|x w]; [done|]. rewrite IH by done. cbn [default from_option id]. by rewrite <- app_assoc.
Qed.

(** A word and a blank. *)
Lemma shell_word w l : w <> [] -> forallb plain w = true ->
  shell false None (w ++ 32 :: l) = (fun r => w :: r) <$> shell false None l.
Proof.
  intros Hne Hw. rewrite shell_plain by done. cbn [default from_option id app shell].
  change (32 =? quote_char) with false. change (32 =? backslash) with false. change (32 =? 32) with true. cbn iota.
  by destruct (shell false None l).
Qed.

(** Words, and a quoted one. *)
Fixpoint spaced (ws : list (list Z)) (l : list Z) : list Z :=
  match ws with [] => l | w :: ws => w ++ 32 :: spaced ws l end.

Lemma shell_command ws path : forallb (fun w => negb (is_nil w) && forallb plain w) ws = true ->
  shell false None (spaced ws (zfile_quote path)) = Some (ws ++ [path]).
Proof.
  induction ws as [|w ws IH]; intros Hw.
  - cbn [spaced]. unfold zfile_quote. cbn [app shell]. rewrite Z.eqb_refl. cbn [default from_option id]. by rewrite shell_quoted.
  - cbn [forallb] in Hw. apply andb_true_iff in Hw as [[Hn Hp]%andb_true_iff Hw]. cbn [spaced].
    rewrite shell_word by (by destruct w). by rewrite IH.
Qed.

(** The shell runs zstd with the path as it is spelled, whatever its
    characters. *)
Lemma zstd_arguments path : zfile_is_zst path = true ->
  shell false None <$> zfile_open_write path = Some (Some ([str "zstd"; str "-q"; str "-1"; str "-T0"; str "-f"; str "-o"] ++ [path])) /\
  shell false None <$> zfile_open_read path = Some (Some ([str "zstd"; str "-q"; str "-dc"] ++ [path])).
Proof.
  intros Hz. unfold zfile_open_write, zfile_open_read. rewrite Hz. split; cbn [fmap option_fmap option_map]; f_equal.
  - by rewrite <- (shell_command [str "zstd"; str "-q"; str "-1"; str "-T0"; str "-f"; str "-o"] path) by (by vm_compute).
  - by rewrite <- (shell_command [str "zstd"; str "-q"; str "-dc"] path) by (by vm_compute).
Qed.

Lemma zstd_arguments_witness :
  shell false None <$> zfile_open_read (str "it's here.zst") = Some (Some ([str "zstd"; str "-q"; str "-dc"] ++ [str "it's here.zst"])).
Proof. apply (zstd_arguments (str "it's here.zst")). reflexivity. Defined.
