(* ===== verification/Files.v ===== *)
(** * Files read with [fread]

    The helpers [get] of verilator/snapshot.cpp and verilator/cosim_host.cpp:
    exact reads from a file, given by the bytes that are left of it; and the
    [put]/[get] pairs of verilator/cosim_host.cpp for flags, arrays and queues. *)
From S2P Require Import Prelude.

(** [fread] of [n] bytes; a short read fails. *)
Definition fread (n : nat) (d : list Z) : option (list Z * list Z) :=
  if (n <=? length d)%nat then Some (take n d, drop n d) else None.

(** An unsigned integer of [n] bytes. *)
Definition get (n : nat) (d : list Z) : option (Z * list Z) := '(l, d) ← fread n d; Some (le_val l, d).

Lemma fread_app l d n : length l = n -> fread n (l ++ d) = Some (l, d).
Proof.
  intros <-. unfold fread. rewrite length_app, (proj2 (Nat.leb_le _ _)) by lia.
  by rewrite take_app_length, drop_app_length.
Qed.

Lemma fread_short l n : (length l < n)%nat -> fread n l = None.
Proof. intros Hl. unfold fread. by rewrite (proj2 (Nat.leb_gt _ _)). Qed.

Lemma get_app n v d : 0 <= v < 256 ^ Z.of_nat n -> get n (le_bytes n v ++ d) = Some (v, d).
Proof.
  intros Hv. unfold get. rewrite fread_app by apply length_le_bytes. cbn.
  by rewrite le_val_bytes, Z.mod_small.
Qed.

Lemma get_short l n : (length l < n)%nat -> get n l = None.
Proof. intros Hl. unfold get. by rewrite fread_short. Qed.

(** Reading the start of what is left, or failing, when the file is cut. *)
Lemma fread_take l d k n :
  length l = k -> fread k (take n (l ++ d)) = if (k <=? n)%nat then Some (l, take (n - k) d) else None.
Proof.
  intros <-. destruct (Nat.leb_spec (length l) n) as [H|H].
  - rewrite take_app_ge by lia. by apply fread_app.
  - apply fread_short. rewrite length_take. lia.
Qed.

Lemma get_take k v d n :
  0 <= v < 256 ^ Z.of_nat k ->
  get k (take n (le_bytes k v ++ d)) = if (k <=? n)%nat then Some (v, take (n - k) d) else None.
Proof.
  intros Hv. unfold get. rewrite fread_take by apply length_le_bytes. case_bool; [|done]. cbn.
  by rewrite le_val_bytes, Z.mod_small.
Qed.

(** A flag, stored in a [bool] or an [int]. *)
Definition put_flag (n : nat) (b : bool) : list Z := le_bytes n (b2z b).
Definition get_flag (n : nat) (d : list Z) : option (bool * list Z) := '(v, d) ← get n d; Some (negb (v =? 0), d).

Lemma get_flag_app n b d : (0 < n)%nat -> get_flag n (put_flag n b ++ d) = Some (b, d).
Proof.
  intros Hn. unfold get_flag, put_flag. rewrite get_app; [by destruct b|].
  assert (256 ^ 1 <= 256 ^ Z.of_nat n) by (apply Z.pow_le_mono_r; lia). destruct b; cbn [b2z]; lia.
Qed.

Section Items.
Context {A : Type} (put_item : A -> list Z) (get_item : list Z -> option (A * list Z)).

(** [n] items. *)
Fixpoint get_many (n : nat) (d : list Z) : option (list A * list Z) :=
  match n with
  | O => Some ([], d)
  | S n => '(x, d) ← get_item d; '(l, d) ← get_many n d; Some (x :: l, d)
  end.

Definition put_many (l : list A) : list Z := concat (map put_item l).

(** [put_dq] and [get_dq]: the length and the items. *)
Definition put_dq (l : list A) : list Z := le_bytes 8 (Z.of_nat (length l)) ++ put_many l.
Definition get_dq (d : list Z) : option (list A * list Z) := '(n, d) ← get 8 d; get_many (Z.to_nat n) d.

Lemma get_many_map (f : A -> A) l d :
  Forall (fun x => forall d, get_item (put_item x ++ d) = Some (f x, d)) l ->
  get_many (length l) (put_many l ++ d) = Some (map f l, d).
Proof.
  unfold put_many. induction 1 as [|x l Hx _ IH]; [done|]. cbn [length map concat get_many].
  rewrite <- app_assoc, Hx. cbn [mbind option_bind]. by rewrite IH.
Qed.

Lemma get_many_app l d :
  Forall (fun x => forall d, get_item (put_item x ++ d) = Some (x, d)) l ->
  get_many (length l) (put_many l ++ d) = Some (l, d).
Proof. intros Hl. rewrite (get_many_map (fun x => x)) by done. by rewrite map_id. Qed.

Lemma get_dq_app l d :
  Z.of_nat (length l) < 18446744073709551616 ->
  Forall (fun x => forall d, get_item (put_item x ++ d) = Some (x, d)) l ->
  get_dq (put_dq l ++ d) = Some (l, d).
Proof.
  intros Hl Hf. unfold get_dq, put_dq. rewrite <- app_assoc, get_app by (cbn; lia). cbn [mbind option_bind].
  rewrite Nat2Z.id. by apply get_many_app.
Qed.
End Items.

(** Reads one field after the other from what was written. *)
Ltac in_width := unfold is_u8, is_u16, is_u32, is_u64 in *; cbn; lia.
Ltac read_back :=
  repeat (first [rewrite get_app by in_width | rewrite get_flag_app by lia]; cbn [mbind option_bind]).

Lemma get_u8_app v d : is_u8 v -> get 1 (le_bytes 1 v ++ d) = Some (v, d).
Proof. intros Hv. by read_back. Qed.
Lemma get_u32_app v d : is_u32 v -> get 4 (le_bytes 4 v ++ d) = Some (v, d).
Proof. intros Hv. by read_back. Qed.
