(* ===== verification/RamSnapshot.v ===== *)
(** * RAM in portable snapshots

    verilator/cosim_host.cpp stores the guest's RAM of a snapshot as a keyframe,
    shared by several snapshots, and the 4 KB pages that differ from it
    ([cosim_host_save_portable], [cosim_host_load_portable]); [save_snapshot] of
    verilator/main.cpp keeps the newest snapshots and the keyframes that their
    meta.txt names.  After any run of saves each snapshot that is kept restores
    its own RAM, when the name of the disk image is a single word
    ([snapshots_restore]); with a blank in it no keyframe is recognised and all
    are removed ([blank_loses_keyframes]), and a run started from an old
    snapshot can lose the keyframe it still uses ([stale_keyframe_lost]).

    Files are byte lists and a directory is a map from names; the parts of a
    snapshot other than RAM are left to [Harness] and [CosimCheckpoint].
    Failing writes, which stop the program, are not modelled. *)
From stdpp Require Import sorting.
From S2P Require Import Prelude Blocks IdeTypes Text Files.

(** ** Names *)

(** Zero-padded to 16 characters. *)
Definition pad16 (n : Z) : list Z := strip 4 (digits 20 n).

(** The order of [std::sort] on names. *)
Fixpoint name_le (a b : list Z) : bool :=
  match a, b with
  | [], _ => true
  | _, [] => false
  | x :: a, y :: b => if x =? y then name_le a b else x <? y
  end.

(** ** RAM against a keyframe *)

Definition kRamDiffMagic : Z := 0x46445241.
Definition kPage : nat := Z.to_nat 4096.

Notation Dir := (gmap (list Z) (list Z)).

Record Keyframe := mkKeyframe { g_key_ram : list Z; g_key_name : list Z; g_key_uses : Z }.

Definition no_keyframe : Keyframe := mkKeyframe [] [] 0.

Definition key_name (cycle : Z) : list Z := str "key_" ++ pad16 cycle ++ str ".ram.zst".

Definition diff_pages (ram key : list Z) : list nat :=
  filter (fun p => block kPage ram p <> block kPage key p) (seq 0 (length ram / kPage)).

(** The choice of the keyframe; a new one is written to the key directory. *)
Definition save_ram (ram : list Z) (cycle : Z) (k : Keyframe) (keys : Dir) : list nat * Keyframe * Dir :=
  let pages := (length ram / kPage)%nat in
  let diff := if (length (g_key_ram k) =? length ram)%nat then diff_pages ram (g_key_ram k) else [] in
  if negb (length (g_key_ram k) =? length ram)%nat || (pages / 4 <? length diff)%nat || (32 <=? g_key_uses k) then
    let name := key_name cycle in
    ([], mkKeyframe ram name 1, <[name := ram]> keys)
  else (diff, mkKeyframe (g_key_ram k) (g_key_name k) (g_key_uses k + 1), keys).

Definition page_record (ram : list Z) (p : nat) : list Z := le_bytes 4 (Z.of_nat p) ++ block kPage ram p.

Definition diff_file (ram : list Z) (key : list Z) (diff : list nat) : list Z :=
  le_bytes 4 kRamDiffMagic ++ le_bytes 8 (Z.of_nat (length ram)) ++ le_bytes 4 (Z.of_nat (length key)) ++ key ++
  le_bytes 4 (Z.of_nat (length diff)) ++ concat (map (page_record ram) diff).

Fixpoint load_pages (n : nat) (bytes : Z) (d ram : list Z) : option (list Z) :=
  match n with
  | O => Some ram
  | S n =>
    '(p, d) ← get 4 d;
    if p * 4096 <? bytes then
      '(page, d) ← fread kPage d;
      load_pages n bytes d (splice (Z.to_nat p * kPage) page ram)
    else None
  end.

(** [None]: the RAM cannot be rebuilt. *)
Definition load_ram (bytes : Z) (d : list Z) (keys : Dir) : option (list Z) :=
  '(magic, d) ← get 4 d;
  if negb (magic =? kRamDiffMagic) then None else
  '(n, d) ← get 8 d;
  if negb (n =? bytes) then None else
  '(len, d) ← get 4 d;
  '(key, d) ← fread (Z.to_nat len) d;
  '(n, d) ← get 4 d;
  k ← keys !! key;
  '(ram, _) ← fread (Z.to_nat bytes) k;
  load_pages (Z.to_nat n) bytes d ram.

(** ** The snapshot directory *)

Record Snap := mkSnap { meta_txt : list Z; ram_diff : list Z }.
Record SnapDir := mkSnapDir { snaps : gmap (list Z) Snap; keys : Dir }.

Definition no_snapshots : SnapDir := mkSnapDir ∅ ∅.

Definition snap_name (cycle : Z) : list Z := str "snap_" ++ pad16 cycle.

(** What a save finds: the clock, the guest's RAM, the count of bytes in which
    SDRAM differs from it. *)
Record Save := mkSave { s_cycle : Z; s_time : Z; s_ram : list Z; s_diffs : Z }.

Definition meta_text (disk ram_key : list Z) (s : Save) : list Z :=
  str "cycle " ++ dec (s_cycle s) ++ [10] ++ str "sim_time " ++ dec (s_time s) ++ [10] ++
  str "disk " ++ disk ++ [10] ++ str "ram_key " ++ ram_key ++ [10] ++ str "ram_diffs " ++ dec (s_diffs s) ++ [10].

(** [while (meta >> k >> v)]. *)
Fixpoint ram_keys (l : list (list Z)) : list (list Z) :=
  match l with
  | k :: v :: l => if decide (k = str "ram_key") then v :: ram_keys l else ram_keys l
  | _ => []
  end.

Definition name_order (a b : list Z) : Prop := name_le a b = true.

#[export] Instance name_order_dec : RelDecision name_order.
Proof. intros a b. unfold name_order. apply _. Defined.

(** The snapshot directories in the order of their names. *)
Definition entries (d : SnapDir) : list (list Z) := merge_sort name_order (elements (dom (snaps d))).

(** The oldest snapshots beyond [snapshot_keep] are removed (none when it is 0),
    then the keyframes that no remaining one names. *)
Definition prune (snapshot_keep : nat) (d : SnapDir) : SnapDir :=
  let n := if (snapshot_keep =? 0)%nat then 0%nat else (length (entries d) - snapshot_keep)%nat in
  let kept := drop n (entries d) in
  let snaps := foldr delete (snaps d) (take n (entries d)) in
  let keys_used := concat (map (fun e => ram_keys (words [] (from_option meta_txt [] (snaps !! e)))) kept) in
  mkSnapDir snaps (filter (fun k => k.1 ∈ keys_used) (keys d)).

Definition save_snapshot (snapshot_keep : nat) (disk : list Z) (s : Save) (st : SnapDir * Keyframe) : SnapDir * Keyframe :=
  let '(d, k) := st in
  let '(diff, k, keys) := save_ram (s_ram s) (s_cycle s) k (keys d) in
  let snap := mkSnap (meta_text disk (g_key_name k) s) (diff_file (s_ram s) (g_key_name k) diff) in
  (prune snapshot_keep (mkSnapDir (<[snap_name (s_cycle s) := snap]> (snaps d)) keys), k).

(** The RAM restored from the snapshot of a cycle. *)
Definition load_snapshot (bytes cycle : Z) (d : SnapDir) : option (list Z) :=
  s ← snaps d !! snap_name cycle; load_ram bytes (ram_diff s) (keys d).

Definition run_saves (snapshot_keep : nat) (disk : list Z) (l : list Save) (st : SnapDir * Keyframe) : SnapDir * Keyframe :=
  fold_left (fun st s => save_snapshot snapshot_keep disk s st) l st.

(** ** The order of names *)

Lemma pad16_digits n : 0 <= n < 10 ^ 16 -> pad16 n = digits 16 n.
Proof.
  intros Hn. unfold pad16.
  change (digits 20 n) with
    (48 + (n / 10 ^ Z.of_nat 19) mod 10 :: 48 + (n / 10 ^ Z.of_nat 18) mod 10 :: 48 + (n / 10 ^ Z.of_nat 17) mod 10 ::
     48 + (n / 10 ^ Z.of_nat 16) mod 10 :: digits 16 n).
  rewrite !(Z.div_small n) by (split; [lia|]; eapply Z.lt_le_trans; [apply Hn|]; apply Z.pow_le_mono_r; lia).
  done.
Qed.

(** Only the remainder of the number enters its last digits. *)
Lemma digits_mod j k n : (j <= k)%nat -> digits j (n mod 10 ^ Z.of_nat k) = digits j n.
Proof.
  induction j as [|j IH]; intros Hj; [done|]. cbn [digits]. rewrite IH by lia. f_equal. f_equal.
  assert (0 < 10 ^ Z.of_nat j) as Hp by (apply Z.pow_pos_nonneg; lia).
  replace (Z.of_nat k) with (Z.of_nat j + (1 + Z.of_nat (k - j - 1))) by lia.
  rewrite Z.pow_add_r by lia. rewrite Z.rem_mul_r; [|lia|apply Z.pow_pos_nonneg; lia].
  replace (n mod 10 ^ Z.of_nat j + 10 ^ Z.of_nat j * ((n / 10 ^ Z.of_nat j) mod 10 ^ (1 + Z.of_nat (k - j - 1))))
    with ((n / 10 ^ Z.of_nat j) mod 10 ^ (1 + Z.of_nat (k - j - 1)) * 10 ^ Z.of_nat j + n mod 10 ^ Z.of_nat j) by lia.
  rewrite Z.div_add_l by lia. rewrite (Z.div_small (n mod _)) by (apply Z.mod_pos_bound; lia).
  rewrite Z.add_0_r, Z.pow_add_r, Z.pow_1_r by lia. set (q := n / 10 ^ Z.of_nat j).
  rewrite Z.rem_mul_r by (try apply Z.pow_pos_nonneg; lia).
  by rewrite Z.mul_comm, Z_mod_plus_full, Zmod_mod.
Qed.

(** The order of the names is that of the cycles. *)
Lemma name_le_digits k : forall a b, 0 <= a < 10 ^ Z.of_nat k -> 0 <= b < 10 ^ Z.of_nat k ->
  name_le (digits k a) (digits k b) = (a <=? b).
Proof.
  induction k as [|k IH]; intros a b Ha Hb.
  - simpl in *. lia.
  - rewrite Nat2Z.inj_succ, Z.pow_succ_r in Ha, Hb by lia. cbn [digits name_le].
    assert (0 < 10 ^ Z.of_nat k) as Hp by (apply Z.pow_pos_nonneg; lia).
    assert (forall x, 0 <= x < 10 * 10 ^ Z.of_nat k -> (x / 10 ^ Z.of_nat k) mod 10 = x / 10 ^ Z.of_nat k) as Hd.
    { intros x Hx. apply Z.mod_small. split; [apply Z.div_pos; lia|]. apply Z.div_lt_upper_bound; lia. }
    rewrite !Hd by done. rewrite <- (digits_mod k k a), <- (digits_mod k k b) by lia.
    rewrite IH by (apply Z.mod_pos_bound; lia).
    pose proof (Z.div_mod a (10 ^ Z.of_nat k)). pose proof (Z.div_mod b (10 ^ Z.of_nat k)).
    pose proof (Z.mod_pos_bound a (10 ^ Z.of_nat k)). pose proof (Z.mod_pos_bound b (10 ^ Z.of_nat k)).
    destruct (Z.eqb_spec (48 + a / 10 ^ Z.of_nat k) (48 + b / 10 ^ Z.of_nat k)).
    + assert (a / 10 ^ Z.of_nat k = b / 10 ^ Z.of_nat k) by lia. nia.
    + set (p := 10 ^ Z.of_nat k) in *. destruct (Z.leb_spec a b), (Z.ltb_spec (48 + a / p) (48 + b / p)); try done; nia.
Qed.

Lemma name_le_prefix p a b : name_le (p ++ a) (p ++ b) = name_le a b.
Proof. induction p as [|x p IH]; [done|]. simpl. by rewrite Z.eqb_refl. Qed.

Definition cycle_ok (c : Z) : Prop := 0 <= c < 10 ^ 16.

Lemma name_le_snap a b : cycle_ok a -> cycle_ok b -> name_le (snap_name a) (snap_name b) = (a <=? b).
Proof.
  intros Ha Hb. unfold snap_name. rewrite name_le_prefix, !pad16_digits by done. by apply name_le_digits.
Qed.

Lemma digits_inj k a b : 0 <= a < 10 ^ Z.of_nat k -> 0 <= b < 10 ^ Z.of_nat k -> digits k a = digits k b -> a = b.
Proof.
  intros Ha Hb E. pose proof (name_le_digits k a b Ha Hb) as H1. pose proof (name_le_digits k b a Hb Ha) as H2.
  rewrite E in H1, H2. rewrite name_le_digits in H1 by done. rewrite name_le_digits in H2 by done. lia.
Qed.

Lemma snap_name_inj a b : cycle_ok a -> cycle_ok b -> snap_name a = snap_name b -> a = b.
Proof.
  intros Ha Hb E. apply app_inv_head in E. rewrite !pad16_digits in E by done. by apply (digits_inj 16).
Qed.

Lemma key_name_inj a b : cycle_ok a -> cycle_ok b -> key_name a = key_name b -> a = b.
Proof.
  intros Ha Hb E. apply app_inv_head, app_inv_tail in E. rewrite !pad16_digits in E by done. by apply (digits_inj 16).
Qed.

Lemma key_name_word c : word (key_name c).
Proof.
  apply word_app; [by split; [|repeat constructor]|]. apply word_app; [apply digits_word; lia|].
  by split; [|repeat constructor].
Qed.

Lemma name_le_trans a b c : name_le a b = true -> name_le b c = true -> name_le a c = true.
Proof.
  revert b c. induction a as [|x a IH]; intros [|y b] [|z c]; simpl; try done.
  destruct (Z.eqb_spec x y) as [->|]; destruct (Z.eqb_spec y z) as [->|]; rewrite ?Z.eqb_refl; intros H1 H2.
  - by eapply IH.
  - done.
  - rewrite (proj2 (Z.eqb_neq x z)) by lia. done.
  - rewrite (proj2 (Z.eqb_neq x z)) by lia. lia.
Qed.

Lemma name_le_antisym a b : name_le a b = true -> name_le b a = true -> a = b.
Proof.
  revert b. induction a as [|x a IH]; intros [|y b]; simpl; try done.
  rewrite (Z.eqb_sym y x). destruct (Z.eqb_spec x y) as [->|]; [|lia]. intros. f_equal. auto.
Qed.

Lemma name_le_total a b : name_le a b = true \/ name_le b a = true.
Proof.
  revert b. induction a as [|x a IH]; intros [|y b]; simpl; auto.
  rewrite (Z.eqb_sym y x). destruct (Z.eqb_spec x y); [auto|lia].
Qed.

#[export] Instance name_order_trans : Transitive name_order.
Proof. intros a b c. apply name_le_trans. Qed.
#[export] Instance name_order_antisym : AntiSymm eq name_order.
Proof. intros a b. apply name_le_antisym. Qed.
#[export] Instance name_order_total : Total name_order.
Proof. intros a b. apply name_le_total. Qed.

(** ** meta.txt names the keyframe *)

Lemma words_word x w c l :
  Forall (fun c => isspace c = false) x -> isspace c = true -> w ++ x <> [] ->
  words w (x ++ c :: l) = (w ++ x) :: words [] l.
Proof.
  revert w. induction x as [|y x IH]; intros w Hx Hc Hw; cbn [app words].
  - rewrite Hc, app_nil_r. by destruct w; [rewrite app_nil_r in Hw|].
  - apply Forall_cons in Hx as [-> Hx]. rewrite IH; [by rewrite <- app_assoc|done|done|by destruct w].
Qed.

(** A line of meta.txt: a name, a blank, a value and the end of the line. *)
Lemma words_line x v l :
  word x -> word v -> words [] (x ++ 32 :: v ++ 10 :: l) = x :: v :: words [] l.
Proof. intros [Hx Hx'] [Hv Hv']. by rewrite !words_word. Qed.

Lemma meta_keys disk key s :
  word disk -> word key -> ram_keys (words [] (meta_text disk key s)) = [key].
Proof.
  intros Hd Hk. unfold meta_text.
  change (str "cycle ") with (str "cycle" ++ [32]). change (str "sim_time ") with (str "sim_time" ++ [32]).
  change (str "disk ") with (str "disk" ++ [32]). change (str "ram_key ") with (str "ram_key" ++ [32]).
  change (str "ram_diffs ") with (str "ram_diffs" ++ [32]).
  rewrite <- !app_assoc. cbn [app].
  assert (forall n, word (dec n)) as Hdec by (intros n; apply digits_word; lia).
  assert (word (str "cycle") /\ word (str "sim_time") /\ word (str "disk") /\ word (str "ram_key") /\ word (str "ram_diffs"))
    as (H1&H2&H3&H4&H5) by (split_and!; (split; [done|repeat constructor])).
  rewrite !words_line by done. by cbn.
Qed.

(** ** Rebuilding the RAM *)

Lemma load_pages_patch bytes new ks : forall ram rest,
  length ram = length new -> bytes = Z.of_nat (length new) -> bytes <= 4294967296 -> (kPage | length new)%nat ->
  Forall (fun p => p * kPage < length new)%nat ks ->
  load_pages (length ks) bytes (concat (map (page_record new) ks) ++ rest) ram = Some (patch kPage new ks ram).
Proof.
  induction ks as [|p ks IH]; intros ram rest Hl Hb H32 Hdiv Hks; [done|].
  apply Forall_cons in Hks as [Hp Hks]. cbn [length map concat load_pages]. unfold page_record at 1.
  rewrite <- !app_assoc. assert (Z.of_nat kPage = 4096) as Hk by done.
  rewrite get_app by (change (256 ^ Z.of_nat 4) with 4294967296; nia). cbn [mbind option_bind].
  rewrite (proj2 (Z.ltb_lt _ _)) by nia.
  assert (length (block kPage new p) = kPage) as Hlen.
  { rewrite length_block. destruct Hdiv as [q Hq]. rewrite Hq in *. nia. }
  rewrite fread_app by done. cbn [mbind option_bind]. rewrite Nat2Z.id.
  rewrite (IH (splice (p * kPage) (block kPage new p) ram)); [done|by apply length_splice_block|done..].
Qed.

(** What a keyframe and a list of pages must satisfy to rebuild [ram]. *)
Record rebuilds (key : list Z) (ks : list nat) (ram : list Z) : Prop := mkRebuilds {
  rb_len : length key = length ram;
  rb_pages : Forall (fun p => p * kPage < length ram)%nat ks;
  rb_same : forall p, (p * kPage < length ram)%nat -> p ∉ ks -> block kPage key p = block kPage ram p;
  rb_count : (length ks * kPage <= length ram)%nat
}.

(** The sizes for which the file format is exact: whole pages, at most 4 GB. *)
Definition ram_size (bytes : nat) : Prop := (kPage | bytes)%nat /\ (0 < bytes)%nat /\ Z.of_nat bytes <= 4294967296.

Lemma load_ram_rebuilds (ram key kname : list Z) (ks : list nat) (dir : Dir) :
  ram_size (length ram) -> Z.of_nat (length kname) < 4294967296 ->
  dir !! kname = Some key -> rebuilds key ks ram ->
  load_ram (Z.of_nat (length ram)) (diff_file ram kname ks) dir = Some ram.
Proof.
  intros (Hdiv & Hpos & Hsz) Hn Hdir [Hlen Hks Hsame Hcount]. unfold load_ram, diff_file.
  assert (Z.of_nat kPage = 4096) as Hk by done.
  rewrite get_app by (by vm_compute). cbn [mbind option_bind]. rewrite Z.eqb_refl. cbn [negb].
  rewrite get_app by (change (256 ^ Z.of_nat 8) with 18446744073709551616; lia).
  cbn [mbind option_bind]. rewrite Z.eqb_refl. cbn [negb].
  rewrite get_app by (change (256 ^ Z.of_nat 4) with 4294967296; lia). cbn [mbind option_bind].
  rewrite fread_app by lia. cbn [mbind option_bind].
  rewrite get_app by (change (256 ^ Z.of_nat 4) with 4294967296; nia). cbn [mbind option_bind].
  rewrite Hdir. cbn [mbind option_bind]. rewrite !Nat2Z.id.
  unfold fread at 1. rewrite (proj2 (Nat.leb_le _ _)) by lia. cbn [mbind option_bind].
  rewrite take_ge by lia. rewrite <- (app_nil_r (concat _)).
  rewrite load_pages_patch by done. f_equal. apply patch_complete; [unfold kPage; lia|done..].
Qed.

Lemma rebuilds_diff ram key :
  length key = length ram -> (kPage | length ram)%nat -> rebuilds key (diff_pages ram key) ram.
Proof.
  intros Hlen [q Hq]. assert (0 < kPage)%nat as Hpos by (unfold kPage; lia).
  assert (length ram / kPage = q)%nat as Hdiv by (rewrite Hq; apply Nat.div_mul; lia).
  unfold diff_pages. constructor.
  - done.
  - apply Forall_forall. intros p Hp. apply list_elem_of_filter in Hp as [_ Hp]. apply elem_of_seq in Hp. nia.
  - intros p Hp Hin. destruct (decide (block kPage ram p = block kPage key p)) as [|Hne]; [done|].
    exfalso. apply Hin, list_elem_of_filter. split; [done|]. apply elem_of_seq. nia.
  - pose proof (length_filter (fun p => block kPage ram p <> block kPage key p) (seq 0 (length ram / kPage))) as Hf.
    rewrite length_seq in Hf. nia.
Qed.

Lemma rebuilds_self ram : rebuilds ram [] ram.
Proof. constructor; [done|constructor|done|simpl; lia]. Qed.

(** ** A run of saves *)

(** The snapshots that are kept. *)
Definition retained (keep : nat) (l : list Save) : list Save :=
  if (keep =? 0)%nat then l else drop (length l - keep) l.

Definition names (l : list Save) : list (list Z) := map (fun s => snap_name (s_cycle s)) l.

Lemma retained_snoc keep l s :
  retained keep (l ++ [s]) =
  drop (if (keep =? 0)%nat then 0 else length (retained keep l ++ [s]) - keep)%nat (retained keep l ++ [s]).
Proof.
  unfold retained. destruct (Nat.eqb_spec keep 0); [done|].
  rewrite !length_app, length_drop. simpl.
  replace (drop (length l - keep) l ++ [s]) with (drop (length l - keep) (l ++ [s])) by (by rewrite drop_app_le by lia).
  rewrite drop_drop. f_equal. lia.
Qed.

(** A snapshot [s] of the directory, with the keyframe of cycle [c]. *)
Record stored (disk : list Z) (d : SnapDir) (s : Save) (c : Z) (key : list Z) : Prop := mkStored {
  st_key : keys d !! key_name c = Some key;
  st_pages : exists ks, rebuilds key ks (s_ram s) /\
    snaps d !! snap_name (s_cycle s) = Some (mkSnap (meta_text disk (key_name c) s) (diff_file (s_ram s) (key_name c) ks))
}.

Lemma stored_loads disk d s c key :
  ram_size (length (s_ram s)) -> stored disk d s c key ->
  load_snapshot (Z.of_nat (length (s_ram s))) (s_cycle s) d = Some (s_ram s).
Proof.
  intros Hsz [Hk (ks & Hr & Hs)]. unfold load_snapshot. rewrite Hs. simpl.
  apply (load_ram_rebuilds _ key); [done| |done..].
  unfold key_name. rewrite !length_app. pose proof (strip_length 4 (digits 20 c)).
  assert (forall k l, length (strip k l) <= length l)%nat as Hle.
  { intros k. induction k as [|k IH]; intros [|x l0]; simpl; try lia. case_match; simpl; [|lia]. specialize (IH l0). lia. }
  specialize (Hle 4%nat (digits 20 c)). rewrite length_digits in Hle. unfold pad16. cbn [length str map String.list_ascii_of_string]. lia.
Qed.

(** The saves of a run: cycles in increasing order, RAM of one size. *)
Definition saves_ok (bytes : nat) (l : list Save) : Prop :=
  StronglySorted (fun a b => s_cycle a < s_cycle b) l /\
  Forall (fun s => cycle_ok (s_cycle s) /\ length (s_ram s) = bytes) l.

(** After the saves [l]: the directory holds the retained ones, each with a
    keyframe no later than itself, and the current keyframe is that of the
    last save. *)
Record run_inv (keep bytes : nat) (disk : list Z) (l : list Save) (d : SnapDir) (k : Keyframe) : Prop := mkRunInv {
  ri_names : dom (snaps d) = list_to_set (names (retained keep l));
  ri_stored : Forall (fun s => exists c key, 0 <= c <= s_cycle s /\ stored disk d s c key) (retained keep l);
  ri_current : match last l with
               | None => k = no_keyframe
               | Some s => exists c, 0 <= c <= s_cycle s /\ g_key_name k = key_name c /\
                   length (g_key_ram k) = bytes /\ stored disk d s c (g_key_ram k)
               end
}.

Lemma names_sorted l :
  StronglySorted (fun a b => s_cycle a < s_cycle b) l -> Forall (fun s => cycle_ok (s_cycle s)) l ->
  StronglySorted name_order (names l) /\ NoDup (names l).
Proof.
  induction 1 as [|s l Hl IH Hs]; intros Hok; [split; constructor|].
  apply Forall_cons in Hok as [H0 Hok]. destruct (IH Hok) as [H1 H2]. cbn [names map]. fold (names l).
  assert (forall x, x ∈ names l -> exists t, x = snap_name (s_cycle t) /\ s_cycle s < s_cycle t /\ cycle_ok (s_cycle t)) as Hin.
  { intros x Hx. apply list_elem_of_fmap in Hx as (t & -> & Ht). rewrite Forall_forall in Hs, Hok.
    exists t. split_and!; [done|by apply Hs|by apply Hok]. }
  split; constructor; [done| |intros Hx|done].
  - apply Forall_forall. intros x Hx. destruct (Hin x Hx) as (t & -> & Hlt & Ht).
    unfold name_order. rewrite name_le_snap by done. lia.
  - destruct (Hin _ Hx) as (t & E & Hlt & Ht). apply snap_name_inj in E; [lia|done..].
Qed.

(** The entries of the directory are the names in the order of the cycles. *)
Lemma entries_names d l :
  StronglySorted (fun a b => s_cycle a < s_cycle b) l -> Forall (fun s => cycle_ok (s_cycle s)) l ->
  dom (snaps d) = list_to_set (names l) -> entries d = names l.
Proof.
  intros Hs Hok Hd. destruct (names_sorted l Hs Hok) as [H1 H2]. unfold entries.
  apply (StronglySorted_unique name_order); [apply StronglySorted_merge_sort; apply _|done|].
  rewrite merge_sort_Permutation, Hd. by apply elements_list_to_set.
Qed.

Lemma foldr_delete_lookup {V} (m : gmap (list Z) V) ns x :
  foldr delete m ns !! x = if decide (x ∈ ns) then None else m !! x.
Proof.
  induction ns as [|n ns IH]; cbn [foldr]; [by rewrite decide_False by apply not_elem_of_nil|].
  destruct (decide (x = n)) as [->|Hne].
  - rewrite lookup_delete_eq, decide_True; [done|]. apply elem_of_cons. by left.
  - rewrite lookup_delete_ne, IH by done. destruct (decide (x ∈ ns)), (decide (x ∈ n :: ns)) as [Hi|Hi]; try done.
    + destruct Hi. apply elem_of_cons. by right.
    + apply elem_of_cons in Hi as [|]; done.
Qed.

(** Pruning keeps the newest snapshots and the keyframes they use. *)
Lemma prune_stored keep disk d l :
  word disk -> StronglySorted (fun a b => s_cycle a < s_cycle b) l -> Forall (fun s => cycle_ok (s_cycle s)) l ->
  dom (snaps d) = list_to_set (names l) ->
  let kept := drop (if (keep =? 0)%nat then 0 else length l - keep)%nat l in
  dom (snaps (prune keep d)) = list_to_set (names kept) /\
  forall s c key, s ∈ kept -> stored disk d s c key -> stored disk (prune keep d) s c key.
Proof.
  intros Hdisk Hs Hok Hd kept. pose proof (entries_names d l Hs Hok Hd) as He.
  destruct (names_sorted l Hs Hok) as [_ Hnd]. unfold prune. rewrite He.
  assert (length (names l) = length l) as -> by apply length_map.
  set (n := (if (keep =? 0)%nat then 0 else length l - keep)%nat) in *. cbn [snaps keys].
  assert (Hsplit : names l = take n (names l) ++ drop n (names l)) by by rewrite take_drop.
  rewrite Hsplit in Hnd. apply NoDup_app in Hnd as (_ & Hdis & _).
  assert (Hkept : drop n (names l) = names kept) by (unfold names, kept; by rewrite <- fmap_drop).
  split.
  - apply set_eq. intros x. rewrite elem_of_dom, foldr_delete_lookup, elem_of_list_to_set, <- Hkept.
    assert (Hx : x ∈ dom (snaps d) <-> x ∈ names l) by (rewrite Hd; apply elem_of_list_to_set).
    rewrite Hsplit in Hx at 1. rewrite elem_of_app, elem_of_dom in Hx.
    case_decide as Hin.
    + split; [intros [? ?]; done|]. intros Hx'. by destruct (Hdis x Hin).
    + tauto.
  - intros s c key Hin [Hkey (ks & Hr & Hsn)].
    assert (Hname : snap_name (s_cycle s) ∈ drop n (names l)).
    { rewrite Hkept. apply list_elem_of_fmap. by exists s. }
    assert (Hlook : foldr delete (snaps d) (take n (names l)) !! snap_name (s_cycle s) =
                    Some (mkSnap (meta_text disk (key_name c) s) (diff_file (s_ram s) (key_name c) ks))).
    { rewrite foldr_delete_lookup, decide_False; [done|]. intros H. by apply (Hdis _ H). }
    constructor; cbn [snaps keys]; [|eauto].
    apply map_lookup_filter_Some_2; [done|]. cbn [fst]. apply list_elem_of_In, in_concat.
    exists (ram_keys (words [] (meta_text disk (key_name c) s))). split.
    + apply in_map_iff. exists (snap_name (s_cycle s)). split; [by rewrite Hlook|]. by apply list_elem_of_In.
    + rewrite meta_keys by (done || apply key_name_word). by left.
Qed.

(** The keyframe a save leaves rebuilds its RAM, and is the old one or new. *)
Lemma save_ram_spec (ram : list Z) (cycle : Z) (k : Keyframe) (dir : Dir) (diff : list nat) (k' : Keyframe) (dir' : Dir) :
  ram_size (length ram) ->
  (length (g_key_ram k) = length ram -> dir !! g_key_name k = Some (g_key_ram k)) ->
  save_ram ram cycle k dir = (diff, k', dir') ->
  rebuilds (g_key_ram k') diff ram /\ dir' !! g_key_name k' = Some (g_key_ram k') /\
  (g_key_name k' = key_name cycle \/ g_key_name k' = g_key_name k /\ length (g_key_ram k) = length ram) /\
  (forall x, x <> key_name cycle -> dir' !! x = dir !! x).
Proof.
  intros (Hdiv & _ & _) Hk. unfold save_ram. destruct (Nat.eqb_spec (length (g_key_ram k)) (length ram)) as [Hl|Hl]; cbn [negb orb].
  - destruct (_ || _); intros [= <- <- <-]; cbn [g_key_ram g_key_name]; split_and!.
    + apply rebuilds_self.
    + apply lookup_insert_eq.
    + by left.
    + intros x Hx. by apply lookup_insert_ne.
    + by apply rebuilds_diff.
    + by apply Hk.
    + by right.
    + done.
  - intros [= <- <- <-]; cbn [g_key_ram g_key_name]; split_and!.
    + apply rebuilds_self.
    + apply lookup_insert_eq.
    + by left.
    + intros x Hx. by apply lookup_insert_ne.
Qed.

Lemma stored_other_key (disk : list Z) (d : SnapDir) (s : Save) (c : Z) (key : list Z) (snap : Snap) (cycle : Z) (dir : Dir) :
  stored disk d s c key -> cycle_ok (s_cycle s) -> cycle_ok cycle -> s_cycle s < cycle -> 0 <= c <= s_cycle s ->
  (forall x, x <> key_name cycle -> dir !! x = keys d !! x) ->
  stored disk (mkSnapDir (<[snap_name cycle := snap]> (snaps d)) dir) s c key.
Proof.
  intros [Hk (ks & Hr & Hs)] Hs0 Hc Hlt Hcs Hdir. unfold cycle_ok in *. constructor; cbn [snaps keys].
  - rewrite Hdir; [done|]. intros E. apply key_name_inj in E; unfold cycle_ok; lia.
  - exists ks. split; [done|]. rewrite lookup_insert_ne; [done|].
    intros E. apply snap_name_inj in E; unfold cycle_ok; lia.
Qed.

Lemma sorted_snoc_lt l (s t : Save) :
  StronglySorted (fun a b => s_cycle a < s_cycle b) (l ++ [s]) -> t ∈ l -> s_cycle t < s_cycle s.
Proof.
  induction l as [|x l IH]; simpl; intros Hs Ht; [by apply not_elem_of_nil in Ht|].
  inversion Hs as [|y m Hm Hy]; subst. apply elem_of_cons in Ht as [->|Ht]; [|by apply IH].
  rewrite Forall_app, Forall_singleton in Hy. apply Hy.
Qed.

Lemma retained_suffix keep l : exists n, retained keep l = drop n l.
Proof. unfold retained. case_match; [by exists 0%nat|eauto]. Qed.

Lemma in_drop {A} n (l : list A) x : x ∈ drop n l -> x ∈ l.
Proof. intros H. rewrite <- (take_drop n l). apply elem_of_app. by right. Qed.

Lemma retained_sub keep l s : s ∈ retained keep l -> s ∈ l.
Proof. destruct (retained_suffix keep l) as [n ->]. apply in_drop. Qed.

(** One save keeps the invariant. *)
Lemma save_inv keep bytes disk l d k s :
  word disk -> ram_size bytes -> saves_ok bytes (l ++ [s]) -> run_inv keep bytes disk l d k ->
  let '(d', k') := save_snapshot keep disk s (d, k) in run_inv keep bytes disk (l ++ [s]) d' k'.
Proof.
  intros Hdisk Hsz [Hsort Hok] [Hdom Hst Hcur]. unfold save_snapshot.
  destruct (save_ram (s_ram s) (s_cycle s) k (keys d)) as [[diff k'] dir'] eqn:E.
  apply Forall_app in Hok as [Hok Hs]. apply Forall_singleton in Hs as [Hcs Hls].
  rewrite <- Hls in Hsz. pose proof Hsz as Hsz'. destruct Hsz' as (_ & Hpos & _).
  assert (Hlast : last l = None -> k = no_keyframe) by (intros El; by rewrite El in Hcur).
  assert (Hcur' : forall t, last l = Some t -> exists c, 0 <= c <= s_cycle t /\ g_key_name k = key_name c /\
    length (g_key_ram k) = bytes /\ stored disk d t c (g_key_ram k)) by (intros t El; by rewrite El in Hcur).
  apply save_ram_spec in E as (Hr & Hk' & Hname & Hother); [|done|].
  2: { intros Hl. destruct (last l) as [t|] eqn:El.
       - destruct (Hcur' t eq_refl) as (c & _ & Hn & _ & [Hkey _]). by rewrite Hn.
       - rewrite (Hlast eq_refl) in Hl. simpl in Hl. lia. }
  assert (Hc' : exists c', 0 <= c' <= s_cycle s /\ g_key_name k' = key_name c').
  { destruct Hname as [->|[-> Hl]]; [exists (s_cycle s); unfold cycle_ok in Hcs; split; [lia|done]|].
    destruct (last l) as [t|] eqn:El.
    - destruct (Hcur' t eq_refl) as (c & Hc & -> & _). exists c. split; [|done].
      assert (t ∈ l) as Ht by (apply last_Some_elem_of; done).
      pose proof (sorted_snoc_lt l s t Hsort Ht). lia.
    - rewrite (Hlast eq_refl) in Hl. simpl in Hl. lia. }
  destruct Hc' as (c' & Hc' & En). rewrite En.
  set (snap := mkSnap _ _). set (d1 := mkSnapDir _ dir').
  assert (Hsort' : StronglySorted (fun a b => s_cycle a < s_cycle b) (retained keep l ++ [s])).
  { destruct (retained_suffix keep l) as [n ->]. revert Hsort. clear. revert n.
    induction l as [|x l IH]; intros [|n] H; try done. simpl. apply IH. by inversion H. }
  assert (Hokr : Forall (fun s => cycle_ok (s_cycle s)) (retained keep l ++ [s])).
  { apply Forall_app_2; [|by constructor]. apply Forall_forall. intros t Ht. apply retained_sub in Ht.
    rewrite Forall_forall in Hok. by apply Hok. }
  assert (Hd1 : dom (snaps d1) = list_to_set (names (retained keep l ++ [s]))).
  { unfold d1. cbn [snaps]. rewrite dom_insert_L, Hdom. unfold names. rewrite map_app, list_to_set_app_L. simpl. clear. set_solver. }
  assert (Hnew : stored disk d1 s c' (g_key_ram k')).
  { constructor; unfold d1; cbn [snaps keys]; [by rewrite <- En|]. exists diff. split; [done|]. by rewrite lookup_insert_eq. }
  destruct (prune_stored keep disk d1 _ Hdisk Hsort' Hokr Hd1) as [Hp1 Hp2].
  rewrite <- retained_snoc in Hp1, Hp2.
  assert (Hin : s ∈ retained keep (l ++ [s])).
  { unfold retained. destruct (Nat.eqb_spec keep 0); [apply elem_of_app; right; left|].
    rewrite drop_app_le by (rewrite length_app; simpl; lia). apply elem_of_app; right; left. }
  constructor.
  - done.
  - apply Forall_forall. intros t Ht. assert (t ∈ retained keep l \/ t = s) as [Ht'| -> ].
    { rewrite retained_snoc in Ht. apply in_drop, elem_of_app in Ht as [|Ht]; [by left|right].
      by apply list_elem_of_singleton in Ht. }
    + rewrite Forall_forall in Hst. destruct (Hst t Ht') as (c & key & Hc & Hstd). exists c, key. split; [done|].
      apply Hp2; [done|]. apply retained_sub in Ht'. rewrite Forall_forall in Hok.
      apply stored_other_key; [done|apply (Hok t Ht')|done|by apply (sorted_snoc_lt l)|done|done].
    + exists c', (g_key_ram k'). split; [done|]. by apply Hp2.
  - rewrite last_snoc. exists c'. split; [done|]. split; [done|]. split; [rewrite <- Hls; by destruct Hr|by apply Hp2].
Qed.

Lemma saves_ok_prefix bytes l s : saves_ok bytes (l ++ [s]) -> saves_ok bytes l.
Proof.
  intros [Hs Hok]. apply Forall_app in Hok as [Hok _]. split; [|done].
  clear Hok. induction l as [|x l IH]; [constructor|]. simpl in Hs. inversion Hs as [|y m Hm Hy]; subst.
  apply Forall_app in Hy as [Hy _]. constructor; auto.
Qed.

Lemma run_saves_inv keep bytes disk l :
  word disk -> ram_size bytes -> saves_ok bytes l ->
  let '(d, k) := run_saves keep disk l (no_snapshots, no_keyframe) in run_inv keep bytes disk l d k.
Proof.
  intros Hdisk Hsz. induction l as [|s l IH] using rev_ind; intros Hl.
  - constructor; cbn [run_saves fold_left].
    + unfold retained. by destruct (keep =? 0)%nat; rewrite ?drop_nil.
    + unfold retained. by destruct (keep =? 0)%nat; rewrite ?drop_nil.
    + done.
  - unfold run_saves. rewrite fold_left_app. cbn [fold_left]. fold (run_saves keep disk l (no_snapshots, no_keyframe)).
    specialize (IH (saves_ok_prefix _ _ _ Hl)).
    destruct (run_saves keep disk l (no_snapshots, no_keyframe)) as [d k]. by apply save_inv.
Qed.

(** C11: In any run of snapshots from an empty directory, every snapshot that
    [snapshot_keep] retains (all of them when it is 0) restores exactly the RAM
    it was taken of, whatever keyframes and pages were shared or removed on the
    way, provided the path of the disk image has no blank. *)
Theorem snapshots_restore keep bytes disk l s
  (Hdisk : word disk) (Hsz : ram_size bytes) (Hl : saves_ok bytes l) (Hs : s ∈ retained keep l) :
  load_snapshot (Z.of_nat bytes) (s_cycle s) (run_saves keep disk l (no_snapshots, no_keyframe)).1 = Some (s_ram s).
Proof.
  pose proof (run_saves_inv keep bytes disk l Hdisk Hsz Hl) as H.
  destruct (run_saves keep disk l (no_snapshots, no_keyframe)) as [d k]. destruct H as [_ Hst _].
  rewrite Forall_forall in Hst. destruct (Hst s Hs) as (c & key & _ & Hstd).
  assert (length (s_ram s) = bytes) as <-.
  { destruct Hl as [_ Hok]. rewrite Forall_forall in Hok. apply Hok, (retained_sub keep l), Hs. }
  by apply (stored_loads disk d s c key).
Qed.

(** One page of RAM, in which the first byte changes. *)
Definition demo_ram (b : Z) : list Z := b :: replicate (kPage - 1) 0.
Definition demo_saves : list Save := [mkSave 100 50 (demo_ram 1) 0; mkSave 220 110 (demo_ram 1) 0; mkSave 400 200 (demo_ram 2) 0].

Lemma length_demo_ram b : length (demo_ram b) = kPage.
Proof. unfold demo_ram. cbn [length]. rewrite length_replicate. unfold kPage. lia. Qed.

Lemma demo_size : ram_size kPage.
Proof. split; [exists 1%nat; lia|]. unfold kPage. split; lia. Qed.

Lemma demo_saves_ok : saves_ok kPage demo_saves.
Proof.
  split.
  - repeat constructor; simpl; lia.
  - repeat apply Forall_cons_2; try apply Forall_nil_2; cbn [s_cycle s_ram]; (split; [unfold cycle_ok; lia|apply length_demo_ram]).
Qed.

Lemma snapshots_restore_witness :
  load_snapshot (Z.of_nat kPage) 220 (run_saves 2 (str "disk.img") demo_saves (no_snapshots, no_keyframe)).1 =
  Some (demo_ram 1).
Proof.
  apply (snapshots_restore 2 kPage (str "disk.img") demo_saves (mkSave 220 110 (demo_ram 1) 0)).
  - by split; [|repeat constructor].
  - apply demo_size.
  - apply demo_saves_ok.
  - left.
Defined.

(** ** Keyframes that are lost *)

Lemma meta_keys_blank a b key s :
  word a -> word b -> b <> str "ram_key" -> word key -> key <> str "ram_key" ->
  ram_keys (words [] (meta_text (a ++ 32 :: b) key s)) = [].
Proof.
  intros Ha Hb Hne Hk Hkn. unfold meta_text.
  change (str "cycle ") with (str "cycle" ++ [32]). change (str "sim_time ") with (str "sim_time" ++ [32]).
  change (str "disk ") with (str "disk" ++ [32]). change (str "ram_key ") with (str "ram_key" ++ [32]).
  change (str "ram_diffs ") with (str "ram_diffs" ++ [32]).
  rewrite <- !app_assoc. cbn [app].
  assert (forall n, word (dec n)) as Hdec by (intros n; apply digits_word; lia).
  assert (word (str "cycle") /\ word (str "sim_time") /\ word (str "disk") /\ word (str "ram_key") /\ word (str "ram_diffs"))
    as (H1&H2&H3&H4&H5) by (split_and!; (split; [done|repeat constructor])).
  rewrite !words_line by done.
  replace (words [] (str "disk" ++ 32 :: a ++ 32 :: b ++ 10 :: str "ram_key" ++ 32 :: key ++ 10 :: str "ram_diffs" ++ 32 :: dec (s_diffs s) ++ [10]))
    with (str "disk" :: a :: b :: str "ram_key" :: key :: str "ram_diffs" :: dec (s_diffs s) :: []).
  2: { destruct H3, H4, H5, Ha, Hb, Hk, (Hdec (s_diffs s)). by rewrite !words_word. }
  cbn [ram_keys]. rewrite !decide_False by (done || by intros E). done.
Qed.

Lemma no_keys_no_ram bytes d : load_ram bytes d ∅ = None.
Proof.
  unfold load_ram. destruct (get 4 d) as [[? d0]|]; [simpl|done]. case_match; [done|].
  destruct (get 8 d0) as [[? d1]|]; [simpl|done]. case_match; [done|].
  destruct (get 4 d1) as [[? d2]|]; [simpl|done]. destruct (fread _ d2) as [[? d3]|]; [simpl|done].
  destruct (get 4 d3) as [[? d4]|]; [|done]. cbn [mbind option_bind]. by rewrite lookup_empty.
Qed.

(** No snapshot of the directory names a keyframe. *)
Definition nameless (d : SnapDir) : Prop :=
  forall e snap, snaps d !! e = Some snap -> ram_keys (words [] (meta_txt snap)) = [].

Lemma prune_nameless keep d : nameless d -> nameless (prune keep d) /\ keys (prune keep d) = ∅.
Proof.
  intros Hd. unfold prune. set (n := if (keep =? 0)%nat then 0%nat else _). cbn [snaps keys].
  assert (Hlook : forall e snap, foldr delete (snaps d) (take n (entries d)) !! e = Some snap ->
    ram_keys (words [] (meta_txt snap)) = []).
  { intros e snap. rewrite foldr_delete_lookup. case_decide; [done|]. apply Hd. }
  split; [exact Hlook|]. apply map_eq. intros x. rewrite lookup_empty.
  apply map_lookup_filter_None_2. right. intros v _. cbn [fst].
  rewrite list_elem_of_In, in_concat. intros (ks & Hin & Hx). apply in_map_iff in Hin as (e & <- & _).
  destruct (foldr delete (snaps d) (take n (entries d)) !! e) as [snap|] eqn:E; [|done].
  simpl in Hx. by rewrite (Hlook e snap E) in Hx.
Qed.

Lemma key_name_not_tag c : key_name c <> str "ram_key".
Proof. unfold key_name. by cbn. Qed.

(** With one blank in the path of the disk image, every save removes every
    keyframe, the one just written included: meta.txt's words no longer pair up.
    No snapshot of the directory can be restored. *)
Lemma blank_loses_keyframes keep bytes a b l c
  (Ha : word a) (Hb : word b) (Hne : b <> str "ram_key") (Hl : l <> [])
  (Hram : Forall (fun s => s_ram s <> []) l) :
  let d := (run_saves keep (a ++ 32 :: b) l (no_snapshots, no_keyframe)).1 in
  keys d = ∅ /\ load_snapshot bytes c d = None.
Proof.
  assert (H : forall l, Forall (fun s => s_ram s <> []) l ->
    let '(d, k) := run_saves keep (a ++ 32 :: b) l (no_snapshots, no_keyframe) in
    nameless d /\ (l <> [] -> keys d = ∅) /\ (k = no_keyframe \/ exists c, g_key_name k = key_name c)).
  { clear l Hl Hram. intros l. induction l as [|s l IH] using rev_ind; intros Hram.
    - split_and!; [|done|by left]. intros e snap. cbn [snaps no_snapshots]. by rewrite lookup_empty.
    - apply Forall_app in Hram as [Hram Hs]. rewrite Forall_singleton in Hs. unfold run_saves. rewrite fold_left_app.
      cbn [fold_left]. fold (run_saves keep (a ++ 32 :: b) l (no_snapshots, no_keyframe)). specialize (IH Hram).
      destruct (run_saves keep (a ++ 32 :: b) l (no_snapshots, no_keyframe)) as [d k]. destruct IH as (Hd & _ & Hk).
      unfold save_snapshot. destruct (save_ram (s_ram s) (s_cycle s) k (keys d)) as [[diff k'] dir'] eqn:E.
      assert (Hk' : exists c, g_key_name k' = key_name c).
      { unfold save_ram in E. destruct (negb (length (g_key_ram k) =? length (s_ram s))%nat) eqn:El.
        - injection E as _ <- _. cbn [g_key_name]. eauto.
        - destruct (_ || _) in E; injection E as _ <- _; cbn [g_key_name]; [eauto|]. destruct Hk as [->|]; [|done].
          destruct (s_ram s) as [|x r] eqn:Er; [by destruct Hs|discriminate El]. }
      destruct Hk' as (c' & Hk'). rewrite Hk'. 
      destruct (prune_nameless keep (mkSnapDir (<[snap_name (s_cycle s) := mkSnap (meta_text (a ++ 32 :: b) (key_name c') s)
        (diff_file (s_ram s) (key_name c') diff)]> (snaps d)) dir')) as [H1 H2]; [|by split_and!; [| |right; exists c']].
      intros e snap. cbn [snaps]. destruct (decide (e = snap_name (s_cycle s))) as [->|Hx].
      + rewrite lookup_insert_eq. intros [= <-]. cbn [meta_txt].
        by apply meta_keys_blank; [| | |apply key_name_word|apply key_name_not_tag].
      + rewrite lookup_insert_ne by done. apply Hd. }
  specialize (H l Hram). destruct (run_saves keep (a ++ 32 :: b) l (no_snapshots, no_keyframe)) as [d k].
  destruct H as (_ & Hk & _). cbn zeta. cbn [fst]. split; [by apply Hk|]. unfold load_snapshot.
  destruct (snaps d !! snap_name c); [|done]. simpl. rewrite Hk by done. apply no_keys_no_ram.
Qed.

Lemma blank_loses_keyframes_witness :
  keys (run_saves 2 (str "my disk.img") demo_saves (no_snapshots, no_keyframe)).1 = ∅ /\
  load_snapshot (Z.of_nat kPage) 400 (run_saves 2 (str "my disk.img") demo_saves (no_snapshots, no_keyframe)).1 = None.
Proof.
  apply (blank_loses_keyframes 2 (Z.of_nat kPage) (str "my") (str "disk.img") demo_saves 400).
  - by split; [|repeat constructor].
  - by split; [|repeat constructor].
  - done.
  - done.
  - repeat apply Forall_cons_2; try apply Forall_nil_2; done.
Defined.

(** A run that starts from an older snapshot, in a directory that holds
    newer ones, loses the keyframe it goes on using: its first snapshot is the
    oldest and is pruned with its keyframe, and the first snapshot that is kept
    cannot be restored. *)
Lemma stale_keyframe_lost :
  let old := run_saves 2 (str "d.img") [mkSave 100 50 [1] 0; mkSave 200 100 [1] 0] (no_snapshots, no_keyframe) in
  let new := run_saves 2 (str "d.img") [mkSave 50 25 [1] 0; mkSave 300 150 [1] 0] (old.1, no_keyframe) in
  load_snapshot 1 200 new.1 = Some [1] /\ snaps new.1 !! snap_name 300 <> None /\ load_snapshot 1 300 new.1 = None.
Proof. vm_compute. split_and!; [done|done|done]. Qed.
