(* ===== verification/Checkpoints.v ===== *)
(** * The checkpoint directory

    [save_checkpoint], [prune_checkpoints] and [resolve_restore_path] of
    verilator/main.cpp: checkpoints are directories named after their cycle,
    latest.txt names the last one saved, and the ones with the least names are
    removed beyond --checkpoint-keep.  [Harness] and [CosimCheckpoint] model
    what is inside.

    Saved at later and later cycles, the directory restores the last checkpoint,
    and each of the newest ones by its own path ([checkpoints_restore]).  A run
    that was started from an older one can remove the checkpoint it has just
    saved and leave latest.txt naming nothing ([latest_dangles]).

    A path is compared as it is spelled; failing writes are not modelled. *)
From stdpp Require Import sorting.
From S2P Require Import Prelude IdeTypes Text Keyboard Control RamSnapshot.

Definition ckpt_name (cycle : Z) : list Z := str "ckpt_" ++ pad16 cycle.

(** The directory's checkpoints and the contents of latest.txt. *)
Record CkptDir (C : Type) := mkCkptDir { ckpts : gmap (list Z) C; latest : option (list Z) }.
#[global] Arguments mkCkptDir {C}.
#[global] Arguments ckpts {C}.
#[global] Arguments latest {C}.

Section Dir.
Context {C : Type}.
Context (checkpoint_dir : list Z).
Notation CkptDir := (CkptDir C).

Definition no_checkpoints : CkptDir := mkCkptDir ∅ None.

(** The names in their order, the least first. *)
Definition is_ckpt (name : list Z) : bool :=
  starts_with (str "ckpt_") name && negb (from_option (fun _ => true) false (find (str ".tmp") name)).
Definition ckpt_entries (d : CkptDir) : list (list Z) :=
  merge_sort name_order (filter is_ckpt (elements (dom (ckpts d)))).

Definition prune_checkpoints (checkpoint_keep : nat) (d : CkptDir) : CkptDir :=
  if is_nil checkpoint_dir || (checkpoint_keep =? 0)%nat then d
  else mkCkptDir (foldr delete (ckpts d) (take (length (ckpt_entries d) - checkpoint_keep) (ckpt_entries d))) (latest d).

Definition save_checkpoint (checkpoint_keep : nat) (cycle : Z) (c : C) (d : CkptDir) : CkptDir :=
  if is_nil checkpoint_dir then d
  else
    let name := ckpt_name cycle in
    prune_checkpoints checkpoint_keep
      (mkCkptDir (<[name := c]> (ckpts d)) (Some (path_join checkpoint_dir name ++ [newline]))).

(** The checkpoint at a path: model.vlt and the files beside it. *)
Definition checkpoint_at (p : list Z) (d : CkptDir) : option C :=
  let prefix := path_join checkpoint_dir [] in
  if starts_with prefix p then ckpts d !! drop (length prefix) p else None.

(** The first line of latest.txt, if the path is that of the directory. *)
Definition resolve_restore_path (p : list Z) (d : CkptDir) : list Z :=
  match checkpoint_at p d with
  | Some _ => p
  | None =>
    match (if decide (p = checkpoint_dir) then latest d else None) with
    | Some text =>
      let line := (span (fun c => negb (c =? newline)) text).1 in
      if is_nil line then p else line
    | None => p
    end
  end.

(** What --restore loads; [None] when there is nothing to load. *)
Definition restore (p : list Z) (d : CkptDir) : option C := checkpoint_at (resolve_restore_path p d) d.

(** The saves of a run. *)
Definition run_ckpts (keep : nat) (l : list (Z * C)) (d : CkptDir) : CkptDir :=
  fold_left (fun d s => save_checkpoint keep s.1 s.2 d) l d.

Definition newest (keep : nat) (l : list (Z * C)) : list (Z * C) := if (keep =? 0)%nat then l else drop (length l - keep) l.
Definition later_and_later (l : list (Z * C)) : Prop :=
  StronglySorted (fun a b => a.1 < b.1) l /\ Forall (fun s => cycle_ok s.1) l.

(** ** Names *)

Lemma name_le_ckpt a b : cycle_ok a -> cycle_ok b -> name_le (ckpt_name a) (ckpt_name b) = (a <=? b).
Proof.
  intros Ha Hb. unfold ckpt_name. rewrite name_le_prefix, !pad16_digits by done. by apply name_le_digits.
Qed.

Lemma ckpt_name_inj a b : cycle_ok a -> cycle_ok b -> ckpt_name a = ckpt_name b -> a = b.
Proof. intros Ha Hb E%app_inv_head. rewrite !pad16_digits in E by done. by apply (digits_inj 16). Qed.

Definition ckpt_names (l : list (Z * C)) : list (list Z) := map (fun s => ckpt_name s.1) l.

Lemma ckpt_names_sorted l : later_and_later l -> StronglySorted name_order (ckpt_names l) /\ NoDup (ckpt_names l).
Proof.
  intros [Hs Hok]. induction Hs as [|s l Hl IH Hs]; [split; constructor|].
  apply Forall_cons in Hok as [H0 Hok]. destruct (IH Hok) as [H1 H2]. cbn [ckpt_names map]. fold (ckpt_names l).
  assert (forall x, x ∈ ckpt_names l -> exists t : Z * C, x = ckpt_name t.1 /\ s.1 < t.1 /\ cycle_ok t.1) as Hin.
  { intros x Hx. apply list_elem_of_fmap in Hx as (t & -> & Ht). rewrite Forall_forall in Hs, Hok. exists t.
    split_and!; [done|by apply Hs|by apply Hok]. }
  split; constructor; [done| |intros Hx|done].
  - apply Forall_forall. intros x Hx. destruct (Hin x Hx) as (t & -> & Hlt & Ht). unfold name_order. rewrite name_le_ckpt by done. lia.
  - destruct (Hin _ Hx) as (t & E & Hlt & Ht). apply ckpt_name_inj in E; [lia|done..].
Qed.

Lemma starts_with_head a b : starts_with a (a ++ b) = true.
Proof. induction a as [|x a IH]; [done|]. cbn. by rewrite Z.eqb_refl. Qed.

Lemma find_head c k l : c ∉ l -> find (c :: k) l = None.
Proof.
  induction l as [|x l IH]; intros Hc; [done|]. apply not_elem_of_cons in Hc as [Hx Hc].
  cbn. rewrite (proj2 (Z.eqb_neq c x)) by done. cbn. by rewrite IH.
Qed.

Lemma ckpt_name_chars cycle x : x ∈ ckpt_name cycle -> x ∈ str "ckpt_" \/ 48 <= x < 58.
Proof.
  unfold ckpt_name, pad16. intros [H|H]%elem_of_app; [by left|right]. revert x H.
  apply Forall_forall, strip_Forall, digits_Forall.
Qed.

Lemma not_in_ckpt_name c cycle : c ∉ str "ckpt_" -> ~ 48 <= c < 58 -> c ∉ ckpt_name cycle.
Proof. intros H1 H2 [H|H]%ckpt_name_chars; done. Qed.

Lemma is_ckpt_name cycle : is_ckpt (ckpt_name cycle) = true.
Proof.
  unfold is_ckpt. change (str ".tmp") with (46 :: str "tmp"). rewrite find_head.
  - unfold ckpt_name. by rewrite starts_with_head.
  - apply not_in_ckpt_name; [by apply (bool_decide_unpack _)|lia].
Qed.

Lemma ckpt_entries_names d l : later_and_later l -> dom (ckpts d) = list_to_set (ckpt_names l) -> ckpt_entries d = ckpt_names l.
Proof.
  intros Hl Hd. destruct (ckpt_names_sorted l Hl) as [H1 H2]. unfold ckpt_entries.
  apply (StronglySorted_unique name_order); [apply StronglySorted_merge_sort; apply _|done|].
  rewrite merge_sort_Permutation, Hd. rewrite (elements_list_to_set _ H2).
  clear. induction l as [|s l IH]; [done|]. cbn [ckpt_names map]. fold (ckpt_names l).
  rewrite filter_cons_True by (by rewrite is_ckpt_name). by constructor.
Qed.

Lemma later_drop n l : later_and_later l -> later_and_later (drop n l).
Proof.
  intros [Hs Hok]. split; [|by apply Forall_drop]. clear Hok. revert n.
  induction Hs as [|s l Hl IH Hs]; intros [|n]; cbn [drop]; [constructor..|by constructor|apply IH].
Qed.

(** ** A save *)

Context (Hdirne : checkpoint_dir <> []).

Lemma dir_some : is_nil checkpoint_dir = false.
Proof. by destruct checkpoint_dir. Qed.

(** The directory holds the saves [l], and nothing else. *)
Record holds (d : CkptDir) (l : list (Z * C)) : Prop := mkHolds {
  ho_names : dom (ckpts d) = list_to_set (ckpt_names l);
  ho_data : Forall (fun s => ckpts d !! ckpt_name s.1 = Some s.2) l
}.

Lemma prune_holds keep d l : later_and_later l -> holds d l -> holds (prune_checkpoints keep d) (newest keep l).
Proof.
  intros Hl [Hd Hx]. unfold prune_checkpoints, newest. rewrite dir_some. cbn [orb]. destruct (Nat.eqb_spec keep 0) as [|Hk]; [by constructor|].
  rewrite (ckpt_entries_names d l) by done. assert (length (ckpt_names l) = length l) as -> by apply length_map.
  set (n := (length l - keep)%nat). destruct (ckpt_names_sorted l Hl) as [_ Hnd].
  assert (ckpt_names l = take n (ckpt_names l) ++ drop n (ckpt_names l)) as Hsplit by (by rewrite take_drop).
  pose proof Hnd as Hdis. rewrite Hsplit in Hdis. apply NoDup_app in Hdis as (_ & Hdis & _).
  assert (drop n (ckpt_names l) = ckpt_names (drop n l)) as Hdrop by (unfold ckpt_names; by rewrite <- fmap_drop).
  constructor; cbn [ckpts].
  - apply set_eq. intros x. rewrite elem_of_dom, foldr_delete_lookup, elem_of_list_to_set, <- Hdrop.
    assert (is_Some (ckpts d !! x) <-> x ∈ take n (ckpt_names l) \/ x ∈ drop n (ckpt_names l)) as Hm.
    { rewrite <- elem_of_dom, Hd, elem_of_list_to_set, <- elem_of_app. by rewrite take_drop. }
    case_decide as Hin; [|rewrite Hm; tauto]. split; [intros [? ?]; done|]. intros Hx'. by destruct (Hdis x Hin).
  - apply Forall_forall. intros s Hs. rewrite foldr_delete_lookup, decide_False.
    + eapply Forall_forall in Hx; [exact Hx|]. by eapply in_drop.
    + intros Ht. apply (Hdis _ Ht). rewrite Hdrop. apply list_elem_of_fmap. by exists s.
Qed.

Lemma insert_holds cycle c d l text : later_and_later (l ++ [(cycle, c)]) -> holds d l ->
  holds (mkCkptDir (<[ckpt_name cycle := c]> (ckpts d)) text) (l ++ [(cycle, c)]).
Proof.
  intros Hl [Hd Hx]. constructor; cbn [ckpts].
  - rewrite dom_insert_L, Hd. unfold ckpt_names. rewrite map_app, list_to_set_app_L. simpl. clear. set_solver.
  - apply Forall_app. split; [|apply Forall_singleton; by rewrite lookup_insert_eq].
    destruct (ckpt_names_sorted _ Hl) as [_ Hnd]. unfold ckpt_names in Hnd. rewrite map_app in Hnd.
    apply NoDup_app in Hnd as (_ & Hdis & _). apply Forall_forall. intros s Hs.
    rewrite lookup_insert_ne; [by eapply Forall_forall in Hx|]. intros E.
    apply (Hdis (ckpt_name s.1)); [apply list_elem_of_fmap; by exists s|]. change (ckpt_name s.1 ∈ [ckpt_name cycle]). rewrite E. by left.
Qed.

Lemma newest_snoc keep l s : newest keep (newest keep l ++ [s]) = newest keep (l ++ [s]).
Proof.
  unfold newest. destruct (Nat.eqb_spec keep 0); [done|]. rewrite !length_app, length_drop. simpl.
  replace (drop (length l - keep) l ++ [s]) with (drop (length l - keep) (l ++ [s])) by (by rewrite drop_app_le by lia).
  rewrite drop_drop. f_equal. lia.
Qed.

Lemma later_prefix l s : later_and_later (l ++ [s]) -> later_and_later l.
Proof.
  intros [Hs Hok]. apply Forall_app in Hok as [Hok _]. split; [|done]. clear Hok.
  induction l as [|x l IH]; [constructor|]. inversion Hs as [|? ? Hm Hy]; subst. apply Forall_app in Hy as [Hy _]. constructor; auto.
Qed.

Lemma later_newest keep l s : later_and_later (l ++ [s]) -> later_and_later (newest keep l ++ [s]).
Proof.
  unfold newest. destruct (keep =? 0)%nat; [done|]. intros Hl.
  replace (drop (length l - keep) l ++ [s]) with (drop (length l - keep) (l ++ [s])) by (by rewrite drop_app_le by lia).
  by apply later_drop.
Qed.

Lemma run_holds keep l : later_and_later l -> holds (run_ckpts keep l no_checkpoints) (newest keep l).
Proof.
  induction l as [|s l IH] using rev_ind; intros Hl.
  - unfold newest. destruct (keep =? 0)%nat; constructor; cbn; try done; rewrite ?dom_empty_L; done.
  - unfold run_ckpts. rewrite fold_left_app. cbn [fold_left]. fold (run_ckpts keep l no_checkpoints).
    rewrite <- newest_snoc. destruct s as [cycle c]. unfold save_checkpoint. rewrite dir_some. cbv zeta. apply prune_holds; [by apply later_newest|].
    apply insert_holds; [by apply later_newest|]. apply IH. by eapply later_prefix.
Qed.

Lemma save_latest keep cycle c d :
  latest (save_checkpoint keep cycle c d) = Some (path_join checkpoint_dir (ckpt_name cycle) ++ [newline]).
Proof. unfold save_checkpoint, prune_checkpoints. rewrite dir_some. cbv zeta. cbn [orb]. by destruct (keep =? 0)%nat. Qed.

(** ** Paths *)

Lemma path_join_prefix name : path_join checkpoint_dir name = path_join checkpoint_dir [] ++ name.
Proof. unfold path_join. repeat case_match; by rewrite <- ?app_assoc, ?app_nil_r. Qed.

Lemma checkpoint_at_join name d : checkpoint_at (path_join checkpoint_dir name) d = ckpts d !! name.
Proof. unfold checkpoint_at. cbv zeta. rewrite (path_join_prefix name), starts_with_head. by rewrite drop_app_length. Qed.

(** The path in latest.txt, when the directory's name is on one line. *)
Lemma resolve_latest name d :
  one_line checkpoint_dir -> one_line name -> name <> [] -> ckpts d !! [] = None ->
  latest d = Some (path_join checkpoint_dir name ++ [newline]) ->
  restore checkpoint_dir d = ckpts d !! name.
Proof.
  intros Hdir Hname Hne Hempty Hl. unfold restore, resolve_restore_path.
  assert (checkpoint_at checkpoint_dir d = None) as Hat.
  { unfold checkpoint_at. cbv zeta. destruct (starts_with _ _) eqn:Es; [|done]. rewrite drop_ge; [done|].
    unfold path_join. repeat case_match; rewrite ?length_app; lia. }
  rewrite Hat, decide_True, Hl by done. cbv zeta.
  assert ((span (fun c => negb (c =? newline)) (path_join checkpoint_dir name ++ [newline])).1 = path_join checkpoint_dir name) as ->.
  { assert (one_line (path_join checkpoint_dir name)) as Ho.
    { unfold path_join, one_line in *. destruct (last checkpoint_dir) as [[|p|p]|]; repeat case_match;
        rewrite ?not_elem_of_app, ?not_elem_of_cons; split_and?; try done; by apply not_elem_of_nil. }
    revert Ho. generalize (path_join checkpoint_dir name). clear. induction l as [|x l IH]; intros Ho; [done|].
    unfold one_line in *. apply not_elem_of_cons in Ho as [Hx Ho]. cbn. rewrite (proj2 (Z.eqb_neq x newline)) by done. cbn.
    destruct (span _ _) as [a b] eqn:E. cbn in *. by rewrite IH. }
  assert (is_nil (path_join checkpoint_dir name) = false) as ->.
  { rewrite (path_join_prefix name). by destruct (path_join checkpoint_dir []), name. }
  by rewrite checkpoint_at_join.
Qed.

Lemma ckpt_name_plain cycle : one_line (ckpt_name cycle) /\ ckpt_name cycle <> [].
Proof.
  split; [|done]. apply not_in_ckpt_name; [by apply (bool_decide_unpack _)|unfold newline; lia].
Qed.

Lemma holds_no_empty d l : holds d l -> ckpts d !! [] = None.
Proof.
  intros [Hd _]. apply not_elem_of_dom. rewrite Hd, elem_of_list_to_set. intros (s & E & _)%list_elem_of_fmap. done.
Qed.

Lemma restore_path d l s : holds d l -> s ∈ l -> restore (path_join checkpoint_dir (ckpt_name s.1)) d = Some s.2.
Proof.
  intros [_ Hx] Hs. eapply Forall_forall in Hx; [|exact Hs]. unfold restore, resolve_restore_path.
  by rewrite checkpoint_at_join, Hx, checkpoint_at_join.
Qed.

(** C15: after saves at later and later cycles from an empty directory, the
    directory given to --restore loads the last checkpoint saved, the path of
    each of the newest ones, as many as --checkpoint-keep tells, loads that
    one, and no other is left. *)
Theorem checkpoints_restore keep l cycle c :
  one_line checkpoint_dir -> later_and_later (l ++ [(cycle, c)]) ->
  let d := run_ckpts keep (l ++ [(cycle, c)]) no_checkpoints in
  restore checkpoint_dir d = Some c /\
  (forall s, s ∈ newest keep (l ++ [(cycle, c)]) -> restore (path_join checkpoint_dir (ckpt_name s.1)) d = Some s.2) /\
  dom (ckpts d) = list_to_set (ckpt_names (newest keep (l ++ [(cycle, c)]))).
Proof.
  intros Hdir Hl d. pose proof (run_holds keep _ Hl) as Hh. fold d in Hh.
  assert ((cycle, c) ∈ newest keep (l ++ [(cycle, c)])) as Hin.
  { unfold newest. destruct (Nat.eqb_spec keep 0); [apply elem_of_app; right; by left|].
    rewrite drop_app_le by (rewrite length_app; simpl; lia). apply elem_of_app; right; by left. }
  split_and!; [|intros s Hs; by eapply restore_path|apply Hh].
  destruct (ckpt_name_plain cycle) as [Hn Hne].
  rewrite (resolve_latest (ckpt_name cycle)); [|done|done|done|by eapply holds_no_empty|].
  - destruct Hh as [_ Hx]. by eapply Forall_forall in Hx; [|exact Hin].
  - unfold d, run_ckpts. rewrite fold_left_app. apply save_latest.
Qed.

(** With the directory full of later checkpoints, as behind a restore of an
    earlier one, the checkpoint just saved is the one removed. *)
Lemma latest_dangles keep l cycle c d :
  one_line checkpoint_dir -> later_and_later ((cycle, c) :: l) -> holds d l -> (0 < keep <= length l)%nat ->
  restore checkpoint_dir (save_checkpoint keep cycle c d) = None.
Proof.
  intros Hdir Hl Hh Hk. destruct (ckpt_name_plain cycle) as [Hn Hne].
  assert (holds (mkCkptDir (<[ckpt_name cycle := c]> (ckpts d)) (Some (path_join checkpoint_dir (ckpt_name cycle) ++ [newline]))) ((cycle, c) :: l)) as H1.
  { destruct Hh as [Hd Hx]. destruct (ckpt_names_sorted _ Hl) as [_ Hnd]. inversion Hnd as [|? ? Hni _]; subst. constructor; cbn [ckpts].
    - by rewrite dom_insert_L, Hd.
    - apply Forall_cons. split; [by rewrite lookup_insert_eq|]. apply Forall_forall. intros s Hs.
      rewrite lookup_insert_ne; [by eapply Forall_forall in Hx|]. intros E. apply Hni. rewrite E.
      apply list_elem_of_fmap. by exists s. }
  apply (prune_holds keep) in H1; [|done]. assert (prune_checkpoints keep (mkCkptDir (<[ckpt_name cycle := c]> (ckpts d)) (Some (path_join checkpoint_dir (ckpt_name cycle) ++ [newline]))) = save_checkpoint keep cycle c d) as E0 by (unfold save_checkpoint; by rewrite dir_some).
  rewrite E0 in H1.
  rewrite (resolve_latest (ckpt_name cycle)); [|done|done|done|by eapply holds_no_empty|apply save_latest].
  apply not_elem_of_dom. destruct H1 as [-> _]. rewrite elem_of_list_to_set. unfold newest.
  rewrite (proj2 (Nat.eqb_neq _ _)) by lia. cbn [length]. rewrite Nat.sub_succ_l by lia. cbn [drop].
  intros (s & E & Hs%in_drop)%list_elem_of_fmap. destruct (ckpt_names_sorted _ Hl) as [_ Hnd]. inversion Hnd as [|? ? Hni _]; subst.
  apply Hni. rewrite E. apply list_elem_of_fmap. by exists s.
Qed.
End Dir.

(** ** An example *)

Lemma checkpoints_restore_witness :
  let d := run_ckpts (str "ckpts") 2 [(100, 1); (200, 2); (300, 3)] no_checkpoints in
  restore (str "ckpts") (str "ckpts") d = Some 3 /\
  restore (str "ckpts") (path_join (str "ckpts") (ckpt_name 200)) d = Some 2.
Proof.
  assert (one_line (str "ckpts")) as H1 by (unfold one_line; by apply (bool_decide_unpack _)).
  assert (later_and_later ([(100, 1); (200, 2)] ++ [(300, 3)])) as H2
    by (split; repeat constructor; unfold cycle_ok; cbn; lia).
  destruct (checkpoints_restore (str "ckpts") ltac:(done) 2 [(100, 1); (200, 2)] 300 3 H1 H2) as (A & B & _).
  split; [exact A|]. apply (B (200, 2)). by left.
Defined.
