(* ===== verification/SnapshotState.v ===== *)
(** * The model's state in portable snapshots

    verilator/snapshot.cpp: state.bin holds the fields of the verilated model by
    name ([snapshot_save_state]), and loading copies back each field whose name
    and size the model still has ([snapshot_load_state]).  The table of fields
    is generated from the model: any list of names and contents.

    A snapshot of one build restores into another: exactly the fields both have
    at the same size ([fields_restored]).  A file that was cut short is refused,
    but only after the fields before the cut were overwritten
    ([short_state_refused]).

    Failing writes and the messages are not modelled; zstd is taken as the
    identity on contents. *)
From S2P Require Import Prelude IdeTypes Text Files.

Record SnapshotField := mkField { f_name : list Z; f_bytes : list Z }.

Definition kMagic : Z := 0x504E535A.
Definition kVersion : Z := 1.

(** [strstr(name, k)] finds [k]. *)
Fixpoint strstr (name k : list Z) : bool :=
  starts_with k name || match name with [] => false | _ :: name => strstr name k end.

Definition kept (skip : list (list Z)) (f : SnapshotField) : bool :=
  forallb (fun k => negb (strstr (f_name f) k)) skip.

(** [len] is a [uint16_t]. *)
Definition field_record (f : SnapshotField) : list Z :=
  let len := u16 (Z.of_nat (length (f_name f))) in
  le_bytes 2 len ++ take (Z.to_nat len) (f_name f) ++ le_bytes 8 (Z.of_nat (length (f_bytes f))) ++ f_bytes f.

(** The file written. *)
Definition snapshot_save_state (table : list SnapshotField) (skip : list (list Z)) : list Z :=
  let fields := List.filter (kept skip) table in
  le_bytes 4 kMagic ++ le_bytes 4 kVersion ++ le_bytes 4 (u32 (Z.of_nat (length fields))) ++
  concat (map field_record fields).

(** ** Loading *)

(** [by_name]: the places of the fields that were not loaded yet. *)
Definition names (table : list SnapshotField) : gmap (list Z) nat :=
  fold_left (fun m e => <[e.2 := e.1]> m) (imap (fun i f => (i, f_name f)) table) ∅.

(** [fread] into a field: a short read leaves the rest of it alone. *)
Definition read_into (size : nat) (d old : list Z) : list Z := splice 0 (take size d) old.

(** The loop over the records: the table it leaves, and whether it succeeded. *)
Fixpoint load_fields (count : nat) (by_name : gmap (list Z) nat) (d : list Z) (table : list SnapshotField) :
    list SnapshotField * bool :=
  match count with
  | O => (table, true)
  | S count =>
    match ('(len, d) ← get 2 d; '(name, d) ← fread (Z.to_nat len) d; '(size, d) ← get 8 d; Some (name, size, d)) with
    | None => (table, false)
    | Some (name, size, d) =>
      match i ← by_name !! name; f ← table !! i; Some (i, f) with
      | Some (i, f) =>
        if Z.of_nat (length (f_bytes f)) =? size then
          let table := <[i := mkField (f_name f) (read_into (Z.to_nat size) d (f_bytes f))]> table in
          match fread (Z.to_nat size) d with
          | None => (table, false)
          | Some (_, d) => load_fields count (delete name by_name) d table
          end
        else
          match fread (Z.to_nat size) d with
          | None => (table, false)
          | Some (_, d) => load_fields count (delete name by_name) d table
          end
      | None =>
        match fread (Z.to_nat size) d with
        | None => (table, false)
        | Some (_, d) => load_fields count by_name d table
        end
      end
    end
  end.

(** The contents of the model's fields after loading [d], and success. *)
Definition snapshot_load_state (d : list Z) (table : list SnapshotField) : list SnapshotField * bool :=
  match ('(magic, d) ← get 4 d; '(version, d) ← get 4 d; '(count, d) ← get 4 d; Some (magic, version, count, d)) with
  | Some (magic, version, count, d) =>
    if (magic =? kMagic) && (version =? kVersion) then load_fields (Z.to_nat count) (names table) d table
    else (table, false)
  | None => (table, false)
  end.

(** ** What a load should do *)

(** A field takes the saved contents when the names and sizes agree. *)
Definition restore_field (saved : list SnapshotField) (f : SnapshotField) : SnapshotField :=
  match list_find (fun s => f_name s = f_name f) saved with
  | Some (_, s) => if (length (f_bytes s) =? length (f_bytes f))%nat then mkField (f_name f) (f_bytes s) else f
  | None => f
  end.

(** A table that fits the format: the names are distinct and below 64 KB, and
    there are less than 2^32 fields of less than 2^64 bytes. *)
Record table_ok (table : list SnapshotField) : Prop := mkTableOk {
  ok_names : NoDup (map f_name table);
  ok_name_len : Forall (fun f => Z.of_nat (length (f_name f)) < 65536) table;
  ok_size : Forall (fun f => Z.of_nat (length (f_bytes f)) < 18446744073709551616) table;
  ok_count : Z.of_nat (length table) < 4294967296;
}.

(** ** Reading back *)

(** [names] finds the only field of a name. *)
Lemma names_lookup_gen l : forall (i : nat) (m : gmap (list Z) nat) n,
  NoDup (map f_name l) ->
  fold_left (fun m e => <[e.2 := e.1]> m) (imap (fun j f => ((i + j)%nat, f_name f)) l) m !! n =
    match list_find (fun f => f_name f = n) l with
    | Some (j, _) => Some (i + j)%nat
    | None => m !! n
    end.
Proof.
  induction l as [|f l IH]; intros i m n Hn; [done|]. cbn [map] in Hn. apply NoDup_cons in Hn as [Hf Hn].
  rename n into key.
  cbn [imap fold_left fst snd list_find].
  rewrite (imap_ext _ (fun j f => ((S i + j)%nat, f_name f))) by (intros; cbn; f_equal; lia).
  rewrite IH by done. destruct (decide (f_name f = key)) as [<-|Hne].
  - rewrite (proj2 (list_find_None _ _)).
    + by rewrite lookup_insert_eq, Nat.add_0_r.
    + apply Forall_forall. intros g Hg E. apply Hf. rewrite <- E. by apply (list_elem_of_fmap_2 f_name).
  - destruct (list_find _ l) as [[j g]|]; cbn; [f_equal; lia|]. by rewrite lookup_insert_ne.
Qed.

Lemma names_lookup table n :
  NoDup (map f_name table) -> names table !! n = fst <$> list_find (fun f => f_name f = n) table.
Proof.
  intros Hn. unfold names. rewrite (names_lookup_gen table 0 ∅ n Hn). by destruct (list_find _ table) as [[]|].
Qed.

(** ** Records and fields *)

Lemma restore_cons s l f :
  restore_field (s :: l) f =
    if decide (f_name s = f_name f) then
      if (length (f_bytes s) =? length (f_bytes f))%nat then mkField (f_name f) (f_bytes s) else f
    else restore_field l f.
Proof.
  unfold restore_field. cbn [list_find]. destruct (decide _); [done|]. by destruct (list_find _ l) as [[]|].
Qed.

Lemma restore_absent l f : f_name f ∉ map f_name l -> restore_field l f = f.
Proof.
  intros Hf. unfold restore_field. rewrite (proj2 (list_find_None _ _)); [done|].
  apply Forall_forall. intros s Hs E. apply Hf. rewrite <- E. by apply (list_elem_of_fmap_2 f_name).
Qed.

Lemma restore_name l f : f_name (restore_field l f) = f_name f.
Proof. unfold restore_field. destruct (list_find _ l) as [[]|]; [|done]. by case_match. Qed.

Lemma names_distinct (t : list SnapshotField) i j f g :
  NoDup (map f_name t) -> t !! i = Some f -> t !! j = Some g -> f_name f = f_name g -> i = j.
Proof.
  intros Hn Hi Hj E. eapply NoDup_lookup; [apply Hn|..]; rewrite list_lookup_fmap.
  - by rewrite Hi.
  - rewrite Hj. cbn. by rewrite E.
Qed.

(** The fields but one are those of the other records. *)
Lemma restore_step s l t i f g :
  NoDup (map f_name t) -> t !! i = Some f -> f_name f = f_name s -> restore_field l g = restore_field (s :: l) f ->
  map (restore_field l) (<[i := g]> t) = map (restore_field (s :: l)) t.
Proof.
  intros Hn Hi Ef Eg. apply list_eq. intros j. rewrite !list_lookup_fmap.
  destruct (decide (j = i)) as [->|Hj].
  - rewrite list_lookup_insert_eq by (by eapply lookup_lt_Some). rewrite Hi. cbn. by rewrite Eg.
  - rewrite list_lookup_insert_ne by done. destruct (t !! j) as [h|] eqn:Ej; [|done]. cbn. f_equal.
    rewrite restore_cons, decide_False; [done|]. intros E. apply Hj.
    eapply (names_distinct t); [done..|]. by rewrite Ef.
Qed.

Lemma restore_none s l t :
  f_name s ∉ map f_name t -> map (restore_field l) t = map (restore_field (s :: l)) t.
Proof.
  intros Hs. apply map_ext_in. intros f Hf%list_elem_of_In. rewrite restore_cons, decide_False; [done|].
  intros E. apply Hs. rewrite E. by apply (list_elem_of_fmap_2 f_name).
Qed.

(** The head of a record. *)
Lemma field_record_head s d :
  Z.of_nat (length (f_name s)) < 65536 -> Z.of_nat (length (f_bytes s)) < 18446744073709551616 ->
  ('(len, d) ← get 2 (field_record s ++ d); '(name, d) ← fread (Z.to_nat len) d; '(size, d) ← get 8 d;
   Some (name, size, d)) = Some (f_name s, Z.of_nat (length (f_bytes s)), f_bytes s ++ d).
Proof.
  intros Hl Hs. unfold field_record. rewrite u16_id by (unfold is_u16; lia). rewrite Nat2Z.id, take_ge by lia.
  rewrite <- !app_assoc. rewrite get_app by (cbn; lia). cbn [mbind option_bind].
  rewrite Nat2Z.id, fread_app by done. cbn [mbind option_bind]. by rewrite get_app by (cbn; lia).
Qed.

(** The names left in [m] are those of the fields of [t] at their places, among
    them all that [l] can restore. *)
Record by_name_ok (m : gmap (list Z) nat) (l t : list SnapshotField) : Prop := mkByName {
  bn_field n i : m !! n = Some i -> exists f, t !! i = Some f /\ f_name f = n;
  bn_all i f : t !! i = Some f -> f_name f ∈ map f_name l -> m !! f_name f = Some i;
}.

Lemma by_name_delete m s l t t' :
  NoDup (map f_name (s :: l)) -> by_name_ok m (s :: l) t -> map f_name t' = map f_name t ->
  by_name_ok (delete (f_name s) m) l t'.
Proof.
  intros [Hs _]%NoDup_cons [Hf Ha] En.
  assert (forall i f, t' !! i = Some f -> exists g, t !! i = Some g /\ f_name g = f_name f) as Hc.
  { intros i f Hi. assert (map f_name t !! i = Some (f_name f)) as E by (by rewrite <- En, list_lookup_fmap, Hi).
    rewrite list_lookup_fmap in E. destruct (t !! i) as [g|]; [|done]. injection E as E. by exists g. }
  split.
  - intros n i Hm. apply lookup_delete_Some in Hm as [_ Hm]. destruct (Hf n i Hm) as (f & Hi & Ef).
    assert (map f_name t' !! i = Some n) as E by (by rewrite En, list_lookup_fmap, Hi, <- Ef).
    rewrite list_lookup_fmap in E. destruct (t' !! i) as [g|]; [|done]. injection E as E. by exists g.
  - intros i f Hi Hin. destruct (Hc i f Hi) as (g & Hg & Eg). rewrite <- Eg in *. rewrite lookup_delete_ne.
    + apply Ha; [done|]. cbn [map]. apply elem_of_cons. by right.
    + intros E. apply Hs. by rewrite E.
Qed.

Lemma by_name_absent m s l t : by_name_ok m (s :: l) t -> m !! f_name s = None -> f_name s ∉ map f_name t.
Proof.
  intros [_ Ha] Hm Hin. apply list_elem_of_fmap in Hin as (f & E & Hf). apply list_elem_of_lookup in Hf as [i Hi].
  specialize (Ha i f Hi). rewrite <- E, Hm in Ha. cbn [map] in Ha. discriminate Ha. apply elem_of_cons. by left.
Qed.

Lemma by_name_cons m s l t : by_name_ok m (s :: l) t -> by_name_ok m l t.
Proof. intros [Hf Ha]. split; [done|]. intros i f Hi Hin. apply Ha; [done|]. apply elem_of_cons. by right. Qed.

Lemma insert_names i f g (t : list SnapshotField) :
  t !! i = Some f -> f_name g = f_name f -> map f_name (<[i := g]> t) = map f_name t.
Proof.
  intros Hi E. apply list_eq. intros j. rewrite !list_lookup_fmap. destruct (decide (j = i)) as [->|Hj].
  - rewrite list_lookup_insert_eq by (by eapply lookup_lt_Some). rewrite Hi. cbn. by rewrite E.
  - by rewrite list_lookup_insert_ne.
Qed.

Lemma read_into_all new d old : length new = length old -> read_into (length old) (new ++ d) old = new.
Proof.
  intros E. unfold read_into, splice. rewrite <- E, take_app_length. cbn. by rewrite E, drop_all, app_nil_r.
Qed.

(** Loading the records of [l] into [t]. *)
Lemma load_records l : forall m d t,
  table_ok l -> NoDup (map f_name t) -> by_name_ok m l t ->
  load_fields (length l) m (concat (map field_record l) ++ d) t = (map (restore_field l) t, true).
Proof.
  induction l as [|s l IH]; intros m d t [Hn Hlen Hsize Hc] Ht Hm.
  - cbn. f_equal. rewrite <- (map_id t) at 1. apply map_ext. intros f. symmetry. apply restore_absent, not_elem_of_nil.
  - apply Forall_cons in Hlen as [Hl Hlen]. apply Forall_cons in Hsize as [Hs Hsize].
    pose proof Hn as Hn'. cbn [map] in Hn'. apply NoDup_cons in Hn' as [Hns Hn'].
    assert (table_ok l) as Hok by (split; try done; cbn [length] in Hc; lia).
    cbn [length map concat load_fields]. rewrite <- app_assoc, field_record_head by done.
    destruct (m !! f_name s) as [i|] eqn:Em; cbn [mbind option_bind].
    + destruct (bn_field _ _ _ Hm _ _ Em) as (f & Hi & Ef). rewrite Hi. cbn [mbind option_bind].
      destruct (Z.eqb_spec (Z.of_nat (length (f_bytes f))) (Z.of_nat (length (f_bytes s)))) as [E|E].
      * rewrite Nat2Z.id, fread_app by done. apply Nat2Z.inj in E. cbv zeta.
        set (g := mkField (f_name f) _).
        assert (map f_name (<[i := g]> t) = map f_name t) as En by by apply (insert_names i f).
        rewrite IH; [|done|by rewrite En|by eapply by_name_delete].
        f_equal. eapply restore_step; [done..|].
        rewrite restore_cons, decide_True by done. rewrite E, Nat.eqb_refl.
        rewrite restore_absent by (cbn; by rewrite Ef). unfold g. f_equal. rewrite <- E. by apply read_into_all.
      * rewrite Nat2Z.id, fread_app by done. rewrite IH; [|done|done|by eapply by_name_delete].
        f_equal. rewrite <- (list_insert_id t i f Hi) at 1. eapply restore_step; [done..|].
        rewrite restore_cons, decide_True by done. rewrite (proj2 (Nat.eqb_neq _ _)) by lia.
        apply restore_absent. by rewrite Ef.
    + rewrite Nat2Z.id, fread_app by done. rewrite IH; [|done|done|by eapply by_name_cons].
      f_equal. by eapply restore_none, by_name_absent.
Qed.

(** ** Whole files *)

Lemma filter_sub {A} (p : A -> bool) l : (length (List.filter p l) <= length l)%nat.
Proof. induction l as [|x l IH]; cbn; [lia|]. destruct (p x); cbn; lia. Qed.

Lemma filter_ok table skip : table_ok table -> table_ok (List.filter (kept skip) table).
Proof.
  intros [Hn Hl Hs Hc]. split; try (by apply List.incl_Forall with table; [apply List.incl_filter|]).
  - clear - Hn. induction table as [|f table IH]; [done|]. cbn [map] in Hn. apply NoDup_cons in Hn as [Hf Hn].
    cbn [List.filter]. case_bool; [|by apply IH]. cbn [map]. apply NoDup_cons. split; [|by apply IH].
    intros Hin. apply Hf. apply list_elem_of_fmap in Hin as (g & Eg & Hg). rewrite Eg.
    apply (list_elem_of_fmap_2 f_name). apply list_elem_of_In in Hg. apply filter_In in Hg as [Hg _].
    by apply list_elem_of_In.
  - pose proof (filter_sub (kept skip) table). lia.
Qed.

Lemma names_ok l t : NoDup (map f_name t) -> by_name_ok (names t) l t.
Proof.
  intros Hn. split.
  - intros n i Hm. rewrite names_lookup in Hm by done.
    destruct (list_find _ t) as [[j f]|] eqn:E; [|done]. injection Hm as <-.
    apply list_find_Some in E as (Hi & E & _). by exists f.
  - intros i f Hi _. rewrite names_lookup by done.
    destruct (list_find _ t) as [[j g]|] eqn:E.
    + apply list_find_Some in E as (Hj & E & _). cbn. f_equal. by eapply names_distinct.
    + apply list_find_None in E. rewrite Forall_forall in E. destruct (E f); [by eapply list_elem_of_lookup_2|done].
Qed.

Lemma load_saved table skip t :
  table_ok table -> NoDup (map f_name t) ->
  snapshot_load_state (snapshot_save_state table skip) t =
    (map (restore_field (List.filter (kept skip) table)) t, true).
Proof.
  intros Hok Ht. pose proof (filter_ok table skip Hok) as Hf. pose proof (ok_count _ Hf) as Hc.
  unfold snapshot_load_state, snapshot_save_state. rewrite u32_id by (unfold is_u32; lia).
  rewrite get_app by (unfold kMagic, kVersion; cbn; lia). cbn [mbind option_bind]. rewrite get_app by (unfold kMagic, kVersion; cbn; lia). cbn [mbind option_bind].
  rewrite get_app by (unfold kMagic, kVersion; cbn; lia). cbn [mbind option_bind]. rewrite !Z.eqb_refl. cbn [andb].
  rewrite Nat2Z.id, <- (app_nil_r (concat _)). apply load_records; [done..|]. by apply names_ok.
Qed.

(** C40: a snapshot of one build restores into another: after loading, every
    field of the model holds the saved contents when the snapshot has a field
    of its name and size that was not left out, and is as it was otherwise. *)
Theorem fields_restored table skip t :
  table_ok table -> NoDup (map f_name t) ->
  snapshot_load_state (snapshot_save_state table skip) t =
    (map (restore_field (List.filter (kept skip) table)) t, true).
Proof. apply load_saved. Qed.

(** The model that was saved is restored to what it was. *)
Lemma same_model_restored table t :
  table_ok table -> map f_name t = map f_name table -> map (fun f => length (f_bytes f)) t = map (fun f => length (f_bytes f)) table ->
  snapshot_load_state (snapshot_save_state table []) t = (table, true).
Proof.
  intros Hok En Es. pose proof (ok_names _ Hok) as Hn.
  rewrite load_saved by (done || by rewrite En). f_equal.
  assert (List.filter (kept []) table = table) as ->.
  { clear. induction table as [|f l IH]; [done|]. cbn. by rewrite IH. }
  apply list_eq. intros i. rewrite list_lookup_fmap.
  assert (map f_name t !! i = map f_name table !! i) as En' by by rewrite En.
  assert (map (fun f => length (f_bytes f)) t !! i = map (fun f => length (f_bytes f)) table !! i) as Es' by by rewrite Es.
  rewrite !list_lookup_fmap in En'. rewrite !list_lookup_fmap in Es'.
  destruct (t !! i) as [f|], (table !! i) as [s|] eqn:Ei; try done. cbn in *.
  injection En' as En'. injection Es' as Es'. f_equal. unfold restore_field.
  assert (list_find (fun g => f_name g = f_name f) table = Some (i, s)) as ->.
  { apply list_find_Some. split_and!; [done|done|]. intros j g Hj Hlt E.
    assert (j = i); [|lia]. eapply names_distinct; [done..|]. by rewrite E. }
  rewrite Es', Nat.eqb_refl, En'. by destruct s.
Qed.

(** ** Files that were cut *)

Lemma length_field_record s :
  Z.of_nat (length (f_name s)) < 65536 ->
  length (field_record s) = (2 + (length (f_name s) + (8 + length (f_bytes s))))%nat.
Proof.
  intros Hl. unfold field_record. rewrite u16_id by (unfold is_u16; lia). rewrite Nat2Z.id, take_ge by lia.
  by rewrite !length_app, !length_le_bytes.
Qed.

(** The records of [l] cut short are refused, whatever names are left. *)
Lemma cut_records l : forall m n t,
  table_ok l -> (n < length (concat (map field_record l)))%nat ->
  (load_fields (length l) m (take n (concat (map field_record l))) t).2 = false.
Proof.
  induction l as [|s l IH]; intros m n t [Hn Hlen Hsize Hc] Hlt; [cbn in Hlt; lia|].
  apply Forall_cons in Hlen as [Hl Hlen]. apply Forall_cons in Hsize as [Hs Hsize].
  pose proof Hn as Hn'. cbn [map] in Hn'. apply NoDup_cons in Hn' as [_ Hn'].
  assert (table_ok l) as Hok by (split; try done; cbn [length] in Hc; lia).
  cbn [map concat] in *. rewrite length_app, length_field_record in Hlt by done.
  cbn [length load_fields]. set (rest := concat (map field_record l)) in *.
  unfold field_record at 1. rewrite u16_id by (unfold is_u16; lia). rewrite Nat2Z.id, (take_ge (f_name s)) by lia.
  rewrite <- !app_assoc, get_take by (unfold kMagic, kVersion; cbn; lia). destruct (Nat.leb_spec 2 n); [|done]. cbn [mbind option_bind].
  rewrite Nat2Z.id, fread_take by done. destruct (Nat.leb_spec (length (f_name s)) (n - 2)); [|done].
  cbn [mbind option_bind]. rewrite get_take by (unfold kMagic, kVersion; cbn; lia).
  destruct (Nat.leb_spec 8 (n - 2 - length (f_name s))); [|done]. cbn [mbind option_bind].
  rewrite Nat2Z.id, fread_take by done.
  destruct (Nat.leb_spec (length (f_bytes s)) (n - 2 - length (f_name s) - 8)).
  - set (k := (n - 2 - length (f_name s) - 8 - length (f_bytes s))%nat).
    assert (k < length rest)%nat by lia. by repeat case_match; try (by apply IH).
  - by repeat case_match.
Qed.

(** A file that was cut anywhere is refused; one that is not a snapshot of this
    version is refused before any field changes. *)
Lemma short_state_refused table skip n t :
  table_ok table -> (n < length (snapshot_save_state table skip))%nat ->
  (snapshot_load_state (take n (snapshot_save_state table skip)) t).2 = false.
Proof.
  intros Hok Hn. pose proof (filter_ok table skip Hok) as Hf. pose proof (ok_count _ Hf) as Hc.
  unfold snapshot_load_state, snapshot_save_state in *. rewrite !length_app, !length_le_bytes in Hn.
  rewrite u32_id by (unfold is_u32; lia).
  rewrite get_take by (unfold kMagic, kVersion; cbn; lia). destruct (Nat.leb_spec 4 n); [|done]. cbn [mbind option_bind].
  rewrite get_take by (unfold kMagic, kVersion; cbn; lia). destruct (Nat.leb_spec 4 (n - 4)); [|done]. cbn [mbind option_bind].
  rewrite get_take by (unfold kMagic, kVersion; cbn; lia). destruct (Nat.leb_spec 4 (n - 4 - 4)); [|done]. cbn [mbind option_bind].
  rewrite !Z.eqb_refl. cbn [andb]. rewrite Nat2Z.id. apply cut_records; [done|lia].
Qed.

Lemma other_file_refused d t :
  get 4 d = None \/ (exists v d', get 4 d = Some (v, d') /\ v <> kMagic) -> snapshot_load_state d t = (t, false).
Proof.
  unfold snapshot_load_state. intros [->|(v & d' & -> & Hv)]; [done|]. cbn [mbind option_bind].
  destruct (get 4 d') as [[w d2]|]; [|done]. cbn [mbind option_bind].
  destruct (get 4 d2) as [[c d3]|]; [|done]. cbn [mbind option_bind].
  by rewrite (proj2 (Z.eqb_neq v kMagic)).
Qed.

(** Two builds: one field is gone, one was resized, one is new. *)
Definition demo_old : list SnapshotField :=
  [mkField (str "cpu.eax") [1; 2]; mkField (str "uart.dll") [3]; mkField (str "vga.mode") [4];
   mkField (str "mem.ram") [5; 6]].
Definition demo_new : list SnapshotField :=
  [mkField (str "vga.mode") [0; 0]; mkField (str "mem.ram") [0; 0]; mkField (str "cpu.eax") [0; 0]; mkField (str "pic.irr") [9]].

Lemma fields_restored_witness :
  snapshot_load_state (snapshot_save_state demo_old [str "mem.r"]) demo_new =
    (map (restore_field (List.filter (kept [str "mem.r"]) demo_old)) demo_new, true).
Proof.
  apply fields_restored.
  - split; [apply (bool_decide_unpack _); by vm_compute|by repeat constructor|by repeat constructor|done].
  - apply (bool_decide_unpack _). by vm_compute.
Defined.
