(* ===== verification/CosimCheckpoint.v ===== *)
(** * Checkpoints of the co-simulation

    The state files of verilator/cosim/cosim86.c ([save_ex], [load_ex]) and
    verilator/cosim_host.cpp ([host_write], [host_read]), and portable snapshots:
    the state without RAM beside the RAM of RamSnapshot.v
    ([cosim_host_save_portable], [cosim_host_load_portable]).

    Loading what was saved gives the saved state but for what the files do not
    hold ([loaded]); a portable snapshot taken at a quiet boundary restores a
    host and a memory from which a co-simulation is sound again
    ([snapshot_resumes]).

    How 86Box's structures lie in memory is given from outside ([Layout]).
    Failing writes and the order of the bytes a failed load has already
    overwritten are not modelled: a load that fails ends the program. *)
From S2P Require Import Prelude Blocks IdeTypes Files RamSnapshot.
From S2P Require Import CosimMem CosimMatch CosimDecode CosimAccess CosimRun CosimStep CosimLockstep CosimHost.
From S2P Require Import CosimFollow CosimSystem.

(** ** Object representations *)

(** The bytes of [snap_t] up to the x87 state, those of the x87 state, and of
    the error buffer. *)
Class Layout (R T : Type) `{Box86 R T} := {
  enc_core : CosimRun.Snap (R := R) -> list Z;
  enc_fpu : CosimRun.Snap (R := R) -> list Z;
  dec_snap : list Z -> list Z -> CosimRun.Snap (R := R);
  enc_err : option CosimErr -> list Z;
  dec_err : list Z -> option CosimErr;
  SNAP_CORE : nat;
  FPU_SIZE : nat;
  fninit_fpu : list Z         (* zeroes but cwd = 037F and tag = FFFF *)
}.

Definition ERR_SIZE : nat := Z.to_nat 2048.

(** [ev_t], [hist_t], [IssueEv], [ReadReq] and [WriteLog] as their compilers lay
    them out; the padding of [hist_t], [ReadReq] and [WriteLog] is written as
    zeroes. *)
Definition put_ev (e : ev_t) : list Z :=
  le_bytes 4 (e_addr e) ++ le_bytes 1 (e_val e) ++ put_flag 1 (e_done e) ++ put_flag 1 (e_silent e) ++
  put_flag 1 (e_fpu e) ++ le_bytes 8 (e_grp e).

Definition get_ev (d : list Z) : option (ev_t * list Z) :=
  '(addr, d) ← get 4 d; '(val, d) ← get 1 d; '(done, d) ← get_flag 1 d; '(silent, d) ← get_flag 1 d;
  '(fpu, d) ← get_flag 1 d; '(grp, d) ← get 8 d; Some (mkEv addr val done silent fpu grp, d).

Definition put_u8 (v : Z) : list Z := le_bytes 1 v.
Definition put_u32 (v : Z) : list Z := le_bytes 4 v.

(** EFLAGS are kept beside the history and not stored. *)
Definition put_hist (h : hist_t) : list Z :=
  le_bytes 8 (h_n h) ++ le_bytes 2 (h_sel h) ++ le_bytes 2 0 ++ le_bytes 4 (h_eip h) ++
  put_many put_u8 (h_bytes h) ++ put_many put_u32 (h_regs h).

Definition get_hist (d : list Z) : option (hist_t * list Z) :=
  '(n, d) ← get 8 d; '(sel, d) ← get 2 d; '(_, d) ← get 2 d; '(eip, d) ← get 4 d;
  '(bs, d) ← get_many (get 1) 8 d; '(rs, d) ← get_many (get 4) 8 d;
  Some (mkHist n sel eip bs rs 0, d).

Definition put_issue (e : IssueEv) : list Z :=
  le_bytes 4 (i_eip e) ++ le_bytes 4 (i_ecx e) ++ le_bytes 4 (i_eflags e) ++ le_bytes 4 (i_cs e) ++
  le_bytes 8 (i_t e) ++ put_many put_u32 (i_gpr e).

Definition get_issue (d : list Z) : option (IssueEv * list Z) :=
  '(eip, d) ← get 4 d; '(ecx, d) ← get 4 d; '(eflags, d) ← get 4 d; '(cs, d) ← get 4 d;
  '(t, d) ← get 8 d; '(gpr, d) ← get_many (get 4) 8 d; Some (mkIssue eip ecx eflags cs t gpr, d).

Definition put_read (e : ReadReq) : list Z :=
  le_bytes 4 (r_addr e) ++ le_bytes 1 (r_be e) ++ le_bytes 1 (r_kind e) ++ le_bytes 2 0.

Definition get_read (d : list Z) : option (ReadReq * list Z) :=
  '(addr, d) ← get 4 d; '(be, d) ← get 1 d; '(kind, d) ← get 1 d; '(_, d) ← get 2 d;
  Some (mkRead addr be kind, d).

Definition put_log (e : WriteLog) : list Z :=
  le_bytes 8 (l_t e) ++ le_bytes 4 (l_addr e) ++ le_bytes 1 (l_val e) ++ le_bytes 1 (l_port e) ++ le_bytes 2 0.

Definition get_log (d : list Z) : option (WriteLog * list Z) :=
  '(t, d) ← get 8 d; '(addr, d) ← get 4 d; '(val, d) ← get 1 d; '(port, d) ← get 1 d; '(_, d) ← get 2 d;
  Some (mkLog t addr val port, d).

(** ** The reference *)

Definition COSIM_CKPT_MAGIC : Z := 0x43534D38.
Definition COSIM_CKPT_NORAM : Z := 0x43534D39.
Definition COSIM_CKPT_FPU : Z := 0x00000100.

(** [r] read over the start of the RAM. *)
Definition put_ram (r : list Z) (m : Ram) : Ram := mkRam (splice 0 r (ram m)) (ram_bytes m) (rammask m).

Section Checkpoint.
Context {R T : Type} `{Box86 R T} `{BoxHost R T} `{!Layout R T}.
Notation Ref := (Ref R T).
Notation Host := (Host Ref).

Definition ckpt_magic (with_ram : bool) : Z := if with_ram then COSIM_CKPT_MAGIC else COSIM_CKPT_NORAM.

(** cosim_ram(), as far as the machine's RAM goes. *)
Definition ref_ram (r : Ref) : list Z := take (Z.to_nat (ram_bytes (mem (co (iss r))))) (ram (mem (co (iss r)))).

Definition put_queues (s : Cosim) : list Z :=
  concat (map (put_dq put_ev) [io_rd s; dev_rd s; exp_w s; dut_w s; exp_io s; dut_io s]).

Definition save_ex (with_ram : bool) (r : Ref) : list Z :=
  let p := snap_save r in
  let s := co (iss r) in
  le_bytes 4 (ckpt_magic with_ram + COSIM_CKPT_FPU) ++ enc_core p ++ enc_fpu p ++
  put_flag 4 (fpu_present r) ++ le_bytes 4 (ram_bytes (mem s)) ++ put_flag 4 (a20_on (cpu s)) ++
  le_bytes 8 (ninsn s) ++ le_bytes 4 (default (-1) (last_fault r)) ++ put_flag 4 (was_hlt r) ++
  le_bytes 4 (udf r) ++ enc_err (err s) ++ put_many put_hist (hist r) ++
  (if with_ram then ref_ram r else []) ++ put_queues s.

(** The state of the x87 that a file without one restores to, and the rest of
    the file. *)
Definition load_fpu (with_ram : bool) (magic : Z) (d : list Z) : option (list Z * list Z) :=
  if magic =? ckpt_magic with_ram then Some (fninit_fpu, d)
  else '(f, d) ← fread FPU_SIZE d; '(_, d) ← get_flag 4 d; Some (f, d).

(** The stored EFLAGS stay those of the history before. *)
Definition keep_flags (old new : list hist_t) : list hist_t :=
  zip_with (fun o h => mkHist (h_n h) (h_sel h) (h_eip h) (h_bytes h) (h_regs h) (h_flags o)) old new.

Definition set_queues (io dev w dw i di : list ev_t) (s : Cosim) : Cosim :=
  s <| io_rd := io |> <| dev_rd := dev |> <| exp_w := w |> <| dut_w := dw |> <| exp_io := i |> <| dut_io := di |>
    <| io_cur := 0%nat |> <| dev_cur := 0%nat |> <| stage_w := [] |> <| stage_io := [] |>.

(** [None]: the file is refused or cut. *)
Definition load_ex (with_ram : bool) (r : Ref) (d : list Z) : option (Ref * list Z) :=
  '(magic, d) ← get 4 d;
  if negb ((magic =? ckpt_magic with_ram) || (magic =? ckpt_magic with_ram + COSIM_CKPT_FPU)) then None else
  '(c, d) ← fread SNAP_CORE d;
  '(f, d) ← load_fpu with_ram magic d;
  '(n, d) ← get 4 d;
  if negb (n =? ram_bytes (mem (co (iss r)))) then None else
  '(a20, d) ← get_flag 4 d; '(insns, d) ← get 8 d; '(fault, d) ← get 4 d; '(hlt, d) ← get_flag 4 d;
  '(undef, d) ← get 4 d; '(e, d) ← fread ERR_SIZE d; '(hs, d) ← get_many get_hist (Z.to_nat HIST) d;
  '(m, d) ← (if with_ram then fread (Z.to_nat n) d else Some ([], d));
  '(io, d) ← get_dq get_ev d; '(dev, d) ← get_dq get_ev d; '(w, d) ← get_dq get_ev d;
  '(dw, d) ← get_dq get_ev d; '(i, d) ← get_dq get_ev d; '(di, d) ← get_dq get_ev d;
  let r := upd_cpu (fun p => p <| a20_on := a20 |>) r in
  let r := snap_restore (dec_snap c f) (on_mem (put_ram m) r) in
  let r := upd_co (fun s => set_queues io dev w dw i di s <| ninsn := insns |> <| err := dec_err e |>) r in
  Some (r <| last_fault := if fault =? 0xFFFFFFFF then None else Some fault |> <| was_hlt := hlt |> <| udf := undef |>
          <| hist := keep_flags (hist r) hs |> <| box := box r <| pccache := 0xFFFFFFFF |> |>, d).

(** ** The host *)

(** The message of a divergence is not stored. *)
Definition host_write (with_ram : bool) (h : Host) : list Z :=
  save_ex with_ram (ref h) ++ put_flag 1 (g_running h) ++ put_flag 1 (bool_decide (g_failed h <> None)) ++
  put_flag 1 (g_have_cur h) ++ put_flag 1 (g_squash_ok h) ++ put_dq put_issue (g_issues h) ++
  put_dq put_read (g_reads h) ++ put_dq put_u8 (g_vectors h) ++ le_bytes 8 (g_issued h) ++ le_bytes 8 (g_irqs h) ++
  le_bytes 8 (g_stalls h) ++ le_bytes 8 (g_squashed h) ++ le_bytes 8 (g_resets h) ++ put_many put_log (g_wlog h) ++
  le_bytes 4 (g_wlog_n h).

Definition get_flags (h : Host) (d : list Z) : option (Host * list Z) :=
  '(running, d) ← get_flag 1 d; '(failed, d) ← get_flag 1 d; '(have_cur, d) ← get_flag 1 d;
  '(squash_ok, d) ← get_flag 1 d;
  let h := h <| g_running := running |> <| g_failed := if (failed : bool) then Some (DReference None) else None |> in
  Some (h <| g_have_cur := have_cur |> <| g_squash_ok := squash_ok |>, d).

Definition get_events (h : Host) (d : list Z) : option (Host * list Z) :=
  '(issues, d) ← get_dq get_issue d; '(reads, d) ← get_dq get_read d; '(vectors, d) ← get_dq (get 1) d;
  Some (h <| g_issues := issues |> <| g_reads := reads |> <| g_vectors := vectors |>, d).

Definition get_counters (h : Host) (d : list Z) : option (Host * list Z) :=
  '(issued, d) ← get 8 d; '(irqs, d) ← get 8 d; '(stalls, d) ← get 8 d; '(squashed, d) ← get 8 d;
  '(resets, d) ← get 8 d;
  let h := h <| g_issued := issued |> <| g_irqs := irqs |> <| g_stalls := stalls |> in
  Some (h <| g_squashed := squashed |> <| g_resets := resets |>, d).

Definition host_read (with_ram : bool) (h : Host) (d : list Z) : option (Host * list Z) :=
  '(x, d) ← load_ex with_ram (ref h) d;
  '(h, d) ← get_flags (h <| ref := x |>) d; '(h, d) ← get_events h d; '(h, d) ← get_counters h d;
  '(wlog, d) ← get_many get_log 16 d; '(wlog_n, d) ← get 4 d;
  Some (h <| g_wlog := wlog |> <| g_wlog_n := wlog_n |>, d).

(** ** Portable snapshots *)

Definition in_window (a : Z) : bool := (0xA0000 <=? a) && (a <? 0xC0000).

(** [ram_to_sdram]: the words of SDRAM from address [a] on. *)
Fixpoint ram_to_sdram (bytes a : Z) (r : list Z) (words : list Z) : list Z :=
  match words with
  | w :: words =>
    (if (a <? bytes) && negb (in_window a) then Z.lor (znth 0 r a) (Z.shiftl (znth 0 r (a + 1)) 8) else w) ::
    ram_to_sdram bytes (a + 2) r words
  | [] => []
  end.

Definition host_ram_bytes (cfg : Config) : Z := Z.shiftl (g_ram_mb cfg) 20.

(** cosim.bin, ram.diff, the keyframe and the key directory. *)
Definition cosim_host_save_portable (cfg : Config) (cycle : Z) (h : Host) (k : Keyframe) (keys : Dir) :
    list Z * list Z * Keyframe * Dir :=
  let r := take (Z.to_nat (host_ram_bytes cfg)) (ram (mem (co (iss (ref h))))) in
  let '(diff, k, keys) := save_ram r cycle k keys in
  (host_write false h, diff_file r (g_key_name k) diff, k, keys).

(** z486 restarts at the instruction it had just issued. *)
Definition restart_host (h : Host) : Host :=
  let h := h <| g_issues := [] |> <| g_reads := [] |> <| g_vectors := [] |> in
  let h := h <| g_have_cur := false |> <| g_squash_ok := false |> <| g_snap_candidate := false |> in
  h <| g_reg_miss := replicate 8 0 |> <| g_running := true |> <| g_failed := None |>.

(** Checkpoint files hold the RAM too. *)
Definition cosim_host_save (h : Host) : list Z := host_write true h.
Definition cosim_host_load (h : Host) (d : list Z) : option Host := fst <$> host_read true h d.

(** What a snapshot's directory holds: cosim.bin.zst and ram.diff.zst, or the
    cosim.bin of a checkpoint. *)
Inductive Saved := Portable (cosim_bin ram_diff : list Z) | Whole (cosim_bin : list Z).

Definition read_saved (cfg : Config) (files : Saved) (keys : Dir) (h : Host) : option Host :=
  match files with
  | Portable cosim_bin ram_diff =>
    '(h, _) ← host_read false h cosim_bin;
    r ← load_ram (host_ram_bytes cfg) ram_diff keys;
    Some (upd_ref (on_mem (put_ram r)) h)
  | Whole cosim_bin => cosim_host_load h cosim_bin
  end.

(** The host and SDRAM. *)
Definition cosim_host_load_portable (cfg : Config) (files : Saved) (keys : Dir) (sdram : list Z) (h : Host) :
    option (Host * list Z) :=
  h ← read_saved cfg files keys h;
  Some (restart_host h, ram_to_sdram (host_ram_bytes cfg) 0 (ram (mem (co (iss (ref h))))) sdram).
End Checkpoint.

(** ** Values that fit *)

Definition ev_ok (e : ev_t) : Prop := is_u32 (e_addr e) /\ is_u8 (e_val e) /\ is_u64 (e_grp e).

Record hist_ok (h : hist_t) : Prop := mkHistOk {
  ho_n : is_u64 (h_n h); ho_sel : is_u16 (h_sel h); ho_eip : is_u32 (h_eip h);
  ho_bytes : length (h_bytes h) = 8%nat /\ Forall is_u8 (h_bytes h);
  ho_regs : length (h_regs h) = 8%nat /\ Forall is_u32 (h_regs h)
}.

Record issue_ok (e : IssueEv) : Prop := mkIssueOk {
  io_eip : is_u32 (i_eip e); io_ecx : is_u32 (i_ecx e); io_eflags : is_u32 (i_eflags e); io_cs : is_u32 (i_cs e);
  io_t : is_u64 (i_t e); io_gpr : length (i_gpr e) = 8%nat /\ Forall is_u32 (i_gpr e)
}.

Definition read_ok (e : ReadReq) : Prop := is_u32 (r_addr e) /\ is_u8 (r_be e) /\ is_u8 (r_kind e).
Definition log_ok (e : WriteLog) : Prop := is_u64 (l_t e) /\ is_u32 (l_addr e) /\ is_u8 (l_val e) /\ is_u8 (l_port e).

Lemma get_ev_put e d : ev_ok e -> get_ev (put_ev e ++ d) = Some (e, d).
Proof. intros (Ha & Hv & Hg). unfold get_ev, put_ev. rewrite <- !app_assoc. read_back. by destruct e. Qed.

Lemma get_regs l d : length l = 8%nat /\ Forall is_u32 l -> get_many (get 4) 8 (put_many put_u32 l ++ d) = Some (l, d).
Proof.
  intros [<- Hl]. apply get_many_app. eapply Forall_impl; [apply Hl|]. intros v Hv d'. by apply get_u32_app.
Qed.

Lemma get_code l d : length l = 8%nat /\ Forall is_u8 l -> get_many (get 1) 8 (put_many put_u8 l ++ d) = Some (l, d).
Proof.
  intros [<- Hl]. apply get_many_app. eapply Forall_impl; [apply Hl|]. intros v Hv d'. by apply get_u8_app.
Qed.

Definition no_flags (h : hist_t) : hist_t := mkHist (h_n h) (h_sel h) (h_eip h) (h_bytes h) (h_regs h) 0.

Lemma get_hist_put h d : hist_ok h -> get_hist (put_hist h ++ d) = Some (no_flags h, d).
Proof.
  intros [Hn Hs He Hb Hr]. unfold get_hist, put_hist. rewrite <- !app_assoc. read_back.
  rewrite get_code by done. cbn [mbind option_bind]. by rewrite get_regs.
Qed.

Lemma get_issue_put e d : issue_ok e -> get_issue (put_issue e ++ d) = Some (e, d).
Proof.
  intros [He Hc Hf Hs Ht Hg]. unfold get_issue, put_issue. rewrite <- !app_assoc. read_back.
  rewrite get_regs by done. by destruct e.
Qed.

Lemma get_read_put e d : read_ok e -> get_read (put_read e ++ d) = Some (e, d).
Proof. intros (Ha & Hb & Hk). unfold get_read, put_read. rewrite <- !app_assoc. read_back. by destruct e. Qed.

Lemma get_log_put e d : log_ok e -> get_log (put_log e ++ d) = Some (e, d).
Proof. intros (Ht & Ha & Hv & Hp). unfold get_log, put_log. rewrite <- !app_assoc. read_back. by destruct e. Qed.

(** A queue that fits. *)
Definition dq_ok {A} (P : A -> Prop) (l : list A) : Prop := Z.of_nat (length l) < 18446744073709551616 /\ Forall P l.

Lemma get_events_app l d : dq_ok ev_ok l -> get_dq get_ev (put_dq put_ev l ++ d) = Some (l, d).
Proof.
  intros [Hl Hf]. apply get_dq_app; [done|]. eapply Forall_impl; [apply Hf|]. intros e He d'. by apply get_ev_put.
Qed.

Section Restored.
Context {R T : Type} `{Box86 R T} `{BoxHost R T} `{!Layout R T} (fuel : nat).
Notation Ref := (Ref R T).
Notation Host := (Host Ref).

(** What the objects' bytes must do: the structures have their sizes, an empty
    error stays empty, and a state restored from its bytes is the state. *)
Class LayoutOk : Prop := {
  size_core (r : Ref) : length (regs (ccore r)) = 8%nat -> length (enc_core (snap_save r)) = SNAP_CORE;
  size_fpu (r : Ref) : length (regs (ccore r)) = 8%nat -> length (enc_fpu (snap_save r)) = FPU_SIZE;
  size_err : length (enc_err None) = ERR_SIZE;
  no_err : dec_err (enc_err None) = None;
  restore_enc (saved r : Ref) : length (regs (ccore saved)) = 8%nat ->
    snap_restore (dec_snap (enc_core (snap_save saved)) (enc_fpu (snap_save saved))) r = snap_restore (snap_save saved) r
}.
Context `{!LayoutOk}.

Record ref_ok (r : Ref) : Prop := mkRefOk {
  ro_regs : length (regs (ccore r)) = 8%nat;
  ro_bytes : is_u32 (ram_bytes (mem (co (iss r))));
  ro_ram : ram_bytes (mem (co (iss r))) <= Z.of_nat (length (ram (mem (co (iss r)))));
  ro_ninsn : is_u64 (ninsn (co (iss r)));
  ro_fault : from_option is_u8 True (last_fault r);
  ro_udf : is_u32 (udf r);
  ro_err : err (co (iss r)) = None;
  ro_hist : length (hist r) = Z.to_nat HIST /\ Forall hist_ok (hist r);
  ro_io_rd : dq_ok ev_ok (io_rd (co (iss r))); ro_dev_rd : dq_ok ev_ok (dev_rd (co (iss r)));
  ro_exp_w : dq_ok ev_ok (exp_w (co (iss r))); ro_dut_w : dq_ok ev_ok (dut_w (co (iss r)));
  ro_exp_io : dq_ok ev_ok (exp_io (co (iss r))); ro_dut_io : dq_ok ev_ok (dut_io (co (iss r)))
}.

(** A reference [r] after loading what [saved] was saved to: the x87's presence
    and precision, its IGNNE latch, the byte of the last device read and the
    counters of adopted bytes stay those of [r]. *)
Definition loaded (with_ram : bool) (saved r : Ref) : Ref :=
  let s := co (iss saved) in
  let r := upd_cpu (fun p => p <| a20_on := a20_on (cpu s) |>) r in
  let r := snap_restore (snap_save saved)
    (on_mem (put_ram (if with_ram then ref_ram saved else [])) r) in
  let r := upd_co (fun x => set_queues (io_rd s) (dev_rd s) (exp_w s) (dut_w s) (exp_io s) (dut_io s) x
                              <| ninsn := ninsn s |> <| err := None |>) r in
  r <| last_fault := last_fault saved |> <| was_hlt := was_hlt saved |> <| udf := udf saved |>
    <| hist := keep_flags (hist r) (hist saved) |> <| box := box r <| pccache := 0xFFFFFFFF |> |>.

Lemma keep_flags_none old : forall new, keep_flags old (map no_flags new) = keep_flags old new.
Proof. induction old as [|o old IH]; intros [|h new]; [done..|]. unfold keep_flags in *. cbn. by rewrite IH. Qed.

Lemma magic_range with_ram : 0 <= ckpt_magic with_ram + COSIM_CKPT_FPU < 256 ^ Z.of_nat 4.
Proof. destruct with_ram; by vm_compute. Qed.

Lemma length_ref_ram r : ref_ok r -> length (ref_ram r) = Z.to_nat (ram_bytes (mem (co (iss r)))).
Proof. intros Hr. pose proof (ro_ram _ Hr). unfold ref_ram. rewrite length_take. lia. Qed.

Lemma get_fault f d :
  from_option is_u8 True f ->
  exists v, get 4 (le_bytes 4 (default (-1) f) ++ d) = Some (v, d) /\ (if v =? 0xFFFFFFFF then None else Some v) = f.
Proof.
  destruct f as [v|]; cbn [from_option default]; intros Hv.
  - exists v. rewrite get_app by in_width. split; [done|]. by rewrite (proj2 (Z.eqb_neq v _)) by (unfold is_u8 in Hv; lia).
  - exists 0xFFFFFFFF. split; [|done]. change (le_bytes 4 (-1)) with (le_bytes 4 0xFFFFFFFF). by rewrite get_app.
Qed.

(** Loading what was saved. *)
Lemma load_ex_save with_ram saved r d :
  ref_ok saved -> ram_bytes (mem (co (iss r))) = ram_bytes (mem (co (iss saved))) ->
  load_ex with_ram r (save_ex with_ram saved ++ d) = Some (loaded with_ram saved r, d).
Proof.
  intros Hs Hb. unfold load_ex, save_ex. rewrite <- !app_assoc.
  rewrite get_app by apply magic_range. cbn [mbind option_bind].
  rewrite Z.eqb_refl, orb_true_r. cbn [negb].
  rewrite fread_app by apply size_core, Hs. cbn [mbind option_bind].
  assert (forall f d, length f = FPU_SIZE -> load_fpu with_ram (ckpt_magic with_ram + COSIM_CKPT_FPU) (f ++ put_flag 4 (fpu_present saved) ++ d) = Some (f, d)) as Hf.
  { intros f d' Hf. unfold load_fpu. rewrite (proj2 (Z.eqb_neq _ _)) by (unfold COSIM_CKPT_FPU; lia).
    rewrite fread_app by done. cbn [mbind option_bind]. by rewrite get_flag_app by lia. }
  rewrite Hf by apply size_fpu, Hs. cbn [mbind option_bind]. clear Hf.
  rewrite get_app by (pose proof (ro_bytes _ Hs); in_width). cbn [mbind option_bind].
  rewrite Hb, Z.eqb_refl. cbn [negb]. rewrite get_flag_app by lia. cbn [mbind option_bind].
  rewrite get_app by (pose proof (ro_ninsn _ Hs); in_width). cbn [mbind option_bind].
  destruct (get_fault (last_fault saved) (put_flag 4 (was_hlt saved) ++ le_bytes 4 (udf saved) ++ enc_err (err (co (iss saved))) ++
    put_many put_hist (hist saved) ++ (if with_ram then ref_ram saved else []) ++ put_queues (co (iss saved)) ++ d)
    (ro_fault _ Hs)) as (v & -> & Hv). cbn [mbind option_bind].
  rewrite get_flag_app by lia. cbn [mbind option_bind].
  rewrite get_app by (pose proof (ro_udf _ Hs); in_width). cbn [mbind option_bind].
  rewrite (ro_err _ Hs), fread_app by apply size_err. cbn [mbind option_bind].
  destruct (ro_hist _ Hs) as [<- Hh]. rewrite (get_many_map _ _ no_flags) by (eapply Forall_impl; [apply Hh|]; intros; by apply get_hist_put).
  cbn [mbind option_bind].
  assert (forall d, (if with_ram then fread (Z.to_nat (ram_bytes (mem (co (iss saved))))) ((if with_ram then ref_ram saved else []) ++ d)
    else Some ([], (if with_ram then ref_ram saved else []) ++ d)) = Some (if with_ram then ref_ram saved else [], d)) as Hm.
  { intros d'. destruct with_ram; [|done]. apply fread_app, length_ref_ram, Hs. }
  rewrite Hm. clear Hm. cbn [mbind option_bind].
  unfold put_queues. cbn [map concat]. rewrite <- !app_assoc.
  rewrite get_events_app by apply Hs. cbn [mbind option_bind]. rewrite get_events_app by apply Hs. cbn [mbind option_bind].
  rewrite get_events_app by apply Hs. cbn [mbind option_bind]. rewrite get_events_app by apply Hs. cbn [mbind option_bind].
  rewrite get_events_app by apply Hs. cbn [mbind option_bind]. rewrite get_events_app by apply Hs. cbn [mbind option_bind app].
  rewrite restore_enc by apply Hs. rewrite no_err, keep_flags_none, Hv. done.
Qed.

(** ** The host's files *)

Record host_ok (h : Host) : Prop := mkHostOk {
  hk_ref : ref_ok (ref h);
  hk_failed : g_failed h = None;
  hk_issues : dq_ok issue_ok (g_issues h);
  hk_reads : dq_ok read_ok (g_reads h);
  hk_vectors : dq_ok is_u8 (g_vectors h);
  hk_counters : is_u64 (g_issued h) /\ is_u64 (g_irqs h) /\ is_u64 (g_stalls h) /\ is_u64 (g_squashed h) /\ is_u64 (g_resets h);
  hk_wlog : length (g_wlog h) = 16%nat /\ Forall log_ok (g_wlog h);
  hk_wlog_n : is_u32 (g_wlog_n h)
}.

Definition set_flags (saved h : Host) : Host :=
  let h := h <| g_running := g_running saved |> <| g_failed := g_failed saved |> in
  h <| g_have_cur := g_have_cur saved |> <| g_squash_ok := g_squash_ok saved |>.

Definition set_events (saved h : Host) : Host :=
  h <| g_issues := g_issues saved |> <| g_reads := g_reads saved |> <| g_vectors := g_vectors saved |>.

Definition set_counters (saved h : Host) : Host :=
  let h := h <| g_issued := g_issued saved |> <| g_irqs := g_irqs saved |> <| g_stalls := g_stalls saved |> in
  h <| g_squashed := g_squashed saved |> <| g_resets := g_resets saved |>.

(** A host after loading what [saved] was saved to. *)
Definition host_loaded (with_ram : bool) (saved h : Host) : Host :=
  let h := h <| ref := loaded with_ram (ref saved) (ref h) |> in
  set_counters saved (set_events saved (set_flags saved h)) <| g_wlog := g_wlog saved |> <| g_wlog_n := g_wlog_n saved |>.

Lemma get_flags_put saved h d :
  g_failed saved = None ->
  get_flags h (put_flag 1 (g_running saved) ++ put_flag 1 (bool_decide (g_failed saved <> None)) ++
    put_flag 1 (g_have_cur saved) ++ put_flag 1 (g_squash_ok saved) ++ d) = Some (set_flags saved h, d).
Proof. intros Hf. unfold get_flags, set_flags. rewrite Hf. by read_back. Qed.

Lemma get_events_put saved h d :
  host_ok saved ->
  get_events h (put_dq put_issue (g_issues saved) ++ put_dq put_read (g_reads saved) ++ put_dq put_u8 (g_vectors saved) ++ d) =
    Some (set_events saved h, d).
Proof.
  intros [_ _ [Hi Hi'] [Hr Hr'] [Hv Hv'] _ _ _]. unfold get_events, set_events.
  rewrite get_dq_app by (done || (eapply Forall_impl; [apply Hi'|]; intros; by apply get_issue_put)). cbn [mbind option_bind].
  rewrite get_dq_app by (done || (eapply Forall_impl; [apply Hr'|]; intros; by apply get_read_put)). cbn [mbind option_bind].
  by rewrite get_dq_app by (done || (eapply Forall_impl; [apply Hv'|]; intros; by apply get_u8_app)).
Qed.

Lemma get_counters_put saved h d :
  host_ok saved ->
  get_counters h (le_bytes 8 (g_issued saved) ++ le_bytes 8 (g_irqs saved) ++ le_bytes 8 (g_stalls saved) ++
    le_bytes 8 (g_squashed saved) ++ le_bytes 8 (g_resets saved) ++ d) = Some (set_counters saved h, d).
Proof. intros Hs. destruct (hk_counters _ Hs) as (C1 & C2 & C3 & C4 & C5). unfold get_counters, set_counters. by read_back. Qed.

Lemma host_read_write with_ram saved h d :
  host_ok saved -> ram_bytes (mem (co (iss (ref h)))) = ram_bytes (mem (co (iss (ref saved)))) ->
  host_read with_ram h (host_write with_ram saved ++ d) = Some (host_loaded with_ram saved h, d).
Proof.
  intros Hs Hb. unfold host_read, host_write. rewrite <- !app_assoc.
  rewrite load_ex_save by (apply Hs || done). cbn [mbind option_bind].
  rewrite get_flags_put by apply Hs. cbn [mbind option_bind].
  rewrite get_events_put by done. cbn [mbind option_bind].
  rewrite get_counters_put by done. cbn [mbind option_bind].
  destruct (hk_wlog _ Hs) as [<- Hw]. rewrite get_many_app by (eapply Forall_impl; [apply Hw|]; intros; by apply get_log_put).
  cbn [mbind option_bind]. rewrite get_app by (pose proof (hk_wlog_n _ Hs); in_width). done.
Qed.

(** IGNNE# and the last device byte are the loading simulator's: an x87 error
    that the guest had let pass is met again after a restore. *)
Lemma ignne_lost with_ram saved r :
  ignne (co (iss (loaded with_ram saved r))) = ignne (co (iss r)) /\
  dev_last (co (iss (loaded with_ram saved r))) = dev_last (co (iss r)).
Proof. done. Qed.

(** ** Portable snapshots *)

(** The byte of SDRAM at an address. *)
Definition sdram_byte (words : list Z) (a : Z) : Z := Z.land (Z.shiftr (znth 0 words (a / 2)) (8 * (a mod 2))) 0xFF.

Lemma znth_cons {A} (d x : A) l i : 0 <= i -> znth d (x :: l) i = if i =? 0 then x else znth d l (i - 1).
Proof.
  intros Hi. unfold znth, zlookup. rewrite (proj2 (Z.leb_le 0 i)) by lia. destruct (Z.eqb_spec i 0) as [->|Hn]; [done|].
  rewrite (proj2 (Z.leb_le 0 (i - 1))) by lia. replace (Z.to_nat i) with (S (Z.to_nat (i - 1))) by lia. done.
Qed.

Lemma ram_to_sdram_word bytes r words : forall a i,
  0 <= i < Z.of_nat (length words) ->
  znth 0 (ram_to_sdram bytes a r words) i =
    let b := a + 2 * i in
    if (b <? bytes) && negb (in_window b) then Z.lor (znth 0 r b) (Z.shiftl (znth 0 r (b + 1)) 8) else znth 0 words i.
Proof.
  induction words as [|w words IH]; intros a i Hi; cbn [length] in Hi; [lia|]. cbn [ram_to_sdram].
  rewrite !znth_cons by lia. destruct (Z.eqb_spec i 0) as [->|Hn].
  - by replace (a + 2 * 0) with a by lia.
  - rewrite IH by lia. cbv zeta. by replace (a + 2 + 2 * (i - 1)) with (a + 2 * i) by lia.
Qed.

Lemma word_byte lo hi p : is_u8 lo -> is_u8 hi -> p = 0 \/ p = 1 ->
  Z.land (Z.shiftr (Z.lor lo (Z.shiftl hi 8)) (8 * p)) 0xFF = if p =? 0 then lo else hi.
Proof.
  unfold is_u8. intros Hl Hh Hp. rewrite lor_shiftl_add', land_255, shiftr_div by lia. unfold u8.
  destruct Hp as [-> | ->]; cbn [Z.eqb]; [change (2 ^ (8 * 0)) with 1|change (2 ^ (8 * 1)) with 256]; change (2 ^ 8) with 256; divlia.
Qed.

Lemma sdram_holds_ram bytes r words a :
  (forall b, 0 <= b < bytes -> is_u8 (znth 0 r b)) -> 0 <= a < bytes -> bytes mod 2 = 0 -> bytes <= 2 * Z.of_nat (length words) -> in_window a = false ->
  sdram_byte (ram_to_sdram bytes 0 r words) a = znth 0 r a.
Proof.
  intros Hr Ha Hb Hw Hin. pose proof (Z.div_mod a 2) as Hd. pose proof (Z.mod_pos_bound a 2) as Hm.
  unfold sdram_byte. rewrite ram_to_sdram_word by lia. cbv zeta. rewrite (proj2 (Z.ltb_lt _ _)) by lia.
  assert (in_window (0 + 2 * (a / 2)) = false) as -> by (unfold in_window in *; lia). cbn [andb negb].
  rewrite word_byte by (first [apply Hr; divlia|divlia]). destruct (Z.eqb_spec (a mod 2) 0); f_equal; lia.
Qed.

Lemma ram_get_low m a : ram_ok m -> 0 <= a < ram_bytes m -> ram_get m a = znth 0 (ram m) a.
Proof.
  intros [(k & Hk & E) _ Hb] Ha. unfold ram_get. rewrite E, land_ones_mod by lia. rewrite Z.mod_small; [done|].
  rewrite E, Z.ones_equiv in Hb. lia.
Qed.

Lemma put_ram_ok r m : ram_ok m -> (length r <= length (ram m))%nat -> ram_ok (put_ram r m).
Proof. intros [Hk Hl Hb] Hr. split; [done| |done]. cbn [ram put_ram rammask]. rewrite length_splice by lia. done. Qed.

Lemma put_ram_low r m a : 0 <= a < Z.of_nat (length r) -> znth 0 (ram (put_ram r m)) a = znth 0 r a.
Proof.
  intros Ha. unfold put_ram, splice, znth, zlookup. cbn [ram]. rewrite take_0. cbn [app]. rewrite (proj2 (Z.leb_le 0 a)) by lia.
  by rewrite lookup_app_l by lia.
Qed.

Lemma ram_take (l : list Z) n a : 0 <= a < Z.of_nat n -> znth 0 (take n l) a = znth 0 l a.
Proof.
  intros Ha. unfold znth, zlookup. rewrite (proj2 (Z.leb_le 0 a)) by lia. rewrite lookup_take_lt by lia. done.
Qed.

(** The state of the reference that a portable snapshot restores. *)
Lemma loaded_fields saved r :
  ccore (loaded false saved r) = ccore saved /\ err (co (iss (loaded false saved r))) = None /\
  mem (co (iss (loaded false saved r))) = put_ram [] (mem (co (iss r))) /\
  ninsn (co (iss (loaded false saved r))) = ninsn (co (iss saved)) /\
  x87_lenient (co (iss (loaded false saved r))) = x87_lenient (co (iss r)) /\
  exp_w (co (iss (loaded false saved r))) = exp_w (co (iss saved)) /\
  dut_w (co (iss (loaded false saved r))) = dut_w (co (iss saved)) /\
  exp_io (co (iss (loaded false saved r))) = exp_io (co (iss saved)) /\
  dut_io (co (iss (loaded false saved r))) = dut_io (co (iss saved)) /\
  stage_w (co (iss (loaded false saved r))) = [] /\ stage_io (co (iss (loaded false saved r))) = [].
Proof. by split_and!. Qed.

#[local] Instance reference_at : Reference Ref := iss_reference fuel.

(** A snapshot is taken with nothing outstanding. *)
Lemma snapshot_ready_quiet tb (h h1 : Host) :
  cosim_host_snapshot_ready tb h = (true, h1) ->
  exp_w (co (iss (ref h1))) = [] /\ dut_w (co (iss (ref h1))) = [] /\ exp_io (co (iss (ref h1))) = [] /\
  dut_io (co (iss (ref h1))) = [] /\ was_hlt (ref h1) = false.
Proof.
  unfold cosim_host_snapshot_ready. case_bool; [done|]. case_bool; [done|]. case_bool; [done|]. cbn [ref_snapshot_ok reference_at iss_reference].
  unfold cosim_snapshot_ok. set (x := upd_co advance_exp (ref h)).
  destruct (exp_w (co (iss x))) eqn:X1; [|done]. destruct (exp_io (co (iss x))) eqn:X2; [|done].
  destruct (dut_w (co (iss x))) eqn:X3; [|done]. destruct (dut_io (co (iss x))) eqn:X4; [|done].
  destruct (stage_w (co (iss x))) eqn:X5; [|done]. destruct (stage_io (co (iss x))) eqn:X6; [|done].
  destruct (was_hlt x) eqn:X7; [done|]. intros [= _ <-]. cbn [ref set_field]. by split_and!.
Qed.

Lemma on_mem_fields f (r : Ref) :
  let s := co (iss (on_mem f r)) in
  mem s = f (mem (co (iss r))) /\ err s = err (co (iss r)) /\ x87_lenient s = x87_lenient (co (iss r)) /\
  exp_w s = exp_w (co (iss r)) /\ dut_w s = dut_w (co (iss r)) /\ exp_io s = exp_io (co (iss r)) /\
  dut_io s = dut_io (co (iss r)) /\ stage_w s = stage_w (co (iss r)) /\ stage_io s = stage_io (co (iss r)) /\
  ninsn s = ninsn (co (iss r)) /\ ccore (on_mem f r) = ccore r.
Proof. by split_and!. Qed.

(** The reference and SDRAM of a resumed host. *)
Lemma resumed_agreement bytes saved r0 r words :
  let x := on_mem (put_ram r) (loaded false saved r0) in
  exp_w (co (iss saved)) = [] -> dut_w (co (iss saved)) = [] -> exp_io (co (iss saved)) = [] -> dut_io (co (iss saved)) = [] ->
  ram_ok (mem (co (iss r0))) -> ram_bytes (mem (co (iss r0))) = bytes -> x87_lenient (co (iss r0)) = false ->
  Z.of_nat (length r) = bytes -> Forall is_u8 r -> bytes mod 2 = 0 ->
  bytes <= 2 * Z.of_nat (length words) ->
  in_agreement (sdram_byte (ram_to_sdram bytes 0 (ram (mem (co (iss x)))) words)) (co (iss x)).
Proof.
  cbv zeta. intros Q1 Q2 Q3 Q4 Hm Hb Hl Hr Hu He Hw.
  destruct (loaded_fields saved r0) as (_ & F2 & F3 & _ & F5 & F6 & F7 & F8 & F9 & F10 & F11).
  revert F2 F3 F5 F6 F7 F8 F9 F10 F11. generalize (loaded false saved r0) as y. intros y F2 F3 F5 F6 F7 F8 F9 F10 F11.
  destruct (on_mem_fields (put_ram r) y) as (G1 & G2 & G3 & G4 & G5 & G6 & G7 & G8 & G9 & _).
  unfold in_agreement. rewrite G1, G2, G3, G4, G5, G6, G7, G8, G9. clear G1 G2 G3 G4 G5 G6 G7 G8 G9.
  rewrite F2, F3, F5, F6, F7, F8, F9, F10, F11, Q1, Q2, Q3, Q4. clear F2 F3 F5 F6 F7 F8 F9 F10 F11 y.
  pose proof (rok_bytes _ Hm) as Hlen. pose proof (rok_len _ Hm) as Hlen'.
  assert (ram_ok (put_ram [] (mem (co (iss r0))))) as Hm1 by (apply put_ram_ok; [done|cbn; lia]).
  assert (ram_ok (put_ram r (put_ram [] (mem (co (iss r0)))))) as Hm2.
  { apply put_ram_ok; [done|]. cbn [ram put_ram]. rewrite length_splice by (cbn; lia). lia. }
  split_and!; try done.
  intros a Ha Hin. unfold in_ram in Hin. cbn [ram_bytes put_ram] in Hin. rewrite Hb in Hin.
  unfold DEV_LO, DEV_HI in Hin. rewrite ram_get_low; [|done|cbn [ram_bytes put_ram]; lia].
  apply sdram_holds_ram; [|lia|done|done|unfold in_window; lia].
  intros b Hb'. rewrite put_ram_low by lia. by apply znth_u8.
Qed.

(** C37: a portable snapshot starts a sound co-simulation: take a snapshot at a
    boundary the host found quiet, and restore it into any simulator of the
    same RAM size, with the keyframe its difference names.  Then the reference
    has the saved instruction count and CPU state and the saved byte at every
    address of the guest's RAM, no write is outstanding, SDRAM holds the
    reference's RAM, and the host waits for an instruction: the state from which
    [host_sound] holds. *)
Theorem snapshot_resumes cfg tb (h h1 h0 : Host) cycle k keys bin diff k' keys' sdram
  (Hready : cosim_host_snapshot_ready tb h = (true, h1)) (Hok : host_ok h1)
  (Hm : ram_ok (mem (co (iss (ref h1))))) (Hbytes : Forall is_u8 (ram (mem (co (iss (ref h1))))))
  (Hsize : ram_bytes (mem (co (iss (ref h1)))) = host_ram_bytes cfg) (Hpages : ram_size (Z.to_nat (host_ram_bytes cfg)))
  (Hk : Z.of_nat (length (g_key_ram k)) = host_ram_bytes cfg -> keys !! g_key_name k = Some (g_key_ram k))
  (Hsave : cosim_host_save_portable cfg cycle h1 k keys = (bin, diff, k', keys'))
  (Hname : Z.of_nat (length (g_key_name k')) < 4294967296)
  (Hm0 : ram_ok (mem (co (iss (ref h0))))) (Hsize0 : ram_bytes (mem (co (iss (ref h0)))) = host_ram_bytes cfg)
  (Hstrict : x87_lenient (co (iss (ref h0))) = false) (Hsdram : host_ram_bytes cfg <= 2 * Z.of_nat (length sdram)) :
  exists h' sdram',
    cosim_host_load_portable cfg (Portable bin diff) keys' sdram h0 = Some (h', sdram') /\
    ccore (ref h') = ccore (ref h1) /\ ninsn (co (iss (ref h'))) = ninsn (co (iss (ref h1))) /\
    (forall a, 0 <= a < host_ram_bytes cfg ->
       ram_get (mem (co (iss (ref h')))) a = ram_get (mem (co (iss (ref h1)))) a) /\
    in_agreement (sdram_byte sdram') (co (iss (ref h'))) /\
    g_running h' = true /\ g_have_cur h' = false /\ g_squash_ok h' = false.
Proof.
  pose proof (rok_bytes _ Hm) as Hlen. rewrite Hsize in Hlen. pose proof (rok_len _ Hm) as Hlen'.
  pose proof (rok_bytes _ Hm0) as Hlen0. rewrite Hsize0 in Hlen0. pose proof (rok_len _ Hm0) as Hlen0'.
  unfold cosim_host_save_portable in Hsave.
  set (r := take (Z.to_nat (host_ram_bytes cfg)) (ram (mem (co (iss (ref h1)))))) in *.
  assert (length r = Z.to_nat (host_ram_bytes cfg)) as Hr by (unfold r; rewrite length_take; lia).
  destruct (save_ram r cycle k keys) as [[ks k1] keys1] eqn:Es. injection Hsave as <- <- <- <-.
  destruct (save_ram_spec r cycle k keys ks k1 keys1) as (Hreb & Hdir & _); [by rewrite Hr|intros Hl; apply Hk; lia|done|].
  unfold cosim_host_load_portable, read_saved. rewrite <- (app_nil_r (host_write false h1)).
  rewrite host_read_write by (done || congruence). cbn [mbind option_bind].
  pose proof (load_ram_rebuilds r (g_key_ram k1) (g_key_name k1) ks keys1 ltac:(by rewrite Hr) Hname Hdir Hreb) as El.
  rewrite Hr, Z2Nat.id in El by lia. rewrite El. cbn [mbind option_bind].
  exists (restart_host (upd_ref (on_mem (put_ram r)) (host_loaded false h1 h0))), (ram_to_sdram (host_ram_bytes cfg) 0
    (ram (mem (co (iss (on_mem (put_ram r) (loaded false (ref h1) (ref h0))))))) sdram).
  split; [done|]. change (ref (restart_host (upd_ref (on_mem (put_ram r)) (host_loaded false h1 h0))))
    with (on_mem (put_ram r) (loaded false (ref h1) (ref h0))).
  destruct (snapshot_ready_quiet _ _ _ Hready) as (Q1 & Q2 & Q3 & Q4 & _).
  destruct (loaded_fields (ref h1) (ref h0)) as (F1 & _ & F3 & F4 & _).
  destruct (on_mem_fields (put_ram r) (loaded false (ref h1) (ref h0))) as (G1 & _ & _ & _ & _ & _ & _ & _ & _ & G10 & G11).
  destruct Hpages as ((q & Hq) & _ & _). assert (Z.of_nat kPage = 4096) as Hp by done.
  split; [by rewrite G11|]. split; [by rewrite G10|]. split; [|split; [apply resumed_agreement; try done|done]].
  - intros a Ha. rewrite G1, F3. rewrite !ram_get_low; [|done|lia| |cbn [ram_bytes put_ram]; lia].
    + rewrite put_ram_low by lia. unfold r. by apply ram_take; lia.
    + apply put_ram_ok; [apply put_ram_ok; [done|cbn; lia]|]. cbn [ram put_ram]. rewrite length_splice by (cbn; lia). lia.
  - lia.
  - unfold r. by apply Forall_take.
  - replace (host_ram_bytes cfg) with ((Z.of_nat q * 2048) * 2) by lia. apply Z_mod_mult.
Qed.
End Restored.

(** ** An example: the machine of CosimStep.v with a megabyte of RAM *)

#[local] Existing Instance demo_box86.
#[local] Existing Instance demo_boxhost.

Definition demo_enc_core (p : CosimRun.Snap (R := unit)) : list Z :=
  let c := s_core p in
  let u := s_cpu p in
  take 8 (regs c ++ replicate 8 0) ++
  [pc c; oldpc c; fl c; eflags c; flags_op c; cs_sel c; cs_base c; ss_base c; ds_base c; ea_base c; eaaddr c; ssegs c;
   core_op32 c; oldcs c; oldcpl c; use32 c; b2z (stack32 c); trap c; idt_base c; idt_limit c;
   cr0 u; cr2 u; cr3 u; cpl u; b2z (cpl_override u); abrt_error u;
   match abrt u with Some _ => 1 | None => 0 end; default 0 (abrt u)].

Definition demo_dec (l f : list Z) : CosimRun.Snap (R := unit) :=
  let n i := default 0 (l !! i) in
  CosimRun.mkSnap
    (mkCore (take 8 l) (n 8%nat) (n 9%nat) (n 10%nat) (n 11%nat) (n 12%nat) (n 13%nat) (n 14%nat) (n 15%nat) (n 16%nat)
       (n 17%nat) (n 18%nat) (n 19%nat) (n 20%nat) (n 21%nat) (n 22%nat) (n 23%nat) (negb (n 24%nat =? 0)) (n 25%nat)
       (n 26%nat) (n 27%nat) (default 0 (f !! 0%nat)) tt)
    (mkCpu (n 28%nat) (n 29%nat) (n 30%nat) (n 31%nat) (negb (n 32%nat =? 0)) false false
       (if n 34%nat =? 0 then None else Some (n 35%nat)) (n 33%nat))
    (negb (default 0 (f !! 1%nat) =? 0)).

#[local] Instance demo_layout : Layout unit unit := {
  enc_core := demo_enc_core;
  enc_fpu p := [cwd (s_core p); b2z (s_summary p)];
  dec_snap := demo_dec;
  enc_err e := (match e with Some _ => 1 | None => 0 end) :: replicate (pred ERR_SIZE) 0;
  dec_err l := if default 0 (l !! 0%nat) =? 0 then None else Some (ETripleFault 0);
  SNAP_CORE := 36;
  FPU_SIZE := 2;
  fninit_fpu := [0x37F; 0]
}.

#[local] Instance demo_layout_ok : LayoutOk.
Proof.
  split; try done.
  { intros r _. cbn [enc_core demo_layout SNAP_CORE]. unfold demo_enc_core.
    rewrite length_app, length_take, length_app, length_replicate. cbn [length]. lia. }
  intros [[s ip sp] b u lf wh fp pc53 hs] r. destruct b as [c p cy op rm sc], c as [g], rest.
  cbn [ccore box core regs]. do 8 (destruct g as [|? g]; [done|]). destruct g; [|done]. intros _.
  unfold snap_restore. cbn [dec_snap enc_core enc_fpu demo_layout]. unfold snap_save, ccore, ccpu. cbn [box core iss co].
  destruct (cpu s) as [? ? ? ? [] a20 cf [?|] ?], stack32, (x87_summary s); reflexivity.
Qed.

Definition demo_mb : Ram := mkRam (replicate (Z.to_nat 1048576) 0) 1048576 1048575.

Definition demo_hist : hist_t := mkHist 0 0 0 (replicate 8 0x90) (replicate 8 0) 0.

Definition demo_saved : Host (Ref unit unit) :=
  demo_host (mkRef (mkIss (demo_cosim <| mem := demo_mb |> <| ninsn := 1 |>) [] (0, 0)) (mkBox (demo_core 7 0 0 0) 0 0 0 0 tt)
    0 None false false false (replicate 64 demo_hist)) <| g_snap_candidate := true |>.

Definition demo_fresh : Host (Ref unit unit) :=
  demo_host (mkRef (mkIss (demo_cosim <| mem := demo_mb |>) [] (0, 0)) (mkBox (demo_core 0 0 0 0) 0 0 0 0 tt)
    0 None false false false (replicate 64 demo_hist)).

Definition demo_sdram : list Z := replicate (Z.to_nat 524288) 0.
Definition demo_snapshot : list Z * list Z * Keyframe * Dir :=
  cosim_host_save_portable demo_config 0 demo_saved no_keyframe ∅.

Lemma demo_mb_ok : ram_ok demo_mb.
Proof.
  split; [by exists 20|cbn [ram demo_mb rammask]; rewrite length_replicate; lia|cbn; lia].
Qed.

Lemma demo_hist_ok : hist_ok demo_hist.
Proof. split; [by vm_compute..| |]; (split; [done|]); apply Forall_replicate; by vm_compute. Qed.

Lemma demo_saved_ref_ok : ref_ok (ref demo_saved).
Proof.
  assert (forall A (P : A -> Prop), dq_ok P []) as Hd by (by split).
  constructor.
  - reflexivity.
  - by vm_compute.
  - change (1048576 <= Z.of_nat (length (replicate (Z.to_nat 1048576) 0))). rewrite length_replicate. lia.
  - by vm_compute.
  - exact I.
  - by vm_compute.
  - reflexivity.
  - split; [reflexivity|]. apply Forall_replicate, demo_hist_ok.
  - apply Hd.
  - apply Hd.
  - apply Hd.
  - apply Hd.
  - apply Hd.
  - apply Hd.
Qed.

Lemma demo_saved_ok : host_ok demo_saved.
Proof.
  assert (forall A (P : A -> Prop), dq_ok P []) as Hd by (by split).
  constructor.
  - exact demo_saved_ref_ok.
  - reflexivity.
  - apply Hd.
  - apply Hd.
  - apply Hd.
  - split_and!; by vm_compute.
  - split; [reflexivity|]. apply Forall_replicate. split_and!; by vm_compute.
  - by vm_compute.
Qed.

Lemma demo_key_name : Z.of_nat (length (g_key_name demo_snapshot.1.2)) < 4294967296.
Proof.
  unfold demo_snapshot, cosim_host_save_portable.
  set (r := take _ _). assert (length r = Z.to_nat 1048576) as Hr.
  { unfold r. change (host_ram_bytes demo_config) with 1048576.
    change (ram (mem (co (iss (ref demo_saved))))) with (replicate (Z.to_nat 1048576) 0).
    rewrite length_take, length_replicate. lia. }
  clearbody r. unfold save_ram. rewrite (proj2 (Nat.eqb_neq _ _)) by (rewrite Hr; cbn [g_key_ram no_keyframe length]; lia). cbn [negb orb fst snd g_key_name].
  by vm_compute.
Qed.

Lemma demo_parts :
  cosim_host_save_portable demo_config 0 demo_saved no_keyframe ∅ =
    (demo_snapshot.1.1.1, demo_snapshot.1.1.2, demo_snapshot.1.2, demo_snapshot.2).
Proof.
  unfold demo_snapshot. generalize (cosim_host_save_portable demo_config 0 demo_saved no_keyframe ∅) as p.
  by intros [[[? ?] ?] ?].
Qed.

Lemma snapshot_resumes_witness :
  exists h' sdram',
    cosim_host_load_portable demo_config (Portable demo_snapshot.1.1.1 demo_snapshot.1.1.2) demo_snapshot.2 demo_sdram demo_fresh =
      Some (h', sdram') /\
    ccore (ref h') = ccore (ref demo_saved) /\ ninsn (co (iss (ref h'))) = ninsn (co (iss (ref demo_saved))) /\
    (forall a, 0 <= a < host_ram_bytes demo_config ->
       ram_get (mem (co (iss (ref h')))) a = ram_get (mem (co (iss (ref demo_saved)))) a) /\
    in_agreement (sdram_byte sdram') (co (iss (ref h'))) /\
    g_running h' = true /\ g_have_cur h' = false /\ g_squash_ok h' = false.
Proof.
  apply (snapshot_resumes 20 demo_config (demo_taps true false None []) demo_saved demo_saved demo_fresh 0 no_keyframe ∅
           demo_snapshot.1.1.1 demo_snapshot.1.1.2 demo_snapshot.1.2 demo_snapshot.2 demo_sdram).
  - reflexivity.
  - exact demo_saved_ok.
  - exact demo_mb_ok.
  - by apply Forall_replicate.
  - reflexivity.
  - change (host_ram_bytes demo_config) with 1048576. unfold ram_size, kPage. split; [exists 256%nat; lia|]. lia.
  - intros E. discriminate E.
  - exact demo_parts.
  - exact demo_key_name.
  - exact demo_mb_ok.
  - reflexivity.
  - reflexivity.
  - change (host_ram_bytes demo_config) with 1048576. unfold demo_sdram. rewrite length_replicate. lia.
Defined.
