(* ===== verification/Resume.v ===== *)
(** * Restoring a checkpoint

    [restore_checkpoint] of verilator/main.cpp as a whole: the model's state,
    the co-simulation's, the harness's, the media of the drives and the input
    events, put together into the loop that goes on.  [Harness] has the format;
    [Checkpoints] finds the directory.

    The loop that goes on is the one that was saved, but for what no file holds
    ([checkpoint_resumes]); that is listed in [resumed].  The screen checks of
    the command line are among what the checkpoint replaces.  cosim.bin is
    written and read byte by byte by [CosimCheckpoint.host_write] and
    [host_read]; what it leaves out of the co-simulation is in
    [CosimCheckpoint.host_loaded] and shown by [restart_lost]. *)
From S2P Require Import Prelude CosimMem CosimMatch CosimAccess CosimRun CosimStep CosimSystem CosimCheckpoint.
From S2P Require Import Codec IdeTypes IdeInvariant IdeTick IdeSafety IdeCheckpoint Floppy SharedBus Text Input Keyboard Control Window.
From S2P Require Import Ddr Clock Video Config Options Monitor Console Harness CosimHost MainLoop.

(** model.vlt: the model with its ports. *)
Record Vlt (Core : Type) := mkVlt {
  v_core : Core; v_in : CoreIn; v_out : CoreOut;
  v_ports : Ps2Ports; v_soft_reset : bool; v_status : Z; v_bus : Bus
}.
#[global] Arguments mkVlt {Core}.
#[global] Arguments v_core {Core}.
#[global] Arguments v_in {Core}.
#[global] Arguments v_out {Core}.
#[global] Arguments v_ports {Core}.
#[global] Arguments v_soft_reset {Core}.
#[global] Arguments v_status {Core}.
#[global] Arguments v_bus {Core}.

Section Resume.
Context {Core R T : Type} `{Box86 R T} `{BoxHost R T} `{!Layout R T}.
Notation Ref := (Ref R T).
Notation Loop := (Loop Core Ref).

Definition save_vlt (l : Loop) : Vlt Core :=
  mkVlt (core (sim l)) (cin (sim l)) (cout (sim l)) (ports l) (soft_reset l) (status l) (bus l).

Definition restore_vlt (v : Vlt Core) (l : Loop) : Loop :=
  l <| sim := MainLoop.sim l <| core := v_core v |> <| cin := v_in v |> <| cout := v_out v |> |>
    <| ports := v_ports v |> <| soft_reset := v_soft_reset v |> <| status := v_status v |> <| bus := v_bus v |>.

(** What [write_harness] sees of the loop; [title] is [last_title_sim_time]. *)
Definition harness_of (o : Options) (title : Z) (l : Loop) : Harness Core := {|
  Harness.sim := MainLoop.sim l; Harness.ps2 := Control.ps2 (control (gui l));
  Harness.screen_check_cycles := Options.screen_check_cycles o;
  Harness.next_screen_check := Console.next_screen_check (console l);
  Harness.boot_pages_seen := Monitor.boot_pages_seen (monitor l); Harness.video := MainLoop.video l;
  Harness.saw_first_instruction := Monitor.saw_first_instruction (monitor l); Harness.saw_post := Monitor.saw_post (monitor l);
  Harness.saw_boot_sector := Monitor.saw_boot_sector (monitor l);
  Harness.saw_post_boot_exec := Monitor.saw_post_boot_exec (monitor l);
  Harness.saw_boot_menu_text := Console.saw_boot_menu_text (console l);
  Harness.boot_page_logs := Monitor.boot_page_logs (monitor l);
  Harness.bios_dbg_wr_prev := MainLoop.bios_dbg_wr_prev l;
  Harness.last_post := Monitor.last_post (monitor l); Harness.have_post := Monitor.have_post (monitor l);
  Harness.mouse_captured := Window.mouse_captured (gui l); Harness.last_title_sim_time := title;
  Harness.next_console_text_check := Console.next_console_text_check (console l);
  Harness.last_console_text := Console.last_console_text (console l);
  Harness.ide0 := SharedBus.ide0 (drives l); Harness.ide1 := SharedBus.ide1 (drives l)
|}.

(** The globals and locals that [read_harness] has set, in the loop. *)
Definition with_harness (h : Harness Core) (l : Loop) : Loop :=
  l <| sim := Harness.sim h |> <| video := Harness.video h |> <| bios_dbg_wr_prev := Harness.bios_dbg_wr_prev h |>
    <| gui := gui l <| control := control (gui l) <| Control.ps2 := Harness.ps2 h |> |>
                    <| Window.mouse_captured := Harness.mouse_captured h |> |>
    <| console := console l <| Console.next_screen_check := Harness.next_screen_check h |>
                            <| Console.saw_boot_menu_text := Harness.saw_boot_menu_text h |>
                            <| Console.next_console_text_check := Harness.next_console_text_check h |>
                            <| Console.last_console_text := Harness.last_console_text h |> |>
    <| monitor := monitor l <| Monitor.boot_pages_seen := Harness.boot_pages_seen h |>
                            <| Monitor.saw_first_instruction := Harness.saw_first_instruction h |>
                            <| Monitor.saw_post := Harness.saw_post h |>
                            <| Monitor.saw_boot_sector := Harness.saw_boot_sector h |>
                            <| Monitor.saw_post_boot_exec := Harness.saw_post_boot_exec h |>
                            <| Monitor.boot_page_logs := Harness.boot_page_logs h |>
                            <| Monitor.last_post := Harness.last_post h |> <| Monitor.have_post := Harness.have_post h |> |>
    <| drives := drives l <| SharedBus.ide0 := Harness.ide0 h |> <| SharedBus.ide1 := Harness.ide1 h |> |>.

Section Files.
Context (fs_read : list Z -> option (list Z)) (fs_stat : list Z -> option (Z * Z)) (fs_absolute : list Z -> list Z).
Context (sort : list ScheduledPs2Bytes -> list ScheduledPs2Bytes).

(** The files of a checkpoint: model.vlt, harness.bin, and cosim.bin if there is
    one. *)
Record Checkpoint := mkCheckpoint { model_vlt : Vlt Core; harness_bin : list Z; cosim_bin : option (list Z) }.

Definition checkpoint_of (o : Options) (title : Z) (l : Loop) : Checkpoint :=
  mkCheckpoint (save_vlt l) (write_harness fs_read fs_stat (harness_of o title l))
    (if cosim_on o then Some (cosim_host_save (host l)) else None).

Definition adopt_media (o : Options) (l : Loop) : Loop :=
  let d := drives l in
  let i0 := adopt_image_path fs_stat fs_absolute (SharedBus.ide0 d) (disk_path o) in
  let i1 := if is_nil (cdrom_path o) then SharedBus.ide1 d
            else adopt_image_path fs_stat fs_absolute (SharedBus.ide1 d) (cdrom_path o) in
  l <| drives := d <| SharedBus.ide0 := i0 |> <| SharedBus.ide1 := i1 |> |>.

Definition requeue (l : Loop) (s : Ps2) : Ps2 :=
  requeue_input_events sort (current_cycle (MainLoop.sim l)) (ps2_events s) (mouse_events s) (Control.ps2 (control (gui l))).

(** The settings and the loop behind the restore, and [loop_start_cycle]; [l]
    is the program as it has been started. *)
Definition restore_checkpoint (ck : Checkpoint) (o : Options) (title : Z) (l : Loop) : Result (Options * Loop * Z) :=
  let cmdline := Control.ps2 (control (gui l)) in
  let l := restore_vlt (model_vlt ck) l in
  l ← (if cosim_on o then
         match cosim_bin ck ≫= cosim_host_load (host l) with Some h => Ok (l <| host := h |>) | None => Throw end
       else Ok l);
  '(h, _) ← read_harness fs_read fs_stat (harness_of o title l) (stream (harness_bin ck));
  let o := o <| Options.screen_check_cycles := Harness.screen_check_cycles h |> in
  let l := adopt_media o (with_harness h l) in
  let l := l <| gui := gui l <| control := control (gui l) <| Control.ps2 := requeue l cmdline |> |> |> in
  Ok (o, l, u64 (current_cycle (MainLoop.sim l) + 1)).

(** ** What goes on *)

(** The parts no file holds, which are those of the restoring program [l0]: the
    recording, the dropout detector, the wait-request injection, the devices'
    jitter, the floppy drives, the picture being scanned, the hotkeys, the keys
    waiting for a text, the reports, and of the co-simulation what
    [host_loaded] keeps: whether z486 restarts the pending instruction, the level
    of RPTI, the counters of the register and x87 checks, and the reference's
    IGNNE latch, last device byte and x87 selection. *)
Definition resumed_sim (s s0 : Sim Core) : Sim Core :=
  s <| ddr := with_ddr (ddr s) (ddr s0) |> <| wav := wav s0 |> <| flatline := flatline s0 |>.

Definition resumed_video (v v0 : Video) : Video :=
  v0 <| saw_video_sync := saw_video_sync v |> <| saw_nonblack_pixel := saw_nonblack_pixel v |> <| prev_vs := prev_vs v |>
     <| prev_hs := prev_hs v |> <| prev_de := prev_de v |> <| resolution_x := resolution_x v |> <| resolution_y := resolution_y v |>.

Definition resumed_console (c c0 : Console) : Console :=
  c0 <| Console.next_screen_check := Console.next_screen_check c |> <| Console.saw_boot_menu_text := Console.saw_boot_menu_text c |>
     <| Console.next_console_text_check := Console.next_console_text_check c |>
     <| Console.last_console_text := Console.last_console_text c |>.

Definition resumed_monitor (m m0 : Monitor) : Monitor := m <| log_eip := log_eip m0 |> <| reports := reports m0 |>.

Definition resumed_gui (l l0 : Loop) : Gui :=
  gui l0 <| control := control (gui l0) <| Control.ps2 :=
    requeue l (Control.ps2 (control (gui l0))) |> |> <| Window.mouse_captured := Window.mouse_captured (gui l) |>.

Definition resumed_drives (d d0 : Drives) : Drives :=
  d0 <| SharedBus.ide0 := SharedBus.ide0 d <| jitter_delay_ := jitter_delay_ (SharedBus.ide0 d0) |> |>
     <| SharedBus.ide1 := SharedBus.ide1 d <| jitter_delay_ := jitter_delay_ (SharedBus.ide1 d0) |> |>.

Definition resumed (o : Options) (l l0 : Loop) : Loop := adopt_media o
  (l0 <| sim := resumed_sim (MainLoop.sim l) (MainLoop.sim l0) |> <| ports := ports l |> <| soft_reset := soft_reset l |>
      <| status := status l |> <| bus := bus l |> <| drives := resumed_drives (drives l) (drives l0) |>
      <| host := if cosim_on o then host_loaded true (host l) (host l0) else host l0 |> <| video := resumed_video (MainLoop.video l) (MainLoop.video l0) |>
      <| gui := resumed_gui l l0 |> <| console := resumed_console (console l) (console l0) |>
      <| monitor := resumed_monitor (monitor l) (monitor l0) |> <| bios_dbg_wr_prev := MainLoop.bios_dbg_wr_prev l |>).

(** ** The round trip *)

Context (Hstat : forall p size mtime, fs_stat p = Some (size, mtime) ->
  0 <= size < 9223372036854775808 /\ -9223372036854775808 <= mtime < 9223372036854775808).

Lemma resumed_parts (o o0 : Options) title title0 (l l0 l1 : Loop) :
  l1 = restore_vlt (save_vlt l) l0 <| host := if cosim_on o0 then host_loaded true (host l) (host l0) else host l0 |> ->
  let l2 := adopt_media o0 (with_harness (Harness.restored (harness_of o title l) (harness_of o0 title0 l1)) l1) in
  l2 <| gui := gui l2 <| control := control (gui l2) <| Control.ps2 := requeue l2 (Control.ps2 (control (gui l0))) |> |> |> =
  resumed o0 l l0.
Proof.
  intros ->. destruct l as [[] ? ? ? [] ? ? [] [[]] [] []], l0 as [[] ? ? ? [] ? ? [] [[]] [] []]. reflexivity.
Qed.

(** C14: restoring a checkpoint from the bytes of its files gives back the loop
    that was saved - the model and its ports, the memories, the drives with
    their media, the milestones, the input events that are left together with
    those of the command line, and, with co-simulation, the reference and the
    host's queues and counters as far as cosim.bin holds them - at the cycle
    behind the one saved; only the parts no file holds, which [resumed] and
    [host_loaded] list, are the restoring program's. *)
Theorem checkpoint_resumes `{!LayoutOk} o title (l : Loop) o0 title0 l0 :
  cosim_on o = cosim_on o0 -> harness_fits (harness_of o title l) -> harness_ready (harness_of o0 title0 l0) ->
  (cosim_on o0 = true -> host_ok (host l) /\
     ram_bytes (mem (co (iss (ref (host l0))))) = ram_bytes (mem (co (iss (ref (host l)))))) ->
  restore_checkpoint (checkpoint_of o title l) o0 title0 l0 =
  Ok (o0 <| Options.screen_check_cycles := Options.screen_check_cycles o |>, resumed o0 l l0,
      u64 (current_cycle (MainLoop.sim l) + 1)).
Proof.
  intros Hc Hf Hr Hh. unfold restore_checkpoint, checkpoint_of. cbv zeta. cbn [model_vlt harness_bin cosim_bin]. rewrite Hc.
  set (l1 := restore_vlt (save_vlt l) l0 <| host := if cosim_on o0 then host_loaded true (host l) (host l0) else host l0 |>).
  assert (forall lv, lv = restore_vlt (save_vlt l) l0 ->
    (if cosim_on o0 then
       match (if cosim_on o0 then Some (cosim_host_save (host l)) else None) ≫= cosim_host_load (host lv) with
       | Some h => Ok (lv <| host := h |>) | None => Throw end else Ok lv) = @Ok Loop l1) as Hl.
  { intros lv ->. unfold l1. destruct (cosim_on o0); [|by destruct l0]. destruct (Hh eq_refl) as [Hok Hb]. cbn [mbind option_bind].
    change (host (restore_vlt (save_vlt l) l0)) with (host l0). unfold cosim_host_load, cosim_host_save.
    rewrite <- (app_nil_r (host_write true (host l))). by rewrite host_read_write. }
  rewrite (Hl _ eq_refl). cbn [mbind Result_bind].
  pose proof (read_write_harness fs_read fs_stat Hstat (harness_of o title l) (harness_of o0 title0 l1) [] Hf) as Hread.
  rewrite app_nil_r in Hread. rewrite Hread by exact Hr. cbn [mbind Result_bind].
  set (o1 := o0 <| Options.screen_check_cycles := Options.screen_check_cycles o |>).
  change (resumed o0 l l0) with (resumed o1 l l0).
  by rewrite <- (resumed_parts o o1 title title0 l l0 l1 eq_refl).
Qed.

(** What a checkpoint loses of the co-simulation: a run that is resumed has the
    restart mark, RPTI, the register counters and IGNNE# of the program that
    resumes it, whatever they were when it was saved. *)
Lemma restart_lost o (l l0 : Loop) :
  let h := host (resumed o l l0) in
  g_cur_restarted h = g_cur_restarted (host l0) /\ g_rpti_prev h = g_rpti_prev (host l0) /\
  g_ram_copied h = g_ram_copied (host l0) /\ g_reg_miss h = g_reg_miss (host l0) /\
  ignne (co (iss (ref h))) = ignne (co (iss (ref (host l0)))).
Proof.
  cbv zeta. change (host (resumed o l l0)) with (if cosim_on o then host_loaded true (host l) (host l0) else host l0).
  by destruct (cosim_on o).
Qed.
End Files.
End Resume.

(** ** A run restored *)

#[local] Existing Instance demo_box86.
#[local] Existing Instance demo_boxhost.
#[local] Existing Instance demo_layout.
#[local] Existing Instance demo_layout_ok.

(** [demo_loop] with a co-simulation. *)
Definition with_cosim (h : Host (Ref unit unit)) : Loop unit (Ref unit unit) :=
  let l := demo_loop in {|
  MainLoop.sim := MainLoop.sim l; ports := ports l; soft_reset := soft_reset l; status := status l; drives := drives l;
  bus := bus l; host := h; MainLoop.video := MainLoop.video l; gui := gui l; console := console l; monitor := monitor l;
  next_cpu_speed_event := 0; next_control_poll_cycle := 0; next_gui_poll_cycle := 0; next_vga_plane_event := 0;
  MainLoop.bios_dbg_wr_prev := false; uart := []; planes := []; snapshots := []
|}.

Lemma checkpoint_resumes_witness :
  let o := default_options <| Options.screen_check_cycles := [7000000; 8000000] |> <| cosim_on := true |> in
  let o0 := default_options <| cosim_on := true |> in
  let l := with_harness saved_harness (with_cosim demo_saved) in
  let l0 := with_harness fresh_harness (with_cosim demo_fresh) in
  restore_checkpoint base_files base_stat (fun p => p) sort_events (checkpoint_of base_files base_stat o 123456 l) o0 0 l0 =
  Ok (o, resumed base_stat (fun p => p) sort_events o0 l l0, 5000001).
Proof.
  intros o o0 l l0.
  pose proof (checkpoint_resumes base_files base_stat (fun p => p) sort_events base_stat_ok o 123456 l o0 0 l0) as Hr.
  apply Hr; [reflexivity|exact saved_harness_fits| |].
  - split; [reflexivity|]. split; [reflexivity|]. split; [exact (new_ok 0 0xF000)|exact (new_ok 1 0xF100)].
  - intros _. split; [exact demo_saved_ok|reflexivity].
Defined.
