(* ===== verification/CosimX86.v ===== *)
(** * Support code of the reference CPU

    The helpers that verilator/cosim/stubs.c supplies to the 86Box core: 32-bit
    division ([divl], [idivl]), segment loads ([do_seg_load], [init_seg] of
    iss_glue.h), the parity tables and the ModR/M table; and [seg_attr] of
    cosim86.c, the hidden part of a segment register in a snapshot.  A loaded
    descriptor and the attribute word describe the same segment
    ([seg_attr_descriptor]); a division is exact or faults, and one signed
    division is undefined ([idivl_exact]). *)
From S2P Require Import Prelude Codec CosimDecode.

(** ** Division *)

Definition i32 (x : Z) : Z := if 2147483648 <=? x then x - 4294967296 else x.

(** EAX and EDX after the division; [Throw] is the divide fault ([x86_int(0)]). *)
Definition divl (eax edx val : Z) : Result (Z * Z) :=
  let num := Z.lor (Z.shiftl edx 32) eax in
  if val =? 0 then Throw
  else
    let quo := num / val in
    let rem := num mod val in
    if 0xFFFFFFFF <? quo then Throw else Ok (u32 quo, u32 rem).

(** [val] is an int32_t; the quotient is rounded towards zero. *)
Definition idivl (eax edx val : Z) : Result (Z * Z) :=
  let num := Z.lor (Z.shiftl (i32 edx) 32) eax in
  if val =? 0 then Throw
  else if (num =? -9223372036854775808) && (val =? -1) then Undefined
  else
    let quo := Z.quot num val in
    let rem := Z.rem num val in
    if (2147483647 <? quo) || (quo <? -2147483648) then Throw else Ok (u32 quo, u32 rem).

(** ** Segments *)

Record x86seg := mkSeg {
  seg : Z; base : Z; limit : Z; limit_low : Z; limit_high : Z; access : Z; ar_high : Z; checked : Z
}.

#[export] Instance eta_x86seg : Eta x86seg :=
  fun r => mkSeg (seg r) (base r) (limit r) (limit_low r) (limit_high r) (access r) (ar_high r) (checked r).

(** The status bits that say DS and SS are not flat. *)
Record FlatStatus := mkFlat { notflat_ds : bool; notflat_ss : bool }.
Inductive SegReg := SegDS | SegSS | SegOther.

Definition is_flat (s : x86seg) : bool := (base s =? 0) && (limit_low s =? 0) && (limit_high s =? 0xFFFFFFFF).

(** [segdat] is the descriptor as four words. *)
Definition load_fields (s : x86seg) (d0 d1 d2 d3 : Z) : x86seg :=
  let lim := Z.lor d0 (Z.shiftl (Z.land d3 0x000f) 16) in
  let lim := if negb (Z.land d3 0x0080 =? 0) then Z.lor (u32 (Z.shiftl lim 12)) 0xfff else lim in
  let b := Z.lor d1 (Z.shiftl (Z.land d2 0x00ff) 16) in
  let b := Z.lor b (u32 (Z.shiftl (Z.shiftr d3 8) 24)) in
  let s := s <| limit := lim |> <| base := b |> <| access := Z.shiftr d2 8 |> <| ar_high := Z.land d3 0xff |> in
  if negb (Z.land d2 0x1800 =? 0x1000) || (Z.land d2 0x400 =? 0) then
    s <| limit_high := lim |> <| limit_low := 0 |>
  else
    s <| limit_high := if negb (Z.land d3 0x40 =? 0) then 0xffffffff else 0xffff |> <| limit_low := u32 (lim + 1) |>.

Definition do_seg_load (r : SegReg) (s : x86seg) (d0 d1 d2 d3 : Z) (st : FlatStatus) : x86seg * FlatStatus :=
  let s := load_fields s d0 d1 d2 d3 in
  (s, match r with
      | SegDS => mkFlat (negb (is_flat s)) (notflat_ss st)
      | SegSS => mkFlat (notflat_ds st) (negb (is_flat s))
      | SegOther => st
      end).

Definition init_seg (s : x86seg) (sel b limit_20bit acc arh : Z) : x86seg :=
  let s := s <| seg := sel |> <| base := b |> <| access := acc |> <| ar_high := arh |> <| limit := limit_20bit |> in
  let s := if negb (Z.land arh 0x80 =? 0) then s <| limit := Z.lor (u32 (Z.shiftl limit_20bit 12)) 0xFFF |> else s in
  let s := if negb (Z.land acc 0x18 =? 0x10) || (Z.land acc 0x04 =? 0) then
             s <| limit_high := limit s |> <| limit_low := 0 |>
           else
             s <| limit_high := if negb (Z.land arh 0x40 =? 0) then 0xFFFFFFFF else 0xFFFF |>
               <| limit_low := u32 (limit s + 1) |> in
  s <| checked := 1 |>.

(** [pm]: protected mode; [vm]: EFLAGS.VM. *)
Definition seg_attr (msw_pe vm : bool) (s : x86seg) (is_cs nullable : bool) : Z :=
  let pm := msw_pe && negb vm in
  if pm && nullable && (Z.land (seg s) 0xfffc =? 0) then Z.lor (Z.shiftl 1 27) 0xFFFFF
  else
    let acc := if negb pm && (access s =? 0xe2) then
                 Z.lor (Z.lor (if vm then 0xE0 else 0x80) 0x10) (if is_cs then 0xB else 0x3)
               else access s in
    let g := Z.lor (Z.land (Z.shiftr (ar_high s) 7) 1) (b2z (0xFFFFF <? limit s)) in
    let db := Z.land (Z.shiftr (ar_high s) 6) 1 in
    let raw := Z.land (if negb (g =? 0) then Z.shiftr (limit s) 12 else limit s) 0xFFFFF in
    Z.lor (Z.lor (Z.lor (Z.lor (Z.lor (Z.lor (Z.lor
      (Z.shiftl (Z.land acc 1) 30) (Z.shiftl g 29)) (Z.shiftl db 28)) (Z.shiftl (Z.shiftr acc 7) 27))
      (Z.shiftl (Z.land (Z.shiftr acc 5) 3) 25)) (Z.shiftl (Z.land (Z.shiftr acc 4) 1) 24))
      (Z.shiftl (Z.land acc 0xF) 20)) raw.

(** ** Tables *)

(** The number of the low eight bits that are set. *)
Fixpoint count_bits (n : nat) (j i : Z) : Z :=
  match n with
  | O => 0
  | S n => (if negb (Z.land i (Z.shiftl 1 j) =? 0) then 1 else 0) + count_bits n (j + 1) i
  end.

Definition znp (i : Z) : Z := if negb (Z.land (count_bits 8 0 i) 1 =? 0) then 0 else 4.

Definition znp_table (n : Z) : list Z := map (fun k => znp (Z.of_nat k)) (seq 0 (Z.to_nat n)).

(** [znptable8] and [znptable16]. *)
Definition x86_init_znp_tables : list Z * list Z := (znp_table 256, znp_table 65536).

Definition opcode_has_modrm : list Z :=
  [1;1;1;1;0;0;0;0;1;1;1;1;0;0;0;0;
   1;1;1;1;0;0;0;0;1;1;1;1;0;0;0;0;
   1;1;1;1;0;0;0;0;1;1;1;1;0;0;0;0;
   1;1;1;1;0;0;0;0;1;1;1;1;0;0;0;0;
   0;0;0;0;0;0;0;0;0;0;0;0;0;0;0;0;
   0;0;0;0;0;0;0;0;0;0;0;0;0;0;0;0;
   0;0;1;1;0;0;0;0;0;1;0;1;0;0;0;0;
   0;0;0;0;0;0;0;0;0;0;0;0;0;0;0;0;
   1;1;1;1;1;1;1;1;1;1;1;1;1;1;1;1;
   0;0;0;0;0;0;0;0;0;0;0;0;0;0;0;0;
   0;0;0;0;0;0;0;0;0;0;0;0;0;0;0;0;
   0;0;0;0;0;0;0;0;0;0;0;0;0;0;0;0;
   1;1;0;0;1;1;1;1;0;0;0;0;0;0;0;0;
   1;1;1;1;0;0;0;0;1;1;1;1;1;1;1;1;
   0;0;0;0;0;0;0;0;0;0;0;0;0;0;0;0;
   0;0;0;0;0;0;1;1;0;0;0;0;0;0;1;1].

(** ** Division is exact *)

Lemma u32_pair hi lo : is_u32 lo -> Z.lor (Z.shiftl hi 32) lo = hi * 4294967296 + lo.
Proof. intros H. change 4294967296 with (2 ^ 32). apply lor_shiftl_add; unfold is_u32 in H; lia. Qed.

Lemma divl_result eax edx val :
  is_u32 eax -> is_u32 edx -> is_u32 val ->
  divl eax edx val =
  (let num := edx * 4294967296 + eax in
   if (val =? 0) || (val <=? edx) then Throw else Ok (num / val, num mod val)).
Proof.
  intros Ha Hd Hv. unfold divl. rewrite u32_pair by done. cbn zeta. destruct (Z.eqb_spec val 0); [done|]. cbn [orb].
  unfold is_u32 in *. set (num := edx * 4294967296 + eax) in *.
  assert (val <= edx <-> 4294967295 < num / val) as Hiff.
  { split; intros H.
    - apply Z.lt_le_trans with (4294967296); [lia|]. apply Z.div_le_lower_bound; nia.
    - destruct (Z.leb_spec val edx); [done|]. assert (num / val < 4294967296); [|lia]. apply Z.div_lt_upper_bound; nia. }
  destruct (Z.leb_spec val edx), (Z.ltb_spec 0xFFFFFFFF (num / val)); try done; try lia.
  pose proof (Z.mod_pos_bound num val). assert (0 <= num / val) by (apply Z.div_pos; nia).
  by rewrite !u32_id by (unfold is_u32; lia).
Qed.

(** DIV with a 64-bit dividend EDX:EAX faults exactly when the divisor is
    zero or the quotient does not fit in 32 bits; otherwise EAX and EDX are the
    quotient and the remainder. *)
Lemma divl_exact eax edx val (Ha : is_u32 eax) (Hd : is_u32 edx) (Hv : is_u32 val) :
  match divl eax edx val with
  | Ok (q, r) => edx * 4294967296 + eax = q * val + r /\ 0 <= r < val /\ is_u32 q
  | Throw => val = 0 \/ forall q r, edx * 4294967296 + eax = q * val + r -> 0 <= r < val -> ~ is_u32 q
  | Undefined => False
  end.
Proof.
  rewrite divl_result by done. cbn zeta. unfold is_u32 in *.
  destruct (Z.eqb_spec val 0) as [->|Hne]; cbn [orb]; [by left|]. destruct (Z.leb_spec val edx).
  - right. intros q r E Hr. nia.
  - pose proof (Z.div_mod (edx * 4294967296 + eax) val Hne). pose proof (Z.mod_pos_bound (edx * 4294967296 + eax) val).
    split_and!; [lia|lia|lia|apply Z.div_pos; lia|]. apply Z.div_lt_upper_bound; nia.
Qed.

Lemma divl_exact_witness :
  match divl 7 1 3 with
  | Ok (q, r) => 1 * 4294967296 + 7 = q * 3 + r /\ 0 <= r < 3 /\ is_u32 q
  | Throw => 3 = 0 \/ forall q r, 1 * 4294967296 + 7 = q * 3 + r -> 0 <= r < 3 -> ~ is_u32 q
  | Undefined => False
  end.
Proof. apply (divl_exact 7 1 3); by vm_compute. Defined.

(** C36: IDIV: apart from the most negative dividend by -1, it faults exactly
    when the divisor is zero or the truncated quotient is not an int32_t;
    otherwise EAX and EDX hold the truncated quotient and a remainder of the
    dividend's sign.  The excepted case, which the processor faults on, is
    undefined behaviour of the C code. *)
Theorem idivl_exact eax edx val
  (Ha : is_u32 eax) (Hd : is_u32 edx) (Hv : -2147483648 <= val < 2147483648) :
  let num := i32 edx * 4294967296 + eax in
  match idivl eax edx val with
  | Ok (q, r) => num = i32 q * val + i32 r /\ Z.abs (i32 r) < Z.abs val /\ 0 <= num * i32 r
  | Throw => val = 0 \/ Z.quot num val < -2147483648 \/ 2147483647 < Z.quot num val
  | Undefined => num = -9223372036854775808 /\ val = -1
  end.
Proof.
  unfold idivl. rewrite u32_pair by done. cbn zeta. set (num := i32 edx * 4294967296 + eax).
  destruct (Z.eqb_spec val 0) as [->|Hne]; [by left|].
  destruct (Z.eqb_spec num (-9223372036854775808)), (Z.eqb_spec val (-1)); cbn [andb]; try (by split);
  (destruct (Z.ltb_spec 2147483647 (Z.quot num val)); cbn [orb]; [right; by right|];
   destruct (Z.ltb_spec (Z.quot num val) (-2147483648)); [right; by left|]);
  pose proof (Z.quot_rem num val Hne); pose proof (Z.rem_bound_abs num val Hne); pose proof (Z.rem_sign_nz num val Hne);
  (assert (forall x, -2147483648 <= x < 2147483648 -> i32 (u32 x) = x) as Hi
    by (intros x Hx; unfold i32, u32; case_bool; divlia));
  (assert (-2147483648 <= Z.rem num val < 2147483648) as Hrr by lia);
  rewrite !Hi by lia; (split_and!; [lia|lia|]);
  (destruct (Z.eq_dec (Z.rem num val) 0) as [->|Hrz]; [lia|]); pose proof (Z.rem_sign_mul num val Hne); nia.
Qed.

Lemma idivl_exact_witness :
  let num := i32 0xFFFFFFFF * 4294967296 + 0xFFFFFFF9 in
  match idivl 0xFFFFFFF9 0xFFFFFFFF 2 with
  | Ok (q, r) => num = i32 q * 2 + i32 r /\ Z.abs (i32 r) < Z.abs 2 /\ 0 <= num * i32 r
  | Throw => 2 = 0 \/ Z.quot num 2 < -2147483648 \/ 2147483647 < Z.quot num 2
  | Undefined => num = -9223372036854775808 /\ 2 = -1
  end.
Proof. apply (idivl_exact 0xFFFFFFF9 0xFFFFFFFF 2); by vm_compute. Defined.

(** ** A segment loaded from a descriptor *)

(** The words of a descriptor: base, 20-bit limit, access byte, and the flags
    G, D/B, L, AVL in the high nibble of [arh]. *)
Definition descriptor (b limit_20bit acc arh : Z) : Z * Z * Z * Z :=
  (u16 limit_20bit, u16 b, (b / 65536) mod 256 + 256 * acc, arh + 256 * (b / 16777216)).

(** Fields of a word by division. *)
Ltac fields :=
  change 0x000f with (Z.ones 4); change 0x00ff with (Z.ones 8); change 0xff with (Z.ones 8);
  rewrite ?Z.land_ones, ?Z.shiftr_div_pow2, ?Z.shiftl_mul_pow2 by lia.

Lemma land_pow2 x n : 0 <= n -> (Z.land x (2 ^ n) =? 0) = negb (Z.testbit x n).
Proof.
  intros Hn. destruct (Z.testbit x n) eqn:E; cbn.
  - apply Z.eqb_neq. intros H. assert (Z.testbit (Z.land x (2 ^ n)) n = true) as Ht.
    { by rewrite Z.land_spec, E, Z.pow2_bits_true. }
    by rewrite H, Z.bits_0 in Ht.
  - apply Z.eqb_eq, Z.bits_inj'. intros i Hi. rewrite Z.land_spec, Z.bits_0.
    destruct (Z.eq_dec i n) as [->|Hne]; [by rewrite E|]. by rewrite Z.pow2_bits_false, andb_false_r by lia.
Qed.

Lemma testbit_div x n : 0 <= n -> Z.testbit x n = ((x / 2 ^ n) mod 2 =? 1).
Proof.
  intros Hn. rewrite <- Z.shiftr_div_pow2 by done. rewrite <- (Z.add_0_l n) at 1. rewrite <- Z.shiftr_spec by lia.
  rewrite Z.bit0_odd, Zodd_mod. pose proof (Z.mod_pos_bound (Z.shiftr x n) 2).
  unfold Zeq_bool. destruct (Z.eqb_spec (Z.shiftr x n mod 2) 1) as [->|]; [done|].
  by assert (Z.shiftr x n mod 2 = 0) as -> by lia.
Qed.

Lemma flag_bit x m n : 0 <= n -> m = 2 ^ n -> (Z.land x m =? 0) = negb ((x / 2 ^ n) mod 2 =? 1).
Proof. intros Hn ->. by rewrite land_pow2, testbit_div by done. Qed.

Lemma land_shift x m n : 0 <= n -> Z.land x (Z.shiftl m n) = Z.shiftl (Z.land (Z.shiftr x n) m) n.
Proof.
  intros Hn. apply Z.bits_inj'. intros i Hi. rewrite Z.land_spec, !Z.shiftl_spec by lia.
  destruct (Z.ltb_spec i n); [by rewrite !(Z.testbit_neg_r _ (i - n)), andb_false_r by lia|].
  rewrite Z.land_spec, Z.shiftr_spec by lia. by replace (i - n + n) with i by lia.
Qed.

Lemma land_low x m n y : Z.land x n = y -> Z.land n m = m -> Z.land x m = Z.land y m.
Proof. intros <- Hm. by rewrite <- Z.land_assoc, Hm. Qed.

Lemma shiftl_eqb x y n : 0 <= n -> (Z.shiftl x n =? Z.shiftl y n) = (x =? y).
Proof.
  intros Hn. rewrite !Z.shiftl_mul_pow2 by done. assert (0 < 2 ^ n) by (apply Z.pow_pos_nonneg; lia).
  destruct (Z.eqb_spec x y) as [->|]; [apply Z.eqb_refl|]. apply Z.eqb_neq. nia.
Qed.

(** [init_seg], with which the reset state is built, leaves a segment
    register exactly as loading the corresponding descriptor does. *)
Lemma init_seg_loads s sel b limit_20bit acc arh
  (Hb : is_u32 b) (Hl : 0 <= limit_20bit < 1048576) (Ha : is_u8 acc) (Hr : is_u8 arh)
  (Hn : arh mod 16 = limit_20bit / 65536) (Hs : checked s = 1) :
  let '(d0, d1, d2, d3) := descriptor b limit_20bit acc arh in
  load_fields (s <| seg := sel |>) d0 d1 d2 d3 = init_seg s sel b limit_20bit acc arh.
Proof.
  cbn [descriptor]. unfold load_fields, init_seg. set (d2 := _ + 256 * acc). set (d3 := arh + _).
  unfold is_u32, is_u8 in *.
  assert (Z.land d3 15 = arh mod 16) as E1 by (change 15 with (Z.ones 4); rewrite Z.land_ones by lia; subst d3; divlia).
  assert (Z.land d2 255 = (b / 65536) mod 256) as E2 by (change 255 with (Z.ones 8); rewrite Z.land_ones by lia; subst d2; divlia).
  assert (Z.land d3 255 = arh) as E3 by (change 255 with (Z.ones 8); rewrite Z.land_ones by lia; subst d3; divlia).
  assert (Z.shiftr d2 8 = acc) as E4 by (rewrite Z.shiftr_div_pow2 by lia; subst d2; divlia).
  assert (Z.shiftr d3 8 = b / 16777216) as E5 by (rewrite Z.shiftr_div_pow2 by lia; subst d3; divlia).
  rewrite (land_low d3 0x80 255 arh E3 eq_refl), (land_low d3 0x40 255 arh E3 eq_refl), E3, E4.
  assert (forall m y, (Z.land d2 (Z.shiftl m 8) =? Z.shiftl y 8) = (Z.land acc m =? y)) as Hacc
    by (intros m y; by rewrite land_shift, E4, shiftl_eqb by lia).
  rewrite (Hacc 0x18 0x10 : (Z.land d2 0x1800 =? 0x1000) = _), (Hacc 4 0 : (Z.land d2 0x400 =? 0) = _).
  assert (Z.lor (u16 limit_20bit) (Z.shiftl (Z.land d3 15) 16) = limit_20bit) as ->.
  { rewrite Z.lor_comm, E1, Hn. change (limit_20bit / 65536) with (limit_20bit / 2 ^ 16).
    rewrite lor_shiftl_add; [unfold u16; divlia|lia|unfold u16; divlia]. }
  assert (Z.lor (Z.lor (u16 b) (Z.shiftl (Z.land d2 255) 16)) (u32 (Z.shiftl (Z.shiftr d3 8) 24)) = b) as ->.
  { rewrite (Z.lor_comm (u16 b)), E2, E5, lor_shiftl_add by (unfold u16; divlia).
    assert (Z.shiftl (b / 16777216) 24 = b / 16777216 * 16777216) as E6 by (rewrite Z.shiftl_mul_pow2 by lia; done).
    rewrite u32_id by (rewrite E6; unfold is_u32; divlia). rewrite Z.lor_comm, lor_shiftl_add by (unfold u16; divlia).
    unfold u16. divlia. }
  destruct s as [sg bs lm ll lh ac ar ck]. cbn in Hs. subst ck.
  destruct (Z.land arh 128 =? 0); cbn [negb]; by destruct (_ || _).
Qed.

Lemma init_seg_loads_witness :
  load_fields (mkSeg 0x10 0 0 0 0 0 0 1 <| seg := 0x10 |>) 0xFFFF 0x5678 0x9334 0x12CF =
  init_seg (mkSeg 0x10 0 0 0 0 0 0 1) 0x10 0x12345678 0xFFFFF 0x93 0xCF.
Proof. apply (init_seg_loads (mkSeg 0x10 0 0 0 0 0 0 1) 0x10 0x12345678 0xFFFFF 0x93 0xCF); by vm_compute. Defined.

(** The attribute word of a descriptor's third and fourth words and limit. *)
Definition attr_word (acc g db raw : Z) : Z :=
  acc mod 2 * 2 ^ 30 + (g * 2 ^ 29 + (db * 2 ^ 28 + (acc / 128 * 2 ^ 27 + ((acc / 32) mod 4 * 2 ^ 25 +
  ((acc / 16) mod 2 * 2 ^ 24 + (acc mod 16 * 2 ^ 20 + raw)))))).

Lemma attr_pack acc g db raw :
  is_u8 acc -> 0 <= g < 2 -> 0 <= db < 2 -> 0 <= raw < 1048576 ->
  Z.lor (Z.lor (Z.lor (Z.lor (Z.lor (Z.lor (Z.lor
      (Z.shiftl (Z.land acc 1) 30) (Z.shiftl g 29)) (Z.shiftl db 28)) (Z.shiftl (Z.shiftr acc 7) 27))
      (Z.shiftl (Z.land (Z.shiftr acc 5) 3) 25)) (Z.shiftl (Z.land (Z.shiftr acc 4) 1) 24))
      (Z.shiftl (Z.land acc 0xF) 20)) raw = attr_word acc g db raw.
Proof.
  intros Ha Hg Hd Hr. unfold is_u8 in Ha. rewrite land_1, land_15, land_3, land_1, !shiftr_div by lia.
  change (2 ^ 7) with 128. change (2 ^ 5) with 32. change (2 ^ 4) with 16. rewrite <- !Z.lor_assoc. unfold attr_word.
  assert (0 <= acc mod 16 < 16) by (apply Z.mod_pos_bound; lia).
  assert (0 <= (acc / 16) mod 2 < 2) by (apply Z.mod_pos_bound; lia).
  assert (0 <= (acc / 32) mod 4 < 4) by (apply Z.mod_pos_bound; lia).
  assert (0 <= acc / 128 < 2) by divlia.
  assert (0 <= acc mod 2 < 2) by (apply Z.mod_pos_bound; lia).
  by rewrite (lor_shiftl_add (acc mod 16)), (lor_shiftl_add ((acc / 16) mod 2)), (lor_shiftl_add ((acc / 32) mod 4)),
    (lor_shiftl_add (acc / 128)), (lor_shiftl_add db), (lor_shiftl_add g), (lor_shiftl_add (acc mod 2)) by lia.
Qed.

(** In protected mode the snapshot's attribute word of a segment register
    that was loaded from a descriptor holds the descriptor's own A, G, D/B, P,
    DPL, S, type and 20-bit limit, each in its place: the expanded limit that
    86Box keeps loses nothing. *)
Lemma seg_attr_descriptor s d0 d1 d2 d3 is_cs nullable
  (H0 : is_u16 d0) (H1 : is_u16 d1) (H2 : is_u16 d2) (H3 : is_u16 d3)
  (Hsel : nullable = false \/ Z.land (seg s) 0xfffc <> 0) :
  seg_attr true false (load_fields s d0 d1 d2 d3) is_cs nullable =
  attr_word (d2 / 256) ((d3 / 128) mod 2) ((d3 / 64) mod 2) (d0 + d3 mod 16 * 65536).
Proof.
  unfold is_u16 in *. unfold seg_attr. cbn [andb negb].
  set (raw := d0 + d3 mod 16 * 65536). assert (0 <= raw < 1048576) as Hraw by (subst raw; divlia).
  set (t := load_fields s d0 d1 d2 d3).
  assert (seg t = seg s /\ access t = d2 / 256 /\ ar_high t = d3 mod 256 /\
          limit t = if (d3 / 128) mod 2 =? 1 then raw * 4096 + 4095 else raw) as (Es & Ea & Er & El).
  { subst t. unfold load_fields. rewrite (flag_bit d3 0x80 7) by lia. change (2 ^ 7) with 128. rewrite negb_involutive.
    assert (Z.lor d0 (Z.shiftl (Z.land d3 15) 16) = raw) as ->.
    { rewrite Z.lor_comm, land_15, lor_shiftl_add by lia. subst raw. lia. }
    assert (Z.lor (u32 (Z.shiftl raw 12)) 4095 = raw * 4096 + 4095) as ->.
    { rewrite u32_id by (rewrite Z.shiftl_mul_pow2 by lia; unfold is_u32; lia). rewrite lor_shiftl_add by lia. done. }
    destruct (_ || _); cbn; by rewrite shiftr_div, land_255 by lia. }
  rewrite Es, Ea, Er, El. clear t Es Ea Er El.
  assert (nullable && (Z.land (seg s) 0xfffc =? 0) = false) as ->.
  { destruct Hsel as [->|Hs]; [done|]. by rewrite (proj2 (Z.eqb_neq _ _) Hs), andb_false_r. }
  rewrite (shiftr_div (d3 mod 256) 7), (shiftr_div (d3 mod 256) 6), (shiftr_div _ 12) by lia.
  change (2 ^ 7) with 128. change (2 ^ 6) with 64. change (2 ^ 12) with 4096.
  rewrite (land_1 (d3 mod 256 / 128)), (land_1 (d3 mod 256 / 64)).
  assert ((d3 mod 256 / 128) mod 2 = (d3 / 128) mod 2) as -> by divlia.
  assert ((d3 mod 256 / 64) mod 2 = (d3 / 64) mod 2) as -> by divlia.
  change 0xFFFFF with (Z.ones 20). rewrite Z.land_ones by lia. change (Z.ones 20) with 1048575.
  assert (is_u8 (d2 / 256)) as Hacc by (unfold is_u8; divlia).
  assert (0 <= (d3 / 64) mod 2 < 2) as Hdb by (apply Z.mod_pos_bound; lia).
  pose proof (Z.mod_pos_bound (d3 / 128) 2 ltac:(lia)) as Hg.
  assert (Z.lor ((d3 / 128) mod 2) (b2z (1048575 <? (if (d3 / 128) mod 2 =? 1 then raw * 4096 + 4095 else raw))) =
          (d3 / 128) mod 2) as ->.
  { destruct (Z.eqb_spec ((d3 / 128) mod 2) 1) as [->|]; [by destruct (1048575 <? _)|].
    rewrite (proj2 (Z.ltb_ge _ _)) by lia. by rewrite Z.lor_0_r. }
  rewrite attr_pack; [|done..|apply Z.mod_pos_bound; lia]. f_equal.
  destruct (Z.eqb_spec ((d3 / 128) mod 2) 1) as [->|Hg0]; cbn [negb Z.eqb].
  - divlia.
  - assert ((d3 / 128) mod 2 = 0) as -> by lia. cbn [negb Z.eqb]. apply Z.mod_small. by change (2 ^ 20) with 1048576.
Qed.

Lemma seg_attr_descriptor_witness :
  seg_attr true false (load_fields (mkSeg 0x10 0 0 0 0 0 0 1) 0xFFFF 0x5678 0x9334 0x12CF) false true =
  attr_word 0x93 1 1 0xFFFFF.
Proof. apply (seg_attr_descriptor (mkSeg 0x10 0 0 0 0 0 0 1) 0xFFFF 0x5678 0x9334 0x12CF false true); first [by vm_compute | right; by vm_compute]. Defined.

(** ** Tables *)

(** The two tables of the opcodes that have a ModR/M byte, the reference's
    own decoder's and 86Box's, agree on every opcode. *)
Lemma modrm_tables_agree :
  Forall (fun op => modrm_1byte op = negb (znth 0 opcode_has_modrm op =? 0)) (map Z.of_nat (seq 0 256)).
Proof.
  apply Forall_forall. intros op Hop.
  assert (forallb (fun op => Bool.eqb (modrm_1byte op) (negb (znth 0 opcode_has_modrm op =? 0))) (map Z.of_nat (seq 0 256)) = true) as H
    by by vm_compute.
  rewrite forallb_forall in H. by apply eqb_prop, H, list_elem_of_In.
Qed.

(** The parity flag of a byte: set for an even number of ones. *)
Definition even_parity (i : Z) : bool :=
  negb (foldr (fun j b => xorb (Z.testbit i (Z.of_nat j)) b) false (seq 0 8)).

Lemma count_bits_parity n : forall j i, 0 <= j ->
  (count_bits n j i mod 2 =? 1) = foldr (fun k b => xorb (Z.testbit i (j + Z.of_nat k)) b) false (seq 0 n).
Proof.
  induction n as [|n IH]; intros j i Hj; [done|]. cbn [count_bits seq foldr].
  rewrite Z.shiftl_1_l, land_pow2, negb_involutive, Z.add_0_r by lia.
  assert (foldr (fun k b => xorb (Z.testbit i (j + Z.of_nat k)) b) false (seq 1 n) =
          foldr (fun k b => xorb (Z.testbit i (j + 1 + Z.of_nat k)) b) false (seq 0 n)) as ->.
  { rewrite <- seq_shift. clear. induction (seq 0 n) as [|k l IH]; [done|]. cbn [map foldr]. rewrite IH.
    by replace (j + Z.of_nat (S k)) with (j + 1 + Z.of_nat k) by lia. }
  rewrite <- IH by lia. destruct (Z.testbit i j); [|by rewrite xorb_false_l].
  cbn [xorb]. pose proof (Z.mod_pos_bound (count_bits n (j + 1) i) 2).
  rewrite Z.add_mod by lia. change (1 mod 2) with 1.
  destruct (Z.eqb_spec (count_bits n (j + 1) i mod 2) 1) as [->|]; [done|].
  by assert (count_bits n (j + 1) i mod 2 = 0) as -> by lia.
Qed.

Lemma znp_parity i : znp i = if even_parity (i mod 256) then 4 else 0.
Proof.
  assert (even_parity (i mod 256) = even_parity i) as ->.
  { unfold even_parity. f_equal. change 256 with (2 ^ 8). cbn [seq foldr]. by rewrite !Z.mod_pow2_bits_low by lia. }
  unfold znp, even_parity. rewrite land_1.
  assert (foldr (fun j b => xorb (Z.testbit i (Z.of_nat j)) b) false (seq 0 8) = (count_bits 8 0 i mod 2 =? 1)) as ->
    by (symmetry; apply (count_bits_parity 8 0 i); lia).
  pose proof (Z.mod_pos_bound (count_bits 8 0 i) 2). destruct (Z.eqb_spec (count_bits 8 0 i mod 2) 1) as [->|]; [done|].
  by assert (count_bits 8 0 i mod 2 = 0) as -> by lia.
Qed.

Lemma znth_znp_table n i : 0 <= i < n -> znth 0 (znp_table n) i = znp i.
Proof.
  intros Hi. unfold znth, zlookup, znp_table. rewrite (proj2 (Z.leb_le 0 i)) by lia.
  rewrite list_lookup_fmap, lookup_seq_lt by lia. simpl. f_equal. lia.
Qed.

(** Both parity tables give the parity flag of the low byte of their index:
    the 16-bit results too, of which x86 counts only eight bits. *)
Lemma parity_tables i j (Hi : 0 <= i < 256) (Hj : 0 <= j < 65536) :
  znth 0 x86_init_znp_tables.1 i = (if even_parity i then 4 else 0) /\
  znth 0 x86_init_znp_tables.2 j = (if even_parity (j mod 256) then 4 else 0).
Proof.
  unfold x86_init_znp_tables. cbn [fst snd]. rewrite !znth_znp_table, !znp_parity by done.
  by rewrite (Z.mod_small i).
Qed.

Lemma parity_tables_witness :
  znth 0 x86_init_znp_tables.1 7 = (if even_parity 7 then 4 else 0) /\
  znth 0 x86_init_znp_tables.2 0x107 = (if even_parity (0x107 mod 256) then 4 else 0).
Proof. apply (parity_tables 7 0x107); by split. Defined.
